(* ===== verification/_CoqProject ===== *)
-Q . S2P
Prelude.v
Ring.v
State.v
Spin.v
Sleep.v
Uart.v
Printf.v
Bio.v
Log.v
Txn.v
Strings.v
Kalloc.v
Vm.v
FsBlock.v
FsInode.v
FsFile.v
FsWrite.v
FsDir.v
Path.v
Trunc.v
Console.v
Pipe.v
File.v
Proc.v
Exec.v
Syscall.v
Sysfile.v
Virtio.v
Trap.v
Fd.v
Mkfs.v
Image.v
Asm.v
Initcode.v
Boot.v
Ulib.v
Sys.v
Shell.v
Grep.v
Malloc.v
Utils.v
Progs.v
World.v
TestsFs.v
TestsProc.v
Usertests.v
