(* ===== verification/Prelude.v ===== *)
(** * A verification library for xv6 on RISC-V

    ** The program

    src/kernel is a Unix kernel in C for a RISC-V machine with several harts: locks
    (spinlock.c, sleeplock.c), physical pages and page tables (kalloc.c, vm.c), a disk
    driver, a buffer cache, a write-ahead log and a file system on it (virtio_disk.c,
    bio.c, log.c, fs.c), open files and pipes (file.c, pipe.c), processes, their
    scheduling and the programs they run (proc.c, exec.c), system calls (syscall.c,
    sysproc.c, sysfile.c), traps and interrupts (trap.c, plic.c), the serial port and the
    console (uart.c, console.c, printf.c), and booting (start.c, main.c).  A system call
    runs in the kernel on behalf of a process, waits for other processes and for devices
    with [sleep] and is woken by them or by an interrupt handler with [wakeup].  Every
    change of the file system is made inside a transaction of the log.  The assembly files
    enter and leave the kernel and switch between its threads.

    src/mkfs/mkfs.c builds, on another machine, the disk image that the kernel starts from.
    src/user has the programs of the system: the library (ulib.c, printf.c, umalloc.c), the
    first programs (initcode.S, init.c), the shell sh.c, the commands, and the tests of the
    kernel (usertests.c, forktest.c, stressfs.c, grind.c).  They see the kernel through the
    21 system calls of user.h.

    ** How it is modelled

    One record, [kernel] of State.v, holds the variables of the C files: harts, locks and
    the process table ([k_core]), the buffer cache, the disk, the log, the superblock, the
    inode and file tables, pipes, physical memory, the clock, the addresses of the kernel
    image, and the devices and registers ([k_dev]).  A C function is a Rocq function of the
    same name in the monad [M] of this file: it takes the state to an [outcome], which is

    - [Ok], a value and the new state;
    - [Panic], a call of panic with its message;
    - [Wait], the thread stops until something happens: it sleeps on a channel, spins for a
      lock, has switched to another context, polls a device or has stopped for good;
    - [Fault], an access the C program may not make (outside an array or outside RAM);
    - [NoFuel], a loop ran longer than its bound.

    Assignments, calls, early returns and conditions are in the order of the source.
    Integers are [Z] with the wrap-around of their type written out ([u32], [i32], ...);
    memory is a function from addresses to bytes, and page tables, the free list of pages
    and trap frames are in it as the code has them.  Loops whose bound is in the code are
    recursive on it.  Others have fuel that a theorem shows to be enough: [readi_loop] and
    [writei_loop] one block per round ([rw_fuel]), [copyin_loop] and [copyout_loop] one page
    per round ([copy_fuel_enough]), [namex_loop] one element of the path per round
    ([namex_walks]), [uartstart_loop] the characters in its ring, [free_chain_loop] and
    [intr_loop] the descriptors of the queue.  [pipewrite_loop] and [piperead_loop] take a
    byte per round.  In the user programs, the parser of the shell nests four calls
    deep at most for each character ([parse_fuel], [parsecmd_total]), [iappend] of mkfs one block
    per round, [malloc] one block of its list per round, [find] the depth a path of 512
    bytes can have, [primes] one process per number of its input.

    [wp m Q k] says that [m] started in [k] returns, and that its value and final state
    satisfy [Q]: the theorems are about total correctness, and a theorem that the code
    waits or panics says so ([waits], [panics]).

    A call that has to wait ends in [Wait]; what the thread does when it goes on is a
    definition of its own where the code after the wait is not the code before it
    ([sleep_return], [rw_finish], [scheduler_back], [yield_return], [sched_return]).
    Concurrency between harts is modelled where it is the point: [Smp] of Spin.v,
    [Wake] of Sleep.v and [boot_step] of Boot.v are step relations on the memory operations
    of [acquire], [release], [sleep] and [wakeup], and on the calls of [main], and the
    theorems on them hold in every interleaving.  Elsewhere the functions run on one hart
    and the theorems assume that the locks they take are free.

    Assembly code is a list of instructions that [run] of Asm.v executes on the registers of
    a hart and on physical memory, through the page table that satp names.

    A user program that computes a result from its input is a function ([wc], [find], the
    parser of the shell).  A program that is about its system calls is an interaction tree
    over [sysE] of Sys.v, one constructor for each call: its runs are the sequences of calls
    and answers ([runs]), where a call may return anything of its type.  [obeys] says that
    every run keeps to a monitor, for runs of every length, so that no bound on the length
    is chosen.  In World.v processes that run such programs share pipes and a process table,
    as the calls promise it, and the theorems hold under every schedule ([inevitable]).

    ** The files

    - Prelude: machine integers, little-endian bytes, outcomes, the monad, the rules of
      [wp], tactics and rewrite databases, lemmas on lists.  Ring: ring buffers whose
      counters wrap around.  State: the data of the header files and the global state.
    - Spin: spinlock.c.  Sleep: [sched], [sleep] and [wakeup] of proc.c, and sleeplock.c.
    - Bio: bio.c.  Virtio: virtio_disk.c, and that it does what Bio relies on it for.
    - Log: log.c, its crashes and recovery.  Txn: the class [TxnLaws], what fs.c relies on
      bio.c and log.c for inside a transaction, and that they provide it.
    - Strings: string.c.  Kalloc: kalloc.c.  Vm: vm.c.
    - FsBlock, FsInode, FsDir: the definitions of fs.c (blocks, inodes and their contents,
      directories and paths).  FsFile and FsWrite: theorems on [bmap], [readi], [writei].
    - Uart, Printf, Console: uart.c, printf.c with [procdump], console.c with [uartintr].
    - Pipe: pipe.c.  File: file.c with [pipealloc].  Proc: proc.c.  Exec: exec.c.
    - Syscall: syscall.c and sysproc.c.  Sysfile: sysfile.c and the table of system calls.
    - Trap: trap.c, plic.c, [forkret], main.c and start.c.  Boot: the order in which the
      harts run [main].
    - Path: [namex] in the tree of directories.  Trunc: [itrunc] and [iput].  Fd: the table
      of open files and [dup], [close] and [fork] on it.
    - Asm: trampoline.S, swtch.S, kernelvec.S and entry.S.  Initcode: the bytes of the first
      program in proc.c, decoded and run, and the listing initcode.S.
    - Mkfs: mkfs.c.  Image: the kernel on the image that mkfs builds.
    - Ulib: ulib.c and printf.c of src/user.  Malloc: umalloc.c.  Shell: sh.c.  Grep: grep.c.
      Utils: wc, cat, echo, ls, find, primes, xargs, and the random numbers of grind.
    - Sys: system calls as programs see them, runs, monitors and the rules of [obeys].
      Progs: kill, ln, mkdir, rm, sleep, zombie, init, pingpong, forktest, stressfs, grind.
      World: processes side by side, pingpong and forktest.
    - TestsFs and TestsProc: the tests of usertests.c, on files and on processes and memory.
      Usertests: its table of tests and its driver.

    ** What the theorems show

    - Crash safety: a crash after any block write of [commit], and any number of crashes
      during recovery, leave the disk before or after the whole transaction
      ([commit_crash_atomic], [recovery_correct]); [end_op] writes in the write-ahead order
      ([end_op_commits]); operations are admitted and blocks recorded as the log has room
      ([begin_op_admits], [log_write_records]), except that the reservation is one block
      short ([log_reservation_one_short], a defect of the code).
    - Refinement: the buffer cache implements a store of blocks ([bread_refines],
      [brelse_refines], [write_then_read], [binit_establishes], [bget_recycles_lru]); the disk
      driver with a device and the interrupt handler implements the transfer the cache
      relies on ([virtio_disk_rw_refines]); a file system operation is a transaction on
      blocks ([transaction_commits]).
    - The file system: allocation of blocks ([balloc_correct], [bfree_correct]); the
      contents of files ([writei_correct], [readi_correct], [writei_readi]); a directory is a
      map from names to inodes ([dirlookup_correct], [dirlink_correct]); a path leads to the
      inode it names, with one reference for the caller ([namex_correct]); the last
      reference to a file without links frees its blocks ([iput_frees]).
    - Open files: their counts are the numbers of descriptors that refer to them
      ([sys_dup_correct], [sys_close_correct], [fork_files_correct]).
    - The image: mkfs writes what its arguments say ([mkfs_correct]), and the kernel reads it
      back by name ([image_readable]).
    - Memory: pages are handed out once ([kalloc_correct], [kfree_correct],
      [kinit_frees_all]); mappings and user memory ([mappages_correct], [copyout_correct],
      [copyin_correct], [copyout_copyin]); [memmove_overlap] and the other string routines.
    - Concurrency: mutual exclusion of spinlocks ([spinlock_mutual_exclusion]); no wakeup is
      lost ([no_lost_wakeup]); [wakeup] and [kill] wake whom they should ([wakeup_exact],
      [kill_correct]).
    - Queues of bytes: pipes ([pipewrite_appends], [piperead_takes]), the serial port
      ([uartputc_fifo]), the lines of the console ([consoleintr_correct]).
    - Entering and leaving the kernel: a trap and its return give the user its registers
      back ([trap_roundtrip], [return_to_user_correct], [usertrapret_correct]); a trap in the
      kernel changes nothing the interrupted code sees ([kernelvec_transparent]); [swtch]
      resumes the thread it switches to ([swtch_resumes]).
    - Starting: the harts wait for the set-up ([boot_order], [boot_progress]); the first
      process calls exec with /init and after that only exit ([first_process]); init keeps
      one shell running ([init_keeps_shell]).
    - User programs: the allocator ([malloc_correct], [free_correct]); the shell parses what
      it prints ([parsecmd_show]), every line ([parsecmd_total]), and connects the commands
      as the line says ([shell_session]); grep ([match_correct], [grep_correct]), wc, find,
      xargs and primes.
    - Programs under every schedule: pingpong and forktest end, with the right output
      ([pingpong_ends], [forktest_ends]).
    - Programs whatever the calls return: grind does not collect descriptors
      ([grind_descriptors]); usertests exits with 0 only when every test has
      ([verdict_correct]); a test that prints anything does not pass ([complaints_fail]),
      but for three of them ([lenient_tests_pass], a defect of the tests).

    ** What is not modelled

    - ramdisk.c, which is not built and uses fields that its buffers do not have.
    - Memory ordering: [__sync_synchronize] has no counterpart, and the step relations
      interleave single memory operations.
    - Devices are what the code sees of them: the serial port and the interrupt controller
      as queues of characters and interrupts, control registers as a trace of writes, and
      the disk as a parameter of [virtio_disk_rw_refines] that serves the requests it is
      offered.
    - The hardware beyond what the code uses: of the functions of riscv.h that read and write
      control registers there are those that the kernel calls, as fields of a record; the
      instruction set has the instructions of the assembly files.
    - Build files, declarations (defs.h) and the linker script. *)

From stdpp Require Export base list gmap numbers strings sorting.
From Stdlib Require Export Lia.

#[global] Open Scope Z_scope.

(** ** Machine integers

    A C integer is a [Z]; every arithmetic operation that can leave its range
    is followed by the conversion to its type. *)

Definition u8 (x : Z) : Z := x mod 2 ^ 8.

Definition u16 (x : Z) : Z := x mod 2 ^ 16.

Definition u32 (x : Z) : Z := x mod 2 ^ 32.

Definition u64 (x : Z) : Z := x mod 2 ^ 64.

Definition swrap (w : Z) (x : Z) : Z :=
  let y := x mod 2 ^ w in if y <? 2 ^ (w - 1) then y else y - 2 ^ w.

Definition i16 (x : Z) : Z := swrap 16 x.

Definition i32 (x : Z) : Z := swrap 32 x.

Definition i64 (x : Z) : Z := swrap 64 x.

Definition zb (b : bool) : Z := if b then 1 else 0.

(** A C value used as a condition. *)
Definition truthy (x : Z) : bool := negb (x =? 0).

(** ** Bytes in little-endian order *)

Fixpoint le_split (n : nat) (x : Z) : list Z :=
  match n with
  | O => []
  | S n => x mod 256 :: le_split n (x / 256)
  end.

Fixpoint le_join (l : list Z) : Z :=
  match l with
  | [] => 0
  | b :: l => b mod 256 + 256 * le_join l
  end.

(** The [n] bytes of [l] at offset [off], and their replacement. *)

Definition slice {A} (off n : nat) (l : list A) : list A := take n (drop off l).

Definition splice {A} (off : nat) (v l : list A) : list A :=
  take off l ++ v ++ drop (off + length v) l.

(** ** Outcomes

    A C function that reads and writes the machine state [S] is a function
    from a state to an outcome.  It returns a value; or it calls [panic]
    and the machine stops; or it waits for something only another thread can
    do ([wait] says for what) and the state is the one other threads then see;
    or it accesses memory or an array outside its bounds; or a loop does not
    end within the bound it is given. *)

Inductive outcome (W S A : Type) : Type :=
| Ok (a : A) (s : S)
| Panic (msg : string)
| Wait (w : W) (s : S)
| Fault
| NoFuel.

Arguments Ok {W S A} a s.
Arguments Panic {W S A} msg.
Arguments Wait {W S A} w s.
Arguments Fault {W S A}.
Arguments NoFuel {W S A}.

Definition M (W S A : Type) : Type := S -> outcome W S A.

Definition M_ret {W S A} (a : A) : M W S A := fun s => Ok a s.

Definition M_bind {W S A B} (m : M W S A) (f : A -> M W S B) : M W S B :=
  fun s =>
    match m s with
    | Ok a s' => f a s'
    | Panic msg => Panic msg
    | Wait w s' => Wait w s'
    | Fault => Fault
    | NoFuel => NoFuel
    end.

Definition panic {W S A} (msg : string) : M W S A := fun _ => Panic msg.

Definition fault {W S A} : M W S A := fun _ => Fault.

Definition nofuel {W S A} : M W S A := fun _ => NoFuel.

Definition wait_for {W S A} (w : W) : M W S A := fun s => Wait w s.

Definition gets {W S A} (f : S -> A) : M W S A := fun s => Ok (f s) s.

Definition modify {W S} (f : S -> S) : M W S unit := fun s => Ok tt (f s).

Definition when {W S} (b : bool) (m : M W S unit) : M W S unit :=
  if b then m else M_ret tt.

Definition of_opt {W S A} (o : option A) : M W S A :=
  match o with Some a => M_ret a | None => fault end.

(** [for(x in l) body]. *)
Fixpoint for_each {W S X} (l : list X) (body : X -> M W S unit) : M W S unit :=
  match l with
  | [] => M_ret tt
  | x :: l => M_bind (body x) (fun _ => for_each l body)
  end.

(** A [for] loop left early with a value by [break], [goto] or [return]. *)
Fixpoint for_find {W S X B} (l : list X) (body : X -> M W S (option B)) :
    M W S (option B) :=
  match l with
  | [] => M_ret None
  | x :: l =>
      M_bind (body x) (fun r =>
        match r with
        | Some b => M_ret (Some b)
        | None => for_find l body
        end)
  end.

Declare Scope xv6_scope.
Delimit Scope xv6_scope with xv6.
#[global] Open Scope xv6_scope.

Notation "'let*' x ':=' m 'in' k" := (M_bind m (fun x => k))
  (at level 10, x name, m at level 200, k at level 200) : xv6_scope.
Notation "m ';*' k" := (M_bind m (fun _ => k))
  (at level 199, k at level 200, right associativity) : xv6_scope.

(** ** Total correctness

    [wp m Q s]: started in [s], [m] returns, and its value and final state
    satisfy [Q]. *)

Definition wp {W S A} (m : M W S A) (Q : A -> S -> Prop) (s : S) : Prop :=
  match m s with
  | Ok a s' => Q a s'
  | _ => False
  end.

Section wp_rules.
Context {W S : Type}.

Lemma wp_ret {A} (a : A) (Q : A -> S -> Prop) s : Q a s -> wp (W:=W) (M_ret a) Q s.
Proof. exact id. Qed.

Lemma wp_bind {A B} (m : M W S A) (f : A -> M W S B) Q s :
  wp m (fun a s' => wp (f a) Q s') s -> wp (M_bind m f) Q s.
Proof. unfold wp, M_bind. destruct (m s); tauto. Qed.

Lemma wp_mono {A} (m : M W S A) (P Q : A -> S -> Prop) s :
  wp m P s -> (forall a s', P a s' -> Q a s') -> wp m Q s.
Proof. unfold wp. destruct (m s); auto. Qed.

Lemma wp_gets {A} (f : S -> A) (Q : A -> S -> Prop) s :
  Q (f s) s -> wp (W:=W) (gets f) Q s.
Proof. exact id. Qed.

Lemma wp_modify (f : S -> S) (Q : unit -> S -> Prop) s :
  Q tt (f s) -> wp (W:=W) (modify f) Q s.
Proof. exact id. Qed.

Lemma wp_when b (m : M W S unit) Q s :
  (b = true -> wp m Q s) -> (b = false -> Q tt s) -> wp (when b m) Q s.
Proof. intros H1 H2. destruct b; [by apply H1|by apply wp_ret, H2]. Qed.

Lemma wp_if {A} (b : bool) (m1 m2 : M W S A) Q s :
  (b = true -> wp m1 Q s) -> (b = false -> wp m2 Q s) ->
  wp (if b then m1 else m2) Q s.
Proof. destruct b; auto. Qed.

Lemma wp_assoc {A B C} (m : M W S A) (f : A -> M W S B) (g : B -> M W S C) Q s :
  wp (M_bind (M_bind m f) g) Q s -> wp (M_bind m (fun a => M_bind (f a) g)) Q s.
Proof. unfold wp, M_bind. by destruct (m s). Qed.

Lemma wp_of_opt {A} (o : option A) a (Q : A -> S -> Prop) s :
  o = Some a -> Q a s -> wp (W:=W) (of_opt o) Q s.
Proof. intros ->. exact id. Qed.

Lemma bind_ok {A B} (m : M W S A) (f : A -> M W S B) s a s' : m s = Ok a s' -> M_bind m f s = f a s'.
Proof. unfold M_bind. by intros ->. Qed.

Lemma wp_same {A} (m m' : M W S A) Q s s' : m s = m' s' -> wp m' Q s' -> wp m Q s.
Proof. unfold wp. by intros ->. Qed.

Lemma wp_run {A} (m : M W S A) Q s :
  wp m Q s <-> exists a s', m s = Ok a s' /\ Q a s'.
Proof.
  unfold wp. split.
  - destruct (m s) as [a s'| | | |]; naive_solver.
  - intros (a & s' & -> & H). exact H.
Qed.

Lemma wp_ok {A} (m : M W S A) Q s :
  wp m Q s -> exists a s', m s = Ok a s' /\ Q a s'.
Proof. apply wp_run. Qed.

(** A [for] loop keeps an invariant indexed by the iterations done. *)
Lemma wp_for_each {X} (l : list X) (body : X -> M W S unit)
    (I : nat -> S -> Prop) s :
  I 0%nat s ->
  (forall i x s', l !! i = Some x -> I i s' -> wp (body x) (fun _ s'' => I (Datatypes.S i) s'') s') ->
  wp (for_each l body) (fun _ s' => I (length l) s') s.
Proof.
  revert I s. induction l as [|x l IH]; intros I s H0 Hstep; simpl.
  - exact H0.
  - apply wp_bind. eapply wp_mono.
    + apply (Hstep 0%nat x s); [reflexivity|exact H0].
    + intros a0 s' H'. apply (IH (fun i => I (Datatypes.S i))); [exact H'|].
      intros i y s'' Hi. by apply (Hstep (Datatypes.S i)).
Qed.

(** A searching loop either runs through, or stops at an iteration whose body
    produced a value. *)
Lemma wp_for_find {X B} (l : list X) (body : X -> M W S (option B))
    (I : nat -> S -> Prop) (Q : option B -> S -> Prop) s :
  I 0%nat s ->
  (forall i x s', l !! i = Some x -> I i s' ->
     wp (body x) (fun r s'' =>
       match r with Some b => Q (Some b) s'' | None => I (Datatypes.S i) s'' end) s') ->
  (forall s', I (length l) s' -> Q None s') ->
  wp (for_find l body) Q s.
Proof.
  revert I s. induction l as [|x l IH]; intros I s H0 Hstep Hend; simpl.
  - apply wp_ret. auto.
  - apply wp_bind. eapply wp_mono; [by apply (Hstep 0%nat x s)|].
    intros [b|] s' H'; [exact H'|].
    apply (IH (fun i => I (Datatypes.S i))); [exact H'| |exact Hend].
    intros i y s'' Hi. by apply (Hstep (Datatypes.S i)).
Qed.

(** [m] stops waiting for [w], in a state that satisfies [Q]. *)
Definition waits {A} (m : M W S A) (w : W) (Q : S -> Prop) (s : S) : Prop :=
  match m s with
  | Wait w' s' => w' = w /\ Q s'
  | _ => False
  end.

(** [m] panics. *)
Definition panics {A} (m : M W S A) (msg : string) (s : S) : Prop := m s = Panic msg.

Lemma waits_bind {A B} (m : M W S A) (f : A -> M W S B) w Q s :
  wp m (fun a s' => waits (f a) w Q s') s -> waits (M_bind m f) w Q s.
Proof. unfold wp, waits, M_bind. by destruct (m s). Qed.

Lemma waits_bind_l {A B} (m : M W S A) (f : A -> M W S B) w Q s :
  waits m w Q s -> waits (M_bind m f) w Q s.
Proof. unfold waits, M_bind. by destruct (m s). Qed.

Lemma waits_same {A} (m m' : M W S A) w Q s s' : m s = m' s' -> waits m' w Q s' -> waits m w Q s.
Proof. unfold waits. by intros ->. Qed.

Lemma waits_ok {A} (m : M W S A) w Q s : waits m w Q s -> exists s', m s = Wait w s' /\ Q s'.
Proof. unfold waits. destruct (m s); try done. intros [-> H]. eauto. Qed.

Lemma waits_mono {A} (m : M W S A) w (Q Q' : S -> Prop) s :
  waits m w Q s -> (forall s', Q s' -> Q' s') -> waits m w Q' s.
Proof. unfold waits. destruct (m s); try done. intros [? ?]. auto. Qed.

Lemma panics_bind {A B} (m : M W S A) (f : A -> M W S B) msg s :
  wp m (fun a s' => panics (f a) msg s') s -> panics (M_bind m f) msg s.
Proof. unfold wp, panics, M_bind. by destruct (m s). Qed.

Lemma panics_bind_l {A B} (m : M W S A) (f : A -> M W S B) msg s :
  panics m msg s -> panics (M_bind m f) msg s.
Proof. unfold panics, M_bind. by intros ->. Qed.

End wp_rules.

(** Symbolic execution of straight-line code. *)
Ltac wp_step :=
  lazymatch goal with
  | |- wp (M_ret _) _ _ => apply wp_ret
  | |- wp (M_bind _ _) _ _ => apply wp_bind
  | |- waits (M_bind _ _) _ _ _ => apply waits_bind
  | |- panics (M_bind _ _) _ _ => apply panics_bind
  | |- wp (gets _) _ _ => apply wp_gets
  | |- wp (modify _) _ _ => apply wp_modify
  | |- wp (of_opt (Some _)) _ _ => eapply wp_of_opt; [reflexivity|]
  | |- wp (when true _) _ _ => unfold when at 1
  | |- wp (when false _) _ _ => apply wp_ret
  end.

Ltac wp_steps := cbn beta; repeat (wp_step; cbn beta).

(** Use a specification of the current command, keeping its postcondition. *)
Tactic Notation "wp_apply" uconstr(lem) := eapply wp_mono; [eapply lem|].

(** ** Automation *)

Create Rewrite HintDb len.
Create Rewrite HintDb ints.
#[export] Hint Rewrite @length_app @length_take @length_drop @length_replicate
  @length_insert @length_alter @length_fmap @length_reverse @length_seq : len.

Ltac len := autorewrite with len; simpl; try lia.

Ltac split_ands := repeat match goal with |- _ /\ _ => split end.

(** Case analysis on boolean tests in hypotheses and goal. *)
Ltac bool_simpl :=
  repeat match goal with
  | H : negb _ = true |- _ => apply negb_true_iff in H
  | H : negb _ = false |- _ => apply negb_false_iff in H
  | H : (_ && _)%bool = true |- _ => apply andb_true_iff in H; destruct H
  | H : (_ || _)%bool = false |- _ => apply orb_false_iff in H; destruct H
  | H : (_ =? _) = true |- _ => apply Z.eqb_eq in H
  | H : (_ =? _) = false |- _ => apply Z.eqb_neq in H
  | H : (_ <? _) = true |- _ => apply Z.ltb_lt in H
  | H : (_ <? _) = false |- _ => apply Z.ltb_ge in H
  | H : (_ <=? _) = true |- _ => apply Z.leb_le in H
  | H : (_ <=? _) = false |- _ => apply Z.leb_gt in H
  | H : bool_decide _ = true |- _ => apply bool_decide_eq_true in H
  | H : bool_decide _ = false |- _ => apply bool_decide_eq_false in H
  end.

(** ** Lemmas on machine integers *)

Lemma u32_small x : 0 <= x < 2 ^ 32 -> u32 x = x.
Proof. intros. apply Z.mod_small. lia. Qed.

Lemma u64_small x : 0 <= x < 2 ^ 64 -> u64 x = x.
Proof. intros. apply Z.mod_small. lia. Qed.

Lemma u32_range x : 0 <= u32 x < 2 ^ 32.
Proof. apply Z.mod_pos_bound. lia. Qed.

Lemma u64_range x : 0 <= u64 x < 2 ^ 64.
Proof. apply Z.mod_pos_bound. lia. Qed.

Lemma i32_small x : - 2 ^ 31 <= x < 2 ^ 31 -> i32 x = x.
Proof.
  intros H. unfold i32, swrap. change (32 - 1) with 31.
  destruct (decide (0 <= x)).
  - rewrite Z.mod_small by lia. destruct (Z.ltb_spec x (2 ^ 31)); lia.
  - replace (x mod 2 ^ 32) with (x + 2 ^ 32).
    + destruct (Z.ltb_spec (x + 2 ^ 32) (2 ^ 31)); lia.
    + apply Z.mod_unique with (q := -1); lia.
Qed.

Lemma i32_range x : - 2 ^ 31 <= i32 x < 2 ^ 31.
Proof.
  unfold i32, swrap. change (32 - 1) with 31.
  pose proof (Z.mod_pos_bound x (2 ^ 32) ltac:(lia)).
  destruct (Z.ltb_spec (x mod 2 ^ 32) (2 ^ 31)); lia.
Qed.

Lemma i32_u32 x : i32 (u32 x) = i32 x.
Proof. unfold i32, swrap, u32. by rewrite Z.mod_mod by lia. Qed.

Lemma u32_i32 x : u32 (i32 x) = u32 x.
Proof.
  unfold i32, swrap, u32. destruct (_ <? _).
  - by rewrite Z.mod_mod by lia.
  - rewrite Zminus_mod, Z.mod_same, Z.sub_0_r, !Z.mod_mod by lia. reflexivity.
Qed.

#[export] Hint Rewrite u32_small u64_small i32_small using lia : ints.

(** ** Lemmas on bytes *)

Lemma length_le_split n x : length (le_split n x) = n.
Proof. revert x. induction n; intros; simpl; auto. Qed.
#[export] Hint Rewrite length_le_split : len.

Lemma le_join_split n x : le_join (le_split n x) = x mod 256 ^ Z.of_nat n.
Proof.
  revert x. induction n as [|n IH]; intros x.
  - simpl. by rewrite Z.mod_1_r.
  - cbn [le_split le_join]. rewrite IH, Z.mod_mod by lia.
    rewrite Nat2Z.inj_succ, Z.pow_succ_r by lia.
    rewrite Z.rem_mul_r by lia. lia.
Qed.

Lemma le_join_bound l : 0 <= le_join l < 256 ^ Z.of_nat (length l).
Proof.
  induction l as [|b l IH].
  - simpl. lia.
  - cbn [le_join length]. rewrite Nat2Z.inj_succ, Z.pow_succ_r by lia.
    pose proof (Z.mod_pos_bound b 256 ltac:(lia)). nia.
Qed.

Lemma le_split_bytes n x : Forall (fun b => 0 <= b < 256) (le_split n x).
Proof.
  revert x. induction n; intros; simpl; constructor; auto.
  apply Z.mod_pos_bound. lia.
Qed.

Lemma le_split_join l :
  Forall (fun b => 0 <= b < 256) l -> le_split (length l) (le_join l) = l.
Proof.
  induction 1 as [|b l Hb _ IH]; [done|].
  cbn [le_join length le_split]. f_equal.
  - rewrite (Z.mul_comm 256), Z.mod_add, Z.mod_mod by lia. apply Z.mod_small. lia.
  - rewrite (Z.mul_comm 256), Z.div_add by lia.
    rewrite (Z.mod_small b), Z.div_small by lia. exact IH.
Qed.

#[global] Arguments le_join : simpl never.
#[global] Arguments le_split : simpl never.

Lemma length_slice {A} off n (l : list A) :
  (off + n <= length l)%nat -> length (slice off n l) = n.
Proof. intros. unfold slice. len. Qed.

Lemma length_splice {A} off (v l : list A) :
  (off + length v <= length l)%nat -> length (splice off v l) = length l.
Proof. intros. unfold splice. len. Qed.

Lemma slice_splice_same {A} off (v l : list A) :
  (off <= length l)%nat -> slice off (length v) (splice off v l) = v.
Proof.
  intros. unfold slice, splice.
  rewrite drop_app_ge by len. len.
  replace (off - (off `min` length l))%nat with 0%nat by lia.
  rewrite drop_0. apply take_app_length.
Qed.

Lemma lookup_splice_out {A} off (v l : list A) i :
  (off + length v <= length l)%nat -> ~ (off <= i < off + length v)%nat ->
  splice off v l !! i = l !! i.
Proof.
  intros Hb Hi. unfold splice. destruct (decide (i < off)%nat).
  - rewrite lookup_app_l by len. by apply lookup_take_lt.
  - rewrite lookup_app_r by len. rewrite lookup_app_r by len. len.
    rewrite lookup_drop. f_equal. lia.
Qed.

Lemma lookup_splice_in {A} off (v l : list A) i :
  (off + length v <= length l)%nat -> (off <= i < off + length v)%nat ->
  splice off v l !! i = v !! (i - off)%nat.
Proof.
  intros Hb Hi. unfold splice.
  rewrite lookup_app_r by len. len. rewrite lookup_app_l by lia. f_equal. lia.
Qed.

Lemma slice_splice_other {A} off n o (v l : list A) :
  (o + length v <= length l)%nat ->
  (off + n <= o \/ o + length v <= off)%nat ->
  slice off n (splice o v l) = slice off n l.
Proof.
  intros Hb Hd. apply list_eq. intros i. unfold slice.
  destruct (decide (i < n)%nat).
  - rewrite !lookup_take_lt, !lookup_drop by lia.
    rewrite lookup_splice_out by lia. reflexivity.
  - rewrite !lookup_take_ge by lia. reflexivity.
Qed.

Lemma splice_app {A} off (v w l : list A) :
  (off + length v + length w <= length l)%nat ->
  splice (off + length v) w (splice off v l) = splice off (v ++ w) l.
Proof.
  intros Hb. apply list_eq. intros i.
  destruct (decide (off + length v <= i < off + length v + length w)%nat) as [H1|H1].
  - rewrite lookup_splice_in by (rewrite ?length_splice; lia).
    rewrite lookup_splice_in by (rewrite length_app; lia).
    rewrite lookup_app_r by lia. f_equal. lia.
  - rewrite lookup_splice_out by (rewrite ?length_splice; lia).
    destruct (decide (off <= i < off + length v)%nat) as [H2|H2].
    + rewrite !lookup_splice_in by (rewrite ?length_app; lia). by rewrite lookup_app_l by lia.
    + by rewrite !lookup_splice_out by (rewrite ?length_app; lia).
Qed.

Lemma lookup_slice {A} o n (l : list A) i : (i < n)%nat -> slice o n l !! i = l !! (o + i)%nat.
Proof. intros. unfold slice. by rewrite lookup_take_lt, lookup_drop by done. Qed.

Lemma slice_slice {A} o m a n (l : list A) :
  (a + n <= m)%nat -> slice a n (slice o m l) = slice (o + a) n l.
Proof.
  intros Hm. apply list_eq. intros i. destruct (decide (i < n)%nat) as [Hi|Hi].
  - rewrite !lookup_slice by lia. f_equal. lia.
  - unfold slice at 1 3. by rewrite !lookup_take_ge by lia.
Qed.

Lemma Forall_splice {A} (P : A -> Prop) off v l : Forall P v -> Forall P l -> Forall P (splice off v l).
Proof. intros. unfold splice. rewrite !Forall_app. auto using Forall_take, Forall_drop. Qed.

Lemma Forall_slice {A} (P : A -> Prop) off n l : Forall P l -> Forall P (slice off n l).
Proof. intros. unfold slice. auto using Forall_take, Forall_drop. Qed.

(** ** Lemmas on lists *)

Lemma alter_as_insert {A} (f : A -> A) i x (l : list A) :
  l !! i = Some x -> alter f i l = <[i := f x]> l.
Proof.
  intros H. apply list_eq. intros j. destruct (decide (i = j)) as [->|Hne].
  - rewrite list_lookup_alter_eq, H. symmetry. apply list_lookup_insert_eq.
    by eapply lookup_lt_Some.
  - by rewrite list_lookup_alter_ne, list_lookup_insert_ne.
Qed.

Lemma NoDup_lt_all (n : nat) (l : list nat) i :
  NoDup l -> Forall (fun x => (x < n)%nat) l -> length l = n -> (i < n)%nat -> i ∈ l.
Proof.
  intros Hnd Hf Hl Hi.
  assert (Hp : l ≡ₚ seq 0 n).
  { apply submseteq_length_Permutation; [|by rewrite length_seq, Hl].
    apply NoDup_submseteq; [done|]. intros x Hx. rewrite Forall_forall in Hf.
    apply elem_of_seq. specialize (Hf x Hx). lia. }
  rewrite Hp. apply elem_of_seq. lia.
Qed.

(** Distinct elements of a finite set are no more than its size. *)
Lemma NoDup_size `{Countable A} (l : list A) (X : gset A) :
  NoDup l -> (forall x, x ∈ l -> x ∈ X) -> (length l <= size X)%nat.
Proof.
  intros Hnd Hs. rewrite <- (size_list_to_set (C:=gset A) l Hnd).
  apply subseteq_size. intros x Hx%elem_of_list_to_set. auto.
Qed.
