(* ===== verification/Ring.v ===== *)
(** * Ring buffers

    The console, the serial port and pipes keep bytes in an array that is used as a
    ring: a counter of the bytes taken out and one of the bytes put in run freely, wrap
    around at the width [2^w] of their type and are reduced modulo the size of the array
    when they index it.  The size divides [2^w]. *)

From S2P Require Import Prelude.

(** ** Specification *)

(** The [n] bytes from counter [r] on. *)
Definition ring (buf : list Z) (r : Z) (n : nat) : list Z :=
  (fun i => buf !!! Z.to_nat ((r + Z.of_nat i) mod Z.of_nat (length buf))) <$> seq 0 n.

(** ** Lemmas *)

Lemma length_ring buf r n : length (ring buf r n) = n.
Proof. unfold ring. len. Qed.

Lemma ring_S buf r n :
  ring buf r (S n) = buf !!! Z.to_nat (r mod Z.of_nat (length buf)) :: ring buf (r + 1) n.
Proof.
  unfold ring. cbn [seq]. rewrite fmap_cons, Z.add_0_r. f_equal.
  rewrite <- fmap_S_seq, <- list_fmap_compose. apply list_fmap_ext. intros i x _. simpl. do 3 f_equal. lia.
Qed.

Lemma ring_app buf r n m : ring buf r (n + m) = ring buf r n ++ ring buf (r + Z.of_nat n) m.
Proof.
  revert r. induction n as [|n IH]; intros r; [by rewrite Z.add_0_r|].
  change (S n + m)%nat with (S (n + m)). rewrite !ring_S, IH, <- app_comm_cons. do 3 f_equal. lia.
Qed.

(** Only the counter modulo the size matters. *)
Lemma ring_mod buf r r' n :
  r mod Z.of_nat (length buf) = r' mod Z.of_nat (length buf) -> ring buf r n = ring buf r' n.
Proof.
  intros H. unfold ring. apply list_fmap_ext. intros i x _. simpl. do 2 f_equal.
  rewrite <- (Zplus_mod_idemp_l r), H, Zplus_mod_idemp_l. done.
Qed.

(** The counter of a [w]-bit type. *)
Lemma wrap_mod w x s : 0 < s -> (s | 2 ^ w) -> 0 <= w -> (x mod 2 ^ w) mod s = x mod s.
Proof.
  intros Hs [q Hq] Hw. rewrite Hq. rewrite Z.mul_comm.
  assert (0 < 2 ^ w) by (apply Z.pow_pos_nonneg; lia). assert (0 < q) by nia.
  rewrite Z.rem_mul_r by lia. rewrite (Z.mul_comm s (_ mod _)), Z.mod_add, Z.mod_mod by lia. done.
Qed.

(** Two counters less than the size apart index different places. *)
Lemma mod_neq s r i j : 0 <= i < s -> 0 <= j < s -> i <> j -> (r + i) mod s <> (r + j) mod s.
Proof.
  intros Hi Hj Hne E. apply Hne. pose proof (Z.div_mod (r + i) s ltac:(lia)). pose proof (Z.div_mod (r + j) s ltac:(lia)).
  rewrite E in *. assert (i - j = s * ((r + i) / s - (r + j) / s)) as Hd by lia.
  assert ((r + i) / s - (r + j) / s = 0) by nia. lia.
Qed.

(** Putting a byte in. *)
Lemma ring_push buf r n x :
  (n < length buf)%nat ->
  ring (<[Z.to_nat ((r + Z.of_nat n) mod Z.of_nat (length buf)) := x]> buf) r (S n) = ring buf r n ++ [x].
Proof.
  intros Hn. set (s := Z.of_nat (length buf)). set (k := Z.to_nat _).
  assert (Hs : 0 < s) by (unfold s; lia). pose proof (Z.mod_pos_bound (r + Z.of_nat n) s Hs) as Hk.
  replace (S n) with (n + 1)%nat by lia. rewrite ring_app. f_equal.
  - unfold ring. rewrite length_insert. fold s. apply list_fmap_ext. intros i y [-> Hi]%lookup_seq.
    apply list_lookup_total_insert_ne. unfold k. intros E.
    pose proof (Z.mod_pos_bound (r + Z.of_nat (0 + i)) s Hs).
    apply (mod_neq s r (Z.of_nat n) (Z.of_nat i)); [unfold s; lia..|lia|]. cbn [Nat.add] in *. lia.
  - unfold ring. rewrite length_insert. fold s. cbn [seq fmap list_fmap]. rewrite Z.add_0_r. f_equal.
    fold k. apply list_lookup_total_insert_eq. unfold k, s in *. lia.
Qed.

(** *** Counters that wrap around *)

(** How far [w] is ahead of [r]. *)
Definition ahead (M r w : Z) : Z := (w - r) mod M.

Section counters.
Context (M : Z) (HM : 1 < M).

Lemma ahead_range r w : 0 <= ahead M r w < M.
Proof. apply Z.mod_pos_bound. lia. Qed.

Lemma ahead_same r : ahead M r r = 0.
Proof. unfold ahead. by rewrite Z.sub_diag, Z.mod_0_l by lia. Qed.

Lemma ahead_at r w : 0 <= w < M -> (r + ahead M r w) mod M = w.
Proof.
  intros Hw. unfold ahead. rewrite Zplus_mod_idemp_r. replace (r + (w - r)) with w by lia. by apply Z.mod_small.
Qed.

Lemma ahead_zero r w : 0 <= r < M -> 0 <= w < M -> ahead M r w = 0 <-> w = r.
Proof.
  intros Hr Hw. split; [|intros ->; apply ahead_same]. intros E. pose proof (ahead_at r w Hw) as H.
  rewrite E, Z.add_0_r, Z.mod_small in H; lia.
Qed.

Lemma ahead_push r w : ahead M r w + 1 < M -> ahead M r ((w + 1) mod M) = ahead M r w + 1.
Proof.
  intros H. pose proof (ahead_range r w). unfold ahead in *. rewrite Zminus_mod_idemp_l.
  replace (w + 1 - r) with ((w - r) + 1) by lia. rewrite <- Zplus_mod_idemp_l. apply Z.mod_small. lia.
Qed.

Lemma ahead_back r w : 1 <= ahead M r w -> ahead M r ((w - 1) mod M) = ahead M r w - 1.
Proof.
  intros H. pose proof (ahead_range r w). unfold ahead in *. rewrite Zminus_mod_idemp_l.
  replace (w - 1 - r) with ((w - r) - 1) by lia. rewrite <- Zminus_mod_idemp_l. apply Z.mod_small. lia.
Qed.

Lemma ahead_pop r w : 1 <= ahead M r w -> ahead M ((r + 1) mod M) w = ahead M r w - 1.
Proof.
  intros H. pose proof (ahead_range r w). unfold ahead in *. rewrite Zminus_mod_idemp_r.
  replace (w - (r + 1)) with ((w - r) - 1) by lia. rewrite <- Zminus_mod_idemp_l. apply Z.mod_small. lia.
Qed.

Lemma ahead_add r w e : ahead M r w + ahead M w e < M -> ahead M r e = ahead M r w + ahead M w e.
Proof.
  intros H. pose proof (ahead_range r w). pose proof (ahead_range w e). unfold ahead in *.
  rewrite <- (Z.mod_small ((w - r) mod M + (e - w) mod M) M) by lia.
  rewrite Zplus_mod_idemp_l, Zplus_mod_idemp_r. f_equal. lia.
Qed.
End counters.

(** The byte at a counter [n] ahead, in an array whose size divides the modulus. *)
Lemma ring_index w (buf : list Z) r e :
  (0 < length buf)%nat -> (Z.of_nat (length buf) | 2 ^ w) -> 1 <= w -> 0 <= e < 2 ^ w ->
  (r + ahead (2 ^ w) r e) mod Z.of_nat (length buf) = e mod Z.of_nat (length buf).
Proof.
  intros Hl Hd Hw He. rewrite <- (wrap_mod w) by (done || lia). by rewrite ahead_at.
Qed.

Lemma ring_wrap w (buf : list Z) x n :
  (0 < length buf)%nat -> (Z.of_nat (length buf) | 2 ^ w) -> 0 <= w -> ring buf (x mod 2 ^ w) n = ring buf x n.
Proof. intros Hl Hd Hw. apply ring_mod. apply wrap_mod; [lia|done|lia]. Qed.

Lemma ring_last buf r n :
  ring buf r (S n) = ring buf r n ++ [buf !!! Z.to_nat ((r + Z.of_nat n) mod Z.of_nat (length buf))].
Proof.
  replace (S n) with (n + 1)%nat by lia. rewrite ring_app. f_equal. unfold ring. simpl. by rewrite Z.add_0_r.
Qed.
