(* ===== verification/State.v ===== *)
(** * Kernel data: the structures of the kernel's header files and the global
    variables of its C files, gathered in one machine state [kernel].

    A pointer to an element of a static array is its index.  The spinlock or
    sleep lock embedded in a structure is an entry of the tables [c_spin] and
    [c_sleep], named by the structure it is in. *)

From S2P Require Import Prelude.

(** ** param.h *)

Definition NPROC : nat := 64.
Definition NCPU : nat := 8.
Definition NOFILE : nat := 16.
Definition NFILE : nat := 100.
Definition NINODE : nat := 50.
Definition NDEV : Z := 10.
Definition ROOTDEV : Z := 1.
Definition MAXARG : nat := 32.
Definition MAXOPBLOCKS : Z := 10.
Definition LOGSIZE : Z := MAXOPBLOCKS * 3.
Definition NBUF : nat := 30.
Definition FSSIZE : Z := 1000.
Definition MAXPATH : nat := 128.

(** ** fs.h *)

Definition ROOTINO : Z := 1.
Definition BSIZE : Z := 1024.
Definition FSMAGIC : Z := 0x10203040.
Definition NDIRECT : Z := 12.
Definition NINDIRECT : Z := BSIZE / 4.
Definition MAXFILE : Z := NDIRECT + NINDIRECT.
Definition IPB : Z := BSIZE / 64.
Definition BPB : Z := BSIZE * 8.
Definition DIRSIZ : nat := 14.

(** ** Names of locks and sleep channels *)

Inductive sleepid :=
| SBuf (i : nat)
| SInode (i : nat).

Inductive lockid :=
| LBcache
| LLog
| LItable
| LFtable
| LKmem
| LPid
| LWait
| LProc (i : nat)
| LTicks
| LPipe (a : Z)
| LCons
| LUart
| LPr
| LDisk
| LSleep (s : sleepid).

Inductive chan :=
| ChanNull
| ChanSleep (s : sleepid)
| ChanLog
| ChanProc (i : nat)
| ChanTicks
| ChanPipeR (a : Z)
| ChanPipeW (a : Z)
| ChanCons
| ChanUart
| ChanDisk
| ChanBuf (i : nat).

#[export] Instance sleepid_eq_dec : EqDecision sleepid.
Proof. solve_decision. Defined.

#[export] Instance lockid_eq_dec : EqDecision lockid.
Proof. solve_decision. Defined.

#[export] Instance chan_eq_dec : EqDecision chan.
Proof. solve_decision. Defined.

(** Why a kernel thread does not go on: it called [sleep]; it spins on a lock
    another CPU holds; it gave up the CPU; it has exited; it is the scheduler and runs
    a process; it polls a device; it is in the endless loop of a panicked machine. *)
Inductive waiting :=
| Sleeping (c : chan)
| Spinning (l : lockid)
| Yielded
| Exited
| Switched (p : nat)
| Polling
| Frozen.

(** ** spinlock.h, sleeplock.h, proc.h *)

Record spinlock := mkSpin {
  spin_locked : Z;
  spin_name : string;
  spin_cpu : option nat
}.

Definition set_spin_locked (g : Z -> Z) (s : spinlock) : spinlock :=
  mkSpin (g (spin_locked s)) (spin_name s) (spin_cpu s).

Definition set_spin_name (g : string -> string) (s : spinlock) : spinlock :=
  mkSpin (spin_locked s) (g (spin_name s)) (spin_cpu s).

Definition set_spin_cpu (g : (option nat) -> (option nat)) (s : spinlock) : spinlock :=
  mkSpin (spin_locked s) (spin_name s) (g (spin_cpu s)).

Record sleeplock := mkSleep {
  sl_locked : Z;
  sl_name : string;
  sl_pid : Z
}.

Definition set_sl_locked (g : Z -> Z) (s : sleeplock) : sleeplock :=
  mkSleep (g (sl_locked s)) (sl_name s) (sl_pid s).

Definition set_sl_name (g : string -> string) (s : sleeplock) : sleeplock :=
  mkSleep (sl_locked s) (g (sl_name s)) (sl_pid s).

Definition set_sl_pid (g : Z -> Z) (s : sleeplock) : sleeplock :=
  mkSleep (sl_locked s) (sl_name s) (g (sl_pid s)).

Record cpu := mkCpu {
  cpu_proc : option nat;
  cpu_noff : Z;
  cpu_intena : Z
}.

Definition set_cpu_proc (g : (option nat) -> (option nat)) (s : cpu) : cpu :=
  mkCpu (g (cpu_proc s)) (cpu_noff s) (cpu_intena s).

Definition set_cpu_noff (g : Z -> Z) (s : cpu) : cpu :=
  mkCpu (cpu_proc s) (g (cpu_noff s)) (cpu_intena s).

Definition set_cpu_intena (g : Z -> Z) (s : cpu) : cpu :=
  mkCpu (cpu_proc s) (cpu_noff s) (g (cpu_intena s)).

Inductive procstate := UNUSED | USED | SLEEPING | RUNNABLE | RUNNING | ZOMBIE.

#[export] Instance procstate_eq_dec : EqDecision procstate.
Proof. solve_decision. Defined.

Record context := mkContext {
  ctx_ra : Z;
  ctx_sp : Z;
  ctx_s : list Z
}.

Definition set_ctx_ra (g : Z -> Z) (s : context) : context :=
  mkContext (g (ctx_ra s)) (ctx_sp s) (ctx_s s).

Definition set_ctx_sp (g : Z -> Z) (s : context) : context :=
  mkContext (ctx_ra s) (g (ctx_sp s)) (ctx_s s).

Definition set_ctx_s (g : (list Z) -> (list Z)) (s : context) : context :=
  mkContext (ctx_ra s) (ctx_sp s) (g (ctx_s s)).

Record proc := mkProc {
  p_state : procstate;
  p_chan : chan;
  p_killed : Z;
  p_xstate : Z;
  p_pid : Z;
  p_parent : option nat;
  p_kstack : Z;
  p_sz : Z;
  p_pagetable : Z;
  p_trapframe : Z;
  p_context : context;
  p_ofile : list (option nat);
  p_cwd : option nat;
  p_name : list Z
}.

Definition set_p_state (g : procstate -> procstate) (s : proc) : proc :=
  mkProc (g (p_state s)) (p_chan s) (p_killed s) (p_xstate s) (p_pid s) (p_parent s)
    (p_kstack s) (p_sz s) (p_pagetable s) (p_trapframe s) (p_context s) (p_ofile s)
    (p_cwd s) (p_name s).

Definition set_p_chan (g : chan -> chan) (s : proc) : proc :=
  mkProc (p_state s) (g (p_chan s)) (p_killed s) (p_xstate s) (p_pid s) (p_parent s)
    (p_kstack s) (p_sz s) (p_pagetable s) (p_trapframe s) (p_context s) (p_ofile s)
    (p_cwd s) (p_name s).

Definition set_p_killed (g : Z -> Z) (s : proc) : proc :=
  mkProc (p_state s) (p_chan s) (g (p_killed s)) (p_xstate s) (p_pid s) (p_parent s)
    (p_kstack s) (p_sz s) (p_pagetable s) (p_trapframe s) (p_context s) (p_ofile s)
    (p_cwd s) (p_name s).

Definition set_p_xstate (g : Z -> Z) (s : proc) : proc :=
  mkProc (p_state s) (p_chan s) (p_killed s) (g (p_xstate s)) (p_pid s) (p_parent s)
    (p_kstack s) (p_sz s) (p_pagetable s) (p_trapframe s) (p_context s) (p_ofile s)
    (p_cwd s) (p_name s).

Definition set_p_pid (g : Z -> Z) (s : proc) : proc :=
  mkProc (p_state s) (p_chan s) (p_killed s) (p_xstate s) (g (p_pid s)) (p_parent s)
    (p_kstack s) (p_sz s) (p_pagetable s) (p_trapframe s) (p_context s) (p_ofile s)
    (p_cwd s) (p_name s).

Definition set_p_parent (g : (option nat) -> (option nat)) (s : proc) : proc :=
  mkProc (p_state s) (p_chan s) (p_killed s) (p_xstate s) (p_pid s) (g (p_parent s))
    (p_kstack s) (p_sz s) (p_pagetable s) (p_trapframe s) (p_context s) (p_ofile s)
    (p_cwd s) (p_name s).

Definition set_p_kstack (g : Z -> Z) (s : proc) : proc :=
  mkProc (p_state s) (p_chan s) (p_killed s) (p_xstate s) (p_pid s) (p_parent s)
    (g (p_kstack s)) (p_sz s) (p_pagetable s) (p_trapframe s) (p_context s) (p_ofile s)
    (p_cwd s) (p_name s).

Definition set_p_sz (g : Z -> Z) (s : proc) : proc :=
  mkProc (p_state s) (p_chan s) (p_killed s) (p_xstate s) (p_pid s) (p_parent s)
    (p_kstack s) (g (p_sz s)) (p_pagetable s) (p_trapframe s) (p_context s) (p_ofile s)
    (p_cwd s) (p_name s).

Definition set_p_pagetable (g : Z -> Z) (s : proc) : proc :=
  mkProc (p_state s) (p_chan s) (p_killed s) (p_xstate s) (p_pid s) (p_parent s)
    (p_kstack s) (p_sz s) (g (p_pagetable s)) (p_trapframe s) (p_context s) (p_ofile s)
    (p_cwd s) (p_name s).

Definition set_p_trapframe (g : Z -> Z) (s : proc) : proc :=
  mkProc (p_state s) (p_chan s) (p_killed s) (p_xstate s) (p_pid s) (p_parent s)
    (p_kstack s) (p_sz s) (p_pagetable s) (g (p_trapframe s)) (p_context s) (p_ofile s)
    (p_cwd s) (p_name s).

Definition set_p_context (g : context -> context) (s : proc) : proc :=
  mkProc (p_state s) (p_chan s) (p_killed s) (p_xstate s) (p_pid s) (p_parent s)
    (p_kstack s) (p_sz s) (p_pagetable s) (p_trapframe s) (g (p_context s)) (p_ofile s)
    (p_cwd s) (p_name s).

Definition set_p_ofile (g : (list (option nat)) -> (list (option nat))) (s : proc) : proc :=
  mkProc (p_state s) (p_chan s) (p_killed s) (p_xstate s) (p_pid s) (p_parent s)
    (p_kstack s) (p_sz s) (p_pagetable s) (p_trapframe s) (p_context s) (g (p_ofile s))
    (p_cwd s) (p_name s).

Definition set_p_cwd (g : (option nat) -> (option nat)) (s : proc) : proc :=
  mkProc (p_state s) (p_chan s) (p_killed s) (p_xstate s) (p_pid s) (p_parent s)
    (p_kstack s) (p_sz s) (p_pagetable s) (p_trapframe s) (p_context s) (p_ofile s)
    (g (p_cwd s)) (p_name s).

Definition set_p_name (g : (list Z) -> (list Z)) (s : proc) : proc :=
  mkProc (p_state s) (p_chan s) (p_killed s) (p_xstate s) (p_pid s) (p_parent s)
    (p_kstack s) (p_sz s) (p_pagetable s) (p_trapframe s) (p_context s) (p_ofile s)
    (p_cwd s) (g (p_name s)).

(** ** buf.h and bio.c

    [bcache.head] and the buffers are linked through [prev] and [next]. *)

Inductive bptr := Head | Buf (i : nat).

#[export] Instance bptr_eq_dec : EqDecision bptr.
Proof. solve_decision. Defined.

Record buf := mkBuf {
  b_valid : Z;
  b_disk : Z;
  b_dev : Z;
  b_blockno : Z;
  b_refcnt : Z;
  b_prev : bptr;
  b_next : bptr;
  b_data : list Z
}.

Definition set_b_valid (g : Z -> Z) (s : buf) : buf :=
  mkBuf (g (b_valid s)) (b_disk s) (b_dev s) (b_blockno s) (b_refcnt s) (b_prev s)
    (b_next s) (b_data s).

Definition set_b_disk (g : Z -> Z) (s : buf) : buf :=
  mkBuf (b_valid s) (g (b_disk s)) (b_dev s) (b_blockno s) (b_refcnt s) (b_prev s)
    (b_next s) (b_data s).

Definition set_b_dev (g : Z -> Z) (s : buf) : buf :=
  mkBuf (b_valid s) (b_disk s) (g (b_dev s)) (b_blockno s) (b_refcnt s) (b_prev s)
    (b_next s) (b_data s).

Definition set_b_blockno (g : Z -> Z) (s : buf) : buf :=
  mkBuf (b_valid s) (b_disk s) (b_dev s) (g (b_blockno s)) (b_refcnt s) (b_prev s)
    (b_next s) (b_data s).

Definition set_b_refcnt (g : Z -> Z) (s : buf) : buf :=
  mkBuf (b_valid s) (b_disk s) (b_dev s) (b_blockno s) (g (b_refcnt s)) (b_prev s)
    (b_next s) (b_data s).

Definition set_b_prev (g : bptr -> bptr) (s : buf) : buf :=
  mkBuf (b_valid s) (b_disk s) (b_dev s) (b_blockno s) (b_refcnt s) (g (b_prev s))
    (b_next s) (b_data s).

Definition set_b_next (g : bptr -> bptr) (s : buf) : buf :=
  mkBuf (b_valid s) (b_disk s) (b_dev s) (b_blockno s) (b_refcnt s) (b_prev s)
    (g (b_next s)) (b_data s).

Definition set_b_data (g : (list Z) -> (list Z)) (s : buf) : buf :=
  mkBuf (b_valid s) (b_disk s) (b_dev s) (b_blockno s) (b_refcnt s) (b_prev s)
    (b_next s) (g (b_data s)).

Record bcache := mkBcache {
  bc_bufs : list buf;
  bc_hprev : bptr;
  bc_hnext : bptr
}.

Definition set_bc_bufs (g : (list buf) -> (list buf)) (s : bcache) : bcache :=
  mkBcache (g (bc_bufs s)) (bc_hprev s) (bc_hnext s).

Definition set_bc_hprev (g : bptr -> bptr) (s : bcache) : bcache :=
  mkBcache (bc_bufs s) (g (bc_hprev s)) (bc_hnext s).

Definition set_bc_hnext (g : bptr -> bptr) (s : bcache) : bcache :=
  mkBcache (bc_bufs s) (bc_hprev s) (g (bc_hnext s)).

(** The disk: the contents of its blocks, and the block writes it has performed
    since it was attached, in order.  The order is what a crash cuts. *)

Record disk := mkDisk {
  d_blocks : Z -> list Z;
  d_trace : list (Z * list Z)
}.

Definition set_d_blocks (g : (Z -> list Z) -> (Z -> list Z)) (s : disk) : disk :=
  mkDisk (g (d_blocks s)) (d_trace s).

Definition set_d_trace (g : (list (Z * list Z)) -> (list (Z * list Z))) (s : disk) : disk :=
  mkDisk (d_blocks s) (g (d_trace s)).

(** ** fs.h, file.h, log.c, pipe.c *)

Record superblock := mkSb {
  sb_magic : Z;
  sb_size : Z;
  sb_nblocks : Z;
  sb_ninodes : Z;
  sb_nlog : Z;
  sb_logstart : Z;
  sb_inodestart : Z;
  sb_bmapstart : Z
}.

Definition set_sb_magic (g : Z -> Z) (s : superblock) : superblock :=
  mkSb (g (sb_magic s)) (sb_size s) (sb_nblocks s) (sb_ninodes s) (sb_nlog s)
    (sb_logstart s) (sb_inodestart s) (sb_bmapstart s).

Definition set_sb_size (g : Z -> Z) (s : superblock) : superblock :=
  mkSb (sb_magic s) (g (sb_size s)) (sb_nblocks s) (sb_ninodes s) (sb_nlog s)
    (sb_logstart s) (sb_inodestart s) (sb_bmapstart s).

Definition set_sb_nblocks (g : Z -> Z) (s : superblock) : superblock :=
  mkSb (sb_magic s) (sb_size s) (g (sb_nblocks s)) (sb_ninodes s) (sb_nlog s)
    (sb_logstart s) (sb_inodestart s) (sb_bmapstart s).

Definition set_sb_ninodes (g : Z -> Z) (s : superblock) : superblock :=
  mkSb (sb_magic s) (sb_size s) (sb_nblocks s) (g (sb_ninodes s)) (sb_nlog s)
    (sb_logstart s) (sb_inodestart s) (sb_bmapstart s).

Definition set_sb_nlog (g : Z -> Z) (s : superblock) : superblock :=
  mkSb (sb_magic s) (sb_size s) (sb_nblocks s) (sb_ninodes s) (g (sb_nlog s))
    (sb_logstart s) (sb_inodestart s) (sb_bmapstart s).

Definition set_sb_logstart (g : Z -> Z) (s : superblock) : superblock :=
  mkSb (sb_magic s) (sb_size s) (sb_nblocks s) (sb_ninodes s) (sb_nlog s)
    (g (sb_logstart s)) (sb_inodestart s) (sb_bmapstart s).

Definition set_sb_inodestart (g : Z -> Z) (s : superblock) : superblock :=
  mkSb (sb_magic s) (sb_size s) (sb_nblocks s) (sb_ninodes s) (sb_nlog s)
    (sb_logstart s) (g (sb_inodestart s)) (sb_bmapstart s).

Definition set_sb_bmapstart (g : Z -> Z) (s : superblock) : superblock :=
  mkSb (sb_magic s) (sb_size s) (sb_nblocks s) (sb_ninodes s) (sb_nlog s)
    (sb_logstart s) (sb_inodestart s) (g (sb_bmapstart s)).

Record dinode := mkDinode {
  di_type : Z;
  di_major : Z;
  di_minor : Z;
  di_nlink : Z;
  di_size : Z;
  di_addrs : list Z
}.

Definition set_di_type (g : Z -> Z) (s : dinode) : dinode :=
  mkDinode (g (di_type s)) (di_major s) (di_minor s) (di_nlink s) (di_size s)
    (di_addrs s).

Definition set_di_major (g : Z -> Z) (s : dinode) : dinode :=
  mkDinode (di_type s) (g (di_major s)) (di_minor s) (di_nlink s) (di_size s)
    (di_addrs s).

Definition set_di_minor (g : Z -> Z) (s : dinode) : dinode :=
  mkDinode (di_type s) (di_major s) (g (di_minor s)) (di_nlink s) (di_size s)
    (di_addrs s).

Definition set_di_nlink (g : Z -> Z) (s : dinode) : dinode :=
  mkDinode (di_type s) (di_major s) (di_minor s) (g (di_nlink s)) (di_size s)
    (di_addrs s).

Definition set_di_size (g : Z -> Z) (s : dinode) : dinode :=
  mkDinode (di_type s) (di_major s) (di_minor s) (di_nlink s) (g (di_size s))
    (di_addrs s).

Definition set_di_addrs (g : (list Z) -> (list Z)) (s : dinode) : dinode :=
  mkDinode (di_type s) (di_major s) (di_minor s) (di_nlink s) (di_size s)
    (g (di_addrs s)).

Record inode := mkInode {
  i_dev : Z;
  i_inum : Z;
  i_ref : Z;
  i_valid : Z;
  i_type : Z;
  i_major : Z;
  i_minor : Z;
  i_nlink : Z;
  i_size : Z;
  i_addrs : list Z
}.

Definition set_i_dev (g : Z -> Z) (s : inode) : inode :=
  mkInode (g (i_dev s)) (i_inum s) (i_ref s) (i_valid s) (i_type s) (i_major s)
    (i_minor s) (i_nlink s) (i_size s) (i_addrs s).

Definition set_i_inum (g : Z -> Z) (s : inode) : inode :=
  mkInode (i_dev s) (g (i_inum s)) (i_ref s) (i_valid s) (i_type s) (i_major s)
    (i_minor s) (i_nlink s) (i_size s) (i_addrs s).

Definition set_i_ref (g : Z -> Z) (s : inode) : inode :=
  mkInode (i_dev s) (i_inum s) (g (i_ref s)) (i_valid s) (i_type s) (i_major s)
    (i_minor s) (i_nlink s) (i_size s) (i_addrs s).

Definition set_i_valid (g : Z -> Z) (s : inode) : inode :=
  mkInode (i_dev s) (i_inum s) (i_ref s) (g (i_valid s)) (i_type s) (i_major s)
    (i_minor s) (i_nlink s) (i_size s) (i_addrs s).

Definition set_i_type (g : Z -> Z) (s : inode) : inode :=
  mkInode (i_dev s) (i_inum s) (i_ref s) (i_valid s) (g (i_type s)) (i_major s)
    (i_minor s) (i_nlink s) (i_size s) (i_addrs s).

Definition set_i_major (g : Z -> Z) (s : inode) : inode :=
  mkInode (i_dev s) (i_inum s) (i_ref s) (i_valid s) (i_type s) (g (i_major s))
    (i_minor s) (i_nlink s) (i_size s) (i_addrs s).

Definition set_i_minor (g : Z -> Z) (s : inode) : inode :=
  mkInode (i_dev s) (i_inum s) (i_ref s) (i_valid s) (i_type s) (i_major s)
    (g (i_minor s)) (i_nlink s) (i_size s) (i_addrs s).

Definition set_i_nlink (g : Z -> Z) (s : inode) : inode :=
  mkInode (i_dev s) (i_inum s) (i_ref s) (i_valid s) (i_type s) (i_major s) (i_minor s)
    (g (i_nlink s)) (i_size s) (i_addrs s).

Definition set_i_size (g : Z -> Z) (s : inode) : inode :=
  mkInode (i_dev s) (i_inum s) (i_ref s) (i_valid s) (i_type s) (i_major s) (i_minor s)
    (i_nlink s) (g (i_size s)) (i_addrs s).

Definition set_i_addrs (g : (list Z) -> (list Z)) (s : inode) : inode :=
  mkInode (i_dev s) (i_inum s) (i_ref s) (i_valid s) (i_type s) (i_major s) (i_minor s)
    (i_nlink s) (i_size s) (g (i_addrs s)).

Record logheader := mkLogheader {
  lh_n : Z;
  lh_block : list Z
}.

Definition set_lh_n (g : Z -> Z) (s : logheader) : logheader :=
  mkLogheader (g (lh_n s)) (lh_block s).

Definition set_lh_block (g : (list Z) -> (list Z)) (s : logheader) : logheader :=
  mkLogheader (lh_n s) (g (lh_block s)).

Record log := mkLog {
  l_start : Z;
  l_size : Z;
  l_outstanding : Z;
  l_committing : Z;
  l_dev : Z;
  l_lh : logheader
}.

Definition set_l_start (g : Z -> Z) (s : log) : log :=
  mkLog (g (l_start s)) (l_size s) (l_outstanding s) (l_committing s) (l_dev s) (l_lh s).

Definition set_l_size (g : Z -> Z) (s : log) : log :=
  mkLog (l_start s) (g (l_size s)) (l_outstanding s) (l_committing s) (l_dev s) (l_lh s).

Definition set_l_outstanding (g : Z -> Z) (s : log) : log :=
  mkLog (l_start s) (l_size s) (g (l_outstanding s)) (l_committing s) (l_dev s) (l_lh s).

Definition set_l_committing (g : Z -> Z) (s : log) : log :=
  mkLog (l_start s) (l_size s) (l_outstanding s) (g (l_committing s)) (l_dev s) (l_lh s).

Definition set_l_dev (g : Z -> Z) (s : log) : log :=
  mkLog (l_start s) (l_size s) (l_outstanding s) (l_committing s) (g (l_dev s)) (l_lh s).

Definition set_l_lh (g : logheader -> logheader) (s : log) : log :=
  mkLog (l_start s) (l_size s) (l_outstanding s) (l_committing s) (l_dev s) (g (l_lh s)).

Inductive filetype := FD_NONE | FD_PIPE | FD_INODE | FD_DEVICE.

#[export] Instance filetype_eq_dec : EqDecision filetype.
Proof. solve_decision. Defined.

Record file := mkFile {
  f_type : filetype;
  f_ref : Z;
  f_readable : Z;
  f_writable : Z;
  f_pipe : Z;
  f_ip : nat;
  f_off : Z;
  f_major : Z
}.

Definition set_f_type (g : filetype -> filetype) (s : file) : file :=
  mkFile (g (f_type s)) (f_ref s) (f_readable s) (f_writable s) (f_pipe s) (f_ip s)
    (f_off s) (f_major s).

Definition set_f_ref (g : Z -> Z) (s : file) : file :=
  mkFile (f_type s) (g (f_ref s)) (f_readable s) (f_writable s) (f_pipe s) (f_ip s)
    (f_off s) (f_major s).

Definition set_f_readable (g : Z -> Z) (s : file) : file :=
  mkFile (f_type s) (f_ref s) (g (f_readable s)) (f_writable s) (f_pipe s) (f_ip s)
    (f_off s) (f_major s).

Definition set_f_writable (g : Z -> Z) (s : file) : file :=
  mkFile (f_type s) (f_ref s) (f_readable s) (g (f_writable s)) (f_pipe s) (f_ip s)
    (f_off s) (f_major s).

Definition set_f_pipe (g : Z -> Z) (s : file) : file :=
  mkFile (f_type s) (f_ref s) (f_readable s) (f_writable s) (g (f_pipe s)) (f_ip s)
    (f_off s) (f_major s).

Definition set_f_ip (g : nat -> nat) (s : file) : file :=
  mkFile (f_type s) (f_ref s) (f_readable s) (f_writable s) (f_pipe s) (g (f_ip s))
    (f_off s) (f_major s).

Definition set_f_off (g : Z -> Z) (s : file) : file :=
  mkFile (f_type s) (f_ref s) (f_readable s) (f_writable s) (f_pipe s) (f_ip s)
    (g (f_off s)) (f_major s).

Definition set_f_major (g : Z -> Z) (s : file) : file :=
  mkFile (f_type s) (f_ref s) (f_readable s) (f_writable s) (f_pipe s) (f_ip s)
    (f_off s) (g (f_major s)).

Record pipe := mkPipe {
  pi_data : list Z;
  pi_nread : Z;
  pi_nwrite : Z;
  pi_readopen : Z;
  pi_writeopen : Z
}.

Definition set_pi_data (g : (list Z) -> (list Z)) (s : pipe) : pipe :=
  mkPipe (g (pi_data s)) (pi_nread s) (pi_nwrite s) (pi_readopen s) (pi_writeopen s).

Definition set_pi_nread (g : Z -> Z) (s : pipe) : pipe :=
  mkPipe (pi_data s) (g (pi_nread s)) (pi_nwrite s) (pi_readopen s) (pi_writeopen s).

Definition set_pi_nwrite (g : Z -> Z) (s : pipe) : pipe :=
  mkPipe (pi_data s) (pi_nread s) (g (pi_nwrite s)) (pi_readopen s) (pi_writeopen s).

Definition set_pi_readopen (g : Z -> Z) (s : pipe) : pipe :=
  mkPipe (pi_data s) (pi_nread s) (pi_nwrite s) (g (pi_readopen s)) (pi_writeopen s).

Definition set_pi_writeopen (g : Z -> Z) (s : pipe) : pipe :=
  mkPipe (pi_data s) (pi_nread s) (pi_nwrite s) (pi_readopen s) (g (pi_writeopen s)).

(** ** Link-time addresses (kernel.ld, trampoline.S) *)

Record image := mkImage {
  img_end : Z;
  img_etext : Z;
  img_trampoline : Z;
  img_forkret : Z
}.

Definition set_img_end (g : Z -> Z) (s : image) : image :=
  mkImage (g (img_end s)) (img_etext s) (img_trampoline s) (img_forkret s).

Definition set_img_etext (g : Z -> Z) (s : image) : image :=
  mkImage (img_end s) (g (img_etext s)) (img_trampoline s) (img_forkret s).

Definition set_img_trampoline (g : Z -> Z) (s : image) : image :=
  mkImage (img_end s) (img_etext s) (g (img_trampoline s)) (img_forkret s).

Definition set_img_forkret (g : Z -> Z) (s : image) : image :=
  mkImage (img_end s) (img_etext s) (img_trampoline s) (g (img_forkret s)).

(** ** Devices: console.c, uart.c, printf.c, plic.c, virtio_disk.c, riscv.h

    [console] and [uart] hold the variables of console.c and uart.c; [u_ready], [u_sent]
    and [u_rx] are the device itself: how often it will be found ready to send, the bytes
    given to it so far, and the bytes that have arrived and wait to be read; [u_ctl]
    are the writes to its control registers. *)

Record console := mkCons {
  cons_buf : list Z;
  cons_r : Z;
  cons_w : Z;
  cons_e : Z
}.

Definition set_cons_buf (g : (list Z) -> (list Z)) (s : console) : console :=
  mkCons (g (cons_buf s)) (cons_r s) (cons_w s) (cons_e s).

Definition set_cons_r (g : Z -> Z) (s : console) : console :=
  mkCons (cons_buf s) (g (cons_r s)) (cons_w s) (cons_e s).

Definition set_cons_w (g : Z -> Z) (s : console) : console :=
  mkCons (cons_buf s) (cons_r s) (g (cons_w s)) (cons_e s).

Definition set_cons_e (g : Z -> Z) (s : console) : console :=
  mkCons (cons_buf s) (cons_r s) (cons_w s) (g (cons_e s)).

Record uart := mkUart {
  u_buf : list Z;
  u_w : Z;
  u_r : Z;
  u_ready : nat;
  u_sent : list Z;
  u_rx : list Z;
  u_ctl : list (Z * Z)
}.

Definition set_u_buf (g : (list Z) -> (list Z)) (s : uart) : uart :=
  mkUart (g (u_buf s)) (u_w s) (u_r s) (u_ready s) (u_sent s) (u_rx s) (u_ctl s).

Definition set_u_w (g : Z -> Z) (s : uart) : uart :=
  mkUart (u_buf s) (g (u_w s)) (u_r s) (u_ready s) (u_sent s) (u_rx s) (u_ctl s).

Definition set_u_r (g : Z -> Z) (s : uart) : uart :=
  mkUart (u_buf s) (u_w s) (g (u_r s)) (u_ready s) (u_sent s) (u_rx s) (u_ctl s).

Definition set_u_ready (g : nat -> nat) (s : uart) : uart :=
  mkUart (u_buf s) (u_w s) (u_r s) (g (u_ready s)) (u_sent s) (u_rx s) (u_ctl s).

Definition set_u_sent (g : (list Z) -> (list Z)) (s : uart) : uart :=
  mkUart (u_buf s) (u_w s) (u_r s) (u_ready s) (g (u_sent s)) (u_rx s) (u_ctl s).

Definition set_u_rx (g : (list Z) -> (list Z)) (s : uart) : uart :=
  mkUart (u_buf s) (u_w s) (u_r s) (u_ready s) (u_sent s) (g (u_rx s)) (u_ctl s).

Definition set_u_ctl (g : (list (Z * Z)) -> (list (Z * Z))) (s : uart) : uart :=
  mkUart (u_buf s) (u_w s) (u_r s) (u_ready s) (u_sent s) (u_rx s) (g (u_ctl s)).

(** The supervisor's control and status registers of the executing hart; the
    interrupt-enable bit of sstatus is [c_intr]. *)

Record csr := mkCsr {
  cs_sstatus : Z;
  cs_sepc : Z;
  cs_scause : Z;
  cs_stval : Z;
  cs_stvec : Z;
  cs_sip : Z;
  cs_satp : Z
}.

Definition set_cs_sstatus (g : Z -> Z) (s : csr) : csr :=
  mkCsr (g (cs_sstatus s)) (cs_sepc s) (cs_scause s) (cs_stval s) (cs_stvec s)
    (cs_sip s) (cs_satp s).

Definition set_cs_sepc (g : Z -> Z) (s : csr) : csr :=
  mkCsr (cs_sstatus s) (g (cs_sepc s)) (cs_scause s) (cs_stval s) (cs_stvec s)
    (cs_sip s) (cs_satp s).

Definition set_cs_scause (g : Z -> Z) (s : csr) : csr :=
  mkCsr (cs_sstatus s) (cs_sepc s) (g (cs_scause s)) (cs_stval s) (cs_stvec s)
    (cs_sip s) (cs_satp s).

Definition set_cs_stval (g : Z -> Z) (s : csr) : csr :=
  mkCsr (cs_sstatus s) (cs_sepc s) (cs_scause s) (g (cs_stval s)) (cs_stvec s)
    (cs_sip s) (cs_satp s).

Definition set_cs_stvec (g : Z -> Z) (s : csr) : csr :=
  mkCsr (cs_sstatus s) (cs_sepc s) (cs_scause s) (cs_stval s) (g (cs_stvec s))
    (cs_sip s) (cs_satp s).

Definition set_cs_sip (g : Z -> Z) (s : csr) : csr :=
  mkCsr (cs_sstatus s) (cs_sepc s) (cs_scause s) (cs_stval s) (cs_stvec s)
    (g (cs_sip s)) (cs_satp s).

Definition set_cs_satp (g : Z -> Z) (s : csr) : csr :=
  mkCsr (cs_sstatus s) (cs_sepc s) (cs_scause s) (cs_stval s) (cs_stvec s) (cs_sip s)
    (g (cs_satp s)).

(** The interrupt controller: the requests it will hand out, those served, and the
    writes that set it up. *)

Record plic := mkPlic {
  pl_pending : list Z;
  pl_done : list Z;
  pl_ctl : list (Z * Z)
}.

Definition set_pl_pending (g : (list Z) -> (list Z)) (s : plic) : plic :=
  mkPlic (g (pl_pending s)) (pl_done s) (pl_ctl s).

Definition set_pl_done (g : (list Z) -> (list Z)) (s : plic) : plic :=
  mkPlic (pl_pending s) (g (pl_done s)) (pl_ctl s).

Definition set_pl_ctl (g : (list (Z * Z)) -> (list (Z * Z))) (s : plic) : plic :=
  mkPlic (pl_pending s) (pl_done s) (g (pl_ctl s)).

(** virtio.h and virtio_disk.c: an address a descriptor holds is that of a request
    header, of the data of a buffer or of a status byte. *)

Inductive dptr := DNull | DReq (i : nat) | DData (b : nat) | DStatus (i : nat).

Record virtq_desc := mkDesc {
  vd_addr : dptr;
  vd_len : Z;
  vd_flags : Z;
  vd_next : Z
}.

Definition set_vd_addr (g : dptr -> dptr) (s : virtq_desc) : virtq_desc :=
  mkDesc (g (vd_addr s)) (vd_len s) (vd_flags s) (vd_next s).

Definition set_vd_len (g : Z -> Z) (s : virtq_desc) : virtq_desc :=
  mkDesc (vd_addr s) (g (vd_len s)) (vd_flags s) (vd_next s).

Definition set_vd_flags (g : Z -> Z) (s : virtq_desc) : virtq_desc :=
  mkDesc (vd_addr s) (vd_len s) (g (vd_flags s)) (vd_next s).

Definition set_vd_next (g : Z -> Z) (s : virtq_desc) : virtq_desc :=
  mkDesc (vd_addr s) (vd_len s) (vd_flags s) (g (vd_next s)).

Record virtio_blk_req := mkReq {
  rq_type : Z;
  rq_reserved : Z;
  rq_sector : Z
}.

Definition set_rq_type (g : Z -> Z) (s : virtio_blk_req) : virtio_blk_req :=
  mkReq (g (rq_type s)) (rq_reserved s) (rq_sector s).

Definition set_rq_reserved (g : Z -> Z) (s : virtio_blk_req) : virtio_blk_req :=
  mkReq (rq_type s) (g (rq_reserved s)) (rq_sector s).

Definition set_rq_sector (g : Z -> Z) (s : virtio_blk_req) : virtio_blk_req :=
  mkReq (rq_type s) (rq_reserved s) (g (rq_sector s)).

Record vdisk := mkVdisk {
  v_desc : list virtq_desc;
  v_avail_ring : list Z;
  v_avail_idx : Z;
  v_used_ring : list Z;
  v_used_ridx : Z;
  v_free : list Z;
  v_used_idx : Z;
  v_info_b : list (option nat);
  v_info_status : list Z;
  v_ops : list virtio_blk_req;
  v_ctl : list (Z * Z);
  v_seen : Z
}.

Definition set_v_desc (g : (list virtq_desc) -> (list virtq_desc)) (s : vdisk) : vdisk :=
  mkVdisk (g (v_desc s)) (v_avail_ring s) (v_avail_idx s) (v_used_ring s)
    (v_used_ridx s) (v_free s) (v_used_idx s) (v_info_b s) (v_info_status s) (v_ops s)
    (v_ctl s) (v_seen s).

Definition set_v_avail_ring (g : (list Z) -> (list Z)) (s : vdisk) : vdisk :=
  mkVdisk (v_desc s) (g (v_avail_ring s)) (v_avail_idx s) (v_used_ring s)
    (v_used_ridx s) (v_free s) (v_used_idx s) (v_info_b s) (v_info_status s) (v_ops s)
    (v_ctl s) (v_seen s).

Definition set_v_avail_idx (g : Z -> Z) (s : vdisk) : vdisk :=
  mkVdisk (v_desc s) (v_avail_ring s) (g (v_avail_idx s)) (v_used_ring s)
    (v_used_ridx s) (v_free s) (v_used_idx s) (v_info_b s) (v_info_status s) (v_ops s)
    (v_ctl s) (v_seen s).

Definition set_v_used_ring (g : (list Z) -> (list Z)) (s : vdisk) : vdisk :=
  mkVdisk (v_desc s) (v_avail_ring s) (v_avail_idx s) (g (v_used_ring s))
    (v_used_ridx s) (v_free s) (v_used_idx s) (v_info_b s) (v_info_status s) (v_ops s)
    (v_ctl s) (v_seen s).

Definition set_v_used_ridx (g : Z -> Z) (s : vdisk) : vdisk :=
  mkVdisk (v_desc s) (v_avail_ring s) (v_avail_idx s) (v_used_ring s)
    (g (v_used_ridx s)) (v_free s) (v_used_idx s) (v_info_b s) (v_info_status s)
    (v_ops s) (v_ctl s) (v_seen s).

Definition set_v_free (g : (list Z) -> (list Z)) (s : vdisk) : vdisk :=
  mkVdisk (v_desc s) (v_avail_ring s) (v_avail_idx s) (v_used_ring s) (v_used_ridx s)
    (g (v_free s)) (v_used_idx s) (v_info_b s) (v_info_status s) (v_ops s) (v_ctl s)
    (v_seen s).

Definition set_v_used_idx (g : Z -> Z) (s : vdisk) : vdisk :=
  mkVdisk (v_desc s) (v_avail_ring s) (v_avail_idx s) (v_used_ring s) (v_used_ridx s)
    (v_free s) (g (v_used_idx s)) (v_info_b s) (v_info_status s) (v_ops s) (v_ctl s)
    (v_seen s).

Definition set_v_info_b (g : (list (option nat)) -> (list (option nat))) (s : vdisk) : vdisk :=
  mkVdisk (v_desc s) (v_avail_ring s) (v_avail_idx s) (v_used_ring s) (v_used_ridx s)
    (v_free s) (v_used_idx s) (g (v_info_b s)) (v_info_status s) (v_ops s) (v_ctl s)
    (v_seen s).

Definition set_v_info_status (g : (list Z) -> (list Z)) (s : vdisk) : vdisk :=
  mkVdisk (v_desc s) (v_avail_ring s) (v_avail_idx s) (v_used_ring s) (v_used_ridx s)
    (v_free s) (v_used_idx s) (v_info_b s) (g (v_info_status s)) (v_ops s) (v_ctl s)
    (v_seen s).

Definition set_v_ops (g : (list virtio_blk_req) -> (list virtio_blk_req)) (s : vdisk) : vdisk :=
  mkVdisk (v_desc s) (v_avail_ring s) (v_avail_idx s) (v_used_ring s) (v_used_ridx s)
    (v_free s) (v_used_idx s) (v_info_b s) (v_info_status s) (g (v_ops s)) (v_ctl s)
    (v_seen s).

Definition set_v_ctl (g : (list (Z * Z)) -> (list (Z * Z))) (s : vdisk) : vdisk :=
  mkVdisk (v_desc s) (v_avail_ring s) (v_avail_idx s) (v_used_ring s) (v_used_ridx s)
    (v_free s) (v_used_idx s) (v_info_b s) (v_info_status s) (v_ops s) (g (v_ctl s))
    (v_seen s).

Definition set_v_seen (g : Z -> Z) (s : vdisk) : vdisk :=
  mkVdisk (v_desc s) (v_avail_ring s) (v_avail_idx s) (v_used_ring s) (v_used_ridx s)
    (v_free s) (v_used_idx s) (v_info_b s) (v_info_status s) (v_ops s) (v_ctl s)
    (g (v_seen s)).

(** A function of the device switch [devsw]. *)

Inductive devfn := ConsoleRead | ConsoleWrite.

Record devices := mkDevices {
  dv_cons : console;
  dv_uart : uart;
  dv_csr : csr;
  dv_plic : plic;
  dv_vdisk : vdisk;
  dv_devsw : list (option devfn * option devfn);
  dv_panicked : Z;
  dv_locking : Z;
  dv_first : Z
}.

Definition set_dv_cons (g : console -> console) (s : devices) : devices :=
  mkDevices (g (dv_cons s)) (dv_uart s) (dv_csr s) (dv_plic s) (dv_vdisk s) (dv_devsw s)
    (dv_panicked s) (dv_locking s) (dv_first s).

Definition set_dv_uart (g : uart -> uart) (s : devices) : devices :=
  mkDevices (dv_cons s) (g (dv_uart s)) (dv_csr s) (dv_plic s) (dv_vdisk s) (dv_devsw s)
    (dv_panicked s) (dv_locking s) (dv_first s).

Definition set_dv_csr (g : csr -> csr) (s : devices) : devices :=
  mkDevices (dv_cons s) (dv_uart s) (g (dv_csr s)) (dv_plic s) (dv_vdisk s) (dv_devsw s)
    (dv_panicked s) (dv_locking s) (dv_first s).

Definition set_dv_plic (g : plic -> plic) (s : devices) : devices :=
  mkDevices (dv_cons s) (dv_uart s) (dv_csr s) (g (dv_plic s)) (dv_vdisk s) (dv_devsw s)
    (dv_panicked s) (dv_locking s) (dv_first s).

Definition set_dv_vdisk (g : vdisk -> vdisk) (s : devices) : devices :=
  mkDevices (dv_cons s) (dv_uart s) (dv_csr s) (dv_plic s) (g (dv_vdisk s)) (dv_devsw s)
    (dv_panicked s) (dv_locking s) (dv_first s).

Definition set_dv_devsw (g : (list (option devfn * option devfn)) -> (list (option devfn * option devfn))) (s : devices) : devices :=
  mkDevices (dv_cons s) (dv_uart s) (dv_csr s) (dv_plic s) (dv_vdisk s) (g (dv_devsw s))
    (dv_panicked s) (dv_locking s) (dv_first s).

Definition set_dv_panicked (g : Z -> Z) (s : devices) : devices :=
  mkDevices (dv_cons s) (dv_uart s) (dv_csr s) (dv_plic s) (dv_vdisk s) (dv_devsw s)
    (g (dv_panicked s)) (dv_locking s) (dv_first s).

Definition set_dv_locking (g : Z -> Z) (s : devices) : devices :=
  mkDevices (dv_cons s) (dv_uart s) (dv_csr s) (dv_plic s) (dv_vdisk s) (dv_devsw s)
    (dv_panicked s) (g (dv_locking s)) (dv_first s).

Definition set_dv_first (g : Z -> Z) (s : devices) : devices :=
  mkDevices (dv_cons s) (dv_uart s) (dv_csr s) (dv_plic s) (dv_vdisk s) (dv_devsw s)
    (dv_panicked s) (dv_locking s) (g (dv_first s)).

(** ** The machine state

    [core] is what every thread of the kernel uses: the executing hart and its
    interrupt-enable bit, the per-CPU records, the lock tables and the process
    table. *)

Record core := mkCore {
  c_hart : nat;
  c_intr : bool;
  c_cpus : list cpu;
  c_spin : lockid -> spinlock;
  c_sleep : sleepid -> sleeplock;
  c_procs : list proc;
  c_nextpid : Z;
  c_initproc : option nat
}.

Definition set_c_hart (g : nat -> nat) (s : core) : core :=
  mkCore (g (c_hart s)) (c_intr s) (c_cpus s) (c_spin s) (c_sleep s) (c_procs s)
    (c_nextpid s) (c_initproc s).

Definition set_c_intr (g : bool -> bool) (s : core) : core :=
  mkCore (c_hart s) (g (c_intr s)) (c_cpus s) (c_spin s) (c_sleep s) (c_procs s)
    (c_nextpid s) (c_initproc s).

Definition set_c_cpus (g : (list cpu) -> (list cpu)) (s : core) : core :=
  mkCore (c_hart s) (c_intr s) (g (c_cpus s)) (c_spin s) (c_sleep s) (c_procs s)
    (c_nextpid s) (c_initproc s).

Definition set_c_spin (g : (lockid -> spinlock) -> (lockid -> spinlock)) (s : core) : core :=
  mkCore (c_hart s) (c_intr s) (c_cpus s) (g (c_spin s)) (c_sleep s) (c_procs s)
    (c_nextpid s) (c_initproc s).

Definition set_c_sleep (g : (sleepid -> sleeplock) -> (sleepid -> sleeplock)) (s : core) : core :=
  mkCore (c_hart s) (c_intr s) (c_cpus s) (c_spin s) (g (c_sleep s)) (c_procs s)
    (c_nextpid s) (c_initproc s).

Definition set_c_procs (g : (list proc) -> (list proc)) (s : core) : core :=
  mkCore (c_hart s) (c_intr s) (c_cpus s) (c_spin s) (c_sleep s) (g (c_procs s))
    (c_nextpid s) (c_initproc s).

Definition set_c_nextpid (g : Z -> Z) (s : core) : core :=
  mkCore (c_hart s) (c_intr s) (c_cpus s) (c_spin s) (c_sleep s) (c_procs s)
    (g (c_nextpid s)) (c_initproc s).

Definition set_c_initproc (g : (option nat) -> (option nat)) (s : core) : core :=
  mkCore (c_hart s) (c_intr s) (c_cpus s) (c_spin s) (c_sleep s) (c_procs s)
    (c_nextpid s) (g (c_initproc s)).

(** Physical memory, by bytes, the head of the page allocator's free list and the
    kernel's page table. *)

Record phys := mkPhys {
  ph_mem : Z -> Z;
  ph_freelist : Z;
  ph_kpgtbl : Z
}.

Definition set_ph_mem (g : (Z -> Z) -> (Z -> Z)) (s : phys) : phys :=
  mkPhys (g (ph_mem s)) (ph_freelist s) (ph_kpgtbl s).

Definition set_ph_freelist (g : Z -> Z) (s : phys) : phys :=
  mkPhys (ph_mem s) (g (ph_freelist s)) (ph_kpgtbl s).

Definition set_ph_kpgtbl (g : Z -> Z) (s : phys) : phys :=
  mkPhys (ph_mem s) (ph_freelist s) (g (ph_kpgtbl s)).

Record kernel := mkKernel {
  k_core : core;
  k_bcache : bcache;
  k_disk : disk;
  k_log : log;
  k_sb : superblock;
  k_itable : list inode;
  k_ftable : list file;
  k_pipes : gmap Z pipe;
  k_phys : phys;
  k_ticks : Z;
  k_img : image;
  k_dev : devices
}.

Definition set_k_core (g : core -> core) (s : kernel) : kernel :=
  mkKernel (g (k_core s)) (k_bcache s) (k_disk s) (k_log s) (k_sb s) (k_itable s)
    (k_ftable s) (k_pipes s) (k_phys s) (k_ticks s) (k_img s) (k_dev s).

Definition set_k_bcache (g : bcache -> bcache) (s : kernel) : kernel :=
  mkKernel (k_core s) (g (k_bcache s)) (k_disk s) (k_log s) (k_sb s) (k_itable s)
    (k_ftable s) (k_pipes s) (k_phys s) (k_ticks s) (k_img s) (k_dev s).

Definition set_k_disk (g : disk -> disk) (s : kernel) : kernel :=
  mkKernel (k_core s) (k_bcache s) (g (k_disk s)) (k_log s) (k_sb s) (k_itable s)
    (k_ftable s) (k_pipes s) (k_phys s) (k_ticks s) (k_img s) (k_dev s).

Definition set_k_log (g : log -> log) (s : kernel) : kernel :=
  mkKernel (k_core s) (k_bcache s) (k_disk s) (g (k_log s)) (k_sb s) (k_itable s)
    (k_ftable s) (k_pipes s) (k_phys s) (k_ticks s) (k_img s) (k_dev s).

Definition set_k_sb (g : superblock -> superblock) (s : kernel) : kernel :=
  mkKernel (k_core s) (k_bcache s) (k_disk s) (k_log s) (g (k_sb s)) (k_itable s)
    (k_ftable s) (k_pipes s) (k_phys s) (k_ticks s) (k_img s) (k_dev s).

Definition set_k_itable (g : (list inode) -> (list inode)) (s : kernel) : kernel :=
  mkKernel (k_core s) (k_bcache s) (k_disk s) (k_log s) (k_sb s) (g (k_itable s))
    (k_ftable s) (k_pipes s) (k_phys s) (k_ticks s) (k_img s) (k_dev s).

Definition set_k_ftable (g : (list file) -> (list file)) (s : kernel) : kernel :=
  mkKernel (k_core s) (k_bcache s) (k_disk s) (k_log s) (k_sb s) (k_itable s)
    (g (k_ftable s)) (k_pipes s) (k_phys s) (k_ticks s) (k_img s) (k_dev s).

Definition set_k_pipes (g : (gmap Z pipe) -> (gmap Z pipe)) (s : kernel) : kernel :=
  mkKernel (k_core s) (k_bcache s) (k_disk s) (k_log s) (k_sb s) (k_itable s)
    (k_ftable s) (g (k_pipes s)) (k_phys s) (k_ticks s) (k_img s) (k_dev s).

Definition set_k_phys (g : phys -> phys) (s : kernel) : kernel :=
  mkKernel (k_core s) (k_bcache s) (k_disk s) (k_log s) (k_sb s) (k_itable s)
    (k_ftable s) (k_pipes s) (g (k_phys s)) (k_ticks s) (k_img s) (k_dev s).

Definition set_k_ticks (g : Z -> Z) (s : kernel) : kernel :=
  mkKernel (k_core s) (k_bcache s) (k_disk s) (k_log s) (k_sb s) (k_itable s)
    (k_ftable s) (k_pipes s) (k_phys s) (g (k_ticks s)) (k_img s) (k_dev s).

Definition set_k_img (g : image -> image) (s : kernel) : kernel :=
  mkKernel (k_core s) (k_bcache s) (k_disk s) (k_log s) (k_sb s) (k_itable s)
    (k_ftable s) (k_pipes s) (k_phys s) (k_ticks s) (g (k_img s)) (k_dev s).

Definition set_k_dev (g : devices -> devices) (s : kernel) : kernel :=
  mkKernel (k_core s) (k_bcache s) (k_disk s) (k_log s) (k_sb s) (k_itable s)
    (k_ftable s) (k_pipes s) (k_phys s) (k_ticks s) (k_img s) (g (k_dev s)).

(** The monad of kernel code. *)
Abbreviation K := (M waiting kernel).

(** Reading and writing an element of a static array: outside it, the access is
    a fault. *)

Definition get_cpu (i : nat) : K cpu :=
  let* o := gets (fun k => c_cpus (k_core k) !! i) in of_opt o.

Definition upd_cpu (i : nat) (g : cpu -> cpu) : K unit :=
  let* _ := get_cpu i in modify (set_k_core (set_c_cpus (alter g i))).

Definition get_proc (i : nat) : K proc :=
  let* o := gets (fun k => c_procs (k_core k) !! i) in of_opt o.

Definition upd_proc (i : nat) (g : proc -> proc) : K unit :=
  let* _ := get_proc i in modify (set_k_core (set_c_procs (alter g i))).

Definition get_buf (i : nat) : K buf :=
  let* o := gets (fun k => bc_bufs (k_bcache k) !! i) in of_opt o.

Definition upd_buf (i : nat) (g : buf -> buf) : K unit :=
  let* _ := get_buf i in modify (set_k_bcache (set_bc_bufs (alter g i))).

Definition get_inode (i : nat) : K inode :=
  let* o := gets (fun k => k_itable k !! i) in of_opt o.

Definition upd_inode (i : nat) (g : inode -> inode) : K unit :=
  let* _ := get_inode i in modify (set_k_itable (alter g i)).

Definition get_file (i : nat) : K file :=
  let* o := gets (fun k => k_ftable k !! i) in of_opt o.

Definition upd_file (i : nat) (g : file -> file) : K unit :=
  let* _ := get_file i in modify (set_k_ftable (alter g i)).

Definition get_spin (l : lockid) : K spinlock := gets (fun k => c_spin (k_core k) l).

Definition upd_spin (l : lockid) (g : spinlock -> spinlock) : K unit :=
  modify (set_k_core (set_c_spin (fun t x => if decide (x = l) then g (t x) else t x))).

Definition get_sleep (l : sleepid) : K sleeplock := gets (fun k => c_sleep (k_core k) l).

Definition upd_sleep (l : sleepid) (g : sleeplock -> sleeplock) : K unit :=
  modify (set_k_core (set_c_sleep (fun t x => if decide (x = l) then g (t x) else t x))).

(** ** The state when the kernel starts: its static data is zero. *)

Definition zero_spin : spinlock := mkSpin 0 "" None.

Definition zero_sleep : sleeplock := mkSleep 0 "" 0.

Definition zero_cpu : cpu := mkCpu None 0 0.

Definition zero_context : context := mkContext 0 0 (replicate 12 0).

Definition zero_proc : proc :=
  mkProc UNUSED ChanNull 0 0 0 None 0 0 0 0 zero_context (replicate NOFILE None) None
    (replicate 16 0).

Definition zero_buf : buf := mkBuf 0 0 0 0 0 Head Head (replicate (Z.to_nat BSIZE) 0).

Definition zero_inode : inode := mkInode 0 0 0 0 0 0 0 0 0 (replicate 13 0).

Definition zero_file : file := mkFile FD_NONE 0 0 0 0 0 0 0.

Definition zero_log : log := mkLog 0 0 0 0 0 (mkLogheader 0 (replicate (Z.to_nat LOGSIZE) 0)).

Definition zero_core : core :=
  mkCore 0 false (replicate NCPU zero_cpu) (fun _ => zero_spin) (fun _ => zero_sleep)
    (replicate NPROC zero_proc) 1 None.

Definition zero_vdisk : vdisk :=
  mkVdisk (replicate 8 (mkDesc DNull 0 0 0)) (replicate 8 0) 0 (replicate 8 0) 0 (replicate 8 0) 0
    (replicate 8 None) (replicate 8 0) (replicate 8 (mkReq 0 0 0)) [] 0.

Definition zero_devices : devices :=
  mkDevices (mkCons (replicate 128 0) 0 0 0) (mkUart (replicate 32 0) 0 0 1 [] [] [])
    (mkCsr 0 0 0 0 0 0 0) (mkPlic [] [] []) zero_vdisk (replicate 10 (None, None)) 0 0 1.

Definition zero_kernel (d : Z -> list Z) (mem : Z -> Z) (img : image) : kernel :=
  mkKernel zero_core (mkBcache (replicate NBUF zero_buf) Head Head) (mkDisk d [])
    zero_log (mkSb 0 0 0 0 0 0 0 0) (replicate NINODE zero_inode)
    (replicate NFILE zero_file) ∅ (mkPhys mem 0 0) 0 img zero_devices.

(** ** A kernel whose first process runs

    The states the examples start from: zeroed memory, process 0 running on CPU 0
    and holding the spinlocks [hs], interrupts on when it holds none. *)

(** Addresses a linker could have given the image. *)
Definition sample_image : image := mkImage 0x80026000 0x80008000 0x80007000 0x80001a00.

(** A disk full of sevens. *)
Definition sample_disk (_ : Z) : list Z := replicate (Z.to_nat BSIZE) 7.

Definition first_proc : proc :=
  set_p_pagetable (fun _ => 0x80101000) (set_p_state (fun _ => RUNNING) (set_p_pid (fun _ => 1) zero_proc)).

Definition held_core (hs : list lockid) : core :=
  mkCore 0 (bool_decide (hs = [])) (<[0%nat := mkCpu (Some 0%nat) (Z.of_nat (length hs)) 1]> (replicate NCPU zero_cpu))
    (fun l => if decide (l ∈ hs) then mkSpin 1 "" (Some 0%nat) else zero_spin)
    (fun _ => zero_sleep) (<[0%nat := first_proc]> (replicate NPROC zero_proc)) 2 (Some 0%nat).

Definition held_kernel (hs : list lockid) (d : Z -> list Z) (mem : Z -> Z) (img : image) : kernel :=
  set_k_core (fun _ => held_core hs) (zero_kernel d mem img).

Definition first_kernel (d : Z -> list Z) (mem : Z -> Z) (img : image) : kernel := held_kernel [] d mem img.

(** ** Rules for the array accesses *)

Lemma wp_get_cpu i x Q k : c_cpus (k_core k) !! i = Some x -> Q x k -> wp (get_cpu i) Q k.
Proof. intros H HQ. unfold get_cpu. wp_steps. by apply (wp_of_opt _ x). Qed.

Lemma wp_upd_cpu i x g Q k :
  c_cpus (k_core k) !! i = Some x -> Q tt (set_k_core (set_c_cpus (alter g i)) k) -> wp (upd_cpu i g) Q k.
Proof. intros H HQ. unfold upd_cpu. wp_steps. by apply (wp_get_cpu _ x). Qed.

Lemma wp_get_proc i x Q k : c_procs (k_core k) !! i = Some x -> Q x k -> wp (get_proc i) Q k.
Proof. intros H HQ. unfold get_proc. wp_steps. by apply (wp_of_opt _ x). Qed.

Lemma wp_upd_proc i x g Q k :
  c_procs (k_core k) !! i = Some x -> Q tt (set_k_core (set_c_procs (alter g i)) k) -> wp (upd_proc i g) Q k.
Proof. intros H HQ. unfold upd_proc. wp_steps. by apply (wp_get_proc _ x). Qed.

Lemma wp_get_buf i x Q k : bc_bufs (k_bcache k) !! i = Some x -> Q x k -> wp (get_buf i) Q k.
Proof. intros H HQ. unfold get_buf. wp_steps. by apply (wp_of_opt _ x). Qed.

Lemma wp_upd_buf i x g Q k :
  bc_bufs (k_bcache k) !! i = Some x -> Q tt (set_k_bcache (set_bc_bufs (alter g i)) k) -> wp (upd_buf i g) Q k.
Proof. intros H HQ. unfold upd_buf. wp_steps. by apply (wp_get_buf _ x). Qed.

Lemma wp_get_inode i x Q k : k_itable k !! i = Some x -> Q x k -> wp (get_inode i) Q k.
Proof. intros H HQ. unfold get_inode. wp_steps. by apply (wp_of_opt _ x). Qed.

Lemma wp_upd_inode i x g Q k :
  k_itable k !! i = Some x -> Q tt (set_k_itable (alter g i) k) -> wp (upd_inode i g) Q k.
Proof. intros H HQ. unfold upd_inode. wp_steps. by apply (wp_get_inode _ x). Qed.

Lemma wp_get_file i x Q k : k_ftable k !! i = Some x -> Q x k -> wp (get_file i) Q k.
Proof. intros H HQ. unfold get_file. wp_steps. by apply (wp_of_opt _ x). Qed.

Lemma wp_upd_file i x g Q k :
  k_ftable k !! i = Some x -> Q tt (set_k_ftable (alter g i) k) -> wp (upd_file i g) Q k.
Proof. intros H HQ. unfold upd_file. wp_steps. by apply (wp_get_file _ x). Qed.
