(* ===== verification/Spin.v ===== *)
(** * Spinlocks (kernel/spinlock.c) and the current CPU and process
    (kernel/proc.c: [cpuid], [mycpu], [myproc]).

    The functions run on one hart.  [acquire] of a lock that another CPU holds
    spins: its outcome is [Wait (Spinning l)].  What several harts do to one
    lock, one memory operation at a time, is the step relation of [Smp]. *)

From S2P Require Import Prelude State.

(** ** Definitions *)

Definition intr_get : K bool := gets (fun k => c_intr (k_core k)).

Definition intr_on : K unit := modify (set_k_core (set_c_intr (fun _ => true))).

Definition intr_off : K unit := modify (set_k_core (set_c_intr (fun _ => false))).

Definition cpuid : K nat := gets (fun k => c_hart (k_core k)).

Definition mycpu : K nat := cpuid.

Definition push_off : K unit :=
  let* old := intr_get in
  intr_off ;*
  let* id := mycpu in
  let* c := get_cpu id in
  when (cpu_noff c =? 0) (upd_cpu id (set_cpu_intena (fun _ => zb old))) ;*
  upd_cpu id (set_cpu_noff (fun n => i32 (n + 1))).

Definition pop_off : K unit :=
  let* id := mycpu in
  let* on := intr_get in
  if on then panic "pop_off - interruptible" else
  let* c := get_cpu id in
  if cpu_noff c <? 1 then panic "pop_off" else
  upd_cpu id (set_cpu_noff (fun n => i32 (n - 1))) ;*
  let* c := get_cpu id in
  when ((cpu_noff c =? 0) && truthy (cpu_intena c)) intr_on.

Definition initlock (l : lockid) (name : string) : K unit :=
  upd_spin l (fun _ => mkSpin 0 name None).

Definition holding (l : lockid) : K bool :=
  let* lk := get_spin l in
  let* id := mycpu in
  M_ret (truthy (spin_locked lk) && bool_decide (spin_cpu lk = Some id)).

Definition acquire (l : lockid) : K unit :=
  push_off ;*
  let* h := holding l in
  if h then panic "acquire" else
  let* lk := get_spin l in
  if truthy (spin_locked lk) then wait_for (Spinning l) else
  upd_spin l (set_spin_locked (fun _ => 1)) ;*
  let* id := mycpu in
  upd_spin l (set_spin_cpu (fun _ => Some id)).

Definition release (l : lockid) : K unit :=
  let* h := holding l in
  if negb h then panic "release" else
  upd_spin l (set_spin_cpu (fun _ => None)) ;*
  upd_spin l (set_spin_locked (fun _ => 0)) ;*
  pop_off.

Definition myproc : K (option nat) :=
  push_off ;*
  let* id := mycpu in
  let* c := get_cpu id in
  pop_off ;*
  M_ret (cpu_proc c).

(** [myproc()->f]: the current process, which must exist. *)
Definition curproc : K nat :=
  let* p := myproc in of_opt p.

(** ** The state between kernel operations

    [core_at c me hs n]: the thread of process [me] runs on hart [c_hart c]; it
    holds the spinlocks [hs] and no one holds any other; it has called
    [push_off] [n] more times than [pop_off] beyond the calls of [acquire];
    interrupts are off whenever one of these is pending. *)

Record core_at (c : core) (me : nat) (hs : list lockid) (n : nat) : Prop := mkCoreAt {
  co_cpu : exists i, c_cpus c !! c_hart c = Some (mkCpu (Some me) (Z.of_nat (length hs + n)) i);
  co_intr : (length hs + n <> 0)%nat -> c_intr c = false;
  co_held : forall l, l ∈ hs ->
    spin_locked (c_spin c l) = 1 /\ spin_cpu (c_spin c l) = Some (c_hart c);
  co_free : forall l, l ∉ hs -> spin_locked (c_spin c l) = 0;
  co_nodup : NoDup hs;
  co_small : Z.of_nat (length hs + n) < 2 ^ 30;
  co_procs : length (c_procs c) = NPROC;
  co_me : (me < NPROC)%nat
}.

Abbreviation core_ok c me hs := (core_at c me hs 0).

(** What lock operations leave alone. *)
Record same_but_locks (c c' : core) : Prop := mkSame {
  sb_hart : c_hart c' = c_hart c;
  sb_sleep : c_sleep c' = c_sleep c;
  sb_procs : c_procs c' = c_procs c;
  sb_nextpid : c_nextpid c' = c_nextpid c;
  sb_initproc : c_initproc c' = c_initproc c
}.

Abbreviation with_core k c := (set_k_core (fun _ => c) k).

(** ** Several harts and one lock, one memory operation at a time

    A CPU between [acquire] and [release] is at one of these points:
    [Out] outside; [Chk] before the test [holding(lk)]; [Swp] before the atomic
    swap; [Own] after a swap that returned 0, before [lk->cpu = mycpu()];
    [Crit] in the critical section; [Clr] after [lk->cpu = 0], before the
    atomic release; [Bad] after a panic. *)

Module Smp.

Inductive pc := Out | Chk | Swp | Own | Crit | Clr | Bad.

Record smp := mkSmp {
  locked : Z;
  owner : option nat;
  pcs : nat -> pc
}.

Definition at_pc (s : smp) (i : nat) (p : pc) : nat -> pc :=
  fun j => if decide (j = i) then p else pcs s j.

Definition holds (s : smp) (i : nat) : bool :=
  truthy (locked s) && bool_decide (owner s = Some i).

Inductive step : smp -> smp -> Prop :=
| step_enter s i : pcs s i = Out ->
    step s (mkSmp (locked s) (owner s) (at_pc s i Chk))
| step_check_panic s i : pcs s i = Chk -> holds s i = true ->
    step s (mkSmp (locked s) (owner s) (at_pc s i Bad))
| step_check s i : pcs s i = Chk -> holds s i = false ->
    step s (mkSmp (locked s) (owner s) (at_pc s i Swp))
| step_swap_spin s i : pcs s i = Swp -> locked s <> 0 ->
    step s (mkSmp 1 (owner s) (at_pc s i Swp))
| step_swap_win s i : pcs s i = Swp -> locked s = 0 ->
    step s (mkSmp 1 (owner s) (at_pc s i Own))
| step_own s i : pcs s i = Own ->
    step s (mkSmp (locked s) (Some i) (at_pc s i Crit))
| step_rel_panic s i : pcs s i = Crit -> holds s i = false ->
    step s (mkSmp (locked s) (owner s) (at_pc s i Bad))
| step_rel_clear s i : pcs s i = Crit -> holds s i = true ->
    step s (mkSmp (locked s) None (at_pc s i Clr))
| step_rel_store s i : pcs s i = Clr ->
    step s (mkSmp 0 (owner s) (at_pc s i Out)).

Inductive reach : smp -> Prop :=
| reach_init : reach (mkSmp 0 None (fun _ => Out))
| reach_step s s' : reach s -> step s s' -> reach s'.

(** CPU [i] has the lock from its winning swap to its releasing store. *)
Definition owns (p : pc) : bool :=
  match p with Own | Crit | Clr => true | _ => false end.

Record inv (s : smp) : Prop := mkInv {
  inv_bit : locked s = 0 \/ locked s = 1;
  inv_free : locked s = 0 -> (forall i, owns (pcs s i) = false) /\ owner s = None;
  inv_one : forall i j, owns (pcs s i) = true -> owns (pcs s j) = true -> i = j;
  inv_crit : forall i, pcs s i = Crit -> owner s = Some i;
  inv_owner : forall i, owner s = Some i -> pcs s i = Crit;
  inv_bad : forall i, pcs s i <> Bad
}.

End Smp.

(** ** Lemmas *)

#[export] Hint Constructors same_but_locks : core.

Lemma same_but_locks_refl c : same_but_locks c c.
Proof. done. Qed.

Lemma same_but_locks_trans c1 c2 c3 :
  same_but_locks c1 c2 -> same_but_locks c2 c3 -> same_but_locks c1 c3.
Proof. intros [] []. constructor; congruence. Qed.

Lemma wp_push_off k me hs n Q :
  core_at (k_core k) me hs n -> Z.of_nat (length hs + n) + 1 < 2 ^ 30 ->
  (forall c', core_at c' me hs (S n) -> same_but_locks (k_core k) c' ->
     c_spin c' = c_spin (k_core k) -> Q tt (with_core k c')) ->
  wp push_off Q k.
Proof.
  destruct k as [[h on cpus sp sl ps np ip] bc dk lg sb it ft pi ph ti im dv].
  intros [[i Hc] Hi Hh Hf Hn Hs Hp Hm] Hlt HQ. simpl in *.
  unfold push_off, intr_get, intr_off, mycpu, cpuid. wp_steps.
  eapply wp_get_cpu; [exact Hc|]. simpl. wp_steps.
  assert (Hend : forall cpus' i',
    cpus' !! h = Some (mkCpu (Some me) (Z.of_nat (length hs + n)) i') ->
    wp (upd_cpu h (set_cpu_noff (fun n => i32 (n + 1)))) Q
      (mkKernel (mkCore h false cpus' sp sl ps np ip) bc dk lg sb it ft pi ph ti im dv)).
  { intros cpus' i' Hc'. eapply wp_upd_cpu; [exact Hc'|].
    apply (HQ (mkCore h false _ sp sl ps np ip)); [|done|done].
    constructor; simpl; try done; [|lia].
    exists i'. rewrite list_lookup_alter_eq, Hc'. simpl. unfold set_cpu_noff. simpl.
    do 2 f_equal. rewrite i32_small by lia. lia. }
  apply wp_when; intros E; bool_simpl.
  - eapply wp_upd_cpu; [exact Hc|]. apply (Hend _ (zb on)).
    simpl. by rewrite list_lookup_alter_eq, Hc.
  - by apply (Hend _ i).
Qed.

Lemma wp_pop_off k me hs n Q :
  core_at (k_core k) me hs (S n) ->
  (forall c', core_at c' me hs n -> same_but_locks (k_core k) c' ->
     c_spin c' = c_spin (k_core k) -> Q tt (with_core k c')) ->
  wp pop_off Q k.
Proof.
  destruct k as [[h on cpus sp sl ps np ip] bc dk lg sb it ft pi ph ti im dv].
  intros [[i Hc] Hi Hh Hf Hn Hs Hp Hm] HQ. simpl in *.
  unfold pop_off, intr_get, intr_on, mycpu, cpuid. wp_steps. simpl.
  rewrite Hi by lia. wp_steps.
  eapply wp_get_cpu; [exact Hc|]. simpl.
  destruct (Z.ltb_spec (Z.of_nat (length hs + S n)) 1); [lia|]. wp_steps.
  eapply wp_upd_cpu; [exact Hc|]. wp_steps.
  eapply wp_get_cpu; [simpl; by rewrite list_lookup_alter_eq, Hc|]. simpl.
  rewrite i32_small by lia.
  assert (Hend : forall on', ((length hs + n)%nat <> 0%nat -> on' = false) ->
    Q tt (mkKernel (mkCore h on' (alter (set_cpu_noff (fun n => i32 (n - 1))) h cpus)
            sp sl ps np ip) bc dk lg sb it ft pi ph ti im dv)).
  { intros on' Hon. apply (HQ (mkCore h on' _ sp sl ps np ip)); [|done|done].
    constructor; simpl; try done; [|lia].
    exists i. rewrite list_lookup_alter_eq, Hc. simpl. unfold set_cpu_noff. simpl.
    do 2 f_equal. rewrite i32_small by lia. lia. }
  apply wp_when; intros E.
  - wp_steps. apply (Hend true). bool_simpl. lia.
  - apply (Hend false). done.
Qed.

Lemma wp_holding k l Q :
  Q (truthy (spin_locked (c_spin (k_core k) l)) &&
     bool_decide (spin_cpu (c_spin (k_core k) l) = Some (c_hart (k_core k)))) k ->
  wp (holding l) Q k.
Proof. intros H. unfold holding, get_spin, mycpu, cpuid. wp_steps. exact H. Qed.

(** A free lock is acquired. *)
Lemma wp_acquire k me hs n l Q :
  core_at (k_core k) me hs n -> Z.of_nat (length hs + n) + 1 < 2 ^ 30 -> l ∉ hs ->
  (forall c', core_at c' me (l :: hs) n -> same_but_locks (k_core k) c' ->
     Q tt (with_core k c')) ->
  wp (acquire l) Q k.
Proof.
  intros Hc Hlt Hl HQ. unfold acquire. wp_steps.
  eapply wp_push_off; [exact Hc|exact Hlt|]. intros c1 H1 Hs1 Hsp.
  destruct k as [co bc dk lg sb it ft pi ph ti im dv].
  destruct c1 as [h on cpus sp sl ps np ip].
  destruct H1 as [[i Hcpu] Hi Hh Hf Hn Hs Hp Hm]. simpl in *.
  wp_steps. apply wp_holding. simpl. rewrite Hf by done. simpl. wp_steps.
  unfold get_spin. wp_steps. simpl. rewrite Hf by done. simpl.
  unfold upd_spin, mycpu, cpuid. wp_steps. unfold set_k_core. simpl.
  apply (HQ (mkCore h on cpus _ sl ps np ip)).
  - constructor; simpl; try done.
    + exists i. rewrite Hcpu. do 3 f_equal. lia.
    + intros _. apply Hi. lia.
    + intros l' [->|Hl']%elem_of_cons.
      * rewrite !decide_True by done. done.
      * rewrite !decide_False by (intros ->; done). by apply Hh.
    + intros l' [Hne Hl']%not_elem_of_cons. rewrite !decide_False by done. by apply Hf.
    + by constructor.
    + lia.
  - destruct Hs1; simpl in *. by constructor.
Qed.

(** A lock this thread holds is released. *)
Lemma wp_release k me l hs n Q :
  core_at (k_core k) me (l :: hs) n ->
  (forall c', core_at c' me hs n -> same_but_locks (k_core k) c' ->
     Q tt (with_core k c')) ->
  wp (release l) Q k.
Proof.
  intros Hc HQ. unfold release. wp_steps. apply wp_holding.
  destruct (co_held _ _ _ _ Hc l) as [Hl1 Hl2]; [left|].
  rewrite Hl1, Hl2, bool_decide_true by done. simpl.
  destruct k as [[h on cpus sp sl ps np ip] bc dk lg sb it ft pi ph ti im dv].
  destruct Hc as [[i Hcpu] Hi Hh Hf Hn Hs Hp Hm]. simpl in *.
  unfold upd_spin. wp_steps. apply NoDup_cons in Hn as [Hnl Hn].
  eapply (wp_pop_off _ me hs n).
  - simpl. constructor; simpl; try done.
    + exists i. rewrite Hcpu. do 3 f_equal. lia.
    + intros _. apply Hi. lia.
    + intros l' Hl'. rewrite !decide_False by (intros ->; done). apply Hh. by right.
    + intros l' Hl'. destruct (decide (l' = l)) as [->|Hne]; [done|].
      apply Hf. by apply not_elem_of_cons.
    + lia.
  - intros c' Hc' Hs' Hsp'. apply (HQ c'); [exact Hc'|]. destruct Hs'. by constructor.
Qed.

Lemma wp_myproc k me hs n Q :
  core_at (k_core k) me hs n -> Z.of_nat (length hs + n) + 1 < 2 ^ 30 ->
  (forall c', core_at c' me hs n -> same_but_locks (k_core k) c' ->
     Q (Some me) (with_core k c')) ->
  wp myproc Q k.
Proof.
  intros Hc Hlt HQ. unfold myproc. wp_steps.
  eapply wp_push_off; [exact Hc|exact Hlt|]. intros c1 H1 Hs1 Hsp.
  unfold mycpu, cpuid. wp_steps. pose proof H1 as [[i Hcpu] _ _ _ _ _ _ _].
  eapply wp_get_cpu; [exact Hcpu|]. wp_steps.
  eapply (wp_pop_off _ me hs n); [exact H1|]. intros c2 H2 Hs2 _. simpl.
  wp_steps. apply (HQ c2); [exact H2|]. eapply same_but_locks_trans; eauto.
Qed.

Lemma wp_curproc k me hs n Q :
  core_at (k_core k) me hs n -> Z.of_nat (length hs + n) + 1 < 2 ^ 30 ->
  (forall c', core_at c' me hs n -> same_but_locks (k_core k) c' ->
     Q me (with_core k c')) ->
  wp curproc Q k.
Proof.
  intros Hc Hlt HQ. unfold curproc. wp_steps.
  eapply wp_myproc; [exact Hc|exact Hlt|]. intros c' H' Hs'.
  eapply wp_of_opt; [done|]. by apply HQ.
Qed.

(** *** Nesting of [push_off] and [pop_off] *)

Lemma held_core_ok hs :
  NoDup hs -> Z.of_nat (length hs) < 2 ^ 30 -> core_ok (held_core hs) 0 hs.
Proof.
  intros Hnd Hl. constructor; try done; unfold held_core; cbn [c_cpus c_hart c_intr c_spin].
  - exists 1. by rewrite Nat.add_0_r.
  - intros. apply bool_decide_false. intros ->. done.
  - intros l Hin. by rewrite decide_True.
  - intros l Hin. by rewrite decide_False.
  - lia.
  - apply Nat.ltb_lt. reflexivity.
Qed.

Fixpoint repeat_m (n : nat) (m : K unit) : K unit :=
  match n with
  | O => M_ret tt
  | S n => m ;* repeat_m n m
  end.

(** The hart's record while [j] calls of [push_off] are pending, when interrupts
    were [on] and none was pending before. *)
Definition pushed (k0 k : kernel) (on : bool) (j : nat) : Prop :=
  c_hart (k_core k) = c_hart (k_core k0) /\
  exists c, c_cpus (k_core k) !! c_hart (k_core k) = Some c /\
    cpu_noff c = Z.of_nat j /\
    match j with
    | O => c_intr (k_core k) = on
    | S _ => c_intr (k_core k) = false /\ cpu_intena c = zb on
    end.

Lemma push_off_pushed k0 k on j :
  Z.of_nat j + 1 < 2 ^ 31 -> pushed k0 k on j ->
  wp push_off (fun _ k' => pushed k0 k' on (S j)) k.
Proof.
  destruct k as [[h i cpus sp sl ps np ip] bc dk lg sb it ft pi ph ti im dv].
  intros Hj (Hh & [pr no ie] & Hc & Hn & Hi). simpl in *. subst no.
  unfold push_off, intr_get, intr_off, mycpu, cpuid. wp_steps.
  eapply wp_get_cpu; [exact Hc|]. simpl. wp_steps. destruct j as [|j].
  - simpl. wp_steps. eapply wp_upd_cpu; [exact Hc|]. cbn beta.
    eapply wp_upd_cpu; [simpl; by rewrite list_lookup_alter_eq, Hc|].
    split; [done|]. simpl. rewrite !list_lookup_alter_eq, Hc. simpl.
    eexists. split; [done|]. simpl. rewrite Hi. split; [|done].
    by rewrite i32_small by lia.
  - destruct Hi as [-> ->]. simpl. wp_steps. eapply wp_upd_cpu; [exact Hc|].
    split; [done|]. simpl. rewrite !list_lookup_alter_eq, Hc. simpl.
    eexists. split; [done|]. simpl. split; [|done]. rewrite i32_small by lia. lia.
Qed.

Lemma pop_off_pushed k0 k on j :
  Z.of_nat j + 1 < 2 ^ 31 -> pushed k0 k on (S j) ->
  wp pop_off (fun _ k' => pushed k0 k' on j) k.
Proof.
  destruct k as [[h i cpus sp sl ps np ip] bc dk lg sb it ft pi ph ti im dv].
  intros Hj (Hh & [pr no ie] & Hc & Hn & Hi & Hie). simpl in *. subst no i ie.
  unfold pop_off, intr_get, intr_on, mycpu, cpuid. wp_steps. simpl. wp_steps.
  eapply wp_get_cpu; [exact Hc|]. cbn beta. cbn [cpu_noff].
  destruct (Z.ltb_spec (Z.of_nat (S j)) 1); [lia|]. wp_steps.
  eapply wp_upd_cpu; [exact Hc|]. wp_steps.
  eapply wp_get_cpu; [simpl; by rewrite list_lookup_alter_eq, Hc|].
  cbn beta. cbn [cpu_noff cpu_intena set_cpu_noff]. rewrite i32_small by lia.
  replace (Z.of_nat (S j) - 1) with (Z.of_nat j) by lia.
  apply wp_when; intros E; bool_simpl; wp_steps; (split; [done|]); simpl;
    rewrite list_lookup_alter_eq, Hc; simpl; eexists; (split; [done|]); simpl;
    rewrite i32_small by lia; (split; [lia|]).
  - destruct j; [|lia]. destruct on; done.
  - destruct j as [|j]; [|done]. destruct on; done.
Qed.

Lemma repeat_push_off k0 k on n j :
  Z.of_nat (n + j) < 2 ^ 31 -> pushed k0 k on j ->
  wp (repeat_m n push_off) (fun _ k' => pushed k0 k' on (n + j)) k.
Proof.
  revert k j. induction n as [|n IH]; intros k j Hb Hp; simpl; wp_steps; [exact Hp|].
  wp_apply (push_off_pushed k0 k on j); [lia|exact Hp|]. intros ? k' Hp'.
  replace (S (n + j)) with (n + S j)%nat by lia. apply IH; [lia|exact Hp'].
Qed.

Lemma repeat_pop_off k0 k on n j :
  Z.of_nat (n + j) < 2 ^ 31 -> pushed k0 k on (n + j) ->
  wp (repeat_m n pop_off) (fun _ k' => pushed k0 k' on j) k.
Proof.
  revert k j. induction n as [|n IH]; intros k j Hb Hp; simpl; wp_steps; [exact Hp|].
  simpl in Hp. wp_apply (pop_off_pushed k0 k on (n + j)); [lia|exact Hp|].
  intros ? k' Hp'. apply IH; [lia|exact Hp'].
Qed.

(** [push_off] and [pop_off] nest: after [n] calls of each, interrupts are
    enabled exactly when they were before, the nesting depth is back to 0, and
    in between interrupts are off. *)
Theorem push_pop_restores k c n :
  c_cpus (k_core k) !! c_hart (k_core k) = Some c -> cpu_noff c = 0 ->
  (0 < n)%nat -> Z.of_nat n < 2 ^ 31 ->
  wp (repeat_m n push_off ;*
      let* mid := intr_get in
      repeat_m n pop_off ;*
      M_ret mid)
    (fun mid k' => mid = false /\ c_intr (k_core k') = c_intr (k_core k) /\
       exists c', c_cpus (k_core k') !! c_hart (k_core k) = Some c' /\ cpu_noff c' = 0) k.
Proof.
  intros Hc Hn H0 Hlt.
  assert (Hp : pushed k k (c_intr (k_core k)) 0) by (split; eauto).
  wp_steps. wp_apply (repeat_push_off k k _ n 0); [lia|exact Hp|].
  intros ? k1 H1. unfold intr_get. wp_steps. wp_apply (repeat_pop_off k k1 _ n 0); [lia|exact H1|].
  intros ? k2 (Hh2 & c2 & Hc2 & Hn2 & Hi2). wp_steps.
  destruct H1 as (_ & c1 & _ & _ & Hi1). destruct n as [|n]; [lia|].
  simpl in Hi1. split; [tauto|]. split; [done|]. exists c2. by rewrite <- Hh2.
Qed.

(** *** Mutual exclusion *)

Lemma owns_at_pc s i p j :
  Smp.owns (Smp.at_pc s i p j) =
  if decide (j = i) then Smp.owns p else Smp.owns (Smp.pcs s j).
Proof. unfold Smp.at_pc. by destruct (decide (j = i)). Qed.

Lemma smp_init_inv : Smp.inv (Smp.mkSmp 0 None (fun _ => Smp.Out)).
Proof. constructor; simpl; naive_solver. Qed.

(** [holding] is exact: it answers yes to the CPU in its critical section, and to
    no other. *)
Lemma smp_holds s i : Smp.inv s -> Smp.holds s i = true <-> Smp.pcs s i = Smp.Crit.
Proof.
  intros [Hb Hf H1 Hc Ho Hbad]. unfold Smp.holds. split.
  - intros H. bool_simpl. auto.
  - intros H. pose proof (Hc i H) as E. rewrite E, bool_decide_true by done.
    destruct Hb as [Hz|Hz]; [|by rewrite Hz].
    destruct (Hf Hz) as [_ E']. congruence.
Qed.

(** Only CPU [i] moves, and the ones that own the lock are as before. *)
Lemma smp_move_inv s i p :
  Smp.inv s -> Smp.owns (Smp.pcs s i) = false -> Smp.owns p = false -> p <> Smp.Bad ->
  Smp.inv (Smp.mkSmp (Smp.locked s) (Smp.owner s) (Smp.at_pc s i p)).
Proof.
  intros [Hb Hf H1 Hc Ho Hbad] Hi Hp Hnb.
  assert (Hsame : forall j, Smp.owns (Smp.at_pc s i p j) = Smp.owns (Smp.pcs s j)).
  { intros j. rewrite owns_at_pc. destruct (decide (j = i)) as [->|]; congruence. }
  constructor; simpl.
  - done.
  - intros Hz. destruct (Hf Hz) as [Hn He]. split; [|done]. intros j. by rewrite Hsame.
  - intros j j'. rewrite !Hsame. apply H1.
  - intros j. unfold Smp.at_pc. destruct (decide (j = i)) as [->|]; [|apply Hc].
    intros ->. done.
  - intros j Hj. unfold Smp.at_pc. destruct (decide (j = i)) as [->|]; [|by apply Ho].
    rewrite (Ho _ Hj) in Hi. done.
  - intros j. unfold Smp.at_pc. by destruct (decide (j = i)).
Qed.

(** CPU [i] moves between the points where it owns the lock. *)
Lemma smp_own_inv s i p o :
  Smp.inv s -> Smp.owns (Smp.pcs s i) = true -> Smp.owns p = true ->
  (p = Smp.Crit /\ o = Some i \/ p <> Smp.Crit /\ o = None) ->
  Smp.inv (Smp.mkSmp (Smp.locked s) o (Smp.at_pc s i p)).
Proof.
  intros [Hb Hf H1 Hc Ho Hbad] Hi Hp Hcase.
  assert (Hsame : forall j, Smp.owns (Smp.at_pc s i p j) = Smp.owns (Smp.pcs s j)).
  { intros j. rewrite owns_at_pc. destruct (decide (j = i)) as [->|]; congruence. }
  assert (Hother : forall j, j <> i -> Smp.pcs s j <> Smp.Crit).
  { intros j Hj E. apply Hj, H1; [by rewrite E|done]. }
  constructor; simpl.
  - done.
  - intros Hz. destruct (Hf Hz) as [Hn He]. by rewrite Hn in Hi.
  - intros j j'. rewrite !Hsame. apply H1.
  - intros j. unfold Smp.at_pc. destruct (decide (j = i)) as [->|Hj].
    + naive_solver.
    + intros E. by destruct (Hother j Hj).
  - intros j Hj. unfold Smp.at_pc. destruct Hcase as [[-> ->]|[_ ->]]; [|done].
    simplify_eq. by rewrite decide_True.
  - intros j. unfold Smp.at_pc. destruct (decide (j = i)); [|done]. by intros ->.
Qed.

Lemma smp_step_inv s s' : Smp.inv s -> Smp.step s s' -> Smp.inv s'.
Proof.
  intros Hi Hs. pose proof Hi as [Hb Hf H1 Hc Ho Hbad].
  destruct Hs as [s i E|s i E Hh|s i E Hh|s i E Hl|s i E Hl|s i E|s i E Hh|s i E Hh|s i E].
  - apply smp_move_inv; by rewrite ?E.
  - apply smp_holds in Hh; [congruence|done].
  - apply smp_move_inv; by rewrite ?E.
  - replace 1 with (Smp.locked s) by (destruct Hb; lia).
    apply smp_move_inv; by rewrite ?E.
  - destruct (Hf Hl) as [Hn He]. constructor; simpl.
    + by right.
    + done.
    + intros j j'. rewrite !owns_at_pc, !Hn.
      destruct (decide (j = i)), (decide (j' = i)); naive_solver.
    + intros j. unfold Smp.at_pc. destruct (decide (j = i)); [done|]. apply Hc.
    + by rewrite He.
    + intros j. unfold Smp.at_pc. by destruct (decide (j = i)).
  - apply smp_own_inv; rewrite ?E; auto.
  - assert (Smp.holds s i = true) by (by apply smp_holds). congruence.
  - apply smp_own_inv; rewrite ?E; auto.
  - assert (Hn : forall j, j <> i -> Smp.owns (Smp.pcs s j) = false).
    { intros j Hj. destruct (Smp.owns (Smp.pcs s j)) eqn:Ej; [|done].
      destruct Hj. apply H1; [done|by rewrite E]. }
    assert (He : Smp.owner s = None).
    { destruct (Smp.owner s) as [j|] eqn:Ej; [|done]. pose proof (Ho j eq_refl) as Hj.
      destruct (decide (j = i)) as [->|Hne]; [congruence|].
      pose proof (Hn j Hne). by rewrite Hj in *. }
    constructor; simpl.
    + by left.
    + intros _. split; [|done]. intros j. rewrite owns_at_pc.
      destruct (decide (j = i)); auto.
    + intros j j'. rewrite !owns_at_pc.
      destruct (decide (j = i)), (decide (j' = i)); [done|done|done|apply H1].
    + intros j. unfold Smp.at_pc. destruct (decide (j = i)); [done|]. apply Hc.
    + by rewrite He.
    + intros j. unfold Smp.at_pc. by destruct (decide (j = i)).
Qed.



Lemma push_pop_restores_witness :
  exists k', (repeat_m 3 push_off ;* let* mid := intr_get in repeat_m 3 pop_off ;* M_ret mid)
      (first_kernel sample_disk (fun _ => 0) sample_image) = Ok false k' /\
    c_intr (k_core k') = true.
Proof.
  destruct (wp_ok _ _ _ (push_pop_restores (first_kernel sample_disk (fun _ => 0) sample_image)
    (mkCpu (Some 0%nat) 0 1) 3 eq_refl eq_refl (Nat.lt_0_succ 2) eq_refl))
    as (mid & k' & E & -> & Hi & _).
  exists k'. exact (conj E Hi).
Defined.
