(* ===== verification/Sleep.v ===== *)
(** * Sleeping and waking (kernel/proc.c: [sched], [sleep], [wakeup]) and sleep
    locks (kernel/sleeplock.c).

    A thread that calls [sleep] stops at the context switch in [sched]; the
    outcome is then [Wait (Sleeping chan)] with the state the scheduler and the
    other threads see.  The second half of [sleep], which runs when the
    scheduler resumes the thread, is [sleep_return].  A loop
    [while(cond) sleep(...)] tests its condition again after each return, so a
    call that stops in it is continued by calling it again. *)

From S2P Require Import Prelude State Spin.

(** ** Definitions *)

Definition sched (w : waiting) : K unit :=
  let* p := curproc in
  let* h := holding (LProc p) in
  if negb h then panic "sched p->lock" else
  let* id := mycpu in
  let* c := get_cpu id in
  if negb (cpu_noff c =? 1) then panic "sched locks" else
  let* pr := get_proc p in
  if bool_decide (p_state pr = RUNNING) then panic "sched running" else
  let* on := intr_get in
  if on then panic "sched interruptible" else
  wait_for w.

Definition sleep (ch : chan) (lk : lockid) : K unit :=
  let* p := curproc in
  acquire (LProc p) ;*
  release lk ;*
  upd_proc p (set_p_chan (fun _ => ch)) ;*
  upd_proc p (set_p_state (fun _ => SLEEPING)) ;*
  sched (Sleeping ch).

Definition sleep_return (lk : lockid) : K unit :=
  let* p := curproc in
  upd_proc p (set_p_chan (fun _ => ChanNull)) ;*
  release (LProc p) ;*
  acquire lk.

Definition wakeup (ch : chan) : K unit :=
  for_each (seq 0 NPROC) (fun p =>
    let* me := myproc in
    if bool_decide (me = Some p) then M_ret tt else
    acquire (LProc p) ;*
    let* pr := get_proc p in
    when (bool_decide (p_state pr = SLEEPING) && bool_decide (p_chan pr = ch))
      (upd_proc p (set_p_state (fun _ => RUNNABLE))) ;*
    release (LProc p)).

Definition initsleeplock (lk : sleepid) (name : string) : K unit :=
  initlock (LSleep lk) "sleep lock" ;*
  upd_sleep lk (fun _ => mkSleep 0 name 0).

Definition acquiresleep (lk : sleepid) : K unit :=
  acquire (LSleep lk) ;*
  let* l := get_sleep lk in
  when (truthy (sl_locked l)) (sleep (ChanSleep lk) (LSleep lk)) ;*
  upd_sleep lk (set_sl_locked (fun _ => 1)) ;*
  let* p := curproc in
  let* pr := get_proc p in
  upd_sleep lk (set_sl_pid (fun _ => p_pid pr)) ;*
  release (LSleep lk).

Definition releasesleep (lk : sleepid) : K unit :=
  acquire (LSleep lk) ;*
  upd_sleep lk (set_sl_locked (fun _ => 0)) ;*
  upd_sleep lk (set_sl_pid (fun _ => 0)) ;*
  wakeup (ChanSleep lk) ;*
  release (LSleep lk).

Definition holdingsleep (lk : sleepid) : K bool :=
  acquire (LSleep lk) ;*
  let* l := get_sleep lk in
  let* p := curproc in
  let* pr := get_proc p in
  release (LSleep lk) ;*
  M_ret (truthy (sl_locked l) && (sl_pid l =? p_pid pr)).

(** ** Specification *)

(** What [wakeup(ch)], called by process [me], makes of the process table. *)
Definition wake_one (ch : chan) (me : nat) (i : nat) (p : proc) : proc :=
  if decide (i <> me /\ p_state p = SLEEPING /\ p_chan p = ch)
  then set_p_state (fun _ => RUNNABLE) p else p.

Definition woken (ch : chan) (me : nat) (ps : list proc) : list proc :=
  imap (wake_one ch me) ps.

(** What operations that only take and release locks and wake sleepers may do to
    the process table. *)
Record core_frame (me : nat) (c c' : core) : Prop := mkFrame {
  cf_hart : c_hart c' = c_hart c;
  cf_nextpid : c_nextpid c' = c_nextpid c;
  cf_initproc : c_initproc c' = c_initproc c;
  cf_me : c_procs c' !! me = c_procs c !! me;
  cf_procs : forall i p, c_procs c !! i = Some p ->
    c_procs c' !! i = Some p \/
    (p_state p = SLEEPING /\
     c_procs c' !! i = Some (set_p_state (fun _ => RUNNABLE) p))
}.

(** ** A sleeper and its wakers, one lock operation at a time

    Process [p] runs [acquire(lk); while(!cond) sleep(chan, lk); ...; release(lk)];
    any number of other threads run [acquire(lk); cond = 1; wakeup(chan);
    release(lk)], with [wakeup] reduced to the visit of [p]. *)

Module Wake.

(** The points of [p]: before [acquire(lk)]; before the test; in [sleep] before
    [acquire(&p->lock)], before [release(lk)], before the stores to [p->chan] and
    [p->state], before the switch; switched out; back on a CPU, before
    [release(&p->lock)]; before [acquire(lk)] at the end of [sleep]; after the
    loop. *)
Inductive spc := SEnter | STest | SLockP | SUnlock | SStore | SSched | SOut | SBack | SRelock | SDone.

(** The points of a waker: before [acquire(lk)]; before the store to the condition;
    in [wakeup] before [acquire(&p->lock)], before the test of [p->state], before
    [release(&p->lock)]; before [release(lk)]. *)
Inductive wpc := WEnter | WSet | WLockP | WTest | WUnlockP | WLeave.

Inductive who := Sleeper | Waker (i : nat).

Record sys := mkSys {
  lk : option who;
  plk : option who;
  cond : bool;
  asleep : procstate;
  spcs : spc;
  wpcs : nat -> wpc
}.

Definition at_w (s : sys) (i : nat) (p : wpc) : nat -> wpc :=
  fun j => if decide (j = i) then p else wpcs s j.

Inductive step : sys -> sys -> Prop :=
| s_enter s : spcs s = SEnter -> lk s = None ->
    step s (mkSys (Some Sleeper) (plk s) (cond s) (asleep s) STest (wpcs s))
| s_test_done s : spcs s = STest -> cond s = true ->
    step s (mkSys (lk s) (plk s) (cond s) (asleep s) SDone (wpcs s))
| s_test_sleep s : spcs s = STest -> cond s = false ->
    step s (mkSys (lk s) (plk s) (cond s) (asleep s) SLockP (wpcs s))
| s_lockp s : spcs s = SLockP -> plk s = None ->
    step s (mkSys (lk s) (Some Sleeper) (cond s) (asleep s) SUnlock (wpcs s))
| s_unlock s : spcs s = SUnlock ->
    step s (mkSys None (plk s) (cond s) (asleep s) SStore (wpcs s))
| s_store s : spcs s = SStore ->
    step s (mkSys (lk s) (plk s) (cond s) SLEEPING SSched (wpcs s))
| s_sched s : spcs s = SSched ->
    step s (mkSys (lk s) None (cond s) (asleep s) SOut (wpcs s))
| s_resume s : spcs s = SOut -> plk s = None -> asleep s = RUNNABLE ->
    step s (mkSys (lk s) (Some Sleeper) (cond s) RUNNING SBack (wpcs s))
| s_unlockp s : spcs s = SBack ->
    step s (mkSys (lk s) None (cond s) (asleep s) SRelock (wpcs s))
| s_relock s : spcs s = SRelock -> lk s = None ->
    step s (mkSys (Some Sleeper) (plk s) (cond s) (asleep s) STest (wpcs s))
| s_leave s b : spcs s = SDone ->
    step s (mkSys None (plk s) b (asleep s) SEnter (wpcs s))
| w_enter s i : wpcs s i = WEnter -> lk s = None ->
    step s (mkSys (Some (Waker i)) (plk s) (cond s) (asleep s) (spcs s) (at_w s i WSet))
| w_set s i : wpcs s i = WSet ->
    step s (mkSys (lk s) (plk s) true (asleep s) (spcs s) (at_w s i WLockP))
| w_lockp s i : wpcs s i = WLockP -> plk s = None ->
    step s (mkSys (lk s) (Some (Waker i)) (cond s) (asleep s) (spcs s) (at_w s i WTest))
| w_test s i : wpcs s i = WTest ->
    step s (mkSys (lk s) (plk s) (cond s)
              (if decide (asleep s = SLEEPING) then RUNNABLE else asleep s) (spcs s) (at_w s i WUnlockP))
| w_unlockp s i : wpcs s i = WUnlockP ->
    step s (mkSys (lk s) None (cond s) (asleep s) (spcs s) (at_w s i WLeave))
| w_leave s i : wpcs s i = WLeave ->
    step s (mkSys None (plk s) (cond s) (asleep s) (spcs s) (at_w s i WEnter)).

Definition init : sys := mkSys None None false RUNNING SEnter (fun _ => WEnter).

(** Who holds the two locks, by the point they are at. *)
Definition s_has_lk (p : spc) : bool :=
  match p with STest | SLockP | SUnlock | SDone => true | _ => false end.

Definition s_has_plk (p : spc) : bool :=
  match p with SUnlock | SStore | SSched | SBack => true | _ => false end.

Definition w_has_lk (p : wpc) : bool := match p with WEnter => false | _ => true end.

Definition w_has_plk (p : wpc) : bool := match p with WTest | WUnlockP => true | _ => false end.

(** A waker has set the condition and has not looked at [p] yet. *)
Definition about_to_wake (s : sys) : Prop := exists i, wpcs s i = WLockP \/ wpcs s i = WTest.

Record inv (s : sys) : Prop := mkInv {
  i_slk : s_has_lk (spcs s) = true -> lk s = Some Sleeper;
  i_wlk : forall i, w_has_lk (wpcs s i) = true -> lk s = Some (Waker i);
  i_splk : s_has_plk (spcs s) = true -> plk s = Some Sleeper;
  i_wplk : forall i, w_has_plk (wpcs s i) = true -> plk s = Some (Waker i);
  i_state : asleep s <> RUNNING -> spcs s = SSched \/ spcs s = SOut;
  i_runnable : spcs s = SSched -> asleep s = SLEEPING;
  i_tested : spcs s = SLockP \/ spcs s = SUnlock -> cond s = false;
  i_wake : spcs s = SStore \/ asleep s = SLEEPING -> cond s = true -> about_to_wake s
}.

End Wake.

(** ** Lemmas *)

Lemma core_frame_refl me c : core_frame me c c.
Proof. constructor; auto. Qed.

Lemma core_frame_trans me c1 c2 c3 :
  core_frame me c1 c2 -> core_frame me c2 c3 -> core_frame me c1 c3.
Proof.
  intros [? ? ? ? H1] [? ? ? ? H2]. constructor; try congruence.
  intros i p Hp. destruct (H1 i p Hp) as [Hp'|[Hs Hp']].
  - by apply H2.
  - right. destruct (H2 _ _ Hp') as [Hp''|[Hs' _]]; [done|].
    simpl in Hs'. done.
Qed.

Lemma procs_frame me c c' :
  c_hart c' = c_hart c -> c_nextpid c' = c_nextpid c -> c_initproc c' = c_initproc c ->
  c_procs c' = c_procs c -> core_frame me c c'.
Proof.
  intros ? ? ? Hp. constructor; try done.
  - by rewrite Hp.
  - intros i p. rewrite Hp. by left.
Qed.

Lemma same_core_frame me c c' : same_but_locks c c' -> core_frame me c c'.
Proof. intros []. by apply procs_frame. Qed.

Lemma woken_frame ch me c c' :
  c_hart c' = c_hart c -> c_nextpid c' = c_nextpid c -> c_initproc c' = c_initproc c ->
  c_procs c' = woken ch me (c_procs c) -> core_frame me c c'.
Proof.
  intros Hh Hn Hi Hp. constructor; try done.
  - rewrite Hp. unfold woken. rewrite list_lookup_imap.
    destruct (c_procs c !! me) as [p|] eqn:E; [|done]. simpl. f_equal.
    unfold wake_one. by rewrite decide_False by tauto.
  - intros i p E. rewrite Hp. unfold woken. rewrite list_lookup_imap, E. simpl.
    unfold wake_one. destruct (decide _) as [(?&?&?)|]; auto.
Qed.

#[export] Hint Resolve core_frame_refl same_core_frame : core.

(** The process table after [i] iterations of [wakeup]. *)
Definition woken_upto (ch : chan) (me n : nat) (ps : list proc) : list proc :=
  imap (fun i p => if decide (i < n)%nat then wake_one ch me i p else p) ps.

Lemma woken_upto_S ch me n ps p :
  ps !! n = Some p ->
  woken_upto ch me (S n) ps = <[n := wake_one ch me n p]> (woken_upto ch me n ps).
Proof.
  intros Hp. apply list_eq. intros i. unfold woken_upto.
  destruct (decide (i = n)) as [->|Hne].
  - rewrite list_lookup_insert_eq.
    + rewrite list_lookup_imap, Hp. simpl. by rewrite decide_True by lia.
    + rewrite length_imap. by eapply lookup_lt_Some.
  - rewrite list_lookup_insert_ne by done. rewrite !list_lookup_imap.
    destruct (ps !! i); simpl; [|done]. f_equal.
    destruct (decide (i < S n)%nat), (decide (i < n)%nat); try done; lia.
Qed.

Lemma lookup_woken_upto_ge ch me n ps : woken_upto ch me n ps !! n = ps !! n.
Proof.
  unfold woken_upto. rewrite list_lookup_imap. destruct (ps !! n); cbn -[decide]; [|done].
  by rewrite decide_False by lia.
Qed.

(** [wakeup] makes runnable exactly the other processes that sleep on the
    channel. *)
Lemma wp_wakeup k me hs n ch Q :
  core_at (k_core k) me hs n -> Z.of_nat (length hs + n) + 2 < 2 ^ 30 ->
  (forall i, LProc i ∉ hs) ->
  (forall c', core_at c' me hs n -> c_hart c' = c_hart (k_core k) ->
     c_sleep c' = c_sleep (k_core k) -> c_nextpid c' = c_nextpid (k_core k) ->
     c_initproc c' = c_initproc (k_core k) ->
     c_procs c' = woken ch me (c_procs (k_core k)) -> Q tt (with_core k c')) ->
  wp (wakeup ch) Q k.
Proof.
  intros Hc Hlt Hnp HQ. unfold wakeup.
  set (I := fun i k' => exists c', k' = with_core k c' /\ core_at c' me hs n /\
     c_hart c' = c_hart (k_core k) /\ c_sleep c' = c_sleep (k_core k) /\
     c_nextpid c' = c_nextpid (k_core k) /\ c_initproc c' = c_initproc (k_core k) /\
     c_procs c' = woken_upto ch me i (c_procs (k_core k))).
  eapply wp_mono; [apply (wp_for_each _ _ I)|].
  - exists (k_core k). split_ands; try done; [by destruct k|].
    unfold woken_upto. symmetry. apply list_eq. intros i. rewrite list_lookup_imap.
    destruct (_ !! i); cbn -[decide]; [|done]. by rewrite decide_False by lia.
  - intros i x k' Hi (c & -> & Hc' & Hh & Hsl & Hnx & Hip & Hps).
    apply lookup_seq in Hi as [-> Hlt']. simpl.
    destruct (lookup_lt_is_Some_2 (c_procs (k_core k)) i) as [p Hp].
    { rewrite (co_procs _ _ _ _ Hc). done. }
    wp_steps. eapply wp_myproc; [exact Hc'|simpl; lia|]. intros c1 H1 Hs1. cbn beta.
    case_bool_decide as Eme.
    + wp_steps. simplify_eq. exists c1. destruct Hs1. simpl in *.
      split_ands; try congruence; [done|].
      rewrite sb_procs, Hps, (woken_upto_S _ _ _ _ p) by done. symmetry.
      apply list_insert_id. rewrite lookup_woken_upto_ge, Hp. unfold wake_one.
      by rewrite decide_False by tauto.
    + wp_steps. eapply wp_acquire; [exact H1|simpl; lia|apply Hnp|]. intros c2 H2 Hs2.
      pose proof (same_but_locks_trans _ _ _ Hs1 Hs2) as Hs12. simpl in *.
      assert (Hp2 : c_procs c2 !! i = Some p).
      { destruct Hs12. rewrite sb_procs, Hps, lookup_woken_upto_ge. done. }
      wp_steps. eapply wp_get_proc; [exact Hp2|]. wp_steps.
      assert (Hend : forall c3, core_at c3 me (LProc i :: hs) n ->
        c_hart c3 = c_hart c2 -> c_sleep c3 = c_sleep c2 -> c_nextpid c3 = c_nextpid c2 ->
        c_initproc c3 = c_initproc c2 ->
        c_procs c3 = <[i := wake_one ch me i p]> (c_procs c2) ->
        wp (release (LProc i)) (fun _ s' => I (S i) s') (with_core k c3)).
      { intros c3 H3 E1 E2 E3 E4 E5. eapply wp_release; [exact H3|].
        intros c4 H4 Hs4. exists c4. destruct Hs4, Hs12. simpl in *.
        split_ands; try congruence; [done|].
        rewrite sb_procs, E5, sb_procs0, Hps. symmetry. by apply woken_upto_S. }
      apply wp_when; intros E.
      * eapply wp_upd_proc; [exact Hp2|].
        apply (Hend (set_c_procs (alter (set_p_state (fun _ => RUNNABLE)) i) c2)); try done.
        -- destruct H2; constructor; simpl; try done. by rewrite length_alter.
        -- simpl. bool_simpl. unfold wake_one. rewrite decide_True by (split_ands; auto; congruence).
           by apply alter_as_insert.
      * apply Hend; try done. symmetry. apply list_insert_id. rewrite Hp2. f_equal.
        unfold wake_one. rewrite decide_False; [done|]. intros (?&?&?).
        apply andb_false_iff in E as [E|E]; bool_simpl; done.
  - intros [] k' (c' & -> & Hc' & Hh & Hsl & Hnx & Hip & Hps). apply HQ; try done.
    rewrite Hps. unfold woken_upto, woken. apply imap_ext. intros i p Hp. simpl.
    rewrite decide_True; [done|]. change (i < NPROC)%nat. rewrite <- (co_procs _ _ _ _ Hc).
    by eapply lookup_lt_Some.
Qed.

(** The sleep-lock table with the entry [lk] changed. *)
Definition sleep_set (t t' : sleepid -> sleeplock) (lk : sleepid) (locked pid : Z) : Prop :=
  sl_locked (t' lk) = locked /\ sl_pid (t' lk) = pid /\ (forall x, x <> lk -> t' x = t x).

Lemma wp_acquiresleep k me pr hs n lk Q :
  core_at (k_core k) me hs n -> Z.of_nat (length hs + n) + 2 < 2 ^ 30 ->
  LSleep lk ∉ hs -> sl_locked (c_sleep (k_core k) lk) = 0 ->
  c_procs (k_core k) !! me = Some pr ->
  (forall c', core_at c' me hs n -> core_frame me (k_core k) c' ->
     sleep_set (c_sleep (k_core k)) (c_sleep c') lk 1 (p_pid pr) -> Q tt (with_core k c')) ->
  wp (acquiresleep lk) Q k.
Proof.
  intros Hc Hlt Hl H0 Hp HQ. unfold acquiresleep. wp_steps.
  eapply wp_acquire; [exact Hc|lia|exact Hl|]. intros c1 H1 Hs1.
  unfold get_sleep. wp_steps. simpl. rewrite (sb_sleep _ _ Hs1), H0. simpl.
  unfold upd_sleep at 1. wp_steps.
  eapply (wp_curproc _ me (LSleep lk :: hs) n).
  - simpl. destruct H1; by constructor.
  - simpl. lia.
  - intros c2 H2 Hs2. simpl in Hs2. wp_steps.
    eapply wp_get_proc.
    { simpl. rewrite (sb_procs _ _ Hs2). simpl. rewrite (sb_procs _ _ Hs1). exact Hp. }
    unfold upd_sleep. wp_steps. eapply (wp_release _ me (LSleep lk) hs n).
    + simpl. destruct H2; by constructor.
    + intros c3 H3 Hs3. simpl in Hs3. apply (HQ c3); [exact H3| |].
      * destruct Hs1, Hs2, Hs3; simpl in *. apply procs_frame; congruence.
      * destruct Hs1, Hs2, Hs3; simpl in *. rewrite sb_sleep1.
        split; [|split]; [rewrite decide_True by done; simpl; rewrite ?sb_sleep0, ?decide_True by done; done..|].
        intros x Hx. rewrite decide_False, sb_sleep0, decide_False by done. congruence.
Qed.

Lemma wp_releasesleep k me hs n lk Q :
  core_at (k_core k) me hs n -> Z.of_nat (length hs + n) + 3 < 2 ^ 30 ->
  LSleep lk ∉ hs -> (forall i, LProc i ∉ hs) ->
  (forall c', core_at c' me hs n -> core_frame me (k_core k) c' ->
     sleep_set (c_sleep (k_core k)) (c_sleep c') lk 0 0 ->
     c_procs c' = woken (ChanSleep lk) me (c_procs (k_core k)) -> Q tt (with_core k c')) ->
  wp (releasesleep lk) Q k.
Proof.
  intros Hc Hlt Hl Hnp HQ. unfold releasesleep. wp_steps.
  eapply wp_acquire; [exact Hc|lia|exact Hl|]. intros c1 H1 Hs1.
  unfold upd_sleep. wp_steps. eapply (wp_wakeup _ me (LSleep lk :: hs) n).
  - simpl. destruct H1; by constructor.
  - simpl. lia.
  - intros i. apply not_elem_of_cons. auto.
  - intros c2 H2 Hh2 Hsl2 Hn2 Hi2 Hp2. simpl in *. wp_steps.
    eapply (wp_release _ me (LSleep lk) hs n); [exact H2|]. intros c3 H3 Hs3.
    destruct Hs1, Hs3; simpl in *.
    assert (E : c_procs c3 = woken (ChanSleep lk) me (c_procs (k_core k))).
    { by rewrite sb_procs0, Hp2, sb_procs. }
    apply (HQ c3); [exact H3| | |exact E].
    + apply (woken_frame (ChanSleep lk)); congruence.
    + rewrite sb_sleep0, Hsl2. split; [|split]; [by rewrite !decide_True..|].
      intros x Hx. rewrite !decide_False by done. congruence.
Qed.

Lemma wp_holdingsleep k me pr hs n lk Q :
  core_at (k_core k) me hs n -> Z.of_nat (length hs + n) + 2 < 2 ^ 30 ->
  LSleep lk ∉ hs -> c_procs (k_core k) !! me = Some pr ->
  (forall c', core_at c' me hs n -> same_but_locks (k_core k) c' ->
     Q (truthy (sl_locked (c_sleep (k_core k) lk)) &&
        (sl_pid (c_sleep (k_core k) lk) =? p_pid pr)) (with_core k c')) ->
  wp (holdingsleep lk) Q k.
Proof.
  intros Hc Hlt Hl Hp HQ. unfold holdingsleep. wp_steps.
  eapply wp_acquire; [exact Hc|lia|exact Hl|]. intros c1 H1 Hs1.
  unfold get_sleep. wp_steps. eapply (wp_curproc _ me _ n); [exact H1|simpl; lia|].
  intros c2 H2 Hs2. wp_steps.
  eapply wp_get_proc.
  { simpl. rewrite (sb_procs _ _ Hs2). simpl. rewrite (sb_procs _ _ Hs1). exact Hp. }
  wp_steps. eapply (wp_release _ me (LSleep lk) hs n); [exact H2|]. intros c3 H3 Hs3.
  wp_steps. simpl. rewrite (sb_sleep _ _ Hs1). apply (HQ c3); [exact H3|].
  eauto using same_but_locks_trans.
Qed.

(** *** [sleep] *)

Lemma core_at_swap c me l1 l2 hs n :
  core_at c me (l1 :: l2 :: hs) n -> core_at c me (l2 :: l1 :: hs) n.
Proof.
  intros [Hc Hi Hh Hf Hn Hs Hp Hm]. constructor; try done.
  - intros l Hl. apply Hh. set_solver.
  - intros l Hl. apply Hf. set_solver.
  - rewrite Permutation_swap in Hn. done.
Qed.

(** [sched] up to the context switch, for a process that holds its own lock and
    nothing else. *)
Lemma waits_sched k me pr w Q :
  core_ok (k_core k) me [LProc me] -> c_procs (k_core k) !! me = Some pr ->
  p_state pr <> RUNNING ->
  (forall c', core_ok c' me [LProc me] -> same_but_locks (k_core k) c' -> Q (with_core k c')) ->
  waits (sched w) w Q k.
Proof.
  intros Hc Hp Hst HQ. unfold sched. wp_steps.
  eapply wp_curproc; [exact Hc|simpl; lia|]. intros c1 H1 Hs1. wp_steps. apply wp_holding. simpl.
  destruct (co_held _ _ _ _ H1 (LProc me)) as [E1 E2]; [set_solver|].
  rewrite E1, E2, bool_decide_true by done. simpl. unfold mycpu, cpuid. wp_steps.
  pose proof (co_cpu _ _ _ _ H1) as [i Hcpu]. eapply wp_get_cpu; [exact Hcpu|]. simpl. wp_steps.
  eapply wp_get_proc; [simpl; by rewrite (sb_procs _ _ Hs1)|].
  rewrite bool_decide_false by done. unfold intr_get. wp_steps. simpl.
  rewrite (co_intr _ _ _ _ H1) by (simpl; lia). split; [done|]. by apply HQ.
Qed.

Lemma waits_sleep k me pr ch lk Q :
  core_ok (k_core k) me [lk] -> lk <> LProc me -> c_procs (k_core k) !! me = Some pr ->
  (forall c', core_ok c' me [LProc me] -> c_hart c' = c_hart (k_core k) ->
     c_sleep c' = c_sleep (k_core k) ->
     c_procs c' = <[me := set_p_state (fun _ => SLEEPING) (set_p_chan (fun _ => ch) pr)]>
                    (c_procs (k_core k)) ->
     Q (with_core k c')) ->
  waits (sleep ch lk) (Sleeping ch) Q k.
Proof.
  intros Hc Hlk Hp HQ. unfold sleep. wp_steps.
  eapply wp_curproc; [exact Hc|simpl; lia|]. intros c1 H1 Hs1. wp_steps.
  eapply wp_acquire; [exact H1|simpl; lia|set_solver|]. intros c2 H2 Hs2. simpl in Hs2. wp_steps.
  eapply wp_release; [apply core_at_swap, H2|]. intros c3 H3 Hs3. simpl in Hs3.
  pose proof (same_but_locks_trans _ _ _ Hs1 (same_but_locks_trans _ _ _ Hs2 Hs3)) as Hs.
  simpl in Hs. assert (Hp3 : c_procs c3 !! me = Some pr) by (by rewrite (sb_procs _ _ Hs)).
  wp_steps. eapply wp_upd_proc; [exact Hp3|]. wp_steps.
  eapply wp_upd_proc; [simpl; by rewrite list_lookup_alter_eq, Hp3|]. cbn beta.
  assert (Hlt : (me < length (c_procs c3))%nat) by (by eapply lookup_lt_Some).
  eapply (waits_sched _ me).
  - simpl. destruct H3; constructor; try done. simpl. by rewrite !length_alter.
  - simpl. rewrite !list_lookup_alter_eq, Hp3. done.
  - done.
  - intros c4 H4 Hs4. simpl in Hs4. apply (HQ c4); [exact H4| | |].
    + rewrite (sb_hart _ _ Hs4). simpl. apply Hs.
    + rewrite (sb_sleep _ _ Hs4). simpl. apply Hs.
    + rewrite (sb_procs _ _ Hs4). simpl. rewrite (alter_as_insert (set_p_chan _) _ pr) by done.
      rewrite (alter_as_insert _ me (set_p_chan (fun _ => ch) pr)) by (by apply list_lookup_insert_eq).
      by rewrite list_insert_insert_eq, (sb_procs _ _ Hs).
Qed.

Lemma panics_sleep_locks k me pr ch lk hs :
  core_ok (k_core k) me (lk :: hs) -> hs <> [] -> LProc me ∉ lk :: hs ->
  Z.of_nat (length hs) + 3 < 2 ^ 30 -> c_procs (k_core k) !! me = Some pr ->
  panics (sleep ch lk) "sched locks" k.
Proof.
  intros Hc Hne Hlk Hlt Hp. unfold sleep. wp_steps.
  eapply wp_curproc; [exact Hc|simpl; lia|]. intros c1 H1 Hs1. wp_steps.
  eapply wp_acquire; [exact H1|simpl; lia|done|]. intros c2 H2 Hs2. simpl in Hs2. wp_steps.
  eapply wp_release; [apply core_at_swap, H2|]. intros c3 H3 Hs3. simpl in Hs3.
  pose proof (same_but_locks_trans _ _ _ Hs1 (same_but_locks_trans _ _ _ Hs2 Hs3)) as Hs.
  simpl in Hs. assert (Hp3 : c_procs c3 !! me = Some pr) by (by rewrite (sb_procs _ _ Hs)).
  wp_steps. eapply wp_upd_proc; [exact Hp3|]. wp_steps.
  eapply wp_upd_proc; [simpl; by rewrite list_lookup_alter_eq, Hp3|]. cbn beta.
  unfold sched. wp_steps. eapply (wp_curproc _ me (LProc me :: hs) 0).
  { simpl. destruct H3; constructor; try done. simpl. by rewrite !length_alter. }
  { simpl. lia. }
  intros c4 H4 Hs4. wp_steps. apply wp_holding. simpl.
  destruct (co_held _ _ _ _ H4 (LProc me)) as [E1 E2]; [set_solver|].
  rewrite E1, E2, bool_decide_true by done. simpl. unfold mycpu, cpuid. wp_steps.
  pose proof (co_cpu _ _ _ _ H4) as [i Hcpu]. eapply wp_get_cpu; [exact Hcpu|].
  cbn [cpu_noff]. rewrite (proj2 (Z.eqb_neq _ _)); [done|]. destruct hs; [done|simpl; lia].
Qed.

(** *** No lost wakeup *)

Lemma wake_inv_init : Wake.inv Wake.init.
Proof. constructor; simpl; try done; naive_solver. Qed.

Lemma wake_step_sleeper s lk' plk' c' a' p' :
  Wake.inv s ->
  let s' := Wake.mkSys lk' plk' c' a' p' (Wake.wpcs s) in
  (Wake.s_has_lk p' = true -> lk' = Some Wake.Sleeper) ->
  (Wake.s_has_plk p' = true -> plk' = Some Wake.Sleeper) ->
  (lk' = Wake.lk s \/ Wake.lk s = None \/ Wake.lk s = Some Wake.Sleeper) ->
  (plk' = Wake.plk s \/ Wake.plk s = None \/ Wake.plk s = Some Wake.Sleeper) ->
  (a' <> RUNNING -> p' = Wake.SSched \/ p' = Wake.SOut) ->
  (p' = Wake.SSched -> a' = SLEEPING) ->
  (p' = Wake.SLockP \/ p' = Wake.SUnlock -> c' = false) ->
  (p' = Wake.SStore \/ a' = SLEEPING -> c' = true -> Wake.about_to_wake s) ->
  Wake.inv s'.
Proof.
  intros [Hsl Hwl Hsp Hwp Hst Hrun Htest Hwake] s' H1 H2 H3 H4 H5 H6 H7 H8.
  constructor; simpl; try done.
  - intros i Hi. specialize (Hwl i Hi). destruct H3 as [->|[?|?]]; congruence.
  - intros i Hi. specialize (Hwp i Hi). destruct H4 as [->|[?|?]]; congruence.
Qed.

Lemma wake_step_waker s i lk' plk' c' a' p' :
  Wake.inv s ->
  let s' := Wake.mkSys lk' plk' c' a' (Wake.spcs s) (Wake.at_w s i p') in
  (Wake.w_has_lk p' = true -> lk' = Some (Wake.Waker i)) ->
  (Wake.w_has_plk p' = true -> plk' = Some (Wake.Waker i)) ->
  (lk' = Wake.lk s \/ Wake.lk s = None \/ Wake.lk s = Some (Wake.Waker i)) ->
  (plk' = Wake.plk s \/ Wake.plk s = None \/ Wake.plk s = Some (Wake.Waker i)) ->
  (a' <> RUNNING -> Wake.spcs s = Wake.SSched \/ Wake.spcs s = Wake.SOut) ->
  (Wake.spcs s = Wake.SSched -> a' = SLEEPING) ->
  (Wake.spcs s = Wake.SLockP \/ Wake.spcs s = Wake.SUnlock -> c' = false) ->
  (Wake.spcs s = Wake.SStore \/ a' = SLEEPING -> c' = true -> Wake.about_to_wake s') ->
  Wake.inv s'.
Proof.
  intros [Hsl Hwl Hsp Hwp Hst Hrun Htest Hwake] s' H1 H2 H3 H4 H5 H6 H7 H8.
  constructor; simpl; try done.
  - intros H. specialize (Hsl H). destruct H3 as [->|[?|?]]; congruence.
  - intros j. unfold Wake.at_w. destruct (decide (j = i)) as [->|]; [done|]. intros Hj.
    specialize (Hwl j Hj). destruct H3 as [->|[?|?]]; congruence.
  - intros H. specialize (Hsp H). destruct H4 as [->|[?|?]]; congruence.
  - intros j. unfold Wake.at_w. destruct (decide (j = i)) as [->|]; [done|]. intros Hj.
    specialize (Hwp j Hj). destruct H4 as [->|[?|?]]; congruence.
Qed.

(** A waker that is not between the store and the test does not matter. *)
Lemma about_to_wake_mono s lk' plk' c' a' i p' :
  Wake.about_to_wake s ->
  (Wake.wpcs s i <> Wake.WLockP /\ Wake.wpcs s i <> Wake.WTest \/ p' = Wake.WLockP \/ p' = Wake.WTest) ->
  Wake.about_to_wake (Wake.mkSys lk' plk' c' a' (Wake.spcs s) (Wake.at_w s i p')).
Proof.
  intros [j Hj] Hi. destruct (decide (j = i)) as [->|Hne].
  - exists i. simpl. unfold Wake.at_w. rewrite decide_True by done. naive_solver.
  - exists j. simpl. unfold Wake.at_w. by rewrite decide_False.
Qed.

Lemma wake_inv_step s s' : Wake.step s s' -> Wake.inv s -> Wake.inv s'.
Proof.
  intros Hstep Hinv. pose proof Hinv as [Hsl Hwl Hsp Hwp Hst Hrun Htest Hwake].
  destruct Hstep as [s E|s E|s E|s E|s E|s E|s E|s E|s E|s E|s b E|s i E|s i E|s i E|s i E|s i E|s i E].
  1-11: apply wake_step_sleeper; rewrite ?E in *; simpl in *; try done; try tauto; try (intuition congruence).
  all: pose proof (Hwl i) as Hwli; pose proof (Hwp i) as Hwpi; rewrite E in Hwli, Hwpi; simpl in *;
    apply wake_step_waker; simpl; auto; try done; try tauto.
  - intros H1 H2. apply about_to_wake_mono; [auto|]. rewrite E. by left.
  - intros [H|H]; rewrite H in Hsl; specialize (Hsl eq_refl); rewrite Hwli in Hsl by done; done.
  - intros _ _. exists i. simpl. unfold Wake.at_w. rewrite decide_True by done. auto.
  - intros H1 H2. apply about_to_wake_mono; auto.
  - destruct (decide _); [intros _; apply Hst; congruence|by intros; apply Hst].
  - intros H. rewrite H in Hsp. specialize (Hsp eq_refl). rewrite Hwpi in Hsp by done. done.
  - intros [H|H] _.
    + rewrite H in Hsp. specialize (Hsp eq_refl). rewrite Hwpi in Hsp by done. done.
    + by destruct (decide _).
  - intros H1 H2. apply about_to_wake_mono; [auto|]. rewrite E. by left.
  - intros H1 H2. apply about_to_wake_mono; [auto|]. rewrite E. by left.
Qed.

(** ** Properties *)

(** [wakeup(chan)] makes runnable exactly the processes that sleep on [chan],
    other than the caller; every other process, and everything else in the
    process table, is as before. *)
Theorem wakeup_exact k me hs ch :
  core_ok (k_core k) me hs -> Z.of_nat (length hs) + 2 < 2 ^ 30 -> (forall i, LProc i ∉ hs) ->
  wp (wakeup ch) (fun _ k' =>
    core_ok (k_core k') me hs /\
    length (c_procs (k_core k')) = length (c_procs (k_core k)) /\
    forall i p, c_procs (k_core k) !! i = Some p ->
      c_procs (k_core k') !! i =
        Some (if decide (i <> me /\ p_state p = SLEEPING /\ p_chan p = ch)
              then set_p_state (fun _ => RUNNABLE) p else p)) k.
Proof.
  intros Hc Hl Hp. eapply wp_wakeup; [exact Hc|lia|exact Hp|].
  intros c' Hc' _ _ _ _ E. simpl. rewrite E. unfold woken. split; [done|].
  split; [apply length_imap|]. intros i p Hi. by rewrite list_lookup_imap, Hi.
Qed.

(** [sleep(chan, lk)], called with [lk] as the only lock held, releases [lk] and
    stops at the context switch: the process is marked as sleeping on [chan], it
    holds its own lock and no other, and nothing else has changed. *)
Theorem sleep_stops k me pr ch lk :
  core_ok (k_core k) me [lk] -> lk <> LProc me -> c_procs (k_core k) !! me = Some pr ->
  exists c', sleep ch lk k = Wait (Sleeping ch) (with_core k c') /\
    core_ok c' me [LProc me] /\ spin_locked (c_spin c' lk) = 0 /\
    c_sleep c' = c_sleep (k_core k) /\
    c_procs c' = <[me := set_p_state (fun _ => SLEEPING) (set_p_chan (fun _ => ch) pr)]>
                   (c_procs (k_core k)).
Proof.
  intros Hc Hlk Hp.
  assert (H : waits (sleep ch lk) (Sleeping ch) (fun k' => exists c', k' = with_core k c' /\
    core_ok c' me [LProc me] /\ c_sleep c' = c_sleep (k_core k) /\
    c_procs c' = <[me := set_p_state (fun _ => SLEEPING) (set_p_chan (fun _ => ch) pr)]>
                   (c_procs (k_core k))) k).
  { eapply waits_sleep; eauto. }
  unfold waits in H. destruct (sleep ch lk k) as [| |w k'| |]; try done.
  destruct H as (-> & c' & -> & Hc' & Hs & Hps). exists c'. split_ands; try done.
  apply (co_free _ _ _ _ Hc'). set_solver.
Qed.

(** [sleep] while another spinlock is held panics rather than switch away with
    the lock held. *)
Theorem sleep_with_locks_panics k me pr ch lk hs :
  core_ok (k_core k) me (lk :: hs) -> hs <> [] -> LProc me ∉ lk :: hs ->
  Z.of_nat (length hs) + 3 < 2 ^ 30 -> c_procs (k_core k) !! me = Some pr ->
  sleep ch lk k = Panic "sched locks".
Proof. intros. by eapply panics_sleep_locks. Qed.


Lemma wakeup_exact_witness :
  exists k', wakeup ChanLog (held_kernel [LLog] sample_disk (fun _ => 0) sample_image) = Ok tt k' /\
    core_ok (k_core k') 0 [LLog].
Proof.
  assert (Hc : core_ok (held_core [LLog]) 0 [LLog]).
  { apply held_core_ok; [apply NoDup_singleton|done]. }
  assert (Hp : forall i, LProc i ∉ [LLog]) by set_solver.
  destruct (wp_ok _ _ _ (wakeup_exact (held_kernel [LLog] sample_disk (fun _ => 0) sample_image)
    0 [LLog] ChanLog Hc eq_refl Hp)) as ([] & k' & E & H & _).
  exists k'. exact (conj E H).
Defined.

Lemma sleep_stops_witness :
  exists c', sleep ChanLog LLog (held_kernel [LLog] sample_disk (fun _ => 0) sample_image) =
    Wait (Sleeping ChanLog) (with_core (held_kernel [LLog] sample_disk (fun _ => 0) sample_image) c') /\
    core_ok c' 0 [LProc 0].
Proof.
  destruct (sleep_stops (held_kernel [LLog] sample_disk (fun _ => 0) sample_image) 0 first_proc ChanLog LLog)
    as (c' & E & H & _).
  - apply held_core_ok; [apply NoDup_singleton|done].
  - discriminate.
  - reflexivity.
  - exists c'. exact (conj E H).
Defined.

Lemma sleep_with_locks_panics_witness :
  sleep ChanLog LLog (held_kernel [LLog; LKmem] sample_disk (fun _ => 0) sample_image) = Panic "sched locks".
Proof.
  apply (sleep_with_locks_panics _ 0 first_proc ChanLog LLog [LKmem]).
  - apply held_core_ok; [|done]. apply NoDup_cons. split; [set_solver|apply NoDup_singleton].
  - discriminate.
  - set_solver.
  - done.
  - reflexivity.
Defined.

