(* ===== verification/Uart.v ===== *)
(** * The serial port driver (kernel/uart.c)

    [uartputc] puts a character into a ring of [UART_TX_BUF_SIZE] and [uartstart] moves
    characters from the ring to the device while it is ready.  [uart_tx_w] and
    [uart_tx_r] count characters and are taken modulo the size only to index.  The
    interrupt handler [uartintr] is in Console.v, which it calls into. *)

From S2P Require Import Prelude Ring State Spin Sleep.

(** ** Definitions *)

Definition RHR : Z := 0.
Definition THR : Z := 0.
Definition IER : Z := 1.
Definition IER_RX_ENABLE : Z := Z.shiftl 1 0.
Definition IER_TX_ENABLE : Z := Z.shiftl 1 1.
Definition FCR : Z := 2.
Definition FCR_FIFO_ENABLE : Z := Z.shiftl 1 0.
Definition FCR_FIFO_CLEAR : Z := Z.shiftl 3 1.
Definition LCR : Z := 3.
Definition LCR_EIGHT_BITS : Z := Z.shiftl 3 0.
Definition LCR_BAUD_LATCH : Z := Z.shiftl 1 7.
Definition LSR_RX_READY : Z := Z.shiftl 1 0.
Definition LSR_TX_IDLE : Z := Z.shiftl 1 5.
Definition UART_TX_BUF_SIZE : Z := 32.

Definition get_dev {A} (f : devices -> A) : K A := gets (fun k => f (k_dev k)).

Definition upd_uart (g : uart -> uart) : K unit := modify (set_k_dev (set_dv_uart g)).

(** A write to a control register. *)
Definition uart_ctl (reg v : Z) : K unit := upd_uart (set_u_ctl (fun l => l ++ [(reg, v)])).

(** The line status register. *)
Definition read_lsr : K Z :=
  let* u := get_dev dv_uart in
  M_ret (Z.lor (if (0 <? u_ready u)%nat then LSR_TX_IDLE else 0)
               (if bool_decide (u_rx u = []) then 0 else LSR_RX_READY)).

(** A write to the transmit holding register. *)
Definition write_thr (c : Z) : K unit :=
  upd_uart (fun u => set_u_ready pred (set_u_sent (fun l => l ++ [u8 c]) u)).

Definition uartinit : K unit :=
  uart_ctl IER 0x00 ;*
  uart_ctl LCR LCR_BAUD_LATCH ;*
  uart_ctl 0 0x03 ;*
  uart_ctl 1 0x00 ;*
  uart_ctl LCR LCR_EIGHT_BITS ;*
  uart_ctl FCR (Z.lor FCR_FIFO_ENABLE FCR_FIFO_CLEAR) ;*
  uart_ctl IER (Z.lor IER_TX_ENABLE IER_RX_ENABLE) ;*
  initlock LUart "uart".

(** The loop of [uartstart] ends when the ring is empty; the fuel is one more than the
    ring holds. *)
Fixpoint uartstart_loop (fuel : nat) : K unit :=
  match fuel with
  | O => nofuel
  | S fuel =>
      let* u := get_dev dv_uart in
      if u_w u =? u_r u then M_ret tt else
      let* lsr := read_lsr in
      if Z.land lsr LSR_TX_IDLE =? 0 then M_ret tt else
      let* c := of_opt (u_buf u !! Z.to_nat (u_r u mod UART_TX_BUF_SIZE)) in
      upd_uart (set_u_r (fun r => u64 (r + 1))) ;*
      wakeup ChanUart ;*
      write_thr c ;*
      uartstart_loop fuel
  end.

Definition uartstart : K unit := uartstart_loop (S (Z.to_nat UART_TX_BUF_SIZE)).

Definition uartputc (c : Z) : K unit :=
  acquire LUart ;*
  let* panicked := get_dev dv_panicked in
  if truthy panicked then wait_for Frozen else
  let* u := get_dev dv_uart in
  if u_w u =? u64 (u_r u + UART_TX_BUF_SIZE) then
    sleep ChanUart LUart
  else
    upd_uart (set_u_buf (insert (Z.to_nat (u_w u mod UART_TX_BUF_SIZE)) (u8 c))) ;*
    upd_uart (set_u_w (fun w => u64 (w + 1))) ;*
    uartstart ;*
    release LUart.

Definition uartputc_sync (c : Z) : K unit :=
  push_off ;*
  let* panicked := get_dev dv_panicked in
  if truthy panicked then wait_for Frozen else
  let* lsr := read_lsr in
  if Z.land lsr LSR_TX_IDLE =? 0 then wait_for Polling else
  write_thr c ;*
  pop_off.

Definition uartgetc : K Z :=
  let* lsr := read_lsr in
  if truthy (Z.land lsr 0x01) then
    let* u := get_dev dv_uart in
    let* c := of_opt (head (u_rx u)) in
    upd_uart (set_u_rx tail) ;*
    M_ret c
  else M_ret (-1).

(** ** Specification *)

(** The characters in the ring. *)
Definition queued (u : uart) : nat := Z.to_nat (u64 (u_w u - u_r u)).
Definition pending (u : uart) : list Z := ring (u_buf u) (u_r u) (queued u).

Record uart_ok (u : uart) : Prop := mkUartOk {
  uo_len : length (u_buf u) = Z.to_nat UART_TX_BUF_SIZE;
  uo_r : 0 <= u_r u < 2 ^ 64;
  uo_w : 0 <= u_w u < 2 ^ 64;
  uo_room : (queued u <= Z.to_nat UART_TX_BUF_SIZE)%nat
}.

(** The device after the bytes [l] were given to it. *)
Definition sent (l : list Z) (u : uart) : uart :=
  set_u_ready (fun n => (n - length l)%nat) (set_u_sent (fun s => s ++ l) u).

Abbreviation with_uart k g := (set_k_dev (set_dv_uart g) k).

(** ** Lemmas *)

Lemma u64_minus_succ w r : 0 <= w < 2 ^ 64 -> 0 <= r < 2 ^ 64 -> w <> r ->
  u64 (w - u64 (r + 1)) = u64 (w - r) - 1 /\ 1 <= u64 (w - r).
Proof.
  intros Hw Hr Hne. pose proof (ahead_range (2 ^ 64) ltac:(lia) r w).
  assert (1 <= ahead (2 ^ 64) r w).
  { destruct (decide (ahead (2 ^ 64) r w = 0)) as [E|]; [|lia]. by apply ahead_zero in E. }
  split; [|done]. by apply ahead_pop.
Qed.

Lemma tx_ring_mod buf x n : length buf = Z.to_nat UART_TX_BUF_SIZE -> ring buf (u64 x) n = ring buf x n.
Proof.
  intros Hl. apply ring_mod. rewrite Hl. unfold u64. apply wrap_mod; [done| |lia].
  by exists (2 ^ 59).
Qed.

(** Taking the first character out. *)
Lemma pending_pop u :
  uart_ok u -> u_w u <> u_r u ->
  let u' := set_u_r (fun r => u64 (r + 1)) u in
  exists c, u_buf u !! Z.to_nat (u_r u mod UART_TX_BUF_SIZE) = Some c /\
    pending u = c :: pending u' /\ uart_ok u' /\ queued u = S (queued u').
Proof.
  intros [Hl Hr Hw Hq] Hne u'. destruct (u64_minus_succ _ _ Hw Hr Hne) as [E1 E2].
  assert (Eq : queued u = S (queued u')) by (unfold queued in *; simpl; rewrite E1; lia).
  pose proof (Z.mod_pos_bound (u_r u) UART_TX_BUF_SIZE eq_refl) as Hm.
  destruct (lookup_lt_is_Some_2 (u_buf u) (Z.to_nat (u_r u mod UART_TX_BUF_SIZE))) as [c Hc]; [lia|].
  exists c. split_ands; try done.
  - unfold pending. rewrite Eq, ring_S, Hl. change (Z.of_nat (Z.to_nat UART_TX_BUF_SIZE)) with UART_TX_BUF_SIZE.
    rewrite (list_lookup_total_correct _ _ _ Hc). f_equal. symmetry. by apply tx_ring_mod.
  - constructor; [done|apply u64_range|done|lia].
Qed.

(** Putting one in. *)
Lemma pending_push u c :
  uart_ok u -> (queued u < Z.to_nat UART_TX_BUF_SIZE)%nat ->
  let u' := set_u_w (fun w => u64 (w + 1)) (set_u_buf (insert (Z.to_nat (u_w u mod UART_TX_BUF_SIZE)) c) u) in
  pending u' = pending u ++ [c] /\ uart_ok u' /\ queued u' = S (queued u).
Proof.
  intros [Hl Hr Hw Hq] Hlt u'. assert (HS : UART_TX_BUF_SIZE = 32) by done.
  pose proof (Z.mod_pos_bound (u_w u - u_r u) (2 ^ 64) eq_refl) as Hb.
  assert (Eq : queued u' = S (queued u)).
  { unfold queued in *. simpl. change (u64 (u_w u - u_r u)) with (ahead (2 ^ 64) (u_r u) (u_w u)) in *.
    change (u64 (u64 (u_w u + 1) - u_r u)) with (ahead (2 ^ 64) (u_r u) ((u_w u + 1) mod 2 ^ 64)).
    pose proof (ahead_range (2 ^ 64) ltac:(lia) (u_r u) (u_w u)). rewrite ahead_push by lia. lia. }
  split_ands; try done.
  - unfold pending. rewrite Eq. simpl. rewrite <- ring_push by lia. f_equal. f_equal.
    rewrite Hl. change (Z.of_nat (Z.to_nat UART_TX_BUF_SIZE)) with UART_TX_BUF_SIZE.
    unfold queued. rewrite Z2Nat.id by (unfold u64; lia). f_equal.
    pose proof (ring_index 64 (u_buf u) (u_r u) (u_w u)) as E. rewrite Hl in E. symmetry.
    apply E; [apply Nat.ltb_lt; reflexivity|by exists (2 ^ 59)|lia|done].
  - constructor; simpl; [by rewrite length_insert|done|apply u64_range|lia].
Qed.

Lemma lsr_idle (ready : nat) (rx : list Z) :
  (Z.land (Z.lor (if (0 <? ready)%nat then LSR_TX_IDLE else 0) (if bool_decide (rx = []) then 0 else LSR_RX_READY))
     LSR_TX_IDLE =? 0) = (ready =? 0)%nat.
Proof. destruct ready; destruct (bool_decide _); reflexivity. Qed.

Lemma wp_read_idle (k : kernel) {A} (m1 m2 : K A) Q :
  wp (if (u_ready (dv_uart (k_dev k)) =? 0)%nat then m1 else m2) Q k ->
  wp (let* lsr := read_lsr in if Z.land lsr LSR_TX_IDLE =? 0 then m1 else m2) Q k.
Proof. intros H. unfold read_lsr, get_dev. wp_steps. by rewrite lsr_idle. Qed.

(** What [uartstart] sends. *)
Lemma wp_uartstart_loop fuel k me hs n Q :
  let u := dv_uart (k_dev k) in
  let m := Nat.min (u_ready u) (queued u) in
  core_at (k_core k) me hs n -> Z.of_nat (length hs + n) + 2 < 2 ^ 30 -> (forall i, LProc i ∉ hs) ->
  uart_ok u -> (queued u < fuel)%nat ->
  (forall c' u', core_at c' me hs n -> core_frame me (k_core k) c' -> c_sleep c' = c_sleep (k_core k) ->
     uart_ok u' -> pending u' = drop m (pending u) -> u_sent u' = u_sent u ++ (u8 <$> take m (pending u)) ->
     u_ready u' = (u_ready u - m)%nat -> u_rx u' = u_rx u -> u_ctl u' = u_ctl u ->
     Q tt (with_uart (with_core k c') (fun _ => u'))) ->
  wp (uartstart_loop fuel) Q k.
Proof.
  revert k Q. induction fuel as [|fuel IH]; intros k Q u m Hc Hn Hp Hu Hf HQ; [lia|].
  cbn [uartstart_loop]. unfold get_dev. wp_steps. fold u.
  assert (Hnone : m = 0%nat -> Q tt k).
  { intros E. rewrite E in HQ. specialize (HQ (k_core k) u Hc (core_frame_refl _ _) eq_refl Hu).
    rewrite drop_0, take_0, fmap_nil, app_nil_r, Nat.sub_0_r in HQ. specialize (HQ eq_refl eq_refl eq_refl eq_refl eq_refl).
    unfold u in HQ. destruct k as [? ? ? ? ? ? ? ? ? ? ? [? [] ? ? ? ? ? ? ?]]. exact HQ. }
  destruct (Z.eqb_spec (u_w u) (u_r u)) as [E|Hne].
  - wp_steps. apply Hnone. unfold m, queued. rewrite E, Z.sub_diag. change (Z.to_nat (u64 0)) with 0%nat. lia.
  - apply wp_read_idle. fold u. destruct (Nat.eqb_spec (u_ready u) 0) as [E0|E0].
    + wp_steps. apply Hnone. unfold m. rewrite E0. done.
    + destruct (pending_pop u Hu Hne) as (c & Hb & Hpd & Hu1 & Hq). rewrite Hb. unfold upd_uart at 1. wp_steps.
      eapply wp_wakeup; [exact Hc|lia|exact Hp|]. intros c1 H1 Hh1 Hsl1 Hnp1 Hip1 Hpr1. unfold write_thr, upd_uart. wp_steps.
      simpl in Hh1, Hsl1, Hnp1, Hip1, Hpr1.
      set (u1 := set_u_r (fun r => u64 (r + 1)) u) in *.
      set (u2 := set_u_ready pred (set_u_sent (fun l => l ++ [u8 c]) u1)).
      match goal with |- wp _ _ ?k2 => assert (Ek : dv_uart (k_dev k2) = u2) by reflexivity end.
      assert (Hu2 : uart_ok u2) by (destruct Hu1; by constructor).
      assert (Eq2 : queued u2 = queued u1) by done. assert (Ep2 : pending u2 = pending u1) by done.
      eapply IH; rewrite ?Ek; [exact H1|exact Hn|exact Hp|exact Hu2|rewrite Eq2; lia|].
      intros c' u' Hc' Hf' Hsl' Hu' Hpd' Hs' Hr' Hx' Hctl'. simpl in Hf'.
      apply (HQ c' u'); try done.
      * eapply core_frame_trans; [|exact Hf']. by eapply woken_frame.
      * simpl in Hsl'. by rewrite Hsl'.
      * rewrite Hpd', Hpd, Ep2, Eq2. unfold m. rewrite Hq. simpl. destruct (u_ready u); [done|]. done.
      * rewrite Hs', Hpd, Ep2, Eq2. unfold m. rewrite Hq. simpl. destruct (u_ready u); [done|]. simpl.
        by rewrite <- app_assoc.
      * rewrite Hr', Eq2. unfold m. rewrite Hq. simpl. lia.
Qed.

Lemma wp_uartstart k me hs n Q :
  let u := dv_uart (k_dev k) in
  let m := Nat.min (u_ready u) (queued u) in
  core_at (k_core k) me hs n -> Z.of_nat (length hs + n) + 2 < 2 ^ 30 -> (forall i, LProc i ∉ hs) -> uart_ok u ->
  (forall c' u', core_at c' me hs n -> core_frame me (k_core k) c' -> c_sleep c' = c_sleep (k_core k) ->
     uart_ok u' -> pending u' = drop m (pending u) -> u_sent u' = u_sent u ++ (u8 <$> take m (pending u)) ->
     u_ready u' = (u_ready u - m)%nat -> u_rx u' = u_rx u -> u_ctl u' = u_ctl u ->
     Q tt (with_uart (with_core k c') (fun _ => u'))) ->
  wp uartstart Q k.
Proof.
  intros u m Hc Hn Hp Hu HQ. eapply wp_uartstart_loop; try done. destruct Hu. fold u. lia.
Qed.

(** One character sent at once. *)
Lemma wp_uartputc_sync k me hs n c Q :
  core_at (k_core k) me hs n -> Z.of_nat (length hs + n) + 1 < 2 ^ 30 -> dv_panicked (k_dev k) = 0 ->
  (0 < u_ready (dv_uart (k_dev k)))%nat ->
  (forall c', core_at c' me hs n -> same_but_locks (k_core k) c' ->
     Q tt (with_uart (with_core k c') (sent [u8 c]))) ->
  wp (uartputc_sync c) Q k.
Proof.
  intros Hc Hn Hp Hr HQ. unfold uartputc_sync. wp_steps.
  eapply wp_push_off; [exact Hc|exact Hn|]. intros c1 H1 S1 _. unfold get_dev at 1. wp_steps. cbn [k_dev set_k_core].
  rewrite Hp. cbn [truthy Z.eqb negb]. apply wp_read_idle. cbn [k_dev set_k_core].
  destruct (Nat.eqb_spec (u_ready (dv_uart (k_dev k))) 0); [lia|]. unfold write_thr, upd_uart. wp_steps.
  eapply wp_pop_off; [exact H1|]. intros c2 H2 S2 _. simpl in S2.
  specialize (HQ c2 H2 (same_but_locks_trans _ _ _ S1 S2)). unfold sent in HQ.
  assert (E : forall u, set_u_ready pred u = set_u_ready (fun n => (n - 1)%nat) u)
    by (intros []; unfold set_u_ready; simpl; f_equal; lia).
  match goal with H : Q tt ?a |- Q tt ?b => replace b with a; [exact H|] end.
  unfold set_k_dev, set_dv_uart. simpl. by rewrite E.
Qed.

(** ** Properties *)

Definition chars_of (k : kernel) : list Z := u_sent (dv_uart (k_dev k)) ++ (u8 <$> pending (dv_uart (k_dev k))).

(** [uartputc] neither loses nor reorders characters.  With room in the ring it
    returns, and what has been sent followed by what is in the ring is that list with
    the new character at its end; as many characters have gone to the device as it was
    ready for.  With the ring full the caller sleeps, to be woken when [uartstart] takes
    a character out. *)
Theorem uartputc_fifo k me pr c :
  let u := dv_uart (k_dev k) in
  core_ok (k_core k) me [] -> c_procs (k_core k) !! me = Some pr -> dv_panicked (k_dev k) = 0 -> uart_ok u ->
  if decide (queued u = Z.to_nat UART_TX_BUF_SIZE)
  then exists c', uartputc c k = Wait (Sleeping ChanUart) (with_core k c') /\ core_ok c' me [LProc me] /\
         c_procs c' !! me = Some (set_p_state (fun _ => SLEEPING) (set_p_chan (fun _ => ChanUart) pr))
  else wp (uartputc c) (fun _ k' =>
         let u' := dv_uart (k_dev k') in
         core_ok (k_core k') me [] /\ core_frame me (k_core k) (k_core k') /\ uart_ok u' /\
         chars_of k' = chars_of k ++ [u8 c] /\
         length (u_sent u') = (length (u_sent u) + Nat.min (u_ready u) (S (queued u)))%nat) k.
Proof.
  intros u Hc Hpr Hp Hu. pose proof Hu as [Hl Hr Hw Hq].
  assert (Hfull : u_w u = u64 (u_r u + UART_TX_BUF_SIZE) <-> queued u = Z.to_nat UART_TX_BUF_SIZE).
  { unfold queued, u64. assert (HS : UART_TX_BUF_SIZE = 32) by done. rewrite HS in *.
    pose proof (Z.mod_pos_bound (u_w u - u_r u) (2 ^ 64) eq_refl). split; intros E.
    - rewrite E, Zminus_mod_idemp_l. replace (u_r u + 32 - u_r u) with 32 by lia. done.
    - assert ((u_w u - u_r u) mod 2 ^ 64 = 32) as E1 by lia. rewrite <- E1, Zplus_mod_idemp_r.
      replace (u_r u + (u_w u - u_r u)) with (u_w u) by lia. by rewrite Z.mod_small. }
  destruct (decide _) as [Ef|Ef].
  - assert (H : waits (uartputc c) (Sleeping ChanUart) (fun k' => exists c', k' = with_core k c' /\
      core_ok c' me [LProc me] /\ c_procs c' =
        <[me := set_p_state (fun _ => SLEEPING) (set_p_chan (fun _ => ChanUart) pr)]> (c_procs (k_core k))) k).
    { unfold uartputc, get_dev. wp_steps. eapply wp_acquire; [exact Hc|simpl; lia|set_solver|]. intros c1 H1 S1.
      wp_steps. cbn [k_dev set_k_core]. rewrite Hp. cbn [truthy Z.eqb negb]. wp_steps. cbn [k_dev set_k_core]. fold u.
      rewrite (proj2 (Z.eqb_eq _ _)) by (by apply Hfull).
      eapply waits_sleep; [exact H1|done|simpl; by rewrite (sb_procs _ _ S1)|].
      intros c2 H2 _ _ E. exists c2. split; [done|]. split; [done|]. simpl in E. by rewrite E, (sb_procs _ _ S1). }
    unfold waits in H. destruct (uartputc c k) as [| |w k'| |]; try done.
    destruct H as (-> & c' & -> & H2 & E). exists c'. split_ands; try done.
    rewrite E. apply list_lookup_insert_eq. by eapply lookup_lt_Some.
  - unfold uartputc, get_dev. wp_steps. eapply wp_acquire; [exact Hc|simpl; lia|set_solver|]. intros c1 H1 S1.
    wp_steps. cbn [k_dev set_k_core]. rewrite Hp. cbn [truthy Z.eqb negb]. wp_steps. cbn [k_dev set_k_core]. fold u.
    rewrite (proj2 (Z.eqb_neq _ _)) by (by rewrite Hfull). unfold upd_uart. wp_steps.
    destruct (pending_push u (u8 c) Hu ltac:(lia)) as (P1 & P2 & P3).
    set (u1 := set_u_w _ _) in *. match goal with |- wp _ _ ?k2 => assert (Ek : dv_uart (k_dev k2) = u1) by reflexivity end.
    eapply wp_uartstart; rewrite ?Ek; [exact H1|simpl; lia|set_solver|exact P2|].
    intros c2 u2 H2 F2 _ U2 Q2 S2 R2 _ _. simpl in F2. wp_steps.
    eapply (wp_release _ me LUart [] 0); [exact H2|]. intros c3 H3 S3. simpl in S3.
    unfold chars_of. simpl. fold u. split_ands; [exact H3| |exact U2| |].
    + eapply core_frame_trans; [by apply same_core_frame|].
      eapply core_frame_trans; [exact F2|by apply same_core_frame].
    + rewrite S2, Q2, <- app_assoc, <- fmap_app, take_drop, P1, fmap_app, app_assoc. simpl.
      unfold u8. by rewrite Z.mod_mod.
    + rewrite S2, length_app, length_fmap, length_take. unfold pending. rewrite length_ring, P3.
      assert (u_ready u1 = u_ready u) as -> by done. assert (u_sent u1 = u_sent u) as -> by done. lia.
Qed.

Lemma uartputc_fifo_witness :
  exists k', uartputc 65 (first_kernel sample_disk (fun _ => 0) sample_image) = Ok tt k' /\ chars_of k' = [65].
Proof.
  assert (Hc : core_ok (held_core []) 0 []) by (apply held_core_ok; [apply NoDup_nil_2|done]).
  assert (Hu : uart_ok (dv_uart zero_devices)).
  { constructor; [reflexivity|simpl; lia|simpl; lia|vm_compute; lia]. }
  pose proof (uartputc_fifo (first_kernel sample_disk (fun _ => 0) sample_image) 0 first_proc 65
    Hc eq_refl eq_refl Hu) as H.
  cbv zeta in H. rewrite decide_False in H by discriminate.
  destruct (wp_ok _ _ _ H) as ([] & k' & E & _ & _ & _ & Hch & _).
  exists k'. split; [exact E|]. rewrite Hch. reflexivity.
Defined.
