(* ===== verification/Printf.v ===== *)
(** * Formatted output of the kernel (kernel/printf.c, and [procdump] of kernel/proc.c)

    The variable arguments are a list of values tagged with the conversion they are
    for; an argument that does not fit its conversion is a fault.  A call of [panic] in
    the kernel is the outcome [Panic]; [panic_out] is what it prints. *)

From S2P Require Import Prelude Ring State Spin Sleep Uart.

(** ** Definitions *)

(** The characters of a string literal. *)
Fixpoint chars (s : string) : list Z :=
  match s with
  | EmptyString => []
  | String c s => Z.of_N (Ascii.N_of_ascii c) :: chars s
  end.

Definition BACKSPACE : Z := 0x100.

Definition consputc (c : Z) : K unit :=
  if c =? BACKSPACE then
    uartputc_sync 8 ;* uartputc_sync 32 ;* uartputc_sync 8
  else
    uartputc_sync c.

Definition consputs (l : list Z) : K unit := for_each l consputc.

Definition digits : list Z := chars "0123456789abcdef".

(** The [do] loop of [printint], which fills [buf] from the least significant digit on;
    there is room for [fuel] more characters. *)
Fixpoint printint_loop (fuel : nat) (x base : Z) : option (list Z) :=
  match fuel with
  | O => None
  | S fuel =>
      match digits !! Z.to_nat (x mod base) with
      | None => None
      | Some d =>
          if x / base =? 0 then Some [d]
          else cons d <$> printint_loop fuel (x / base) base
      end
  end.

(** The characters [printint] prints; [None] when [buf] is too small. *)
Definition printint_chars (xx base : Z) (sign : bool) : option (list Z) :=
  let neg := sign && (xx <? 0) in
  let x := if neg then u32 (- xx) else u32 xx in
  match printint_loop 16 x base with
  | None => None
  | Some buf =>
      let buf := if neg then buf ++ [45] else buf in
      if (length buf <=? 16)%nat then Some (rev buf) else None
  end.

Definition printint (xx base : Z) (sign : bool) : K unit :=
  let* l := of_opt (printint_chars xx base sign) in consputs l.

Fixpoint printptr_loop (n : nat) (x : Z) : option (list Z) :=
  match n with
  | O => Some []
  | S n =>
      match digits !! Z.to_nat (Z.shiftr x 60) with
      | None => None
      | Some d => cons d <$> printptr_loop n (u64 (Z.shiftl x 4))
      end
  end.

Definition printptr (x : Z) : K unit :=
  consputc 48 ;*
  consputc 120 ;*
  let* l := of_opt (printptr_loop 16 x) in
  consputs l.

Inductive parg :=
| PInt (x : Z)
| PPtr (x : Z)
| PStr (s : option (list Z)).

Fixpoint printf_loop (fmt : list Z) (args : list parg) : K unit :=
  match fmt with
  | [] => M_ret tt
  | 37 :: [] => M_ret tt
  | 37 :: 100 :: fmt =>
      match args with
      | PInt x :: args => printint x 10 true ;* printf_loop fmt args
      | _ => fault
      end
  | 37 :: 120 :: fmt =>
      match args with
      | PInt x :: args => printint x 16 true ;* printf_loop fmt args
      | _ => fault
      end
  | 37 :: 112 :: fmt =>
      match args with
      | PPtr x :: args => printptr x ;* printf_loop fmt args
      | _ => fault
      end
  | 37 :: 115 :: fmt =>
      match args with
      | PStr s :: args => consputs (default (chars "(null)") s) ;* printf_loop fmt args
      | _ => fault
      end
  | 37 :: 37 :: fmt => consputc 37 ;* printf_loop fmt args
  | 37 :: c :: fmt => consputc 37 ;* consputc c ;* printf_loop fmt args
  | c :: fmt => consputc c ;* printf_loop fmt args
  end.

Definition printf (fmt : string) (args : list parg) : K unit :=
  let* locking := get_dev dv_locking in
  when (truthy locking) (acquire LPr) ;*
  printf_loop (chars fmt) args ;*
  when (truthy locking) (release LPr).

Definition newline : string := String (Ascii.ascii_of_nat 10) EmptyString.

Definition panic_out (s : string) : K unit :=
  modify (set_k_dev (set_dv_locking (fun _ => 0))) ;*
  printf "panic: " [] ;*
  printf s [] ;*
  printf newline [] ;*
  modify (set_k_dev (set_dv_panicked (fun _ => 1))) ;*
  wait_for Frozen.

Definition printfinit : K unit :=
  initlock LPr "pr" ;*
  modify (set_k_dev (set_dv_locking (fun _ => 1))).

(** The table [states] of [procdump]; it has no entry for [USED]. *)
Definition state_name (s : procstate) : list Z :=
  chars match s with
  | UNUSED => "unused"
  | USED => "???"
  | SLEEPING => "sleep "
  | RUNNABLE => "runble"
  | RUNNING => "run   "
  | ZOMBIE => "zombie"
  end.

(** The characters of an array up to the first nul. *)
Fixpoint cstr (l : list Z) : list Z :=
  match l with
  | [] => []
  | c :: l => if c =? 0 then [] else c :: cstr l
  end.

Definition procdump : K unit :=
  printf newline [] ;*
  for_each (seq 0 NPROC) (fun i =>
    let* p := get_proc i in
    if bool_decide (p_state p = UNUSED) then M_ret tt else
    printf "%d %s %s" [PInt (p_pid p); PStr (Some (state_name (p_state p))); PStr (Some (cstr (p_name p)))] ;*
    printf newline []).

(** ** Specification *)

(** The number that digits stand for, most significant first. *)
Definition value (base : Z) (ds : list Z) : Z := foldl (fun a d => a * base + d) 0 ds.

(** The characters of digits. *)
Definition digit_chars (ds : list Z) : list Z := (fun d => digits !!! Z.to_nat d) <$> ds.

(** [ds] is the numeral of [x]. *)
Record numeral (base x : Z) (ds : list Z) : Prop := mkNumeral {
  nu_digits : Forall (fun d => 0 <= d < base) ds;
  nu_value : value base ds = x;
  nu_short : ds = [0] \/ head ds <> Some 0 /\ ds <> []
}.

(** ** Lemmas *)

Lemma digits_lookup d : 0 <= d < 16 -> digits !! Z.to_nat d = Some (digits !!! Z.to_nat d).
Proof. intros H. apply list_lookup_lookup_total_lt. change (length digits) with 16%nat. lia. Qed.

(** The loop needs no more rounds than the number has digits. *)
Lemma printint_loop_spec fuel x base :
  2 <= base <= 16 -> 0 <= x < base ^ Z.of_nat fuel -> (0 < fuel)%nat ->
  exists ds, printint_loop fuel x base = Some (rev (digit_chars ds)) /\ numeral base x ds /\ (length ds <= fuel)%nat.
Proof.
  intros Hb. revert x. induction fuel as [|fuel IH]; intros x Hx Hf; [lia|]. cbn [printint_loop].
  pose proof (Z.mod_pos_bound x base ltac:(lia)) as Hm. pose proof (Z.div_mod x base ltac:(lia)) as Hd.
  rewrite digits_lookup by lia. assert (0 <= x / base) by (apply Z.div_pos; lia).
  destruct (Z.eqb_spec (x / base) 0) as [E|E].
  - exists [x mod base]. split; [done|]. split; [|simpl; lia]. constructor.
    + apply Forall_singleton. lia.
    + unfold value. simpl. lia.
    + destruct (decide (x mod base = 0)) as [->|]; [by left|right]. split; [simpl; congruence|done].
  - assert (Hlt : x / base < base ^ Z.of_nat fuel).
    { apply Z.div_lt_upper_bound; [lia|]. replace (Z.of_nat (S fuel)) with (Z.succ (Z.of_nat fuel)) in Hx by lia.
      rewrite Z.pow_succ_r in Hx by lia. lia. }
    assert (0 < fuel)%nat.
    { destruct fuel; [|lia]. simpl in Hlt. change (base ^ 0) with 1 in Hlt. lia. }
    destruct (IH (x / base) ltac:(lia) ltac:(lia)) as (ds & -> & [D1 D2 D3] & D4).
    exists (ds ++ [x mod base]). split; [|split; [constructor|rewrite length_app; simpl; lia]].
    + simpl. unfold digit_chars. rewrite fmap_app, rev_app_distr. done.
    + apply Forall_app. split; [done|]. apply Forall_singleton. lia.
    + unfold value in *. rewrite foldl_app, D2. simpl. lia.
    + right. destruct D3 as [-> |[D3 D3']].
      * exfalso. apply E. rewrite <- D2. done.
      * destruct ds; [done|]. by split.
Qed.

Lemma u32_neg x : - 2 ^ 31 <= x < 0 -> u32 (- x) = - x.
Proof. intros H. apply u32_small. lia. Qed.

(** The sign and the magnitude that are printed. *)
Definition negative (xx : Z) (sign : bool) : bool := sign && (xx <? 0).
Definition magnitude (xx : Z) (sign : bool) : Z := if negative xx sign then - xx else u32 xx.

Lemma printint_chars_spec xx base sign :
  - 2 ^ 31 <= xx < 2 ^ 31 -> base = 10 \/ base = 16 ->
  exists ds, printint_chars xx base sign =
      Some ((if negative xx sign then [45] else []) ++ digit_chars ds) /\
    numeral base (magnitude xx sign) ds /\ (length ds <= 10)%nat.
Proof.
  intros Hx Hb. unfold printint_chars. fold (negative xx sign). unfold magnitude.
  assert (Em : (if negative xx sign then u32 (- xx) else u32 xx) = (if negative xx sign then - xx else u32 xx)).
  { unfold negative. destruct sign; [|done]. cbn [andb]. destruct (Z.ltb_spec xx 0); [|done]. apply u32_neg. lia. }
  rewrite Em. set (x := if negative xx sign then - xx else u32 xx) in *.
  assert (Hr : 0 <= x < 2 ^ 32).
  { unfold x. destruct (negative xx sign) eqn:E; [|apply u32_range].
    unfold negative in E. apply andb_true_iff in E as [_ E%Z.ltb_lt]. lia. }
  assert (Hp : 2 ^ 32 <= base ^ Z.of_nat 10) by (destruct Hb as [-> | ->]; vm_compute; discriminate).
  assert (Hmono : forall f x' l, printint_loop f x' base = Some l -> printint_loop (6 + f) x' base = Some l).
  { induction f as [|f IH]; intros x' l; [done|]. change (6 + S f)%nat with (S (6 + f)). cbn [printint_loop].
    destruct (digits !! _); [|done]. destruct (x' / base =? 0); [done|].
    destruct (printint_loop f (x' / base) base) as [l'|] eqn:E; [|done]. by rewrite (IH _ _ E). }
  destruct (printint_loop_spec 10 x base) as (ds & E & Hn & Hl); [destruct Hb as [-> | ->]; lia|lia|lia|].
  apply Hmono in E. change (6 + 10)%nat with 16%nat in E. rewrite E. exists ds. split_ands; try done.
  destruct (negative xx sign).
  - rewrite length_app, length_rev. unfold digit_chars at 1. rewrite length_fmap. cbn [length].
    rewrite (proj2 (Nat.leb_le _ _)) by lia. by rewrite rev_app_distr, rev_involutive.
  - rewrite length_rev. unfold digit_chars at 1. rewrite length_fmap.
    rewrite (proj2 (Nat.leb_le _ _)) by lia. by rewrite rev_involutive.
Qed.

Lemma sent_app l1 l2 u : sent l2 (sent l1 u) = sent (l1 ++ l2) u.
Proof. destruct u. unfold sent, set_u_ready, set_u_sent. simpl. rewrite <- app_assoc. f_equal. len. Qed.

(** Characters printed one after the other. *)
Lemma wp_consputs k me hs n l Q :
  core_at (k_core k) me hs n -> Z.of_nat (length hs + n) + 1 < 2 ^ 30 -> dv_panicked (k_dev k) = 0 ->
  (length l <= u_ready (dv_uart (k_dev k)))%nat -> Forall (fun c => c <> BACKSPACE) l ->
  (forall c', core_at c' me hs n -> same_but_locks (k_core k) c' ->
     Q tt (with_uart (with_core k c') (sent (u8 <$> l)))) ->
  wp (consputs l) Q k.
Proof.
  unfold consputs. revert k Q. induction l as [|c l IH]; intros k Q Hc Hn Hp Hr Hl HQ.
  - cbn [for_each]. wp_steps. specialize (HQ (k_core k) Hc ltac:(done)).
    destruct k as [? ? ? ? ? ? ? ? ? ? ? [? [] ? ? ? ? ? ? ?]]. unfold sent in HQ. simpl in HQ.
    unfold set_u_sent, set_u_ready, set_dv_uart, set_k_dev in HQ. simpl in HQ.
    by rewrite app_nil_r, Nat.sub_0_r in HQ.
  - apply Forall_cons in Hl as [Hb Hl]. simpl in Hr. cbn [for_each]. unfold consputc at 1.
    rewrite (proj2 (Z.eqb_neq _ _)) by done. wp_steps.
    eapply wp_uartputc_sync; [exact Hc|exact Hn|exact Hp|lia|]. intros c1 H1 S1.
    apply IH; [exact H1|exact Hn|exact Hp|simpl; lia|exact Hl|].
    intros c2 H2 S2. simpl in S2. specialize (HQ c2 H2 (same_but_locks_trans _ _ _ S1 S2)).
    rewrite fmap_cons in HQ. change (u8 c :: (u8 <$> l)) with ([u8 c] ++ (u8 <$> l)) in HQ.
    match goal with H : Q tt ?a |- Q tt ?b => replace b with a; [exact H|] end.
    unfold set_k_dev, set_dv_uart. simpl. by rewrite sent_app.
Qed.

Lemma digit_chars_small ds : Forall (fun d => 0 <= d < 16) ds -> u8 <$> digit_chars ds = digit_chars ds /\
  Forall (fun c => c <> BACKSPACE) (digit_chars ds).
Proof.
  intros H. induction H as [|d ds Hd _ [IH1 IH2]]; [done|].
  assert (Hc : 0 <= digits !!! Z.to_nat d < 256).
  { assert (Hf : Forall (fun c => 0 <= c < 256) digits) by (repeat constructor; lia).
    rewrite Forall_lookup in Hf. apply (Hf (Z.to_nat d)). by apply digits_lookup. }
  split.
  - unfold digit_chars in *. rewrite !fmap_cons, IH1. f_equal. unfold u8. by apply Z.mod_small.
  - constructor; [unfold BACKSPACE; lia|exact IH2].
Qed.

(** ** Properties *)

(** [printint] prints the numeral of its argument in base 10 or 16, also that of the
    smallest [int]: a minus sign when the number is negative and signs are asked for,
    then digits without a leading zero that stand for the number; the sixteen characters
    of its buffer are always enough. *)
Theorem printint_correct k me hs xx base sign :
  core_ok (k_core k) me hs -> Z.of_nat (length hs) + 1 < 2 ^ 30 -> dv_panicked (k_dev k) = 0 ->
  (11 <= u_ready (dv_uart (k_dev k)))%nat -> - 2 ^ 31 <= xx < 2 ^ 31 -> base = 10 \/ base = 16 ->
  wp (printint xx base sign) (fun _ k' => core_ok (k_core k') me hs /\
    exists ds, numeral base (magnitude xx sign) ds /\
      u_sent (dv_uart (k_dev k')) =
        u_sent (dv_uart (k_dev k)) ++ (if negative xx sign then [45] else []) ++ digit_chars ds) k.
Proof.
  intros Hc Hn Hp Hr Hx Hb. destruct (printint_chars_spec xx base sign Hx Hb) as (ds & E & Hd & Hl).
  unfold printint. rewrite E. wp_steps.
  assert (Hds : Forall (fun d => 0 <= d < 16) ds).
  { eapply Forall_impl; [apply Hd|]. intros d. simpl. destruct Hb as [-> | ->]; lia. }
  destruct (digit_chars_small ds Hds) as [Eu Hbs].
  eapply (wp_consputs _ _ _ 0); [exact Hc|lia|exact Hp| | |].
  - rewrite length_app. unfold digit_chars. rewrite length_fmap. destruct (negative xx sign); simpl; lia.
  - apply Forall_app. split; [|exact Hbs]. destruct (negative xx sign); [|done].
    apply Forall_singleton. discriminate.
  - intros c' Hc' _. split; [exact Hc'|]. exists ds. split; [exact Hd|]. simpl. rewrite fmap_app, Eu.
    destruct (negative xx sign); done.
Qed.

(** A device that is ready. *)
Definition ready_uart (k : kernel) : kernel := with_uart k (set_u_ready (fun _ => 100%nat)).

Lemma printint_correct_witness :
  exists k', printint (-120) 10 true (ready_uart (first_kernel sample_disk (fun _ => 0) sample_image)) = Ok tt k' /\
    exists ds, numeral 10 120 ds /\ u_sent (dv_uart (k_dev k')) = 45 :: digit_chars ds.
Proof.
  assert (Hc : core_ok (held_core []) 0 []) by (apply held_core_ok; [apply NoDup_nil_2|done]).
  destruct (wp_ok _ _ _ (printint_correct (ready_uart (first_kernel sample_disk (fun _ => 0) sample_image)) 0 [] (-120) 10 true
    Hc eq_refl eq_refl ltac:(apply Nat.leb_le; reflexivity) ltac:(lia) (or_introl eq_refl)))
    as ([] & k' & E & _ & ds & Hd & Hs).
  exists k'. split; [exact E|]. exists ds. exact (conj Hd Hs).
Defined.
