(* ===== verification/Bio.v ===== *)
(** * The buffer cache (kernel/bio.c)

    [bcache] holds [NBUF] buffers on a circular doubly linked list in LRU order.
    The specification is an abstract block store: a finite map from the blocks
    in use to their contents, reference count and lock, over the disk.  Each
    operation of bio.c is shown to implement its abstract counterpart. *)

From S2P Require Import Prelude State Spin Sleep.

(** ** Definitions *)

(** *** The list through [prev] and [next] *)

Definition nextp (bc : bcache) (p : bptr) : option bptr :=
  match p with
  | Head => Some (bc_hnext bc)
  | Buf i => b_next <$> bc_bufs bc !! i
  end.

Definition prevp (bc : bcache) (p : bptr) : option bptr :=
  match p with
  | Head => Some (bc_hprev bc)
  | Buf i => b_prev <$> bc_bufs bc !! i
  end.

Definition setnext (p q : bptr) (bc : bcache) : bcache :=
  match p with
  | Head => set_bc_hnext (fun _ => q) bc
  | Buf i => set_bc_bufs (alter (set_b_next (fun _ => q)) i) bc
  end.

Definition setprev (p q : bptr) (bc : bcache) : bcache :=
  match p with
  | Head => set_bc_hprev (fun _ => q) bc
  | Buf i => set_bc_bufs (alter (set_b_prev (fun _ => q)) i) bc
  end.

Definition ld_next (p : bptr) : K bptr :=
  let* o := gets (fun k => nextp (k_bcache k) p) in of_opt o.

Definition ld_prev (p : bptr) : K bptr :=
  let* o := gets (fun k => prevp (k_bcache k) p) in of_opt o.

Definition st_next (p q : bptr) : K unit :=
  let* _ := ld_next p in modify (set_k_bcache (setnext p q)).

Definition st_prev (p q : bptr) : K unit :=
  let* _ := ld_prev p in modify (set_k_bcache (setprev p q)).

(** [b->next = head.next; b->prev = &head;] *)
Definition link_front1 (b : bptr) : K unit :=
  let* h := ld_next Head in
  st_next b h ;*
  st_prev b Head.

(** [head.next->prev = b; head.next = b;] *)
Definition link_front2 (b : bptr) : K unit :=
  let* h := ld_next Head in
  st_prev h b ;*
  st_next Head b.

(** [b->next->prev = b->prev; b->prev->next = b->next;] *)
Definition unlink_buf (b : bptr) : K unit :=
  let* n := ld_next b in
  let* p := ld_prev b in
  st_prev n p ;*
  let* p := ld_prev b in
  let* n := ld_next b in
  st_next p n.

Definition binit : K unit :=
  initlock LBcache "bcache" ;*
  st_prev Head Head ;*
  st_next Head Head ;*
  for_each (seq 0 NBUF) (fun i =>
    link_front1 (Buf i) ;*
    initsleeplock (SBuf i) "buffer" ;*
    link_front2 (Buf i)).

(** [for(b = p; b != &head; b = b->next) if(test) ...]; [None] when the list does
    not lead back to the head within [fuel] nodes or leaves the array. *)
Fixpoint scan_next (fuel : nat) (bc : bcache) (test : buf -> bool) (p : bptr) :
    option (option nat) :=
  match fuel, p with
  | O, _ => None
  | S _, Head => Some None
  | S f, Buf i =>
      match bc_bufs bc !! i with
      | None => None
      | Some b => if test b then Some (Some i) else scan_next f bc test (b_next b)
      end
  end.

Fixpoint scan_prev (fuel : nat) (bc : bcache) (test : buf -> bool) (p : bptr) :
    option (option nat) :=
  match fuel, p with
  | O, _ => None
  | S _, Head => Some None
  | S f, Buf i =>
      match bc_bufs bc !! i with
      | None => None
      | Some b => if test b then Some (Some i) else scan_prev f bc test (b_prev b)
      end
  end.

Definition bget (dev blockno : Z) : K nat :=
  acquire LBcache ;*
  let* bc := gets k_bcache in
  let* hit := of_opt (scan_next (S NBUF) bc
    (fun b => (b_dev b =? dev) && (b_blockno b =? blockno)) (bc_hnext bc)) in
  match hit with
  | Some i =>
      upd_buf i (set_b_refcnt (fun r => u32 (r + 1))) ;*
      release LBcache ;*
      acquiresleep (SBuf i) ;*
      M_ret i
  | None =>
      let* lru := of_opt (scan_prev (S NBUF) bc (fun b => b_refcnt b =? 0) (bc_hprev bc)) in
      match lru with
      | Some i =>
          upd_buf i (set_b_dev (fun _ => dev)) ;*
          upd_buf i (set_b_blockno (fun _ => blockno)) ;*
          upd_buf i (set_b_valid (fun _ => 0)) ;*
          upd_buf i (set_b_refcnt (fun _ => 1)) ;*
          release LBcache ;*
          acquiresleep (SBuf i) ;*
          M_ret i
      | None => panic "bget: no buffers"
      end
  end.

(** The transfer the disk driver performs for one buffer: what bio.c relies on
    [virtio_disk_rw] for. *)
Definition disk_rw (i : nat) (write : bool) : K unit :=
  let* b := get_buf i in
  if write
  then modify (set_k_disk (fun d =>
         mkDisk (fun x => if x =? b_blockno b then b_data b else d_blocks d x)
                (d_trace d ++ [(b_blockno b, b_data b)])))
  else let* d := gets k_disk in
       upd_buf i (set_b_data (fun _ => d_blocks d (b_blockno b))).

Definition bread (dev blockno : Z) : K nat :=
  let* i := bget dev blockno in
  let* b := get_buf i in
  when (b_valid b =? 0)
    (disk_rw i false ;*
     upd_buf i (set_b_valid (fun _ => 1))) ;*
  M_ret i.

Definition bwrite (i : nat) : K unit :=
  let* h := holdingsleep (SBuf i) in
  if negb h then panic "bwrite" else
  disk_rw i true.

Definition brelse (i : nat) : K unit :=
  let* h := holdingsleep (SBuf i) in
  if negb h then panic "brelse" else
  releasesleep (SBuf i) ;*
  acquire LBcache ;*
  upd_buf i (set_b_refcnt (fun r => u32 (r - 1))) ;*
  let* b := get_buf i in
  when (b_refcnt b =? 0)
    (unlink_buf (Buf i) ;*
     link_front1 (Buf i) ;*
     link_front2 (Buf i)) ;*
  release LBcache.

Definition bpin (i : nat) : K unit :=
  acquire LBcache ;*
  upd_buf i (set_b_refcnt (fun r => u32 (r + 1))) ;*
  release LBcache.

Definition bunpin (i : nat) : K unit :=
  acquire LBcache ;*
  upd_buf i (set_b_refcnt (fun r => u32 (r - 1))) ;*
  release LBcache.

(** [b->data], read and written by the holder of the buffer. *)

Definition bdata (i : nat) : K (list Z) :=
  let* b := get_buf i in M_ret (b_data b).

Definition set_bdata (i : nat) (d : list Z) : K unit :=
  upd_buf i (set_b_data (fun _ => d)).

Definition bblockno (i : nat) : K Z :=
  let* b := get_buf i in M_ret (b_blockno b).

(** ** The list of buffers *)

(** [chain nx pv p l q]: following [nx] from [p] leads through [l] to [q], and
    [pv] leads back. *)
Fixpoint chain (nx pv : bptr -> option bptr) (p : bptr) (l : list bptr) (q : bptr) : Prop :=
  match l with
  | [] => nx p = Some q /\ pv q = Some p
  | x :: l => nx p = Some x /\ pv x = Some p /\ chain nx pv x l q
  end.

(** The buffers from most to least recently used. *)
Definition lru (bc : bcache) (order : list nat) : Prop :=
  NoDup order /\ Forall (fun i => (i < length (bc_bufs bc))%nat) order /\
  chain (nextp bc) (prevp bc) Head (Buf <$> order) Head.

(** ** The abstract block store *)

(** A block in use: the buffer that holds it, its reference count, its lock
    ([Some pid] when held) and its contents. *)
Record ablock := mkABlock {
  a_idx : nat;
  a_refs : Z;
  a_lock : option Z;
  a_data : list Z
}.

Definition lock_rel (l : sleeplock) (o : option Z) : Prop :=
  match o with
  | None => sl_locked l = 0
  | Some pid => sl_locked l = 1 /\ sl_pid l = pid
  end.

(** A buffer agrees with the store [A] over the disk [d]: a referenced buffer is
    the entry of its block; an unreferenced one is unlocked and, when valid, holds
    what the disk holds. *)
Definition slot_ok (i : nat) (b : buf) (lk : sleeplock) (d : Z -> list Z)
    (A : gmap Z ablock) : Prop :=
  if decide (b_refcnt b = 0) then
    sl_locked lk = 0 /\
    (b_dev b = ROOTDEV /\ (b_valid b = 0 \/ b_valid b = 1 /\ b_data b = d (b_blockno b)) \/
     b_dev b = 0)
  else
    b_dev b = ROOTDEV /\ b_valid b = 1 /\ 0 < b_refcnt b < 2 ^ 32 /\
    exists o, lock_rel lk o /\
      A !! b_blockno b = Some (mkABlock i (b_refcnt b) o (b_data b)).

Record buf_rel (l : list buf) (sl : sleepid -> sleeplock) (d : Z -> list Z)
    (A : gmap Z ablock) : Prop := mkBufRel {
  br_len : length l = NBUF;
  br_slot : forall i b, l !! i = Some b -> slot_ok i b (sl (SBuf i)) d A;
  br_uniq : forall i j b b', l !! i = Some b -> l !! j = Some b' ->
    b_dev b = ROOTDEV -> b_dev b' = ROOTDEV -> b_blockno b = b_blockno b' -> i = j;
  br_abs : forall blk a, A !! blk = Some a ->
    exists b, l !! a_idx a = Some b /\ b_refcnt b <> 0 /\ b_blockno b = blk
}.

(** The cache implements the store [A]. *)
Definition bc_rel (bc : bcache) (sl : sleepid -> sleeplock) (d : Z -> list Z)
    (A : gmap Z ablock) : Prop :=
  (exists order, lru bc order /\ length order = NBUF) /\
  buf_rel (bc_bufs bc) sl d A.

(** Process [me], whose entry in the process table is [pr], runs in a kernel whose
    buffer cache implements [A], and holds the spinlocks [hs]. *)
Record bio_at (hs : list lockid) (k : kernel) (me : nat) (pr : proc) (A : gmap Z ablock) :
    Prop := mkBioOk {
  bo_core : core_ok (k_core k) me hs;
  bo_proc : c_procs (k_core k) !! me = Some pr;
  bo_rel : bc_rel (k_bcache k) (c_sleep (k_core k)) (d_blocks (k_disk k)) A
}.

Abbreviation bio_ok := (bio_at []).

(** What the operations of bio.c leave alone. *)
Record bio_frame (me : nat) (k k' : kernel) : Prop := mkBioFrame {
  bf_core : core_frame me (k_core k) (k_core k');
  bf_inodes : forall i, c_sleep (k_core k') (SInode i) = c_sleep (k_core k) (SInode i);
  bf_log : k_log k' = k_log k;
  bf_sb : k_sb k' = k_sb k;
  bf_itable : k_itable k' = k_itable k;
  bf_ftable : k_ftable k' = k_ftable k;
  bf_pipes : k_pipes k' = k_pipes k;
  bf_phys : k_phys k' = k_phys k;
  bf_ticks : k_ticks k' = k_ticks k;
  bf_img : k_img k' = k_img k
}.

(** ** Lemmas: the list *)

Lemma chain_app nx pv p l1 x l2 q :
  chain nx pv p (l1 ++ x :: l2) q <-> chain nx pv p l1 x /\ chain nx pv x l2 q.
Proof. revert p. induction l1 as [|y l1 IH]; intros p; simpl; [tauto|]. rewrite IH. tauto. Qed.

Lemma chain_ext nx pv nx' pv' p l q :
  (forall x, x ∈ p :: l -> nx' x = nx x) -> (forall x, x ∈ l ++ [q] -> pv' x = pv x) ->
  chain nx pv p l q -> chain nx' pv' p l q.
Proof.
  revert p. induction l as [|y l IH]; intros p Hn Hp; simpl.
  - rewrite Hn, Hp by left. done.
  - intros (? & ? & ?). rewrite Hn, Hp by left. split_ands; try done.
    apply IH; [| |done]; intros; [apply Hn|apply Hp]; by right.
Qed.

(** The last node before the end of a chain. *)
Fixpoint lastd {A} (x : A) (l : list A) : A :=
  match l with
  | [] => x
  | y :: l => lastd y l
  end.

(** The first and the last link of a chain. *)
Lemma chain_first nx pv p l q :
  chain nx pv p l q -> nx p = Some (hd q l) /\ pv (hd q l) = Some p.
Proof. destruct l; simpl; tauto. Qed.

Lemma chain_last nx pv p l q :
  chain nx pv p l q -> nx (lastd p l) = Some q /\ pv q = Some (lastd p l).
Proof.
  revert p. induction l as [|y l IH]; intros p; [simpl; tauto|].
  intros (_ & _ & H). by apply IH.
Qed.

Lemma nextp_setnext bc p q x :
  nextp (setnext p q bc) x = if decide (x = p) then (fun _ => q) <$> nextp bc p else nextp bc x.
Proof.
  destruct p as [|i], x as [|j]; try done; simpl.
  destruct (decide (Buf j = Buf i)) as [E|E].
  - injection E as ->. rewrite list_lookup_alter_eq. by destruct (_ !! i).
  - rewrite list_lookup_alter_ne by congruence. done.
Qed.

Lemma prevp_setprev bc p q x :
  prevp (setprev p q bc) x = if decide (x = p) then (fun _ => q) <$> prevp bc p else prevp bc x.
Proof.
  destruct p as [|i], x as [|j]; try done; simpl.
  destruct (decide (Buf j = Buf i)) as [E|E].
  - injection E as ->. rewrite list_lookup_alter_eq. by destruct (_ !! i).
  - rewrite list_lookup_alter_ne by congruence. done.
Qed.

Lemma nextp_setprev bc p q x : nextp (setprev p q bc) x = nextp bc x.
Proof.
  destruct p as [|i], x as [|j]; try done; simpl.
  destruct (decide (j = i)) as [->|].
  - rewrite list_lookup_alter_eq. by destruct (_ !! i).
  - by rewrite list_lookup_alter_ne.
Qed.

Lemma prevp_setnext bc p q x : prevp (setnext p q bc) x = prevp bc x.
Proof.
  destruct p as [|i], x as [|j]; try done; simpl.
  destruct (decide (j = i)) as [->|].
  - rewrite list_lookup_alter_eq. by destruct (_ !! i).
  - by rewrite list_lookup_alter_ne.
Qed.

(** The fields of a buffer other than its links. *)
Definition strip (b : buf) : buf := set_b_prev (fun _ => Head) (set_b_next (fun _ => Head) b).

Lemma strip_setnext p q bc : strip <$> bc_bufs (setnext p q bc) = strip <$> bc_bufs bc.
Proof.
  destruct p as [|i]; [done|]. simpl. apply list_eq. intros j.
  rewrite !list_lookup_fmap. destruct (decide (j = i)) as [->|].
  - rewrite list_lookup_alter_eq. by destruct (_ !! i).
  - by rewrite list_lookup_alter_ne.
Qed.

Lemma strip_setprev p q bc : strip <$> bc_bufs (setprev p q bc) = strip <$> bc_bufs bc.
Proof.
  destruct p as [|i]; [done|]. simpl. apply list_eq. intros j.
  rewrite !list_lookup_fmap. destruct (decide (j = i)) as [->|].
  - rewrite list_lookup_alter_eq. by destruct (_ !! i).
  - by rewrite list_lookup_alter_ne.
Qed.

Lemma lastd_elem {A} (x : A) l : lastd x l ∈ x :: l.
Proof. revert x. induction l as [|y l IH]; intros x; simpl; [left|right; apply IH]. Qed.

Lemma hd_elem {A} (x : A) l : hd x l ∈ l ++ [x].
Proof. destruct l; left. Qed.

(** Taking a node out of a chain. *)
Lemma chain_join nx pv nx' pv' P L1 x L2 Q :
  chain nx pv P L1 x -> chain nx pv x L2 Q ->
  NoDup (L1 ++ L2) -> P ∉ L1 ++ L2 -> Q ∉ L1 ++ L2 ->
  nx' (lastd P L1) = Some (hd Q L2) -> pv' (hd Q L2) = Some (lastd P L1) ->
  (forall z, z <> lastd P L1 -> z <> x -> nx' z = nx z) ->
  (forall z, z <> hd Q L2 -> z <> x -> pv' z = pv z) ->
  x ∉ P :: L1 ++ L2 ++ [Q] ->
  chain nx' pv' P (L1 ++ L2) Q.
Proof.
  intros H1 H2 Hnd HP HQ Hn Hp Hnx Hpv Hx.
  revert P H1 HP Hn Hp Hnx Hpv Hx. induction L1 as [|y L1 IH]; intros P H1 HP Hn Hp Hnx Hpv Hx.
  - simpl in *. destruct L2 as [|y L2]; simpl in *; [done|]. split_ands; try done.
    destruct H2 as (_ & _ & H2). eapply chain_ext; [| |exact H2]; intros z Hz.
    + apply Hnx; [intros ->; done|intros ->]. set_solver.
    + apply Hpv.
      * intros ->. apply elem_of_app in Hz as [Hz|Hz%list_elem_of_singleton].
        -- apply NoDup_cons in Hnd as [? _]. done.
        -- subst. apply HQ. left.
      * intros ->. set_solver.
  - simpl in *. destruct H1 as (Hny & Hpy & H1). apply NoDup_cons in Hnd as [Hyn Hnd].
    apply not_elem_of_cons in HP as [HPy HP]. apply not_elem_of_cons in HQ as [HQy HQ].
    apply not_elem_of_cons in Hx as [HxP Hx]. pose proof Hx as Hx'.
    apply not_elem_of_cons in Hx as [Hxy Hx].
    split_ands.
    + rewrite Hnx; [done| |congruence]. intros ->.
      pose proof (lastd_elem y L1) as Hin. apply elem_of_cons in Hin as [E|Hin].
      * by rewrite E in HPy.
      * apply HP, elem_of_app. by left.
    + rewrite Hpv; [done| |congruence]. intros ->.
      pose proof (hd_elem Q L2) as Hin. apply elem_of_app in Hin as [Hin|Hin%list_elem_of_singleton].
      * apply Hyn, elem_of_app. by right.
      * by rewrite Hin in HQy.
    + apply IH; auto.
Qed.

(** Entering a chain from another node. *)
Lemma chain_rehead nx pv nx' pv' P P' L Q :
  chain nx pv P L Q -> NoDup L -> Q ∉ L ->
  nx' P' = Some (hd Q L) -> pv' (hd Q L) = Some P' ->
  (forall z, z ∈ L -> nx' z = nx z) ->
  (forall z, z ∈ L ++ [Q] -> z <> hd Q L -> pv' z = pv z) ->
  chain nx' pv' P' L Q.
Proof.
  intros Hc Hnd HQ Hn Hp Hnx Hpv. destruct L as [|y L]; simpl in *; [done|].
  destruct Hc as (_ & _ & Hc). split_ands; try done.
  apply NoDup_cons in Hnd as [Hy _]. eapply chain_ext; [| |exact Hc]; intros z Hz; [auto|].
  apply Hpv; [by right|]. intros ->.
  apply elem_of_app in Hz as [?|?%list_elem_of_singleton]; [done|subst]. apply HQ. left.
Qed.

(** [b->next->prev = b->prev; b->prev->next = b->next;] *)
Definition unlink (b n p : bptr) (bc : bcache) : bcache := setnext p n (setprev n p bc).

(** [b->next = head.next; b->prev = &head; head.next->prev = b; head.next = b;] *)
Definition push_front (b : bptr) (bc : bcache) : bcache :=
  let h := bc_hnext bc in
  setnext Head b (setprev h b (setprev b Head (setnext b h bc))).

Lemma Buf_elem i (l : list nat) : Buf i ∈ Buf <$> l <-> i ∈ l.
Proof.
  rewrite list_elem_of_fmap. split.
  - intros (j & E & Hj). by injection E as ->.
  - eauto.
Qed.

Lemma Head_not_elem (l : list nat) : Head ∉ Buf <$> l.
Proof. rewrite list_elem_of_fmap. intros (j & E & _). done. Qed.

Lemma NoDup_Buf (l : list nat) : NoDup l -> NoDup (Buf <$> l).
Proof. apply NoDup_fmap_2. intros x y E. by injection E. Qed.

(** A node of the list has its links in the list. *)
Lemma lru_links bc l1 i l2 :
  lru bc (l1 ++ i :: l2) ->
  nextp bc (Buf i) = Some (hd Head (Buf <$> l2)) /\
  prevp bc (Buf i) = Some (lastd Head (Buf <$> l1)).
Proof.
  intros (_ & _ & H). rewrite fmap_app, fmap_cons in H. apply chain_app in H as [H1 H2].
  split; [apply (chain_first _ _ _ _ _ H2)|apply (chain_last _ _ _ _ _ H1)].
Qed.

Lemma length_bufs_setnext p q bc : length (bc_bufs (setnext p q bc)) = length (bc_bufs bc).
Proof. destruct p; [done|]. simpl. by rewrite length_alter. Qed.

Lemma length_bufs_setprev p q bc : length (bc_bufs (setprev p q bc)) = length (bc_bufs bc).
Proof. destruct p; [done|]. simpl. by rewrite length_alter. Qed.
#[export] Hint Rewrite length_bufs_setnext length_bufs_setprev : len.

Lemma lru_is_Some bc l x : lru bc l -> x ∈ Head :: (Buf <$> l) ->
  is_Some (nextp bc x) /\ is_Some (prevp bc x).
Proof.
  intros (_ & Hf & _) [->|Hx]%elem_of_cons; [split; eauto|].
  apply list_elem_of_fmap in Hx as (i & -> & Hi). rewrite Forall_forall in Hf.
  simpl. destruct (lookup_lt_is_Some_2 (bc_bufs bc) i (Hf i Hi)) as [b ->]. eauto.
Qed.

Lemma lru_neighbours bc l1 i l2 :
  lru bc (l1 ++ i :: l2) ->
  is_Some (nextp bc (lastd Head (Buf <$> l1))) /\ is_Some (prevp bc (hd Head (Buf <$> l2))).
Proof.
  intros Hl. split; eapply lru_is_Some; try exact Hl; rewrite fmap_app, ?fmap_cons.
  - pose proof (lastd_elem Head (Buf <$> l1)) as [->|H]%elem_of_cons; [left|right].
    apply elem_of_app. by left.
  - pose proof (hd_elem Head (Buf <$> l2)) as [H|E%list_elem_of_singleton]%elem_of_app.
    + right. apply elem_of_app. right. by right.
    + rewrite E. left.
Qed.

Lemma lru_unlink bc l1 i l2 :
  lru bc (l1 ++ i :: l2) ->
  lru (unlink (Buf i) (hd Head (Buf <$> l2)) (lastd Head (Buf <$> l1)) bc) (l1 ++ l2).
Proof.
  intros Hl. pose proof Hl as (Hnd & Hf & Hc). unfold unlink.
  set (n := hd Head (Buf <$> l2)). set (p := lastd Head (Buf <$> l1)).
  assert (Hnd' : NoDup (l1 ++ l2)).
  { apply NoDup_app in Hnd as (? & H & [? ?]%NoDup_cons). apply NoDup_app. split_ands; auto.
    intros x Hx ?. apply (H x Hx). by right. }
  assert (Hi : i ∉ l1 ++ l2).
  { apply NoDup_app in Hnd as (? & H & [? ?]%NoDup_cons). rewrite elem_of_app.
    intros [Hx|Hx]; [|done]. apply (H i Hx). left. }
  assert (Hn : is_Some (nextp bc p) /\ is_Some (prevp bc n)).
  { by apply (lru_neighbours _ _ i). }
  split; [done|]. split.
  { rewrite length_bufs_setnext, length_bufs_setprev.
    rewrite Forall_app, Forall_cons in Hf. rewrite Forall_app. tauto. }
  rewrite fmap_app, fmap_cons in Hc. apply chain_app in Hc as [H1 H2].
  rewrite fmap_app. eapply chain_join; [exact H1|exact H2|..].
  - rewrite <- fmap_app. by apply NoDup_Buf.
  - rewrite <- fmap_app. apply Head_not_elem.
  - rewrite <- fmap_app. apply Head_not_elem.
  - fold n p. rewrite nextp_setnext, decide_True by done. rewrite nextp_setprev.
    destruct Hn as [[? ->] _]. done.
  - fold n p. rewrite prevp_setnext, prevp_setprev, decide_True by done.
    destruct Hn as [_ [? ->]]. done.
  - fold n p. intros z Hz _. by rewrite nextp_setnext, decide_False, nextp_setprev.
  - fold n p. intros z Hz _. by rewrite prevp_setnext, prevp_setprev, decide_False.
  - rewrite app_assoc, <- fmap_app. intros [?|[?%Buf_elem|?%list_elem_of_singleton]%elem_of_app]%elem_of_cons; done.
Qed.

Lemma lru_push_front bc i l :
  lru bc l -> i ∉ l -> (i < length (bc_bufs bc))%nat -> lru (push_front (Buf i) bc) (i :: l).
Proof.
  intros Hl Hi Hlt. pose proof Hl as (Hnd & Hf & Hc). unfold push_front.
  set (h := bc_hnext bc).
  assert (Hh : h = hd Head (Buf <$> l)).
  { apply chain_first in Hc as [E _]. simpl in E. by injection E. }
  assert (Hbi : is_Some (bc_bufs bc !! i)) by (by apply lookup_lt_is_Some).
  assert (Hhi : h <> Buf i).
  { rewrite Hh. destruct l as [|j l]; simpl; [done|]. intros E. injection E as ->.
    apply Hi. left. }
  assert (Hhs : is_Some (prevp bc h)).
  { eapply lru_is_Some; [exact Hl|]. rewrite Hh. destruct l; simpl; [left|right; left]. }
  split; [by constructor|]. split.
  { autorewrite with len. by constructor. }
  rewrite fmap_cons. change (chain ?nx ?pv Head (Buf i :: ?L) Head)
    with (nx Head = Some (Buf i) /\ pv (Buf i) = Some Head /\ chain nx pv (Buf i) L Head).
  split_ands.
  - by rewrite nextp_setnext, decide_True.
  - rewrite prevp_setnext, prevp_setprev, decide_False by congruence.
    rewrite prevp_setprev, decide_True, prevp_setnext by done. simpl.
    by destruct Hbi as [? ->].
  - eapply chain_rehead; [exact Hc|by apply NoDup_Buf|apply Head_not_elem|..].
    + rewrite nextp_setnext, decide_False, !nextp_setprev, nextp_setnext by done.
      rewrite decide_True, <- Hh by done. simpl. by destruct Hbi as [? ->].
    + rewrite <- Hh, prevp_setnext, prevp_setprev, decide_True by done.
      rewrite prevp_setprev, decide_False, prevp_setnext by done. by destruct Hhs as [? ->].
    + intros z Hz. rewrite nextp_setnext, decide_False, !nextp_setprev, nextp_setnext, decide_False; [done| |].
      * intros ->. by apply Buf_elem in Hz.
      * intros ->. by apply Head_not_elem in Hz.
    + intros z Hz Hne. rewrite <- Hh in Hne.
      rewrite prevp_setnext, prevp_setprev, decide_False, prevp_setprev, decide_False, prevp_setnext;
        [done| |done].
      intros ->. apply elem_of_app in Hz as [?%Buf_elem|?%list_elem_of_singleton]; done.
Qed.

Lemma wp_ld_next p q Q k : nextp (k_bcache k) p = Some q -> Q q k -> wp (ld_next p) Q k.
Proof. intros H HQ. unfold ld_next. wp_steps. by apply (wp_of_opt _ q). Qed.

Lemma wp_ld_prev p q Q k : prevp (k_bcache k) p = Some q -> Q q k -> wp (ld_prev p) Q k.
Proof. intros H HQ. unfold ld_prev. wp_steps. by apply (wp_of_opt _ q). Qed.

Lemma wp_st_next p q Q k :
  is_Some (nextp (k_bcache k) p) -> Q tt (set_k_bcache (setnext p q) k) -> wp (st_next p q) Q k.
Proof. intros [x H] HQ. unfold st_next. wp_steps. eapply wp_ld_next; [exact H|]. by wp_steps. Qed.

Lemma wp_st_prev p q Q k :
  is_Some (prevp (k_bcache k) p) -> Q tt (set_k_bcache (setprev p q) k) -> wp (st_prev p q) Q k.
Proof. intros [x H] HQ. unfold st_prev. wp_steps. eapply wp_ld_prev; [exact H|]. by wp_steps. Qed.

Lemma wp_unlink_buf k l1 i l2 Q :
  lru (k_bcache k) (l1 ++ i :: l2) ->
  Q tt (set_k_bcache (unlink (Buf i) (hd Head (Buf <$> l2)) (lastd Head (Buf <$> l1))) k) ->
  wp (unlink_buf (Buf i)) Q k.
Proof.
  intros Hl HQ. destruct (lru_links _ _ _ _ Hl) as [Hn Hp].
  pose proof Hl as (Hnd & _ & _).
  assert (Hne : hd Head (Buf <$> l2) <> Buf i).
  { destruct l2 as [|j l2]; simpl; [done|]. intros E. injection E as ->.
    apply NoDup_app in Hnd as (_ & _ & [Hx _]%NoDup_cons). apply Hx. left. }
  assert (is_Some (nextp (k_bcache k) (lastd Head (Buf <$> l1))) /\
          is_Some (prevp (k_bcache k) (hd Head (Buf <$> l2)))) as [Hs1 Hs2].
  { by apply (lru_neighbours _ _ i). }
  unfold unlink_buf. wp_steps. eapply wp_ld_next; [exact Hn|]. wp_steps.
  eapply wp_ld_prev; [exact Hp|]. wp_steps. apply wp_st_prev; [exact Hs2|]. wp_steps.
  eapply wp_ld_prev.
  { cbn [set_k_bcache k_bcache]. rewrite prevp_setprev, decide_False by congruence. exact Hp. }
  wp_steps. eapply wp_ld_next; [cbn [set_k_bcache k_bcache]; rewrite nextp_setprev; exact Hn|]. cbn beta.
  apply wp_st_next; [cbn [set_k_bcache k_bcache]; by rewrite nextp_setprev|]. exact HQ.
Qed.

Lemma wp_link_front1 k i Q :
  (i < length (bc_bufs (k_bcache k)))%nat ->
  Q tt (set_k_bcache (fun bc => setprev (Buf i) Head (setnext (Buf i) (bc_hnext bc) bc)) k) ->
  wp (link_front1 (Buf i)) Q k.
Proof.
  intros Hi HQ. unfold link_front1. wp_steps. eapply wp_ld_next; [done|]. wp_steps.
  destruct (lookup_lt_is_Some_2 _ _ Hi) as [b Hb].
  apply wp_st_next; [simpl; rewrite Hb; eauto|]. cbn beta.
  apply wp_st_prev; [|exact HQ]. simpl. rewrite list_lookup_alter_eq, Hb. eauto.
Qed.

Lemma wp_link_front2 k i Q :
  is_Some (prevp (k_bcache k) (bc_hnext (k_bcache k))) ->
  Q tt (set_k_bcache (fun bc => setnext Head (Buf i) (setprev (bc_hnext bc) (Buf i) bc)) k) ->
  wp (link_front2 (Buf i)) Q k.
Proof.
  intros Hi HQ. unfold link_front2. wp_steps. eapply wp_ld_next; [done|]. wp_steps.
  apply wp_st_prev; [exact Hi|]. cbn beta. apply wp_st_next; [simpl; eauto|]. exact HQ.
Qed.

(** [brelse]'s last step moves an unreferenced buffer to the front. *)
Lemma wp_move_front k l1 i l2 Q :
  lru (k_bcache k) (l1 ++ i :: l2) ->
  (forall bc', lru bc' (i :: l1 ++ l2) ->
     strip <$> bc_bufs bc' = strip <$> bc_bufs (k_bcache k) ->
     Q tt (set_k_bcache (fun _ => bc') k)) ->
  wp (unlink_buf (Buf i) ;* link_front1 (Buf i) ;* link_front2 (Buf i)) Q k.
Proof.
  intros Hl HQ. destruct k as [co bc dk lg sb it ft pi ph ti im dv]. simpl in *.
  wp_steps. eapply wp_unlink_buf; [exact Hl|]. wp_steps.
  pose proof (lru_unlink _ _ _ _ Hl) as Hu.
  pose proof Hl as (Hnd & Hf & _). rewrite Forall_app, Forall_cons in Hf.
  destruct Hf as (_ & Hi & _).
  set (bc1 := unlink _ _ _ bc) in *.
  assert (Hlen : length (bc_bufs bc1) = length (bc_bufs bc)).
  { unfold bc1, unlink. by autorewrite with len. }
  assert (Hin : i ∉ l1 ++ l2).
  { apply NoDup_app in Hnd as (? & H & [? ?]%NoDup_cons). rewrite elem_of_app.
    intros [Hx|Hx]; [|done]. apply (H i Hx). left. }
  apply wp_link_front1; [simpl; fold bc1; lia|]. cbn beta.
  apply wp_link_front2; unfold set_k_bcache; simpl; fold bc1.
  - change (is_Some (prevp (setprev (Buf i) Head (setnext (Buf i) (bc_hnext bc1) bc1)) (bc_hnext bc1))).
    rewrite prevp_setprev. destruct (decide _) as [E|E].
    + rewrite prevp_setnext. simpl.
      destruct (lookup_lt_is_Some_2 (bc_bufs bc1) i ltac:(lia)) as [b ->]. eauto.
    + rewrite prevp_setnext. destruct Hu as (? & ? & Hc). apply chain_first in Hc as [E1 E2].
      simpl in E1. injection E1 as ->. eauto.
  - apply (HQ (push_front (Buf i) bc1)).
    + apply lru_push_front; [exact Hu|exact Hin|lia].
    + unfold push_front, bc1, unlink.
      by rewrite strip_setnext, !strip_setprev, !strip_setnext, strip_setprev.
Qed.

(** *** Searching the list *)

Fixpoint find_in (bufs : list buf) (test : buf -> bool) (l : list nat) : option nat :=
  match l with
  | [] => None
  | i :: l =>
      match bufs !! i with
      | Some b => if test b then Some i else find_in bufs test l
      | None => find_in bufs test l
      end
  end.

Lemma find_in_Some bufs test l i :
  find_in bufs test l = Some i ->
  i ∈ l /\ exists b, bufs !! i = Some b /\ test b = true.
Proof.
  induction l as [|j l IH]; simpl; [done|]. intros H.
  destruct (bufs !! j) as [b|] eqn:E; [destruct (test b) eqn:Et|].
  - simplify_eq. split; [left|eauto].
  - apply IH in H as [? ?]. split; [by right|done].
  - apply IH in H as [? ?]. split; [by right|done].
Qed.

Lemma find_in_None bufs test l i b :
  find_in bufs test l = None -> i ∈ l -> bufs !! i = Some b -> test b = false.
Proof.
  induction l as [|j l IH]; simpl; intros H Hi Hb; [by apply not_elem_of_nil in Hi|].
  apply elem_of_cons in Hi as [->|Hi].
  - rewrite Hb in H. by destruct (test b).
  - destruct (bufs !! j) as [b'|]; [destruct (test b')|]; auto; done.
Qed.

Lemma scan_next_chain bc test p l fuel :
  chain (nextp bc) (prevp bc) p (Buf <$> l) Head ->
  Forall (fun i => (i < length (bc_bufs bc))%nat) l -> (length l < fuel)%nat ->
  exists q, nextp bc p = Some q /\ scan_next fuel bc test q = Some (find_in (bc_bufs bc) test l).
Proof.
  revert p fuel. induction l as [|i l IH]; intros p fuel Hc Hf Hlen; simpl in *.
  - destruct Hc as [Hn _]. exists Head. split; [done|]. destruct fuel; [lia|done].
  - destruct Hc as (Hn & _ & Hc). exists (Buf i). split; [done|].
    destruct fuel as [|fuel]; [lia|]. inversion Hf as [|? ? Hi Hf']; subst.
    destruct (IH (Buf i) fuel Hc Hf' ltac:(lia)) as (q & Hq & Hs). simpl in Hq |- *.
    destruct (bc_bufs bc !! i) as [b|] eqn:Eb; [|done]. simpl in Hq. simplify_eq.
    by destruct (test b).
Qed.

Lemma scan_prev_chain bc test q l fuel :
  chain (nextp bc) (prevp bc) Head (Buf <$> l) q ->
  Forall (fun i => (i < length (bc_bufs bc))%nat) l -> (length l < fuel)%nat ->
  exists p, prevp bc q = Some p /\
    scan_prev fuel bc test p = Some (find_in (bc_bufs bc) test (reverse l)).
Proof.
  revert q fuel. induction l as [|i l IH] using rev_ind; intros q fuel Hc Hf Hlen.
  - destruct Hc as [_ Hp]. exists Head. split; [done|]. destruct fuel; [simpl in *; lia|done].
  - rewrite fmap_app in Hc. simpl in Hc. apply chain_app in Hc as [Hc1 [_ Hq]].
    exists (Buf i). split; [done|]. rewrite length_app in Hlen. simpl in Hlen.
    destruct fuel as [|fuel]; [lia|]. apply Forall_app in Hf as [Hf Hi].
    destruct (IH (Buf i) fuel Hc1 Hf ltac:(lia)) as (p & Hp & Hs).
    rewrite reverse_snoc. simpl in Hp |- *.
    destruct (bc_bufs bc !! i) as [b|] eqn:Eb; [|done]. simpl in Hp. simplify_eq.
    by destruct (test b).
Qed.

Lemma lru_scan_next bc test order :
  lru bc order -> length order = NBUF ->
  scan_next (S NBUF) bc test (bc_hnext bc) = Some (find_in (bc_bufs bc) test order).
Proof.
  intros (_ & Hf & Hc) Hl.
  destruct (scan_next_chain bc test _ _ (S NBUF) Hc Hf ltac:(lia)) as (q & Hq & Hs).
  simpl in Hq. by simplify_eq.
Qed.

Lemma lru_scan_prev bc test order :
  lru bc order -> length order = NBUF ->
  scan_prev (S NBUF) bc test (bc_hprev bc) = Some (find_in (bc_bufs bc) test (reverse order)).
Proof.
  intros (_ & Hf & Hc) Hl.
  destruct (scan_prev_chain bc test _ _ (S NBUF) Hc Hf ltac:(lia)) as (q & Hq & Hs).
  simpl in Hq. by simplify_eq.
Qed.

(** Changing a buffer without changing its links. *)
Lemma lru_insert bufs hp hn i b b' order :
  bufs !! i = Some b -> b_next b' = b_next b -> b_prev b' = b_prev b ->
  lru (mkBcache bufs hp hn) order -> lru (mkBcache (<[i := b']> bufs) hp hn) order.
Proof.
  intros Hb Hn Hp (Hnd & Hf & Hc). split; [done|]. split; [simpl; by rewrite length_insert|].
  assert (E : forall x, nextp (mkBcache (<[i := b']> bufs) hp hn) x = nextp (mkBcache bufs hp hn) x /\
                        prevp (mkBcache (<[i := b']> bufs) hp hn) x = prevp (mkBcache bufs hp hn) x).
  { intros [|j]; [done|]. simpl. destruct (decide (i = j)) as [->|].
    - rewrite list_lookup_insert_eq, Hb by (by eapply lookup_lt_Some). simpl. by rewrite Hn, Hp.
    - by rewrite list_lookup_insert_ne. }
  eapply chain_ext; [| |exact Hc]; intros; apply E.
Qed.

(** ** Lemmas: the store *)

Lemma slot_ok_strip i b b' lk d A :
  strip b = strip b' -> slot_ok i b lk d A -> slot_ok i b' lk d A.
Proof. destruct b, b'. unfold strip, slot_ok. simpl. intros E. by simplify_eq. Qed.

Lemma buf_rel_strip l l' sl d A :
  strip <$> l' = strip <$> l -> buf_rel l sl d A -> buf_rel l' sl d A.
Proof.
  intros E [Hl Hs Hu Ha].
  assert (Hback : forall i b', l' !! i = Some b' -> exists b, l !! i = Some b /\ strip b = strip b').
  { intros i b' Hb. apply (f_equal (.!! i)) in E. rewrite !list_lookup_fmap, Hb in E.
    destruct (l !! i) as [b|]; [|done]. exists b. split; [done|].
    change (Some (strip b') = Some (strip b)) in E. congruence. }
  constructor.
  - apply (f_equal length) in E. rewrite !length_fmap in E. lia.
  - intros i b' Hb. destruct (Hback i b' Hb) as (b & Hb' & Es).
    eapply slot_ok_strip; eauto.
  - intros i j b1' b2' H1 H2. destruct (Hback _ _ H1) as (b1 & Hb1 & E1).
    destruct (Hback _ _ H2) as (b2 & Hb2 & E2). specialize (Hu i j b1 b2 Hb1 Hb2).
    destruct b1, b1', b2, b2'. unfold strip in *. simpl in *. by simplify_eq.
  - intros blk a HA. destruct (Ha blk a HA) as (b & Hb & Hr & Hk).
    apply (f_equal (.!! a_idx a)) in E. rewrite !list_lookup_fmap, Hb in E.
    destruct (l' !! a_idx a) as [b'|]; [|done]. exists b'. split; [done|].
    destruct b, b'. unfold strip in E. simpl in *. by simplify_eq.
Qed.

(** Only the buffers' sleep locks matter. *)
Lemma buf_rel_sleep l sl sl' d A :
  (forall i, sl' (SBuf i) = sl (SBuf i)) -> buf_rel l sl d A -> buf_rel l sl' d A.
Proof. intros E [Hl Hs Hu Ha]. constructor; try done. intros i b Hb. rewrite E. auto. Qed.

(** The entry of a store that buffer [i], in state [b], accounts for. *)
Definition entry (i : nat) (b : buf) (o : option Z) : option ablock :=
  if decide (b_refcnt b = 0) then None else Some (mkABlock i (b_refcnt b) o (b_data b)).

Lemma buf_rel_upd l sl sl' d A A' i b b' o :
  buf_rel l sl d A -> l !! i = Some b ->
  (forall j, j <> i -> sl' (SBuf j) = sl (SBuf j)) ->
  lock_rel (sl' (SBuf i)) o ->
  b_dev b' = ROOTDEV -> 0 <= b_refcnt b' < 2 ^ 32 ->
  (if decide (b_refcnt b' = 0)
   then o = None /\ (b_valid b' = 0 \/ b_valid b' = 1 /\ b_data b' = d (b_blockno b'))
   else b_valid b' = 1) ->
  (b_dev b = ROOTDEV /\ b_blockno b' = b_blockno b \/
   b_refcnt b = 0 /\ forall j c, l !! j = Some c -> b_dev c = ROOTDEV ->
     b_blockno c <> b_blockno b') ->
  A' !! b_blockno b' = entry i b' o ->
  (forall x, x <> b_blockno b' -> A' !! x = A !! x) ->
  buf_rel (<[i := b']> l) sl' d A'.
Proof.
  intros [Hl Hs Hu Ha] Hb Hsl Hlk Hdev Hr Hst Hblk HA1 HA2.
  assert (Hlt : (i < length l)%nat) by (by eapply lookup_lt_Some).
  assert (Hother : forall j c, j <> i -> l !! j = Some c -> b_dev c = ROOTDEV ->
            b_blockno c <> b_blockno b').
  { intros j c Hj Hc Hd E. destruct Hblk as [[Hd' E']|[_ Hno]]; [|by eapply Hno].
    apply Hj. eapply Hu; eauto. congruence. }
  constructor.
  - by rewrite length_insert.
  - intros j c Hc. destruct (decide (j = i)) as [->|Hj].
    + rewrite list_lookup_insert_eq in Hc by done. simplify_eq. unfold slot_ok.
      unfold entry in HA1. destruct (decide (b_refcnt c = 0)) as [Ez|Ez].
      * destruct Hst as [-> Hst]. simpl in Hlk. eauto.
      * split_ands; eauto; lia.
    + rewrite list_lookup_insert_ne in Hc by done. specialize (Hs j c Hc). unfold slot_ok in *.
      destruct (decide (b_refcnt c = 0)) as [Ez|Ez].
      * rewrite Hsl by done. done.
      * destruct Hs as (Hd & Hv & Hrr & o' & Hlk' & HA'). split_ands; try done; try lia.
        exists o'. rewrite Hsl by done. split; [done|]. rewrite HA2; eauto.
  - intros j j' c c' Hc Hc' Hd Hd' Hk.
    destruct (decide (j = i)) as [->|Hj], (decide (j' = i)) as [->|Hj']; [done|..].
    + rewrite list_lookup_insert_eq in Hc by done. simplify_eq.
      rewrite list_lookup_insert_ne in Hc' by done. by destruct (Hother j' c').
    + rewrite list_lookup_insert_eq in Hc' by done. simplify_eq.
      rewrite list_lookup_insert_ne in Hc by done. by destruct (Hother j c).
    + rewrite list_lookup_insert_ne in Hc, Hc' by done. eapply Hu; eauto.
  - intros blk a HAa. destruct (decide (blk = b_blockno b')) as [->|Hne].
    + rewrite HA1 in HAa. unfold entry in HAa. destruct (decide _); simplify_eq/=.
      exists b'. by rewrite list_lookup_insert_eq.
    + rewrite HA2 in HAa by done. destruct (Ha blk a HAa) as (c & Hc & Hcr & Hck).
      exists c. rewrite list_lookup_insert_ne; [done|]. intros Ei.
      rewrite <- Ei, Hb in Hc. simplify_eq. destruct Hblk as [[_ E]|[E _]]; congruence.
Qed.

(** A referenced block is in the buffer its entry names. *)
Lemma buf_rel_lookup l sl d A blk a :
  buf_rel l sl d A -> A !! blk = Some a ->
  exists b, l !! a_idx a = Some b /\ b_blockno b = blk /\ b_dev b = ROOTDEV /\
    b_valid b = 1 /\ b_refcnt b = a_refs a /\ 0 < a_refs a < 2 ^ 32 /\
    b_data b = a_data a /\ lock_rel (sl (SBuf (a_idx a))) (a_lock a).
Proof.
  intros [Hl Hs Hu Ha] HA. destruct (Ha blk a HA) as (b & Hb & Hr & Hk). exists b.
  specialize (Hs _ _ Hb). unfold slot_ok in Hs. rewrite decide_False in Hs by done.
  destruct Hs as (? & ? & ? & o & Ho & HA'). subst blk. rewrite HA in HA'.
  injection HA' as ->. simpl in *. split_ands; auto; lia.
Qed.

(** The entry of the block that a referenced buffer holds. *)
Lemma buf_rel_entry l sl d A i b :
  buf_rel l sl d A -> l !! i = Some b -> b_refcnt b <> 0 ->
  exists o, lock_rel (sl (SBuf i)) o /\
    A !! b_blockno b = Some (mkABlock i (b_refcnt b) o (b_data b)).
Proof.
  intros H Hb Hr. pose proof (br_slot _ _ _ _ H i b Hb) as Hs. unfold slot_ok in Hs.
  rewrite decide_False in Hs by done. naive_solver.
Qed.

(** Two entries of the store are in different buffers. *)
Lemma buf_rel_inj l sl d A blk blk' a a' :
  buf_rel l sl d A -> A !! blk = Some a -> A !! blk' = Some a' -> a_idx a = a_idx a' ->
  blk = blk'.
Proof.
  intros H H1 H2 E. destruct (buf_rel_lookup _ _ _ _ _ _ H H1) as (b & Hb & <- & _).
  destruct (buf_rel_lookup _ _ _ _ _ _ H H2) as (b' & Hb' & <- & _). rewrite E in Hb. congruence.
Qed.

(** ** Lemmas: the operations *)

#[local] Arguments scan_next : simpl never.
#[local] Arguments scan_prev : simpl never.

Lemma bio_frame_refl me k : bio_frame me k k.
Proof. constructor; auto. Qed.

Lemma bio_frame_trans me k1 k2 k3 :
  bio_frame me k1 k2 -> bio_frame me k2 k3 -> bio_frame me k1 k3.
Proof.
  intros [] []. constructor; try congruence. eauto using core_frame_trans.
Qed.

Lemma wp_upd_buf_ins i b g Q k l :
  bc_bufs (k_bcache k) = l -> l !! i = Some b ->
  Q tt (set_k_bcache (set_bc_bufs (fun _ => <[i := g b]> l)) k) -> wp (upd_buf i g) Q k.
Proof.
  intros E Hb HQ. eapply wp_upd_buf; [by rewrite E|].
  destruct k as [co [bufs hp hn] dk lg sb it ft pi ph ti im dv]. simpl in E. subst bufs.
  unfold set_k_bcache, set_bc_bufs in *. simpl in *. by rewrite (alter_as_insert _ _ b).
Qed.

(** With fewer referenced blocks than buffers, some buffer is free. *)
Lemma buf_rel_free l sl d A :
  buf_rel l sl d A -> (size A < NBUF)%nat ->
  exists i b, l !! i = Some b /\ b_refcnt b = 0.
Proof.
  intros [Hl Hs Hu Ha] Hsz.
  destruct (decide (Exists (fun b => b_refcnt b = 0) l)) as [He|He].
  - apply Exists_exists in He as (b & (i & Hi)%list_elem_of_lookup & Hb). eauto.
  - exfalso. rewrite <- Forall_Exists_neg, Forall_lookup in He.
    assert (Hin : forall i b, l !! i = Some b -> b_dev b = ROOTDEV /\ is_Some (A !! b_blockno b)).
    { intros i b Hb. specialize (Hs i b Hb). unfold slot_ok in Hs.
      rewrite decide_False in Hs by (by eapply He).
      destruct Hs as (? & _ & _ & o & _ & ?). eauto. }
    assert (Hnd : NoDup (b_blockno <$> l)).
    { apply NoDup_alt. intros i j x Hi Hj.
      rewrite list_lookup_fmap in Hi, Hj.
      apply fmap_Some in Hi as (b & Hb & ->). apply fmap_Some in Hj as (b' & Hb' & E).
      eapply Hu; eauto; eapply Hin; eauto. }
    pose proof (NoDup_size _ (dom A) Hnd) as Hle.
    rewrite length_fmap, Hl, size_dom in Hle. enough (NBUF <= size A)%nat by lia.
    apply Hle. intros x (b & -> & (i & Hi)%list_elem_of_lookup)%list_elem_of_fmap.
    apply elem_of_dom. by eapply Hin.
Qed.

(** The contents and the reference count of a block, as the store has them. *)

Definition contents (A : gmap Z ablock) (d : Z -> list Z) (blk : Z) : list Z :=
  match A !! blk with Some a => a_data a | None => d blk end.

Definition refs (A : gmap Z ablock) (blk : Z) : Z :=
  match A !! blk with Some a => a_refs a | None => 0 end.

(** The block can be read: it is in use and unlocked, or there is room. *)
Definition readable (A : gmap Z ablock) (blk : Z) : Prop :=
  match A !! blk with
  | Some a => a_lock a = None /\ a_refs a + 1 < 2 ^ 32
  | None => (size A < NBUF)%nat
  end.

Lemma bio_ok_slot k me pr A i b :
  bio_ok k me pr A -> bc_bufs (k_bcache k) !! i = Some b ->
  slot_ok i b (c_sleep (k_core k) (SBuf i)) (d_blocks (k_disk k)) A.
Proof. intros [_ _ [_ H]]. apply (br_slot _ _ _ _ H). Qed.

(** [bget] when the block is cached. *)
Lemma wp_bget_hit k me pr A i b blk Q :
  bio_ok k me pr A ->
  bc_bufs (k_bcache k) !! i = Some b -> b_dev b = ROOTDEV -> b_blockno b = blk ->
  sl_locked (c_sleep (k_core k) (SBuf i)) = 0 ->
  (forall c', core_ok c' me [] -> core_frame me (k_core k) c' ->
     sleep_set (c_sleep (k_core k)) (c_sleep c') (SBuf i) 1 (p_pid pr) ->
     Q i (mkKernel c' (mkBcache (<[i := set_b_refcnt (fun _ => u32 (b_refcnt b + 1)) b]> (bc_bufs (k_bcache k)))
                         (bc_hprev (k_bcache k)) (bc_hnext (k_bcache k)))
            (k_disk k) (k_log k) (k_sb k) (k_itable k) (k_ftable k) (k_pipes k) (k_phys k)
            (k_ticks k) (k_img k) (k_dev k))) ->
  wp (bget ROOTDEV blk) Q k.
Proof.
  intros [Hc Hp [(order & Hl & Hlen) Hr]] Hb Hdev <- Hun HQ.
  destruct k as [co [bufs hp hn] dk lg sb it ft pi ph ti im dv]. simpl in *.
  unfold bget. wp_steps. eapply wp_acquire; [exact Hc|simpl; lia|set_solver|].
  intros c1 H1 Hs1. wp_steps. simpl. erewrite lru_scan_next by done. simpl.
  assert (Hf : find_in bufs (fun b0 => (b_dev b0 =? ROOTDEV) && (b_blockno b0 =? b_blockno b)) order
               = Some i).
  { destruct (find_in _ _ _) as [j|] eqn:E.
    - apply find_in_Some in E as (_ & c & Hj & Ht). bool_simpl. f_equal.
      eapply (br_uniq _ _ _ _ Hr); eauto.
    - eapply (find_in_None _ _ _ i b) in E; [|eapply NoDup_lt_all|done].
      + cbn beta in E. rewrite Hdev, !Z.eqb_refl in E. done.
      + apply Hl.
      + apply Hl.
      + simpl. by rewrite (br_len _ _ _ _ Hr).
      + simpl. by eapply lookup_lt_Some. }
  rewrite Hf. wp_steps. eapply wp_upd_buf_ins; [done|exact Hb|]. wp_steps.
  eapply (wp_release _ me LBcache [] 0); [exact H1|]. intros c2 H2 Hs2. wp_steps.
  pose proof (same_but_locks_trans _ _ _ Hs1 Hs2) as Hs12. simpl in Hs12.
  eapply (wp_acquiresleep _ me pr [] 0); [exact H2|simpl; lia|set_solver| | |].
  - simpl. by rewrite (sb_sleep _ _ Hs12).
  - simpl. by rewrite (sb_procs _ _ Hs12).
  - simpl. intros c3 H3 Hf3 Hsl. wp_steps. apply (HQ c3); [exact H3| |].
    + eapply core_frame_trans; [|exact Hf3]. by apply same_core_frame.
    + by rewrite (sb_sleep _ _ Hs12) in Hsl.
Qed.

(** [bget] when the block is not cached: it takes the least recently used
    unreferenced buffer. *)
Lemma wp_bget_miss k me pr A blk order Q :
  bio_ok k me pr A -> lru (k_bcache k) order -> length order = NBUF ->
  (forall i b, bc_bufs (k_bcache k) !! i = Some b -> b_dev b = ROOTDEV -> b_blockno b <> blk) ->
  (size A < NBUF)%nat ->
  (forall i b c', find_in (bc_bufs (k_bcache k)) (fun b => b_refcnt b =? 0) (reverse order) = Some i ->
     bc_bufs (k_bcache k) !! i = Some b -> b_refcnt b = 0 ->
     core_ok c' me [] -> core_frame me (k_core k) c' ->
     sleep_set (c_sleep (k_core k)) (c_sleep c') (SBuf i) 1 (p_pid pr) ->
     Q i (mkKernel c' (mkBcache (<[i := mkBuf 0 (b_disk b) ROOTDEV blk 1 (b_prev b) (b_next b) (b_data b)]>
                                   (bc_bufs (k_bcache k)))
                         (bc_hprev (k_bcache k)) (bc_hnext (k_bcache k)))
            (k_disk k) (k_log k) (k_sb k) (k_itable k) (k_ftable k) (k_pipes k) (k_phys k)
            (k_ticks k) (k_img k) (k_dev k))) ->
  wp (bget ROOTDEV blk) Q k.
Proof.
  intros Hok Hl Hlen Hmiss Hsz HQ. pose proof Hok as [Hc Hp [_ Hr]].
  destruct k as [co [bufs hp hn] dk lg sb it ft pi ph ti im dv]. simpl in *.
  unfold bget. wp_steps. eapply wp_acquire; [exact Hc|simpl; lia|set_solver|].
  intros c1 H1 Hs1. wp_steps. simpl. erewrite lru_scan_next by done. simpl.
  destruct (find_in bufs (fun b0 => (b_dev b0 =? ROOTDEV) && (b_blockno b0 =? blk)) order) as [j|] eqn:E.
  { apply find_in_Some in E as (_ & c & Hj & Ht). bool_simpl. by destruct (Hmiss j c). }
  wp_steps. erewrite lru_scan_prev by done. simpl. wp_steps.
  destruct (find_in bufs (fun b => b_refcnt b =? 0) (reverse order)) as [i|] eqn:Ei; last first.
  { exfalso. destruct (buf_rel_free _ _ _ _ Hr Hsz) as (i & b & Hi & Hz).
    eapply (find_in_None _ _ _ i b) in Ei; [|rewrite elem_of_reverse; eapply NoDup_lt_all|done].
    - cbn beta in Ei. by rewrite Hz in Ei.
    - apply Hl.
    - apply Hl.
    - simpl. by rewrite (br_len _ _ _ _ Hr).
    - simpl. by eapply lookup_lt_Some. }
  pose proof Ei as (_ & b & Hb & Hz)%find_in_Some. bool_simpl.
  assert (Hlt : (i < length bufs)%nat) by (by eapply lookup_lt_Some).
  wp_steps. eapply wp_upd_buf_ins; [done|exact Hb|]. wp_steps.
  do 3 (eapply wp_upd_buf_ins; [done|simpl; by rewrite list_lookup_insert_eq|];
        cbn [set_k_bcache set_bc_bufs k_bcache bc_bufs]; rewrite list_insert_insert_eq; wp_steps).
  eapply (wp_release _ me LBcache [] 0); [exact H1|]. intros c2 H2 Hs2. wp_steps.
  pose proof (same_but_locks_trans _ _ _ Hs1 Hs2) as Hs12. simpl in Hs12.
  pose proof (br_slot _ _ _ _ Hr i b Hb) as Hslot. unfold slot_ok in Hslot.
  rewrite decide_True in Hslot by done. destruct Hslot as [Hun _].
  eapply (wp_acquiresleep _ me pr [] 0); [exact H2|simpl; lia|set_solver| | |].
  - simpl. by rewrite (sb_sleep _ _ Hs12).
  - simpl. by rewrite (sb_procs _ _ Hs12).
  - simpl. intros c3 H3 Hf3 Hsl. wp_steps. apply (HQ i b c3); try done.
    + eapply core_frame_trans; [|exact Hf3]. by apply same_core_frame.
    + by rewrite (sb_sleep _ _ Hs12) in Hsl.
Qed.

Lemma frame_proc me c c' pr :
  core_frame me c c' -> c_procs c !! me = Some pr -> c_procs c' !! me = Some pr.
Proof. intros [_ _ _ E _]. by rewrite E. Qed.

(** The state after one buffer, and its lock, changed. *)
Abbreviation buf_kernel k c' i b' :=
  (mkKernel c' (mkBcache (<[i := b']> (bc_bufs (k_bcache k))) (bc_hprev (k_bcache k)) (bc_hnext (k_bcache k)))
     (k_disk k) (k_log k) (k_sb k) (k_itable k) (k_ftable k) (k_pipes k) (k_phys k)
     (k_ticks k) (k_img k) (k_dev k)).

Lemma sleep_set_lock t t' lk pid : sleep_set t t' lk 1 pid -> lock_rel (t' lk) (Some pid).
Proof. by intros (? & ? & _). Qed.

Lemma buf_kernel_frame me k c' i b' lk x y :
  core_frame me (k_core k) c' -> sleep_set (c_sleep (k_core k)) (c_sleep c') (SBuf lk) x y ->
  bio_frame me k (buf_kernel k c' i b').
Proof. intros Hf (_ & _ & Hs). constructor; try done. intros j. by apply Hs. Qed.

(** A buffer of block [blk] gets one more reference and its lock. *)
Lemma bread_close k me pr A blk i b b' c' :
  bio_ok k me pr A -> bc_bufs (k_bcache k) !! i = Some b ->
  core_ok c' me [] -> core_frame me (k_core k) c' ->
  sleep_set (c_sleep (k_core k)) (c_sleep c') (SBuf i) 1 (p_pid pr) ->
  b_next b' = b_next b -> b_prev b' = b_prev b ->
  b_dev b' = ROOTDEV -> b_blockno b' = blk -> b_valid b' = 1 -> 0 < b_refcnt b' < 2 ^ 32 ->
  (b_dev b = ROOTDEV /\ b_blockno b = blk \/
   b_refcnt b = 0 /\ forall j c, bc_bufs (k_bcache k) !! j = Some c -> b_dev c = ROOTDEV ->
     b_blockno c <> blk) ->
  bio_ok (buf_kernel k c' i b') me pr
    (<[blk := mkABlock i (b_refcnt b') (Some (p_pid pr)) (b_data b')]> A).
Proof.
  intros [Hc Hp [(order & Hl & Hlen) Hr]] Hb Hc' Hf Hsl Hn Hpv Hd Hk Hv Hrc Hblk.
  constructor; simpl; [done|by eapply frame_proc|]. split.
  - exists order. split; [|done]. destruct (k_bcache k). by eapply lru_insert.
  - eapply (buf_rel_upd _ _ _ _ _ _ _ _ _ (Some (p_pid pr))); [exact Hr|exact Hb|..].
    + intros j Hj. apply Hsl. congruence.
    + by eapply sleep_set_lock.
    + done.
    + lia.
    + by rewrite decide_False by lia.
    + destruct Hblk as [[? ?]|[? Hno]]; [left; split; congruence|right].
      split; [done|]. by rewrite Hk.
    + rewrite Hk, lookup_insert_eq. unfold entry. by rewrite decide_False by lia.
    + intros x Hx. rewrite lookup_insert_ne by congruence. done.
Qed.

Lemma cached_or_not (bufs : list buf) blk :
  (exists i b, bufs !! i = Some b /\ b_dev b = ROOTDEV /\ b_blockno b = blk) \/
  (forall i b, bufs !! i = Some b -> b_dev b = ROOTDEV -> b_blockno b <> blk).
Proof.
  destruct (decide (Exists (fun b => b_dev b = ROOTDEV /\ b_blockno b = blk) bufs)) as [H|H].
  - left. apply Exists_exists in H as (b & (i & Hi)%list_elem_of_lookup & Hb). eauto.
  - right. intros i b Hb Hd E. apply H, Exists_exists. exists b.
    split; [by eapply list_elem_of_lookup_2|done].
Qed.

(** Applies [bread_close] to the buffer the goal's cache holds. *)
Ltac close_buf k :=
  match goal with
  | |- bio_ok (mkKernel ?c' (mkBcache (<[?i := ?b']> _) _ _) _ _ _ _ _ _ _ _ _ _) _ _ _ =>
      eapply (bread_close k _ _ _ _ i _ b' c'); try done
  end.

(** [bread] returns a locked buffer with the contents of the block. *)
Lemma wp_bread k me pr A blk Q :
  bio_ok k me pr A -> readable A blk ->
  (forall k' i, bio_ok k' me pr
       (<[blk := mkABlock i (refs A blk + 1) (Some (p_pid pr)) (contents A (d_blocks (k_disk k)) blk)]> A) ->
     bio_frame me k k' -> k_disk k' = k_disk k ->
     (forall a, A !! blk = Some a -> i = a_idx a) -> Q i k') ->
  wp (bread ROOTDEV blk) Q k.
Proof.
  intros Hok Hrd HQ. pose proof Hok as [Hc Hp [(order & Hl & Hlen) Hr]].
  unfold bread. wp_steps. unfold readable, refs, contents in *.
  destruct (cached_or_not (bc_bufs (k_bcache k)) blk) as [(i & b & Hb & Hdev & Hk)|Hno].
  - assert (Hlt : (i < length (bc_bufs (k_bcache k)))%nat) by (by eapply lookup_lt_Some).
    pose proof (br_slot _ _ _ _ Hr i b Hb) as Hslot. unfold slot_ok in Hslot.
    destruct (decide (b_refcnt b = 0)) as [Hz|Hz].
    + (* cached and unreferenced *)
      assert (HA : A !! blk = None).
      { destruct (A !! blk) as [a|] eqn:E; [|done].
        destruct (buf_rel_lookup _ _ _ _ _ _ Hr E) as (c & Hc1 & Hc2 & Hc3 & _ & Hc4 & ? & _).
        assert (a_idx a = i) by (eapply (br_uniq _ _ _ _ Hr); eauto; congruence).
        subst i. rewrite Hb in Hc1. simplify_eq. lia. }
      rewrite HA in *. destruct Hslot as [Hun Hst]. destruct Hst as [[_ Hst]|Hst]; [|by rewrite Hst in Hdev].
      eapply wp_bget_hit; try done. intros c' Hc' Hf' Hsl. wp_steps. rewrite Hz.
      change (u32 (0 + 1)) with 1.
      eapply wp_get_buf; [simpl; by apply list_lookup_insert_eq|]. simpl.
      destruct Hst as [Hv|[Hv Hdata]].
      * rewrite Hv. simpl. wp_steps. unfold disk_rw. wp_steps.
        eapply wp_get_buf; [simpl; by apply list_lookup_insert_eq|]. wp_steps.
        do 2 (eapply wp_upd_buf_ins; [done|simpl; by rewrite list_lookup_insert_eq|];
          cbn [set_k_bcache set_bc_bufs k_bcache bc_bufs]; rewrite list_insert_insert_eq; wp_steps).
        unfold set_k_bcache, set_bc_bufs; simpl.
        apply HQ; [|by eapply buf_kernel_frame|done|done].
        rewrite <- Hk. close_buf k. by left.
      * rewrite Hv. simpl. wp_steps. rewrite Hk in Hdata.
        apply HQ; [|by eapply buf_kernel_frame|done|done]. rewrite <- Hdata.
        close_buf k. by left.
    + (* referenced *)
      destruct Hslot as (_ & Hv & Hrb & o & Ho & HA). rewrite Hk in HA. rewrite HA in *.
      simpl in Hrd, HQ. destruct Hrd as [-> Hb32]. simpl in Ho.
      eapply wp_bget_hit; try done. intros c' Hc' Hf' Hsl. wp_steps.
      eapply wp_get_buf; [simpl; by apply list_lookup_insert_eq|]. simpl. rewrite Hv. simpl.
      wp_steps. rewrite u32_small by lia.
      apply HQ; [|by eapply buf_kernel_frame|done|by intros ? [= <-]].
      close_buf k; simpl; [lia|by left].
  - (* not cached *)
    assert (HA : A !! blk = None).
    { destruct (A !! blk) as [a|] eqn:E; [|done].
      destruct (buf_rel_lookup _ _ _ _ _ _ Hr E) as (b & Hb & Hk & Hd & _).
      by destruct (Hno _ _ Hb Hd). }
    rewrite HA in *. eapply wp_bget_miss; [exact Hok|exact Hl|exact Hlen|exact Hno|exact Hrd|].
    intros i b c' _ Hb Hz Hc' Hf' Hsl. wp_steps.
    assert (Hlt : (i < length (bc_bufs (k_bcache k)))%nat) by (by eapply lookup_lt_Some).
    eapply wp_get_buf; [simpl; by apply list_lookup_insert_eq|]. simpl. wp_steps.
    unfold disk_rw. wp_steps. eapply wp_get_buf; [simpl; by apply list_lookup_insert_eq|].
    wp_steps.
    do 2 (eapply wp_upd_buf_ins; [done|simpl; by rewrite list_lookup_insert_eq|];
          cbn [set_k_bcache set_bc_bufs k_bcache bc_bufs]; rewrite list_insert_insert_eq; wp_steps).
    unfold set_k_bcache, set_bc_bufs; simpl.
        apply HQ; [|by eapply buf_kernel_frame|done|done].
    close_buf k. by right.
Qed.

(** A buffer in use changes its count, its lock or its contents. *)
Lemma bio_ok_used hs k me pr A blk a b b' c' o :
  bio_at hs k me pr A -> A !! blk = Some a -> bc_bufs (k_bcache k) !! a_idx a = Some b ->
  core_ok c' me hs -> core_frame me (k_core k) c' ->
  (forall j, j <> a_idx a -> c_sleep c' (SBuf j) = c_sleep (k_core k) (SBuf j)) ->
  lock_rel (c_sleep c' (SBuf (a_idx a))) o ->
  b_next b' = b_next b -> b_prev b' = b_prev b -> b_dev b' = b_dev b ->
  b_blockno b' = b_blockno b -> b_valid b' = b_valid b -> 0 <= b_refcnt b' < 2 ^ 32 ->
  (b_refcnt b' = 0 -> o = None /\ b_data b' = d_blocks (k_disk k) blk) ->
  bio_at hs (buf_kernel k c' (a_idx a) b') me pr
    (if decide (b_refcnt b' = 0) then delete blk A
     else <[blk := mkABlock (a_idx a) (b_refcnt b') o (b_data b')]> A).
Proof.
  intros [Hc Hp [(order & Hl & Hlen) Hr]] HA Hb Hc' Hf Hsl Hlk Hn Hpv Hd Hk Hv Hrc Hz.
  destruct (buf_rel_lookup _ _ _ _ _ _ Hr HA) as (b0 & Hb0 & Hk0 & Hd0 & Hv0 & _).
  rewrite Hb in Hb0. injection Hb0 as <-.
  constructor; simpl; [done|by eapply frame_proc|]. split.
  - exists order. split; [|done]. destruct (k_bcache k). by eapply lru_insert.
  - eapply (buf_rel_upd _ _ _ _ _ _ _ _ _ o); [exact Hr|exact Hb|..]; try done; try congruence.
    + destruct (decide _) as [E|E]; [|congruence]. destruct (Hz E) as [-> E'].
      split; [done|]. right. by rewrite Hv, Hk, Hk0.
    + left. split; congruence.
    + unfold entry. rewrite Hk, Hk0.
      destruct (decide _); [apply lookup_delete_eq|apply lookup_insert_eq].
    + rewrite Hk, Hk0. intros x Hx.
      destruct (decide _); [by rewrite lookup_delete_ne|by rewrite lookup_insert_ne].
Qed.

(** One reference less to a block. *)
Definition unref (A : gmap Z ablock) (blk : Z) (a : ablock) : gmap Z ablock :=
  if decide (a_refs a = 1) then delete blk A
  else <[blk := mkABlock (a_idx a) (a_refs a - 1) (a_lock a) (a_data a)]> A.

Definition unlocked (a : ablock) : ablock := mkABlock (a_idx a) (a_refs a) None (a_data a).

Lemma same_but_locks_frame me k c' bc :
  same_but_locks (k_core k) c' ->
  bio_frame me k (mkKernel c' bc (k_disk k) (k_log k) (k_sb k) (k_itable k) (k_ftable k)
                    (k_pipes k) (k_phys k) (k_ticks k) (k_img k) (k_dev k)).
Proof.
  intros H. constructor; try done; simpl; [by apply same_core_frame|].
  intros i. by rewrite (sb_sleep _ _ H).
Qed.

Lemma wp_refcnt hs k me pr A blk a f Q :
  bio_at hs k me pr A -> LBcache ∉ hs -> Z.of_nat (length hs) + 1 < 2 ^ 30 -> A !! blk = Some a -> 0 <= f (a_refs a) < 2 ^ 32 ->
  (f (a_refs a) = 0 -> a_lock a = None /\ a_data a = d_blocks (k_disk k) blk) ->
  (forall k', bio_at hs k' me pr
       (if decide (f (a_refs a) = 0) then delete blk A
        else <[blk := mkABlock (a_idx a) (f (a_refs a)) (a_lock a) (a_data a)]> A) ->
     bio_frame me k k' -> k_disk k' = k_disk k -> Q tt k') ->
  wp (acquire LBcache ;* upd_buf (a_idx a) (set_b_refcnt f) ;* release LBcache) Q k.
Proof.
  intros Hok Hnl Hls HA Hlt Hz HQ. pose proof Hok as [Hc Hp [_ Hr]].
  destruct (buf_rel_lookup _ _ _ _ _ _ Hr HA) as (b & Hb & Hk & Hd & Hv & Hrf & Hrr & Hdt & Hlk).
  wp_steps. eapply wp_acquire; [exact Hc|lia|exact Hnl|].
  intros c1 H1 Hs1. wp_steps. eapply wp_upd_buf_ins; [done|exact Hb|]. wp_steps.
  eapply (wp_release _ me LBcache hs 0); [exact H1|]. intros c2 H2 Hs2.
  pose proof (same_but_locks_trans _ _ _ Hs1 Hs2) as Hs. simpl in Hs.
  unfold with_core, set_k_bcache, set_bc_bufs; simpl.
  apply HQ; [|by eapply same_but_locks_frame|done].
  pose proof (sb_sleep _ _ Hs) as Esl. rewrite <- Hrf, <- Hdt in *.
  apply (bio_ok_used _ k me pr A blk a b (set_b_refcnt f b) c2 (a_lock a)); try done.
  - by apply same_core_frame.
  - intros j _. by rewrite Esl.
  - by rewrite Esl.
Qed.

Lemma wp_bpin hs k me pr A blk a Q :
  bio_at hs k me pr A -> LBcache ∉ hs -> Z.of_nat (length hs) + 1 < 2 ^ 30 -> A !! blk = Some a -> a_refs a + 1 < 2 ^ 32 ->
  (forall k', bio_at hs k' me pr (<[blk := mkABlock (a_idx a) (a_refs a + 1) (a_lock a) (a_data a)]> A) ->
     bio_frame me k k' -> k_disk k' = k_disk k -> Q tt k') ->
  wp (bpin (a_idx a)) Q k.
Proof.
  intros Hok Hnl Hls HA Hlt HQ. pose proof Hok as [_ _ [_ Hr]].
  destruct (buf_rel_lookup _ _ _ _ _ _ Hr HA) as (b & _ & _ & _ & _ & _ & Hrr & _).
  assert (E : u32 (a_refs a + 1) = a_refs a + 1) by (apply u32_small; lia).
  eapply wp_refcnt; [done|done|done|done|rewrite E; lia|rewrite E; lia|]. intros k'.
  rewrite E, decide_False by lia. apply HQ.
Qed.

Lemma wp_bunpin hs k me pr A blk a Q :
  bio_at hs k me pr A -> LBcache ∉ hs -> Z.of_nat (length hs) + 1 < 2 ^ 30 -> A !! blk = Some a ->
  (a_refs a = 1 -> a_lock a = None /\ a_data a = d_blocks (k_disk k) blk) ->
  (forall k', bio_at hs k' me pr (unref A blk a) ->
     bio_frame me k k' -> k_disk k' = k_disk k -> Q tt k') ->
  wp (bunpin (a_idx a)) Q k.
Proof.
  intros Hok Hnl Hls HA Hz HQ. pose proof Hok as [_ _ [_ Hr]].
  destruct (buf_rel_lookup _ _ _ _ _ _ Hr HA) as (b & _ & _ & _ & _ & _ & Hrr & _).
  assert (E : u32 (a_refs a - 1) = a_refs a - 1) by (apply u32_small; lia).
  eapply wp_refcnt; [done|done|done|done|rewrite E; lia|rewrite E|].
  { intros. apply Hz. lia. }
  intros k' Hk'. apply HQ. unfold unref. rewrite E in Hk'.
  destruct (decide (a_refs a = 1)), (decide (a_refs a - 1 = 0)); try lia; done.
Qed.

(** [bwrite] and the accesses to the contents, by the holder of the buffer. *)

Lemma wp_held_check k me pr A blk a Q :
  bio_ok k me pr A -> A !! blk = Some a -> a_lock a = Some (p_pid pr) ->
  (forall c', core_ok c' me [] -> same_but_locks (k_core k) c' -> Q true (with_core k c')) ->
  wp (holdingsleep (SBuf (a_idx a))) Q k.
Proof.
  intros [Hc Hp [_ Hr]] HA Hl HQ.
  destruct (buf_rel_lookup _ _ _ _ _ _ Hr HA) as (b & _ & _ & _ & _ & _ & _ & _ & Hlk).
  rewrite Hl in Hlk. destruct Hlk as [H1 H2].
  eapply wp_holdingsleep; [exact Hc|simpl; lia|set_solver|exact Hp|].
  rewrite H1, H2, Z.eqb_refl. simpl. apply HQ.
Qed.

Lemma wp_bwrite k me pr A blk a Q :
  bio_ok k me pr A -> A !! blk = Some a -> a_lock a = Some (p_pid pr) ->
  (forall k', bio_ok k' me pr A -> bio_frame me k k' ->
     k_disk k' = mkDisk (fun x => if x =? blk then a_data a else d_blocks (k_disk k) x)
                   (d_trace (k_disk k) ++ [(blk, a_data a)]) -> Q tt k') ->
  wp (bwrite (a_idx a)) Q k.
Proof.
  intros Hok HA Hl HQ. unfold bwrite. wp_steps. eapply wp_held_check; try done.
  intros c' Hc' Hs. simpl. unfold disk_rw. pose proof Hok as [Hc Hp [Hlru Hr]].
  destruct (buf_rel_lookup _ _ _ _ _ _ Hr HA) as (b & Hb & Hk & Hd & Hv & Hrf & Hrr & Hdt & Hlk).
  wp_steps. eapply wp_get_buf; [exact Hb|]. wp_steps. rewrite Hk, Hdt.
  unfold with_core, set_k_disk; simpl. apply HQ; [|by constructor; try done;
    [apply same_core_frame|simpl; intros; rewrite (sb_sleep _ _ Hs)]|done].
  constructor; simpl; [done|by rewrite (sb_procs _ _ Hs)|]. split; [done|]. simpl.
  rewrite (sb_sleep _ _ Hs). destruct Hr as [Hlen Hsl Hu Ha]. constructor; try done.
  intros j c Hj. specialize (Hsl j c Hj). unfold slot_ok in *.
  destruct (decide (b_refcnt c = 0)) as [Ez|]; [|done]. destruct Hsl as [Hun Hst].
  split; [done|]. destruct Hst as [[Hdj Hst]|]; [left|by right]. split; [done|].
  destruct (Z.eqb_spec (b_blockno c) blk) as [E|]; [|done]. exfalso.
  assert (j = a_idx a) as -> by (eapply Hu; eauto; congruence).
  rewrite Hb in Hj. simplify_eq. lia.
Qed.

Lemma wp_bdata hs k me pr A blk a Q :
  bio_at hs k me pr A -> A !! blk = Some a -> Q (a_data a) k -> wp (bdata (a_idx a)) Q k.
Proof.
  intros [_ _ [_ Hr]] HA HQ.
  destruct (buf_rel_lookup _ _ _ _ _ _ Hr HA) as (b & Hb & _ & _ & _ & _ & _ & Hdt & _).
  unfold bdata. wp_steps. eapply wp_get_buf; [exact Hb|]. wp_steps. by rewrite Hdt.
Qed.

Lemma wp_bblockno hs k me pr A blk a Q :
  bio_at hs k me pr A -> A !! blk = Some a -> Q blk k -> wp (bblockno (a_idx a)) Q k.
Proof.
  intros [_ _ [_ Hr]] HA HQ.
  destruct (buf_rel_lookup _ _ _ _ _ _ Hr HA) as (b & Hb & Hk & _).
  unfold bblockno. wp_steps. eapply wp_get_buf; [exact Hb|]. wp_steps. by rewrite Hk.
Qed.

Lemma wp_set_bdata k me pr A blk a dt Q :
  bio_ok k me pr A -> A !! blk = Some a ->
  (forall k', bio_ok k' me pr (<[blk := mkABlock (a_idx a) (a_refs a) (a_lock a) dt]> A) ->
     bio_frame me k k' -> k_disk k' = k_disk k -> Q tt k') ->
  wp (set_bdata (a_idx a) dt) Q k.
Proof.
  intros Hok HA HQ. pose proof Hok as [Hc Hp [_ Hr]].
  destruct (buf_rel_lookup _ _ _ _ _ _ Hr HA) as (b & Hb & Hk & Hd & Hv & Hrf & Hrr & Hdt & Hlk).
  unfold set_bdata. eapply wp_upd_buf_ins; [done|exact Hb|].
  pose proof (bio_ok_used [] k me pr A blk a b (set_b_data (fun _ => dt) b) (k_core k) (a_lock a)) as H.
  simpl in H. rewrite decide_False in H by lia. rewrite Hrf in H.
  destruct k as [co [bufs hp hn] dk lg sb it ft pi ph ti im dv].
  apply HQ; [|by constructor; try done; apply core_frame_refl|done].
  apply H; try done; try lia.
Qed.

Lemma same_but_locks_sym c c' : same_but_locks c c' -> same_but_locks c' c.
Proof. intros []. by constructor. Qed.

(** Moving a buffer to the front of the list does not change the store. *)
Lemma wp_when_front c k i A Q sl d :
  bc_rel (k_bcache k) sl d A -> (i < NBUF)%nat ->
  (forall bc', bc_rel bc' sl d A -> Q tt (set_k_bcache (fun _ => bc') k)) ->
  wp (when c (unlink_buf (Buf i) ;* link_front1 (Buf i) ;* link_front2 (Buf i))) Q k.
Proof.
  intros [(order & Hl & Hlen) Hr] Hi HQ. apply wp_when; intros _.
  - pose proof Hl as (Hnd & Hf & _).
    assert (Hin : i ∈ order).
    { eapply (NoDup_lt_all NBUF order); try done. by rewrite <- (br_len _ _ _ _ Hr). }
    apply list_elem_of_split in Hin as (l1 & l2 & ->).
    eapply wp_move_front; [exact Hl|]. intros bc' Hl' Hst. apply HQ. split.
    + exists (i :: l1 ++ l2). split; [done|].
      rewrite <- Hlen, !length_app. simpl. rewrite length_app. lia.
    + by eapply buf_rel_strip.
  - destruct k. apply HQ. split; eauto.
Qed.

(** [brelse] unlocks the block and drops a reference. *)
Lemma wp_brelse k me pr A blk a Q :
  bio_ok k me pr A -> A !! blk = Some a -> a_lock a = Some (p_pid pr) ->
  (a_refs a = 1 -> a_data a = d_blocks (k_disk k) blk) ->
  (forall k', bio_ok k' me pr (unref A blk (unlocked a)) -> bio_frame me k k' ->
     k_disk k' = k_disk k -> Q tt k') ->
  wp (brelse (a_idx a)) Q k.
Proof.
  intros Hok HA Hl Hlast HQ. unfold brelse. wp_steps. eapply wp_held_check; try done.
  intros c0 Hc0 Hs0. simpl. wp_steps. pose proof Hok as [Hc Hp [Hlru Hr]].
  destruct (buf_rel_lookup _ _ _ _ _ _ Hr HA) as (b & Hb & Hk & Hd & Hv & Hrf & Hrr & Hdt & Hlk).
  assert (Hlt : (a_idx a < length (bc_bufs (k_bcache k)))%nat) by (by eapply lookup_lt_Some).
  eapply (wp_releasesleep _ me [] 0); [exact Hc0|simpl; lia|set_solver|set_solver|].
  intros c1 Hc1 Hf1 Hsl1 _. simpl in Hf1, Hsl1. rewrite (sb_sleep _ _ Hs0) in Hsl1. wp_steps.
  eapply (wp_acquire _ me [] 0); [exact Hc1|simpl; lia|set_solver|]. intros c2 Hc2 Hs2. simpl in Hs2.
  wp_steps. eapply wp_upd_buf_ins; [done|exact Hb|]. wp_steps.
  eapply wp_get_buf; [simpl; by apply list_lookup_insert_eq|].
  assert (E : u32 (b_refcnt b - 1) = a_refs a - 1) by (rewrite Hrf; apply u32_small; lia).
  assert (Hf2 : core_frame me (k_core k) c2).
  { eapply core_frame_trans; [|by apply same_core_frame].
    eapply core_frame_trans; [|exact Hf1]. by apply same_core_frame. }
  assert (Hsl2 : sleep_set (c_sleep (k_core k)) (c_sleep c2) (SBuf (a_idx a)) 0 0)
    by (by rewrite (sb_sleep _ _ Hs2)).
  set (b' := set_b_refcnt (fun r => u32 (r - 1)) b).
  assert (Hok' : forall c, core_ok c me [] -> same_but_locks c2 c ->
            bio_ok (buf_kernel k c (a_idx a) b') me pr (unref A blk (unlocked a))).
  { intros c Hcc Hsc. unfold unref. simpl.
    pose proof (bio_ok_used [] k me pr A blk a b b' c None) as H.
    unfold b' in H. simpl in H. rewrite E, Hdt in H.
    replace (if decide (a_refs a = 1) then _ else _) with
      (if decide (a_refs a - 1 = 0) then delete blk A
       else <[blk := mkABlock (a_idx a) (a_refs a - 1) None (a_data a)]> A)
      by (destruct (decide (a_refs a = 1)), (decide (a_refs a - 1 = 0)); try lia; done).
    destruct Hsl2 as (H0 & _ & Hoth). apply H; try done; try lia.
    - eapply core_frame_trans; [exact Hf2|by apply same_core_frame].
    - intros j Hj. rewrite (sb_sleep _ _ Hsc). apply Hoth. congruence.
    - simpl. by rewrite (sb_sleep _ _ Hsc).
    - intros. split; [done|apply Hlast; lia]. }
  unfold set_k_bcache, set_bc_bufs. simpl. wp_steps.
  eapply (wp_when_front _ _ (a_idx a)).
  - exact (bo_rel _ _ _ _ _ (Hok' c1 Hc1 (same_but_locks_sym _ _ Hs2))).
  - by rewrite <- (br_len _ _ _ _ Hr).
  - intros bc' Hrel. wp_steps. eapply (wp_release _ me LBcache [] 0); [exact Hc2|].
    intros c3 Hc3 Hs3. simpl in Hs3. pose proof (Hok' c3 Hc3 Hs3) as [_ Hp3 _].
    apply HQ; [|constructor; try done; simpl|done].
    + constructor; [done|exact Hp3|]. simpl. rewrite (sb_sleep _ _ Hs3), (sb_sleep _ _ Hs2).
      exact Hrel.
    + eapply core_frame_trans; [exact Hf2|by apply same_core_frame].
    + intros i. rewrite (sb_sleep _ _ Hs3). by apply Hsl2.
Qed.

(** *** [binit] *)

Lemma lru_front_prev bc i l :
  lru bc l -> (i < length (bc_bufs bc))%nat ->
  is_Some (prevp (setprev (Buf i) Head (setnext (Buf i) (bc_hnext bc) bc)) (bc_hnext bc)).
Proof.
  intros (_ & _ & Hc) Hi. rewrite prevp_setprev. destruct (decide _) as [E|E]; rewrite prevp_setnext.
  - simpl. destruct (lookup_lt_is_Some_2 _ _ Hi) as [b ->]. eauto.
  - apply chain_first in Hc as [E1 E2]. simpl in E1. injection E1 as ->. eauto.
Qed.

Definition binit_inv (k0 : kernel) (n : nat) (k : kernel) : Prop :=
  lru (k_bcache k) (reverse (seq 0 n)) /\
  strip <$> bc_bufs (k_bcache k) = strip <$> bc_bufs (k_bcache k0) /\
  k_disk k = k_disk k0 /\
  (forall j, c_sleep (k_core k) (SBuf j) =
     if decide (j < n)%nat then mkSleep 0 "buffer" 0 else c_sleep (k_core k0) (SBuf j)).

Lemma wp_binit k Q :
  length (bc_bufs (k_bcache k)) = NBUF ->
  (forall k', binit_inv k NBUF k' -> Q tt k') -> wp binit Q k.
Proof.
  intros Hlen HQ. unfold binit, initlock, upd_spin. wp_steps.
  apply wp_st_prev; [simpl; eauto|]. wp_steps. apply wp_st_next; [simpl; eauto|]. wp_steps.
  eapply wp_mono; [apply (wp_for_each _ _ (binit_inv k))|].
  - refine (conj (conj _ (conj _ _)) (conj _ (conj _ _))); try done; constructor.
  - intros i x k1 [-> Hx]%lookup_seq (Hl & Hs & Hd & Hk). simpl.
    assert (Hlen1 : length (bc_bufs (k_bcache k1)) = NBUF).
    { rewrite <- Hlen, <- (length_fmap strip), Hs. apply length_fmap. }
    wp_steps. apply wp_link_front1; [lia|]. cbn beta.
    unfold initsleeplock, initlock, upd_spin, upd_sleep. wp_steps.
    apply wp_link_front2; [simpl; eapply lru_front_prev; [exact Hl|lia]|].
    refine (conj _ (conj _ (conj _ _))).
    + replace (reverse (seq 0 (S i))) with (i :: reverse (seq 0 i))
        by (by rewrite seq_S, reverse_snoc).
      apply (lru_push_front _ i _ Hl); [|lia].
      rewrite elem_of_reverse, elem_of_seq. lia.
    + change (strip <$> bc_bufs (push_front (Buf i) (k_bcache k1)) = strip <$> bc_bufs (k_bcache k)).
      unfold push_front. by rewrite strip_setnext, !strip_setprev, strip_setnext.
    + done.
    + intros j. cbn -[decide]. destruct (decide (j = i)) as [->|Hj].
      * by rewrite !decide_True by (done || lia).
      * rewrite (decide_False (P := SBuf j = _)), Hk by congruence.
        destruct (decide (j < i)%nat); [rewrite decide_True|rewrite decide_False]; (done || lia).
  - intros [] k'. rewrite length_seq. apply HQ.
Qed.

(** ** A kernel with a cache

    The states the examples start from. *)

(** The buffer [i] of the list that [binit] leaves. *)
Definition linked_buf (i : nat) : buf :=
  mkBuf 0 0 0 0 0 (if (S i =? NBUF)%nat then Head else Buf (S i))
    (match i with O => Head | S j => Buf j end) (replicate (Z.to_nat BSIZE) 0).

Definition linked_bcache : bcache :=
  mkBcache (linked_buf <$> seq 0 NBUF) (Buf 0) (Buf 29).

(** The kernel with the buffer cache ready, over the disk [d]. *)
Definition ready_kernel (d : Z -> list Z) (mem : Z -> Z) (img : image) : kernel :=
  set_k_bcache (fun _ => linked_bcache) (first_kernel d mem img).

(** The same with the blocks [l] in the first buffers, referenced once. *)
Definition cached_buf (l : list (Z * list Z)) (i : nat) : buf :=
  match l !! i with
  | Some w => mkBuf 1 0 ROOTDEV w.1 1 (b_prev (linked_buf i)) (b_next (linked_buf i)) w.2
  | None => linked_buf i
  end.

Definition cached_bcache (l : list (Z * list Z)) : bcache :=
  mkBcache (cached_buf l <$> seq 0 NBUF) (Buf 0) (Buf 29).

Definition cached_store (l : list (Z * list Z)) : gmap Z ablock :=
  list_to_map (imap (fun i w => (w.1, mkABlock i 1 None w.2)) l).

Definition cached_kernel (l : list (Z * list Z)) (d : Z -> list Z) (mem : Z -> Z) (img : image) :
    kernel :=
  set_k_bcache (fun _ => cached_bcache l) (first_kernel d mem img).

Lemma linked_lru (bufs : list buf) :
  length bufs = NBUF ->
  (forall i, (i < NBUF)%nat -> exists b, bufs !! i = Some b /\
     b_next b = b_next (linked_buf i) /\ b_prev b = b_prev (linked_buf i)) ->
  lru (mkBcache bufs (Buf 0) (Buf 29)) (reverse (seq 0 NBUF)).
Proof.
  intros Hl Hb. split; [|split].
  - rewrite reverse_Permutation. apply NoDup_seq.
  - apply Forall_forall. intros x. rewrite elem_of_reverse, elem_of_seq. simpl. rewrite Hl. lia.
  - assert (H0 : chain (nextp linked_bcache) (prevp linked_bcache) Head (Buf <$> reverse (seq 0 NBUF)) Head)
      by (simpl; tauto).
    assert (Hin : forall i, Buf i ∈ Buf <$> reverse (seq 0 NBUF) -> (i < NBUF)%nat).
    { intros i Hi%Buf_elem. rewrite elem_of_reverse, elem_of_seq in Hi. lia. }
    assert (Hlk : forall i, (i < NBUF)%nat -> bc_bufs linked_bcache !! i = Some (linked_buf i)).
    { intros i Hi. unfold linked_bcache. cbn [bc_bufs].
      by rewrite list_lookup_fmap, lookup_seq_lt. }
    eapply chain_ext; [| |exact H0].
    + intros [|i] [?|Hi]%elem_of_cons; try done. apply Hin in Hi.
      destruct (Hb i Hi) as (b & E & En & _). unfold nextp. cbn [bc_bufs].
      rewrite E, Hlk by done. exact (f_equal Some En).
    + intros [|i] [Hi|?%list_elem_of_singleton]%elem_of_app; try done. apply Hin in Hi.
      destruct (Hb i Hi) as (b & E & _ & Ep). unfold prevp. cbn [bc_bufs].
      rewrite E, Hlk by done. exact (f_equal Some Ep).
Qed.

Lemma cached_links l i :
  b_next (cached_buf l i) = b_next (linked_buf i) /\ b_prev (cached_buf l i) = b_prev (linked_buf i).
Proof. unfold cached_buf. by destruct (l !! i). Qed.

Lemma cached_lookup l i b :
  (cached_buf l <$> seq 0 NBUF) !! i = Some b -> b = cached_buf l i /\ (i < NBUF)%nat.
Proof. rewrite list_lookup_fmap. by intros (j & [-> ?]%lookup_seq & ->)%fmap_Some. Qed.

Lemma cached_lookup_lt l i :
  (i < NBUF)%nat -> (cached_buf l <$> seq 0 NBUF) !! i = Some (cached_buf l i).
Proof. intros. by rewrite list_lookup_fmap, lookup_seq_lt. Qed.

Lemma cached_store_Some l blk a :
  NoDup l.*1 -> cached_store l !! blk = Some a <->
  exists i dt, l !! i = Some (blk, dt) /\ a = mkABlock i 1 None dt.
Proof.
  intros Hnd. unfold cached_store.
  assert (E : (imap (fun i w => (w.1, mkABlock i 1 None w.2)) l).*1 = l.*1).
  { rewrite fmap_imap. apply list_eq. intros i. rewrite list_lookup_imap, list_lookup_fmap.
    by destruct (l !! i). }
  rewrite <- elem_of_list_to_map by (by rewrite E). rewrite list_elem_of_lookup. split.
  - intros (i & Hi). rewrite list_lookup_imap in Hi. apply fmap_Some in Hi as ([b dt] & Hb & Ei).
    injection Ei as -> ->. eauto.
  - intros (i & dt & Hi & ->). exists i. by rewrite list_lookup_imap, Hi.
Qed.

Lemma cached_ok l d mem img :
  NoDup l.*1 -> (length l <= NBUF)%nat -> bio_ok (cached_kernel l d mem img) 0 first_proc (cached_store l).
Proof.
  intros Hnd Hl. constructor; [apply (held_core_ok []); [constructor|done]|done|]. split.
  - exists (reverse (seq 0 NBUF)). split; [|done]. apply linked_lru; [done|].
    intros i Hi. exists (cached_buf l i). split; [by apply cached_lookup_lt|apply cached_links].
  - constructor; cbn [cached_kernel set_k_bcache k_bcache cached_bcache bc_bufs].
    + by rewrite length_fmap, length_seq.
    + intros i b [-> Hi]%cached_lookup. unfold slot_ok, cached_buf.
      destruct (l !! i) as [w|] eqn:E; [|simpl; tauto]. simpl. split_ands; try done.
      exists None. split; [done|]. apply cached_store_Some; [done|]. exists i, w.2.
      by destruct w.
    + intros i j b b' [-> _]%cached_lookup [-> _]%cached_lookup. unfold cached_buf.
      destruct (l !! i) as [w|] eqn:E, (l !! j) as [w'|] eqn:E'; try done. simpl.
      intros _ _ Ew. eapply (NoDup_lookup l.*1); [done|by rewrite list_lookup_fmap, E|].
      by rewrite list_lookup_fmap, E', Ew.
    + intros blk a Ha. apply cached_store_Some in Ha as (i & dt & Hi & ->); [|done].
      exists (cached_buf l i). cbn [a_idx]. rewrite cached_lookup_lt by (apply lookup_lt_Some in Hi; lia).
      unfold cached_buf. by rewrite Hi.
Qed.

Lemma ready_ok d mem img : bio_ok (ready_kernel d mem img) 0 first_proc ∅.
Proof.
  constructor; [apply (held_core_ok []); [constructor|done]|done|]. split.
  - exists (reverse (seq 0 NBUF)). split; [|done]. split; [|split].
    + rewrite reverse_Permutation. apply NoDup_seq.
    + apply Forall_forall. intros x. rewrite elem_of_reverse, elem_of_seq.
      change (0 <= x < 0 + NBUF -> x < NBUF)%nat. lia.
    + simpl. tauto.
  - constructor; try done.
    + intros i b. change ((linked_buf <$> seq 0 NBUF) !! i = Some b -> slot_ok i b zero_sleep d ∅).
      rewrite list_lookup_fmap. intros (j & Hj & ->)%fmap_Some. unfold slot_ok. simpl. tauto.
    + intros i j b b'. change ((linked_buf <$> seq 0 NBUF) !! i = Some b ->
        (linked_buf <$> seq 0 NBUF) !! j = Some b' -> b_dev b = ROOTDEV -> b_dev b' = ROOTDEV ->
        b_blockno b = b_blockno b' -> i = j).
      rewrite list_lookup_fmap. by intros (x & Hx & ->)%fmap_Some.
Qed.

(** ** Properties *)

(** [binit] on the zeroed memory of a booting kernel links all the buffers, the
    last one most recently used, unlocks them, and the cache then implements the
    empty store over the disk. *)
Theorem binit_establishes k :
  length (bc_bufs (k_bcache k)) = NBUF ->
  Forall (fun b => b_refcnt b = 0 /\ b_dev b = 0) (bc_bufs (k_bcache k)) ->
  wp binit (fun _ k' =>
    lru (k_bcache k') (reverse (seq 0 NBUF)) /\
    bc_rel (k_bcache k') (c_sleep (k_core k')) (d_blocks (k_disk k')) ∅ /\
    k_disk k' = k_disk k) k.
Proof.
  intros Hlen Hz. apply wp_binit; [done|]. intros k' (Hl & Hs & Hd & Hsl).
  split; [done|]. split; [|done]. split; [exists (reverse (seq 0 NBUF)); by rewrite length_reverse|].
  eapply buf_rel_strip; [exact Hs|]. rewrite Forall_lookup in Hz. constructor; [done|..].
  - intros i b Hb. destruct (Hz i b Hb) as [Hr Hv]. unfold slot_ok. rewrite decide_True by done.
    rewrite Hsl, decide_True by (rewrite <- Hlen; by eapply lookup_lt_Some). simpl. auto.
  - intros i j b b' Hb _ E. destruct (Hz i b Hb) as [_ E']. by rewrite E in E'.
  - done.
Qed.

Lemma binit_establishes_witness :
  exists k', binit (first_kernel sample_disk (fun _ => 0) sample_image) = Ok tt k' /\
    lru (k_bcache k') (reverse (seq 0 NBUF)) /\
    bc_rel (k_bcache k') (c_sleep (k_core k')) (d_blocks (k_disk k')) ∅.
Proof.
  assert (Hz : Forall (fun b => b_refcnt b = 0 /\ b_dev b = 0)
                 (bc_bufs (k_bcache (first_kernel sample_disk (fun _ => 0) sample_image)))).
  { apply (Forall_replicate _ NBUF zero_buf). done. }
  destruct (wp_ok _ _ _ (binit_establishes (first_kernel sample_disk (fun _ => 0) sample_image) eq_refl Hz)) as ([] & k' & E & Hl & Hr & _).
  exists k'. exact (conj E (conj Hl Hr)).
Defined.

(** C2: [bread] of a block that is in use and unlocked, or not in use while some
    buffer is free, returns a buffer that the caller holds locked, with one more
    reference and with the contents of the block: what the buffer in use has, or
    what the disk has.  It writes nothing to the disk and leaves every other block
    of the store, and the rest of the kernel, as they are. *)
Theorem bread_refines k me pr A blk :
  bio_ok k me pr A -> readable A blk ->
  wp (bread ROOTDEV blk) (fun i k' =>
    bio_ok k' me pr (<[blk := mkABlock i (refs A blk + 1) (Some (p_pid pr))
                                (contents A (d_blocks (k_disk k)) blk)]> A) /\
    (forall a, A !! blk = Some a -> i = a_idx a) /\
    k_disk k' = k_disk k /\ bio_frame me k k') k.
Proof. intros Hok Hr. eapply wp_bread; eauto. Qed.

Lemma bread_refines_witness :
  exists i k', bread ROOTDEV 45 (ready_kernel sample_disk (fun _ => 0) sample_image) = Ok i k' /\
    bio_ok k' 0 first_proc (<[45 := mkABlock i 1 (Some 1) (sample_disk 45)]> ∅).
Proof.
  assert (Hr : readable ∅ 45) by (apply Nat.ltb_lt; reflexivity).
  destruct (wp_ok _ _ _ (bread_refines _ _ _ _ 45
    (ready_ok sample_disk (fun _ => 0) sample_image) Hr)) as (i & k' & E & Hk & _).
  exists i, k'. exact (conj E Hk).
Defined.

(** [brelse] by the process that holds the buffer unlocks it and drops its
    reference; the block leaves the store with its last reference, which needs its
    contents to be on the disk.  Nothing is written, and nothing else changes. *)
Theorem brelse_refines k me pr A blk a :
  bio_ok k me pr A -> A !! blk = Some a -> a_lock a = Some (p_pid pr) ->
  (a_refs a = 1 -> a_data a = d_blocks (k_disk k) blk) ->
  wp (brelse (a_idx a)) (fun _ k' =>
    bio_ok k' me pr (unref A blk (unlocked a)) /\
    k_disk k' = k_disk k /\ bio_frame me k k') k.
Proof. intros. eapply wp_brelse; eauto. Qed.

Lemma brelse_refines_witness :
  exists i k', (let* i := bread ROOTDEV 45 in brelse i ;* M_ret i)
      (ready_kernel sample_disk (fun _ => 0) sample_image) = Ok i k' /\
    bio_ok k' 0 first_proc ∅.
Proof.
  enough (H : wp (let* i := bread ROOTDEV 45 in brelse i ;* M_ret i)
    (fun i k' => bio_ok k' 0 first_proc ∅)
    (ready_kernel sample_disk (fun _ => 0) sample_image)).
  { destruct (wp_ok _ _ _ H) as (i & k' & E & Hk). exists i, k'. exact (conj E Hk). }
  apply wp_bind. eapply wp_bread; [apply ready_ok|apply Nat.ltb_lt; reflexivity|].
  intros k1 i H1 _ Hd _. apply wp_bind.
  eapply wp_mono; [apply (brelse_refines _ _ _ _ 45 (mkABlock i 1 (Some 1) (sample_disk 45)) H1)|].
  - apply lookup_insert_eq.
  - reflexivity.
  - intros _. simpl. by rewrite Hd.
  - intros ? k2 [H2 _]. apply wp_ret. revert H2. unfold unref. simpl.
    by rewrite delete_insert_id.
Defined.

(** What the holder of a buffer writes with [bwrite] is on the disk, exactly one
    block is written, and reading the block again after [brelse], also when it had
    to be evicted from the cache in between, gives the same contents. *)
Theorem write_then_read k me pr A blk dt :
  bio_ok k me pr A -> A !! blk = None -> (size A < NBUF)%nat ->
  wp (let* i := bread ROOTDEV blk in
      set_bdata i dt ;* bwrite i ;* brelse i ;*
      let* j := bread ROOTDEV blk in bdata j)
    (fun r k' => r = dt /\ d_blocks (k_disk k') blk = dt /\
       (forall x, x <> blk -> d_blocks (k_disk k') x = d_blocks (k_disk k) x) /\
       d_trace (k_disk k') = d_trace (k_disk k) ++ [(blk, dt)]) k.
Proof.
  intros Hok HA Hsz.
  assert (Hrd : readable A blk) by (unfold readable; by rewrite HA).
  wp_steps. eapply wp_bread; [exact Hok|exact Hrd|]. intros k1 i H1 F1 D1 _.
  unfold refs in H1. rewrite HA in H1. simpl in H1. wp_steps.
  eapply (wp_set_bdata _ _ _ _ blk (mkABlock i _ _ _)); [exact H1|apply lookup_insert_eq|].
  intros k2 H2 F2 D2. rewrite insert_insert_eq in H2. wp_steps.
  eapply (wp_bwrite _ _ _ _ blk (mkABlock i _ _ _)); [exact H2|apply lookup_insert_eq|done|].
  intros k3 H3 F3 D3. simpl in H3. wp_steps.
  eapply (wp_brelse _ _ _ _ blk (mkABlock i _ _ _)); [exact H3|apply lookup_insert_eq|done| |].
  { intros _. rewrite D3. simpl. by rewrite Z.eqb_refl. }
  intros k4 H4 F4 D4. unfold unref in H4. simpl in H4.
  rewrite delete_insert_id in H4 by done. wp_steps.
  eapply wp_bread; [exact H4|exact Hrd|]. intros k5 j H5 F5 D5 _. wp_steps.
  eapply (wp_bdata _ _ _ _ _ blk (mkABlock j _ _ _)); [exact H5|apply lookup_insert_eq|].
  rewrite D5, D4, D3. simpl. unfold contents. rewrite HA, D2, D1. simpl.
  rewrite Z.eqb_refl. split_ands; try done. intros x Hx.
  by destruct (Z.eqb_spec x blk).
Qed.

Lemma write_then_read_witness :
  exists k', (let* i := bread ROOTDEV 45 in
      set_bdata i [1; 2; 3] ;* bwrite i ;* brelse i ;*
      let* j := bread ROOTDEV 45 in bdata j)
    (ready_kernel sample_disk (fun _ => 0) sample_image) = Ok [1; 2; 3] k' /\
    d_trace (k_disk k') = [(45, [1; 2; 3])].
Proof.
  assert (Hs : (size (∅ : gmap Z ablock) < NBUF)%nat) by (apply Nat.ltb_lt; reflexivity).
  destruct (wp_ok _ _ _ (write_then_read _ _ _ _ 45 [1; 2; 3]
    (ready_ok sample_disk (fun _ => 0) sample_image) eq_refl Hs)) as (r & k' & E & -> & _ & _ & Ht).
  exists k'. exact (conj E Ht).
Defined.

Lemma find_in_first bufs test l i :
  find_in bufs test l = Some i ->
  exists l1 l2, l = l1 ++ i :: l2 /\
    Forall (fun j => forall b, bufs !! j = Some b -> test b = false) l1.
Proof.
  induction l as [|j l IH]; simpl; [done|].
  destruct (bufs !! j) as [b|] eqn:Hj; [destruct (test b) eqn:Ht|].
  - intros [= ->]. exists [], l. by split; [|constructor].
  - intros (l1 & l2 & -> & H)%IH. exists (j :: l1), l2. split; [done|].
    constructor; [|done]. intros c Hc. congruence.
  - intros (l1 & l2 & -> & H)%IH. exists (j :: l1), l2. split; [done|].
    constructor; [|done]. intros c Hc. congruence.
Qed.

(** A block that is not cached goes to the least recently used buffer among the
    unreferenced ones: every buffer behind it in the list is in use. *)
Theorem bget_recycles_lru k me pr A blk order :
  bio_ok k me pr A -> lru (k_bcache k) order -> length order = NBUF -> (size A < NBUF)%nat ->
  (forall i b, bc_bufs (k_bcache k) !! i = Some b -> b_dev b = ROOTDEV -> b_blockno b <> blk) ->
  wp (bget ROOTDEV blk) (fun i k' =>
    exists l1 l2 b b', order = l1 ++ i :: l2 /\
      bc_bufs (k_bcache k) !! i = Some b /\ b_refcnt b = 0 /\
      Forall (fun j => forall c, bc_bufs (k_bcache k) !! j = Some c -> b_refcnt c <> 0) l2 /\
      bc_bufs (k_bcache k') !! i = Some b' /\
      b_dev b' = ROOTDEV /\ b_blockno b' = blk /\ b_valid b' = 0 /\ b_refcnt b' = 1) k.
Proof.
  intros Hok Hl Hlen Hsz Hno. eapply wp_bget_miss; try done.
  intros i b c' Hf Hb Hz _ _ _. destruct (find_in_first _ _ _ _ Hf) as (l1 & l2 & E & Hall).
  apply (f_equal reverse) in E. rewrite reverse_involutive, reverse_app, reverse_cons, <- app_assoc in E.
  eexists (reverse l2), (reverse l1), b, _. split_ands; [exact E|done|done| | | | | |].
  - apply Forall_reverse. eapply Forall_impl; [exact Hall|]. intros j Hj c Hc.
    specialize (Hj c Hc). by bool_simpl.
  - simpl. apply list_lookup_insert_eq. by eapply lookup_lt_Some.
  - done.
  - done.
  - done.
  - done.
Qed.

Lemma bget_recycles_lru_witness :
  exists i k', bget ROOTDEV 45 (ready_kernel sample_disk (fun _ => 0) sample_image) = Ok i k' /\ i = 0%nat.
Proof.
  assert (Hs : (size (∅ : gmap Z ablock) < NBUF)%nat) by (apply Nat.ltb_lt; reflexivity).
  assert (Hl : lru linked_bcache (reverse (seq 0 NBUF))).
  { destruct (ready_ok sample_disk (fun _ => 0) sample_image) as [_ _ [(o & Hl & _) _]].
    split; [|split]; [rewrite reverse_Permutation; apply NoDup_seq| |simpl; tauto].
    apply Forall_forall. intros x. rewrite elem_of_reverse, elem_of_seq.
    change (0 <= x < 0 + NBUF -> x < NBUF)%nat. lia. }
  assert (Hno : forall i b, bc_bufs linked_bcache !! i = Some b -> b_dev b = ROOTDEV -> b_blockno b <> 45).
  { intros i b. unfold linked_bcache. cbn [bc_bufs]. rewrite list_lookup_fmap.
    by intros (j & _ & ->)%fmap_Some. }
  destruct (wp_ok _ _ _ (bget_recycles_lru _ _ _ _ 45 _
    (ready_ok sample_disk (fun _ => 0) sample_image) Hl eq_refl Hs Hno)) as
    (i & k' & E & l1 & l2 & b & b' & Ho & Hb & Hz & Hall & _).
  exists i, k'. split; [exact E|]. destruct l2 as [|j l2].
  - apply (f_equal last) in Ho. rewrite last_snoc in Ho. by injection Ho.
  - exfalso. apply Forall_cons in Hall as [Hj _].
    assert (Hin : j ∈ reverse (seq 0 NBUF)) by (rewrite Ho; set_solver).
    rewrite elem_of_reverse, elem_of_seq in Hin. apply (Hj (linked_buf j)); [|done].
    cbn [ready_kernel set_k_bcache k_bcache linked_bcache bc_bufs].
    rewrite list_lookup_fmap, lookup_seq_lt by lia. done.
Defined.

(** When every buffer is referenced and the block is not cached, [bget] panics;
    it never hands out a buffer in use. *)
Theorem bget_exhausted k me pr A blk :
  bio_ok k me pr A ->
  Forall (fun b => b_refcnt b <> 0 /\ b_blockno b <> blk) (bc_bufs (k_bcache k)) ->
  bget ROOTDEV blk k = Panic "bget: no buffers".
Proof.
  intros [Hc Hp [(order & Hl & Hlen) Hr]] Hall. rewrite Forall_lookup in Hall.
  assert (Ha : wp (acquire LBcache) (fun _ k1 => exists c1, k1 = with_core k c1) k).
  { eapply wp_acquire; [exact Hc|simpl; lia|set_solver|eauto]. }
  destruct (wp_ok _ _ _ Ha) as ([] & k1 & E & c1 & ->).
  unfold bget. unfold M_bind at 1. rewrite E. simpl.
  unfold M_bind, gets. simpl. erewrite !lru_scan_next, lru_scan_prev by done. simpl.
  destruct (find_in _ _ order) as [i|] eqn:Ei.
  { apply find_in_Some in Ei as (_ & b & Hb & Ht). bool_simpl. by destruct (Hall i b Hb). }
  simpl. destruct (find_in _ _ (reverse order)) as [i|] eqn:Ej; [|done].
  apply find_in_Some in Ej as (_ & b & Hb & Ht). bool_simpl. by destruct (Hall i b Hb).
Qed.

Lemma bget_exhausted_witness :
  bget ROOTDEV 45 (cached_kernel ((fun i => (100 + Z.of_nat i, [])) <$> seq 0 NBUF) sample_disk
                     (fun _ => 0) sample_image) = Panic "bget: no buffers".
Proof.
  eapply (bget_exhausted _ 0 first_proc); [apply cached_ok|].
  - rewrite <- list_fmap_compose. apply NoDup_fmap_2; [|apply NoDup_seq]. intros x y. simpl. lia.
  - done.
  - apply Forall_lookup. intros i b.
    intros [-> Hi]%(cached_lookup ((fun i => (100 + Z.of_nat i, [])) <$> seq 0 NBUF)).
    unfold cached_buf. rewrite list_lookup_fmap, lookup_seq_lt by done. simpl. lia.
Defined.
