(* ===== verification/Log.v ===== *)
(** * The write-ahead log (kernel/log.c)

    The operations of log.c over the kernel state; the disk writes that [commit]
    and recovery make, exactly and in order; and what a crash after any of them
    leaves, once the system has booted again.

    A crash keeps the disk and loses everything else, so the disks a crash can
    leave are those after a prefix of the block writes.  [recovered] is what the
    disk means: the blocks with the transaction that the header commits to
    installed. *)

From S2P Require Import Prelude State Spin Sleep Bio.

(** ** The header block *)

Definition get_int (off : nat) (b : list Z) : Z := i32 (le_join (slice off 4 b)).

Definition put_int (off : nat) (v : Z) (b : list Z) : list Z := splice off (le_split 4 v) b.

(** [log.lh.n = lh->n; for(i...) log.lh.block[i] = lh->block[i];]; [None] when the
    loop leaves the array. *)
Definition load_head (b : list Z) (lh : logheader) : option logheader :=
  let n := get_int 0 b in
  if n <=? LOGSIZE
  then Some (mkLogheader n
         (foldl (fun bl i => <[i := get_int (4 + 4 * i) b]> bl) (lh_block lh) (seq 0 (Z.to_nat n))))
  else None.

(** [hb->n = log.lh.n; for(i...) hb->block[i] = log.lh.block[i];]. *)
Definition store_head (lh : logheader) (b : list Z) : option (list Z) :=
  if lh_n lh <=? LOGSIZE
  then Some (foldl (fun b i => put_int (4 + 4 * i) (lh_block lh !!! i) b)
               (put_int 0 (lh_n lh) b) (seq 0 (Z.to_nat (lh_n lh))))
  else None.

(** ** Operations *)

Definition install_trans (recovering : Z) : K unit :=
  let* l := gets k_log in
  for_each (seq 0 (Z.to_nat (lh_n (l_lh l)))) (fun tail =>
    let* l := gets k_log in
    let* lbuf := bread (u32 (l_dev l)) (u32 (l_start l + Z.of_nat tail + 1)) in
    let* blk := of_opt (lh_block (l_lh l) !! tail) in
    let* dbuf := bread (u32 (l_dev l)) (u32 blk) in
    let* d := bdata lbuf in
    set_bdata dbuf d ;*
    bwrite dbuf ;*
    when (recovering =? 0) (bunpin dbuf) ;*
    brelse lbuf ;*
    brelse dbuf).

Definition read_head : K unit :=
  let* l := gets k_log in
  let* buf := bread (u32 (l_dev l)) (u32 (l_start l)) in
  let* b := bdata buf in
  let* lh := of_opt (load_head b (l_lh l)) in
  modify (set_k_log (set_l_lh (fun _ => lh))) ;*
  brelse buf.

Definition write_head : K unit :=
  let* l := gets k_log in
  let* buf := bread (u32 (l_dev l)) (u32 (l_start l)) in
  let* b := bdata buf in
  let* b' := of_opt (store_head (l_lh l) b) in
  set_bdata buf b' ;*
  bwrite buf ;*
  brelse buf.

Definition set_n (n : Z) : K unit :=
  modify (set_k_log (set_l_lh (set_lh_n (fun _ => n)))).

Definition recover_from_log : K unit :=
  read_head ;*
  install_trans 1 ;*
  set_n 0 ;*
  write_head.

Definition initlog (dev : Z) (sb : superblock) : K unit :=
  if BSIZE <=? 4 + 4 * LOGSIZE then panic "initlog: too big logheader" else
  initlock LLog "log" ;*
  modify (set_k_log (set_l_start (fun _ => i32 (sb_logstart sb)))) ;*
  modify (set_k_log (set_l_size (fun _ => i32 (sb_nlog sb)))) ;*
  modify (set_k_log (set_l_dev (fun _ => dev))) ;*
  recover_from_log.

(** Both waits of the loop stop the thread; when it runs again it tests again. *)
Definition begin_op : K unit :=
  acquire LLog ;*
  let* l := gets k_log in
  if truthy (l_committing l) then sleep ChanLog LLog
  else if LOGSIZE <? lh_n (l_lh l) + (l_outstanding l + 1) * MAXOPBLOCKS
  then sleep ChanLog LLog
  else
    modify (set_k_log (set_l_outstanding (fun o => o + 1))) ;*
    release LLog.

Definition write_log : K unit :=
  let* l := gets k_log in
  for_each (seq 0 (Z.to_nat (lh_n (l_lh l)))) (fun tail =>
    let* l := gets k_log in
    let* to := bread (u32 (l_dev l)) (u32 (l_start l + Z.of_nat tail + 1)) in
    let* blk := of_opt (lh_block (l_lh l) !! tail) in
    let* from := bread (u32 (l_dev l)) (u32 blk) in
    let* d := bdata from in
    set_bdata to d ;*
    bwrite to ;*
    brelse from ;*
    brelse to).

Definition commit : K unit :=
  let* l := gets k_log in
  when (0 <? lh_n (l_lh l))
    (write_log ;*
     write_head ;*
     install_trans 0 ;*
     set_n 0 ;*
     write_head).

Definition end_op : K unit :=
  acquire LLog ;*
  modify (set_k_log (set_l_outstanding (fun o => o - 1))) ;*
  let* l := gets k_log in
  if truthy (l_committing l) then panic "log.committing" else
  let do_commit := l_outstanding l =? 0 in
  (if do_commit then modify (set_k_log (set_l_committing (fun _ => 1)))
   else wakeup ChanLog) ;*
  release LLog ;*
  when do_commit
    (commit ;*
     acquire LLog ;*
     modify (set_k_log (set_l_committing (fun _ => 0))) ;*
     wakeup ChanLog ;*
     release LLog).

(** The loop of [log_write]: the index of the block in the header, or [n]. *)
Fixpoint absorb (bl : list Z) (n : nat) (blockno : Z) : nat :=
  match bl, n with
  | b :: bl, S n => if u32 b =? blockno then 0 else S (absorb bl n blockno)
  | _, _ => 0
  end.

Definition log_write (b : nat) : K unit :=
  acquire LLog ;*
  let* l := gets k_log in
  if (LOGSIZE <=? lh_n (l_lh l)) || (l_size l - 1 <=? lh_n (l_lh l))
  then panic "too big a transaction" else
  if l_outstanding l <? 1 then panic "log_write outside of trans" else
  let* blockno := bblockno b in
  let i := absorb (lh_block (l_lh l)) (Z.to_nat (lh_n (l_lh l))) blockno in
  modify (set_k_log (set_l_lh (set_lh_block (fun bl => <[i := i32 blockno]> bl)))) ;*
  when (Z.of_nat i =? lh_n (l_lh l))
    (bpin b ;*
     modify (set_k_log (set_l_lh (set_lh_n (fun n => n + 1))))) ;*
  release LLog.

(** ** Specification *)

(** The disk after a list of block writes. *)
Definition dwrite (d : Z -> list Z) (w : Z * list Z) : Z -> list Z :=
  fun x => if x =? w.1 then w.2 else d x.

Definition dwrites (d : Z -> list Z) (ws : list (Z * list Z)) : Z -> list Z := foldl dwrite d ws.

Definition disk_add (ws : list (Z * list Z)) (dk : disk) : disk :=
  mkDisk (dwrites (d_blocks dk) ws) (d_trace dk ++ ws).

(** The blocks that a header block commits to. *)
Definition head_blocks (b : list Z) : list Z :=
  (fun i => get_int (4 + 4 * i) b) <$> seq 0 (Z.to_nat (get_int 0 b)).

(** The writes that install the transaction of the log at [start]. *)
Definition installs (start : Z) (d : Z -> list Z) (bl : list Z) : list (Z * list Z) :=
  imap (fun i blk => (u32 blk, d (start + Z.of_nat i + 1))) bl.

(** What the disk means once the log has been replayed. *)
Definition recovered (start : Z) (d : Z -> list Z) : Z -> list Z :=
  dwrites d (installs start d (head_blocks (d start))).

(** The block is not one of the log's. *)
Definition outside (start : Z) (x : Z) : Prop := x < start \/ start + LOGSIZE <= x.

(** The writes of [commit]: the log blocks, the header, the home locations and
    the header again. *)
Definition log_writes (start : Z) (bl : list Z) (data : Z -> list Z) : list (Z * list Z) :=
  imap (fun i blk => (start + Z.of_nat i + 1, data blk)) bl.

Definition home_writes (bl : list Z) (data : Z -> list Z) : list (Z * list Z) :=
  (fun blk => (blk, data blk)) <$> bl.

(** The in-memory header is well formed. *)
Record head_ok (lh : logheader) : Prop := mkHeadOk {
  ho_n : 0 <= lh_n lh < LOGSIZE;
  ho_len : length (lh_block lh) = Z.to_nat LOGSIZE;
  ho_int : Forall (fun b => - 2 ^ 31 <= b < 2 ^ 31) (lh_block lh)
}.

(** The blocks of the transaction. *)
Definition lh_list (lh : logheader) : list Z := take (Z.to_nat (lh_n lh)) (lh_block lh).

(** Where the log is. *)
Definition log_at (l : log) (start : Z) : Prop :=
  l_dev l = ROOTDEV /\ l_start l = start /\ 0 <= start /\ start + LOGSIZE + 1 < 2 ^ 31.

(** One pin less. *)
Definition unpin_entry (a : ablock) : option ablock :=
  if decide (a_refs a = 1) then None
  else Some (mkABlock (a_idx a) (a_refs a - 1) (a_lock a) (a_data a)).

Definition unpin (A : gmap Z ablock) (blk : Z) : gmap Z ablock :=
  partial_alter (fun o => o ≫= unpin_entry) blk A.

Definition unpins (A : gmap Z ablock) (bl : list Z) : gmap Z ablock := foldl unpin A bl.

(** Process [me] can commit the transaction [bl]: its blocks are pinned and nobody
    holds them, nobody uses the blocks of the log, and there is a buffer to spare. *)
Record commit_ready (k : kernel) (me : nat) (pr : proc) (A : gmap Z ablock) (start : Z)
    (bl : list Z) : Prop := mkReady {
  cr_bio : bio_ok k me pr A;
  cr_log : log_at (k_log k) start;
  cr_head : head_ok (l_lh (k_log k));
  cr_list : lh_list (l_lh (k_log k)) = bl;
  cr_nodup : NoDup bl;
  cr_home : forall blk, blk ∈ bl -> 0 <= blk /\ outside start blk /\
    exists a, A !! blk = Some a /\ a_lock a = None /\ a_refs a + 1 < 2 ^ 32;
  cr_free : forall x, ~ outside start x -> A !! x = None;
  cr_room : (size A < NBUF)%nat;
  cr_len : length (d_blocks (k_disk k) start) = Z.to_nat BSIZE
}.

(** ** Lemmas: the header block *)

Lemma length_put_int off v b : (off + 4 <= length b)%nat -> length (put_int off v b) = length b.
Proof. intros. unfold put_int. by rewrite length_splice by len. Qed.

Lemma get_put_int off v b :
  (off + 4 <= length b)%nat -> get_int off (put_int off v b) = i32 v.
Proof.
  intros. unfold get_int, put_int.
  replace 4%nat with (length (le_split 4 v)) at 1 by len.
  rewrite slice_splice_same by lia. rewrite le_join_split. apply i32_u32.
Qed.

Lemma get_put_int_ne off off' v b :
  (off' + 4 <= length b)%nat -> (off + 4 <= off' \/ off' + 4 <= off)%nat ->
  get_int off (put_int off' v b) = get_int off b.
Proof. intros. unfold get_int, put_int. by rewrite slice_splice_other by len. Qed.

Definition store_blocks (bl : list Z) (n : nat) (b : list Z) : list Z :=
  foldl (fun b i => put_int (4 + 4 * i) (bl !!! i) b) b (seq 0 n).

Lemma store_blocks_spec bl n b :
  (4 + 4 * n <= length b)%nat ->
  length (store_blocks bl n b) = length b /\
  get_int 0 (store_blocks bl n b) = get_int 0 b /\
  (forall i, (i < n)%nat -> get_int (4 + 4 * i) (store_blocks bl n b) = i32 (bl !!! i)).
Proof.
  intros Hb. induction n as [|n IH]; [by split_ands; (done || (intros; lia))|]. destruct IH as (Hl & H0 & Hi); [lia|].
  unfold store_blocks in *. rewrite seq_S, foldl_app. cbn [foldl Nat.add].
  set (b1 := foldl _ b (seq 0 n)) in *. split_ands.
  - by rewrite length_put_int by lia.
  - by rewrite get_put_int_ne by lia.
  - intros i Hlt. destruct (decide (i = n)) as [->|].
    + by rewrite get_put_int by lia.
    + rewrite get_put_int_ne by lia. apply Hi. lia.
Qed.

Lemma head_blocks_ext b bl :
  length bl = Z.to_nat (get_int 0 b) ->
  (forall i, (i < length bl)%nat -> get_int (4 + 4 * i) b = bl !!! i) -> head_blocks b = bl.
Proof.
  intros Hn Hi. unfold head_blocks. rewrite <- Hn. apply list_eq. intros i.
  rewrite list_lookup_fmap. destruct (decide (i < length bl)%nat).
  - rewrite lookup_seq_lt, list_lookup_lookup_total_lt by lia. exact (f_equal Some (Hi i ltac:(lia))).
  - rewrite lookup_seq_ge, lookup_ge_None_2 by lia. done.
Qed.

Lemma lh_list_lookup lh i :
  (i < Z.to_nat (lh_n lh))%nat -> lh_list lh !! i = lh_block lh !! i.
Proof. intros. unfold lh_list. by apply lookup_take_lt. Qed.

Lemma length_lh_list lh : head_ok lh -> length (lh_list lh) = Z.to_nat (lh_n lh).
Proof. intros [Hn Hl _]. unfold lh_list. rewrite length_take, Hl. lia. Qed.

Lemma store_head_spec lh b :
  head_ok lh -> length b = Z.to_nat BSIZE ->
  exists b', store_head lh b = Some b' /\ length b' = Z.to_nat BSIZE /\
    get_int 0 b' = lh_n lh /\ head_blocks b' = lh_list lh.
Proof.
  intros Hok Hb. pose proof (length_lh_list _ Hok) as Hll. destruct Hok as [Hn Hl Hi].
  unfold store_head. rewrite (proj2 (Z.leb_le _ _)) by lia. eexists. split; [done|].
  assert (Hb4 : length (put_int 0 (lh_n lh) b) = Z.to_nat BSIZE)
    by (rewrite length_put_int; rewrite Hb; unfold BSIZE; lia).
  destruct (store_blocks_spec (lh_block lh) (Z.to_nat (lh_n lh)) (put_int 0 (lh_n lh) b))
    as (H1 & H2 & H3); [rewrite Hb4; unfold BSIZE, LOGSIZE, MAXOPBLOCKS in *; lia|].
  unfold store_blocks in *. set (b' := foldl _ _ _) in *. clearbody b'.
  rewrite get_put_int, i32_small in H2 by (rewrite ?Hb; unfold BSIZE, LOGSIZE, MAXOPBLOCKS in *; lia).
  split_ands; [congruence|done|]. apply head_blocks_ext; [by rewrite Hll, H2|].
  intros i Hlt. rewrite H3 by lia. unfold lh_list. rewrite lookup_total_take_lt by lia.
  apply i32_small. rewrite Forall_lookup in Hi. apply (Hi i).
  apply list_lookup_lookup_total_lt. lia.
Qed.

Lemma load_blocks_spec b bl n :
  (n <= length bl)%nat ->
  foldl (fun bl i => <[i := get_int (4 + 4 * i) b]> bl) bl (seq 0 n) =
  ((fun i => get_int (4 + 4 * i) b) <$> seq 0 n) ++ drop n bl.
Proof.
  intros Hn. induction n as [|n IH]; [done|]. rewrite seq_S, foldl_app, IH, fmap_app by lia.
  cbn [foldl Nat.add fmap list_fmap].
  destruct (lookup_lt_is_Some_2 bl n) as [x Hx]; [lia|].
  rewrite (drop_S bl x n Hx), <- app_assoc. rewrite insert_app_r_alt by len.
  len. by rewrite Nat.sub_diag.
Qed.

Lemma load_head_spec b lh :
  get_int 0 b < LOGSIZE -> length (lh_block lh) = Z.to_nat LOGSIZE ->
  Forall (fun b => - 2 ^ 31 <= b < 2 ^ 31) (lh_block lh) ->
  exists lh', load_head b lh = Some lh' /\ lh_n lh' = get_int 0 b /\
    lh_list lh' = head_blocks b /\ (0 <= get_int 0 b -> head_ok lh').
Proof.
  intros Hn Hl Hi. unfold load_head. rewrite (proj2 (Z.leb_le _ _)) by lia. eexists.
  split; [done|]. cbn [lh_n]. rewrite load_blocks_spec by lia.
  set (n := Z.to_nat (get_int 0 b)) in *.
  assert (Hln : length ((fun i => get_int (4 + 4 * i) b) <$> seq 0 n) = n) by len.
  split; [done|]. unfold lh_list. cbn [lh_n lh_block]. split.
  - unfold head_blocks. fold n. rewrite <- Hln at 1. apply take_app_length.
  - intros H0. constructor; cbn [lh_n lh_block]; [lia|rewrite length_app, Hln; len|].
    apply Forall_app. split; [|by apply Forall_drop].
    apply Forall_fmap, Forall_forall. intros i _. apply i32_range.
Qed.

(** ** Lemmas: the operations *)

(** Equality of maps that are the same up to insertions and deletions. *)
Ltac gmap_eq :=
  apply map_eq; intros ?; rewrite ?lookup_insert, ?lookup_delete, ?lookup_insert, ?lookup_partial_alter;
  repeat case_decide; subst; try congruence.

(** The goal from [H], whose store is the same map. *)
Ltac same_store H :=
  lazymatch type of H with
  | bio_at _ _ _ _ ?B =>
      lazymatch goal with |- bio_at _ _ _ _ ?A => replace A with B; [exact H|] end
  end.

Lemma disk_add_app ws ws' dk : disk_add ws' (disk_add ws dk) = disk_add (ws ++ ws') dk.
Proof. unfold disk_add, dwrites. simpl. by rewrite foldl_app, app_assoc. Qed.

Lemma disk_add_nil dk : disk_add [] dk = dk.
Proof. destruct dk. unfold disk_add. simpl. by rewrite app_nil_r. Qed.

Lemma bwrite_disk dk blk dt :
  mkDisk (fun x => if x =? blk then dt else d_blocks dk x) (d_trace dk ++ [(blk, dt)]) =
  disk_add [(blk, dt)] dk.
Proof. done. Qed.

(** A block that nobody uses is read, kept, and given back. *)
Lemma readable_None A x : A !! x = None -> (size A < NBUF)%nat -> readable A x.
Proof. unfold readable. by intros ->. Qed.

Lemma wp_bread_new k me pr A blk Q :
  bio_ok k me pr A -> A !! blk = None -> (size A < NBUF)%nat ->
  (forall k' i, bio_ok k' me pr
       (<[blk := mkABlock i 1 (Some (p_pid pr)) (d_blocks (k_disk k) blk)]> A) ->
     bio_frame me k k' -> k_disk k' = k_disk k -> Q i k') ->
  wp (bread ROOTDEV blk) Q k.
Proof.
  intros Hok HA Hs HQ. eapply wp_bread; [done|by apply readable_None|].
  unfold refs, contents. rewrite HA. intros. by apply HQ.
Qed.

Lemma wp_bread_used k me pr A blk a Q :
  bio_ok k me pr A -> A !! blk = Some a -> a_lock a = None -> a_refs a + 1 < 2 ^ 32 ->
  (forall k', bio_ok k' me pr
       (<[blk := mkABlock (a_idx a) (a_refs a + 1) (Some (p_pid pr)) (a_data a)]> A) ->
     bio_frame me k k' -> k_disk k' = k_disk k -> Q (a_idx a) k') ->
  wp (bread ROOTDEV blk) Q k.
Proof.
  intros Hok HA Hl Hlt HQ. eapply wp_bread; [done|unfold readable; by rewrite HA|].
  unfold refs, contents. rewrite HA. intros k' i H1 H2 H3 H4.
  rewrite (H4 a eq_refl) in *. by apply HQ.
Qed.

Lemma wp_write_head k me pr A start Q :
  bio_ok k me pr A -> log_at (k_log k) start -> head_ok (l_lh (k_log k)) ->
  A !! start = None -> (size A < NBUF)%nat -> length (d_blocks (k_disk k) start) = Z.to_nat BSIZE ->
  (forall k' b', store_head (l_lh (k_log k)) (d_blocks (k_disk k) start) = Some b' ->
     bio_ok k' me pr A -> bio_frame me k k' -> k_disk k' = disk_add [(start, b')] (k_disk k) -> Q tt k') ->
  wp write_head Q k.
Proof.
  intros Hok (Hdev & Hst & Hs0 & Hs1) Hh HA Hsz Hlen HQ.
  destruct (store_head_spec _ _ Hh Hlen) as (b' & Eb & _).
  unfold write_head. wp_steps. rewrite Hdev, Hst. change (u32 ROOTDEV) with ROOTDEV.
  rewrite u32_small by (unfold LOGSIZE, MAXOPBLOCKS in *; lia).
  eapply wp_bread_new; [done..|]. intros k1 i H1 F1 D1. wp_steps.
  eapply (wp_bdata _ _ _ _ _ start (mkABlock i _ _ _)); [exact H1|apply lookup_insert_eq|].
  wp_steps. simpl. rewrite Eb. wp_steps.
  eapply (wp_set_bdata _ _ _ _ start (mkABlock i _ _ _)); [exact H1|apply lookup_insert_eq|].
  intros k2 H2 F2 D2. simpl in H2. rewrite insert_insert_eq in H2. wp_steps.
  eapply (wp_bwrite _ _ _ _ start (mkABlock i _ _ _)); [exact H2|apply lookup_insert_eq|done|].
  intros k3 H3 F3 D3. simpl in D3. rewrite bwrite_disk in D3. wp_steps.
  eapply (wp_brelse _ _ _ _ start (mkABlock i _ _ _)); [exact H3|apply lookup_insert_eq|done| |].
  { intros _. rewrite D3. simpl. unfold dwrite. simpl. by rewrite Z.eqb_refl. }
  intros k4 H4 F4 D4. unfold unref in H4. simpl in H4. rewrite delete_insert_id in H4 by done.
  eapply HQ; [exact Eb|exact H4| |congruence]. eauto using bio_frame_trans.
Qed.

(** The in-memory list, element by element. *)
Lemma lh_list_Some lh i :
  head_ok lh -> (i < Z.to_nat (lh_n lh))%nat ->
  exists blk, lh_block lh !! i = Some blk /\ lh_list lh !! i = Some blk /\ - 2 ^ 31 <= blk < 2 ^ 31.
Proof.
  intros Hok Hi. rewrite lh_list_lookup by done. destruct Hok as [Hn Hl Hf].
  destruct (lookup_lt_is_Some_2 (lh_block lh) i) as [blk Hb]; [lia|].
  exists blk. split_ands; try done; rewrite Forall_lookup in Hf; apply (Hf _ _ Hb).
Qed.

Lemma not_outside start i : 0 <= i < LOGSIZE -> ~ outside start (start + i).
Proof. unfold outside. lia. Qed.

(** One round of [write_log]: the block goes from the cache to the log. *)
Lemma wp_copy_to_log k me pr A x b blk a Q :
  u32 b = blk -> bio_ok k me pr A -> A !! x = None -> (size A < NBUF)%nat ->
  A !! blk = Some a -> a_lock a = None -> a_refs a + 1 < 2 ^ 32 ->
  (forall k', bio_ok k' me pr A -> bio_frame me k k' ->
     k_disk k' = disk_add [(x, a_data a)] (k_disk k) -> Q tt k') ->
  wp (let* to := bread ROOTDEV x in
      let* blk := of_opt (Some b) in
      let* from := bread ROOTDEV (u32 blk) in
      let* d := bdata from in
      set_bdata to d ;* bwrite to ;* brelse from ;* brelse to) Q k.
Proof.
  intros Hu Hok Hx Hsz HA Hl Hr HQ. assert (Hne : x <> blk) by congruence.
  pose proof Hok as [_ _ [_ Hrel]].
  destruct (buf_rel_lookup _ _ _ _ _ _ Hrel HA) as (_ & _ & _ & _ & _ & _ & Hpos & _). clear Hrel.
  wp_steps. eapply wp_bread_new; [done..|]. intros k1 i H1 F1 D1. wp_steps. rewrite Hu.
  eapply (wp_bread_used _ _ _ _ _ a); [exact H1|by rewrite lookup_insert_ne|done|done|].
  intros k2 H2 F2 D2. wp_steps.
  eapply (wp_bdata _ _ _ _ _ blk (mkABlock (a_idx a) _ _ _)); [exact H2|apply lookup_insert_eq|].
  wp_steps. simpl.
  eapply (wp_set_bdata _ _ _ _ x (mkABlock i _ _ _)); [exact H2|rewrite lookup_insert_ne by done; apply lookup_insert_eq|].
  intros k3 H3 F3 D3. simpl in H3. wp_steps.
  eapply (wp_bwrite _ _ _ _ x (mkABlock i _ _ _)); [exact H3|apply lookup_insert_eq|done|].
  intros k4 H4 F4 D4. simpl in D4. rewrite bwrite_disk in D4. wp_steps.
  eapply (wp_brelse _ _ _ _ blk (mkABlock (a_idx a) _ _ _)); 
    [exact H4|rewrite lookup_insert_ne by done; apply lookup_insert_eq|done|simpl; intros; lia|].
  intros k5 H5 F5 D5. unfold unref in H5. simpl in H5. rewrite decide_False in H5 by lia. wp_steps.
  eapply (wp_brelse _ _ _ _ x (mkABlock i _ _ _)); [exact H5| |done| |].
  { rewrite lookup_insert_ne by done. apply lookup_insert_eq. }
  { intros _. rewrite D5, D4. simpl. unfold dwrite. simpl. by rewrite Z.eqb_refl. }
  intros k6 H6 F6 D6. unfold unref in H6. simpl in H6. apply HQ.
  - same_store H6.
    gmap_eq. rewrite HA. destruct a; simpl in *. subst. do 2 f_equal. lia.
  - eauto 10 using bio_frame_trans.
  - congruence.
Qed.

(** One round of [install_trans(0)]: the block goes from the log to its place and
    loses its pin. *)
Lemma wp_install_pinned k me pr A x b blk a Q :
  u32 b = blk -> bio_ok k me pr A -> A !! x = None -> (size A < NBUF)%nat ->
  A !! blk = Some a -> a_lock a = None -> a_refs a + 1 < 2 ^ 32 ->
  d_blocks (k_disk k) x = a_data a ->
  (forall k', bio_ok k' me pr (unpin A blk) -> bio_frame me k k' ->
     k_disk k' = disk_add [(blk, a_data a)] (k_disk k) -> Q tt k') ->
  wp (let* lbuf := bread ROOTDEV x in
      let* blk := of_opt (Some b) in
      let* dbuf := bread ROOTDEV (u32 blk) in
      let* d := bdata lbuf in
      set_bdata dbuf d ;* bwrite dbuf ;* when (0 =? 0) (bunpin dbuf) ;* brelse lbuf ;* brelse dbuf) Q k.
Proof.
  intros Hu Hok Hx Hsz HA Hl Hr Hd HQ. assert (Hne : x <> blk) by congruence.
  pose proof Hok as [_ _ [_ Hrel]].
  destruct (buf_rel_lookup _ _ _ _ _ _ Hrel HA) as (_ & _ & _ & _ & _ & _ & Hpos & _). clear Hrel.
  wp_steps. eapply wp_bread_new; [done..|]. intros k1 i H1 F1 D1. wp_steps. rewrite Hu.
  eapply (wp_bread_used _ _ _ _ _ a); [exact H1|by rewrite lookup_insert_ne|done|done|].
  intros k2 H2 F2 D2. wp_steps.
  eapply (wp_bdata _ _ _ _ _ x (mkABlock i _ _ _)); [exact H2|rewrite lookup_insert_ne by done; apply lookup_insert_eq|].
  wp_steps. simpl. rewrite Hd in *.
  eapply (wp_set_bdata _ _ _ _ blk (mkABlock (a_idx a) _ _ _)); [exact H2|apply lookup_insert_eq|].
  intros k3 H3 F3 D3. simpl in H3. rewrite insert_insert_eq in H3. wp_steps.
  eapply (wp_bwrite _ _ _ _ blk (mkABlock (a_idx a) _ _ _)); [exact H3|apply lookup_insert_eq|done|].
  intros k4 H4 F4 D4. simpl in D4. rewrite bwrite_disk in D4. wp_steps. cbn [Z.eqb]. wp_steps.
  eapply (wp_bunpin _ _ _ _ _ blk (mkABlock (a_idx a) _ _ _));
    [exact H4|set_solver|simpl; lia|apply lookup_insert_eq|simpl; intros; lia|].
  intros k5 H5 F5 D5. unfold unref in H5. simpl in H5.
  rewrite decide_False, insert_insert_eq in H5 by lia. wp_steps.
  eapply (wp_brelse _ _ _ _ x (mkABlock i _ _ _));
    [exact H5|rewrite lookup_insert_ne by done; apply lookup_insert_eq|done| |].
  { intros _. rewrite D5, D4, D3, D2, D1. simpl. unfold dwrite. simpl.
    by rewrite (proj2 (Z.eqb_neq _ _) Hne), Hd. }
  intros k6 H6 F6 D6. unfold unref in H6. simpl in H6. wp_steps.
  eapply (wp_brelse _ _ _ _ blk (mkABlock (a_idx a) _ _ _));
    [exact H6|rewrite lookup_delete_ne by done; apply lookup_insert_eq|done| |].
  { intros _. rewrite D6, D5, D4. simpl. unfold dwrite. simpl. by rewrite Z.eqb_refl. }
  intros k7 H7 F7 D7. apply HQ.
  - same_store H7.
    unfold unpin, unref, unlocked. simpl. replace (a_refs a + 1 - 1) with (a_refs a) by lia.
    destruct (decide (a_refs a = 1)) as [E|E]; gmap_eq; rewrite HA; simpl; unfold unpin_entry;
      by rewrite ?(decide_True _ _ E), ?(decide_False _ _ E), ?Hl.
  - eauto 10 using bio_frame_trans.
  - congruence.
Qed.

(** One round of [install_trans(1)], at boot. *)
Lemma wp_install_boot k me pr A x b blk Q :
  u32 b = blk -> bio_ok k me pr A -> A !! x = None -> A !! blk = None -> (S (size A) < NBUF)%nat -> x <> blk ->
  (forall k', bio_ok k' me pr A -> bio_frame me k k' ->
     k_disk k' = disk_add [(blk, d_blocks (k_disk k) x)] (k_disk k) -> Q tt k') ->
  wp (let* lbuf := bread ROOTDEV x in
      let* blk := of_opt (Some b) in
      let* dbuf := bread ROOTDEV (u32 blk) in
      let* d := bdata lbuf in
      set_bdata dbuf d ;* bwrite dbuf ;* when (1 =? 0) (bunpin dbuf) ;* brelse lbuf ;* brelse dbuf) Q k.
Proof.
  intros Hu Hok Hx HA Hsz Hne HQ.
  wp_steps. eapply wp_bread_new; [done|done|lia|]. intros k1 i H1 F1 D1. wp_steps. rewrite Hu.
  eapply wp_bread_new; [exact H1|by rewrite lookup_insert_ne|by rewrite map_size_insert_None|].
  intros k2 j H2 F2 D2. wp_steps.
  eapply (wp_bdata _ _ _ _ _ x (mkABlock i _ _ _)); [exact H2|rewrite lookup_insert_ne by done; apply lookup_insert_eq|].
  wp_steps. simpl.
  eapply (wp_set_bdata _ _ _ _ blk (mkABlock j _ _ _)); [exact H2|apply lookup_insert_eq|].
  intros k3 H3 F3 D3. simpl in H3. rewrite insert_insert_eq in H3. wp_steps.
  eapply (wp_bwrite _ _ _ _ blk (mkABlock j _ _ _)); [exact H3|apply lookup_insert_eq|done|].
  intros k4 H4 F4 D4. simpl in D4. rewrite bwrite_disk in D4. wp_steps. cbn [Z.eqb]. wp_steps.
  eapply (wp_brelse _ _ _ _ x (mkABlock i _ _ _));
    [exact H4|rewrite lookup_insert_ne by done; apply lookup_insert_eq|done| |].
  { intros _. rewrite D4, D3, D2, D1. simpl. unfold dwrite. simpl.
    by rewrite (proj2 (Z.eqb_neq _ _) Hne). }
  intros k5 H5 F5 D5. unfold unref in H5. simpl in H5. wp_steps.
  eapply (wp_brelse _ _ _ _ blk (mkABlock j _ _ _));
    [exact H5|rewrite lookup_delete_ne by done; apply lookup_insert_eq|done| |].
  { intros _. rewrite D5, D4. simpl. unfold dwrite. simpl. by rewrite Z.eqb_refl. }
  intros k6 H6 F6 D6. unfold unref in H6. simpl in H6. apply HQ.
  - same_store H6. gmap_eq.
  - eauto 10 using bio_frame_trans.
  - congruence.
Qed.

(** *** The loops *)

Lemma bio_frame_log_at me k k' start :
  bio_frame me k k' -> log_at (k_log k) start -> log_at (k_log k') start.
Proof. intros F. by rewrite (bf_log _ _ _ F). Qed.

Lemma wp_write_log k me pr A start bl Q :
  commit_ready k me pr A start bl ->
  (forall k', bio_ok k' me pr A -> bio_frame me k k' ->
     k_disk k' = disk_add (log_writes start bl (contents A (d_blocks (k_disk k)))) (k_disk k) ->
     Q tt k') ->
  wp write_log Q k.
Proof.
  intros [Hok Hlog Hh Hbl Hnd Hhome Hfree Hroom Hlen] HQ. unfold write_log. wp_steps.
  set (ws := log_writes start bl (contents A (d_blocks (k_disk k)))) in *.
  assert (Hn : length bl = Z.to_nat (lh_n (l_lh (k_log k)))) by (by rewrite <- Hbl, length_lh_list).
  assert (Hws : length ws = length bl) by (apply length_imap).
  eapply wp_mono; [apply (wp_for_each _ _ (fun i k' =>
    bio_ok k' me pr A /\ bio_frame me k k' /\ k_disk k' = disk_add (take i ws) (k_disk k)))|].
  - split; [done|]. split; [apply bio_frame_refl|]. by rewrite disk_add_nil.
  - intros i x k' [-> Hi]%lookup_seq (H1 & F1 & D1). cbn [Nat.add].
    apply wp_bind, wp_gets. cbn beta.
    rewrite (bf_log _ _ _ F1). destruct Hlog as (Hdev & Hst & Hs0 & Hs1). rewrite Hdev, Hst.
    destruct (lh_list_Some _ _ Hh Hi) as (blk & Hb & Hb' & Hbr). rewrite Hb.
    assert (Hin : blk ∈ bl) by (rewrite <- Hbl; by eapply list_elem_of_lookup_2).
    destruct (Hhome blk Hin) as (Hb0 & Hout & a & HA & Hl & Hr).
    change (u32 ROOTDEV) with ROOTDEV. destruct Hh as [Hnn _ _].
    rewrite (u32_small (start + _ + _)) by lia.
    assert (Hx : A !! (start + Z.of_nat i + 1) = None)
      by (apply Hfree; unfold outside; lia).
    eapply (wp_copy_to_log _ _ _ _ _ _ blk a); try done; [apply u32_small; lia|]. intros k2 H2 F2 D2.
    split; [done|]. split; [eauto using bio_frame_trans|].
    rewrite D2, D1, disk_add_app. f_equal.
    rewrite (take_S_r _ _ (start + Z.of_nat i + 1, a_data a)); [done|].
    unfold ws, log_writes. rewrite list_lookup_imap, <- Hbl, Hb'. simpl.
    unfold contents. by rewrite HA.
  - intros [] k' (H1 & F1 & D1). rewrite length_seq, <- Hn, <- Hws, firstn_all in D1. by apply HQ.
Qed.

Lemma unpins_app A l l' : unpins A (l ++ l') = unpins (unpins A l) l'.
Proof. apply foldl_app. Qed.

Lemma unpin_ne A blk x : x <> blk -> unpin A blk !! x = A !! x.
Proof. intros. unfold unpin. by rewrite lookup_partial_alter_ne. Qed.

Lemma unpins_notin A l x : x ∉ l -> unpins A l !! x = A !! x.
Proof.
  revert A. induction l as [|b l IH]; intros A Hx; [done|]. simpl.
  apply not_elem_of_cons in Hx as [? ?]. unfold unpins in *. simpl. rewrite IH by done.
  by apply unpin_ne.
Qed.

Lemma unpin_None A blk x : A !! x = None -> unpin A blk !! x = None.
Proof.
  intros H. unfold unpin. rewrite lookup_partial_alter. case_decide; [subst|done]. by rewrite H.
Qed.

Lemma unpins_None A l x : A !! x = None -> unpins A l !! x = None.
Proof.
  revert A. induction l as [|b l IH]; intros A Hx; [done|]. unfold unpins in *. simpl.
  by apply IH, unpin_None.
Qed.

Lemma size_unpins A l : (size (unpins A l) <= size A)%nat.
Proof.
  rewrite <- !size_dom. apply subseteq_size. intros x. rewrite !elem_of_dom.
  intros Hs. destruct (A !! x) as [a|] eqn:E; [eauto|]. rewrite unpins_None in Hs by done.
  by destruct Hs.
Qed.

Lemma dwrites_notin d ws x : x ∉ ws.*1 -> dwrites d ws x = d x.
Proof.
  revert d. induction ws as [|[y v] ws IH]; intros d Hx; [done|]. unfold dwrites in *. simpl in *.
  apply not_elem_of_cons in Hx as [? ?]. rewrite IH by done. unfold dwrite. simpl.
  by destruct (Z.eqb_spec x y).
Qed.

Lemma home_writes_keys bl data : (home_writes bl data).*1 = bl.
Proof. unfold home_writes. rewrite <- list_fmap_compose. apply list_fmap_id. Qed.

Lemma take_keys n (ws : list (Z * list Z)) : (take n ws).*1 = take n ws.*1.
Proof. apply fmap_take. Qed.

Lemma wp_install_trans0 k me pr A start bl data Q :
  commit_ready k me pr A start bl ->
  (forall blk a, blk ∈ bl -> A !! blk = Some a -> a_data a = data blk) ->
  (forall i blk, bl !! i = Some blk -> d_blocks (k_disk k) (start + Z.of_nat i + 1) = data blk) ->
  (forall k', bio_ok k' me pr (unpins A bl) -> bio_frame me k k' ->
     k_disk k' = disk_add (home_writes bl data) (k_disk k) -> Q tt k') ->
  wp (install_trans 0) Q k.
Proof.
  intros [Hok Hlog Hh Hbl Hnd Hhome Hfree Hroom Hlen] Hdat Hdisk HQ. unfold install_trans. wp_steps.
  set (ws := home_writes bl data) in *.
  assert (Hn : length bl = Z.to_nat (lh_n (l_lh (k_log k)))) by (by rewrite <- Hbl, length_lh_list).
  assert (Hws : length ws = length bl) by (apply length_fmap).
  eapply wp_mono; [apply (wp_for_each _ _ (fun i k' =>
    bio_ok k' me pr (unpins A (take i bl)) /\ bio_frame me k k' /\
    k_disk k' = disk_add (take i ws) (k_disk k)))|].
  - split; [done|]. split; [apply bio_frame_refl|]. by rewrite disk_add_nil.
  - intros i x k' [-> Hi]%lookup_seq (H1 & F1 & D1). cbn [Nat.add].
    apply wp_bind, wp_gets. cbn beta.
    rewrite (bf_log _ _ _ F1). destruct Hlog as (Hdev & Hst & Hs0 & Hs1). rewrite Hdev, Hst.
    destruct (lh_list_Some _ _ Hh Hi) as (blk & Hb & Hb' & Hbr). rewrite Hb. rewrite Hbl in Hb'.
    assert (Hin : blk ∈ bl) by (by eapply list_elem_of_lookup_2).
    destruct (Hhome blk Hin) as (Hb0 & Hout & a & HA & Hl & Hr).
    change (u32 ROOTDEV) with ROOTDEV. destruct Hh as [Hnn _ _].
    rewrite (u32_small (start + _ + _)) by lia.
    assert (Hxo : ~ outside start (start + Z.of_nat i + 1)) by (unfold outside; lia).
    assert (Hnot : blk ∉ take i bl).
    { intros (j & Hj)%list_elem_of_lookup. rewrite lookup_take_Some in Hj. destruct Hj as [Hj ?].
      pose proof (NoDup_lookup _ _ _ _ Hnd Hj Hb'). lia. }
    eapply (wp_install_pinned _ _ _ _ _ _ blk a); try done.
    + apply u32_small. lia.
    + by apply unpins_None, Hfree.
    + pose proof (size_unpins A (take i bl)). lia.
    + by rewrite unpins_notin.
    + rewrite D1. simpl. rewrite dwrites_notin; [by rewrite (Hdisk _ _ Hb'), (Hdat blk a)|].
      rewrite take_keys. unfold ws. rewrite home_writes_keys. intros (j & Hj)%list_elem_of_lookup.
      rewrite lookup_take_Some in Hj. destruct Hj as [Hj%list_elem_of_lookup_2 _].
      by destruct (Hhome _ Hj) as (_ & ? & _).
    + intros k2 H2 F2 D2. rewrite (take_S_r _ _ _ Hb'), unpins_app.
      split; [done|]. split; [eauto using bio_frame_trans|].
      rewrite D2, D1, disk_add_app. f_equal.
      rewrite (take_S_r _ _ (blk, a_data a)); [done|].
      unfold ws, home_writes. rewrite list_lookup_fmap, Hb'. simpl. by rewrite (Hdat blk a).
  - intros [] k' (H1 & F1 & D1). rewrite length_seq, <- Hn, firstn_all in H1.
    rewrite length_seq, <- Hn, <- Hws, firstn_all in D1. by apply HQ.
Qed.

(** *** Commit *)

Lemma bio_ok_set_log hs k me pr A f :
  bio_at hs k me pr A -> bio_at hs (set_k_log f k) me pr A.
Proof. intros []. by constructor. Qed.

Lemma bio_frame_set_log me k k' f :
  bio_frame me k k' -> bio_frame me (set_k_log f k) (set_k_log f k').
Proof. intros []. constructor; try done. simpl. congruence. Qed.

Lemma commit_ready_frame k me pr A start bl k' :
  commit_ready k me pr A start bl -> bio_ok k' me pr A -> bio_frame me k k' ->
  length (d_blocks (k_disk k') start) = Z.to_nat BSIZE -> commit_ready k' me pr A start bl.
Proof.
  intros [] ? F ?. pose proof (bf_log _ _ _ F) as E. constructor; try done; by rewrite E.
Qed.

Lemma head_ok_n lh n : head_ok lh -> 0 <= n < LOGSIZE -> head_ok (set_lh_n (fun _ => n) lh).
Proof. intros [] ?. by constructor. Qed.

Lemma log_writes_keys start bl data x :
  x ∈ (log_writes start bl data).*1 -> start < x <= start + Z.of_nat (length bl).
Proof.
  intros (w & -> & Hw)%list_elem_of_fmap. apply list_elem_of_lookup in Hw as (i & Hi).
  unfold log_writes in Hi. rewrite list_lookup_imap in Hi.
  apply fmap_Some in Hi as (b & Hb%lookup_lt_Some & ->). simpl. lia.
Qed.

Lemma log_writes_at d start bl data i blk :
  bl !! i = Some blk -> dwrites d (log_writes start bl data) (start + Z.of_nat i + 1) = data blk.
Proof.
  unfold log_writes, dwrites. revert d i. induction bl as [|b bl IH] using rev_ind; intros d i; [done|].
  rewrite imap_app, foldl_app. simpl. rewrite Nat.add_0_r.
  destruct (decide (i < length bl)%nat).
  - rewrite lookup_app_l by done. intros Hi. unfold dwrite. simpl.
    rewrite (proj2 (Z.eqb_neq _ _)) by lia. by apply IH.
  - intros Hi. pose proof (lookup_lt_Some _ _ _ Hi) as Hlt. rewrite length_app in Hlt. simpl in Hlt.
    assert (i = length bl) as -> by lia. rewrite list_lookup_middle in Hi by done.
    injection Hi as ->. unfold dwrite. simpl. by rewrite Z.eqb_refl.
Qed.

(** The writes that [commit] makes, with the header [h1] that commits and the
    header [h0] that clears the log. *)
Definition commit_writes (start : Z) (bl : list Z) (data : Z -> list Z) (h1 h0 : list Z) :
    list (Z * list Z) :=
  log_writes start bl data ++ [(start, h1)] ++ home_writes bl data ++ [(start, h0)].

Lemma wp_commit k me pr A start bl Q :
  commit_ready k me pr A start bl -> bl <> [] ->
  (forall k' h1 h0, bio_ok k' me pr (unpins A bl) ->
     bio_frame me (set_k_log (set_l_lh (set_lh_n (fun _ => 0))) k) k' ->
     head_blocks h1 = bl -> head_blocks h0 = [] -> get_int 0 h0 = 0 ->
     length h1 = Z.to_nat BSIZE -> length h0 = Z.to_nat BSIZE ->
     k_disk k' = disk_add (commit_writes start bl (contents A (d_blocks (k_disk k))) h1 h0) (k_disk k) ->
     Q tt k') ->
  wp commit Q k.
Proof.
  intros Hr Hne HQ. pose proof Hr as [Hok Hlog Hh Hbl Hnd Hhome Hfree Hroom Hlen].
  assert (Hn : Z.of_nat (length bl) = lh_n (l_lh (k_log k))).
  { rewrite <- Hbl, length_lh_list by done. destruct Hh; lia. }
  assert (Hn0 : 0 < lh_n (l_lh (k_log k)) < LOGSIZE).
  { destruct Hh. destruct bl; [done|]. simpl in Hn. lia. }
  unfold commit. wp_steps. rewrite (proj2 (Z.ltb_lt _ _)) by lia. wp_steps.
  set (data := contents A (d_blocks (k_disk k))) in *.
  eapply wp_write_log; [exact Hr|]. intros k1 H1 F1 D1. fold data in D1. wp_steps.
  assert (Hs1 : d_blocks (k_disk k1) start = d_blocks (k_disk k) start).
  { rewrite D1. simpl. apply dwrites_notin. intros Hx%log_writes_keys. lia. }
  pose proof (bf_log _ _ _ F1) as L1.
  eapply wp_write_head; [exact H1|by rewrite L1|by rewrite L1|apply Hfree; unfold outside; lia|done|by rewrite Hs1|].
  intros k2 h1 Eh1 H2 F2 D2. wp_steps. rewrite Hs1, L1 in Eh1.
  destruct (store_head_spec _ _ Hh Hlen) as (h1' & Eh1' & Hl1 & Hg1 & Hb1).
  rewrite Eh1 in Eh1'. injection Eh1' as <-.
  assert (Hs2 : d_blocks (k_disk k2) start = h1).
  { rewrite D2. simpl. unfold dwrite. simpl. by rewrite Z.eqb_refl. }
  assert (F12 : bio_frame me k k2) by eauto using bio_frame_trans.
  eapply (wp_install_trans0 _ _ _ _ _ _ data); [eapply commit_ready_frame; [exact Hr|..]; try done; by rewrite Hs2| | |].
  { intros blk a _ HA. unfold data, contents. by rewrite HA. }
  { intros i blk Hi. rewrite D2. simpl. unfold dwrite. simpl.
    rewrite (proj2 (Z.eqb_neq _ _)) by lia. rewrite D1. simpl. by apply log_writes_at. }
  intros k3 H3 F3 D3. unfold set_n. wp_steps.
  assert (F13 : bio_frame me k k3) by eauto using bio_frame_trans.
  pose proof (bf_log _ _ _ F13) as L3.
  assert (Hs3 : d_blocks (k_disk k3) start = h1).
  { rewrite D3. simpl. rewrite dwrites_notin; [done|]. rewrite home_writes_keys.
    intros Hx. destruct (Hhome _ Hx) as (_ & Hout & _). unfold outside in Hout.
    unfold LOGSIZE, MAXOPBLOCKS in *. lia. }
  eapply wp_write_head.
  { apply bio_ok_set_log. exact H3. }
  { simpl. by rewrite L3. }
  { simpl. rewrite L3. apply head_ok_n; [done|unfold LOGSIZE, MAXOPBLOCKS; lia]. }
  { apply unpins_None, Hfree. unfold outside. lia. }
  { pose proof (size_unpins A bl). lia. }
  { simpl. by rewrite Hs3. }
  intros k4 h0 Eh0 H4 F4 D4. simpl in Eh0, D4. rewrite Hs3, L3 in Eh0.
  destruct (store_head_spec (set_lh_n (fun _ => 0) (l_lh (k_log k))) h1) as (h0' & Eh0' & Hl0 & Hg0 & Hb0).
  { apply head_ok_n; [done|unfold LOGSIZE, MAXOPBLOCKS; lia]. }
  { done. }
  change (store_head (set_lh_n (fun _ => 0) (l_lh (k_log k))) h1 = Some h0) in Eh0.
  rewrite Eh0 in Eh0'. injection Eh0' as <-.
  eapply (HQ k4 h1 h0); try done.
  - eapply bio_frame_trans; [|exact F4]. by apply bio_frame_set_log.
  - congruence.
  - rewrite D4, D3, D2, D1, !disk_add_app. unfold commit_writes. by rewrite ?app_assoc.
Qed.

(** *** Recovery *)

(** The log on the disk is one that [commit] can have left. *)
Record log_sane (start : Z) (d : Z -> list Z) : Prop := mkSane {
  ls_len : length (d start) = Z.to_nat BSIZE;
  ls_n : 0 <= get_int 0 (d start) < LOGSIZE;
  ls_home : forall blk, blk ∈ head_blocks (d start) -> 0 <= blk /\ outside start blk
}.

Lemma length_head_blocks b : length (head_blocks b) = Z.to_nat (get_int 0 b).
Proof. unfold head_blocks. by rewrite length_fmap, length_seq. Qed.

Lemma wp_read_head k me pr A start Q :
  bio_ok k me pr A -> log_at (k_log k) start -> head_ok (l_lh (k_log k)) ->
  log_sane start (d_blocks (k_disk k)) -> A !! start = None -> (size A < NBUF)%nat ->
  (forall k' lh, bio_ok k' me pr A ->
     bio_frame me (set_k_log (set_l_lh (fun _ => lh)) k) k' ->
     k_disk k' = k_disk k -> head_ok lh -> lh_n lh = get_int 0 (d_blocks (k_disk k) start) ->
     lh_list lh = head_blocks (d_blocks (k_disk k) start) -> Q tt k') ->
  wp read_head Q k.
Proof.
  intros Hok (Hdev & Hst & Hs0 & Hs1) Hh [Hlen Hn _] HA Hsz HQ. unfold read_head. wp_steps.
  rewrite Hdev, Hst. change (u32 ROOTDEV) with ROOTDEV.
  rewrite u32_small by (unfold LOGSIZE, MAXOPBLOCKS in *; lia).
  eapply wp_bread_new; [done..|]. intros k1 i H1 F1 D1. wp_steps.
  eapply (wp_bdata _ _ _ _ _ start (mkABlock i _ _ _)); [exact H1|apply lookup_insert_eq|].
  wp_steps. cbn [a_data]. destruct Hh as [_ Hl Hi].
  destruct (load_head_spec (d_blocks (k_disk k) start) (l_lh (k_log k))) as (lh & -> & En & El & Hlh);
    [lia|done|done|]. wp_steps.
  eapply (wp_brelse _ _ _ _ start (mkABlock i _ _ _));
    [apply bio_ok_set_log; exact H1|apply lookup_insert_eq|done| |].
  { intros _. simpl. by rewrite D1. }
  intros k2 H2 F2 D2. unfold unref in H2. simpl in H2. rewrite delete_insert_id in H2 by done.
  apply (HQ k2 lh); try done; [|by rewrite D2|apply Hlh; lia].
  eapply bio_frame_trans; [|exact F2]. by apply bio_frame_set_log.
Qed.

Lemma installs_keys start d bl : Forall (fun b => 0 <= b < 2 ^ 31) bl -> (installs start d bl).*1 = bl.
Proof.
  intros Hf. apply list_eq. intros i. rewrite list_lookup_fmap. unfold installs.
  rewrite list_lookup_imap. destruct (bl !! i) as [b|] eqn:E; [|done]. simpl. f_equal.
  rewrite Forall_lookup in Hf. apply u32_small. pose proof (Hf _ _ E). lia.
Qed.

Lemma wp_install_trans1 k me pr A start Q :
  bio_ok k me pr A -> log_at (k_log k) start -> head_ok (l_lh (k_log k)) ->
  log_sane start (d_blocks (k_disk k)) ->
  lh_list (l_lh (k_log k)) = head_blocks (d_blocks (k_disk k) start) ->
  (forall x, ~ outside start x \/ x ∈ head_blocks (d_blocks (k_disk k) start) -> A !! x = None) ->
  (S (size A) < NBUF)%nat ->
  (forall k', bio_ok k' me pr A -> bio_frame me k k' ->
     k_disk k' = disk_add (installs start (d_blocks (k_disk k)) (head_blocks (d_blocks (k_disk k) start)))
                   (k_disk k) -> Q tt k') ->
  wp (install_trans 1) Q k.
Proof.
  intros Hok Hlog Hh [Hlen Hdn Hhome] Hbl HA Hsz HQ. unfold install_trans. wp_steps.
  set (bl := head_blocks (d_blocks (k_disk k) start)) in *.
  set (ws := installs start (d_blocks (k_disk k)) bl) in *.
  assert (Hn : length bl = Z.to_nat (lh_n (l_lh (k_log k)))) by (by rewrite <- Hbl, length_lh_list).
  assert (Hws : length ws = length bl) by (apply length_imap).
  assert (Hk : ws.*1 = bl).
  { apply installs_keys. apply Forall_lookup. intros j b Hj. split.
    - apply Hhome. by eapply list_elem_of_lookup_2.
    - unfold bl, head_blocks in Hj. rewrite list_lookup_fmap in Hj.
      apply fmap_Some in Hj as (x & _ & ->). apply i32_range. }
  eapply wp_mono; [apply (wp_for_each _ _ (fun i k' =>
    bio_ok k' me pr A /\ bio_frame me k k' /\ k_disk k' = disk_add (take i ws) (k_disk k)))|].
  - split; [done|]. split; [apply bio_frame_refl|]. by rewrite disk_add_nil.
  - intros i x k' [-> Hi]%lookup_seq (H1 & F1 & D1). cbn [Nat.add].
    apply wp_bind, wp_gets. cbn beta.
    rewrite (bf_log _ _ _ F1). destruct Hlog as (Hdev & Hst & Hs0 & Hs1). rewrite Hdev, Hst.
    destruct (lh_list_Some _ _ Hh Hi) as (blk & Hb & Hb' & Hbr). rewrite Hb. rewrite Hbl in Hb'.
    assert (Hin : blk ∈ bl) by (by eapply list_elem_of_lookup_2).
    destruct (Hhome blk Hin) as (Hb0 & Hout). destruct Hh as [Hnn _ _].
    change (u32 ROOTDEV) with ROOTDEV. rewrite (u32_small (start + _ + _)) by lia.
    assert (Hxo : ~ outside start (start + Z.of_nat i + 1)) by (unfold outside; lia).
    eapply (wp_install_boot _ _ _ _ _ _ blk); try done.
    + apply u32_small. lia.
    + apply HA. by left.
    + apply HA. by right.
    + intros <-. done.
    + intros k2 H2 F2 D2. split; [done|]. split; [eauto using bio_frame_trans|].
      rewrite D2, D1, disk_add_app. f_equal. symmetry. apply take_S_r.
      unfold ws at 1, installs. rewrite list_lookup_imap, Hb'. simpl. f_equal. f_equal.
      * symmetry. rewrite u32_small; lia.
      * rewrite dwrites_notin; [done|]. rewrite take_keys, Hk. intros (j & Hj)%list_elem_of_lookup.
        rewrite lookup_take_Some in Hj. destruct Hj as [Hj%list_elem_of_lookup_2 _].
        by destruct (Hhome _ Hj).
  - intros [] k' (H1 & F1 & D1). rewrite length_seq, <- Hn, <- Hws, firstn_all in D1. by apply HQ.
Qed.

Lemma wp_recover_from_log k me pr A start Q :
  bio_ok k me pr A -> log_at (k_log k) start -> head_ok (l_lh (k_log k)) ->
  log_sane start (d_blocks (k_disk k)) ->
  (forall x, ~ outside start x \/ x ∈ head_blocks (d_blocks (k_disk k) start) -> A !! x = None) ->
  (S (size A) < NBUF)%nat ->
  (forall k' lh h0, bio_ok k' me pr A ->
     bio_frame me (set_k_log (set_l_lh (fun _ => lh)) k) k' -> head_ok lh -> lh_n lh = 0 ->
     length h0 = Z.to_nat BSIZE -> get_int 0 h0 = 0 ->
     k_disk k' = disk_add (installs start (d_blocks (k_disk k)) (head_blocks (d_blocks (k_disk k) start)) ++
                           [(start, h0)]) (k_disk k) -> Q tt k') ->
  wp recover_from_log Q k.
Proof.
  intros Hok Hlog Hh Hsane HA Hsz HQ. unfold recover_from_log. wp_steps.
  assert (Hst0 : A !! start = None).
  { apply HA. left. unfold outside, LOGSIZE, MAXOPBLOCKS. lia. }
  eapply wp_read_head; [done|done|done|done|done|lia|].
  intros k1 lh H1 F1 D1 Hlh En El. wp_steps.
  pose proof (bf_log _ _ _ F1) as L1. simpl in L1.
  assert (Hlog1 : log_at (k_log k1) start) by (by rewrite L1).
  eapply (wp_install_trans1 k1 me pr A start); rewrite ?D1, ?L1; try done.
  intros k2 H2 F2 D2. unfold set_n. wp_steps.
  pose proof (bf_log _ _ _ F2) as L2. rewrite L1 in L2.
  assert (Hs2 : d_blocks (k_disk k2) start = d_blocks (k_disk k) start).
  { rewrite D2. simpl. apply dwrites_notin. rewrite installs_keys.
    - intros Hx. destruct Hsane as [_ _ Hhome]. destruct (Hhome _ Hx) as [_ Hout].
      unfold outside, LOGSIZE, MAXOPBLOCKS in Hout. lia.
    - rewrite <- El. apply Forall_lookup. intros j b Hj. split.
      + destruct Hsane as [_ _ Hhome]. apply Hhome. rewrite <- El. by eapply list_elem_of_lookup_2.
      + unfold lh_list in Hj. rewrite lookup_take_Some in Hj. destruct Hj as [Hj _].
        destruct Hlh as [_ _ Hf]. rewrite Forall_lookup in Hf. apply (Hf _ _ Hj). }
  assert (Hlh0 : head_ok (set_lh_n (fun _ => 0) lh)) by (apply head_ok_n; [done|unfold LOGSIZE, MAXOPBLOCKS; lia]).
  assert (Hl0 : length (d_blocks (k_disk k) start) = Z.to_nat BSIZE) by apply Hsane.
  eapply (wp_write_head _ me pr A start);
    [apply bio_ok_set_log; exact H2|simpl; by rewrite L2|simpl; by rewrite L2|done|lia|simpl; by rewrite Hs2|].
  intros k3 h0 Eh0 H3 F3 D3. simpl in Eh0, D3. rewrite Hs2, L2 in Eh0.
  change (store_head (set_lh_n (fun _ => 0) lh) (d_blocks (k_disk k) start) = Some h0) in Eh0.
  destruct (store_head_spec _ _ Hlh0 Hl0) as (h0' & Eh0' & Hlen0 & Hg0 & _).
  rewrite Eh0 in Eh0'. injection Eh0' as <-.
  apply (HQ k3 (set_lh_n (fun _ => 0) lh) h0); try done.
  - eapply bio_frame_trans; [|exact F3].
    apply (bio_frame_set_log _ _ _ (set_l_lh (set_lh_n (fun _ => 0)))) in F1.
    eapply bio_frame_trans; [exact F1|]. by apply bio_frame_set_log.
  - by rewrite D3, D2, disk_add_app.
Qed.

Lemma bio_ok_initlock hs k me pr A l name :
  bio_at hs k me pr A -> l ∉ hs ->
  bio_at hs (set_k_core (set_c_spin (fun t x => if decide (x = l) then mkSpin 0 name None else t x)) k) me pr A.
Proof.
  intros [[] ? ?] Hl. constructor; simpl; try done. constructor; simpl; try done.
  - intros x Hx. rewrite decide_False by congruence. auto.
  - intros x Hx. destruct (decide _); [done|auto].
Qed.

Lemma wp_initlog k me pr sb Q :
  bio_ok k me pr ∅ -> head_ok (l_lh (k_log k)) ->
  0 <= sb_logstart sb -> sb_logstart sb + LOGSIZE + 1 < 2 ^ 31 ->
  log_sane (sb_logstart sb) (d_blocks (k_disk k)) ->
  (forall k' lh h0, bio_ok k' me pr ∅ -> head_ok lh -> lh_n lh = 0 ->
     bio_frame me (set_k_log (fun l => mkLog (sb_logstart sb) (i32 (sb_nlog sb)) (l_outstanding l)
                                (l_committing l) ROOTDEV lh) k) k' ->
     length h0 = Z.to_nat BSIZE -> get_int 0 h0 = 0 ->
     k_disk k' = disk_add (installs (sb_logstart sb) (d_blocks (k_disk k))
                             (head_blocks (d_blocks (k_disk k) (sb_logstart sb))) ++
                           [(sb_logstart sb, h0)]) (k_disk k) -> Q tt k') ->
  wp (initlog ROOTDEV sb) Q k.
Proof.
  intros Hok Hh Hs0 Hs1 Hsane HQ. unfold initlog. simpl. unfold initlock, upd_spin. wp_steps.
  assert (E32 : i32 (sb_logstart sb) = sb_logstart sb)
    by (apply i32_small; unfold LOGSIZE, MAXOPBLOCKS in *; lia).
  eapply (wp_recover_from_log _ me pr ∅ (sb_logstart sb)).
  - do 3 apply bio_ok_set_log. apply bio_ok_initlock; [done|set_solver].
  - unfold log_at. simpl. rewrite E32. split_ands; try done; lia.
  - done.
  - done.
  - done.
  - apply Nat.ltb_lt. reflexivity.
  - intros k' lh h0 H1 F1 Hlh En Hl0 Hg0 D1. apply (HQ k' lh h0); try done.
    simpl in F1. rewrite E32 in F1. destruct F1 as [[]]. by constructor.
Qed.

(** ** Crashes *)

Lemma dwrites_app d ws ws' : dwrites d (ws ++ ws') = dwrites (dwrites d ws) ws'.
Proof. apply foldl_app. Qed.

(** The last write to a block wins. *)
Lemma dwrites_home d bl data x :
  dwrites d (home_writes bl data) x = if decide (x ∈ bl) then data x else d x.
Proof.
  revert d. induction bl as [|b bl IH]; intros d; [done|].
  change (dwrites (dwrite d (b, data b)) (home_writes bl data) x =
          if decide (x ∈ b :: bl) then data x else d x).
  rewrite IH. unfold dwrite. simpl. destruct (Z.eqb_spec x b) as [->|Hne].
  - rewrite (decide_True (P := b ∈ b :: bl)) by left. by destruct (decide _).
  - destruct (decide (x ∈ bl)) as [H|H].
    + by rewrite decide_True by (by right).
    + by rewrite decide_False by (by intros [?|?]%elem_of_cons).
Qed.

(** Writes that only touch the log, except for its header, do not change what the
    disk means when the header commits to nothing. *)
Lemma recovered_nil start d : head_blocks (d start) = [] -> recovered start d = d.
Proof. intros H. unfold recovered. by rewrite H. Qed.

Lemma head_blocks_zero b : get_int 0 b = 0 -> head_blocks b = [].
Proof. intros H. unfold head_blocks. by rewrite H. Qed.

(** The home writes of the log's own transaction. *)
Lemma installs_home start d bl data :
  Forall (fun b => 0 <= b < 2 ^ 31) bl ->
  (forall i blk, bl !! i = Some blk -> d (start + Z.of_nat i + 1) = data blk) ->
  installs start d bl = home_writes bl data.
Proof.
  intros Hf Hd. apply list_eq. intros i. unfold installs, home_writes.
  rewrite list_lookup_imap, list_lookup_fmap. destruct (bl !! i) as [b|] eqn:E; [|done].
  simpl. do 2 f_equal; [|by apply Hd]. apply u32_small. rewrite Forall_lookup in Hf.
  pose proof (Hf _ _ E). lia.
Qed.

Section prefix.
Context (start : Z) (bl : list Z) (data : Z -> list Z) (h1 h0 : list Z) (d : Z -> list Z).
Hypothesis Hbl : Forall (fun b => 0 <= b < 2 ^ 31 /\ outside start b) bl.
Hypothesis Hlen : (length bl < Z.to_nat LOGSIZE)%nat.
Hypothesis Hd : get_int 0 (d start) = 0.
Hypothesis Hdl : length (d start) = Z.to_nat BSIZE.
Hypothesis Hh1 : head_blocks h1 = bl.
Hypothesis Hh1l : length h1 = Z.to_nat BSIZE.
Hypothesis Hh1n : get_int 0 h1 = Z.of_nat (length bl).
Hypothesis Hh0 : get_int 0 h0 = 0.
Hypothesis Hh0l : length h0 = Z.to_nat BSIZE.

Let start_out : ~ outside start start.
Proof. unfold outside, LOGSIZE, MAXOPBLOCKS. lia. Qed.

Let home_out b : b ∈ bl -> outside start b.
Proof. rewrite Forall_forall in Hbl. intros H. by apply Hbl. Qed.

Let bl_small : Forall (fun b => 0 <= b < 2 ^ 31) bl.
Proof. eapply Forall_impl; [exact Hbl|]. by intros b [? ?]. Qed.

Let log_keys x : x ∈ (log_writes start bl data).*1 -> ~ outside start x.
Proof. intros H%log_writes_keys. unfold outside, LOGSIZE, MAXOPBLOCKS in *. lia. Qed.

Let log_keys_start : start ∉ (log_writes start bl data).*1.
Proof. intros H%log_writes_keys. lia. Qed.

(** Before the header is written. *)
Lemma prefix_log j x :
  let d' := dwrites d (take j (log_writes start bl data)) in
  log_sane start d' /\ (outside start x -> recovered start d' x = d x).
Proof.
  intros d'.
  assert (Hs : d' start = d start).
  { apply dwrites_notin. rewrite take_keys. intros H%elem_of_take. destruct H as (i & H & _).
    by apply list_elem_of_lookup_2 in H. }
  split.
  - constructor; rewrite ?Hs; try done.
    + rewrite Hd. unfold LOGSIZE, MAXOPBLOCKS. lia.
    + rewrite head_blocks_zero by done. set_solver.
  - intros Hx. rewrite recovered_nil by (by rewrite Hs; apply head_blocks_zero).
    apply dwrites_notin. rewrite take_keys. intros H%elem_of_take. destruct H as (i & H & _).
    apply list_elem_of_lookup_2 in H. by apply (log_keys x).
Qed.

(** Once it is. *)
Lemma prefix_home j x :
  let d' := dwrites (dwrite (dwrites d (log_writes start bl data)) (start, h1))
              (take j (home_writes bl data)) in
  log_sane start d' /\
  (outside start x -> recovered start d' x = if decide (x ∈ bl) then data x else d x).
Proof.
  intros d'.
  assert (Hnt : forall y, ~ outside start y -> y ∉ (take j (home_writes bl data)).*1).
  { intros y Hy. rewrite take_keys, home_writes_keys. intros H%elem_of_take. destruct H as (i & H & _).
    apply list_elem_of_lookup_2 in H. by apply Hy, home_out. }
  assert (Hs : d' start = h1).
  { unfold d'. rewrite dwrites_notin by auto. unfold dwrite. simpl. by rewrite Z.eqb_refl. }
  split.
  - constructor; rewrite ?Hs, ?Hh1; try done; [unfold LOGSIZE, MAXOPBLOCKS in *; lia|]. rewrite Forall_forall in Hbl.
    intros b Hb. destruct (Hbl b Hb). split; [lia|done].
  - intros Hx. unfold recovered. rewrite Hs, Hh1.
    rewrite (installs_home _ _ _ data), dwrites_home; [|done|].
    + destruct (decide (x ∈ bl)) as [|Hni]; [done|]. unfold d'. rewrite dwrites_notin.
      * unfold dwrite. simpl. rewrite (proj2 (Z.eqb_neq _ _)) by (by intros ->).
        apply dwrites_notin. intros H. by apply (log_keys x).
      * rewrite take_keys, home_writes_keys. intros H%elem_of_take. destruct H as (i & H & _).
        by apply list_elem_of_lookup_2 in H.
    + intros i b Hb. unfold d'. pose proof (lookup_lt_Some _ _ _ Hb). rewrite dwrites_notin.
      * unfold dwrite. simpl. rewrite (proj2 (Z.eqb_neq _ _)) by lia. by apply log_writes_at.
      * apply Hnt. unfold outside. lia.
Qed.

(** Every prefix of the writes of a commit. *)
Lemma prefix_commit j x :
  let d' := dwrites d (take j (commit_writes start bl data h1 h0)) in
  log_sane start d' /\
  (outside start x ->
   recovered start d' x = if decide ((length bl < j)%nat /\ x ∈ bl) then data x else d x).
Proof.
  set (n := length bl). assert (Hn : length (log_writes start bl data) = n) by (apply length_imap).
  assert (Hm : length (home_writes bl data) = n) by (apply length_fmap).
  unfold commit_writes. destruct (decide (j <= n)%nat) as [Hj|Hj].
  - rewrite take_app_le by lia. destruct (prefix_log j x) as [H1 H2]. split; [done|].
    intros Hx. rewrite decide_False by lia. auto.
  - rewrite take_app_ge, Hn by lia. rewrite dwrites_app.
    destruct (j - n)%nat as [|m] eqn:Em; [lia|]. cbn [take app].
    destruct (decide (m <= n)%nat) as [Hmn|Hmn].
    + rewrite take_app_le by lia. cbn. destruct (prefix_home m x) as [H1 H2]. split; [done|].
      intros Hx. etransitivity; [by apply H2|].
      destruct (decide (x ∈ bl)); [rewrite decide_True by (split; [lia|done])|rewrite decide_False by tauto]; done.
    + rewrite take_ge by len. cbn. rewrite foldl_app. cbn.
      set (d1 := foldl dwrite _ (home_writes bl data)) in *.
      assert (Hs : dwrite d1 (start, h0) start = h0).
      { unfold dwrite. simpl. by rewrite Z.eqb_refl. }
      split.
      * constructor; rewrite ?Hs; try done; [rewrite Hh0; unfold LOGSIZE, MAXOPBLOCKS; lia|].
        rewrite head_blocks_zero by done. set_solver.
      * intros Ho. rewrite recovered_nil by (by rewrite Hs; apply head_blocks_zero).
        unfold dwrite at 1. simpl. rewrite (proj2 (Z.eqb_neq _ _)) by (by intros ->).
        unfold d1. change (foldl dwrite ?a ?b) with (dwrites a b). rewrite dwrites_home.
        destruct (decide (x ∈ bl)); [rewrite decide_True by (split; [lia|done])|rewrite decide_False by tauto]; [done|].
        unfold dwrite. simpl. rewrite (proj2 (Z.eqb_neq _ _)) by (by intros ->).
        apply dwrites_notin. intros H. by apply (log_keys x).
Qed.
End prefix.

Lemma dwrites_agree d d' ws x :
  x ∈ ws.*1 \/ d x = d' x -> dwrites d ws x = dwrites d' ws x.
Proof.
  revert d d'. induction ws as [|[y v] ws IH]; intros d d' H; simpl in *.
  - destruct H as [H|H]; [by apply not_elem_of_nil in H|done].
  - apply IH. unfold dwrite. simpl. destruct (Z.eqb_spec x y); [by right|].
    destruct H as [[->|H]%elem_of_cons|H]; auto. done.
Qed.

(** Every prefix of the writes of a recovery means what the disk meant before. *)
Lemma prefix_recovery start d h0 j x :
  log_sane start d -> get_int 0 h0 = 0 -> length h0 = Z.to_nat BSIZE ->
  let d' := dwrites d (take j (installs start d (head_blocks (d start)) ++ [(start, h0)])) in
  log_sane start d' /\ (outside start x -> recovered start d' x = recovered start d x).
Proof.
  intros [Hlen Hn Hhome] H0 H0l. set (bl := head_blocks (d start)). set (ws := installs start d bl).
  assert (Hso : ~ outside start start) by (unfold outside, LOGSIZE, MAXOPBLOCKS; lia).
  assert (Hk : ws.*1 = bl).
  { apply installs_keys. apply Forall_lookup. intros i b Hi. split.
    - apply Hhome. by eapply list_elem_of_lookup_2.
    - unfold bl, head_blocks in Hi. rewrite list_lookup_fmap in Hi.
      apply fmap_Some in Hi as (y & _ & ->). apply i32_range. }
  assert (Hlog : forall m y, ~ outside start y -> dwrites d (take m ws) y = d y).
  { intros m y Hy. apply dwrites_notin. rewrite take_keys, Hk. intros H%elem_of_take.
    destruct H as (i & H & _). apply list_elem_of_lookup_2 in H. by apply Hy, Hhome. }
  destruct (decide (j <= length ws)%nat) as [Hj|Hj].
  - rewrite take_app_le by done. simpl. set (d' := dwrites d (take j ws)).
    assert (Hs : d' start = d start) by (by apply Hlog).
    split; [constructor; rewrite ?Hs; done|]. intros Hx. unfold recovered. rewrite Hs. fold bl.
    replace (installs start d' bl) with ws; last first.
    { unfold ws, installs. apply imap_ext. intros i b Hi. simpl. f_equal. symmetry.
      apply Hlog. pose proof (lookup_lt_Some _ _ _ Hi) as Hlt. unfold bl in Hlt.
      rewrite length_head_blocks in Hlt. unfold outside. lia. }
    apply dwrites_agree. destruct (decide (x ∈ ws.*1)) as [|Hni]; [by left|right].
    apply dwrites_notin. rewrite take_keys. intros H%elem_of_take. destruct H as (i & H & _).
    by apply list_elem_of_lookup_2 in H.
  - rewrite take_ge by len. rewrite dwrites_app. cbn. set (d1 := dwrites d ws).
    assert (Hs : dwrite d1 (start, h0) start = h0).
    { unfold dwrite. simpl. by rewrite Z.eqb_refl. }
    split.
    + constructor; rewrite ?Hs; try done; [rewrite H0; unfold LOGSIZE, MAXOPBLOCKS; lia|].
      rewrite head_blocks_zero by done. set_solver.
    + intros Hx. rewrite recovered_nil by (by rewrite Hs; apply head_blocks_zero).
      unfold dwrite at 1. simpl. by rewrite (proj2 (Z.eqb_neq _ _)) by (by intros ->).
Qed.

(** A kernel that boots: nothing is cached and the header in memory is zeroed. *)
Definition fresh (k : kernel) (me : nat) (pr : proc) (d : Z -> list Z) : Prop :=
  bio_ok k me pr ∅ /\ head_ok (l_lh (k_log k)) /\ d_blocks (k_disk k) = d.

(** The system boots over the disk [d], recovers, and crashes after some of the
    writes that recovery makes, leaving the disk [d']. *)
Definition crashed_boot (sb : superblock) (d d' : Z -> list Z) : Prop :=
  exists k me pr k' ws j, fresh k me pr d /\ initlog ROOTDEV sb k = Ok tt k' /\
    k_disk k' = disk_add ws (k_disk k) /\ d' = dwrites d (take j ws).

Definition sb_ok (sb : superblock) : Prop :=
  0 <= sb_logstart sb /\ sb_logstart sb + LOGSIZE + 1 < 2 ^ 31.

(** What [initlog] does when it is not interrupted, and at every write. *)
Lemma recovery_run sb k me pr d :
  sb_ok sb -> fresh k me pr d -> log_sane (sb_logstart sb) d ->
  exists k' ws, initlog ROOTDEV sb k = Ok tt k' /\ bio_ok k' me pr ∅ /\
    k_disk k' = disk_add ws (k_disk k) /\
    get_int 0 (d_blocks (k_disk k') (sb_logstart sb)) = 0 /\
    (forall x, outside (sb_logstart sb) x ->
       d_blocks (k_disk k') x = recovered (sb_logstart sb) d x) /\
    (forall j, log_sane (sb_logstart sb) (dwrites d (take j ws)) /\
       forall x, outside (sb_logstart sb) x ->
       recovered (sb_logstart sb) (dwrites d (take j ws)) x = recovered (sb_logstart sb) d x).
Proof.
  intros [Hs0 Hs1] (Hok & Hh & Hd) Hsane. rewrite <- Hd in *.
  assert (Hso : ~ outside (sb_logstart sb) (sb_logstart sb)) by (unfold outside, LOGSIZE, MAXOPBLOCKS; lia).
  assert (H : wp (initlog ROOTDEV sb) (fun _ k' => exists h0, bio_ok k' me pr ∅ /\
    length h0 = Z.to_nat BSIZE /\ get_int 0 h0 = 0 /\
    k_disk k' = disk_add (installs (sb_logstart sb) (d_blocks (k_disk k))
      (head_blocks (d_blocks (k_disk k) (sb_logstart sb))) ++ [(sb_logstart sb, h0)]) (k_disk k)) k).
  { eapply wp_initlog; eauto 10. }
  destruct (wp_ok _ _ _ H) as ([] & k' & E & h0 & H1 & Hl0 & Hg0 & D1).
  exists k', (installs (sb_logstart sb) (d_blocks (k_disk k))
      (head_blocks (d_blocks (k_disk k) (sb_logstart sb))) ++ [(sb_logstart sb, h0)]).
  split; [done|]. split; [done|]. split; [done|]. split; [|split].
  - rewrite D1. simpl. rewrite dwrites_app. cbn. unfold dwrite at 1. simpl. by rewrite Z.eqb_refl.
  - intros x Hx. rewrite D1. simpl. rewrite dwrites_app. cbn. unfold dwrite at 1. simpl.
    by rewrite (proj2 (Z.eqb_neq _ _)) by (by intros ->).
  - intros j. split; [by apply (prefix_recovery _ _ _ j 0)|].
    intros x Hx. by apply prefix_recovery.
Qed.

(** However often recovery is interrupted, the disk means the same. *)
Lemma crashed_boots_recovered sb d d' :
  sb_ok sb -> rtc (crashed_boot sb) d d' -> log_sane (sb_logstart sb) d ->
  log_sane (sb_logstart sb) d' /\
  forall x, outside (sb_logstart sb) x ->
    recovered (sb_logstart sb) d' x = recovered (sb_logstart sb) d x.
Proof.
  intros Hsb Hr. induction Hr as [d|d1 d2 d3 Hstep _ IH]; intros Hsane; [done|].
  destruct Hstep as (k & me & pr & k' & ws & j & Hf & E & D & ->).
  destruct (recovery_run sb k me pr d1 Hsb Hf Hsane) as (k2 & ws2 & E2 & _ & D2 & _ & _ & Hp).
  rewrite E in E2. injection E2 as <-.
  assert (ws2 = ws) as -> by (rewrite D in D2; injection D2 as _ E2; by apply app_inv_head in E2).
  destruct (Hp j) as [Hs Hrec]. destruct (IH Hs) as [Hs3 Hrec3]. split; [done|].
  intros x Hx. by rewrite Hrec3, Hrec.
Qed.

(** ** Writing through the log *)

Definition add_block (bl : list Z) (blk : Z) : list Z :=
  if decide (blk ∈ bl) then bl else bl ++ [blk].

Lemma absorb_spec bl n blk :
  (n <= length bl)%nat -> Forall (fun b => 0 <= b < 2 ^ 31) (take n bl) ->
  (blk ∈ take n bl -> (absorb bl n blk < n)%nat /\ bl !! absorb bl n blk = Some blk) /\
  (blk ∉ take n bl -> absorb bl n blk = n).
Proof.
  revert n. induction bl as [|b bl IH]; intros [|n] Hn Hf; simpl in *; try lia.
  - split; [by intros ?%elem_of_nil|done].
  - split; [by intros ?%elem_of_nil|done].
  - apply Forall_cons in Hf as [Hb Hf]. rewrite (u32_small b) by lia.
    destruct (IH n ltac:(lia) Hf) as [IH1 IH2]. destruct (Z.eqb_spec b blk) as [->|Hne].
    + split; [split; [lia|done]|]. intros []. left.
    + split.
      * intros [?|H]%elem_of_cons; [done|]. destruct (IH1 H). split; [lia|done].
      * intros [_ H]%not_elem_of_cons. by rewrite IH2.
Qed.

(** The header with the block recorded. *)
Lemma record_block lh blk :
  head_ok lh -> lh_n lh < LOGSIZE - 1 -> Forall (fun b => 0 <= b < 2 ^ 31) (lh_list lh) ->
  0 <= blk < 2 ^ 31 ->
  let i := absorb (lh_block lh) (Z.to_nat (lh_n lh)) blk in
  let lh' := mkLogheader (if Z.of_nat i =? lh_n lh then lh_n lh + 1 else lh_n lh)
               (<[i := i32 blk]> (lh_block lh)) in
  (Z.of_nat i =? lh_n lh) = negb (bool_decide (blk ∈ lh_list lh)) /\
  head_ok lh' /\ lh_list lh' = add_block (lh_list lh) blk.
Proof.
  intros [Hn Hl Hi] Hlt Hf Hblk. rewrite (i32_small blk) by lia.
  destruct (absorb_spec (lh_block lh) (Z.to_nat (lh_n lh)) blk) as [H1 H2];
    [rewrite Hl; lia|exact Hf|].
  fold (lh_list lh) in H1, H2. intros i. unfold add_block.
  assert (Hint : Forall (fun b => - 2 ^ 31 <= b < 2 ^ 31) (<[i := blk]> (lh_block lh)))
    by (apply Forall_insert; [done|lia]).
  destruct (decide (blk ∈ lh_list lh)) as [Hin|Hin].
  - destruct (H1 Hin) as [H3 H4]. fold i in H3, H4. rewrite bool_decide_true by done.
    assert (E : (Z.of_nat i =? lh_n lh) = false) by (apply Z.eqb_neq; lia). rewrite E.
    split; [done|]. rewrite list_insert_id by done. split; [by constructor|done].
  - specialize (H2 Hin). fold i in H2. rewrite bool_decide_false by done.
    assert (E : (Z.of_nat i =? lh_n lh) = true) by (apply Z.eqb_eq; lia). rewrite E.
    split; [done|]. split; [constructor; simpl; [lia|len|done]|].
    unfold lh_list. simpl. rewrite H2. replace (Z.to_nat (lh_n lh + 1)) with (S (Z.to_nat (lh_n lh))) by lia.
    rewrite (take_S_r _ _ blk) by (apply list_lookup_insert_eq; lia).
    by rewrite take_insert_ge by lia.
Qed.

Lemma wp_log_write k me pr A blk a Q :
  bio_ok k me pr A -> A !! blk = Some a -> a_refs a + 1 < 2 ^ 32 -> 0 <= blk < 2 ^ 31 ->
  head_ok (l_lh (k_log k)) -> Forall (fun b => 0 <= b < 2 ^ 31) (lh_list (l_lh (k_log k))) ->
  l_size (k_log k) <= LOGSIZE -> lh_n (l_lh (k_log k)) < l_size (k_log k) - 1 ->
  1 <= l_outstanding (k_log k) ->
  (forall k' lh', head_ok lh' -> lh_list lh' = add_block (lh_list (l_lh (k_log k))) blk ->
     bio_ok k' me pr
       (if decide (blk ∈ lh_list (l_lh (k_log k))) then A
        else <[blk := mkABlock (a_idx a) (a_refs a + 1) (a_lock a) (a_data a)]> A) ->
     bio_frame me (set_k_log (set_l_lh (fun _ => lh')) k) k' -> k_disk k' = k_disk k -> Q tt k') ->
  wp (log_write (a_idx a)) Q k.
Proof.
  intros Hok HA Hr Hblk Hh Hf Hn Hsz Hout HQ. unfold log_write. wp_steps.
  pose proof Hok as [Hc Hp Hrel].
  eapply wp_acquire; [exact Hc|simpl; lia|set_solver|]. intros c1 H1 Hs1. wp_steps. simpl.
  rewrite (proj2 (Z.leb_gt _ _)), (proj2 (Z.leb_gt _ _)), (proj2 (Z.ltb_ge _ _)) by lia. simpl.
  assert (Hok1 : bio_at [LLog] (with_core k c1) me pr A).
  { constructor; [done|by simpl; rewrite (sb_procs _ _ Hs1)|]. simpl. by rewrite (sb_sleep _ _ Hs1). }
  assert (F1 : bio_frame me k (with_core k c1)) by (by apply same_but_locks_frame).
  wp_steps. eapply wp_bblockno; [exact Hok1|exact HA|]. wp_steps. simpl.
  destruct (record_block _ _ Hh ltac:(lia) Hf Hblk) as (Ei & Hh' & Hl').
  set (i := absorb _ _ _) in *. rewrite Ei in *.
  destruct (decide (blk ∈ lh_list (l_lh (k_log k)))) as [Hin|Hin].
  - rewrite bool_decide_true in * by done. simpl. wp_steps.
    eapply (wp_release _ me LLog [] 0); [exact H1|]. intros c2 H2 Hs2. simpl in Hs2.
    eapply HQ; [exact Hh'|exact Hl'| | |done].
    + constructor; [done|simpl; by rewrite (sb_procs _ _ Hs2), (sb_procs _ _ Hs1)|].
      simpl. by rewrite (sb_sleep _ _ Hs2), (sb_sleep _ _ Hs1).
    + pose proof (same_but_locks_trans _ _ _ Hs1 Hs2) as Hs.
      constructor; try done; simpl; [by apply same_core_frame|]. intros j. by rewrite (sb_sleep _ _ Hs).
  - rewrite bool_decide_false in * by done. simpl. wp_steps.
    eapply (wp_bpin [LLog] _ me pr A blk a);
      [apply bio_ok_set_log; exact Hok1|set_solver|simpl; lia|done|done|].
    intros k2 [Hc2 Hp2 Hrel2] F2 D2. wp_steps.
    eapply (wp_release _ me LLog [] 0); [exact Hc2|]. intros c3 H3 Hs3. simpl in Hs3.
    eapply HQ; [exact Hh'|exact Hl'| | |done].
    + constructor; [done|simpl; by rewrite (sb_procs _ _ Hs3)|]. simpl. by rewrite (sb_sleep _ _ Hs3).
    + destruct F2. simpl in *.
      constructor; try done; simpl.
      * eapply core_frame_trans; [by apply same_core_frame|].
        eapply core_frame_trans; [exact bf_core|by apply same_core_frame].
      * intros j. by rewrite (sb_sleep _ _ Hs3), bf_inodes, (sb_sleep _ _ Hs1).
      * by rewrite bf_log.
Qed.

(** *** The operations *)

Lemma bio_at_core k me pr A hs c' :
  bio_ok k me pr A -> core_ok c' me hs -> core_frame me (k_core k) c' ->
  c_sleep c' = c_sleep (k_core k) -> bio_at hs (with_core k c') me pr A.
Proof.
  intros [Hc Hp Hr] Hc' Hf Hs. constructor; [done|by eapply frame_proc|]. simpl. by rewrite Hs.
Qed.

(** [begin_op] when the log has room. *)
Lemma wp_begin_op k me pr A Q :
  bio_ok k me pr A -> l_committing (k_log k) = 0 ->
  lh_n (l_lh (k_log k)) + (l_outstanding (k_log k) + 1) * MAXOPBLOCKS <= LOGSIZE ->
  (forall k', bio_ok k' me pr A ->
     bio_frame me (set_k_log (set_l_outstanding (fun o => o + 1)) k) k' -> k_disk k' = k_disk k ->
     Q tt k') ->
  wp begin_op Q k.
Proof.
  intros Hok Hc Hn HQ. unfold begin_op. wp_steps. pose proof Hok as [Hco _ _].
  eapply wp_acquire; [exact Hco|simpl; lia|set_solver|]. intros c1 H1 Hs1. wp_steps. simpl.
  rewrite Hc. simpl. rewrite (proj2 (Z.ltb_ge _ _)) by lia. wp_steps.
  eapply (wp_release _ me LLog [] 0); [exact H1|]. intros c2 H2 Hs2. simpl in Hs2.
  pose proof (same_but_locks_trans _ _ _ Hs1 Hs2) as Hs. apply HQ; [| |done].
  - apply (bio_ok_set_log _ (with_core k c2)). apply bio_at_core; auto. by apply sb_sleep.
  - constructor; try done; simpl; [by apply same_core_frame|]. intros i. by rewrite (sb_sleep _ _ Hs).
Qed.

(** [begin_op] when it has not: the caller sleeps on the log. *)
Lemma waits_begin_op k me pr A :
  bio_ok k me pr A ->
  l_committing (k_log k) <> 0 \/
  LOGSIZE < lh_n (l_lh (k_log k)) + (l_outstanding (k_log k) + 1) * MAXOPBLOCKS ->
  waits begin_op (Sleeping ChanLog) (fun k' => exists c', k' = with_core k c' /\
    core_ok c' me [LProc me] /\
    c_procs c' = <[me := set_p_state (fun _ => SLEEPING) (set_p_chan (fun _ => ChanLog) pr)]>
                   (c_procs (k_core k))) k.
Proof.
  intros [Hco Hp _] Hn. unfold begin_op. wp_steps.
  eapply wp_acquire; [exact Hco|simpl; lia|set_solver|]. intros c1 H1 Hs1. wp_steps. simpl.
  assert (Hsl : waits (sleep ChanLog LLog) (Sleeping ChanLog) (fun k' => exists c', k' = with_core k c' /\
    core_ok c' me [LProc me] /\
    c_procs c' = <[me := set_p_state (fun _ => SLEEPING) (set_p_chan (fun _ => ChanLog) pr)]>
                   (c_procs (k_core k))) (with_core k c1)).
  { eapply waits_sleep; [exact H1|done|simpl; by rewrite (sb_procs _ _ Hs1)|].
    intros c2 H2 _ _ E. exists c2. split; [done|]. split; [done|]. simpl in E. by rewrite E, (sb_procs _ _ Hs1). }
  destruct Hn as [Hn|Hn].
  - unfold truthy. rewrite (proj2 (Z.eqb_neq _ _)) by done. exact Hsl.
  - destruct (truthy _); [exact Hsl|]. rewrite (proj2 (Z.ltb_lt _ _)) by lia. exact Hsl.
Qed.

Lemma commit_ready_set_log k me pr A start bl f :
  commit_ready k me pr A start bl ->
  l_start (f (k_log k)) = l_start (k_log k) -> l_dev (f (k_log k)) = l_dev (k_log k) ->
  l_lh (f (k_log k)) = l_lh (k_log k) -> commit_ready (set_k_log f k) me pr A start bl.
Proof.
  intros [] E1 E2 E3. constructor; simpl; rewrite ?E3; try done; [by apply bio_ok_set_log|].
  unfold log_at in *. by rewrite E1, E2.
Qed.

Lemma commit_ready_core k me pr A start bl c' :
  commit_ready k me pr A start bl -> core_ok c' me [] -> core_frame me (k_core k) c' ->
  c_sleep c' = c_sleep (k_core k) -> commit_ready (with_core k c') me pr A start bl.
Proof. intros [] ? ? ?. constructor; try done. by apply bio_at_core. Qed.

(** The block writes of a commit. *)
Definition commit_trace (start : Z) (bl : list Z) (data : Z -> list Z) (ws : list (Z * list Z)) : Prop :=
  bl = [] /\ ws = [] \/
  exists h1 h0, ws = commit_writes start bl data h1 h0 /\
    head_blocks h1 = bl /\ get_int 0 h1 = Z.of_nat (length bl) /\ get_int 0 h0 = 0 /\
    length h1 = Z.to_nat BSIZE /\ length h0 = Z.to_nat BSIZE.

Lemma head_blocks_n b bl : bl <> [] -> head_blocks b = bl -> get_int 0 b = Z.of_nat (length bl).
Proof.
  intros Hne <-. rewrite length_head_blocks, Z2Nat.id; [done|].
  destruct (decide (0 <= get_int 0 b)); [done|]. exfalso. apply Hne.
  unfold head_blocks. by rewrite Z2Nat.nonpos by lia.
Qed.

Lemma wp_commit_any k me pr A start bl Q :
  commit_ready k me pr A start bl ->
  (forall k' ws, bio_ok k' me pr (unpins A bl) ->
     bio_frame me (set_k_log (set_l_lh (set_lh_n (fun _ => 0))) k) k' ->
     commit_trace start bl (contents A (d_blocks (k_disk k))) ws ->
     k_disk k' = disk_add ws (k_disk k) -> Q tt k') ->
  wp commit Q k.
Proof.
  intros Hr HQ. destruct (decide (bl = [])) as [->|Hne].
  - destruct Hr as [Hok _ Hh Hbl _ _ _ _ _].
    assert (E : lh_n (l_lh (k_log k)) = 0).
    { pose proof (length_lh_list _ Hh) as Hl. rewrite Hbl in Hl. destruct Hh. simpl in Hl. lia. }
    unfold commit. wp_steps. rewrite E. simpl. wp_steps. apply (HQ k []); [done| |by left|by rewrite disk_add_nil].
    destruct k as [co bc dk [st sz out cm dvn [n b]] sb it ft pi ph ti im dv]. simpl in E. subst n.
    apply bio_frame_refl.
  - eapply wp_commit; [exact Hr|exact Hne|].
    intros k' h1 h0 Hk F E1 _ E0 L1 L0 D. eapply HQ; [exact Hk|exact F| |exact D].
    right. exists h1, h0. split_ands; try done. by apply head_blocks_n.
Qed.

(** [end_op] of the last operation commits. *)
Lemma wp_end_op_last k me pr A start bl Q :
  commit_ready k me pr A start bl ->
  l_outstanding (k_log k) = 1 -> l_committing (k_log k) = 0 ->
  (forall k' ws, bio_ok k' me pr (unpins A bl) ->
     bio_frame me (set_k_log (fun l => mkLog (l_start l) (l_size l) 0 0 (l_dev l)
                                (set_lh_n (fun _ => 0) (l_lh l))) k) k' ->
     commit_trace start bl (contents A (d_blocks (k_disk k))) ws ->
     k_disk k' = disk_add ws (k_disk k) -> Q tt k') ->
  wp end_op Q k.
Proof.
  intros Hr Hout Hcom HQ. unfold end_op. wp_steps. pose proof (cr_bio _ _ _ _ _ _ Hr) as [Hco _ _].
  eapply wp_acquire; [exact Hco|simpl; lia|set_solver|]. intros c1 H1 Hs1. wp_steps. simpl.
  rewrite Hcom, Hout. simpl. wp_steps.
  eapply (wp_release _ me LLog [] 0); [exact H1|]. intros c2 H2 Hs2. simpl in Hs2. wp_steps.
  pose proof (same_but_locks_trans _ _ _ Hs1 Hs2) as Hs.
  assert (Hr2 : commit_ready (with_core k c2) me pr A start bl).
  { apply commit_ready_core; auto. by apply sb_sleep. }
  apply (fun H => commit_ready_set_log _ _ _ _ _ _ (set_l_outstanding (fun o => o - 1)) H eq_refl eq_refl eq_refl) in Hr2.
  apply (fun H => commit_ready_set_log _ _ _ _ _ _ (set_l_committing (fun _ => 1)) H eq_refl eq_refl eq_refl) in Hr2.
  eapply wp_commit_any; [exact Hr2|].
  intros k3 ws H3 F3 Ht D3. wp_steps. pose proof H3 as [Hc3 Hp3 Hr3].
  eapply (wp_acquire _ me [] 0); [exact Hc3|simpl; lia|set_solver|]. intros c4 H4 Hs4. wp_steps.
  eapply (wp_wakeup _ me [LLog] 0); [exact H4|simpl; lia|set_solver|].
  intros c5 H5 E1 E2 E3 E4 E5. simpl in *. wp_steps.
  eapply (wp_release _ me LLog [] 0); [exact H5|]. intros c6 H6 Hs6. simpl in Hs6.
  assert (F45 : core_frame me (k_core k3) c6).
  { eapply core_frame_trans; [by apply same_core_frame|].
    eapply core_frame_trans; [|by apply same_core_frame]. by apply (woken_frame ChanLog). }
  assert (Esl : c_sleep c6 = c_sleep (k_core k3)).
  { by rewrite (sb_sleep _ _ Hs6), E2, (sb_sleep _ _ Hs4). }
  eapply HQ; [| |exact Ht|exact D3].
  - apply (bio_ok_set_log _ (with_core k3 c6)). by apply bio_at_core.
  - destruct F3. simpl in *. constructor; try done; simpl.
    + eapply core_frame_trans; [by apply same_core_frame|]. by eapply core_frame_trans.
    + intros i. by rewrite Esl, bf_inodes, (sb_sleep _ _ Hs).
    + rewrite bf_log. unfold set_l_committing, set_l_outstanding, set_l_lh. simpl. by rewrite Hout.
Qed.

(** [end_op] of another operation leaves the commit to the last. *)
Lemma wp_end_op_more k me pr A Q :
  bio_ok k me pr A -> 1 < l_outstanding (k_log k) -> l_committing (k_log k) = 0 ->
  (forall k', bio_ok k' me pr A ->
     bio_frame me (set_k_log (set_l_outstanding (fun o => o - 1)) k) k' -> k_disk k' = k_disk k ->
     c_procs (k_core k') = woken ChanLog me (c_procs (k_core k)) -> Q tt k') ->
  wp end_op Q k.
Proof.
  intros Hok Hout Hcom HQ. unfold end_op. wp_steps. pose proof Hok as [Hco _ _].
  eapply wp_acquire; [exact Hco|simpl; lia|set_solver|]. intros c1 H1 Hs1. wp_steps. simpl.
  rewrite Hcom. simpl. rewrite (proj2 (Z.eqb_neq _ _)) by lia. wp_steps.
  eapply (wp_wakeup _ me [LLog] 0); [exact H1|simpl; lia|set_solver|].
  intros c2 H2 E1 E2 E3 E4 E5. simpl in *. wp_steps.
  eapply (wp_release _ me LLog [] 0); [exact H2|]. intros c3 H3 Hs3. simpl in Hs3. wp_steps.
  assert (F : core_frame me (k_core k) c3).
  { eapply core_frame_trans; [by apply same_core_frame|].
    eapply core_frame_trans; [|by apply same_core_frame]. by apply (woken_frame ChanLog). }
  assert (Esl : c_sleep c3 = c_sleep (k_core k)).
  { by rewrite (sb_sleep _ _ Hs3), E2, (sb_sleep _ _ Hs1). }
  apply HQ; [| |done|].
  - apply (bio_ok_set_log _ (with_core k c3)). by apply bio_at_core.
  - constructor; try done; simpl. intros i. by rewrite Esl.
  - simpl. by rewrite (sb_procs _ _ Hs3), E5, (sb_procs _ _ Hs1).
Qed.

(** ** Properties *)

(** C1: crash atomicity of a transaction.  [commit] returns; stop the machine after
    any number [j] of the block writes it makes, boot it again any number of times
    with recovery itself stopped after any number of its writes, and let recovery
    finish at last: it returns, and the disk outside the log then holds all the
    blocks of the transaction when the header had been written ([j] beyond the log
    blocks), and none of them otherwise, and every other block is untouched. *)
Theorem commit_crash_atomic k me pr A sb bl :
  commit_ready k me pr A (sb_logstart sb) bl -> bl <> [] -> sb_ok sb ->
  get_int 0 (d_blocks (k_disk k) (sb_logstart sb)) = 0 ->
  exists k' ws, commit k = Ok tt k' /\ k_disk k' = disk_add ws (k_disk k) /\
    forall j d kb me' pr',
      rtc (crashed_boot sb) (dwrites (d_blocks (k_disk k)) (take j ws)) d -> fresh kb me' pr' d ->
      exists kb', initlog ROOTDEV sb kb = Ok tt kb' /\
        forall x, outside (sb_logstart sb) x ->
          d_blocks (k_disk kb') x =
            if decide ((length bl < j)%nat /\ x ∈ bl)
            then contents A (d_blocks (k_disk k)) x else d_blocks (k_disk k) x.
Proof.
  intros Hr Hne Hsb H0. pose proof Hr as [_ _ Hh Hbl _ Hhome _ _ Hlen].
  assert (H : wp commit (fun _ k' => exists h1 h0, head_blocks h1 = bl /\ get_int 0 h0 = 0 /\
    length h1 = Z.to_nat BSIZE /\ length h0 = Z.to_nat BSIZE /\
    k_disk k' = disk_add (commit_writes (sb_logstart sb) bl (contents A (d_blocks (k_disk k))) h1 h0)
                  (k_disk k)) k).
  { eapply wp_commit; [exact Hr|exact Hne|]. intros k' h1 h0 _ _ E1 _ E0 L1 L0 D. eauto 10. }
  destruct (wp_ok _ _ _ H) as ([] & k' & E & h1 & h0 & E1 & E0 & L1 & L0 & D).
  eexists k', _. split; [exact E|]. split; [exact D|]. intros j d kb me' pr' Hrb Hf.
  assert (Hsm : Forall (fun b => 0 <= b < 2 ^ 31 /\ outside (sb_logstart sb) b) bl).
  { apply Forall_forall. intros b Hb. destruct (Hhome b Hb) as (? & ? & _). split; [|done].
    rewrite <- Hbl in Hb. apply elem_of_take in Hb as (i & Hi & _).
    destruct Hh as [_ _ Hi']. rewrite Forall_lookup in Hi'. pose proof (Hi' _ _ Hi). lia. }
  assert (Hll : (length bl < Z.to_nat LOGSIZE)%nat).
  { rewrite <- Hbl, length_lh_list by done. destruct Hh. lia. }
  assert (Hn1 : get_int 0 h1 = Z.of_nat (length bl)).
  { rewrite <- E1, length_head_blocks, Z2Nat.id; [done|].
    destruct (decide (0 <= get_int 0 h1)); [done|]. exfalso. apply Hne. rewrite <- E1.
    unfold head_blocks. by rewrite Z2Nat.nonpos by lia. }
  pose proof (fun x => prefix_commit (sb_logstart sb) bl (contents A (d_blocks (k_disk k))) h1 h0
    (d_blocks (k_disk k)) Hsm Hll H0 Hlen E1 L1 Hn1 E0 L0 j x) as Hp.
  destruct (crashed_boots_recovered sb _ _ Hsb Hrb (proj1 (Hp 0))) as [Hsane Hrec].
  destruct (recovery_run sb kb me' pr' d Hsb Hf Hsane) as (kb' & ws' & Ei & _ & _ & _ & Hfin & _).
  exists kb'. split; [exact Ei|]. intros x Hx. rewrite Hfin, Hrec by done. by apply (proj2 (Hp x)).
Qed.

(** A transaction with one block: block 45, changed in the cache and pinned, over a
    disk of zeros whose log starts at block 2. *)

Definition zero_disk (_ : Z) : list Z := replicate (Z.to_nat BSIZE) 0.

Definition sample_sb : superblock := mkSb 0x10203040 1000 954 200 30 2 32 45.

Definition sample_log (n out : Z) (bl : list Z) : log :=
  mkLog 2 30 out 0 ROOTDEV (mkLogheader n (bl ++ replicate (Z.to_nat LOGSIZE - length bl) 0)).

Definition one_block_kernel : kernel :=
  set_k_log (fun _ => sample_log 1 0 [45])
    (cached_kernel [(45, [8; 8; 8])] zero_disk (fun _ => 0) sample_image).

Lemma zero_head : get_int 0 (zero_disk 2) = 0 /\ length (zero_disk 2) = Z.to_nat BSIZE.
Proof. split; [vm_compute; reflexivity|apply length_replicate]. Qed.

Lemma sample_head_ok n bl :
  0 <= n < LOGSIZE -> (length bl <= Z.to_nat LOGSIZE)%nat -> Forall (fun b => - 2 ^ 31 <= b < 2 ^ 31) bl ->
  head_ok (mkLogheader n (bl ++ replicate (Z.to_nat LOGSIZE - length bl) 0)).
Proof.
  intros Hn Hl Hf. constructor; cbn [lh_n lh_block]; [done|len|]. apply Forall_app. split; [done|].
  by apply Forall_replicate.
Qed.

Lemma one_block_ready :
  commit_ready one_block_kernel 0 first_proc (cached_store [(45, [8; 8; 8])]) 2 [45].
Proof.
  constructor.
  - apply bio_ok_set_log, cached_ok; [apply NoDup_singleton|apply Nat.leb_le; reflexivity].
  - unfold log_at. simpl. unfold LOGSIZE, MAXOPBLOCKS. lia.
  - apply sample_head_ok; [unfold LOGSIZE, MAXOPBLOCKS; lia|apply Nat.leb_le; reflexivity|].
    apply Forall_singleton. lia.
  - reflexivity.
  - apply NoDup_singleton.
  - intros blk ->%list_elem_of_singleton. split; [lia|]. split; [unfold outside, LOGSIZE, MAXOPBLOCKS; lia|].
    exists (mkABlock 0 1 None [8; 8; 8]). split_ands; try done.
  - intros x Hx. unfold outside, LOGSIZE, MAXOPBLOCKS in Hx.
    unfold cached_store. simpl. rewrite lookup_insert_ne; [apply lookup_empty|lia].
  - apply Nat.ltb_lt. reflexivity.
  - apply zero_head.
Qed.

Lemma fresh_example d : fresh (ready_kernel d (fun _ => 0) sample_image) 0 first_proc d.
Proof.
  split; [apply ready_ok|]. split; [|done].
  apply (sample_head_ok 0 []); [unfold LOGSIZE, MAXOPBLOCKS; lia|apply Nat.leb_le; reflexivity|constructor].
Qed.

(** The machine stops after the log block and the header are written. *)
Lemma commit_crash_atomic_witness :
  exists k' ws kb', commit one_block_kernel = Ok tt k' /\
    initlog ROOTDEV sample_sb (ready_kernel (dwrites zero_disk (take 2 ws)) (fun _ => 0) sample_image)
      = Ok tt kb' /\
    d_blocks (k_disk kb') 45 = [8; 8; 8] /\ d_blocks (k_disk kb') 46 = zero_disk 46.
Proof.
  assert (Hsb : sb_ok sample_sb) by (unfold sb_ok, LOGSIZE, MAXOPBLOCKS; simpl; lia).
  destruct (commit_crash_atomic one_block_kernel 0 first_proc _ sample_sb [45] one_block_ready
    ltac:(discriminate) Hsb (proj1 zero_head)) as (k' & ws & E & D & H).
  destruct (H 2%nat _ _ _ _ (rtc_refl _ _) (fresh_example _)) as (kb' & Eb & Hx).
  exists k', ws, kb'. split; [exact E|]. split; [exact Eb|]. split.
  - apply (Hx 45). unfold outside, LOGSIZE, MAXOPBLOCKS. simpl. lia.
  - apply (Hx 46). unfold outside, LOGSIZE, MAXOPBLOCKS. simpl. lia.
Defined.

(** C3: recovery.  [initlog] over any disk whose log is one that [commit] can have
    left returns, with the cache empty again; outside the log the disk then holds
    what it meant before (the committed blocks installed, the others untouched);
    the header commits to nothing, so that recovering again changes nothing; and
    after each of its writes the disk still means the same. *)
Theorem recovery_correct sb k me pr d :
  sb_ok sb -> fresh k me pr d -> log_sane (sb_logstart sb) d ->
  exists k' ws, initlog ROOTDEV sb k = Ok tt k' /\ bio_ok k' me pr ∅ /\
    k_disk k' = disk_add ws (k_disk k) /\
    head_blocks (d_blocks (k_disk k') (sb_logstart sb)) = [] /\
    (forall x, outside (sb_logstart sb) x ->
       d_blocks (k_disk k') x = recovered (sb_logstart sb) d x /\
       forall j, recovered (sb_logstart sb) (dwrites d (take j ws)) x = recovered (sb_logstart sb) d x).
Proof.
  intros Hsb Hf Hs. destruct (recovery_run sb k me pr d Hsb Hf Hs) as (k' & ws & E & Hk & D & H0 & Hx & Hp).
  exists k', ws. split_ands; try done; [by apply head_blocks_zero|].
  intros x Ho. split; [auto|]. intros j. by apply Hp.
Qed.

Lemma recovery_correct_witness :
  exists k', initlog ROOTDEV sample_sb (ready_kernel zero_disk (fun _ => 0) sample_image) = Ok tt k' /\
    d_blocks (k_disk k') 45 = zero_disk 45.
Proof.
  assert (Hsb : sb_ok sample_sb) by (unfold sb_ok, LOGSIZE, MAXOPBLOCKS; simpl; lia).
  assert (Hs : log_sane 2 zero_disk).
  { constructor; [apply zero_head|rewrite (proj1 zero_head); unfold LOGSIZE, MAXOPBLOCKS; lia|].
    rewrite head_blocks_zero by apply zero_head. set_solver. }
  destruct (recovery_correct sample_sb _ _ _ _ Hsb (fresh_example zero_disk) Hs)
    as (k' & ws & E & _ & _ & _ & Hx).
  exists k'. split; [exact E|]. rewrite (proj1 (Hx 45 ltac:(unfold outside, LOGSIZE, MAXOPBLOCKS; simpl; lia))).
  unfold recovered. simpl sb_logstart. by rewrite head_blocks_zero by apply zero_head.
Defined.

(** The last [end_op] of a group of operations commits what they logged: it
    writes each block to the log, then the header, then each block to its place,
    then the cleared header, in this order and nothing else; it unpins the blocks
    and leaves the log empty and open for new operations. *)
Theorem end_op_commits k me pr A start bl :
  commit_ready k me pr A start bl ->
  l_outstanding (k_log k) = 1 -> l_committing (k_log k) = 0 ->
  wp end_op (fun _ k' => exists ws,
    commit_trace start bl (contents A (d_blocks (k_disk k))) ws /\
    k_disk k' = disk_add ws (k_disk k) /\ bio_ok k' me pr (unpins A bl) /\
    lh_n (l_lh (k_log k')) = 0 /\ l_outstanding (k_log k') = 0 /\ l_committing (k_log k') = 0) k.
Proof.
  intros Hr Ho Hc. eapply wp_end_op_last; try done. intros k' ws Hk F Ht D. exists ws.
  rewrite (bf_log _ _ _ F). done.
Qed.

Lemma end_op_commits_witness :
  exists k', end_op (set_k_log (fun _ => sample_log 1 1 [45]) one_block_kernel) = Ok tt k' /\
    lh_n (l_lh (k_log k')) = 0.
Proof.
  assert (Hr : commit_ready (set_k_log (fun _ => sample_log 1 1 [45]) one_block_kernel) 0 first_proc
    (cached_store [(45, [8; 8; 8])]) 2 [45]).
  { apply commit_ready_set_log; [apply one_block_ready|reflexivity..]. }
  destruct (wp_ok _ _ _ (end_op_commits _ _ _ _ _ _ Hr eq_refl eq_refl))
    as ([] & k' & E & ws & _ & _ & _ & Hn & _).
  exists k'. exact (conj E Hn).
Defined.

(** An [end_op] that leaves other operations outstanding writes nothing to the
    disk, gives its reservation back and wakes those that wait for log space. *)
Theorem end_op_defers k me pr A :
  bio_ok k me pr A -> 1 < l_outstanding (k_log k) -> l_committing (k_log k) = 0 ->
  wp end_op (fun _ k' => bio_ok k' me pr A /\ k_disk k' = k_disk k /\
    l_lh (k_log k') = l_lh (k_log k) /\
    l_outstanding (k_log k') = l_outstanding (k_log k) - 1 /\
    c_procs (k_core k') = woken ChanLog me (c_procs (k_core k))) k.
Proof.
  intros Hok Ho Hc. eapply wp_end_op_more; try done. intros k' Hk F D Hp.
  rewrite (bf_log _ _ _ F). done.
Qed.

Lemma end_op_defers_witness :
  exists k', end_op (set_k_log (fun _ => sample_log 1 2 [45]) one_block_kernel) = Ok tt k' /\
    l_outstanding (k_log k') = 1.
Proof.
  destruct (wp_ok _ _ _ (end_op_defers (set_k_log (fun _ => sample_log 1 2 [45]) one_block_kernel)
    0 first_proc (cached_store [(45, [8; 8; 8])])
    (bio_ok_set_log _ _ _ _ _ _ (cr_bio _ _ _ _ _ _ one_block_ready)) eq_refl eq_refl))
    as ([] & k' & E & _ & _ & _ & Ho & _).
  exists k'. exact (conj E Ho).
Defined.

(** [begin_op] admits an operation exactly when no commit is running and
    [MAXOPBLOCKS] blocks more than those logged and reserved fit into the header;
    otherwise the caller sleeps on the log, holding no lock but its own. *)
Theorem begin_op_admits k me pr A :
  bio_ok k me pr A ->
  if decide (l_committing (k_log k) = 0 /\
             lh_n (l_lh (k_log k)) + (l_outstanding (k_log k) + 1) * MAXOPBLOCKS <= LOGSIZE)
  then wp begin_op (fun _ k' => bio_ok k' me pr A /\ k_disk k' = k_disk k /\
         k_log k' = set_l_outstanding (fun o => o + 1) (k_log k)) k
  else exists c', begin_op k = Wait (Sleeping ChanLog) (with_core k c') /\
         core_ok c' me [LProc me] /\
         c_procs c' !! me = Some (set_p_state (fun _ => SLEEPING) (set_p_chan (fun _ => ChanLog) pr)).
Proof.
  intros Hok. destruct (decide _) as [[H1 H2]|Hn].
  - eapply wp_begin_op; try done. intros k' Hk F D. by rewrite (bf_log _ _ _ F).
  - assert (H : l_committing (k_log k) <> 0 \/
      LOGSIZE < lh_n (l_lh (k_log k)) + (l_outstanding (k_log k) + 1) * MAXOPBLOCKS).
    { destruct (decide (l_committing (k_log k) = 0)); [right|by left].
      apply Z.nle_gt. tauto. }
    pose proof (waits_begin_op _ _ _ _ Hok H) as Hw. unfold waits in Hw.
    destruct (begin_op k) as [| |w k'| |]; try done. destruct Hw as (-> & c' & -> & Hc & Hp).
    exists c'. split_ands; try done. rewrite Hp. apply list_lookup_insert_eq.
    eapply lookup_lt_Some, (bo_proc _ _ _ _ _ Hok).
Qed.

Lemma begin_op_admits_witness :
  exists k', begin_op one_block_kernel = Ok tt k' /\ l_outstanding (k_log k') = 1.
Proof.
  pose proof (begin_op_admits one_block_kernel 0 first_proc _ (cr_bio _ _ _ _ _ _ one_block_ready)) as H.
  rewrite decide_True in H by (unfold LOGSIZE, MAXOPBLOCKS; simpl; lia).
  destruct (wp_ok _ _ _ H) as ([] & k' & E & _ & _ & L). exists k'. split; [exact E|]. by rewrite L.
Defined.

(** [log_write] of a buffer within a transaction records its block once: a block
    that is already in the header is absorbed, any other is appended and its buffer
    gets a pin, which keeps it in the cache until the commit. *)
Theorem log_write_records k me pr A blk a :
  bio_ok k me pr A -> A !! blk = Some a -> a_refs a + 1 < 2 ^ 32 -> 0 <= blk < 2 ^ 31 ->
  head_ok (l_lh (k_log k)) -> Forall (fun b => 0 <= b < 2 ^ 31) (lh_list (l_lh (k_log k))) ->
  l_size (k_log k) <= LOGSIZE -> lh_n (l_lh (k_log k)) < l_size (k_log k) - 1 ->
  1 <= l_outstanding (k_log k) ->
  wp (log_write (a_idx a)) (fun _ k' =>
    lh_list (l_lh (k_log k')) = add_block (lh_list (l_lh (k_log k))) blk /\ head_ok (l_lh (k_log k')) /\
    bio_ok k' me pr
      (if decide (blk ∈ lh_list (l_lh (k_log k))) then A
       else <[blk := mkABlock (a_idx a) (a_refs a + 1) (a_lock a) (a_data a)]> A) /\
    k_disk k' = k_disk k) k.
Proof.
  intros. eapply wp_log_write; try done. intros k' lh' Hh Hl Hk F D.
  rewrite (bf_log _ _ _ F). done.
Qed.

Lemma log_write_records_witness :
  exists k', log_write 0 (set_k_log (fun _ => sample_log 0 1 []) one_block_kernel) = Ok tt k' /\
    lh_list (l_lh (k_log k')) = [45].
Proof.
  destruct (wp_ok _ _ _ (log_write_records (set_k_log (fun _ => sample_log 0 1 []) one_block_kernel)
    0 first_proc (cached_store [(45, [8; 8; 8])]) 45 (mkABlock 0 1 None [8; 8; 8])
    (bio_ok_set_log _ _ _ _ _ _ (cr_bio _ _ _ _ _ _ one_block_ready)) eq_refl eq_refl
    ltac:(lia) (sample_head_ok 0 [] ltac:(unfold LOGSIZE, MAXOPBLOCKS; lia) (le_0_n _) (Forall_nil_2 _))
    (Forall_nil_2 _) ltac:(vm_compute; discriminate) eq_refl ltac:(simpl; lia)))
    as ([] & k' & E & Hl & _).
  exists k'. exact (conj E Hl).
Defined.

(** Three operations, admitted together, that log [MAXOPBLOCKS] blocks each. *)
Definition three_full_ops : K unit :=
  begin_op ;* begin_op ;* begin_op ;*
  for_each (seq 0 (3 * Z.to_nat MAXOPBLOCKS)) (fun i =>
    let* b := bread ROOTDEV (100 + Z.of_nat i) in
    log_write b ;*
    brelse b).

(** [n] blocks logged, one pin each, nobody holding any. *)
Definition logged (k : kernel) (me : nat) (pr : proc) (n : nat) : Prop :=
  exists A, bio_ok k me pr A /\ size A = n /\
    (forall x, A !! x <> None -> 100 <= x < 100 + Z.of_nat n) /\
    l_size (k_log k) = LOGSIZE /\ 1 <= l_outstanding (k_log k) /\
    head_ok (l_lh (k_log k)) /\ lh_n (l_lh (k_log k)) = Z.of_nat n /\
    Forall (fun b => 100 <= b < 100 + Z.of_nat n) (lh_list (l_lh (k_log k))).

Lemma for_each_app {W S X} (l l' : list X) (body : X -> M W S unit) s :
  for_each (l ++ l') body s = (for_each l body ;* for_each l' body) s.
Proof.
  revert s. induction l as [|x l IH]; intros s; [done|]. simpl. unfold M_bind in *.
  by destruct (body x s).
Qed.

Lemma wp_log_one k me pr n Q :
  logged k me pr n -> (n < 29)%nat ->
  (forall k', logged k' me pr (S n) -> Q tt k') ->
  wp (let* b := bread ROOTDEV (100 + Z.of_nat n) in log_write b ;* brelse b) Q k.
Proof.
  intros (A & Hok & Hsz & Hin & Hls & Hlo & Hh & Hn & Hf) Hlt HQ.
  set (blk := 100 + Z.of_nat n).
  assert (HA : A !! blk = None).
  { destruct (A !! blk) eqn:E; [|done]. assert (100 <= blk < 100 + Z.of_nat n) by (apply Hin; by rewrite E).
    unfold blk in *. lia. }
  assert (Hnin : blk ∉ lh_list (l_lh (k_log k))).
  { intros Hx. rewrite Forall_forall in Hf. apply Hf in Hx. unfold blk in Hx. lia. }
  wp_steps. eapply wp_bread_new; [exact Hok|exact HA|unfold NBUF; lia|].
  intros k1 i H1 F1 D1. wp_steps. pose proof (bf_log _ _ _ F1) as L1.
  eapply (wp_log_write _ _ _ _ blk (mkABlock i _ _ _)); rewrite ?L1;
    [exact H1|apply lookup_insert_eq|done|unfold blk; lia|done| |rewrite Hls; done
    |unfold LOGSIZE, MAXOPBLOCKS in *; lia|done|].
  { eapply Forall_impl; [exact Hf|]. simpl. lia. }
  intros k2 lh2 Hh2 Hl2 H2 F2 D2. rewrite decide_False in H2 by done. simpl in H2.
  rewrite insert_insert_eq in H2. wp_steps.
  eapply (wp_brelse _ _ _ _ blk (mkABlock i _ _ _)); [exact H2|apply lookup_insert_eq|done|done|].
  intros k3 H3 F3 D3. unfold unref in H3. simpl in H3. rewrite insert_insert_eq in H3.
  apply HQ. eexists. split; [exact H3|]. pose proof (bf_log _ _ _ F3) as L3.
  pose proof (bf_log _ _ _ F2) as L2. rewrite L3, L2. simpl. rewrite L1.
  unfold add_block in Hl2. rewrite decide_False in Hl2 by done.
  split_ands; try done.
  - by rewrite map_size_insert_None, Hsz.
  - intros x Hx. destruct (decide (x = blk)) as [->|Hne]; [unfold blk; lia|].
    rewrite lookup_insert_ne in Hx by done. apply Hin in Hx. lia.
  - apply (f_equal length) in Hl2. rewrite length_app, !length_lh_list in Hl2 by done. simpl in Hl2.
    destruct Hh2, Hh. lia.
  - rewrite Hl2. apply Forall_app. split; [|apply Forall_singleton; unfold blk; lia].
    eapply Forall_impl; [exact Hf|]. simpl. lia.
Qed.

(** C38: the reservation of [begin_op] is one block short of what [log_write] accepts
    on the log that mkfs makes ([nlog = LOGSIZE], of which one block is the header):
    three operations that keep to their [MAXOPBLOCKS] blocks are admitted together
    and the last of their blocks panics with "too big a transaction". *)
Theorem log_reservation_one_short :
  three_full_ops (set_k_log (fun _ => sample_log 0 0 []) (ready_kernel zero_disk (fun _ => 0) sample_image))
  = Panic "too big a transaction".
Proof.
  unfold three_full_ops. set (k0 := set_k_log _ _).
  assert (Hok : bio_ok k0 0 first_proc ∅) by (apply bio_ok_set_log, ready_ok).
  enough (H : panics (begin_op ;* begin_op ;* begin_op ;*
    for_each (seq 0 (3 * Z.to_nat MAXOPBLOCKS)) (fun i =>
      let* b := bread ROOTDEV (100 + Z.of_nat i) in log_write b ;* brelse b))
    "too big a transaction" k0) by exact H.
  wp_steps. eapply wp_begin_op; [exact Hok|done|simpl; unfold LOGSIZE, MAXOPBLOCKS; lia|].
  intros k1 H1 F1 _. wp_steps. pose proof (bf_log _ _ _ F1) as L1.
  eapply wp_begin_op; [exact H1|by rewrite L1|rewrite L1; simpl; unfold LOGSIZE, MAXOPBLOCKS; lia|].
  intros k2 H2 F2 _. wp_steps. pose proof (bf_log _ _ _ F2) as L2. simpl in L2. rewrite L1 in L2.
  eapply wp_begin_op; [exact H2|by rewrite L2|rewrite L2; simpl; unfold LOGSIZE, MAXOPBLOCKS; lia|].
  intros k3 H3 F3 _. pose proof (bf_log _ _ _ F3) as L3. simpl in L3. rewrite L2 in L3.
  replace (seq 0 (3 * Z.to_nat MAXOPBLOCKS)) with (seq 0 29 ++ [29%nat]) by reflexivity.
  unfold panics. rewrite for_each_app. change (panics (for_each (seq 0 29) (fun i =>
    let* b := bread ROOTDEV (100 + Z.of_nat i) in log_write b ;* brelse b) ;*
    for_each [29%nat] (fun i => let* b := bread ROOTDEV (100 + Z.of_nat i) in log_write b ;* brelse b))
    "too big a transaction" k3).
  apply panics_bind. eapply wp_mono; [apply (wp_for_each _ _ (fun i k => logged k 0 first_proc i))|].
  - exists ∅. rewrite L3. split_ands; try done.
    + apply (sample_head_ok 0 []); [unfold LOGSIZE, MAXOPBLOCKS; lia|apply Nat.leb_le; reflexivity|constructor].
  - intros i x k [-> Hi]%lookup_seq Hl. by eapply wp_log_one.
  - intros [] k4 (A & Hk4 & Hsz & Hin & Hls & Hlo & Hh & Hn & _). apply panics_bind_l.
    rewrite length_seq in *. apply panics_bind. eapply wp_bread_new; [exact Hk4| |rewrite Hsz; apply Nat.ltb_lt; reflexivity|].
    { destruct (A !! _) eqn:E; [|done]. assert (100 <= 100 + Z.of_nat 29 < 100 + Z.of_nat 29) by (apply Hin; by rewrite E).
      lia. }
    intros k5 i H5 F5 _. apply panics_bind_l. unfold log_write. wp_steps. pose proof H5 as [Hc5 _ _].
    eapply wp_acquire; [exact Hc5|simpl; lia|set_solver|]. intros c6 H6 Hs6. wp_steps. simpl.
    rewrite (bf_log _ _ _ F5), Hn, Hls. reflexivity.
Qed.
