(* ===== verification/Txn.v ===== *)
(** * Transactions over blocks: what fs.c relies on log.c and bio.c for

    A process inside a file system operation sees the blocks of the disk as the
    operations of its transaction have left them, holds some of them locked, and
    writes a bounded set of them.  The class [TxnLaws] says what [bread],
    [log_write] and [brelse] promise to such a process; the theorems on fs.c are
    proved from it alone.  The predicate [txn] is its implementation by the log and
    the buffer cache, and [wp_txn_begin] and [wp_txn_end] say how a transaction
    begins and that its end makes the view the contents of the disk. *)

From S2P Require Import Prelude State Spin Sleep Bio Log.

(** ** The interface *)

(** A block held locked: its buffer, and whether it was changed since it was read or
    logged. *)
Abbreviation held_map := (gmap Z (nat * bool)).

(** The view with another block. *)
Definition vset (blk : Z) (dt : list Z) (V : Z -> list Z) : Z -> list Z :=
  fun x => if decide (x = blk) then dt else V x.

(** What the operations on blocks leave alone. *)
Record fs_frame (me : nat) (k k' : kernel) : Prop := mkFsFrame {
  ff_core : core_frame me (k_core k) (k_core k');
  ff_inodes : forall i, c_sleep (k_core k') (SInode i) = c_sleep (k_core k) (SInode i);
  ff_sb : k_sb k' = k_sb k;
  ff_itable : k_itable k' = k_itable k;
  ff_ftable : k_ftable k' = k_ftable k;
  ff_pipes : k_pipes k' = k_pipes k;
  ff_phys : k_phys k' = k_phys k;
  ff_ticks : k_ticks k' = k_ticks k;
  ff_img : k_img k' = k_img k
}.

(** [T k me pr V W held]: in the state [k], the process [me] sees the blocks [V],
    holds [held], and may write the blocks [W]. *)
Class TxnLaws (T : kernel -> nat -> proc -> (Z -> list Z) -> gset Z -> held_map -> Prop) : Prop := {
  tx_core k me pr V W h : T k me pr V W h ->
    core_ok (k_core k) me [] /\ c_procs (k_core k) !! me = Some pr;
  tx_bread k me pr V W h blk Q :
    T k me pr V W h -> h !! blk = None -> (size W + size h < NBUF)%nat ->
    (forall k' i, T k' me pr V W (<[blk := (i, false)]> h) -> fs_frame me k k' -> Q i k') ->
    wp (bread ROOTDEV blk) Q k;
  tx_bdata k me pr V W h blk x Q :
    T k me pr V W h -> h !! blk = Some x -> Q (V blk) k -> wp (bdata x.1) Q k;
  tx_set_bdata k me pr V W h blk x dt Q :
    T k me pr V W h -> h !! blk = Some x ->
    (forall k', T k' me pr (vset blk dt V) W (<[blk := (x.1, true)]> h) -> fs_frame me k k' -> Q tt k') ->
    wp (set_bdata x.1 dt) Q k;
  tx_log_write k me pr V W h blk x Q :
    T k me pr V W h -> h !! blk = Some x -> blk ∈ W ->
    (forall k', T k' me pr V W (<[blk := (x.1, false)]> h) -> fs_frame me k k' -> Q tt k') ->
    wp (log_write x.1) Q k;
  tx_brelse k me pr V W h blk i Q :
    T k me pr V W h -> h !! blk = Some (i, false) ->
    (forall k', T k' me pr V W (delete blk h) -> fs_frame me k k' -> Q tt k') ->
    wp (brelse i) Q k;
  tx_inodes k me pr V W h g : T k me pr V W h -> T (set_k_itable g k) me pr V W h;
  tx_phys k me pr V W h g : T k me pr V W h -> T (set_k_phys g k) me pr V W h;
  tx_locks k me pr V W h c' :
    T k me pr V W h -> core_ok c' me [] -> core_frame me (k_core k) c' ->
    (forall i, c_sleep c' (SBuf i) = c_sleep (k_core k) (SBuf i)) ->
    T (with_core k c') me pr V W h
}.

(** ** The implementation *)

Record txn_in (k : kernel) (me : nat) (pr : proc) (V : Z -> list Z) (W : gset Z) (h : held_map)
    (A : gmap Z ablock) (bl : list Z) : Prop := mkTxnIn {
  ti_bio : bio_ok k me pr A;
  ti_head : head_ok (l_lh (k_log k));
  ti_list : lh_list (l_lh (k_log k)) = bl;
  ti_nodup : NoDup bl;
  ti_sub : forall blk, blk ∈ bl -> blk ∈ W;
  ti_range : forall blk, blk ∈ W -> 0 <= blk < 2 ^ 31;
  ti_fits : Z.of_nat (size W) < LOGSIZE - 1;
  ti_size : l_size (k_log k) = LOGSIZE;
  ti_out : 1 <= l_outstanding (k_log k);
  ti_view : forall blk, V blk = contents A (d_blocks (k_disk k)) blk;
  ti_refs : forall blk a, A !! blk = Some a ->
    a_refs a = zb (bool_decide (blk ∈ bl)) + zb (bool_decide (is_Some (h !! blk))) /\
    a_lock a = (if h !! blk then Some (p_pid pr) else None);
  ti_used : forall blk, blk ∈ bl \/ is_Some (h !! blk) -> is_Some (A !! blk);
  ti_idx : forall blk a x, A !! blk = Some a -> h !! blk = Some x -> x.1 = a_idx a;
  ti_clean : forall blk, (forall i, h !! blk <> Some (i, true)) ->
    blk ∈ bl \/ V blk = d_blocks (k_disk k) blk
}.

Definition txn (k : kernel) (me : nat) (pr : proc) (V : Z -> list Z) (W : gset Z) (h : held_map) : Prop :=
  exists A bl, txn_in k me pr V W h A bl.

(** ** Lemmas *)

Lemma fs_frame_refl me k : fs_frame me k k.
Proof. constructor; try done. Qed.

Lemma fs_frame_trans me k1 k2 k3 : fs_frame me k1 k2 -> fs_frame me k2 k3 -> fs_frame me k1 k3.
Proof.
  intros [] []. constructor; try congruence.
  - by eapply core_frame_trans.
Qed.

Lemma bio_fs_frame me k k' : bio_frame me k k' -> fs_frame me k k'.
Proof. intros []. by constructor. Qed.

(** A block in use is logged or held. *)
Lemma txn_used k me pr V W h A bl blk a :
  txn_in k me pr V W h A bl -> A !! blk = Some a -> blk ∈ bl \/ is_Some (h !! blk).
Proof.
  intros T HA. destruct (ti_refs _ _ _ _ _ _ _ _ T _ _ HA) as [Hr _].
  destruct (bool_decide_reflect (blk ∈ bl)); [by left|].
  destruct (bool_decide_reflect (is_Some (h !! blk))); [by right|]. exfalso.
  pose proof (ti_bio _ _ _ _ _ _ _ _ T) as [_ _ [_ Hb]].
  destruct (buf_rel_lookup _ _ _ _ _ _ Hb HA) as (b & _ & _ & _ & _ & _ & Hrr & _). simpl in Hr. lia.
Qed.

Lemma txn_size k me pr V W h A bl :
  txn_in k me pr V W h A bl -> (size A <= size W + size h)%nat.
Proof.
  intros T. rewrite <- !(size_dom (D:=gset Z)).
  assert (dom A ⊆ W ∪ dom h) as Hs.
  { intros x [a Ha]%elem_of_dom. apply elem_of_union.
    destruct (txn_used _ _ _ _ _ _ _ _ _ _ T Ha) as [Hx|Hx].
    - left. by eapply ti_sub.
    - right. by apply elem_of_dom. }
  apply subseteq_size in Hs. pose proof (size_union_alt W (dom h)).
  assert (size (dom h ∖ W) <= size (dom h))%nat by (apply subseteq_size; set_solver). lia.
Qed.

Lemma txn_length k me pr V W h A bl :
  txn_in k me pr V W h A bl -> Z.of_nat (length bl) < LOGSIZE - 1 /\ lh_n (l_lh (k_log k)) = Z.of_nat (length bl).
Proof.
  intros T. pose proof (length_lh_list _ (ti_head _ _ _ _ _ _ _ _ T)) as Hl.
  rewrite (ti_list _ _ _ _ _ _ _ _ T) in Hl. pose proof (ho_n _ (ti_head _ _ _ _ _ _ _ _ T)).
  pose proof (NoDup_size bl W (ti_nodup _ _ _ _ _ _ _ _ T) (ti_sub _ _ _ _ _ _ _ _ T)) as Hs.
  pose proof (ti_fits _ _ _ _ _ _ _ _ T). lia.
Qed.

(** [bread] *)
Lemma txn_bread k me pr V W h blk Q :
  txn k me pr V W h -> h !! blk = None -> (size W + size h < NBUF)%nat ->
  (forall k' i, txn k' me pr V W (<[blk := (i, false)]> h) -> fs_frame me k k' -> Q i k') ->
  wp (bread ROOTDEV blk) Q k.
Proof.
  intros (A & bl & T) Hh Hs HQ. pose proof (txn_size _ _ _ _ _ _ _ _ T) as HsA.
  pose proof (ti_refs _ _ _ _ _ _ _ _ T blk) as Hrefs. rewrite Hh in Hrefs.
  eapply wp_bread; [apply T| |].
  - unfold readable. destruct (A !! blk) as [a|]; [|lia]. destruct (Hrefs a eq_refl) as [Hr Hl].
    split; [done|]. rewrite Hr. destruct (bool_decide (blk ∈ bl)); simpl; lia.
  - intros k' i Hok F D Hi. apply HQ; [|by apply bio_fs_frame]. set (A' := <[blk := _]> A) in *.
    exists A', bl. pose proof T as [T1 T2 T3 T4 T5 T6 T7 T8 T9 T10 T11 T12 T13 T14].
    pose proof (bf_log _ _ _ F) as El. constructor; rewrite ?El, ?D; try done.
    + intros x. rewrite T10. unfold contents, A'. rewrite lookup_insert.
      by destruct (decide (blk = x)) as [->|].
    + intros x a. unfold A'. rewrite !lookup_insert. destruct (decide (blk = x)) as [<-|]; [|by apply T11].
      intros [= <-]. simpl. unfold refs. destruct (A !! blk) as [a|] eqn:Ea.
      * destruct (Hrefs a eq_refl) as [-> _]. split; [|done]. simpl. lia.
      * rewrite bool_decide_false; [done|]. intros Hx. destruct (T12 blk) as [? ?]; [by left|congruence].
    + intros x. unfold A'. rewrite !lookup_insert. destruct (decide (blk = x)); [by eexists|apply T12].
    + intros x a y. unfold A'. rewrite !lookup_insert. destruct (decide (blk = x)); [by intros [= <-] [= <-]|apply T13].
    + intros x Hx. apply T14. intros j Hj. destruct (decide (blk = x)) as [->|Hne].
      * by rewrite Hh in Hj.
      * apply (Hx j). by rewrite lookup_insert_ne.
Qed.

(** The holder of a block reads and writes its contents. *)
Lemma txn_held k me pr V W h A bl blk x :
  txn_in k me pr V W h A bl -> h !! blk = Some x ->
  exists a, A !! blk = Some a /\ x.1 = a_idx a /\ a_lock a = Some (p_pid pr) /\ a_data a = V blk /\
    a_refs a = zb (bool_decide (blk ∈ bl)) + 1.
Proof.
  intros T Hh. destruct (ti_used _ _ _ _ _ _ _ _ T blk) as [a Ha]; [right; by eexists|].
  exists a. destruct (ti_refs _ _ _ _ _ _ _ _ T _ _ Ha) as [Hr Hl]. rewrite Hh in Hr, Hl.
  split_ands; try done.
  - by eapply ti_idx.
  - rewrite (ti_view _ _ _ _ _ _ _ _ T). unfold contents. by rewrite Ha.
Qed.

Lemma txn_bdata k me pr V W h blk x Q :
  txn k me pr V W h -> h !! blk = Some x -> Q (V blk) k -> wp (bdata x.1) Q k.
Proof.
  intros (A & bl & T) Hh HQ. destruct (txn_held _ _ _ _ _ _ _ _ _ _ T Hh) as (a & Ha & -> & _ & Hd & _).
  eapply wp_bdata; [apply T|exact Ha|]. by rewrite Hd.
Qed.

Lemma txn_set_bdata k me pr V W h blk x dt Q :
  txn k me pr V W h -> h !! blk = Some x ->
  (forall k', txn k' me pr (vset blk dt V) W (<[blk := (x.1, true)]> h) -> fs_frame me k k' -> Q tt k') ->
  wp (set_bdata x.1 dt) Q k.
Proof.
  intros (A & bl & T) Hh HQ. destruct (txn_held _ _ _ _ _ _ _ _ _ _ T Hh) as (a & Ha & E & Hl & Hd & Hr).
  rewrite E in *. eapply wp_set_bdata; [apply T|exact Ha|]. intros k' Hok F D.
  apply HQ; [|by apply bio_fs_frame]. set (A' := <[blk := _]> A) in *. exists A', bl.
  pose proof T as [T1 T2 T3 T4 T5 T6 T7 T8 T9 T10 T11 T12 T13 T14].
  pose proof (bf_log _ _ _ F) as El. constructor; rewrite ?El, ?D; try done.
  - intros y. unfold vset, contents, A'. rewrite lookup_insert.
    destruct (decide (y = blk)) as [->|Hne]; [by rewrite decide_True|].
    rewrite decide_False by done. apply T10.
  - intros y b. unfold A'. rewrite !lookup_insert. destruct (decide (blk = y)) as [<-|]; [|by apply T11].
    intros [= <-]. simpl. rewrite Hr. split; [|done].
    done.
  - intros y. unfold A'. rewrite !lookup_insert. destruct (decide (blk = y)); [by eexists|apply T12].
  - intros y b z. unfold A'. rewrite !lookup_insert. destruct (decide (blk = y)); [by intros [= <-] [= <-]|apply T13].
  - intros y Hy. unfold vset. destruct (decide (y = blk)) as [->|Hne].
    + destruct (Hy (a_idx a)). by rewrite lookup_insert_eq.
    + apply T14. intros j Hj. apply (Hy j). by rewrite lookup_insert_ne.
Qed.

Lemma txn_log_write k me pr V W h blk x Q :
  txn k me pr V W h -> h !! blk = Some x -> blk ∈ W ->
  (forall k', txn k' me pr V W (<[blk := (x.1, false)]> h) -> fs_frame me k k' -> Q tt k') ->
  wp (log_write x.1) Q k.
Proof.
  intros (A & bl & T) Hh HW HQ. destruct (txn_held _ _ _ _ _ _ _ _ _ _ T Hh) as (a & Ha & E & Hl & Hd & Hr).
  destruct (txn_length _ _ _ _ _ _ _ _ T) as [Hlt Hn].
  pose proof T as [T1 T2 T3 T4 T5 T6 T7 T8 T9 T10 T11 T12 T13 T14]. rewrite E in *.
  eapply wp_log_write; [exact T1|exact Ha| | |exact T2| | | |exact T9|].
  - rewrite Hr. destruct (bool_decide _); simpl; lia.
  - by apply T6.
  - rewrite T3. apply Forall_forall. intros y Hy. by apply T6, T5.
  - lia.
  - rewrite T8. lia.
  - rewrite T3. intros k' lh' Hh' Hl' Hok F D.
    apply HQ; [|destruct F; by constructor].
    set (A' := if decide (blk ∈ bl) then A else _) in *.
    assert (Hin : forall y, y ∈ add_block bl blk <-> y = blk \/ y ∈ bl).
    { intros y. unfold add_block. case_decide as Eb; [|set_solver]. split; [by right|]. by intros [->|?]. }
    exists A', (add_block bl blk). pose proof (bf_log _ _ _ F) as El. simpl in El.
    assert (HA' : forall y, A' !! y = if decide (y = blk) then
      Some (mkABlock (a_idx a) 2 (a_lock a) (a_data a)) else A !! y).
    { intros y. unfold A'. destruct (decide (blk ∈ bl)) as [Hb|Hb].
      - destruct (decide (y = blk)) as [->|]; [|done]. rewrite bool_decide_true in Hr by done. simpl in Hr.
        rewrite Ha. destruct a as [? r ? ?]. simpl in Hr |- *. by rewrite Hr.
      - rewrite bool_decide_false in Hr by done. simpl in Hr. rewrite Hr, lookup_insert. simpl.
        destruct (decide (y = blk)) as [->|Hne]; [by rewrite decide_True|]. by rewrite decide_False. }
    constructor; rewrite ?El, ?D; try done.
    + unfold add_block. case_decide; [done|]. apply NoDup_app. split_ands; [done| |apply NoDup_singleton].
      intros y Hy Hy2. apply list_elem_of_singleton in Hy2. by subst.
    + intros y [->|Hy]%Hin; auto.
    + intros y. rewrite T10. unfold contents. rewrite HA'. destruct (decide (y = blk)) as [->|]; [by rewrite Ha|done].
    + intros y b. rewrite HA', lookup_insert. destruct (decide (y = blk)) as [->|Hne].
      * rewrite decide_True by done. intros [= <-]. simpl. split; [|done].
        rewrite bool_decide_true by (apply Hin; by left). done.
      * rewrite decide_False by done. intros Hb. destruct (T11 _ _ Hb) as [-> ->]. split; [|done].
        do 2 f_equal. apply bool_decide_ext. rewrite Hin. naive_solver.
    + intros y. rewrite Hin, HA', lookup_insert. destruct (decide (y = blk)) as [->|Hne]; [by eexists|].
      rewrite decide_False by done. intros [[?|?]|?]; try done; apply T12; auto.
    + intros y b z. rewrite HA', lookup_insert. destruct (decide (y = blk)) as [->|Hne].
      * rewrite decide_True by done. by intros [= <-] [= <-].
      * rewrite decide_False by done. apply T13.
    + intros y Hy. rewrite Hin. destruct (decide (y = blk)) as [->|Hne]; [by left; left|].
      destruct (T14 y) as [?|?]; [|auto..]. intros j Hj. apply (Hy j). by rewrite lookup_insert_ne.
Qed.

Lemma txn_brelse k me pr V W h blk i Q :
  txn k me pr V W h -> h !! blk = Some (i, false) ->
  (forall k', txn k' me pr V W (delete blk h) -> fs_frame me k k' -> Q tt k') ->
  wp (brelse i) Q k.
Proof.
  intros (A & bl & T) Hh HQ. destruct (txn_held _ _ _ _ _ _ _ _ _ _ T Hh) as (a & Ha & E & Hl & Hd & Hr).
  simpl in E. subst i. pose proof T as [T1 T2 T3 T4 T5 T6 T7 T8 T9 T10 T11 T12 T13 T14].
  eapply wp_brelse; [exact T1|exact Ha|done| |].
  - intros Hr1. rewrite Hd. destruct (T14 blk) as [Hb|]; [congruence| |done].
    rewrite bool_decide_true in Hr by done. simpl in Hr. lia.
  - intros k' Hok F D. apply HQ; [|by apply bio_fs_frame].
    set (A' := unref A blk (unlocked a)) in *. exists A', bl.
    assert (HA' : forall y, A' !! y = if decide (y = blk) then
      (if decide (blk ∈ bl) then Some (mkABlock (a_idx a) 1 None (a_data a)) else None) else A !! y).
    { intros y. unfold A', unref. simpl. rewrite Hr. destruct (decide (blk ∈ bl)) as [Hb|Hb].
      - rewrite bool_decide_true by done. simpl. rewrite lookup_insert.
        destruct (decide (y = blk)) as [->|]; [by rewrite decide_True|by rewrite decide_False].
      - rewrite bool_decide_false by done. simpl. rewrite lookup_delete.
        destruct (decide (y = blk)) as [->|]; [by rewrite decide_True|by rewrite decide_False]. }
    pose proof (bf_log _ _ _ F) as El. constructor; rewrite ?El, ?D; try done.
    + intros y. rewrite T10. unfold contents. rewrite HA'. destruct (decide (y = blk)) as [->|]; [|done].
      rewrite Ha. destruct (decide (blk ∈ bl)); [done|]. rewrite Hd.
      destruct (T14 blk) as [|]; [congruence|done..].
    + intros y b. rewrite HA'.
      destruct (decide (y = blk)) as [->|Hne]; [rewrite lookup_delete_eq|rewrite lookup_delete_ne by done].
      * destruct (decide (blk ∈ bl)); [|done]. intros [= <-]. simpl.
        by rewrite bool_decide_true by done.
      * by apply T11.
    + intros y. rewrite HA'.
      destruct (decide (y = blk)) as [->|Hne]; [rewrite lookup_delete_eq|rewrite lookup_delete_ne by done].
      * intros [Hb|[? ?]]; [|done]. rewrite decide_True by done. by eexists.
      * apply T12.
    + intros y b z. rewrite HA'.
      destruct (decide (y = blk)) as [->|Hne]; [rewrite lookup_delete_eq|rewrite lookup_delete_ne by done].
      * done.
      * apply T13.
    + intros y Hy. apply T14. intros j Hj. destruct (decide (y = blk)) as [->|Hne]; [congruence|].
      apply (Hy j). by rewrite lookup_delete_ne.
Qed.

(** A transaction depends on the block layers only. *)
Lemma txn_same k k' me pr V W h :
  k_core k' = k_core k -> k_bcache k' = k_bcache k -> k_disk k' = k_disk k -> k_log k' = k_log k ->
  txn k me pr V W h -> txn k' me pr V W h.
Proof.
  intros E1 E2 E3 E4 (A & bl & [[B1 B2 B3] T2 T3 T4 T5 T6 T7 T8 T9 T10 T11 T12 T13 T14]).
  exists A, bl. constructor; rewrite ?E3, ?E4; try done. constructor; rewrite ?E1, ?E2, ?E3; done.
Qed.

Lemma txn_locks k me pr V W h c' :
  txn k me pr V W h -> core_ok c' me [] -> core_frame me (k_core k) c' ->
  (forall i, c_sleep c' (SBuf i) = c_sleep (k_core k) (SBuf i)) ->
  txn (with_core k c') me pr V W h.
Proof.
  intros (A & bl & [[B1 B2 B3] T2 T3 T4 T5 T6 T7 T8 T9 T10 T11 T12 T13 T14]) Hc Hf Hs.
  exists A, bl. constructor; try done. constructor; simpl; [done|by eapply frame_proc|].
  destruct B3 as [Hl [H1 H2 H3 H4]]. split; [done|]. constructor; try done.
  intros i b Hb. rewrite Hs. by apply H2.
Qed.

#[export] Instance txn_laws : TxnLaws txn.
Proof.
  constructor.
  - intros k me pr V W h (A & bl & T). destruct (ti_bio _ _ _ _ _ _ _ _ T). done.
  - exact txn_bread.
  - exact txn_bdata.
  - exact txn_set_bdata.
  - exact txn_log_write.
  - exact txn_brelse.
  - intros k me pr V W h g. by apply txn_same.
  - intros k me pr V W h g. by apply txn_same.
  - exact txn_locks.
Qed.

(** ** The begin and the end of a transaction *)

(** A log that is idle and a cache nobody uses. *)
Record fs_idle (k : kernel) (me : nat) (pr : proc) (start : Z) : Prop := mkIdle {
  id_bio : bio_ok k me pr ∅;
  id_log : log_at (k_log k) start;
  id_head : head_ok (l_lh (k_log k));
  id_n : lh_n (l_lh (k_log k)) = 0;
  id_size : l_size (k_log k) = LOGSIZE;
  id_out : l_outstanding (k_log k) = 0;
  id_com : l_committing (k_log k) = 0;
  id_len : forall b, length (d_blocks (k_disk k) b) = Z.to_nat BSIZE
}.

(** The blocks an operation may write. *)
Definition write_set (start : Z) (W : gset Z) : Prop :=
  Z.of_nat (size W) < LOGSIZE - 1 /\
  forall blk, blk ∈ W -> 0 <= blk < 2 ^ 31 /\ outside start blk.

(** The log during the only operation. *)
Definition in_op (l : log) (start : Z) : Prop :=
  log_at l start /\ l_outstanding l = 1 /\ l_committing l = 0.

Lemma wp_txn_begin k me pr start W Q :
  fs_idle k me pr start -> write_set start W ->
  (forall k', txn k' me pr (d_blocks (k_disk k)) W ∅ -> in_op (k_log k') start ->
     fs_frame me k k' -> k_disk k' = k_disk k -> Q tt k') ->
  wp begin_op Q k.
Proof.
  intros [Hb Hl Hh Hn Hs Ho Hc Hlen] [HW1 HW2] HQ.
  eapply wp_begin_op; [exact Hb|done|rewrite Hn, Ho; unfold LOGSIZE, MAXOPBLOCKS; lia|].
  intros k' Hok F D. pose proof (bf_log _ _ _ F) as El. simpl in El.
  apply HQ; [| |destruct F; by constructor|done].
  - exists ∅, []. constructor; rewrite ?El, ?D; simpl; try done; try lia.
    + unfold lh_list. by rewrite Hn.
    + apply NoDup_nil_2.
    + by intros ? ?%elem_of_nil.
    + intros blk Hblk. by apply HW2.
    + intros blk [?%elem_of_nil|[? ?]]; done.
    + by right.
  - rewrite El. unfold in_op, log_at in *. simpl. rewrite Ho. done.
Qed.

(** The contents of the disk after the block writes of a commit. *)
Lemma commit_trace_blocks start bl data ws d blk :
  commit_trace start bl data ws -> Z.of_nat (length bl) < LOGSIZE ->
  (forall b, b ∈ bl -> outside start b) -> outside start blk ->
  dwrites d ws blk = if decide (blk ∈ bl) then data blk else d blk.
Proof.
  intros [[-> ->]|(h1 & h0 & -> & _)] Hl Hout Hblk; [done|].
  assert (Hne : blk <> start) by (unfold outside, LOGSIZE, MAXOPBLOCKS in *; lia).
  unfold commit_writes. rewrite !dwrites_app.
  rewrite (dwrites_notin _ [(start, h0)]) by (simpl; by intros ?%list_elem_of_singleton).
  rewrite dwrites_home. destruct (decide (blk ∈ bl)); [done|].
  rewrite (dwrites_notin _ [(start, h1)]) by (simpl; by intros ?%list_elem_of_singleton).
  rewrite dwrites_notin; [done|]. intros Hx%log_writes_keys. unfold outside in Hblk. lia.
Qed.

Lemma dwrites_length d ws n :
  (forall b, length (d b) = n) -> Forall (fun w => length w.2 = n) ws ->
  forall b, length (dwrites d ws b) = n.
Proof.
  intros Hd Hf. revert d Hd. induction Hf as [|w ws Hw Hf IH]; intros d Hd; [done|].
  apply IH. intros b. unfold dwrite. by destruct (b =? w.1).
Qed.

Lemma commit_trace_lengths start bl data ws n :
  commit_trace start bl data ws -> n = Z.to_nat BSIZE -> (forall b, b ∈ bl -> length (data b) = n) ->
  Forall (fun w => length w.2 = n) ws.
Proof.
  intros [[_ ->]|(h1 & h0 & -> & _ & _ & _ & L1 & L0)] -> Hd; [done|].
  assert (Hdat : forall w b, w.2 = data b -> b ∈ bl -> length (w : Z * list Z).2 = Z.to_nat BSIZE)
    by (intros w b ->; apply Hd).
  unfold commit_writes. repeat apply Forall_app_2; try by apply Forall_singleton.
  - apply Forall_lookup. intros i w Hw. unfold log_writes in Hw. rewrite list_lookup_imap in Hw.
    apply fmap_Some in Hw as (b & Hb & ->). apply Hd. by eapply list_elem_of_lookup_2.
  - apply Forall_forall. intros w (b & -> & Hb)%list_elem_of_fmap. by apply Hd.
Qed.

(** What is left in the cache is what is held: nothing. *)
Lemma txn_unpins k me pr V W A bl : txn_in k me pr V W ∅ A bl -> unpins A bl = ∅.
Proof.
  intros T. apply map_eq. intros x. rewrite lookup_empty.
  destruct (decide (x ∈ bl)) as [Hx|Hx].
  - destruct (ti_used _ _ _ _ _ _ _ _ T x) as [a Ha]; [by left|].
    destruct (ti_refs _ _ _ _ _ _ _ _ T _ _ Ha) as [Hr _]. rewrite bool_decide_true in Hr by done.
    pose proof (ti_nodup _ _ _ _ _ _ _ _ T) as Hnd. apply list_elem_of_split in Hx as (l1 & l2 & ->).
    rewrite cons_middle, !unpins_app. apply NoDup_app in Hnd as (_ & Hd & _).
    apply unpins_None. unfold unpins at 1. simpl. unfold unpin. rewrite lookup_partial_alter_eq.
    rewrite unpins_notin by (intros H; apply (Hd _ H); left). rewrite Ha. simpl. unfold unpin_entry.
    by rewrite decide_True.
  - rewrite unpins_notin by done. destruct (A !! x) as [a|] eqn:Ha; [|done].
    destruct (txn_used _ _ _ _ _ _ _ _ _ _ T Ha) as [?|[? ?]]; done.
Qed.

(** The end of the only operation: the view becomes the contents of the disk. *)
Lemma wp_txn_end k me pr V W start Q :
  txn k me pr V W ∅ -> in_op (k_log k) start -> write_set start W ->
  (forall b, length (V b) = Z.to_nat BSIZE) ->
  (forall b, length (d_blocks (k_disk k) b) = Z.to_nat BSIZE) ->
  (forall k', fs_idle k' me pr start -> fs_frame me k k' ->
     (forall blk, outside start blk -> d_blocks (k_disk k') blk = V blk) -> Q tt k') ->
  wp end_op Q k.
Proof.
  intros (A & bl & T) (Hla & Ho & Hc) [_ HW] HlV Hld HQ.
  pose proof (txn_unpins _ _ _ _ _ _ _ T) as Hun. pose proof (txn_length _ _ _ _ _ _ _ _ T) as [Hlen Hn].
  pose proof (txn_size _ _ _ _ _ _ _ _ T) as HsA. rewrite map_size_empty in HsA.
  pose proof T as [T1 T2 T3 T4 T5 T6 T7 T8 T9 T10 T11 T12 T13 T14].
  assert (Hout : forall b, b ∈ bl -> outside start b) by (intros b Hb; by apply HW, T5).
  assert (HA : forall x a, A !! x = Some a -> x ∈ bl).
  { intros x a Ha. destruct (txn_used _ _ _ _ _ _ _ _ _ _ T Ha) as [?|[? ?]]; done. }
  eapply (wp_end_op_last k me pr A start bl); [|done|done|].
  - constructor; try done.
    + intros b Hb. split; [by apply T6, T5|]. split; [by apply Hout|].
      destruct (T12 b) as [a Ha]; [by left|]. exists a. destruct (T11 _ _ Ha) as [Hr Hl].
      split_ands; try done. rewrite Hr. destruct (bool_decide (b ∈ bl)), (bool_decide (is_Some _)); simpl; lia.
    + intros x Hx. destruct (A !! x) as [a|] eqn:Ha; [|done]. destruct Hx. apply Hout. by eapply HA.
    + unfold LOGSIZE, MAXOPBLOCKS, NBUF in *. lia.
  - rewrite Hun. intros k' ws Hok F Ht D. pose proof (bf_log _ _ _ F) as El. simpl in El.
    apply HQ; [|destruct F; by constructor|].
    + constructor; rewrite ?El; simpl; try done.
      * destruct T2 as [? ? ?]. constructor; simpl; try done.
      * rewrite D. simpl. apply dwrites_length; [done|].
        eapply commit_trace_lengths; [exact Ht|done|]. intros b Hb. by rewrite <- T10.
    + intros blk Hblk. rewrite D. simpl. rewrite (commit_trace_blocks _ _ _ _ _ _ Ht) by (done || lia).
      rewrite <- T10. destruct (decide (blk ∈ bl)) as [|Hni]; [done|].
      destruct (T14 blk) as [|E]; [|done|done]. intros i. by rewrite lookup_empty.
Qed.

(** ** An example: an operation that has begun and written nothing yet *)

Definition op_kernel (d : Z -> list Z) : kernel :=
  set_k_sb (fun _ => sample_sb)
    (set_k_log (fun _ => sample_log 0 1 []) (ready_kernel d (fun _ => 0) sample_image)).

Lemma op_txn d W : write_set 2 W -> txn (op_kernel d) 0 first_proc d W ∅.
Proof.
  intros [HW1 HW2]. apply (txn_same (set_k_log (fun _ => sample_log 0 1 []) (ready_kernel d (fun _ => 0) sample_image)));
    try reflexivity.
  exists ∅, []. constructor; try done.
  - apply bio_ok_set_log, ready_ok.
  - apply sample_head_ok; [unfold LOGSIZE, MAXOPBLOCKS; lia|apply Nat.leb_le; reflexivity|constructor].
  - apply NoDup_nil_2.
  - by intros ? ?%elem_of_nil.
  - intros blk Hb. by apply HW2.
  - intros blk [?%elem_of_nil|[? ?]]; done.
  - by right.
Qed.

Lemma op_in_op d : in_op (k_log (op_kernel d)) 2.
Proof. unfold in_op, log_at. simpl. unfold LOGSIZE, MAXOPBLOCKS. split_ands; (done || lia). Qed.

(** ** Properties *)


