(* ===== verification/Strings.v ===== *)
(** * Byte memory and the string routines (kernel/string.c)

    Memory is a function from addresses to bytes.  The routines are the loops of
    string.c, one byte at a time, as functions on the memory; the theorems say
    what each loop computes, whatever the overlap of its arguments. *)

From S2P Require Import Prelude.

(** ** Definitions *)

Definition mem := Z -> Z.

Definition mupd (m : mem) (a v : Z) : mem := fun x => if x =? a then v else m x.

(** The [n] bytes at [a], and the memory with the bytes [l] at [a]. *)
Definition mread (m : mem) (a : Z) (n : nat) : list Z := (fun i => m (a + Z.of_nat i)) <$> seq 0 n.

Definition mwrite (m : mem) (a : Z) (l : list Z) : mem :=
  fun x => if (a <=? x) && (x <? a + Z.of_nat (length l)) then l !!! Z.to_nat (x - a) else m x.

#[global] Arguments mread : simpl never.
#[global] Arguments mwrite : simpl never.

Fixpoint memset_loop (n : nat) (i : Z) (m : mem) (dst c : Z) : mem :=
  match n with
  | O => m
  | S n => memset_loop n (i + 1) (mupd m (dst + i) (u8 c)) dst c
  end.

Definition memset (m : mem) (dst c n : Z) : mem := memset_loop (Z.to_nat n) 0 m dst c.

Fixpoint memcmp_loop (n : nat) (m : mem) (s1 s2 : Z) : Z :=
  match n with
  | O => 0
  | S n => if negb (m s1 =? m s2) then m s1 - m s2 else memcmp_loop n m (s1 + 1) (s2 + 1)
  end.

Definition memcmp (m : mem) (v1 v2 n : Z) : Z := memcmp_loop (Z.to_nat n) m v1 v2.

(** [while(n-- > 0) *--d = *--s;] and [while(n-- > 0) *d++ = *s++;] *)
Fixpoint move_down (n : nat) (m : mem) (d s : Z) : mem :=
  match n with
  | O => m
  | S n => move_down n (mupd m (d - 1) (m (s - 1))) (d - 1) (s - 1)
  end.

Fixpoint move_up (n : nat) (m : mem) (d s : Z) : mem :=
  match n with
  | O => m
  | S n => move_up n (mupd m d (m s)) (d + 1) (s + 1)
  end.

Definition memmove (m : mem) (dst src n : Z) : mem :=
  if n =? 0 then m else
  if (src <? dst) && (dst <? src + n)
  then move_down (Z.to_nat n) m (dst + n) (src + n)
  else move_up (Z.to_nat n) m dst src.

Definition memcpy (m : mem) (dst src n : Z) : mem := memmove m dst src n.

Fixpoint strncmp_loop (n : nat) (m : mem) (p q : Z) : Z :=
  match n with
  | O => 0
  | S n' =>
      if truthy (m p) && (m p =? m q) then strncmp_loop n' m (p + 1) (q + 1)
      else u8 (m p) - u8 (m q)
  end.

Definition strncmp (m : mem) (p q n : Z) : Z := strncmp_loop (Z.to_nat n) m p q.

(** [while(n-- > 0 && ( *s++ = *t++) != 0);]: the memory, [s] and what is left of
    [n]. *)
Fixpoint copy_nul (n : nat) (m : mem) (s t : Z) : mem * Z * nat :=
  match n with
  | O => (m, s, O)
  | S n =>
      let c := m t in
      let m' := mupd m s c in
      if c =? 0 then (m', s + 1, n) else copy_nul n m' (s + 1) (t + 1)
  end.

(** [while(n-- > 0) *s++ = 0;] *)
Fixpoint fill_zero (n : nat) (m : mem) (s : Z) : mem :=
  match n with
  | O => m
  | S n => fill_zero n (mupd m s 0) (s + 1)
  end.

Definition strncpy (m : mem) (s t n : Z) : mem :=
  let '(m', s', r) := copy_nul (Z.to_nat n) m s t in
  fill_zero r m' s'.

Definition safestrcpy (m : mem) (s t n : Z) : mem :=
  if n <=? 0 then m else
  let '(m', s', _) := copy_nul (Z.to_nat (n - 1)) m s t in
  mupd m' s' 0.

(** [strlen] reads until it finds a NUL; [None] when there is none in [fuel]
    bytes. *)
Fixpoint strlen_loop (fuel : nat) (m : mem) (s n : Z) : option Z :=
  match fuel with
  | O => None
  | S fuel => if truthy (m (s + n)) then strlen_loop fuel m s (n + 1) else Some n
  end.

Definition strlen (fuel : nat) (m : mem) (s : Z) : option Z := strlen_loop fuel m s 0.

(** ** Specification *)

(** The string at [s] has length [n]. *)
Definition str_at (m : mem) (s : Z) (n : nat) : Prop :=
  m (s + Z.of_nat n) = 0 /\ forall i, 0 <= i < Z.of_nat n -> m (s + i) <> 0.

(** ** Lemmas *)

Lemma mupd_eq m a v : mupd m a v a = v.
Proof. unfold mupd. by rewrite Z.eqb_refl. Qed.

Lemma mupd_ne m a v x : x <> a -> mupd m a v x = m x.
Proof. intros. unfold mupd. by rewrite (proj2 (Z.eqb_neq _ _)). Qed.

Lemma mupd_spec m a v x : mupd m a v x = if decide (x = a) then v else m x.
Proof. destruct (decide _) as [->|]; [apply mupd_eq|by apply mupd_ne]. Qed.

Lemma memset_loop_spec n i m dst c x :
  memset_loop n i m dst c x =
  if decide (dst + i <= x < dst + i + Z.of_nat n) then u8 c else m x.
Proof.
  revert i m. induction n as [|n IH]; intros i m; simpl.
  - rewrite decide_False by lia. done.
  - rewrite IH, mupd_spec. repeat case_decide; try lia; done.
Qed.

Lemma move_up_spec n m d s x :
  d <= s \/ s + Z.of_nat n <= d ->
  move_up n m d s x = if decide (d <= x < d + Z.of_nat n) then m (s + (x - d)) else m x.
Proof.
  revert m d s. induction n as [|n IH]; intros m d s H; simpl.
  - rewrite decide_False by lia. done.
  - rewrite IH by lia. rewrite !mupd_spec.
    repeat case_decide; subst; try lia; f_equal; lia.
Qed.

Lemma move_down_spec n m d s x :
  s <= d ->
  move_down n m d s x = if decide (d - Z.of_nat n <= x < d) then m (s + (x - d)) else m x.
Proof.
  revert m d s. induction n as [|n IH]; intros m d s H; simpl.
  - rewrite decide_False by lia. done.
  - rewrite IH by lia. rewrite !mupd_spec.
    repeat case_decide; subst; try lia; f_equal; lia.
Qed.

Lemma memmove_spec m dst src n x :
  0 <= n ->
  memmove m dst src n x = if decide (dst <= x < dst + n) then m (src + (x - dst)) else m x.
Proof.
  intros Hn. unfold memmove. destruct (Z.eqb_spec n 0) as [->|].
  { rewrite decide_False by lia. done. }
  destruct (Z.ltb_spec src dst), (Z.ltb_spec dst (src + n)); cbn [andb];
    rewrite ?move_up_spec, ?move_down_spec, ?Z2Nat.id by lia;
    repeat case_decide; try lia; f_equal; lia.
Qed.

Lemma memcmp_loop_spec n m a b :
  (memcmp_loop n m a b = 0 <-> forall i, 0 <= i < Z.of_nat n -> m (a + i) = m (b + i)) /\
  (memcmp_loop n m a b <> 0 -> exists i, 0 <= i < Z.of_nat n /\
     (forall j, 0 <= j < i -> m (a + j) = m (b + j)) /\
     memcmp_loop n m a b = m (a + i) - m (b + i)).
Proof.
  revert a b. induction n as [|n IH]; intros a b; simpl.
  - split; [|done]. split; [lia|done].
  - destruct (Z.eqb_spec (m a) (m b)) as [E|E]; simpl.
    + destruct (IH (a + 1) (b + 1)) as [IH1 IH2]. split.
      * rewrite IH1. split; intros H i Hi.
        -- destruct (decide (i = 0)) as [->|]; [by rewrite !Z.add_0_r|].
           replace (a + i) with (a + 1 + (i - 1)) by lia.
           replace (b + i) with (b + 1 + (i - 1)) by lia. apply H. lia.
        -- replace (a + 1 + i) with (a + (i + 1)) by lia.
           replace (b + 1 + i) with (b + (i + 1)) by lia. apply H. lia.
      * intros (i & Hi & Hj & Er)%IH2. exists (i + 1). split; [lia|]. split.
        -- intros j Hj'. destruct (decide (j = 0)) as [->|]; [by rewrite !Z.add_0_r|].
           replace (a + j) with (a + 1 + (j - 1)) by lia.
           replace (b + j) with (b + 1 + (j - 1)) by lia. apply Hj. lia.
        -- rewrite Er. f_equal; f_equal; lia.
    + split.
      * split; [lia|]. intros H. specialize (H 0 ltac:(lia)). rewrite !Z.add_0_r in H. lia.
      * intros _. exists 0. rewrite !Z.add_0_r. split_ands; try lia.
Qed.

Lemma str_at_S m t L : str_at m t (S L) <-> m t <> 0 /\ str_at m (t + 1) L.
Proof.
  unfold str_at. rewrite Nat2Z.inj_succ. replace (t + Z.succ (Z.of_nat L)) with (t + 1 + Z.of_nat L) by lia.
  split.
  - intros [H0 H]. split; [specialize (H 0 ltac:(lia)); by rewrite Z.add_0_r in H|]. split; [done|].
    intros i Hi. replace (t + 1 + i) with (t + (i + 1)) by lia. apply H. lia.
  - intros (H1 & H0 & H). split; [done|]. intros i Hi.
    destruct (decide (i = 0)) as [->|]; [by rewrite Z.add_0_r|].
    replace (t + i) with (t + 1 + (i - 1)) by lia. apply H. lia.
Qed.

Lemma str_at_ext m m' t L :
  (forall x, t <= x <= t + Z.of_nat L -> m' x = m x) -> str_at m t L -> str_at m' t L.
Proof.
  intros E [H0 H]. split; [by rewrite E by lia|]. intros i Hi. rewrite E by lia. by apply H.
Qed.

Lemma copy_nul_spec n m s t L :
  str_at m t L -> s + Z.of_nat n <= t \/ t + Z.of_nat L < s ->
  let c := Nat.min n (S L) in
  exists m', copy_nul n m s t = (m', s + Z.of_nat c, (n - c)%nat) /\
    forall x, m' x = if decide (s <= x < s + Z.of_nat c) then m (t + (x - s)) else m x.
Proof.
  revert m s t L. induction n as [|n IH]; intros m s t L Hs Ho; simpl.
  - eexists. split; [by rewrite Z.add_0_r|]. intros x. rewrite decide_False by lia. done.
  - destruct L as [|L].
    + destruct Hs as [H0 _]. rewrite Z.add_0_r in H0. rewrite H0. simpl.
      rewrite Nat.min_0_r. eexists. split; [by rewrite Nat.sub_0_r|].
      intros x. rewrite mupd_spec. repeat case_decide; subst; try lia.
      replace (t + (s - s)) with t by lia. done.
    + apply str_at_S in Hs as [H1 Hs]. rewrite (proj2 (Z.eqb_neq _ _) H1).
      destruct (IH (mupd m s (m t)) (s + 1) (t + 1) L) as (m' & E & Hm).
      * eapply str_at_ext; [|exact Hs]. intros x Hx. apply mupd_ne. lia.
      * lia.
      * exists m'. rewrite E. split; [f_equal; try (f_equal; lia); lia|].
        intros x. rewrite Hm, !mupd_spec. repeat case_decide; subst; try lia; try done; f_equal; lia.
Qed.

Lemma fill_zero_spec n m s x :
  fill_zero n m s x = if decide (s <= x < s + Z.of_nat n) then 0 else m x.
Proof.
  revert m s. induction n as [|n IH]; intros m s; simpl.
  - rewrite decide_False by lia. done.
  - rewrite IH, mupd_spec. repeat case_decide; subst; try lia; done.
Qed.

Lemma strlen_loop_spec fuel m s n k :
  str_at m (s + n) k -> 0 <= n -> (k < fuel)%nat -> strlen_loop fuel m s n = Some (n + Z.of_nat k).
Proof.
  revert n k. induction fuel as [|fuel IH]; intros n k Hs Hn Hk; [lia|]. simpl. destruct k as [|k].
  - destruct Hs as [H0 _]. rewrite Z.add_0_r in H0. rewrite H0. simpl. f_equal. lia.
  - apply str_at_S in Hs as [H1 Hs]. unfold truthy. rewrite (proj2 (Z.eqb_neq _ _) H1). simpl.
    rewrite (IH (n + 1) k); [f_equal; lia| |lia|lia]. by replace (s + (n + 1)) with (s + n + 1) by lia.
Qed.

(** The two strings agree: the same bytes up to and including the first NUL, or in
    the first [n] bytes. *)
Definition str_eq (m : mem) (n : nat) (p q : Z) : Prop :=
  exists k, (k <= n)%nat /\ (forall i, 0 <= i < Z.of_nat k -> m (p + i) = m (q + i) /\ m (p + i) <> 0) /\
    (k = n \/ m (p + Z.of_nat k) = 0 /\ m (q + Z.of_nat k) = 0).

Lemma strncmp_loop_spec n m p q :
  (forall x, 0 <= m x < 256) -> strncmp_loop n m p q = 0 <-> str_eq m n p q.
Proof.
  intros Hb. revert p q. induction n as [|n IH]; intros p q; simpl.
  - split; [|done]. intros _. exists 0%nat. split; [lia|]. split; [lia|by left].
  - unfold truthy. assert (Hu : forall x, u8 (m x) = m x) by (intros x; apply Z.mod_small, Hb).
    destruct (Z.eqb_spec (m p) 0) as [E0|E0]; simpl; [|destruct (Z.eqb_spec (m p) (m q)) as [E|E]].
    + rewrite !Hu, E0. split.
      * intros Eq. exists 0%nat. rewrite !Z.add_0_r. split; [lia|]. split; [lia|right; lia].
      * intros (k & Hk & Hi & Hend). destruct k as [|k].
        -- rewrite !Z.add_0_r in Hend. destruct Hend; lia.
        -- destruct (Hi 0 ltac:(lia)) as [_ H]. by rewrite Z.add_0_r in H.
    + rewrite IH. split.
      * intros (k & Hk & Hi & Hend). exists (S k). split; [lia|]. split.
        -- intros i Hi'. destruct (decide (i = 0)) as [->|]; [by rewrite !Z.add_0_r|].
           replace (p + i) with (p + 1 + (i - 1)) by lia.
           replace (q + i) with (q + 1 + (i - 1)) by lia. apply Hi. lia.
        -- rewrite Nat2Z.inj_succ. replace (p + Z.succ (Z.of_nat k)) with (p + 1 + Z.of_nat k) by lia.
           replace (q + Z.succ (Z.of_nat k)) with (q + 1 + Z.of_nat k) by lia. destruct Hend; [left; lia|by right].
      * intros (k & Hk & Hi & Hend). destruct k as [|k].
        { rewrite !Z.add_0_r in Hend. destruct Hend as [|[? _]]; [lia|done]. }
        exists k. split; [lia|]. split.
        -- intros i Hi'. replace (p + 1 + i) with (p + (i + 1)) by lia.
           replace (q + 1 + i) with (q + (i + 1)) by lia. apply Hi. lia.
        -- rewrite Nat2Z.inj_succ in Hend. replace (p + 1 + Z.of_nat k) with (p + Z.succ (Z.of_nat k)) by lia.
           replace (q + 1 + Z.of_nat k) with (q + Z.succ (Z.of_nat k)) by lia. destruct Hend; [left; lia|by right].
    + rewrite !Hu. split; [lia|]. intros (k & Hk & Hi & Hend). exfalso. destruct k as [|k].
      * rewrite !Z.add_0_r in Hend. destruct Hend; lia.
      * destruct (Hi 0 ltac:(lia)) as [H _]. by rewrite !Z.add_0_r in H.
Qed.

Lemma strncpy_mem m s t n L x :
  0 <= n -> str_at m t L -> s + n <= t \/ t + Z.of_nat L < s ->
  strncpy m s t n x =
    if decide (s <= x < s + n) then
      if decide (x - s < Z.of_nat L) then m (t + (x - s)) else 0
    else m x.
Proof.
  intros Hn Hs Ho. unfold strncpy.
  destruct (copy_nul_spec (Z.to_nat n) m s t L Hs ltac:(lia)) as (m' & -> & Hm).
  rewrite fill_zero_spec, Hm.
  destruct (decide (x - s = Z.of_nat L)) as [E|E].
  - rewrite E. destruct Hs as [H0 _]. rewrite H0.
    repeat case_decide; try lia; done.
  - repeat case_decide; try lia; done.
Qed.

(** *** Blocks of bytes *)

Lemma length_mread m a n : length (mread m a n) = n.
Proof. unfold mread. by rewrite length_fmap, length_seq. Qed.
#[export] Hint Rewrite length_mread : len.

Lemma lookup_mread m a n i : (i < n)%nat -> mread m a n !! i = Some (m (a + Z.of_nat i)).
Proof. intros. unfold mread. rewrite list_lookup_fmap, lookup_seq_lt by done. done. Qed.

Lemma mwrite_in m a l x :
  a <= x < a + Z.of_nat (length l) -> mwrite m a l x = l !!! Z.to_nat (x - a).
Proof.
  intros. unfold mwrite. by rewrite (proj2 (Z.leb_le _ _)), (proj2 (Z.ltb_lt _ _)) by lia.
Qed.

Lemma mwrite_out m a l x : ~ (a <= x < a + Z.of_nat (length l)) -> mwrite m a l x = m x.
Proof.
  intros. unfold mwrite. destruct (Z.leb_spec a x), (Z.ltb_spec x (a + Z.of_nat (length l))); try done. lia.
Qed.

Lemma mread_S m a n : mread m a (S n) = m a :: mread m (a + 1) n.
Proof.
  unfold mread. rewrite <- cons_seq, <- fmap_S_seq, fmap_cons, <- list_fmap_compose. f_equal.
  - f_equal. lia.
  - apply list_fmap_ext. intros i x _. simpl. f_equal. lia.
Qed.

Lemma mread_ext m m' a n :
  (forall x, a <= x < a + Z.of_nat n -> m' x = m x) -> mread m' a n = mread m a n.
Proof.
  intros H. apply list_eq. intros i. destruct (decide (i < n)%nat).
  - rewrite !lookup_mread by done. f_equal. apply H. lia.
  - by rewrite !lookup_ge_None_2 by len.
Qed.

Lemma mread_mwrite m a l : mread (mwrite m a l) a (length l) = l.
Proof.
  apply list_eq. intros i. destruct (decide (i < length l)%nat).
  - rewrite lookup_mread, mwrite_in by lia. rewrite Z.add_simpl_l, Nat2Z.id.
    by rewrite list_lookup_lookup_total_lt.
  - by rewrite !lookup_ge_None_2 by len.
Qed.

Lemma mread_mwrite_ne m a l b n :
  b + Z.of_nat n <= a \/ a + Z.of_nat (length l) <= b -> mread (mwrite m a l) b n = mread m b n.
Proof. intros. apply mread_ext. intros x Hx. apply mwrite_out. lia. Qed.

(** ** Properties *)

(** [memmove] copies the [n] source bytes as they were before the call, also when
    source and destination overlap in either direction, and changes no other byte:
    it is the read of the whole source followed by the write of the whole
    destination. *)
Theorem memmove_overlap m dst src n x :
  0 <= n -> memmove m dst src n x = mwrite m dst (mread m src (Z.to_nat n)) x.
Proof.
  intros Hn. rewrite memmove_spec by done. case_decide as Hx.
  - rewrite mwrite_in by (len; lia). symmetry. apply list_lookup_total_correct.
    rewrite lookup_mread by lia. f_equal. f_equal. lia.
  - rewrite mwrite_out; [done|len].
Qed.

Lemma memmove_overlap_witness :
  memmove (fun x => x) 3 1 4 6 = 4.
Proof. rewrite (memmove_overlap (fun x => x) 3 1 4 6 ltac:(lia)). reflexivity. Defined.

(** [strncpy] of a string of [L] bytes writes exactly the [n] bytes of the
    destination: the string, as much of it as fits, and zeros after it. *)
Theorem strncpy_spec m s t n L x :
  0 <= n -> str_at m t L -> s + n <= t \/ t + Z.of_nat L < s ->
  strncpy m s t n x =
    if decide (s <= x < s + n) then
      if decide (x - s < Z.of_nat L) then m (t + (x - s)) else 0
    else m x.
Proof. apply strncpy_mem. Qed.

Lemma strncpy_spec_witness :
  strncpy (fun x => if x =? 100 then 65 else 0) 10 100 4 10 = 65.
Proof.
  rewrite (strncpy_spec (fun x => if x =? 100 then 65 else 0) 10 100 4 1 10); [reflexivity|lia| |lia].
  split; [reflexivity|]. intros i Hi. by replace i with 0 by lia.
Defined.

(** [safestrcpy] with room for [n > 0] bytes writes only those, leaves a NUL
    among them, and before the NUL the bytes of the source string. *)
Theorem safestrcpy_terminates m s t n L :
  0 < n -> str_at m t L -> s + n <= t \/ t + Z.of_nat L < s ->
  let m' := safestrcpy m s t n in
  str_at m' s (Nat.min (Z.to_nat n - 1) L) /\
  (forall i, 0 <= i < Z.min (n - 1) (Z.of_nat L) -> m' (s + i) = m (t + i)) /\
  (forall x, ~ (s <= x < s + n) -> m' x = m x).
Proof.
  intros Hn Hs Ho m'. subst m'. unfold safestrcpy. rewrite (proj2 (Z.leb_gt _ _)) by lia.
  destruct (copy_nul_spec (Z.to_nat (n - 1)) m s t L Hs ltac:(lia)) as (m' & -> & Hm).
  destruct Hs as [H0 Hnz]. split; [split|split].
  - rewrite mupd_spec, Hm. repeat case_decide; try lia; try done.
    rewrite <- H0. f_equal. lia.
  - intros i Hi. rewrite mupd_ne, Hm by lia. rewrite decide_True by lia.
    replace (t + (s + i - s)) with (t + i) by lia. apply Hnz. lia.
  - intros i Hi. rewrite mupd_ne, Hm by lia. rewrite decide_True by lia. f_equal. lia.
  - intros x Hx. rewrite mupd_ne, Hm by lia. by rewrite decide_False by lia.
Qed.

Lemma safestrcpy_terminates_witness :
  str_at (safestrcpy (fun x => if (100 <=? x) && (x <? 105) then 65 else 0) 10 100 3) 10 2.
Proof.
  refine (proj1 (safestrcpy_terminates (fun x => if (100 <=? x) && (x <? 105) then 65 else 0)
    10 100 3 5 _ _ _)); [lia| |lia].
  split; [reflexivity|]. intros i Hi.
  by rewrite (proj2 (Z.leb_le _ _)), (proj2 (Z.ltb_lt _ _)) by lia.
Defined.

(** [memcmp] and [strncmp] return 0 exactly on equal arguments: all [n] bytes
    equal, respectively equal up to the first NUL or [n] bytes; and [memcmp]
    otherwise returns the difference of the first two bytes that differ. *)
Theorem comparisons_exact m a b n :
  0 <= n -> (forall x, 0 <= m x < 256) ->
  (memcmp m a b n = 0 <-> mread m a (Z.to_nat n) = mread m b (Z.to_nat n)) /\
  (memcmp m a b n <> 0 -> exists i, 0 <= i < n /\
     mread m a (Z.to_nat i) = mread m b (Z.to_nat i) /\ memcmp m a b n = m (a + i) - m (b + i)) /\
  (strncmp m a b n = 0 <-> str_eq m (Z.to_nat n) a b).
Proof.
  intros Hn Hb. unfold memcmp, strncmp.
  destruct (memcmp_loop_spec (Z.to_nat n) m a b) as [H1 H2]. rewrite Z2Nat.id in H1, H2 by done.
  assert (Hr : forall k, mread m a k = mread m b k <->
                 forall i, 0 <= i < Z.of_nat k -> m (a + i) = m (b + i)).
  { intros k. split.
    - intros E i Hi. apply (f_equal (.!! Z.to_nat i)) in E. rewrite !lookup_mread, Z2Nat.id in E by lia.
      by injection E.
    - intros H. apply list_eq. intros i. destruct (decide (i < k)%nat).
      + rewrite !lookup_mread by done. f_equal. apply H. lia.
      + by rewrite !lookup_ge_None_2 by len. }
  split; [|split; [|by apply strncmp_loop_spec]].
  - rewrite Hr, Z2Nat.id by done. exact H1.
  - intros (i & Hi & Hj & E)%H2. exists i. split; [done|]. split; [|done].
    apply Hr. rewrite Z2Nat.id by lia. exact Hj.
Qed.

Lemma comparisons_exact_witness :
  strncmp (fun x => if x <? 50 then 1 else 0) 0 10 5 = 0.
Proof.
  apply (comparisons_exact (fun x => if x <? 50 then 1 else 0) 0 10 5).
  - lia.
  - intros x. destruct (x <? 50); lia.
  - exists 5%nat. split; [lia|]. split; [|by left]. intros i Hi.
    by rewrite !(proj2 (Z.ltb_lt _ _)) by lia.
Defined.

(** [strlen] of a NUL-terminated string returns its length. *)
Theorem strlen_correct m s n fuel : str_at m s n -> (n < fuel)%nat -> strlen fuel m s = Some (Z.of_nat n).
Proof.
  intros Hs Hf. unfold strlen. rewrite (strlen_loop_spec _ _ _ _ n); [done| |lia|done].
  by rewrite Z.add_0_r.
Qed.

Lemma strlen_correct_witness : strlen 10 (fun x => if x <? 104 then 65 else 0) 100 = Some 4.
Proof.
  apply (strlen_correct _ 100 4); [|lia]. split; [reflexivity|]. intros i Hi.
  by rewrite (proj2 (Z.ltb_lt _ _)) by lia.
Defined.
