(* ===== verification/Kalloc.v ===== *)
(** * Physical memory and its allocator (kernel/kalloc.c, kernel/memlayout.h)

    RAM is the byte memory of the kernel state between [KERNBASE] and [PHYSTOP];
    an access outside it faults.  Free pages form a linked list threaded through
    the pages themselves. *)

From S2P Require Import Prelude State Spin Strings.

(** ** Definitions *)

Definition PGSIZE : Z := 4096.
Definition KERNBASE : Z := 0x80000000.
Definition PHYSTOP : Z := KERNBASE + 128 * 1024 * 1024.

Definition PGROUNDUP (sz : Z) : Z := Z.land (u64 (sz + PGSIZE - 1)) (Z.lnot (PGSIZE - 1)).
Definition PGROUNDDOWN (a : Z) : Z := Z.land a (Z.lnot (PGSIZE - 1)).

Definition in_ram (a n : Z) : bool := (KERNBASE <=? a) && (a + n <=? PHYSTOP).

(** Reads and writes of RAM by the kernel, which maps it at its own address. *)

Definition ld_mem (a : Z) (n : nat) : K (list Z) :=
  if in_ram a (Z.of_nat n) then gets (fun k => mread (ph_mem (k_phys k)) a n) else fault.

Definition upd_mem (a n : Z) (f : mem -> mem) : K unit :=
  if in_ram a n then modify (set_k_phys (set_ph_mem f)) else fault.

Definition st_mem (a : Z) (l : list Z) : K unit :=
  upd_mem a (Z.of_nat (length l)) (fun m => mwrite m a l).

Definition ld64 (a : Z) : K Z := let* b := ld_mem a 8 in M_ret (le_join b).

Definition st64 (a v : Z) : K unit := st_mem a (le_split 8 v).

Definition kfree (pa : Z) : K unit :=
  let* img := gets k_img in
  if negb (pa mod PGSIZE =? 0) || (pa <? img_end img) || (PHYSTOP <=? pa) then panic "kfree" else
  upd_mem pa PGSIZE (fun m => memset m pa 1 PGSIZE) ;*
  acquire LKmem ;*
  let* fl := gets (fun k => ph_freelist (k_phys k)) in
  st64 pa fl ;*
  modify (set_k_phys (set_ph_freelist (fun _ => pa))) ;*
  release LKmem.

Definition kalloc : K Z :=
  acquire LKmem ;*
  let* r := gets (fun k => ph_freelist (k_phys k)) in
  when (truthy r)
    (let* n := ld64 r in modify (set_k_phys (set_ph_freelist (fun _ => n)))) ;*
  release LKmem ;*
  when (truthy r) (upd_mem r PGSIZE (fun m => memset m r 5 PGSIZE)) ;*
  M_ret r.

(** The pages from [p] on whose end is not beyond [pa_end]. *)
Definition page_range (p pa_end : Z) : list Z :=
  (fun i => p + Z.of_nat i * PGSIZE) <$> seq 0 (Z.to_nat ((pa_end - p) / PGSIZE)).

Definition freerange (pa_start pa_end : Z) : K unit :=
  for_each (page_range (PGROUNDUP pa_start) pa_end) kfree.

Definition kinit : K unit :=
  initlock LKmem "kmem" ;*
  let* img := gets k_img in
  freerange (img_end img) PHYSTOP.

(** ** Specification *)

(** A page the allocator may hand out. *)
Definition page_ok (img : image) (p : Z) : Prop :=
  p mod PGSIZE = 0 /\ img_end img <= p /\ p + PGSIZE <= PHYSTOP.

(** The pointer [p] leads through the pages [l] to the null pointer. *)
Fixpoint flist (m : mem) (p : Z) (l : list Z) : Prop :=
  match l with
  | [] => p = 0
  | x :: l => p = x /\ flist m (le_join (mread m x 8)) l
  end.

(** The free pages are [l]. *)
Record kmem_ok (img : image) (ph : phys) (l : list Z) : Prop := mkKmemOk {
  km_img : KERNBASE <= img_end img;
  km_list : flist (ph_mem ph) (ph_freelist ph) l;
  km_nodup : NoDup l;
  km_pages : Forall (page_ok img) l
}.

(** The memory outside the page [p] is as before. *)
Definition same_outside (p : Z) (m m' : mem) : Prop :=
  forall x, ~ (p <= x < p + PGSIZE) -> m' x = m x.

(** ** Lemmas *)

Lemma ram_page img p : KERNBASE <= img_end img -> page_ok img p -> in_ram p PGSIZE = true.
Proof. intros ? (? & ? & ?). unfold in_ram. apply andb_true_iff. split; apply Z.leb_le; lia. Qed.

Lemma ram_word img p : KERNBASE <= img_end img -> page_ok img p -> in_ram p 8 = true.
Proof.
  intros ? (? & ? & ?). unfold in_ram, PGSIZE in *. apply andb_true_iff. split; apply Z.leb_le; lia.
Qed.

(** Two pages are the same or apart. *)
Lemma pages_apart p q :
  p mod PGSIZE = 0 -> q mod PGSIZE = 0 -> p <> q -> p + PGSIZE <= q \/ q + PGSIZE <= p.
Proof.
  intros Hp Hq Hne. unfold PGSIZE in *.
  apply Z.div_exact in Hp; [|lia]. apply Z.div_exact in Hq; [|lia]. lia.
Qed.

(** The list only depends on the pages in it. *)
Lemma flist_ext m m' p l :
  (forall x, x ∈ l -> mread m' x 8 = mread m x 8) -> flist m p l -> flist m' p l.
Proof.
  revert p. induction l as [|x l IH]; intros p He; simpl; [done|]. intros [-> Hl].
  split; [done|]. rewrite He by left. apply IH; [|done]. intros y Hy. apply He. by right.
Qed.

Lemma flist_outside img m m' p q l :
  page_ok img p -> p ∉ l -> Forall (page_ok img) l -> same_outside p m m' ->
  flist m q l -> flist m' q l.
Proof.
  intros (Hp & _) Hn Hf Ho. apply flist_ext. intros x Hx. apply mread_ext. intros y Hy.
  rewrite Forall_forall in Hf. destruct (Hf x Hx) as (Hx' & _).
  apply Ho. assert (p <> x) by (by intros ->).
  destruct (pages_apart p x) as [|]; try done; unfold PGSIZE in *; lia.
Qed.

Lemma memset_outside m p c : same_outside p m (memset m p c PGSIZE).
Proof.
  intros x Hx. unfold memset. rewrite memset_loop_spec. rewrite decide_False; [done|].
  rewrite Z2Nat.id by (unfold PGSIZE; lia). lia.
Qed.

Lemma mread_memset m p c n :
  0 <= n -> mread (memset m p c n) p (Z.to_nat n) = replicate (Z.to_nat n) (u8 c).
Proof.
  intros Hn. apply list_eq. intros i. destruct (decide (i < Z.to_nat n)%nat) as [Hi|Hi].
  - rewrite lookup_mread, lookup_replicate_2 by done. unfold memset. rewrite memset_loop_spec.
    rewrite decide_True by lia. done.
  - rewrite !lookup_ge_None_2; [done|rewrite length_replicate; lia|rewrite length_mread; lia].
Qed.

Lemma same_outside_trans p m1 m2 m3 :
  same_outside p m1 m2 -> same_outside p m2 m3 -> same_outside p m1 m3.
Proof. intros H1 H2 x Hx. rewrite H2, H1; done. Qed.

Lemma mwrite_outside m p l : Z.of_nat (length l) <= PGSIZE -> same_outside p m (mwrite m p l).
Proof. intros Hl x Hx. apply mwrite_out. lia. Qed.

Lemma wp_upd_mem a n f Q k :
  in_ram a n = true -> Q tt (set_k_phys (set_ph_mem f) k) -> wp (upd_mem a n f) Q k.
Proof. intros H HQ. unfold upd_mem. rewrite H. by wp_steps. Qed.

Lemma wp_ld_mem a n Q k :
  in_ram a (Z.of_nat n) = true -> Q (mread (ph_mem (k_phys k)) a n) k -> wp (ld_mem a n) Q k.
Proof. intros H HQ. unfold ld_mem. rewrite H. by wp_steps. Qed.

Lemma wp_ld64 a Q k :
  in_ram a 8 = true -> Q (le_join (mread (ph_mem (k_phys k)) a 8)) k -> wp (ld64 a) Q k.
Proof. intros H HQ. unfold ld64. wp_steps. apply wp_ld_mem; [done|]. by wp_steps. Qed.

Lemma wp_st64 a v Q k :
  in_ram a 8 = true -> Q tt (set_k_phys (set_ph_mem (fun m => mwrite m a (le_split 8 v))) k) ->
  wp (st64 a v) Q k.
Proof. intros H HQ. unfold st64, st_mem. by apply wp_upd_mem. Qed.

Lemma mem_word m a v : 0 <= v < 2 ^ 64 -> le_join (mread (mwrite m a (le_split 8 v)) a 8) = v.
Proof.
  intros Hv. replace 8%nat with (length (le_split 8 v)) at 2 by len. rewrite mread_mwrite, le_join_split.
  change (256 ^ Z.of_nat 8) with (2 ^ 64). by apply Z.mod_small.
Qed.

(** *** The allocator *)

(** Only the core and the physical memory change. *)
Abbreviation phys_kernel k c' ph' :=
  (mkKernel c' (k_bcache k) (k_disk k) (k_log k) (k_sb k) (k_itable k) (k_ftable k) (k_pipes k)
     ph' (k_ticks k) (k_img k) (k_dev k)).

Lemma page_small img p : KERNBASE <= img_end img -> page_ok img p -> 0 < p < 2 ^ 64.
Proof. intros ? (? & ? & ?). unfold PHYSTOP, KERNBASE, PGSIZE in *. lia. Qed.

Lemma flist_head img m p l :
  KERNBASE <= img_end img -> Forall (page_ok img) l -> flist m p l -> 0 <= p < 2 ^ 64.
Proof.
  intros Hi Hf Hl. destruct l as [|x l]; simpl in Hl; [lia|]. destruct Hl as [-> _].
  apply Forall_cons in Hf as [Hx _]. pose proof (page_small _ _ Hi Hx). lia.
Qed.

Lemma wp_kfree k me hs n p l Q :
  core_at (k_core k) me hs n -> Z.of_nat (length hs + n) + 1 < 2 ^ 30 -> LKmem ∉ hs ->
  kmem_ok (k_img k) (k_phys k) l -> page_ok (k_img k) p -> p ∉ l ->
  (forall c' ph', core_at c' me hs n -> same_but_locks (k_core k) c' ->
     kmem_ok (k_img k) ph' (p :: l) -> same_outside p (ph_mem (k_phys k)) (ph_mem ph') ->
     Q tt (phys_kernel k c' ph')) ->
  wp (kfree p) Q k.
Proof.
  intros Hc Hlt Hl [Hi Hfl Hnd Hpg] Hp Hn HQ. unfold kfree. wp_steps.
  pose proof Hp as (Hpm & Hpe & Hps).
  rewrite Hpm, (proj2 (Z.ltb_ge _ _)), (proj2 (Z.leb_gt _ _)) by (unfold PGSIZE in *; lia). simpl.
  wp_steps. apply wp_upd_mem; [by eapply ram_page|]. wp_steps.
  eapply wp_acquire; [exact Hc|exact Hlt|exact Hl|]. intros c1 H1 Hs1. wp_steps.
  apply wp_st64; [by eapply ram_word|]. wp_steps.
  eapply (wp_release _ me LKmem hs n); [exact H1|]. intros c2 H2 Hs2.
  set (m1 := memset (ph_mem (k_phys k)) p 1 PGSIZE).
  set (m2 := mwrite m1 p (le_split 8 (ph_freelist (k_phys k)))).
  assert (Ho : same_outside p (ph_mem (k_phys k)) m2).
  { eapply same_outside_trans; [apply memset_outside|]. apply mwrite_outside. len; unfold PGSIZE; lia. }
  apply (HQ c2 (mkPhys m2 p (ph_kpgtbl (k_phys k)))); [exact H2|exact (same_but_locks_trans _ _ _ Hs1 Hs2)| |exact Ho].
  constructor; cbn [ph_mem ph_freelist]; [done| |by apply NoDup_cons|by apply Forall_cons].
  split; [done|]. unfold m2. rewrite mem_word by (by eapply flist_head).
  by eapply flist_outside.
Qed.

Lemma wp_kalloc k me hs n l Q :
  core_at (k_core k) me hs n -> Z.of_nat (length hs + n) + 1 < 2 ^ 30 -> LKmem ∉ hs ->
  kmem_ok (k_img k) (k_phys k) l ->
  (l = [] -> forall c', core_at c' me hs n -> same_but_locks (k_core k) c' ->
     Q 0 (with_core k c')) ->
  (forall p l' c' ph', l = p :: l' -> core_at c' me hs n -> same_but_locks (k_core k) c' ->
     kmem_ok (k_img k) ph' l' -> page_ok (k_img k) p -> p ∉ l' ->
     ph_mem ph' = memset (ph_mem (k_phys k)) p 5 PGSIZE ->
     Q p (phys_kernel k c' ph')) ->
  wp kalloc Q k.
Proof.
  intros Hc Hlt Hl [Hi Hfl Hnd Hpg] HQ0 HQ1. unfold kalloc. wp_steps.
  eapply wp_acquire; [exact Hc|exact Hlt|exact Hl|]. intros c1 H1 Hs1. wp_steps. simpl.
  destruct l as [|p l]; simpl in Hfl.
  - rewrite Hfl. simpl. wp_steps. eapply (wp_release _ me LKmem hs n); [exact H1|].
    intros c2 H2 Hs2. wp_steps. apply HQ0; [done|exact H2|exact (same_but_locks_trans _ _ _ Hs1 Hs2)].
  - destruct Hfl as [Ep Hfl]. rewrite Ep. apply NoDup_cons in Hnd as [Hn Hnd].
    apply Forall_cons in Hpg as [Hp Hpg].
    assert (Ht : truthy p = true).
    { pose proof (page_small _ _ Hi Hp). unfold truthy. rewrite (proj2 (Z.eqb_neq _ _)); [done|lia]. }
    rewrite Ht. wp_steps. apply wp_ld64; [by eapply ram_word|]. wp_steps.
    eapply (wp_release _ me LKmem hs n); [exact H1|]. intros c2 H2 Hs2. wp_steps.
    apply wp_upd_mem; [by eapply ram_page|]. wp_steps.
    apply (HQ1 p l c2 (mkPhys (memset (ph_mem (k_phys k)) p 5 PGSIZE) (le_join (mread (ph_mem (k_phys k)) p 8))
      (ph_kpgtbl (k_phys k))));
      try done; [exact (same_but_locks_trans _ _ _ Hs1 Hs2)|].
    constructor; cbn [ph_mem ph_freelist]; try done.
    eapply (flist_outside (k_img k) (ph_mem (k_phys k)) _ p); try done. apply memset_outside.
Qed.

Lemma kernel_same_phys k c' :
  with_core k c' = phys_kernel k c' (k_phys k).
Proof. by destruct k. Qed.

(** Freeing a list of pages. *)
Lemma wp_kfree_all k me hs n ps l Q :
  core_at (k_core k) me hs n -> Z.of_nat (length hs + n) + 1 < 2 ^ 30 -> LKmem ∉ hs ->
  kmem_ok (k_img k) (k_phys k) l -> Forall (page_ok (k_img k)) ps -> NoDup (ps ++ l) ->
  (forall c' ph', core_at c' me hs n -> same_but_locks (k_core k) c' ->
     kmem_ok (k_img k) ph' (reverse ps ++ l) ->
     (forall x, (forall p, p ∈ ps -> ~ (p <= x < p + PGSIZE)) -> ph_mem ph' x = ph_mem (k_phys k) x) ->
     Q tt (phys_kernel k c' ph')) ->
  wp (for_each ps kfree) Q k.
Proof.
  revert k l. induction ps as [|p ps IH]; intros k l Hc Hlt Hl Hkm Hps Hnd HQ; simpl.
  - wp_steps. destruct k. apply HQ; done.
  - apply Forall_cons in Hps as [Hp Hps]. simpl in Hnd. apply NoDup_cons in Hnd as [Hn Hnd]. wp_steps.
    assert (p ∉ ps /\ p ∉ l) as [Hn1 Hn2] by (rewrite elem_of_app in Hn; tauto).
    eapply wp_kfree; try done. intros c1 ph1 H1 Hs1 Hkm1 Ho1.
    eapply IH; try done; simpl.
    + rewrite NoDup_app in Hnd |- *. destruct Hnd as (? & Hd & ?). split_ands; try done.
      * intros x Hx [->|Hx']%elem_of_cons; [done|]. by eapply Hd.
      * by apply NoDup_cons.
    + intros c2 ph2 H2 Hs2 Hkm2 Ho2. simpl in *. apply HQ; [done|by eapply same_but_locks_trans| |].
      * by rewrite reverse_cons, <- app_assoc.
      * intros x Hx. rewrite Ho2; [apply Ho1, Hx; left|]. intros q Hq. apply Hx. by right.
Qed.

Lemma land_page a : Z.land a (Z.lnot (PGSIZE - 1)) = a - a mod PGSIZE.
Proof.
  change (PGSIZE - 1) with (Z.ones 12). rewrite <- Z.ldiff_land, Z.ldiff_ones_r by lia.
  rewrite Z.shiftl_mul_pow2, Z.shiftr_div_pow2 by lia. change (2 ^ 12) with PGSIZE.
  pose proof (Z.div_mod a PGSIZE ltac:(unfold PGSIZE; lia)). lia.
Qed.

Lemma PGROUNDUP_spec x :
  0 <= x -> x + PGSIZE - 1 < 2 ^ 64 ->
  PGROUNDUP x mod PGSIZE = 0 /\ x <= PGROUNDUP x < x + PGSIZE.
Proof.
  intros H0 H1. unfold PGROUNDUP. rewrite u64_small, land_page by (unfold PGSIZE in *; lia).
  assert (HP : 0 < PGSIZE) by (unfold PGSIZE; lia).
  pose proof (Z.mod_pos_bound (x + PGSIZE - 1) PGSIZE HP). split; [|lia].
  rewrite Zminus_mod_idemp_r, Z.sub_diag. done.
Qed.

Lemma PGROUNDDOWN_spec x : PGROUNDDOWN x = x - x mod PGSIZE.
Proof. apply land_page. Qed.

Lemma page_range_elem p e x :
  x ∈ page_range p e <-> exists i, 0 <= i < (e - p) / PGSIZE /\ x = p + i * PGSIZE.
Proof.
  unfold page_range. rewrite list_elem_of_fmap. split.
  - intros (i & -> & Hi%elem_of_seq). exists (Z.of_nat i). split; [lia|done].
  - intros (i & Hi & ->). exists (Z.to_nat i). split; [by rewrite Z2Nat.id by lia|].
    apply elem_of_seq. lia.
Qed.

Lemma NoDup_page_range p e : NoDup (page_range p e).
Proof.
  apply NoDup_fmap_2; [|apply NoDup_seq]. intros i j. unfold PGSIZE. lia.
Qed.

Lemma page_range_ok img p :
  p mod PGSIZE = 0 -> img_end img <= p -> Forall (page_ok img) (page_range p PHYSTOP).
Proof.
  intros Hp Hi. apply Forall_forall. intros x (i & Hi' & ->)%page_range_elem.
  assert (HP : 0 < PGSIZE) by (unfold PGSIZE; lia). split; [|split].
  - by rewrite Z.mod_add by lia.
  - nia.
  - pose proof (Z.mul_div_le (PHYSTOP - p) PGSIZE HP). nia.
Qed.

Lemma core_at_initlock c me hs n l name :
  core_at c me hs n -> l ∉ hs ->
  core_at (set_c_spin (fun t x => if decide (x = l) then mkSpin 0 name None else t x) c) me hs n.
Proof.
  intros [] Hl. constructor; simpl; try done.
  - intros x Hx. rewrite decide_False by congruence. auto.
  - intros x Hx. destruct (decide _); [done|auto].
Qed.

(** ** Properties *)

(** [kinit] puts every page from the end of the kernel image to the top of RAM
    on the free list, once, and touches no memory below the first of them. *)
Theorem kinit_frees_all k me :
  core_ok (k_core k) me [] -> ph_freelist (k_phys k) = 0 ->
  KERNBASE <= img_end (k_img k) -> img_end (k_img k) <= PHYSTOP ->
  wp kinit (fun _ k' => exists l, kmem_ok (k_img k) (k_phys k') l /\
    (forall p, p ∈ l <-> page_ok (k_img k) p) /\
    (forall x, x < img_end (k_img k) -> ph_mem (k_phys k') x = ph_mem (k_phys k) x)) k.
Proof.
  intros Hc Hz Hi Hs. unfold kinit, freerange, initlock, upd_spin. wp_steps. simpl.
  destruct (PGROUNDUP_spec (img_end (k_img k))) as [Hm Hr];
    [unfold KERNBASE in *; lia|unfold PHYSTOP, KERNBASE, PGSIZE in *; lia|].
  set (p0 := PGROUNDUP (img_end (k_img k))) in *.
  pose proof (page_range_ok (k_img k) p0 Hm ltac:(lia)) as Hok.
  eapply (wp_kfree_all _ me [] 0 _ []).
  - simpl. apply core_at_initlock; [done|set_solver].
  - simpl. lia.
  - set_solver.
  - constructor; [done|exact Hz|constructor|constructor].
  - exact Hok.
  - rewrite app_nil_r. apply NoDup_page_range.
  - intros c' ph' _ _ Hkm Ho. simpl in *. exists (reverse (page_range p0 PHYSTOP)).
    rewrite app_nil_r in Hkm. split; [done|]. split.
    + intros p. rewrite elem_of_reverse. split.
      * intros Hp. rewrite Forall_forall in Hok. by apply Hok.
      * intros (Hp1 & Hp2 & Hp3). apply page_range_elem. exists ((p - p0) / PGSIZE).
        assert (HP : 0 < PGSIZE) by (unfold PGSIZE; lia).
        apply Z.div_exact in Hp1; [|lia]. apply Z.div_exact in Hm; [|lia].
        assert (E : p - p0 = (p / PGSIZE - p0 / PGSIZE) * PGSIZE) by lia.
        rewrite E, Z.div_mul by lia. split; [|lia]. split; [nia|].
        apply Z.div_le_lower_bound with (a := PHYSTOP - p0) (q := p / PGSIZE - p0 / PGSIZE + 1) in HP; lia.
    + intros x Hx. apply Ho. intros p (i & Hi' & ->)%page_range_elem. unfold PGSIZE. nia.
Qed.

Lemma kinit_frees_all_witness :
  exists k', kinit (first_kernel sample_disk (fun _ => 0) sample_image) = Ok tt k' /\
    exists l, kmem_ok sample_image (k_phys k') l /\ (forall p, p ∈ l <-> page_ok sample_image p).
Proof.
  assert (Hc : core_ok (k_core (first_kernel sample_disk (fun _ => 0) sample_image)) 0 []).
  { apply (held_core_ok []); [constructor|done]. }
  destruct (wp_ok _ _ _ (kinit_frees_all (first_kernel sample_disk (fun _ => 0) sample_image) 0 Hc eq_refl
    ltac:(vm_compute; discriminate) ltac:(vm_compute; discriminate))) as ([] & k' & E & l & H1 & H2 & _).
  exists k'. split; [exact E|]. exists l. exact (conj H1 H2).
Defined.

(** C5: [kalloc] returns 0 exactly when no page is free; otherwise it returns a free
    page, takes it off the list, so that it is not handed out again, and fills it
    with junk, changing no other memory. *)
Theorem kalloc_correct k me l :
  core_ok (k_core k) me [] -> kmem_ok (k_img k) (k_phys k) l ->
  wp kalloc (fun p k' =>
    match l with
    | [] => p = 0 /\ k_phys k' = k_phys k
    | x :: l' => p = x /\ page_ok (k_img k) p /\ p ∉ l' /\ kmem_ok (k_img k) (k_phys k') l' /\
        mread (ph_mem (k_phys k')) p (Z.to_nat PGSIZE) = replicate (Z.to_nat PGSIZE) 5 /\
        same_outside p (ph_mem (k_phys k)) (ph_mem (k_phys k'))
    end) k.
Proof.
  intros Hc Hk. eapply wp_kalloc; [exact Hc|simpl; lia|set_solver|exact Hk| |].
  - by intros ->.
  - intros p l' c' ph' -> _ _ Hk' Hp Hn Em. cbn [k_phys]. rewrite Em.
    refine (conj eq_refl (conj Hp (conj Hn (conj Hk' (conj _ (memset_outside _ _ _)))))).
    apply mread_memset. unfold PGSIZE. lia.
Qed.

(** Memory of zeros with one free page. *)
Definition one_page_kernel : kernel :=
  set_k_phys (set_ph_freelist (fun _ => 0x80100000)) (first_kernel sample_disk (fun _ => 0) sample_image).

Lemma one_page_ok : kmem_ok sample_image (k_phys one_page_kernel) [0x80100000].
Proof.
  constructor; [vm_compute; discriminate|split; reflexivity|apply NoDup_singleton|].
  apply Forall_singleton. split; [reflexivity|]. split; vm_compute; discriminate.
Qed.

Lemma kalloc_correct_witness :
  exists k', kalloc one_page_kernel = Ok 0x80100000 k' /\ kmem_ok sample_image (k_phys k') [].
Proof.
  assert (Hc : core_ok (k_core one_page_kernel) 0 []) by (apply (held_core_ok []); [constructor|done]).
  destruct (wp_ok _ _ _ (kalloc_correct one_page_kernel 0 [0x80100000] Hc one_page_ok))
    as (p & k' & E & -> & _ & _ & Hk & _).
  exists k'. exact (conj E Hk).
Defined.

(** [kfree] panics on an address that is no page of the allocator's; on an
    allocated page it puts the page on the list and changes no other page. *)
Theorem kfree_correct k me l p :
  core_ok (k_core k) me [] -> kmem_ok (k_img k) (k_phys k) l -> p ∉ l ->
  if decide (p mod PGSIZE = 0 /\ img_end (k_img k) <= p < PHYSTOP)
  then wp (kfree p) (fun _ k' => kmem_ok (k_img k) (k_phys k') (p :: l) /\
         same_outside p (ph_mem (k_phys k)) (ph_mem (k_phys k'))) k
  else kfree p k = Panic "kfree".
Proof.
  intros Hc Hk Hn. destruct (decide _) as [(Hm & H1 & H2)|Hno].
  - eapply wp_kfree; [exact Hc|simpl; lia|set_solver|exact Hk| |exact Hn|].
    + split; [done|]. split; [done|].
      destruct (pages_apart p PHYSTOP) as [|]; [done|reflexivity|lia|done|unfold PGSIZE in *; lia].
    + intros c' ph' _ _ Hk' Ho. done.
  - unfold kfree, M_bind, gets.
    destruct (Z.eqb_spec (p mod PGSIZE) 0), (Z.ltb_spec p (img_end (k_img k))), (Z.leb_spec PHYSTOP p);
      simpl; try done. exfalso. apply Hno. split; [done|lia].
Qed.

Lemma kfree_correct_witness :
  exists k', kfree 0x80200000 one_page_kernel = Ok tt k' /\
    kmem_ok sample_image (k_phys k') [0x80200000; 0x80100000].
Proof.
  assert (Hc : core_ok (k_core one_page_kernel) 0 []) by (apply (held_core_ok []); [constructor|done]).
  pose proof (kfree_correct one_page_kernel 0 [0x80100000] 0x80200000 Hc one_page_ok
    ltac:(rewrite list_elem_of_singleton; discriminate)) as H.
  rewrite decide_True in H by (split; [reflexivity|split; [vm_compute; discriminate|reflexivity]]).
  destruct (wp_ok _ _ _ H) as ([] & k' & E & Hk & _). exists k'. exact (conj E Hk).
Defined.
