(* ===== verification/Vm.v ===== *)
(** * Page tables and user memory (kernel/vm.c)

    A page table is a tree of pages in RAM with 512 64-bit entries each; [walk]
    and its callers read and write the entries in memory, as the code does.
    Buffers of the kernel that [copyin] and [copyout] fill or read are lists of
    bytes. *)

From S2P Require Import Prelude State Spin Strings Kalloc.

(** ** Definitions *)

Definition MAXVA : Z := Z.shiftl 1 (9 + 9 + 9 + 12 - 1).
Definition TRAMPOLINE : Z := MAXVA - PGSIZE.
Definition TRAPFRAME : Z := TRAMPOLINE - PGSIZE.
Definition KSTACK (p : Z) : Z := TRAMPOLINE - (p + 1) * 2 * PGSIZE.
Definition UART0 : Z := 0x10000000.
Definition VIRTIO0 : Z := 0x10001000.
Definition PLIC : Z := 0x0c000000.

Definition PTE_V : Z := Z.shiftl 1 0.
Definition PTE_R : Z := Z.shiftl 1 1.
Definition PTE_W : Z := Z.shiftl 1 2.
Definition PTE_X : Z := Z.shiftl 1 3.
Definition PTE_U : Z := Z.shiftl 1 4.

Definition PA2PTE (pa : Z) : Z := u64 (Z.shiftl (Z.shiftr pa 12) 10).
Definition PTE2PA (pte : Z) : Z := u64 (Z.shiftl (Z.shiftr pte 10) 12).
Definition PTE_FLAGS (pte : Z) : Z := Z.land pte 0x3FF.
Definition PXSHIFT (level : Z) : Z := 12 + 9 * level.
Definition PX (level va : Z) : Z := Z.land (Z.shiftr va (PXSHIFT level)) 0x1FF.

(** [pte & flag] as a condition. *)
Definition has (pte flag : Z) : bool := truthy (Z.land pte flag).

(** The loop of [walk] from [level] down to the last table. *)
Fixpoint walk_loop (level : nat) (pagetable va : Z) (alloc : bool) : K Z :=
  match level with
  | O => M_ret (pagetable + 8 * PX 0 va)
  | S l =>
      let pte := pagetable + 8 * PX (Z.of_nat level) va in
      let* e := ld64 pte in
      if has e PTE_V then walk_loop l (PTE2PA e) va alloc
      else if negb alloc then M_ret 0
      else
        let* p := kalloc in
        if p =? 0 then M_ret 0
        else
          upd_mem p PGSIZE (fun m => memset m p 0 PGSIZE) ;*
          st64 pte (Z.lor (PA2PTE p) PTE_V) ;*
          walk_loop l p va alloc
  end.

Definition walk (pagetable va : Z) (alloc : bool) : K Z :=
  if MAXVA <=? va then panic "walk" else walk_loop 2 pagetable va alloc.

Definition walkaddr (pagetable va : Z) : K Z :=
  if MAXVA <=? va then M_ret 0 else
  let* pte := walk pagetable va false in
  if pte =? 0 then M_ret 0 else
  let* e := ld64 pte in
  if negb (has e PTE_V) then M_ret 0 else
  if negb (has e PTE_U) then M_ret 0 else
  M_ret (PTE2PA e).

Fixpoint mappages_loop (fuel : nat) (pagetable a last pa perm : Z) : K Z :=
  match fuel with
  | O => nofuel
  | S fuel =>
      let* pte := walk pagetable a true in
      if pte =? 0 then M_ret (-1) else
      let* e := ld64 pte in
      if has e PTE_V then panic "mappages: remap" else
      st64 pte (Z.lor (Z.lor (PA2PTE pa) perm) PTE_V) ;*
      if a =? last then M_ret 0
      else mappages_loop fuel pagetable (u64 (a + PGSIZE)) last (u64 (pa + PGSIZE)) perm
  end.

(** The loop ends at [last], or when [walk] panics beyond [MAXVA]. *)
Definition mappages (pagetable va size pa perm : Z) : K Z :=
  if size =? 0 then panic "mappages: size" else
  let a := PGROUNDDOWN va in
  let last := PGROUNDDOWN (u64 (va + size - 1)) in
  let rounds := if a <=? last then (last - a) / PGSIZE + 1
                else Z.max 1 ((MAXVA - a) / PGSIZE + 2) in
  mappages_loop (Z.to_nat rounds) pagetable a last pa perm.

Definition kvmmap (kpgtbl va pa sz perm : Z) : K unit :=
  let* r := mappages kpgtbl va sz pa perm in
  if negb (r =? 0) then panic "kvmmap" else M_ret tt.

(** [for(a = va; a < last; a += PGSIZE)] as a list of addresses. *)
Definition page_addrs (va last : Z) : list Z :=
  (fun i => va + Z.of_nat i * PGSIZE) <$> seq 0 (Z.to_nat ((last - va + PGSIZE - 1) / PGSIZE)).

Definition uvmunmap (pagetable va npages : Z) (do_free : bool) : K unit :=
  if negb (va mod PGSIZE =? 0) then panic "uvmunmap: not aligned" else
  for_each (page_addrs va (u64 (va + npages * PGSIZE))) (fun a =>
    let* pte := walk pagetable a false in
    if pte =? 0 then panic "uvmunmap: walk" else
    let* e := ld64 pte in
    if negb (has e PTE_V) then panic "uvmunmap: not mapped" else
    if PTE_FLAGS e =? PTE_V then panic "uvmunmap: not a leaf" else
    when do_free (kfree (PTE2PA e)) ;*
    st64 pte 0).

Definition uvmcreate : K Z :=
  let* pagetable := kalloc in
  if pagetable =? 0 then M_ret 0 else
  upd_mem pagetable PGSIZE (fun m => memset m pagetable 0 PGSIZE) ;*
  M_ret pagetable.

(** The page is used whether or not [kalloc] had one. *)
Definition uvminit (pagetable : Z) (src : list Z) : K unit :=
  if PGSIZE <=? Z.of_nat (length src) then panic "inituvm: more than a page" else
  let* p := kalloc in
  upd_mem p PGSIZE (fun m => memset m p 0 PGSIZE) ;*
  let* _ := mappages pagetable 0 PGSIZE p (Z.lor (Z.lor (Z.lor PTE_W PTE_R) PTE_X) PTE_U) in
  st_mem p src.

Definition uvmdealloc (pagetable oldsz newsz : Z) : K Z :=
  if oldsz <=? newsz then M_ret oldsz else
  when (PGROUNDUP newsz <? PGROUNDUP oldsz)
    (let npages := i32 ((PGROUNDUP oldsz - PGROUNDUP newsz) / PGSIZE) in
     uvmunmap pagetable (PGROUNDUP newsz) (u64 npages) true) ;*
  M_ret newsz.

Definition uvmalloc (pagetable oldsz newsz : Z) : K Z :=
  if newsz <? oldsz then M_ret oldsz else
  let oldsz := PGROUNDUP oldsz in
  let* r := for_find (page_addrs oldsz newsz) (fun a =>
    let* p := kalloc in
    if p =? 0 then
      let* _ := uvmdealloc pagetable a oldsz in M_ret (Some 0)
    else
      upd_mem p PGSIZE (fun m => memset m p 0 PGSIZE) ;*
      let* r := mappages pagetable a PGSIZE p (Z.lor (Z.lor (Z.lor PTE_W PTE_X) PTE_R) PTE_U) in
      if negb (r =? 0) then
        kfree p ;*
        let* _ := uvmdealloc pagetable a oldsz in M_ret (Some 0)
      else M_ret None) in
  match r with
  | Some v => M_ret v
  | None => M_ret newsz
  end.

(** [levels] bounds the depth of the recursion; a page table has three. *)
Fixpoint freewalk (levels : nat) (pagetable : Z) : K unit :=
  match levels with
  | O => nofuel
  | S levels =>
      for_each (seq 0 512) (fun i =>
        let a := pagetable + 8 * Z.of_nat i in
        let* pte := ld64 a in
        if has pte PTE_V && negb (has pte (Z.lor (Z.lor PTE_R PTE_W) PTE_X)) then
          freewalk levels (PTE2PA pte) ;*
          st64 a 0
        else if has pte PTE_V then panic "freewalk: leaf"
        else M_ret tt) ;*
      kfree pagetable
  end.

Definition uvmfree (pagetable sz : Z) : K unit :=
  when (0 <? sz) (uvmunmap pagetable 0 (PGROUNDUP sz / PGSIZE) true) ;*
  freewalk 3 pagetable.

Definition uvmcopy (old new sz : Z) : K Z :=
  let* r := for_find (page_addrs 0 sz) (fun i =>
    let err := uvmunmap new 0 (i / PGSIZE) true ;* M_ret (Some (-1)) in
    let* pte := walk old i false in
    if pte =? 0 then panic "uvmcopy: pte should exist" else
    let* e := ld64 pte in
    if negb (has e PTE_V) then panic "uvmcopy: page not present" else
    let pa := PTE2PA e in
    let flags := PTE_FLAGS e in
    let* p := kalloc in
    if p =? 0 then err else
    (if in_ram pa PGSIZE then upd_mem p PGSIZE (fun m => memmove m p pa PGSIZE) else fault) ;*
    let* r := mappages new i PGSIZE p flags in
    if negb (r =? 0) then kfree p ;* err
    else M_ret None) in
  match r with
  | Some v => M_ret v
  | None => M_ret 0
  end.

Definition uvmclear (pagetable va : Z) : K unit :=
  let* pte := walk pagetable va false in
  if pte =? 0 then panic "uvmclear" else
  let* e := ld64 pte in
  st64 pte (Z.land e (Z.lnot PTE_U)).

(** Rounds enough for [len] bytes from any offset. *)
Definition copy_fuel (len : Z) : nat := (Z.to_nat (len / PGSIZE) + 3)%nat.

Fixpoint copyout_loop (fuel : nat) (pagetable dstva : Z) (src : list Z) : K Z :=
  match fuel with
  | O => nofuel
  | S fuel =>
      if (length src =? 0)%nat then M_ret 0 else
      let va0 := PGROUNDDOWN dstva in
      let* pa0 := walkaddr pagetable va0 in
      if pa0 =? 0 then M_ret (-1) else
      let n := Z.min (PGSIZE - (dstva - va0)) (Z.of_nat (length src)) in
      st_mem (pa0 + (dstva - va0)) (take (Z.to_nat n) src) ;*
      copyout_loop fuel pagetable (u64 (va0 + PGSIZE)) (drop (Z.to_nat n) src)
  end.

Definition copyout (pagetable dstva : Z) (src : list Z) : K Z :=
  copyout_loop (copy_fuel (Z.of_nat (length src))) pagetable dstva src.

(** [copyin] returns its result and the bytes it has put into the buffer, all of
    them or those before the first page that is not mapped. *)
Fixpoint copyin_loop (fuel : nat) (pagetable srcva len : Z) : K (Z * list Z) :=
  match fuel with
  | O => nofuel
  | S fuel =>
      if len <=? 0 then M_ret (0, []) else
      let va0 := PGROUNDDOWN srcva in
      let* pa0 := walkaddr pagetable va0 in
      if pa0 =? 0 then M_ret (-1, []) else
      let n := Z.min (PGSIZE - (srcva - va0)) len in
      let* b := ld_mem (pa0 + (srcva - va0)) (Z.to_nat n) in
      let* r := copyin_loop fuel pagetable (u64 (va0 + PGSIZE)) (len - n) in
      M_ret (r.1, b ++ r.2)
  end.

Definition copyin (pagetable srcva len : Z) : K (Z * list Z) :=
  copyin_loop (copy_fuel len) pagetable srcva len.

(** The bytes up to and including the first NUL, and whether there is one. *)
Fixpoint upto_nul (l : list Z) : list Z * bool :=
  match l with
  | [] => ([], false)
  | b :: l => if b =? 0 then ([0], true) else let r := upto_nul l in (b :: r.1, r.2)
  end.

Fixpoint copyinstr_loop (fuel : nat) (pagetable srcva max : Z) : K (Z * list Z) :=
  match fuel with
  | O => nofuel
  | S fuel =>
      if max <=? 0 then M_ret (-1, []) else
      let va0 := PGROUNDDOWN srcva in
      let* pa0 := walkaddr pagetable va0 in
      if pa0 =? 0 then M_ret (-1, []) else
      let n := Z.min (PGSIZE - (srcva - va0)) max in
      let* b := ld_mem (pa0 + (srcva - va0)) (Z.to_nat n) in
      let s := upto_nul b in
      if s.2 then M_ret (0, s.1) else
      let* r := copyinstr_loop fuel pagetable (u64 (va0 + PGSIZE)) (max - n) in
      M_ret (r.1, s.1 ++ r.2)
  end.

Definition copyinstr (pagetable srcva max : Z) : K (Z * list Z) :=
  copyinstr_loop (copy_fuel max) pagetable srcva max.

Definition proc_mapstacks (kpgtbl : Z) : K unit :=
  for_each (seq 0 NPROC) (fun p =>
    let* pa := kalloc in
    if pa =? 0 then panic "kalloc" else
    kvmmap kpgtbl (KSTACK (Z.of_nat p)) pa PGSIZE (Z.lor PTE_R PTE_W)).

Definition kvmmake : K Z :=
  let* kpgtbl := kalloc in
  upd_mem kpgtbl PGSIZE (fun m => memset m kpgtbl 0 PGSIZE) ;*
  let* img := gets k_img in
  kvmmap kpgtbl UART0 UART0 PGSIZE (Z.lor PTE_R PTE_W) ;*
  kvmmap kpgtbl VIRTIO0 VIRTIO0 PGSIZE (Z.lor PTE_R PTE_W) ;*
  kvmmap kpgtbl PLIC PLIC 0x400000 (Z.lor PTE_R PTE_W) ;*
  kvmmap kpgtbl KERNBASE KERNBASE (u64 (img_etext img - KERNBASE)) (Z.lor PTE_R PTE_X) ;*
  kvmmap kpgtbl (img_etext img) (img_etext img) (u64 (PHYSTOP - img_etext img)) (Z.lor PTE_R PTE_W) ;*
  kvmmap kpgtbl TRAMPOLINE (img_trampoline img) PGSIZE (Z.lor PTE_R PTE_X) ;*
  proc_mapstacks kpgtbl ;*
  M_ret kpgtbl.

Definition kvminit : K unit :=
  let* t := kvmmake in
  modify (set_k_phys (set_ph_kpgtbl (fun _ => t))).

(** ** Specification

    A page table is described by the pages of its tables, each under the path of
    indexes that leads to it: the root under [], a second-level table under
    [[i2]], a last-level table under [[i2; i1]]. *)

Definition word (m : mem) (a : Z) : Z := le_join (mread m a 8).

Abbreviation ptree := (gmap (list Z) Z).

Definition index_ok (i : Z) : Prop := 0 <= i < 512.

(** The entry for the table [q] one level down, or an invalid entry. *)
Definition entry_is (e : Z) (o : option Z) : Prop :=
  match o with
  | Some q => e = Z.lor (PA2PTE q) PTE_V
  | None => has e PTE_V = false
  end.

Record tree_ok (img : image) (m : mem) (t : ptree) : Prop := mkTreeOk {
  to_root : is_Some (t !! []);
  to_entry : forall path p i, t !! path = Some p -> (length path < 2)%nat -> index_ok i ->
    entry_is (word m (p + 8 * i)) (t !! (path ++ [i]));
  to_parent : forall path i q, t !! (path ++ [i]) = Some q -> is_Some (t !! path) /\ index_ok i;
  to_depth : forall path p, t !! path = Some p -> (length path <= 2)%nat;
  to_page : forall path p, t !! path = Some p -> page_ok img p;
  to_inj : forall path path' p, t !! path = Some p -> t !! path' = Some p -> path = path'
}.

(** The path of a virtual address to its last-level table, and its entry there;
    0 when there is no table. *)
Definition vpath (va : Z) : list Z := [PX 2 va; PX 1 va].

Definition leaf (m : mem) (t : ptree) (va : Z) : Z :=
  match t !! vpath va with
  | Some p => word m (p + 8 * PX 0 va)
  | None => 0
  end.

(** The page table [t] and the free pages [l] in physical memory. *)
Record vm_ok (img : image) (ph : phys) (t : ptree) (l : list Z) : Prop := mkVmOk {
  vo_kmem : kmem_ok img ph l;
  vo_tree : tree_ok img (ph_mem ph) t;
  vo_apart : forall path p, t !! path = Some p -> p ∉ l
}.

(** The page [p] is one of the tables of [t] or a free page. *)
Definition owned (t : ptree) (l : list Z) (p : Z) : Prop :=
  p ∈ l \/ exists path, t !! path = Some p.

(** The memory is the same outside the given pages. *)
Definition same_but (P : Z -> Prop) (m m' : mem) : Prop :=
  forall x, (forall p, P p -> ~ (p <= x < p + PGSIZE)) -> m' x = m x.

(** The physical address of a user address, and the user's bytes at [va]. *)
Definition uaddr (m : mem) (t : ptree) (va : Z) : option Z :=
  let e := leaf m t va in
  if (va <? MAXVA) && has e PTE_V && has e PTE_U then Some (PTE2PA e + va mod PGSIZE) else None.

Fixpoint uload (tr : Z -> option Z) (m : mem) (va : Z) (n : nat) : option (list Z) :=
  match n with
  | O => Some []
  | S n => match tr va with
           | Some a => cons (m a) <$> uload tr m (va + 1) n
           | None => None
           end
  end.

Definition ubytes (m : mem) (t : ptree) (va : Z) (n : nat) : option (list Z) :=
  uload (uaddr m t) m va n.

(** The memory with the bytes stored through the translation [tr], in order. *)
Fixpoint ustore (tr : Z -> option Z) (m : mem) (va : Z) (l : list Z) : mem :=
  match l with
  | [] => m
  | b :: l => match tr va with
              | Some a => ustore tr (mupd m a b) (va + 1) l
              | None => m
              end
  end.

(** The string at [va], of at most [n] bytes with its NUL: 0 and its bytes, or -1
    and the bytes before the end or the first address that is not mapped. *)
Fixpoint ustr (tr : Z -> option Z) (m : mem) (va : Z) (n : nat) : Z * list Z :=
  match n with
  | O => (-1, [])
  | S n => match tr va with
           | Some a => if m a =? 0 then (0, [0])
                       else let r := ustr tr m (va + 1) n in (r.1, m a :: r.2)
           | None => (-1, [])
           end
  end.

(** The frames of an address space are pages of memory that are neither free nor
    tables. *)
Definition frames_ok (img : image) (m : mem) (t : ptree) (l : list Z) : Prop :=
  forall va a, 0 <= va -> uaddr m t va = Some a ->
    page_ok img (a - va mod PGSIZE) /\ ~ owned t l (a - va mod PGSIZE).

(** ** Lemmas: entries and indexes *)

Lemma PX_range level va : index_ok (PX level va).
Proof.
  unfold PX, index_ok. change 0x1FF with (Z.ones 9). rewrite Z.land_ones by lia.
  apply Z.mod_pos_bound. lia.
Qed.

Lemma PX_div level va : 0 <= level -> PX level va = (va / (PGSIZE * 512 ^ level)) mod 512.
Proof.
  intros Hl. unfold PX, PXSHIFT. change 0x1FF with (Z.ones 9). rewrite Z.land_ones by lia.
  rewrite Z.shiftr_div_pow2 by lia. rewrite Z.pow_add_r by lia.
  rewrite (Z.pow_mul_r 2 9) by lia. done.
Qed.

(** The three indexes determine the page of an address below [MAXVA]. *)
Lemma PX_page va :
  0 <= va < MAXVA ->
  va / PGSIZE = PX 2 va * 512 ^ 2 + PX 1 va * 512 + PX 0 va.
Proof.
  intros Hv. rewrite !PX_div by lia. change (MAXVA) with (2 ^ 38) in Hv. unfold PGSIZE.
  change (4096 * 512 ^ 2) with (2 ^ 30). change (4096 * 512 ^ 1) with (2 ^ 21).
  change (4096 * 512 ^ 0) with (2 ^ 12). change 4096 with (2 ^ 12). change 512 with (2 ^ 9).
  change ((2 ^ 9) ^ 2) with (2 ^ 18).
  replace (2 ^ 30) with (2 ^ 12 * 2 ^ 18) by reflexivity.
  replace (2 ^ 21) with (2 ^ 12 * 2 ^ 9) by reflexivity.
  rewrite <- !Z.div_div by lia. set (v := va / 2 ^ 12).
  assert (0 <= v < 2 ^ 26).
  { unfold v. split; [apply Z.div_pos; lia|]. apply Z.div_lt_upper_bound; lia. }
  rewrite (Z.mod_small (v / 2 ^ 18)); [|split; [apply Z.div_pos; lia|apply Z.div_lt_upper_bound; lia]].
  replace (v / 2 ^ 18) with (v / 2 ^ 9 / 2 ^ 9) by (rewrite Z.div_div by lia; done).
  pose proof (Z.div_mod v (2 ^ 9) ltac:(lia)). pose proof (Z.div_mod (v / 2 ^ 9) (2 ^ 9) ltac:(lia)). lia.
Qed.

Lemma vpath_page va va' :
  0 <= va < MAXVA -> 0 <= va' < MAXVA -> vpath va = vpath va' -> PX 0 va = PX 0 va' ->
  va / PGSIZE = va' / PGSIZE.
Proof. intros H H' E E0. injection E as E2 E1. rewrite !PX_page by done. by rewrite E2, E1, E0. Qed.

(** Addresses of one page have one entry. *)
Lemma page_path va va' : va / PGSIZE = va' / PGSIZE -> vpath va = vpath va' /\ PX 0 va = PX 0 va'.
Proof.
  intros E. assert (Ep : forall lv, 0 <= lv -> PX lv va = PX lv va').
  { intros lv Hlv. rewrite !PX_div by done. assert (0 < 512 ^ lv) by (apply Z.pow_pos_nonneg; lia).
    rewrite <- !Z.div_div by (unfold PGSIZE; lia). by rewrite E. }
  unfold vpath. by rewrite !Ep by lia.
Qed.

Lemma leaf_page m t va va' : va / PGSIZE = va' / PGSIZE -> leaf m t va = leaf m t va'.
Proof. intros E. unfold leaf. by destruct (page_path _ _ E) as [-> ->]. Qed.

Lemma lor_bound a b n : 0 <= n -> 0 <= a < 2 ^ n -> 0 <= b < 2 ^ n -> 0 <= Z.lor a b < 2 ^ n.
Proof.
  intros Hn Ha Hb. split; [apply Z.lor_nonneg; lia|].
  apply Z.nle_gt. intros H. assert (E : Z.shiftr (Z.lor a b) n = 0).
  { rewrite Z.shiftr_lor, !Z.shiftr_div_pow2, !Z.div_small by lia. done. }
  rewrite Z.shiftr_div_pow2 in E by lia. assert (1 <= Z.lor a b / 2 ^ n) by (apply Z.div_le_lower_bound; lia). lia.
Qed.

Lemma land_low a f n : 0 <= n -> 0 <= f < 2 ^ n -> Z.land (Z.shiftl a n) f = 0.
Proof.
  intros Hn Hf. apply Z.bits_inj'. intros i Hi. rewrite Z.land_spec, Z.bits_0.
  destruct (decide (i < n)); [by rewrite Z.shiftl_spec_low by lia|].
  rewrite <- (Z.mod_small f (2 ^ n)) by lia. rewrite <- Z.land_ones by lia.
  rewrite Z.land_spec, Z.ones_spec_high by lia. by rewrite !andb_false_r.
Qed.

Lemma lor_low a f n : 0 <= n -> 0 <= f < 2 ^ n -> Z.lor (Z.shiftl a n) f = Z.shiftl a n + f.
Proof.
  intros Hn Hf. pose proof (Z.add_lor_land (Z.shiftl a n) f) as H.
  rewrite land_low in H by lia. lia.
Qed.

(** An entry: the page number above ten bits of flags. *)
Lemma pte_make q f :
  q mod PGSIZE = 0 -> 0 <= q < 2 ^ 56 -> 0 <= f < 2 ^ 10 ->
  Z.lor (PA2PTE q) f = Z.shiftl (q / PGSIZE) 10 + f /\
  PTE2PA (Z.lor (PA2PTE q) f) = q /\ PTE_FLAGS (Z.lor (PA2PTE q) f) = f /\
  0 <= Z.lor (PA2PTE q) f < 2 ^ 64.
Proof.
  intros Hm Hq Hf. unfold PA2PTE. rewrite Z.shiftr_div_pow2 by lia. change (2 ^ 12) with PGSIZE.
  assert (Hd : 0 <= q / PGSIZE < 2 ^ 44).
  { unfold PGSIZE. split; [apply Z.div_pos; lia|apply Z.div_lt_upper_bound; lia]. }
  assert (Hs : Z.shiftl (q / PGSIZE) 10 = (q / PGSIZE) * 2 ^ 10) by (apply Z.shiftl_mul_pow2; lia).
  rewrite u64_small by lia. rewrite lor_low by lia. split; [done|]. split; [|split].
  - unfold PTE2PA. rewrite Z.shiftr_div_pow2, Hs by lia.
    rewrite Z.div_add_l, (Z.div_small f) by lia. rewrite Z.add_0_r, Z.shiftl_mul_pow2 by lia.
    change (2 ^ 12) with PGSIZE. apply Z.div_exact in Hm; [|unfold PGSIZE; lia].
    rewrite u64_small; unfold PGSIZE in *; lia.
  - unfold PTE_FLAGS. change 0x3FF with (Z.ones 10). rewrite Z.land_ones, Hs by lia.
    rewrite Z.add_comm, Z.mod_add by lia. by apply Z.mod_small.
  - lia.
Qed.

Lemma has_V e : has e PTE_V = Z.odd e.
Proof.
  unfold has, truthy, PTE_V. change (Z.shiftl 1 0) with (Z.ones 1). rewrite Z.land_ones by lia.
  change (2 ^ 1) with 2. rewrite Zmod_odd. by destruct (Z.odd e).
Qed.

Lemma make_has_V q f :
  q mod PGSIZE = 0 -> 0 <= q < 2 ^ 56 -> 0 <= f < 2 ^ 10 -> Z.odd f = true ->
  has (Z.lor (PA2PTE q) f) PTE_V = true.
Proof.
  intros Hm Hq Hf Ho. destruct (pte_make q f Hm Hq Hf) as (E & _). rewrite has_V, E.
  rewrite Z.shiftl_mul_pow2, Z.odd_add, Z.odd_mul, Ho by lia. by rewrite andb_false_r.
Qed.

Lemma PTE_V_flag : 0 <= PTE_V < 2 ^ 10.
Proof. split; [discriminate|reflexivity]. Qed.

Lemma page_ok_small img p : KERNBASE <= img_end img -> page_ok img p -> p mod PGSIZE = 0 /\ 0 <= p < 2 ^ 56.
Proof. intros ? (? & ? & ?). unfold PHYSTOP, KERNBASE, PGSIZE in *. split; [done|lia]. Qed.

(** *** Words in memory *)

Lemma word_same m m' a :
  (forall x, a <= x < a + 8 -> m' x = m x) -> word m' a = word m a.
Proof. intros H. unfold word. f_equal. apply mread_ext. intros x Hx. apply H. lia. Qed.

Lemma word_mwrite m a v : 0 <= v < 2 ^ 64 -> word (mwrite m a (le_split 8 v)) a = v.
Proof. apply mem_word. Qed.

Lemma word_mwrite_ne m a b v :
  a + 8 <= b \/ b + 8 <= a -> word (mwrite m a (le_split 8 v)) b = word m b.
Proof. intros. apply word_same. intros x Hx. apply mwrite_out. len. Qed.

Lemma word_range m a : 0 <= word m a < 2 ^ 64.
Proof. unfold word. pose proof (le_join_bound (mread m a 8)) as H. rewrite length_mread in H. done. Qed.

Lemma word_memset0 m p a n :
  p <= a -> a + 8 <= p + n -> word (memset m p 0 n) a = 0.
Proof.
  intros Ha Hn. unfold word. replace (mread (memset m p 0 n) a 8) with (replicate 8 0); [done|].
  apply list_eq. intros i. destruct (decide (i < 8)%nat) as [Hi|Hi].
  - rewrite lookup_mread, lookup_replicate_2 by done. unfold memset.
    rewrite memset_loop_spec, decide_True by lia. done.
  - rewrite !lookup_ge_None_2; [done|rewrite length_mread; lia|simpl; lia].
Qed.

(** Entries of different tables, or different entries of one table, are apart. *)
Lemma entries_apart p q i j :
  p mod PGSIZE = 0 -> q mod PGSIZE = 0 -> index_ok i -> index_ok j -> p <> q \/ i <> j ->
  p + 8 * i + 8 <= q + 8 * j \/ q + 8 * j + 8 <= p + 8 * i.
Proof.
  intros Hp Hq Hi Hj Hne. unfold index_ok in *.
  destruct (decide (p = q)) as [->|Hpq]; [lia|].
  destruct (pages_apart p q Hp Hq Hpq); unfold PGSIZE in *; lia.
Qed.

(** ** Lemmas: walking *)

Lemma snoc_inj {A} (l l' : list A) x y : l ++ [x] = l' ++ [y] -> l = l' /\ x = y.
Proof. intros E. apply app_inj_tail in E. done. Qed.

(** The entry [i] of the table [p]. *)
Lemma ram_entry img p i :
  KERNBASE <= img_end img -> page_ok img p -> index_ok i -> in_ram (p + 8 * i) 8 = true.
Proof.
  intros ? (? & ? & ?) ?. unfold in_ram, index_ok, PGSIZE in *. apply andb_true_iff.
  split; apply Z.leb_le; lia.
Qed.

(** Following a valid entry. *)
Lemma entry_follow img m t path p i q :
  KERNBASE <= img_end img -> tree_ok img m t -> t !! path = Some p -> (length path < 2)%nat ->
  index_ok i -> t !! (path ++ [i]) = Some q ->
  has (word m (p + 8 * i)) PTE_V = true /\ PTE2PA (word m (p + 8 * i)) = q.
Proof.
  intros Hi Ht Hp Hl Hx Hq. pose proof (to_entry _ _ _ Ht _ _ _ Hp Hl Hx) as He. rewrite Hq in He.
  simpl in He. rewrite He.
  destruct (page_ok_small _ _ Hi (to_page _ _ _ Ht _ _ Hq)) as [Hm Hs].
  split; [by apply make_has_V|]. by apply (pte_make q PTE_V).
Qed.

Lemma entry_stop img m t path p i :
  tree_ok img m t -> t !! path = Some p -> (length path < 2)%nat ->
  index_ok i -> t !! (path ++ [i]) = None -> has (word m (p + 8 * i)) PTE_V = false.
Proof.
  intros Ht Hp Hl Hx Hq. pose proof (to_entry _ _ _ Ht _ _ _ Hp Hl Hx) as He. by rewrite Hq in He.
Qed.

(** The tree after a new table [q] is linked at entry [i] of the table [p]. *)
Section new_table.
Context (img : image) (m m' : mem) (t : ptree) (path : list Z) (p i q : Z).
Hypothesis Hi : KERNBASE <= img_end img.
Hypothesis Ht : tree_ok img m t.
Hypothesis Hp : t !! path = Some p.
Hypothesis Hl : (length path < 2)%nat.
Hypothesis Hx : index_ok i.
Hypothesis Hn : t !! (path ++ [i]) = None.
Hypothesis Hq : page_ok img q.
Hypothesis Hfresh : forall path', t !! path' <> Some q.
Hypothesis Hzero : forall j, index_ok j -> word m' (q + 8 * j) = 0.
Hypothesis Hlink : word m' (p + 8 * i) = Z.lor (PA2PTE q) PTE_V.
Hypothesis Hsame : forall path' p' j, t !! path' = Some p' -> index_ok j -> p' <> p \/ j <> i ->
  word m' (p' + 8 * j) = word m (p' + 8 * j).

Lemma new_table_tree : tree_ok img m' (<[path ++ [i] := q]> t).
Proof.
  assert (Hup : forall path' p', t !! path' = Some p' -> path' <> path ++ [i]) by (intros ? ? H ->; by rewrite Hn in H).
  constructor.
  - rewrite lookup_insert_ne; [apply Ht|]. intros E. by apply app_nil in E as [_ ?].
  - intros path' p' j Hp' Hl' Hj. rewrite lookup_insert in Hp'. case_decide as E.
    + injection Hp' as <-. subst path'. rewrite Hzero by done. rewrite lookup_insert_ne.
      * destruct (t !! ((path ++ [i]) ++ [j])) as [r|] eqn:Er; [|done].
        destruct (to_parent _ _ _ Ht _ _ _ Er) as [[s Hs] _]. by rewrite Hn in Hs.
      * intros E%(f_equal length). rewrite !length_app in E. simpl in E. lia.
    + destruct (decide (p' = p /\ j = i)) as [[-> ->]|Hne].
      * assert (path' = path) as -> by (eapply (to_inj _ _ _ Ht); eauto).
        by rewrite lookup_insert_eq.
      * rewrite (Hsame path') by (done || (destruct (decide (p' = p)); [right|left]; tauto)).
        rewrite lookup_insert_ne; [by apply Ht|]. intros [-> ->]%snoc_inj. apply Hne.
        split; [congruence|done].
  - intros path' j r Hr. rewrite lookup_insert in Hr. case_decide as E.
    + apply snoc_inj in E as [<- <-]. split; [|done]. exists p. rewrite lookup_insert_ne; [done|].
      intros E%(f_equal length). rewrite length_app in E. simpl in E. lia.
    + destruct (to_parent _ _ _ Ht _ _ _ Hr) as [[s Hs] Hj]. split; [|done]. exists s.
      rewrite lookup_insert_ne; [done|]. intros <-. by eapply Hup.
  - intros path' p' Hp'. rewrite lookup_insert in Hp'. case_decide as E.
    + subst. rewrite length_app. simpl. lia.
    + by eapply (to_depth _ _ _ Ht).
  - intros path' p' Hp'. rewrite lookup_insert in Hp'. case_decide as E; [by simplify_eq|].
    by eapply (to_page _ _ _ Ht).
  - intros p1 p2 r H1 H2. rewrite lookup_insert in H1, H2. repeat case_decide.
    + congruence.
    + destruct (Hfresh p2). congruence.
    + destruct (Hfresh p1). congruence.
    + by eapply (to_inj _ _ _ Ht).
Qed.

Lemma new_table_leaf va : leaf m' (<[path ++ [i] := q]> t) va = leaf m t va.
Proof.
  unfold leaf. rewrite lookup_insert. case_decide as E.
  - rewrite <- E, Hn. apply Hzero, PX_range.
  - destruct (t !! vpath va) as [p'|] eqn:Ep; [|done]. apply (Hsame _ _ _ Ep); [apply PX_range|].
    left. intros ->. assert (vpath va = path) as <- by (by eapply (to_inj _ _ _ Ht)). simpl in Hl. lia.
Qed.
End new_table.

(** What [walk] finds: the address of the entry, or 0. *)
Definition entry_addr (t : ptree) (va : Z) : Z :=
  match t !! vpath va with Some p => p + 8 * PX 0 va | None => 0 end.

Lemma wp_walk_false k t pt va Q :
  KERNBASE <= img_end (k_img k) -> tree_ok (k_img k) (ph_mem (k_phys k)) t -> t !! [] = Some pt ->
  va < MAXVA -> Q (entry_addr t va) k -> wp (walk pt va false) Q k.
Proof.
  intros Hi Ht H0 Hv HQ. unfold walk. rewrite (proj2 (Z.leb_gt _ _)) by lia. unfold entry_addr in HQ.
  assert (Hstep : forall path p i f, t !! path = Some p -> (length path < 2)%nat -> index_ok i ->
    (t !! (path ++ [i]) = None -> Q 0 k) ->
    (forall q, t !! (path ++ [i]) = Some q -> wp (f q) Q k) ->
    wp (let* e := ld64 (p + 8 * i) in
        if has e PTE_V then f (PTE2PA e) else M_ret 0) Q k).
  { intros path p i f Hp Hl Hx HN HS. wp_steps.
    apply wp_ld64; [eapply ram_entry; eauto; by eapply (to_page _ _ _ Ht)|].
    change (le_join (mread (ph_mem (k_phys k)) (p + 8 * i) 8)) with (word (ph_mem (k_phys k)) (p + 8 * i)).
    destruct (t !! (path ++ [i])) as [q|] eqn:Eq.
    - destruct (entry_follow _ _ _ _ _ _ _ Hi Ht Hp Hl Hx Eq) as [-> ->]. by apply HS.
    - rewrite (entry_stop _ _ _ _ _ _ Ht Hp Hl Hx Eq). by apply HN. }
  assert (Hnone : t !! [PX 2 va] = None -> t !! vpath va = None).
  { intros HN. destruct (t !! vpath va) as [r|] eqn:Er; [|done].
    destruct (to_parent _ _ _ Ht [PX 2 va] (PX 1 va) r Er) as [[s Hs] _]. by rewrite HN in Hs. }
  simpl. apply (Hstep [] pt (PX 2 va) (fun q => let* e := ld64 (q + 8 * PX 1 va) in
    if has e PTE_V then M_ret (PTE2PA e + 8 * PX 0 va) else M_ret 0)); [done|simpl; lia|apply PX_range| |].
  - intros HN. simpl in HN. by rewrite Hnone in HQ.
  - intros q Hq. apply (Hstep [PX 2 va] q (PX 1 va) (fun q => M_ret (q + 8 * PX 0 va)));
      [done|simpl; lia|apply PX_range| |].
    + intros HN. change ([PX 2 va] ++ [PX 1 va]) with (vpath va) in HN. by rewrite HN in HQ.
    + intros r Hr. change ([PX 2 va] ++ [PX 1 va]) with (vpath va) in Hr. rewrite Hr in HQ. by wp_steps.
Qed.

(** What changes when tables are added. *)
Record grown (img : image) (ph ph' : phys) (t t' : ptree) (l l' : list Z) : Prop := mkGrown {
  gr_vm : vm_ok img ph' t' l';
  gr_sub : t ⊆ t';
  gr_leaf : forall va, leaf (ph_mem ph') t' va = leaf (ph_mem ph) t va;
  gr_mem : same_but (owned t l) (ph_mem ph) (ph_mem ph');
  gr_own : forall p, owned t' l' p -> owned t l p
}.

Lemma grown_refl img ph t l : vm_ok img ph t l -> grown img ph ph t t l l.
Proof. intros H. constructor; try done. Qed.

Lemma grown_trans img ph1 ph2 ph3 t1 t2 t3 l1 l2 l3 :
  grown img ph1 ph2 t1 t2 l1 l2 -> grown img ph2 ph3 t2 t3 l2 l3 -> grown img ph1 ph3 t1 t3 l1 l3.
Proof.
  intros [V1 S1 L1 M1 O1] [V2 S2 L2 M2 O2]. constructor; [done|by etrans| | |auto].
  - intros va. by rewrite L2, L1.
  - intros x Hx. rewrite M2; [apply M1, Hx|]. intros p Hp. apply Hx. auto.
Qed.

(** Linking a page from the free list into the tree. *)
Lemma wp_new_table k me hs n t l path p i cont Q :
  core_at (k_core k) me hs n -> Z.of_nat (length hs + n) + 1 < 2 ^ 30 -> LKmem ∉ hs ->
  vm_ok (k_img k) (k_phys k) t l -> t !! path = Some p -> (length path < 2)%nat -> index_ok i ->
  t !! (path ++ [i]) = None ->
  (l = [] -> forall c', core_at c' me hs n -> same_but_locks (k_core k) c' -> Q 0 (with_core k c')) ->
  (forall q l' c' ph', l = q :: l' -> core_at c' me hs n -> same_but_locks (k_core k) c' ->
     grown (k_img k) (k_phys k) ph' t (<[path ++ [i] := q]> t) l l' ->
     wp (cont q) Q (phys_kernel k c' ph')) ->
  wp (let* q := kalloc in
      if q =? 0 then M_ret 0
      else upd_mem q PGSIZE (fun m => memset m q 0 PGSIZE) ;*
           st64 (p + 8 * i) (Z.lor (PA2PTE q) PTE_V) ;*
           cont q) Q k.
Proof.
  intros Hc Hlt Hlk Hv Hp Hl Hx Hn HN HS. pose proof Hv as [Hkm Ht Hap].
  pose proof (km_img _ _ _ Hkm) as Hi.
  wp_steps. eapply wp_kalloc; [exact Hc|exact Hlt|exact Hlk|exact Hkm| |].
  - intros -> c' H' Hs'. wp_steps. by apply HN.
  - intros q l' c' ph1 -> H' Hs' Hkm1 Hq Hnq Em.
    pose proof (page_ok_small _ _ Hi Hq) as [Hqm Hqs]. pose proof (page_small _ _ Hi Hq) as Hq0.
    rewrite (proj2 (Z.eqb_neq _ _)) by lia. wp_steps.
    apply wp_upd_mem; [by eapply ram_page|]. wp_steps.
    apply wp_st64; [eapply ram_entry; [exact Hi|by eapply (to_page _ _ _ Ht)|done]|].
    assert (Hpp : page_ok (k_img k) p) by (by eapply (to_page _ _ _ Ht)).
    assert (Hpq : p <> q) by (intros ->; apply (Hap _ _ Hp); left).
    destruct (pte_make q PTE_V Hqm Hqs PTE_V_flag) as (_ & _ & _ & Hr).
    set (m2 := memset (ph_mem ph1) q 0 PGSIZE).
    set (m3 := mwrite m2 (p + 8 * i) (le_split 8 (Z.lor (PA2PTE q) PTE_V))).
    assert (Hqo : same_outside q (ph_mem (k_phys k)) m2).
    { eapply (same_outside_trans _ _ (ph_mem ph1)); [rewrite Em|]; apply memset_outside. }
    clear Em.
    assert (Hpo : same_outside p m2 m3).
    { intros x Hxp. apply mwrite_out. len. unfold index_ok, PGSIZE in *. lia. }
    assert (Hout : same_but (owned t (q :: l')) (ph_mem (k_phys k)) m3).
    { intros x Hxo. rewrite Hpo; [apply Hqo|]; apply Hxo; [left; left|right; eauto]. }
    assert (Hz2 : forall j, index_ok j -> word m2 (q + 8 * j) = 0).
    { intros j Hj. apply word_memset0; unfold index_ok, PGSIZE in *; lia. }
    destruct Hkm1 as [_ Hf1 Hnd1 Hpg1].
    assert (Hf2 : flist m2 (ph_freelist ph1) l').
    { eapply (flist_outside _ (ph_mem ph1) _ q); [exact Hq|exact Hnq|exact Hpg1|apply memset_outside|exact Hf1]. }
    apply (HS q l' c' (mkPhys m3 (ph_freelist ph1) (ph_kpgtbl ph1))); [done|exact H'|exact Hs'|].
    clearbody m2.
    assert (Hfresh : forall path', t !! path' <> Some q) by (intros path' E; apply (Hap _ _ E); left).
    assert (Hzero : forall j, index_ok j -> word m3 (q + 8 * j) = 0).
    { intros j Hj. unfold m3. rewrite word_mwrite_ne.
      - by apply Hz2.
      - apply entries_apart; try done; [apply Hpp|by left]. }
    assert (Hlink : word m3 (p + 8 * i) = Z.lor (PA2PTE q) PTE_V) by (by apply word_mwrite).
    assert (Hsame : forall path' p' j, t !! path' = Some p' -> index_ok j -> p' <> p \/ j <> i ->
      word m3 (p' + 8 * j) = word (ph_mem (k_phys k)) (p' + 8 * j)).
    { intros path' p' j Hp' Hj Hne. unfold m3. pose proof (to_page _ _ _ Ht _ _ Hp') as (Hp'm & _).
      rewrite word_mwrite_ne by (apply entries_apart; try done; [apply Hpp|destruct Hne; [left|right]; congruence]).
      apply word_same. intros x Hxx. apply Hqo.
      assert (p' <> q) by (intros ->; by apply (Hfresh path')).
      destruct (pages_apart p' q); try done; unfold index_ok, PGSIZE in *; lia. }
    constructor; cbn [ph_mem].
    + constructor; cbn [ph_mem ph_freelist].
      * constructor; try done; cbn [ph_mem ph_freelist].
        eapply (flist_outside _ m2 _ p); [exact Hpp|intros Hin; apply (Hap _ _ Hp); by right|done|done|done].
      * by eapply new_table_tree.
      * intros path' p'. rewrite lookup_insert. case_decide; [by intros [= <-]|].
        intros Hp' Hin. apply (Hap _ _ Hp'). by right.
    + by apply insert_subseteq.
    + intros va. by eapply new_table_leaf.
    + exact Hout.
    + intros x [Hx'|[path' Hp']]; [left; by right|]. rewrite lookup_insert in Hp'. case_decide.
      * injection Hp' as ->. left. left.
      * right. eauto.
Qed.

(** The second step of [walk] with [alloc]. *)
Lemma wp_walk_last k me hs n t l p va Q :
  core_at (k_core k) me hs n -> Z.of_nat (length hs + n) + 1 < 2 ^ 30 -> LKmem ∉ hs ->
  vm_ok (k_img k) (k_phys k) t l -> t !! [PX 2 va] = Some p ->
  (forall c' ph' t', core_at c' me hs n -> same_but_locks (k_core k) c' ->
     grown (k_img k) (k_phys k) ph' t t' l [] -> Q 0 (phys_kernel k c' ph')) ->
  (forall c' ph' t' l' q, core_at c' me hs n -> same_but_locks (k_core k) c' ->
     grown (k_img k) (k_phys k) ph' t t' l l' -> t' !! vpath va = Some q ->
     Q (q + 8 * PX 0 va) (phys_kernel k c' ph')) ->
  wp (walk_loop 1 p va true) Q k.
Proof.
  intros Hc Hlt Hlk Hv Hp HN HS. pose proof Hv as [Hkm Ht Hap]. pose proof (km_img _ _ _ Hkm) as Hi.
  cbn [walk_loop]. wp_steps. pose proof (PX_range 1 va) as Hx.
  change (PX (Z.of_nat 1) va) with (PX 1 va).
  apply wp_ld64; [eapply ram_entry; [exact Hi|by eapply (to_page _ _ _ Ht)|done]|].
  fold (word (ph_mem (k_phys k)) (p + 8 * PX 1 va)).
  destruct (t !! ([PX 2 va] ++ [PX 1 va])) as [q|] eqn:Eq.
  - destruct (entry_follow _ _ _ [PX 2 va] _ _ _ Hi Ht Hp ltac:(simpl; lia) Hx Eq) as [-> ->].
    wp_steps. destruct k. eapply HS; [exact Hc|done|by apply grown_refl|exact Eq].
  - rewrite (entry_stop _ _ _ [PX 2 va] _ _ Ht Hp ltac:(simpl; lia) Hx Eq). cbn [negb].
    eapply (wp_new_table k me hs n t l [PX 2 va] p (PX 1 va) (fun q => M_ret (q + 8 * PX 0 va)));
      try done; [simpl; lia| |].
    + intros -> c' H' Hs'. rewrite kernel_same_phys. eapply HN; [done|done|by apply grown_refl].
    + intros q l' c' ph' -> H' Hs' Hg. wp_steps. eapply HS; try done. apply lookup_insert_eq.
Qed.

Lemma wp_walk_true k me hs n t l pt va Q :
  core_at (k_core k) me hs n -> Z.of_nat (length hs + n) + 1 < 2 ^ 30 -> LKmem ∉ hs ->
  vm_ok (k_img k) (k_phys k) t l -> t !! [] = Some pt -> va < MAXVA ->
  (forall c' ph' t', core_at c' me hs n -> same_but_locks (k_core k) c' ->
     grown (k_img k) (k_phys k) ph' t t' l [] -> Q 0 (phys_kernel k c' ph')) ->
  (forall c' ph' t' l' q, core_at c' me hs n -> same_but_locks (k_core k) c' ->
     grown (k_img k) (k_phys k) ph' t t' l l' -> t' !! vpath va = Some q ->
     Q (q + 8 * PX 0 va) (phys_kernel k c' ph')) ->
  wp (walk pt va true) Q k.
Proof.
  intros Hc Hlt Hlk Hv Hp Hva HN HS. pose proof Hv as [Hkm Ht Hap]. pose proof (km_img _ _ _ Hkm) as Hi.
  unfold walk. rewrite (proj2 (Z.leb_gt _ _)) by lia.
  change (walk_loop 2 pt va true) with (let* e := ld64 (pt + 8 * PX 2 va) in
    if has e PTE_V then walk_loop 1 (PTE2PA e) va true
    else let* q := kalloc in
      if q =? 0 then M_ret 0
      else upd_mem q PGSIZE (fun m => memset m q 0 PGSIZE) ;*
           st64 (pt + 8 * PX 2 va) (Z.lor (PA2PTE q) PTE_V) ;*
           walk_loop 1 q va true).
  wp_steps. pose proof (PX_range 2 va) as Hx.
  apply wp_ld64; [eapply ram_entry; [exact Hi|by eapply (to_page _ _ _ Ht)|done]|].
  fold (word (ph_mem (k_phys k)) (pt + 8 * PX 2 va)).
  destruct (t !! ([] ++ [PX 2 va])) as [q|] eqn:Eq.
  - destruct (entry_follow _ _ _ [] _ _ _ Hi Ht Hp ltac:(simpl; lia) Hx Eq) as [-> ->].
    by eapply wp_walk_last.
  - rewrite (entry_stop _ _ _ [] _ _ Ht Hp ltac:(simpl; lia) Hx Eq).
    eapply (wp_new_table k me hs n t l [] pt (PX 2 va) (fun q => walk_loop 1 q va true));
      try done; [simpl; lia| |].
    + intros -> c' H' Hs'. rewrite kernel_same_phys. eapply HN; [done|done|by apply grown_refl].
    + intros q l' c' ph' -> H' Hs' Hg. pose proof (gr_vm _ _ _ _ _ _ _ Hg) as Hv'.
      eapply (wp_walk_last (phys_kernel k c' ph')); try done; [apply lookup_insert_eq| |].
      * intros c2 ph2 t2 H2 Hs2 Hg2. eapply HN; [done|by eapply same_but_locks_trans|by eapply grown_trans].
      * intros c2 ph2 t2 l2 r H2 Hs2 Hg2 Hr.
        eapply HS; [done|by eapply same_but_locks_trans|by eapply grown_trans|done].
Qed.

(** ** Lemmas: mapping *)

(** Writing the entry of an address. *)
Lemma vm_set_leaf img ph t l va q v :
  vm_ok img ph t l -> t !! vpath va = Some q -> 0 <= va < MAXVA -> 0 <= v < 2 ^ 64 ->
  let ph' := set_ph_mem (fun m => mwrite m (q + 8 * PX 0 va) (le_split 8 v)) ph in
  vm_ok img ph' t l /\ same_but (owned t l) (ph_mem ph) (ph_mem ph') /\
  forall va', 0 <= va' < MAXVA ->
    leaf (ph_mem ph') t va' = if decide (va' / PGSIZE = va / PGSIZE) then v else leaf (ph_mem ph) t va'.
Proof.
  intros [[Hi Hfl Hnd Hpg] Ht Hap] Hq Hva Hv ph'. pose proof (PX_range 0 va) as Hx.
  pose proof (to_page _ _ _ Ht _ _ Hq) as Hqp. destruct Hqp as (Hqm & _).
  assert (Hqo : same_outside q (ph_mem ph) (ph_mem ph')).
  { intros x Hxq. apply mwrite_out. len. unfold index_ok, PGSIZE in *. lia. }
  split; [|split].
  - constructor.
    + constructor; try done. eapply (flist_outside _ (ph_mem ph) _ q); try done.
      * by eapply (to_page _ _ _ Ht).
      * by apply (Hap _ _ Hq).
    + destruct Ht as [Hr He Hpa Hde Hpo Hin]. constructor; try done.
      intros path p i Hp Hl Hii. cbn [ph' set_ph_mem ph_mem]. rewrite word_mwrite_ne; [by apply He|].
      apply entries_apart; try done; [by apply (Hpo _ _ Hp)|]. left. intros ->.
      assert (path = vpath va) as -> by (by eapply Hin). simpl in Hl. lia.
    + done.
  - intros x Hxo. apply Hqo, Hxo. right. eauto.
  - intros va' Hva'. unfold leaf. destruct (decide (va' / PGSIZE = va / PGSIZE)) as [E|E].
    + destruct (page_path _ _ E) as [-> ->].
      rewrite Hq. by apply word_mwrite.
    + destruct (t !! vpath va') as [q'|] eqn:Eq'; [|done]. cbn [ph' set_ph_mem ph_mem].
      apply word_mwrite_ne. apply entries_apart; [done|by apply (to_page _ _ _ Ht _ _ Eq')|done|apply PX_range|].
      destruct (decide (q = q')) as [<-|]; [right|by left]. intros E0. apply E.
      symmetry. apply vpath_page; try done. by eapply (to_inj _ _ _ Ht).
Qed.

(** The entries after [j] pages from [a] on are mapped to [pa] on. *)
Definition mapped (a pa perm j : Z) (old : Z -> Z) (va : Z) : Z :=
  if decide (a <= va < a + j * PGSIZE)
  then Z.lor (Z.lor (PA2PTE (pa + (va - a) / PGSIZE * PGSIZE)) perm) PTE_V else old va.

(** The result of mapping pages. *)
Record remapped (img : image) (ph ph' : phys) (t t' : ptree) (l l' : list Z) (a pa perm j : Z) :
    Prop := mkRemapped {
  rm_vm : vm_ok img ph' t' l';
  rm_sub : t ⊆ t';
  rm_leaf : forall va, 0 <= va < MAXVA ->
    leaf (ph_mem ph') t' va = mapped a pa perm j (leaf (ph_mem ph) t) va;
  rm_mem : same_but (owned t l) (ph_mem ph) (ph_mem ph');
  rm_own : forall p, owned t' l' p -> owned t l p
}.

Lemma aligned_div a : a mod PGSIZE = 0 -> a = a / PGSIZE * PGSIZE.
Proof. intros H. apply Z.div_exact in H; [lia|unfold PGSIZE; lia]. Qed.

(** One page mapped, and then [j] more. *)
Lemma mapped_S a pa perm j old va :
  a mod PGSIZE = 0 -> 0 <= j ->
  mapped (a + PGSIZE) (pa + PGSIZE) perm j (mapped a pa perm 1 old) va = mapped a pa perm (j + 1) old va.
Proof.
  intros Ha Hj. unfold mapped. assert (HP : 0 < PGSIZE) by (unfold PGSIZE; lia).
  repeat case_decide; try lia; try done.
  do 3 f_equal. replace (va - a) with (va - (a + PGSIZE) + 1 * PGSIZE) by lia.
  rewrite Z.div_add by lia. lia.
Qed.

Lemma wp_mappages_loop fuel k me hs n t l pt a last pa perm Q :
  core_at (k_core k) me hs n -> Z.of_nat (length hs + n) + 1 < 2 ^ 30 -> LKmem ∉ hs ->
  vm_ok (k_img k) (k_phys k) t l -> t !! [] = Some pt ->
  a mod PGSIZE = 0 -> last mod PGSIZE = 0 -> 0 <= a <= last -> last < MAXVA ->
  Z.of_nat fuel = (last - a) / PGSIZE + 1 ->
  pa mod PGSIZE = 0 -> 0 <= pa -> pa + (last - a) < 2 ^ 56 -> 0 <= perm < 2 ^ 10 ->
  (forall va, a <= va < last + PGSIZE -> has (leaf (ph_mem (k_phys k)) t va) PTE_V = false) ->
  (forall r c' ph' t' l' j, core_at c' me hs n -> same_but_locks (k_core k) c' ->
     remapped (k_img k) (k_phys k) ph' t t' l l' a pa perm j ->
     (r = 0 /\ j = Z.of_nat fuel \/ r = -1 /\ 0 <= j < Z.of_nat fuel /\ l' = []) ->
     Q r (phys_kernel k c' ph')) ->
  wp (mappages_loop fuel pt a last pa perm) Q k.
Proof.
  revert k t l a pa. induction fuel as [|fuel IH];
    intros k t l a pa Hc Hlt Hlk Hv Hpt Ha Hla Hal Hmax Hf Hpam Hpa Hpb Hperm Hfree HQ.
  { assert (0 <= (last - a) / PGSIZE) by (apply Z.div_pos; unfold PGSIZE; lia). lia. }
  assert (HP : 0 < PGSIZE) by (unfold PGSIZE; lia).
  cbn [mappages_loop]. wp_steps. eapply wp_walk_true; try done; [lia| |].
  - intros c1 ph1 t1 H1 Hs1 [V1 S1 L1 M1 O1]. simpl. wp_steps.
    eapply (HQ _ _ _ t1 [] 0); [done|done| |right; split_ands; try done; lia].
    constructor; try done. intros va Hva. unfold mapped. rewrite decide_False by lia. apply L1.
  - intros c1 ph1 t1 l1 q H1 Hs1 Hg Hq. pose proof Hg as [V1 S1 L1 M1 O1].
    pose proof (vo_tree _ _ _ _ V1) as Ht1. pose proof (to_page _ _ _ Ht1 _ _ Hq) as Hqp.
    pose proof (km_img _ _ _ (vo_kmem _ _ _ _ V1)) as Hi. pose proof (PX_range 0 a) as Hx.
    pose proof (page_small _ _ Hi Hqp) as Hq0.
    rewrite (proj2 (Z.eqb_neq _ _)) by (unfold index_ok in *; lia). wp_steps.
    apply wp_ld64; [by eapply ram_entry|].
    cbn [k_phys]. fold (word (ph_mem ph1) (q + 8 * PX 0 a)).
    assert (El : leaf (ph_mem ph1) t1 a = word (ph_mem ph1) (q + 8 * PX 0 a))
      by (unfold leaf; by rewrite Hq).
    rewrite <- El, L1, Hfree by lia. wp_steps.
    apply wp_st64; [by eapply ram_entry|].
    set (v := Z.lor (Z.lor (PA2PTE pa) perm) PTE_V).
    assert (Hflags : 0 <= Z.lor perm PTE_V < 2 ^ 10) by (apply lor_bound; [lia|done|apply PTE_V_flag]).
    assert (0 <= last - a) by lia.
    destruct (pte_make pa (Z.lor perm PTE_V) Hpam ltac:(lia) Hflags) as (_ & _ & _ & Hvr).
    rewrite Z.lor_assoc in Hvr. fold v in Hvr.
    destruct (vm_set_leaf _ _ _ _ a q v V1 Hq ltac:(lia) Hvr) as (V2 & M2 & L2).
    set (ph2 := set_ph_mem _ ph1) in *.
    assert (HR : remapped (k_img k) (k_phys k) ph2 t t1 l l1 a pa perm 1).
    { constructor; try done.
      - intros va Hva. rewrite L2 by done. unfold mapped.
        assert (Ed : va / PGSIZE = a / PGSIZE <-> a <= va < a + 1 * PGSIZE).
        { pose proof (aligned_div a Ha). pose proof (Z.div_mod va PGSIZE ltac:(lia)).
          pose proof (Z.mod_pos_bound va PGSIZE HP). split; [intros; lia|intros; nia]. }
        destruct (decide (va / PGSIZE = a / PGSIZE)) as [E|E].
        + rewrite decide_True by (by apply Ed). unfold v. do 3 f_equal.
          rewrite Z.div_small; [lia|]. apply Ed in E. lia.
        + rewrite decide_False by tauto. apply L1.
      - intros x Hxo. rewrite M2; [by apply M1|]. intros p Hp. apply Hxo. auto. }
    destruct (Z.eqb_spec a last) as [->|Hne].
    + wp_steps. eapply (HQ _ _ _ t1 l1 1); [done|done|exact HR|].
      left. split; [done|]. rewrite Z.sub_diag, Z.div_0_l in Hf by lia. lia.
    + assert (Hge : a + PGSIZE <= last).
      { pose proof (aligned_div a Ha). pose proof (aligned_div last Hla). unfold PGSIZE in *. lia. }
      change MAXVA with (2 ^ 38) in *. rewrite !u64_small by lia.
      eapply (IH (phys_kernel k c1 ph2) t1 l1); try done.
      * by eapply lookup_weaken.
      * rewrite <- Zplus_mod_idemp_r, Z.mod_same, Z.add_0_r by lia. done.
      * lia.
      * replace (last - (a + PGSIZE)) with (last - a + (-1) * PGSIZE) by lia.
        rewrite Z.div_add by lia. lia.
      * rewrite <- Zplus_mod_idemp_r, Z.mod_same, Z.add_0_r by lia. done.
      * lia.
      * lia.
      * intros va Hva'. cbn [k_phys]. change (2 ^ 38) with MAXVA in *.
        assert (va < MAXVA).
        { pose proof (aligned_div last Hla). change MAXVA with (67108864 * PGSIZE) in *. unfold PGSIZE in *. lia. }
        rewrite (rm_leaf _ _ _ _ _ _ _ _ _ _ _ HR) by lia.
        unfold mapped. rewrite decide_False by lia. apply Hfree. lia.
      * cbn [k_core k_phys]. intros r c3 ph3 t3 l3 j H3 Hs3 [V3 S3 L3 M3 O3] Hr.
        eapply (HQ r c3 ph3 t3 l3 (j + 1)); [done|by eapply same_but_locks_trans| |]; cycle 1.
        { destruct Hr as [[-> ->]|(-> & ? & ->)]; [left; lia|right; split_ands; (done || lia)]. }
        destruct HR as [_ _ LR MR OR]. constructor; [done|by etrans| | |auto].
        -- intros va Hva. change (2 ^ 38) with MAXVA in *. rewrite L3, <- mapped_S by (done || lia).
           unfold mapped at 1 2. case_decide; [done|]. by apply LR.
        -- intros x Hxo. rewrite M3; [by apply MR|]. intros p Hp. apply Hxo. auto.
Qed.

(** ** Lemmas: copying *)

Lemma uload_app tr m va n1 n2 :
  uload tr m va (n1 + n2) =
  match uload tr m va n1, uload tr m (va + Z.of_nat n1) n2 with
  | Some b1, Some b2 => Some (b1 ++ b2)
  | _, _ => None
  end.
Proof.
  revert va. induction n1 as [|n1 IH]; intros va; simpl.
  - rewrite Z.add_0_r. by destruct (uload _ _ _ _).
  - destruct (tr va) as [a|]; [|done]. rewrite IH.
    replace (va + 1 + Z.of_nat n1) with (va + Z.of_nat (S n1)) by lia. simpl.
    destruct (uload tr m (va + 1) n1) as [b1|]; [|done]. simpl. by destruct (uload _ _ _ _).
Qed.

Lemma uload_chunk tr m va a n :
  (forall i, 0 <= i < Z.of_nat n -> tr (va + i) = Some (a + i)) -> uload tr m va n = Some (mread m a n).
Proof.
  revert va a. induction n as [|n IH]; intros va a H; [done|]. simpl.
  replace va with (va + 0) at 1 by lia. rewrite H, Z.add_0_r, mread_S by lia.
  by rewrite (IH (va + 1) (a + 1)) by (intros i Hi; rewrite <- !Z.add_assoc; apply H; lia).
Qed.

Lemma uload_length tr m va n b : uload tr m va n = Some b -> length b = n.
Proof.
  revert va b. induction n as [|n IH]; intros va b; simpl; [by intros [= <-]|].
  destruct (tr va); [|done]. destruct (uload tr m (va + 1) n) as [b'|] eqn:E; [|done].
  intros [= <-]. simpl. f_equal. by eapply IH.
Qed.

Lemma ustore_ext tr m m' va l x :
  (forall y, m y = m' y) -> ustore tr m va l x = ustore tr m' va l x.
Proof.
  revert m m' va. induction l as [|b l IH]; intros m m' va H; simpl; [done|].
  destruct (tr va) as [a|]; [|done]. apply IH. intros y. unfold mupd. by destruct (y =? a).
Qed.

Lemma ustore_app tr m va l1 l2 x :
  is_Some (uload tr m va (length l1)) ->
  ustore tr m va (l1 ++ l2) x = ustore tr (ustore tr m va l1) (va + Z.of_nat (length l1)) l2 x.
Proof.
  revert m va. induction l1 as [|b l1 IH]; intros m va H; simpl.
  - by rewrite Z.add_0_r.
  - simpl in H. destruct (tr va) as [a|]; [|by destruct H]. rewrite IH.
    + by replace (va + Z.of_nat (S (length l1))) with (va + 1 + Z.of_nat (length l1)) by lia.
    + clear IH. revert H. generalize (va + 1), (length l1). intros v n.
      assert (E : forall m1 m2, is_Some (uload tr m1 v n) -> is_Some (uload tr m2 v n)).
      { intros m1 m2. revert v. induction n as [|n IH]; intros v; simpl; [done|].
        destruct (tr v); [|done]. rewrite !fmap_is_Some. apply IH. }
      rewrite fmap_is_Some. apply E.
Qed.

Lemma ustore_chunk tr m va a l x :
  (forall i, 0 <= i < Z.of_nat (length l) -> tr (va + i) = Some (a + i)) ->
  ustore tr m va l x = mwrite m a l x.
Proof.
  revert m va a. induction l as [|b l IH]; intros m va a H; simpl.
  - by rewrite mwrite_out by (simpl; lia).
  - pose proof (H 0 ltac:(simpl; lia)) as H0. rewrite !Z.add_0_r in H0. rewrite H0.
    rewrite (IH _ (va + 1) (a + 1)) by (intros i Hi; rewrite <- !Z.add_assoc; apply H; simpl; lia).
    destruct (decide (a + 1 <= x < a + 1 + Z.of_nat (length l))) as [Hx|Hx].
    + rewrite !mwrite_in by (simpl; lia). replace (Z.to_nat (x - a)) with (S (Z.to_nat (x - (a + 1)))) by lia.
      done.
    + rewrite (mwrite_out _ (a + 1)) by done. unfold mupd. destruct (Z.eqb_spec x a) as [->|Hne].
      * rewrite mwrite_in by (simpl; lia). by rewrite Z.sub_diag.
      * rewrite mwrite_out; [done|simpl; lia].
Qed.

Lemma page_in a i :
  0 <= i -> a mod PGSIZE + i < PGSIZE -> (a + i) / PGSIZE = a / PGSIZE /\ (a + i) mod PGSIZE = a mod PGSIZE + i.
Proof.
  intros Hi Hlt. assert (HP : PGSIZE <> 0) by (unfold PGSIZE; lia).
  pose proof (Z.div_mod a PGSIZE HP). pose proof (Z.mod_pos_bound a PGSIZE ltac:(unfold PGSIZE; lia)).
  split; symmetry; [apply (Z.div_unique_pos _ _ _ (a mod PGSIZE + i))|apply (Z.mod_unique_pos _ _ (a / PGSIZE))]; lia.
Qed.

Lemma MAXVA_page va : va < MAXVA <-> va - va mod PGSIZE < MAXVA.
Proof.
  pose proof (Z.div_mod va PGSIZE ltac:(unfold PGSIZE; lia)).
  pose proof (Z.mod_pos_bound va PGSIZE ltac:(unfold PGSIZE; lia)).
  change MAXVA with (67108864 * PGSIZE). unfold PGSIZE in *. lia.
Qed.

Lemma uaddr_off m t va i :
  0 <= i -> va mod PGSIZE + i < PGSIZE -> uaddr m t (va + i) = (fun a => a + i) <$> uaddr m t va.
Proof.
  intros Hi Hlt. destruct (page_in va i Hi Hlt) as [Ed Em]. unfold uaddr.
  rewrite (leaf_page _ _ _ _ Ed), Em.
  assert ((va + i <? MAXVA) = (va <? MAXVA)) as ->.
  { apply Bool.eq_true_iff_eq. rewrite !Z.ltb_lt, (MAXVA_page (va + i)), (MAXVA_page va), Em.
    by replace (va + i - (va mod PGSIZE + i)) with (va - va mod PGSIZE) by lia. }
  destruct (_ && _); [|done]. simpl. f_equal. lia.
Qed.

(** [walkaddr] is the translation, at the granularity of pages. *)
Lemma wp_walkaddr k t l pt va Q :
  vm_ok (k_img k) (k_phys k) t l -> frames_ok (k_img k) (ph_mem (k_phys k)) t l -> t !! [] = Some pt ->
  0 <= va ->
  (uaddr (ph_mem (k_phys k)) t va = None -> Q 0 k) ->
  (forall pa, uaddr (ph_mem (k_phys k)) t va = Some (pa + va mod PGSIZE) -> page_ok (k_img k) pa ->
     ~ owned t l pa -> Q pa k) ->
  wp (walkaddr pt (PGROUNDDOWN va)) Q k.
Proof.
  intros [Hkm Ht Hap] Hfr Hpt Hva HN HS. pose proof (km_img _ _ _ Hkm) as Hi.
  pose proof (Hfr va) as Hf. unfold uaddr in *. unfold walkaddr. rewrite PGROUNDDOWN_spec.
  set (va0 := va - va mod PGSIZE).
  assert (E0 : va0 / PGSIZE = va / PGSIZE).
  { unfold va0. pose proof (Z.mod_pos_bound va PGSIZE ltac:(unfold PGSIZE; lia)).
    pose proof (Z.div_mod va PGSIZE ltac:(unfold PGSIZE; lia)).
    symmetry. apply (Z.div_unique_pos _ _ _ 0); unfold PGSIZE in *; lia. }
  destruct (Z.leb_spec MAXVA va0) as [H|H].
  { wp_steps. apply HN. rewrite (proj2 (Z.ltb_ge _ _)); [done|]. pose proof (MAXVA_page va). lia. }
  rewrite (proj2 (Z.ltb_lt va MAXVA)) in HN, HS, Hf by (by apply MAXVA_page).
  rewrite <- (leaf_page _ _ _ _ E0) in HN, HS, Hf. simpl in HN, HS, Hf.
  wp_steps. eapply wp_walk_false; try done. unfold entry_addr, leaf in *.
  destruct (t !! vpath va0) as [q|] eqn:Eq; [|by apply HN].
  pose proof (to_page _ _ _ Ht _ _ Eq) as Hq. pose proof (page_small _ _ Hi Hq) as Hq0.
  pose proof (PX_range 0 va0) as Hx.
  rewrite (proj2 (Z.eqb_neq _ _)) by (unfold index_ok in *; lia). wp_steps.
  apply wp_ld64; [by eapply ram_entry|]. fold (word (ph_mem (k_phys k)) (q + 8 * PX 0 va0)).
  destruct (has _ PTE_V); [|by apply HN]. destruct (has _ PTE_U); [|by apply HN].
  destruct (Hf _ Hva eq_refl) as [Hp Ho]. rewrite Z.add_simpl_r in Hp, Ho. simpl. by apply HS.
Qed.

(** The part of a copy that lies in the first page. *)
Lemma copy_step va len fuel :
  0 <= va < MAXVA -> 0 < len -> va mod PGSIZE + len <= Z.of_nat (S fuel - 1) * PGSIZE ->
  let n := Z.min (PGSIZE - (va - PGROUNDDOWN va)) len in
  let va' := u64 (PGROUNDDOWN va + PGSIZE) in
  0 < n <= len /\ va mod PGSIZE + n <= PGSIZE /\ 0 <= va' /\ (0 < fuel)%nat /\
  (n < len -> va' = va + n) /\ va' mod PGSIZE + (len - n) <= Z.of_nat (fuel - 1) * PGSIZE.
Proof.
  intros Hva Hlen Hf n va'. assert (HP : PGSIZE = 4096) by done. unfold n, va'.
  rewrite PGROUNDDOWN_spec. pose proof (Z.mod_pos_bound va PGSIZE ltac:(lia)).
  pose proof (Z.div_mod va PGSIZE ltac:(lia)). change MAXVA with (2 ^ 38) in Hva.
  rewrite u64_small by lia.
  assert (E : (va - va mod PGSIZE + PGSIZE) mod PGSIZE = 0).
  { replace (va - va mod PGSIZE + PGSIZE) with ((va / PGSIZE + 1) * PGSIZE) by lia. by apply Z.mod_mul. }
  rewrite E. destruct fuel as [|[|fuel]]; split_ands; lia.
Qed.

(** The bytes of one round. *)
Lemma uaddr_chunk m t va pa n :
  uaddr m t va = Some (pa + va mod PGSIZE) -> va mod PGSIZE + n <= PGSIZE ->
  forall i, 0 <= i < n -> uaddr m t (va + i) = Some (pa + va mod PGSIZE + i).
Proof. intros E Hn i Hi. rewrite uaddr_off, E by lia. done. Qed.

Lemma ram_part img pa o n :
  KERNBASE <= img_end img -> page_ok img pa -> 0 <= o -> 0 <= n -> o + n <= PGSIZE ->
  in_ram (pa + o) n = true.
Proof.
  intros ? (? & ? & ?) ? ? ?. unfold in_ram. apply andb_true_iff. unfold PGSIZE in *.
  split; apply Z.leb_le; lia.
Qed.

Lemma wp_copyin_loop fuel k t l pt va len Q :
  vm_ok (k_img k) (k_phys k) t l -> frames_ok (k_img k) (ph_mem (k_phys k)) t l -> t !! [] = Some pt ->
  0 <= va -> 0 <= len -> (0 < fuel)%nat -> va mod PGSIZE + len <= Z.of_nat (fuel - 1) * PGSIZE ->
  (forall b, ubytes (ph_mem (k_phys k)) t va (Z.to_nat len) = Some b -> Q (0, b) k) ->
  (forall b n, ubytes (ph_mem (k_phys k)) t va (Z.to_nat len) = None ->
     ubytes (ph_mem (k_phys k)) t va n = Some b -> (n < Z.to_nat len)%nat -> Q (-1, b) k) ->
  wp (copyin_loop fuel pt va len) Q k.
Proof.
  intros Hv Hfr Hpt. pose proof (km_img _ _ _ (vo_kmem _ _ _ _ Hv)) as Hi. unfold ubytes.
  revert va len Q. induction fuel as [|fuel IH]; intros va len Q Hva Hlen Hf0 Hf HS HN; [lia|].
  cbn [copyin_loop]. destruct (Z.leb_spec len 0) as [H0|H0].
  { assert (len = 0) as -> by lia. wp_steps. by apply HS. }
  wp_steps. eapply wp_walkaddr; try done.
  - intros E. simpl. wp_steps. apply (HN _ 0%nat); [|done|lia].
    destruct (Z.to_nat len) eqn:El; [lia|]. simpl. by rewrite E.
  - intros pa E Hpa Hown. pose proof (page_small _ _ Hi Hpa) as Hp0.
    rewrite (proj2 (Z.eqb_neq _ _)) by lia.
    assert (Hmax : va < MAXVA).
    { unfold uaddr in E. destruct (Z.ltb_spec va MAXVA); [done|discriminate]. }
    destruct (copy_step va len fuel ltac:(lia) H0 Hf) as (Hn & Hnp & Hv' & Hf' & Hnext & Hfn).
    set (n := Z.min _ _) in *. set (va' := u64 _) in *.
    pose proof (Z.mod_pos_bound va PGSIZE ltac:(unfold PGSIZE; lia)) as Hm.
    replace (va - PGROUNDDOWN va) with (va mod PGSIZE) by (rewrite PGROUNDDOWN_spec; lia).
    wp_steps. apply wp_ld_mem; [apply (ram_part (k_img k)); (done || lia)|]. wp_steps.
    assert (Hch : forall n', uload (uaddr (ph_mem (k_phys k)) t) (ph_mem (k_phys k)) va (Z.to_nat n + n') =
      match uload (uaddr (ph_mem (k_phys k)) t) (ph_mem (k_phys k)) (va + n) n' with
      | Some b2 => Some (mread (ph_mem (k_phys k)) (pa + va mod PGSIZE) (Z.to_nat n) ++ b2)
      | None => None end).
    { intros n'. rewrite uload_app, Z2Nat.id by lia. rewrite (uload_chunk _ _ _ (pa + va mod PGSIZE)); [done|].
      rewrite Z2Nat.id by lia. by apply uaddr_chunk. }
    replace (Z.to_nat len) with (Z.to_nat n + Z.to_nat (len - n))%nat in * by lia.
    assert (Hvn : va' = va + n \/ Z.to_nat (len - n) = 0%nat) by (destruct (decide (n < len)); [left; auto|right; lia]).
    assert (Hul : forall n', (n' <= Z.to_nat (len - n))%nat -> uload (uaddr (ph_mem (k_phys k)) t) (ph_mem (k_phys k)) va' n' =
      uload (uaddr (ph_mem (k_phys k)) t) (ph_mem (k_phys k)) (va + n) n').
    { intros n' Hle. destruct Hvn as [->|E0]; [done|]. rewrite E0 in Hle. by destruct n'; [|lia]. }
    apply IH; try done; try lia.
    + intros b Eb. wp_steps. apply HS. rewrite Hch, <- Hul by done. by rewrite Eb.
    + intros b n' Eb En Hlt. wp_steps. eapply (HN _ (Z.to_nat n + n')%nat); [| |lia].
      * rewrite Hch, <- Hul by done. by rewrite Eb.
      * rewrite Hch, <- Hul by lia. by rewrite En.
Qed.

(** The kernel with another memory. *)
Abbreviation with_mem k m' := (set_k_phys (set_ph_mem (fun _ => m')) k).

Lemma with_same_mem k : with_mem k (ph_mem (k_phys k)) = k.
Proof. destruct k as [? ? ? ? []]; reflexivity || (repeat match goal with x : phys |- _ => destruct x end; reflexivity). Qed.

(** Writing inside a page that is neither free nor a table. *)
Lemma vm_frame_write img ph t l pa m' :
  vm_ok img ph t l -> page_ok img pa -> ~ owned t l pa -> same_outside pa (ph_mem ph) m' ->
  vm_ok img (set_ph_mem (fun _ => m') ph) t l /\ forall va, leaf m' t va = leaf (ph_mem ph) t va.
Proof.
  intros [[Hi Hfl Hnd Hpg] Ht Hap] Hpa Hown Ho.
  assert (Hw : forall path p i, t !! path = Some p -> index_ok i ->
    word m' (p + 8 * i) = word (ph_mem ph) (p + 8 * i)).
  { intros path p i Hp Hx. apply word_same. intros x Hxx. apply Ho.
    pose proof (to_page _ _ _ Ht _ _ Hp) as (Hpm & _).
    assert (p <> pa) by (intros ->; apply Hown; right; eauto).
    destruct (pages_apart p pa) as [|]; try done; [apply Hpa|..]; unfold index_ok, PGSIZE in *; lia. }
  split.
  - constructor; [|destruct Ht as [Hr He Hpar Hde Hpo Hin]|done].
    + constructor; try done. eapply (flist_outside _ (ph_mem ph) _ pa); try done. intros Hin. apply Hown. by left.
    + constructor; try done. intros path p i Hp Hl Hx. cbn [set_ph_mem ph_mem].
      rewrite (Hw path) by done. by apply He.
  - intros va. unfold leaf. destruct (t !! vpath va) as [p|] eqn:E; [|done].
    by apply (Hw (vpath va)), PX_range.
Qed.

Lemma uaddr_leaf m m' t va : leaf m' t va = leaf m t va -> uaddr m' t va = uaddr m t va.
Proof. intros E. unfold uaddr. by rewrite E. Qed.

Lemma uload_tr tr tr' m va n : (forall v, tr' v = tr v) -> uload tr' m va n = uload tr m va n.
Proof. intros E. revert va. induction n as [|n IH]; intros va; simpl; [done|]. by rewrite E, IH. Qed.

Lemma uload_mapped tr m m' va n : is_Some (uload tr m va n) <-> is_Some (uload tr m' va n).
Proof.
  revert va. induction n as [|n IH]; intros va; simpl; [done|].
  destruct (tr va); [|done]. by rewrite !fmap_is_Some, IH.
Qed.

Lemma ustore_tr tr tr' m va l : (forall v, tr' v = tr v) -> ustore tr' m va l = ustore tr m va l.
Proof. intros E. revert m va. induction l as [|b l IH]; intros m va; simpl; [done|]. rewrite E. by destruct (tr va). Qed.

(** What a copy to user space leaves alone. *)
Record same_space (img : image) (ph : phys) (m' : mem) (t : ptree) (l : list Z) : Prop := mkSameSpace {
  ss_vm : vm_ok img (set_ph_mem (fun _ => m') ph) t l;
  ss_frames : frames_ok img m' t l;
  ss_leaf : forall va, leaf m' t va = leaf (ph_mem ph) t va
}.

Lemma wp_copyout_loop fuel k t l pt va src Q :
  vm_ok (k_img k) (k_phys k) t l -> frames_ok (k_img k) (ph_mem (k_phys k)) t l -> t !! [] = Some pt ->
  0 <= va -> (0 < fuel)%nat -> va mod PGSIZE + Z.of_nat (length src) <= Z.of_nat (fuel - 1) * PGSIZE ->
  (forall r m', same_space (k_img k) (k_phys k) m' t l ->
     (forall x, m' x = ustore (uaddr (ph_mem (k_phys k)) t) (ph_mem (k_phys k)) va src x) ->
     r = (if decide (is_Some (ubytes (ph_mem (k_phys k)) t va (length src))) then 0 else -1) ->
     Q r (with_mem k m')) ->
  wp (copyout_loop fuel pt va src) Q k.
Proof.
  revert k va src Q. induction fuel as [|fuel IH]; intros k va src Q Hv Hfr Hpt Hva Hf0 Hf HQ; [lia|].
  assert (Hself : same_space (k_img k) (k_phys k) (ph_mem (k_phys k)) t l).
  { constructor; try done. by destruct (k_phys k). }
  cbn [copyout_loop]. destruct (Nat.eqb_spec (length src) 0) as [H0|H0].
  { apply nil_length_inv in H0 as ->. wp_steps. rewrite <- (with_same_mem k).
    apply HQ; try done. }
  wp_steps. eapply wp_walkaddr; try done.
  - intros E. simpl. wp_steps. rewrite <- (with_same_mem k). destruct src as [|b src]; [done|].
    apply HQ; [done|simpl; by rewrite E|]. rewrite decide_False; [done|].
    unfold ubytes. simpl. rewrite E. by intros [].
  - intros pa E Hpa Hown. pose proof (km_img _ _ _ (vo_kmem _ _ _ _ Hv)) as Hi.
    pose proof (page_small _ _ Hi Hpa) as Hp0. rewrite (proj2 (Z.eqb_neq _ _)) by lia.
    assert (Hmax : va < MAXVA).
    { unfold uaddr in E. destruct (Z.ltb_spec va MAXVA); [done|discriminate]. }
    destruct (copy_step va (Z.of_nat (length src)) fuel ltac:(lia) ltac:(lia) Hf) as (Hn & Hnp & Hv' & Hf' & Hnext & Hfn).
    set (n := Z.min _ _) in *. set (va' := u64 _) in *.
    pose proof (Z.mod_pos_bound va PGSIZE ltac:(unfold PGSIZE; lia)) as Hm.
    replace (va - PGROUNDDOWN va) with (va mod PGSIZE) by (rewrite PGROUNDDOWN_spec; lia).
    assert (Hlt : length (take (Z.to_nat n) src) = Z.to_nat n) by (rewrite length_take; lia).
    wp_steps. apply wp_upd_mem; [rewrite Hlt; apply (ram_part (k_img k)); (done || lia)|].
    set (m1 := mwrite (ph_mem (k_phys k)) (pa + va mod PGSIZE) (take (Z.to_nat n) src)).
    assert (Ho : same_outside pa (ph_mem (k_phys k)) m1).
    { intros x Hx. apply mwrite_out. rewrite Hlt. lia. }
    destruct (vm_frame_write _ _ _ _ _ _ Hv Hpa Hown Ho) as [Hv1 Hl1].
    assert (Hua : forall v, uaddr m1 t v = uaddr (ph_mem (k_phys k)) t v) by (intros v; by apply uaddr_leaf).
    assert (Hfr1 : frames_ok (k_img k) m1 t l) by (intros v a Hv0; rewrite Hua; by apply Hfr).
    change (set_k_phys _ k) with (with_mem k m1).
    assert (Hch : forall i, 0 <= i < Z.of_nat (Z.to_nat n) ->
      uaddr (ph_mem (k_phys k)) t (va + i) = Some (pa + va mod PGSIZE + i)).
    { rewrite Z2Nat.id by lia. by apply uaddr_chunk. }
    assert (Hsome : is_Some (uload (uaddr (ph_mem (k_phys k)) t) (ph_mem (k_phys k)) va (Z.to_nat n))).
    { rewrite (uload_chunk _ _ _ _ _ Hch). by eexists. }
    assert (Hvn : drop (Z.to_nat n) src <> [] -> va' = va + n).
    { intros Hd. apply Hnext. destruct (decide (n < Z.of_nat (length src))); [done|].
      destruct Hd. apply drop_ge. lia. }
    apply IH; try done; try (rewrite length_drop; lia).
    cbn [k_phys k_img set_k_phys set_ph_mem ph_mem]. intros r m2 [Hv2 Hfr2 Hl2] Hm2 ->.
    change (with_mem (with_mem k m1) m2) with (with_mem k m2). apply HQ.
    + constructor; [exact Hv2|exact Hfr2|]. intros v. by rewrite Hl2.
    + intros x. rewrite Hm2. rewrite (ustore_tr _ _ _ _ _ Hua).
      rewrite <- (take_drop (Z.to_nat n) src) at 2. rewrite ustore_app by (by rewrite Hlt).
      destruct (drop (Z.to_nat n) src) as [|b d] eqn:Ed.
      * simpl. symmetry. by apply ustore_chunk; rewrite Hlt.
      * rewrite Hlt, Z2Nat.id, Hvn by (done || lia). apply ustore_ext. intros y.
        symmetry. by apply ustore_chunk; rewrite Hlt.
    + unfold ubytes. replace (length src) with (Z.to_nat n + length (drop (Z.to_nat n) src))%nat
        by (rewrite length_drop; lia).
      apply decide_ext. rewrite uload_app, (uload_tr _ _ _ _ _ Hua), Z2Nat.id by lia.
      destruct Hsome as [b1 ->]. rewrite (uload_mapped _ m1 (ph_mem (k_phys k))).
      destruct (drop (Z.to_nat n) src) as [|b d] eqn:Ed; [simpl; split; intros _; by eexists|].
      rewrite Hvn by done. destruct (uload _ _ (va + n) _); split; intros []; (done || by eexists).
Qed.

Lemma ustr_chunk tr m va a n n' :
  (forall i, 0 <= i < Z.of_nat n -> tr (va + i) = Some (a + i)) ->
  ustr tr m va (n + n') =
  let s := upto_nul (mread m a n) in
  if s.2 then (0, s.1)
  else let r := ustr tr m (va + Z.of_nat n) n' in (r.1, s.1 ++ r.2).
Proof.
  revert va a. induction n as [|n IH]; intros va a H.
  - simpl. rewrite Z.add_0_r. by destruct (ustr _ _ _ _).
  - pose proof (H 0 ltac:(lia)) as H0. rewrite !Z.add_0_r in H0. rewrite mread_S.
    cbn [Nat.add ustr upto_nul]. rewrite H0.
    destruct (m a =? 0) eqn:E0; [done|].
    rewrite (IH (va + 1) (a + 1)) by (intros i Hi; rewrite <- !Z.add_assoc; apply H; lia).
    replace (va + 1 + Z.of_nat n) with (va + Z.of_nat (S n)) by lia. cbv zeta.
    by destruct (upto_nul (mread m (a + 1) n)) as [? []].
Qed.

Lemma wp_copyinstr_loop fuel k t l pt va max Q :
  vm_ok (k_img k) (k_phys k) t l -> frames_ok (k_img k) (ph_mem (k_phys k)) t l -> t !! [] = Some pt ->
  0 <= va -> 0 <= max -> (0 < fuel)%nat -> va mod PGSIZE + max <= Z.of_nat (fuel - 1) * PGSIZE ->
  Q (ustr (uaddr (ph_mem (k_phys k)) t) (ph_mem (k_phys k)) va (Z.to_nat max)) k ->
  wp (copyinstr_loop fuel pt va max) Q k.
Proof.
  intros Hv Hfr Hpt. pose proof (km_img _ _ _ (vo_kmem _ _ _ _ Hv)) as Hi.
  revert va max Q. induction fuel as [|fuel IH]; intros va max Q Hva Hmax0 Hf0 Hf HQ; [lia|].
  cbn [copyinstr_loop]. destruct (Z.leb_spec max 0) as [H0|H0].
  { assert (max = 0) as -> by lia. by wp_steps. }
  wp_steps. eapply wp_walkaddr; try done.
  - intros E. simpl. wp_steps. destruct (Z.to_nat max) eqn:El; [lia|]. simpl in HQ. by rewrite E in HQ.
  - intros pa E Hpa Hown. pose proof (page_small _ _ Hi Hpa) as Hp0.
    rewrite (proj2 (Z.eqb_neq _ _)) by lia.
    assert (Hmax : va < MAXVA).
    { unfold uaddr in E. destruct (Z.ltb_spec va MAXVA); [done|discriminate]. }
    destruct (copy_step va max fuel ltac:(lia) H0 Hf) as (Hn & Hnp & Hv' & Hf' & Hnext & Hfn).
    set (n := Z.min _ _) in *. set (va' := u64 _) in *.
    pose proof (Z.mod_pos_bound va PGSIZE ltac:(unfold PGSIZE; lia)) as Hm.
    replace (va - PGROUNDDOWN va) with (va mod PGSIZE) by (rewrite PGROUNDDOWN_spec; lia).
    wp_steps. apply wp_ld_mem; [apply (ram_part (k_img k)); (done || lia)|].
    replace (Z.to_nat max) with (Z.to_nat n + Z.to_nat (max - n))%nat in HQ by lia.
    rewrite (ustr_chunk _ _ _ (pa + va mod PGSIZE)) in HQ by (rewrite Z2Nat.id by lia; by apply uaddr_chunk).
    cbv zeta in HQ. destruct (upto_nul _).2; [by wp_steps|]. wp_steps.
    apply IH; try done; try lia. wp_steps.
    destruct (decide (n < max)) as [Hlt|Hge].
    + rewrite Hnext by done. by rewrite Z2Nat.id in HQ by lia.
    + by replace (Z.to_nat (max - n)) with 0%nat in * by lia.
Qed.

Lemma ustore_out tr m va l x :
  (forall i, 0 <= i < Z.of_nat (length l) -> tr (va + i) <> Some x) -> ustore tr m va l x = m x.
Proof.
  revert m va. induction l as [|b l IH]; intros m va H; simpl; [done|].
  pose proof (H 0 ltac:(simpl; lia)) as H0. rewrite Z.add_0_r in H0.
  destruct (tr va) as [a|]; [|done]. rewrite IH.
  - apply mupd_ne. congruence.
  - intros i Hi. rewrite <- Z.add_assoc. apply H. simpl. lia.
Qed.

(** Loading what was stored, when no two addresses of the range share a byte. *)
Lemma uload_ustore tr m va l m' :
  (forall i j, 0 <= i < Z.of_nat (length l) -> 0 <= j < Z.of_nat (length l) ->
     tr (va + i) = tr (va + j) -> i = j) ->
  is_Some (uload tr m va (length l)) -> (forall x, m' x = ustore tr m va l x) ->
  uload tr m' va (length l) = Some l.
Proof.
  revert m va. induction l as [|b l IH]; intros m va Hinj Hs Hm'; [done|]. simpl in Hs, Hm' |- *.
  destruct (tr va) as [a|] eqn:Ea; [|by destruct Hs].
  rewrite (IH (mupd m a b) (va + 1)).
  - simpl. do 2 f_equal. rewrite Hm', ustore_out; [apply mupd_eq|].
    intros i Hi E. rewrite <- Ea in E. rewrite <- (Z.add_0_r va) in E at 2. rewrite <- Z.add_assoc in E.
    apply Hinj in E; simpl; lia.
  - intros i j Hi Hj E. rewrite <- !Z.add_assoc in E. apply Hinj in E; simpl; lia.
  - rewrite fmap_is_Some in Hs. by eapply uload_mapped.
  - done.
Qed.

Lemma copy_fuel_enough va len :
  0 <= len -> (0 < copy_fuel len)%nat /\ va mod PGSIZE + len <= Z.of_nat (copy_fuel len - 1) * PGSIZE.
Proof.
  intros Hl. unfold copy_fuel. pose proof (Z.mod_pos_bound va PGSIZE ltac:(unfold PGSIZE; lia)).
  pose proof (Z.div_mod len PGSIZE ltac:(unfold PGSIZE; lia)).
  pose proof (Z.mod_pos_bound len PGSIZE ltac:(unfold PGSIZE; lia)).
  assert (0 <= len / PGSIZE) by (apply Z.div_pos; unfold PGSIZE; lia).
  split; [lia|]. unfold PGSIZE in *. lia.
Qed.

Lemma wp_mappages k me hs n t l pt va size pa perm Q :
  core_at (k_core k) me hs n -> Z.of_nat (length hs + n) + 1 < 2 ^ 30 -> LKmem ∉ hs ->
  vm_ok (k_img k) (k_phys k) t l -> t !! [] = Some pt ->
  0 <= va -> 0 < size -> va + size <= MAXVA ->
  let a := PGROUNDDOWN va in
  let npages := (va + size - 1) / PGSIZE - va / PGSIZE + 1 in
  pa mod PGSIZE = 0 -> 0 <= pa -> pa + size + PGSIZE <= 2 ^ 56 -> 0 <= perm < 2 ^ 10 ->
  (forall v, a <= v < a + npages * PGSIZE -> has (leaf (ph_mem (k_phys k)) t v) PTE_V = false) ->
  (forall r c' ph' t' l' j, core_at c' me hs n -> same_but_locks (k_core k) c' ->
     remapped (k_img k) (k_phys k) ph' t t' l l' a pa perm j ->
     (r = 0 /\ j = npages \/ r = -1 /\ 0 <= j < npages /\ l' = []) ->
     Q r (phys_kernel k c' ph')) ->
  wp (mappages pt va size pa perm) Q k.
Proof.
  intros Hc Hlt Hlk Hv Hpt Hva Hsz Hmax a np Hpam Hpa Hpb Hperm Hfree HQ. unfold mappages.
  change MAXVA with (2 ^ 38) in Hmax. assert (HP : PGSIZE = 4096) by done.
  rewrite (proj2 (Z.eqb_neq _ _)), (u64_small (va + size - 1)) by lia. fold a.
  set (last := PGROUNDDOWN (va + size - 1)).
  assert (Ea : a = va / PGSIZE * PGSIZE).
  { unfold a. rewrite PGROUNDDOWN_spec. pose proof (Z.div_mod va PGSIZE ltac:(lia)). lia. }
  assert (El : last = (va + size - 1) / PGSIZE * PGSIZE).
  { unfold last. rewrite PGROUNDDOWN_spec. pose proof (Z.div_mod (va + size - 1) PGSIZE ltac:(lia)). lia. }
  assert (Hdl : va / PGSIZE <= (va + size - 1) / PGSIZE) by (apply Z.div_le_mono; lia).
  assert (Hd0 : 0 <= va / PGSIZE) by (apply Z.div_pos; lia).
  pose proof (Z.div_mod (va + size - 1) PGSIZE ltac:(lia)) as Hdm.
  pose proof (Z.mod_pos_bound (va + size - 1) PGSIZE ltac:(lia)) as Hmb.
  pose proof (Z.div_mod va PGSIZE ltac:(lia)) as Hdm0.
  pose proof (Z.mod_pos_bound va PGSIZE ltac:(lia)) as Hmb0.
  rewrite (proj2 (Z.leb_le _ _)) by lia.
  assert (Enp : (last - a) / PGSIZE + 1 = np).
  { replace (last - a) with (((va + size - 1) / PGSIZE - va / PGSIZE) * PGSIZE) by lia.
    rewrite Z.div_mul by lia. done. }
  rewrite Enp. eapply wp_mappages_loop; try done.
  - rewrite Ea. apply Z.mod_mul. lia.
  - rewrite El. apply Z.mod_mul. lia.
  - lia.
  - change MAXVA with (2 ^ 38). lia.
  - rewrite Z2Nat.id; lia.
  - lia.
  - intros v Hv'. apply Hfree. lia.
  - intros r c' ph' t' l' j H1 H2 H3 H4. rewrite Z2Nat.id in H4 by lia. by eapply HQ.
Qed.

(** ** An example *)

(** An address space with one page, at address 0, and one free page. *)
Definition sample_leaf : Z :=
  Z.lor (Z.lor (PA2PTE 0x80104000) (Z.lor (Z.lor PTE_R PTE_W) PTE_U)) PTE_V.

(** A page table of one page: the tables 0x80101000, 0x80102000 and 0x80103000, linked at
    [i2] and [i1], with the entry [e] at [i0] of the last. *)
Definition chain_mem (i2 i1 i0 e : Z) : mem :=
  mwrite (mwrite (mwrite (fun _ => 0)
    (0x80101000 + 8 * i2) (le_split 8 (Z.lor (PA2PTE 0x80102000) PTE_V)))
    (0x80102000 + 8 * i1) (le_split 8 (Z.lor (PA2PTE 0x80103000) PTE_V)))
    (0x80103000 + 8 * i0) (le_split 8 e).

Definition chain_tree (i2 i1 : Z) : ptree :=
  <[[] := 0x80101000]> (<[[i2] := 0x80102000]> (<[[i2; i1] := 0x80103000]> ∅)).

Definition sample_mem : mem := chain_mem 0 0 0 sample_leaf.

Definition sample_tree : ptree := chain_tree 0 0.

Definition space_kernel : kernel :=
  set_k_phys (set_ph_freelist (fun _ => 0x80100000)) (first_kernel sample_disk sample_mem sample_image).

Lemma sample_page_ok p : p mod PGSIZE = 0 -> 0x80100000 <= p <= 0x80104000 -> page_ok sample_image p.
Proof. intros Hp Hb. split; [done|]. split; [simpl; lia|]. unfold PHYSTOP, KERNBASE, PGSIZE. lia. Qed.

Lemma chain_tree_elem i2 i1 path p :
  chain_tree i2 i1 !! path = Some p ->
  path = [] /\ p = 0x80101000 \/ path = [i2] /\ p = 0x80102000 \/ path = [i2; i1] /\ p = 0x80103000.
Proof.
  unfold chain_tree. rewrite !lookup_insert, lookup_empty. repeat case_decide; intros [=]; subst; auto.
Qed.

Lemma chain_word i2 i1 i0 e i :
  index_ok i2 -> index_ok i1 -> index_ok i0 -> 0 <= e < 2 ^ 64 -> index_ok i ->
  word (chain_mem i2 i1 i0 e) (0x80101000 + 8 * i) = (if i =? i2 then Z.lor (PA2PTE 0x80102000) PTE_V else 0) /\
  word (chain_mem i2 i1 i0 e) (0x80102000 + 8 * i) = (if i =? i1 then Z.lor (PA2PTE 0x80103000) PTE_V else 0) /\
  word (chain_mem i2 i1 i0 e) (0x80103000 + 8 * i) = (if i =? i0 then e else 0).
Proof.
  intros H2 H1 H0 He Hi. unfold chain_mem, index_ok in *. split_ands.
  - rewrite (word_mwrite_ne _ (_ + 8 * i0)), (word_mwrite_ne _ (_ + 8 * i1)) by lia. destruct (Z.eqb_spec i i2) as [->|Hne].
    + by rewrite word_mwrite.
    + rewrite word_mwrite_ne by lia. reflexivity.
  - rewrite (word_mwrite_ne _ (_ + 8 * i0)) by lia. destruct (Z.eqb_spec i i1) as [->|Hne].
    + by rewrite word_mwrite.
    + rewrite !word_mwrite_ne by lia. reflexivity.
  - destruct (Z.eqb_spec i i0) as [->|Hne]; [by rewrite word_mwrite|]. rewrite !word_mwrite_ne by lia. reflexivity.
Qed.

Lemma chain_tree_ok i2 i1 i0 e :
  index_ok i2 -> index_ok i1 -> index_ok i0 -> 0 <= e < 2 ^ 64 ->
  tree_ok sample_image (chain_mem i2 i1 i0 e) (chain_tree i2 i1).
Proof.
  intros H2 H1 H0 He. constructor.
  - exists 0x80101000. apply lookup_insert_eq.
  - intros path p i Hp Hl Hx. destruct (chain_word i2 i1 i0 e i H2 H1 H0 He Hx) as (E1 & E2 & _).
    apply chain_tree_elem in Hp as [[-> ->]|[[-> ->]|[-> ->]]]; [rewrite E1|rewrite E2|simpl in Hl; lia].
    + destruct (Z.eqb_spec i i2) as [->|Hne].
      * unfold chain_tree. cbn [app]. by rewrite lookup_insert_ne, lookup_insert_eq by done.
      * destruct (chain_tree i2 i1 !! _) as [q|] eqn:Eq; [|reflexivity].
        by apply chain_tree_elem in Eq as [[[=] _]|[[[=] _]|[[=] _]]].
    + destruct (Z.eqb_spec i i1) as [->|Hne].
      * unfold chain_tree. cbn [app]. by rewrite !lookup_insert_ne, lookup_insert_eq by done.
      * destruct (chain_tree i2 i1 !! _) as [q|] eqn:Eq; [|reflexivity].
        by apply chain_tree_elem in Eq as [[[=] _]|[[[=] _]|[[=] _]]].
  - intros path i q Hq. destruct (chain_tree_elem _ _ _ _ Hq) as [[E ->]|[[E ->]|[E ->]]].
    + by apply app_nil in E as [_ ?].
    + change [i2] with ([] ++ [i2]) in E. apply snoc_inj in E as [-> ->]. split; [|done]. exists 0x80101000. apply lookup_insert_eq.
    + change [i2; i1] with ([i2] ++ [i1]) in E. apply snoc_inj in E as [-> ->]. split; [|done].
      exists 0x80102000. unfold chain_tree. by rewrite lookup_insert_ne, lookup_insert_eq by done.
  - intros path p [[-> _]|[[-> _]|[-> _]]]%chain_tree_elem; simpl; lia.
  - intros path p [[_ ->]|[[_ ->]|[_ ->]]]%chain_tree_elem; (apply sample_page_ok; [reflexivity|lia]).
  - intros p1 p2 p [[-> ->]|[[-> ->]|[-> ->]]]%chain_tree_elem
      [[-> E]|[[-> E]|[-> E]]]%chain_tree_elem; done.
Qed.

Lemma sample_tree_elem path p :
  sample_tree !! path = Some p ->
  path = [] /\ p = 0x80101000 \/ path = [0] /\ p = 0x80102000 \/ path = [0; 0] /\ p = 0x80103000.
Proof. apply chain_tree_elem. Qed.

Lemma space_vm_ok : vm_ok sample_image (k_phys space_kernel) sample_tree [0x80100000].
Proof.
  constructor.
  - constructor; [vm_compute; discriminate|split; vm_compute; reflexivity|apply NoDup_singleton|].
    apply Forall_singleton. apply sample_page_ok; [reflexivity|lia].
  - apply chain_tree_ok; try (split; lia). by split; [discriminate|vm_compute].
  - intros path p [[_ ->]|[[_ ->]|[_ ->]]]%sample_tree_elem; rewrite list_elem_of_singleton; discriminate.
Qed.

(** The only entry is the one of the first page. *)
Lemma sample_entry va :
  0 <= va < MAXVA -> leaf sample_mem sample_tree va = if va <? PGSIZE then sample_leaf else 0.
Proof.
  intros Hva. unfold leaf. pose proof (PX_page va Hva) as Hp. pose proof (PX_range 0 va) as Hx.
  assert (Hd : va < PGSIZE <-> va / PGSIZE = 0).
  { split; [intros; apply Z.div_small; lia|]. pose proof (Z.div_mod va PGSIZE ltac:(unfold PGSIZE; lia)).
    pose proof (Z.mod_pos_bound va PGSIZE ltac:(unfold PGSIZE; lia)). intros E. rewrite E in *. lia. }
  destruct (sample_tree !! vpath va) as [q|] eqn:Eq.
  - apply sample_tree_elem in Eq as [[[=] _]|[[[=] _]|[[= E2 E1] ->]]].
    destruct (chain_word 0 0 0 sample_leaf _ ltac:(split; lia) ltac:(split; lia) ltac:(split; lia) ltac:(by vm_compute) Hx) as (_ & _ & E).
    change (chain_mem 0 0 0 sample_leaf) with sample_mem in E. rewrite E. rewrite E2, E1 in Hp. unfold index_ok in Hx.
    destruct (Z.eqb_spec (PX 0 va) 0), (Z.ltb_spec va PGSIZE); (done || lia).
  - destruct (Z.ltb_spec va PGSIZE) as [H|H]; [|done]. apply Hd in H. rewrite H in Hp.
    pose proof (PX_range 2 va). pose proof (PX_range 1 va). unfold index_ok in *.
    assert (E2 : PX 2 va = 0) by lia. assert (E1 : PX 1 va = 0) by lia.
    unfold vpath in Eq. rewrite E2, E1 in Eq. by vm_compute in Eq.
Qed.

Lemma sample_uaddr va : 0 <= va ->
  uaddr sample_mem sample_tree va = if va <? PGSIZE then Some (0x80104000 + va) else None.
Proof.
  intros Hva. unfold uaddr. destruct (Z.ltb_spec va MAXVA) as [H|H].
  - rewrite sample_entry by done. destruct (Z.ltb_spec va PGSIZE); [|reflexivity].
    rewrite Z.mod_small by done. change (PTE2PA sample_leaf) with 0x80104000. reflexivity.
  - destruct (Z.ltb_spec va PGSIZE); [|reflexivity]. change MAXVA with (2 ^ 38) in H. unfold PGSIZE in *. lia.
Qed.

Lemma space_frames_ok : frames_ok sample_image sample_mem sample_tree [0x80100000].
Proof.
  intros va a Hva E. rewrite sample_uaddr in E by done. destruct (Z.ltb_spec va PGSIZE); [|done].
  injection E as <-. rewrite Z.mod_small, Z.add_simpl_r by done.
  split; [apply sample_page_ok; [reflexivity|lia]|].
  intros [H0|[path [[_ ?]|[[_ ?]|[_ ?]]]%sample_tree_elem]]; try discriminate.
  rewrite list_elem_of_singleton in H0. discriminate.
Qed.

(** ** Properties *)

(** C32: [mappages] on a range of addresses that are not mapped, below [MAXVA]: it
    always returns.  The pages it maps get the entry of the physical page at the
    same distance from [pa] with the permissions and the valid bit; every other
    address keeps its entry, tables are only added, and no memory outside the
    tables and the free pages changes.  It returns 0 when all pages are mapped, and
    -1 only when the allocator ran out, with a first part of them mapped. *)
Theorem mappages_correct k me t l pt va size pa perm :
  core_ok (k_core k) me [] -> vm_ok (k_img k) (k_phys k) t l -> t !! [] = Some pt ->
  0 <= va -> 0 < size -> va + size <= MAXVA ->
  pa mod PGSIZE = 0 -> 0 <= pa -> pa + size + PGSIZE <= 2 ^ 56 -> 0 <= perm < 2 ^ 10 ->
  let a := PGROUNDDOWN va in
  let npages := (va + size - 1) / PGSIZE - va / PGSIZE + 1 in
  (forall v, a <= v < a + npages * PGSIZE -> has (leaf (ph_mem (k_phys k)) t v) PTE_V = false) ->
  wp (mappages pt va size pa perm) (fun r k' =>
    core_ok (k_core k') me [] /\
    exists t' l' j, remapped (k_img k) (k_phys k) (k_phys k') t t' l l' a pa perm j /\
      (r = 0 /\ j = npages \/ r = -1 /\ 0 <= j < npages /\ l' = [])) k.
Proof.
  intros Hc Hv Hpt Hva Hs Hmax Hpm Hp0 Hpb Hperm a np Hfree.
  eapply wp_mappages; [exact Hc|done|apply not_elem_of_nil|done..|].
  intros r c' ph' t' l' j H1 _ H2 H3. split; [exact H1|]. by exists t', l', j.
Qed.

Lemma mappages_correct_witness :
  exists r k', mappages 0x80101000 5000 100 0x80200000 PTE_R space_kernel = Ok r k' /\ (r = 0 \/ r = -1).
Proof.
  assert (Hc : core_ok (k_core space_kernel) 0 []) by (apply (held_core_ok []); [constructor|done]).
  assert (Hf : forall v, 4096 <= v < 8192 -> has (leaf sample_mem sample_tree v) PTE_V = false).
  { intros v Hv. rewrite sample_entry by (change MAXVA with (2 ^ 38); lia).
    rewrite (proj2 (Z.ltb_ge _ _)) by (unfold PGSIZE; lia). reflexivity. }
  destruct (wp_ok _ _ _ (mappages_correct space_kernel 0 sample_tree [0x80100000] 0x80101000
    5000 100 0x80200000 PTE_R Hc space_vm_ok eq_refl ltac:(lia) ltac:(lia) ltac:(vm_compute; discriminate)
    eq_refl ltac:(lia) ltac:(vm_compute; discriminate) ltac:(vm_compute; split; [discriminate|reflexivity]) Hf))
    as (r & k' & E & _ & t' & l' & j & _ & Hr).
  exists r, k'. split; [exact E|]. destruct Hr as [[-> _]|[-> _]]; [left|right]; reflexivity.
Defined.

(** C33: [copyout] stores the bytes at the user's addresses, in order, up to the
    first one that is not mapped for the user: it returns 0 when all are mapped and
    -1 otherwise.  The page table, the free list and the translation of every
    address stay as they were. *)
Theorem copyout_correct k t l pt va src :
  vm_ok (k_img k) (k_phys k) t l -> frames_ok (k_img k) (ph_mem (k_phys k)) t l -> t !! [] = Some pt ->
  0 <= va ->
  wp (copyout pt va src) (fun r k' => exists m', k' = with_mem k m' /\
    same_space (k_img k) (k_phys k) m' t l /\
    (forall x, m' x = ustore (uaddr (ph_mem (k_phys k)) t) (ph_mem (k_phys k)) va src x) /\
    r = if decide (is_Some (ubytes (ph_mem (k_phys k)) t va (length src))) then 0 else -1) k.
Proof.
  intros Hv Hf Hpt Hva. destruct (copy_fuel_enough va (Z.of_nat (length src)) ltac:(lia)).
  eapply wp_copyout_loop; try done. intros r m' H1 H2 H3. by exists m'.
Qed.

Lemma copyout_correct_witness :
  exists k', copyout 0x80101000 4090 [1; 2; 3] space_kernel = Ok 0 k' /\
    uaddr (ph_mem (k_phys k')) sample_tree 4090 = Some 0x80104ffa.
Proof.
  destruct (wp_ok _ _ _ (copyout_correct space_kernel sample_tree [0x80100000] 0x80101000 4090 [1; 2; 3]
    space_vm_ok space_frames_ok eq_refl ltac:(lia))) as (r & k' & E & m' & -> & Hs & _ & Hr).
  exists (with_mem space_kernel m'). assert (r = 0) as ->.
  { rewrite Hr. rewrite decide_True; [reflexivity|]. change (ph_mem (k_phys space_kernel)) with sample_mem.
    unfold ubytes. simpl. rewrite !sample_uaddr by lia. simpl. by eexists. }
  split; [exact E|]. rewrite (uaddr_leaf sample_mem); [|exact (ss_leaf _ _ _ _ _ Hs 4090)].
  rewrite sample_uaddr by lia. reflexivity.
Defined.

(** [copyin] and [copyinstr] read the user's bytes and change nothing.  [copyin]
    returns 0 with all the bytes when all the addresses are mapped for the user, and
    -1 otherwise; [copyinstr] returns 0 with the bytes up to and including the first
    NUL when it comes within [max] bytes and before an address that is not mapped,
    and -1 otherwise. *)
Theorem copyin_correct k t l pt va len :
  vm_ok (k_img k) (k_phys k) t l -> frames_ok (k_img k) (ph_mem (k_phys k)) t l -> t !! [] = Some pt ->
  0 <= va -> 0 <= len ->
  wp (copyin pt va len) (fun r k' => k' = k /\
    match ubytes (ph_mem (k_phys k)) t va (Z.to_nat len) with
    | Some b => r = (0, b)
    | None => r.1 = -1 /\ exists n, (n < Z.to_nat len)%nat /\ ubytes (ph_mem (k_phys k)) t va n = Some r.2
    end) k /\
  wp (copyinstr pt va len) (fun r k' => k' = k /\
    r = ustr (uaddr (ph_mem (k_phys k)) t) (ph_mem (k_phys k)) va (Z.to_nat len)) k.
Proof.
  intros Hv Hf Hpt Hva Hl. destruct (copy_fuel_enough va len Hl). split.
  - eapply wp_copyin_loop; try done.
    + intros b E. by rewrite E.
    + intros b n E En Hn. rewrite E. eauto.
  - by eapply wp_copyinstr_loop.
Qed.

Lemma copyin_correct_witness :
  exists r k', copyin 0x80101000 4090 3 space_kernel = Ok r k' /\ k' = space_kernel.
Proof.
  destruct (copyin_correct space_kernel sample_tree [0x80100000] 0x80101000 4090 3
    space_vm_ok space_frames_ok eq_refl ltac:(lia) ltac:(lia)) as [H _].
  destruct (wp_ok _ _ _ H) as (r & k' & E & Hk & _). exists r, k'. exact (conj E Hk).
Defined.

(** What [copyout] stores at mapped addresses that do not share bytes,
    [copyin] reads back. *)
Theorem copyout_copyin k t l pt va src :
  vm_ok (k_img k) (k_phys k) t l -> frames_ok (k_img k) (ph_mem (k_phys k)) t l -> t !! [] = Some pt ->
  0 <= va -> is_Some (ubytes (ph_mem (k_phys k)) t va (length src)) ->
  (forall i j, 0 <= i < Z.of_nat (length src) -> 0 <= j < Z.of_nat (length src) ->
     uaddr (ph_mem (k_phys k)) t (va + i) = uaddr (ph_mem (k_phys k)) t (va + j) -> i = j) ->
  wp (let* r := copyout pt va src in
      let* r' := copyin pt va (Z.of_nat (length src)) in M_ret (r, r'))
    (fun r _ => r = (0, (0, src))) k.
Proof.
  intros Hv Hf Hpt Hva Hm Hinj. destruct (copy_fuel_enough va (Z.of_nat (length src)) ltac:(lia)).
  wp_steps. eapply wp_copyout_loop; try done. intros r m' [Hv' Hf' Hl'] Hm' ->. rewrite decide_True by done.
  assert (E : ubytes m' t va (length src) = Some src).
  { unfold ubytes. rewrite (uload_tr (uaddr (ph_mem (k_phys k)) t)) by (intros; by apply uaddr_leaf).
    by eapply uload_ustore. }
  wp_steps. eapply wp_copyin_loop; try done; [lia|..]; cbn [k_phys set_k_phys set_ph_mem ph_mem]; rewrite Nat2Z.id, E.
  - intros b [= <-]. by wp_steps.
  - done.
Qed.

Lemma copyout_copyin_witness :
  exists k', (let* r := copyout 0x80101000 4090 [1; 2; 3] in
              let* r' := copyin 0x80101000 4090 3 in M_ret (r, r')) space_kernel
             = Ok (0, (0, [1; 2; 3])) k'.
Proof.
  destruct (wp_ok _ _ _ (copyout_copyin space_kernel sample_tree [0x80100000] 0x80101000 4090 [1; 2; 3]
    space_vm_ok space_frames_ok eq_refl ltac:(lia)
    ltac:(change (ph_mem (k_phys space_kernel)) with sample_mem; unfold ubytes; simpl;
          rewrite !sample_uaddr by lia; simpl; by eexists)
    ltac:(change (ph_mem (k_phys space_kernel)) with sample_mem; intros i j Hi Hj; simpl in Hi, Hj;
          rewrite !sample_uaddr by lia; rewrite !(proj2 (Z.ltb_lt _ _)) by (unfold PGSIZE; lia);
          intros [=]; lia))) as (r & k' & E & ->).
  exists k'. exact E.
Defined.
