(* ===== verification/FsBlock.v ===== *)
(** * Blocks of the file system (kernel/fs.c)

    The superblock, zeroing a block, and the block allocator over the free map. *)

From S2P Require Import Prelude State Spin Sleep Bio Log Txn.

(** ** Definitions: structures in a block *)

Definition get_uint (off : nat) (b : list Z) : Z := le_join (slice off 4 b).

Definition get_short (off : nat) (b : list Z) : Z := i16 (le_join (slice off 2 b)).

Definition get_ushort (off : nat) (b : list Z) : Z := le_join (slice off 2 b).

Definition put_short (off : nat) (v : Z) (b : list Z) : list Z := splice off (le_split 2 v) b.

(** [addrs] of an inode and the entries of an indirect block. *)
Definition get_uints (off n : nat) (b : list Z) : list Z :=
  (fun i => get_uint (off + 4 * i) b) <$> seq 0 n.

Definition put_uints (off : nat) (l : list Z) (b : list Z) : list Z :=
  splice off (concat (le_split 4 <$> l)) b.

Definition ld_superblock (b : list Z) : superblock :=
  mkSb (get_uint 0 b) (get_uint 4 b) (get_uint 8 b) (get_uint 12 b)
       (get_uint 16 b) (get_uint 20 b) (get_uint 24 b) (get_uint 28 b).

Definition BBLOCK (b : Z) (sb : superblock) : Z := u32 (b / BPB + sb_bmapstart sb).

(** The bit of block [bi] in a block of the free map. *)
Definition map_bit (data : list Z) (bi : nat) : Z :=
  Z.land (data !!! (bi / 8)%nat) (Z.shiftl 1 (Z.of_nat bi mod 8)).

Definition set_map_bit (bi : nat) (data : list Z) : list Z :=
  alter (fun x => u8 (Z.lor x (Z.shiftl 1 (Z.of_nat bi mod 8)))) (bi / 8)%nat data.

Definition clear_map_bit (bi : nat) (data : list Z) : list Z :=
  alter (fun x => u8 (Z.land x (Z.lnot (Z.shiftl 1 (Z.of_nat bi mod 8))))) (bi / 8)%nat data.

(** [for(bi = ...; bi < n; bi++) if((bp->data[bi/8] & m) == 0) ...] *)
Fixpoint first_free (rounds bi : nat) (data : list Z) : option nat :=
  match rounds with
  | O => None
  | S rounds => if map_bit data bi =? 0 then Some bi else first_free rounds (S bi) data
  end.

(** ** Definitions: blocks *)

Definition readsb (dev : Z) : K unit :=
  let* bp := bread dev 1 in
  let* d := bdata bp in
  modify (set_k_sb (fun _ => ld_superblock d)) ;*
  brelse bp.

Definition fsinit (dev : Z) : K unit :=
  readsb dev ;*
  let* sb := gets k_sb in
  if negb (sb_magic sb =? FSMAGIC) then panic "invalid file system" else
  initlog dev sb.

Definition bzero (dev bno : Z) : K unit :=
  let* bp := bread dev bno in
  set_bdata bp (replicate (Z.to_nat BSIZE) 0) ;*
  log_write bp ;*
  brelse bp.

(** [for(b = 0; b < sb.size; b += BPB)] *)
Definition map_starts (size : Z) : list Z :=
  (fun i => Z.of_nat i * BPB) <$> seq 0 (Z.to_nat ((size + BPB - 1) / BPB)).

Definition balloc (dev : Z) : K Z :=
  let* sb := gets k_sb in
  let* r := for_find (map_starts (sb_size sb)) (fun b =>
    let* bp := bread dev (BBLOCK b sb) in
    let* d := bdata bp in
    match first_free (Z.to_nat (Z.min BPB (sb_size sb - b))) 0 d with
    | Some bi =>
        set_bdata bp (set_map_bit bi d) ;*
        log_write bp ;*
        brelse bp ;*
        bzero dev (b + Z.of_nat bi) ;*
        M_ret (Some (b + Z.of_nat bi))
    | None =>
        brelse bp ;*
        M_ret None
    end) in
  match r with
  | Some b => M_ret b
  | None => panic "balloc: out of blocks"
  end.

Definition bfree (dev b : Z) : K unit :=
  let* sb := gets k_sb in
  let* bp := bread dev (BBLOCK b sb) in
  let bi := Z.to_nat (b mod BPB) in
  let* d := bdata bp in
  if map_bit d bi =? 0 then panic "freeing free block" else
  set_bdata bp (clear_map_bit bi d) ;*
  log_write bp ;*
  brelse bp.

(** ** Specification *)

(** The disk layout, as the comment of fs.h has it: super block, log, inode blocks,
    free map, data blocks. *)
Record layout (sb : superblock) : Prop := mkLayout {
  lay_size : 0 < sb_size sb < 2 ^ 31;
  lay_inodes : 1 < sb_inodestart sb;
  lay_ninodes : 0 < sb_ninodes sb < 2 ^ 31;
  lay_map : sb_inodestart sb + sb_ninodes sb / IPB < sb_bmapstart sb;
  lay_data : sb_bmapstart sb + sb_size sb / BPB < sb_size sb
}.

(** A block of file data, or an indirect block. *)
Definition data_block (sb : superblock) (b : Z) : Prop :=
  sb_bmapstart sb + sb_size sb / BPB < b < sb_size sb.

Definition byte (x : Z) : Prop := 0 <= x < 256.

(** Blocks of bytes. *)
Definition blocks_ok (V : Z -> list Z) : Prop :=
  forall b, length (V b) = Z.to_nat BSIZE /\ Forall byte (V b).

Definition zeros : list Z := replicate (Z.to_nat BSIZE) 0.

(** The free map: whether block [b] is in use. *)
Definition bit (data : list Z) (bi : nat) : bool :=
  Z.testbit (data !!! (bi / 8)%nat) (Z.of_nat (bi mod 8)).

Definition used (sb : superblock) (V : Z -> list Z) (b : Z) : bool :=
  bit (V (BBLOCK b sb)) (Z.to_nat (b mod BPB)).

(** The first free block of the disk. *)
Definition first_block (sb : superblock) (V : Z -> list Z) (r : Z) : Prop :=
  0 <= r < sb_size sb /\ used sb V r = false /\ forall b, 0 <= b < r -> used sb V b = true.

(** The view after block [b] is marked as used or free. *)
Definition mark (sb : superblock) (b : Z) (V : Z -> list Z) : Z -> list Z :=
  vset (BBLOCK b sb) (set_map_bit (Z.to_nat (b mod BPB)) (V (BBLOCK b sb))) V.

Definition unmark (sb : superblock) (b : Z) (V : Z -> list Z) : Z -> list Z :=
  vset (BBLOCK b sb) (clear_map_bit (Z.to_nat (b mod BPB)) (V (BBLOCK b sb))) V.

(** ** Lemmas: bytes and bits *)

Lemma of_nat_mod8 n : Z.of_nat n mod 8 = Z.of_nat (n mod 8).
Proof. by rewrite Nat2Z.inj_mod. Qed.

Lemma map_bit_bit d bi : (map_bit d bi =? 0) = negb (bit d bi).
Proof.
  unfold map_bit, bit. rewrite of_nat_mod8, Z.shiftl_1_l. set (x := d !!! _). set (j := Z.of_nat (bi mod 8)).
  assert (Hj : 0 <= j) by lia. apply Bool.eq_true_iff_eq. rewrite Z.eqb_eq, negb_true_iff. split.
  - intros E. apply (f_equal (fun z => Z.testbit z j)) in E.
    by rewrite Z.land_spec, Z.pow2_bits_eqb, Z.eqb_refl, Z.bits_0, andb_true_r in E.
  - intros E. apply Z.bits_inj'. intros i Hi. rewrite Z.land_spec, Z.bits_0, Z.pow2_bits_eqb by done.
    destruct (Z.eqb_spec j i) as [<-|Hne]; [by rewrite E|by rewrite andb_false_r].
Qed.

Lemma byte_bits x i : byte x -> 8 <= i -> Z.testbit x i = false.
Proof.
  intros [H0 H1] Hi. destruct (decide (x = 0)) as [->|]; [apply Z.bits_0|].
  apply Z.bits_above_log2; [done|]. apply Z.log2_lt_pow2; [lia|].
  assert (2 ^ 8 <= 2 ^ i) by (apply Z.pow_le_mono_r; lia). lia.
Qed.

Lemma bits_byte x : 0 <= x -> (forall i, 8 <= i -> Z.testbit x i = false) -> byte x.
Proof.
  intros H0 Hb. split; [done|]. destruct (decide (x = 0)) as [->|]; [lia|].
  destruct (decide (x < 256)); [done|]. exfalso.
  assert (H8 : 8 <= Z.log2 x) by (apply Z.log2_le_pow2; lia).
  pose proof (Hb _ H8) as E. rewrite Z.bit_log2 in E by lia. done.
Qed.

Lemma get_uint_range o b : 0 <= get_uint o b < 2 ^ 32.
Proof.
  unfold get_uint. pose proof (le_join_bound (slice o 4 b)) as H. assert (length (slice o 4 b) <= 4)%nat by (unfold slice; rewrite length_take; lia).
  assert (256 ^ Z.of_nat (length (slice o 4 b)) <= 256 ^ 4) by (apply Z.pow_le_mono_r; lia). lia.
Qed.

Lemma u8_byte x : byte x -> u8 x = x.
Proof. intros []. apply Z.mod_small. change (2 ^ 8) with 256. lia. Qed.

Lemma byte_lor x j : byte x -> 0 <= j < 8 -> byte (Z.lor x (Z.shiftl 1 j)).
Proof.
  intros Hx Hj. rewrite Z.shiftl_1_l. apply bits_byte.
  - apply Z.lor_nonneg. split; [apply Hx|]. apply Z.pow_nonneg. lia.
  - intros i Hi. rewrite Z.lor_spec, byte_bits, Z.pow2_bits_eqb by (done || lia). apply Z.eqb_neq. lia.
Qed.

Lemma byte_clear x j : byte x -> 0 <= j < 8 -> byte (Z.land x (Z.lnot (Z.shiftl 1 j))).
Proof.
  intros Hx Hj. apply bits_byte.
  - apply Z.land_nonneg. left. apply Hx.
  - intros i Hi. by rewrite Z.land_spec, byte_bits.
Qed.

(** Two blocks are the same bit of a map block exactly when byte and position agree. *)
Lemma bit_index (i j : nat) : i = j <-> (i / 8 = j / 8 /\ i mod 8 = j mod 8)%nat.
Proof. split; [by intros ->|]. intros [Ed Em]. rewrite (Nat.div_mod_eq i 8), (Nat.div_mod_eq j 8). lia. Qed.

Lemma bytes_total d i : Forall byte d -> byte (d !!! i).
Proof.
  intros Hd. rewrite list_lookup_total_alt. destruct (d !! i) as [x|] eqn:E.
  - by eapply Forall_lookup_1.
  - split; simpl; lia.
Qed.

Section map_bits.
Context (d : list Z) (bi : nat).
Hypothesis Hd : Forall byte d.
Hypothesis Hi : (bi / 8 < length d)%nat.

Lemma pos_lt8 : 0 <= Z.of_nat bi mod 8 < 8.
Proof. apply Z.mod_pos_bound. lia. Qed.

(** One byte of a map block changes. *)
Lemma alter_bit (f : Z -> Z) (g : bool) bj :
  (forall x i, byte x -> 0 <= i -> byte (f x) /\
     Z.testbit (f x) i = if decide (i = Z.of_nat (bi mod 8)) then g else Z.testbit x i) ->
  bit (alter f (bi / 8)%nat d) bj = if decide (bj = bi) then g else bit d bj.
Proof.
  intros Hf. unfold bit. destruct (decide (bj / 8 = bi / 8)%nat) as [E|E].
  - rewrite E. destruct (lookup_lt_is_Some_2 _ _ Hi) as [x Hx].
    rewrite (list_lookup_total_correct (alter f _ d) _ (f x)) by (by rewrite list_lookup_alter_eq, Hx).
    rewrite (list_lookup_total_correct d _ x Hx).
    assert (byte x) by (by eapply Forall_lookup_1).
    destruct (Hf x (Z.of_nat (bj mod 8)) ltac:(done) ltac:(lia)) as [_ ->].
    destruct (decide (bj = bi)) as [->|Hne]; [by rewrite decide_True|].
    rewrite decide_False; [done|]. intros Em. apply Hne, bit_index. split; [done|lia].
  - rewrite !list_lookup_total_alt, list_lookup_alter_ne by congruence.
    rewrite decide_False; [done|]. by intros ->.
Qed.

Lemma bit_set bj : bit (set_map_bit bi d) bj = if decide (bj = bi) then true else bit d bj.
Proof.
  apply alter_bit. intros x i Hx Hii. pose proof pos_lt8. rewrite u8_byte by (by apply byte_lor).
  split; [by apply byte_lor|]. rewrite of_nat_mod8, Z.shiftl_1_l, Z.lor_spec, Z.pow2_bits_eqb by lia.
  case_decide as E; [subst; by rewrite Z.eqb_refl, orb_true_r|].
  rewrite (proj2 (Z.eqb_neq _ _)), orb_false_r by congruence. done.
Qed.

Lemma bit_clear bj : bit (clear_map_bit bi d) bj = if decide (bj = bi) then false else bit d bj.
Proof.
  apply alter_bit. intros x i Hx Hii. pose proof pos_lt8. rewrite u8_byte by (by apply byte_clear).
  split; [by apply byte_clear|].
  rewrite of_nat_mod8, Z.shiftl_1_l, Z.land_spec, Z.lnot_spec, Z.pow2_bits_eqb by lia.
  case_decide as E; [subst; by rewrite Z.eqb_refl, andb_false_r|].
  rewrite (proj2 (Z.eqb_neq _ _)), andb_true_r by congruence. done.
Qed.

Lemma set_map_bit_bytes : Forall byte (set_map_bit bi d).
Proof.
  apply Forall_alter; [done|]. intros x _ Hx. pose proof pos_lt8.
  rewrite u8_byte; by apply byte_lor.
Qed.

Lemma clear_map_bit_bytes : Forall byte (clear_map_bit bi d).
Proof.
  apply Forall_alter; [done|]. intros x _ Hx. pose proof pos_lt8.
  rewrite u8_byte; by apply byte_clear.
Qed.
End map_bits.

Lemma first_free_spec n bi d :
  match first_free n bi d with
  | Some r => (bi <= r < bi + n)%nat /\ bit d r = false /\ forall j, (bi <= j < r)%nat -> bit d j = true
  | None => forall j, (bi <= j < bi + n)%nat -> bit d j = true
  end.
Proof.
  revert bi. induction n as [|n IH]; intros bi; simpl; [intros; lia|].
  rewrite map_bit_bit. destruct (bit d bi) eqn:E; simpl.
  - specialize (IH (S bi)). destruct (first_free n (S bi) d) as [r|].
    + destruct IH as (H1 & H2 & H3). split_ands; try done; try lia. intros j Hj.
      destruct (decide (j = bi)) as [->|]; [done|]. apply H3. lia.
    + intros j Hj. destruct (decide (j = bi)) as [->|]; [done|]. apply IH. lia.
  - split_ands; try done; try lia.
Qed.

(** ** Lemmas: views *)

Lemma vset_eq b dt V : vset b dt V b = dt.
Proof. unfold vset. by rewrite decide_True. Qed.

Lemma vset_ne b dt V x : x <> b -> vset b dt V x = V x.
Proof. intros. unfold vset. by rewrite decide_False. Qed.

Lemma blocks_ok_vset b dt V :
  blocks_ok V -> length dt = Z.to_nat BSIZE -> Forall byte dt -> blocks_ok (vset b dt V).
Proof. intros HV Hl Hb x. unfold vset. by case_decide. Qed.

Lemma zeros_ok : length zeros = Z.to_nat BSIZE /\ Forall byte zeros.
Proof. split; [apply length_replicate|]. apply Forall_replicate. split; lia. Qed.

Lemma map_index_lt b : (Z.to_nat (b mod BPB) / 8 < Z.to_nat BSIZE)%nat.
Proof.
  apply Nat.Div0.div_lt_upper_bound. pose proof (Z.mod_pos_bound b BPB eq_refl).
  unfold BPB, BSIZE in *. lia.
Qed.

Lemma mark_ok sb b V : blocks_ok V -> blocks_ok (mark sb b V).
Proof.
  intros HV. destruct (HV (BBLOCK b sb)) as [Hl Hb]. apply blocks_ok_vset; [done|by unfold set_map_bit; len|].
  apply set_map_bit_bytes; [done|rewrite Hl; apply map_index_lt].
Qed.

Lemma unmark_ok sb b V : blocks_ok V -> blocks_ok (unmark sb b V).
Proof.
  intros HV. destruct (HV (BBLOCK b sb)) as [Hl Hb]. apply blocks_ok_vset; [done|by unfold clear_map_bit; len|].
  apply clear_map_bit_bytes; [done|rewrite Hl; apply map_index_lt].
Qed.

(** *** Where the bits are *)

Lemma BBLOCK_small sb b :
  layout sb -> 0 <= b < sb_size sb -> BBLOCK b sb = b / BPB + sb_bmapstart sb.
Proof.
  intros [H1 H2 H3 H4 H5] Hb. unfold BBLOCK. apply u32_small.
  assert (0 <= b / BPB) by (apply Z.div_pos; unfold BPB, BSIZE; lia).
  assert (b / BPB <= sb_size sb / BPB) by (apply Z.div_le_mono; unfold BPB, BSIZE; lia).
  assert (0 <= sb_ninodes sb / IPB) by (apply Z.div_pos; [lia|reflexivity]). lia.
Qed.

Lemma BBLOCK_not_data sb b x :
  layout sb -> 0 <= b < sb_size sb -> data_block sb x -> x <> BBLOCK b sb.
Proof.
  intros HL Hb Hx. rewrite BBLOCK_small by done. unfold data_block in Hx.
  assert (b / BPB <= sb_size sb / BPB) by (apply Z.div_le_mono; unfold BPB, BSIZE; lia). lia.
Qed.

Lemma same_bit sb b b' :
  layout sb -> 0 <= b < sb_size sb -> 0 <= b' < sb_size sb -> BBLOCK b sb = BBLOCK b' sb ->
  Z.to_nat (b mod BPB) = Z.to_nat (b' mod BPB) -> b = b'.
Proof.
  intros HL Hb Hb' E Em. rewrite !BBLOCK_small in E by done.
  pose proof (Z.mod_pos_bound b BPB eq_refl). pose proof (Z.mod_pos_bound b' BPB eq_refl).
  rewrite (Z.div_mod b BPB), (Z.div_mod b' BPB) by done. replace (b / BPB) with (b' / BPB) by lia. lia.
Qed.

Lemma in_map_block b j :
  b mod BPB = 0 -> 0 <= j < BPB -> (b + j) / BPB = b / BPB /\ (b + j) mod BPB = j.
Proof.
  intros Hb Hj. pose proof (Z.div_mod b BPB ltac:(done)). split; symmetry.
  - apply (Z.div_unique_pos _ _ _ j); lia.
  - apply (Z.mod_unique_pos _ _ (b / BPB)); lia.
Qed.

(** Marking a block changes its own bit. *)
Lemma used_mark sb V b b' :
  layout sb -> blocks_ok V -> 0 <= b < sb_size sb -> 0 <= b' < sb_size sb ->
  used sb (mark sb b V) b' = if decide (b' = b) then true else used sb V b'.
Proof.
  intros HL HV Hb Hb'. unfold used, mark. destruct (HV (BBLOCK b sb)) as [Hl Hby].
  destruct (decide (BBLOCK b' sb = BBLOCK b sb)) as [E|E].
  - rewrite E, vset_eq, bit_set by (rewrite ?Hl; done || apply map_index_lt).
    destruct (decide (b' = b)) as [->|Hne]; [by rewrite decide_True|].
    rewrite decide_False; [done|]. intros Em. apply Hne. by eapply same_bit.
  - rewrite vset_ne by done. rewrite decide_False; [done|]. by intros ->.
Qed.

Lemma used_unmark sb V b b' :
  layout sb -> blocks_ok V -> 0 <= b < sb_size sb -> 0 <= b' < sb_size sb ->
  used sb (unmark sb b V) b' = if decide (b' = b) then false else used sb V b'.
Proof.
  intros HL HV Hb Hb'. unfold used, unmark. destruct (HV (BBLOCK b sb)) as [Hl Hby].
  destruct (decide (BBLOCK b' sb = BBLOCK b sb)) as [E|E].
  - rewrite E, vset_eq, bit_clear by (rewrite ?Hl; done || apply map_index_lt).
    destruct (decide (b' = b)) as [->|Hne]; [by rewrite decide_True|].
    rewrite decide_False; [done|]. intros Em. apply Hne. by eapply same_bit.
  - rewrite vset_ne by done. rewrite decide_False; [done|]. by intros ->.
Qed.

(** ** Lemmas: operations *)

Section ops.
Context {T : kernel -> nat -> proc -> (Z -> list Z) -> gset Z -> held_map -> Prop} `{!TxnLaws T}.

(** Log a held block and release it. *)
Lemma wp_log_release k me pr V W h blk x Q :
  T k me pr V W (<[blk := x]> h) -> h !! blk = None -> blk ∈ W ->
  (forall k', T k' me pr V W h -> fs_frame me k k' -> Q tt k') ->
  wp (log_write x.1 ;* brelse x.1) Q k.
Proof.
  intros HT Hh HW HQ. wp_steps. eapply (tx_log_write _ _ _ _ _ _ blk x); [exact HT|apply lookup_insert_eq|done|].
  intros k1 T1 F1. rewrite insert_insert_eq in T1. wp_steps.
  eapply (tx_brelse _ _ _ _ _ _ blk); [exact T1|apply lookup_insert_eq|].
  intros k2 T2 F2. rewrite delete_insert_id in T2 by done.
  apply HQ; [exact T2|by eapply fs_frame_trans].
Qed.

Lemma wp_log_release_then {B} (cont : K B) k me pr V W h blk x Q :
  T k me pr V W (<[blk := x]> h) -> h !! blk = None -> blk ∈ W ->
  (forall k', T k' me pr V W h -> fs_frame me k k' -> wp cont Q k') ->
  wp (log_write x.1 ;* brelse x.1 ;* cont) Q k.
Proof.
  intros HT Hh HW HQ. apply (wp_assoc (log_write x.1)). apply wp_bind.
  eapply wp_log_release; [exact HT|done|done|]. intros k' T' F'. by apply HQ.
Qed.

Lemma wp_bzero k me pr V W h blk Q :
  T k me pr V W h -> h !! blk = None -> (size W + size h < NBUF)%nat -> blk ∈ W ->
  (forall k', T k' me pr (vset blk zeros V) W h -> fs_frame me k k' -> Q tt k') ->
  wp (bzero ROOTDEV blk) Q k.
Proof.
  intros HT Hh Hs HW HQ. unfold bzero. apply wp_bind. eapply tx_bread; [exact HT|done|done|].
  intros k1 i T1 F1. apply wp_bind.
  eapply (tx_set_bdata _ _ _ _ _ _ blk (i, false)); [exact T1|apply lookup_insert_eq|].
  intros k2 T2 F2. rewrite insert_insert_eq in T2.
  eapply (wp_log_release _ _ _ _ _ _ blk (i, true)); [exact T2|done|done|].
  intros k3 T3 F3. apply HQ; [exact T3|]. eauto using fs_frame_trans.
Qed.

(** A map block without a free bit is read and released. *)
Lemma wp_balloc k me pr V W h r Q :
  T k me pr V W h -> layout (k_sb k) -> blocks_ok V -> first_block (k_sb k) V r ->
  (forall b, 0 <= b <= r -> h !! BBLOCK b (k_sb k) = None) -> h !! r = None ->
  (size W + size h < NBUF)%nat -> BBLOCK r (k_sb k) ∈ W -> r ∈ W ->
  (forall k', T k' me pr (vset r zeros (mark (k_sb k) r V)) W h -> fs_frame me k k' -> Q r k') ->
  wp (balloc ROOTDEV) Q k.
Proof.
  intros HT HL HV (Hr & Hfree & Hused) Hhm Hhr Hs HWm HWr HQ. unfold balloc. wp_steps.
  set (sb := k_sb k) in *. assert (HB : BPB = 8192) by done.
  pose proof (Z.div_mod r BPB ltac:(lia)) as Hdm. pose proof (Z.mod_pos_bound r BPB ltac:(lia)) as Hmb.
  assert (Hlen : length (map_starts (sb_size sb)) = Z.to_nat ((sb_size sb + BPB - 1) / BPB))
    by (unfold map_starts; len).
  assert (Hup : r / BPB < (sb_size sb + BPB - 1) / BPB).
  { apply Z.div_lt_upper_bound; [lia|]. pose proof (Z.div_mod (sb_size sb + BPB - 1) BPB ltac:(lia)).
    pose proof (Z.mod_pos_bound (sb_size sb + BPB - 1) BPB ltac:(lia)). lia. }
  apply (wp_for_find _ _ (fun i k' => T k' me pr V W h /\ fs_frame me k k' /\ Z.of_nat i <= r / BPB)).
  - split_ands; [done|apply fs_frame_refl|]. apply Z.div_pos; lia.
  - intros i b k1 Hi (T1 & F1 & Hir). unfold map_starts in Hi. rewrite list_lookup_fmap in Hi.
    apply fmap_Some in Hi as (j & [-> Hj]%lookup_seq & ->). simpl.
    set (b := Z.of_nat i * BPB). assert (Hb : 0 <= b <= r) by (unfold b; nia).
    assert (Ebm : b mod BPB = 0) by (apply Z.mod_mul; lia).
    assert (Ebit : forall j, (j < Z.to_nat (Z.min BPB (sb_size sb - b)))%nat ->
      used sb V (b + Z.of_nat j) = bit (V (BBLOCK b sb)) j).
    { intros j Hjj. unfold used. rewrite !BBLOCK_small by (done || lia).
      destruct (in_map_block b (Z.of_nat j)) as [-> ->]; [done|lia|]. by rewrite Nat2Z.id. }
    wp_steps. eapply tx_bread; [exact T1|by apply Hhm|done|]. intros k2 i2 T2 F2. wp_steps.
    eapply (tx_bdata _ _ _ _ _ _ (BBLOCK b sb) (i2, false)); [exact T2|apply lookup_insert_eq|].
    pose proof (first_free_spec (Z.to_nat (Z.min BPB (sb_size sb - b))) 0 (V (BBLOCK b sb))) as Hff.
    destruct (first_free _ 0 _) as [bi|].
    + destruct Hff as (Hbi & Hbf & Hbu).
      assert (Er : b + Z.of_nat bi = r).
      { assert (Hle : ~ b + Z.of_nat bi < r).
        { intros Hlt. pose proof (Hused (b + Z.of_nat bi) ltac:(lia)) as E. rewrite Ebit in E by lia. congruence. }
        destruct (decide (r < b + Z.of_nat bi)) as [Hgt|]; [|lia]. exfalso.
        pose proof (Ebit (Z.to_nat (r - b)) ltac:(lia)) as E.
        replace (b + Z.of_nat (Z.to_nat (r - b))) with r in E by lia. rewrite Hfree, Hbu in E by lia. done. }
      assert (Eblk : BBLOCK b sb = BBLOCK r sb).
      { rewrite !BBLOCK_small by (done || lia). rewrite <- Er.
        destruct (in_map_block b (Z.of_nat bi)) as [-> _]; [done|lia|done]. }
      assert (Ebi : bi = Z.to_nat (r mod BPB)).
      { rewrite <- Er. destruct (in_map_block b (Z.of_nat bi)) as [_ ->]; [done|lia|lia]. }
      rewrite Er, Eblk in *. wp_steps.
      eapply (tx_set_bdata _ _ _ _ _ _ (BBLOCK r sb) (i2, false)); [exact T2|apply lookup_insert_eq|].
      intros k3 T3 F3. rewrite insert_insert_eq in T3. rewrite Ebi in T3.
      eapply (wp_log_release_then _ _ _ _ _ _ _ (BBLOCK r sb) (i2, true)); [exact T3|apply Hhm; lia|done|].
      intros k4 T4 F4. wp_steps. eapply wp_bzero; [exact T4|done|done|done|].
      intros k5 T5 F5. wp_steps. apply HQ; [exact T5|]. eauto using fs_frame_trans.
    + wp_steps. eapply (tx_brelse _ _ _ _ _ _ (BBLOCK b sb)); [exact T2|apply lookup_insert_eq|].
      intros k3 T3 F3. rewrite delete_insert_id in T3 by (by apply Hhm). wp_steps.
      split_ands; [exact T3|eauto using fs_frame_trans|].
      destruct (decide (r < b + BPB)) as [Hlt|Hge]; [|unfold b in Hge; nia]. exfalso.
      pose proof (Ebit (Z.to_nat (r - b)) ltac:(lia)) as E.
      replace (b + Z.of_nat (Z.to_nat (r - b))) with r in E by lia. rewrite Hfree, Hff in E by lia. done.
  - intros k' (_ & _ & H3). rewrite Hlen in H3. lia.
Qed.

Lemma wp_bfree k me pr V W h b Q :
  T k me pr V W h -> used (k_sb k) V b = true ->
  h !! BBLOCK b (k_sb k) = None -> (size W + size h < NBUF)%nat -> BBLOCK b (k_sb k) ∈ W ->
  (forall k', T k' me pr (unmark (k_sb k) b V) W h -> fs_frame me k k' -> Q tt k') ->
  wp (bfree ROOTDEV b) Q k.
Proof.
  intros HT Hu Hh Hs HW HQ. unfold bfree. wp_steps. set (sb := k_sb k) in *.
  eapply tx_bread; [exact HT|done|done|]. intros k1 i T1 F1. wp_steps.
  eapply (tx_bdata _ _ _ _ _ _ (BBLOCK b sb) (i, false)); [exact T1|apply lookup_insert_eq|].
  rewrite map_bit_bit. unfold used in Hu. rewrite Hu. simpl. apply wp_bind.
  eapply (tx_set_bdata _ _ _ _ _ _ (BBLOCK b sb) (i, false)); [exact T1|apply lookup_insert_eq|].
  intros k2 T2 F2. rewrite insert_insert_eq in T2.
  eapply (wp_log_release _ _ _ _ _ _ (BBLOCK b sb) (i, true)); [exact T2|done|done|].
  intros k3 T3 F3. apply HQ; [exact T3|]. eauto using fs_frame_trans.
Qed.
End ops.

(** ** An example: a disk whose first 46 blocks are in use *)

Definition sample_map : list Z := [255; 255; 255; 255; 255; 63] ++ replicate 1018 0.

Definition map_disk (b : Z) : list Z := if b =? 45 then sample_map else zeros.

Lemma sample_layout : layout sample_sb.
Proof. constructor; vm_compute; split_ands; (reflexivity || discriminate). Qed.

Lemma map_disk_ok : blocks_ok map_disk.
Proof.
  intros b. unfold map_disk. destruct (b =? 45); [|apply zeros_ok].
  split; [reflexivity|]. apply Forall_app. split; [|apply Forall_replicate; split; lia].
  repeat constructor; lia.
Qed.

Lemma map_disk_first : first_block sample_sb map_disk 46.
Proof.
  split; [simpl; lia|]. split; [vm_compute; reflexivity|]. intros b Hb.
  assert (H : forallb (fun i => used sample_sb map_disk (Z.of_nat i)) (seq 0 46) = true)
    by (vm_compute; reflexivity).
  rewrite forallb_forall in H. rewrite <- (Z2Nat.id b) by lia. apply H, in_seq. lia.
Qed.

Lemma map_write_set : write_set 2 {[45; 46]}.
Proof.
  split; [rewrite size_union by set_solver; rewrite !size_singleton; unfold LOGSIZE, MAXOPBLOCKS; lia|].
  intros blk [->%elem_of_singleton| ->%elem_of_singleton]%elem_of_union;
    unfold outside, LOGSIZE, MAXOPBLOCKS; lia.
Qed.

(** ** Properties *)

(** [balloc] returns the first free block of the disk, filled with zeros and
    marked in use; the marks of all other blocks and the contents of all blocks but
    the new one and its map block are as before.  The map block and the new block
    are logged, and no buffer stays held. *)
Theorem balloc_correct k me pr V W h r :
  let sb := k_sb k in
  txn k me pr V W h -> layout sb -> blocks_ok V -> first_block sb V r -> data_block sb r ->
  (forall b, 0 <= b <= r -> h !! BBLOCK b sb = None) -> h !! r = None ->
  (size W + size h < NBUF)%nat -> BBLOCK r sb ∈ W -> r ∈ W ->
  wp (balloc ROOTDEV) (fun b k' => b = r /\ exists V', txn k' me pr V' W h /\ blocks_ok V' /\
    V' r = zeros /\
    (forall b, 0 <= b < sb_size sb -> used sb V' b = if decide (b = r) then true else used sb V b) /\
    forall b, b <> r -> b <> BBLOCK r sb -> V' b = V b) k.
Proof.
  intros sb HT HL HV Hf Hd Hhm Hhr Hs HW1 HW2. pose proof Hf as (Hr & _).
  eapply wp_balloc; try done. intros k' T' _. split; [done|].
  exists (vset r zeros (mark sb r V)). split_ands; [exact T'| | | |].
  - apply blocks_ok_vset; [by apply mark_ok|apply zeros_ok..].
  - apply vset_eq.
  - intros b Hb. rewrite <- used_mark by done. unfold used. rewrite vset_ne; [done|].
    intros E. symmetry in E. by apply (BBLOCK_not_data sb b r).
  - intros b Hb1 Hb2. rewrite vset_ne by done. by apply vset_ne.
Qed.

Lemma balloc_correct_witness :
  exists k', balloc ROOTDEV (op_kernel map_disk) = Ok 46 k' /\
    exists V', txn k' 0 first_proc V' {[45; 46]} ∅.
Proof.
  destruct (wp_ok _ _ _ (balloc_correct (op_kernel map_disk) 0 first_proc map_disk {[45; 46]} ∅ 46
    (op_txn _ _ map_write_set) sample_layout map_disk_ok map_disk_first ltac:(split; vm_compute; reflexivity)
    (fun b _ => lookup_empty _) (lookup_empty _)
    ltac:(rewrite map_size_empty, size_union by set_solver; rewrite !size_singleton; unfold NBUF; lia)
    ltac:(change (BBLOCK 46 _) with 45; set_solver) ltac:(set_solver)))
    as (r & k' & E & -> & V' & T' & _).
  exists k'. split; [exact E|]. exists V'. exact T'.
Defined.

(** [bfree] marks a block in use as free and changes nothing else; on a block
    that is free already it panics. *)
Theorem bfree_correct k me pr V W h b :
  let sb := k_sb k in
  txn k me pr V W h -> layout sb -> blocks_ok V -> 0 <= b < sb_size sb ->
  h !! BBLOCK b sb = None -> (size W + size h < NBUF)%nat -> BBLOCK b sb ∈ W ->
  if used sb V b
  then wp (bfree ROOTDEV b) (fun _ k' => exists V', txn k' me pr V' W h /\ blocks_ok V' /\
         (forall x, 0 <= x < sb_size sb -> used sb V' x = if decide (x = b) then false else used sb V x) /\
         forall x, x <> BBLOCK b sb -> V' x = V x) k
  else panics (bfree ROOTDEV b) "freeing free block" k.
Proof.
  intros sb HT HL HV Hb Hh Hs HW. destruct (used sb V b) eqn:E.
  - eapply wp_bfree; try done. intros k' T' _. exists (unmark sb b V).
    split_ands; [exact T'|by apply unmark_ok| |].
    + intros x Hx. by apply used_unmark.
    + intros x Hx. by apply vset_ne.
  - unfold bfree. wp_steps. fold sb. eapply tx_bread; [exact HT|done|done|]. intros k1 i T1 F1. wp_steps.
    eapply (tx_bdata _ _ _ _ _ _ (BBLOCK b sb) (i, false)); [exact T1|apply lookup_insert_eq|].
    rewrite map_bit_bit. unfold used in E. by rewrite E.
Qed.

Lemma bfree_correct_witness :
  exists k', bfree ROOTDEV 40 (op_kernel map_disk) = Ok tt k' /\
    exists V', txn k' 0 first_proc V' {[45; 46]} ∅.
Proof.
  pose proof (bfree_correct (op_kernel map_disk) 0 first_proc map_disk {[45; 46]} ∅ 40
    (op_txn _ _ map_write_set) sample_layout map_disk_ok ltac:(simpl; lia) (lookup_empty _)
    ltac:(rewrite map_size_empty, size_union by set_solver; rewrite !size_singleton; unfold NBUF; lia)
    ltac:(change (BBLOCK 40 _) with 45; set_solver)) as H.
  assert (Eu : used sample_sb map_disk 40 = true) by (vm_compute; reflexivity).
  cbv zeta in H. change (k_sb (op_kernel map_disk)) with sample_sb in H. rewrite Eu in H.
  destruct (wp_ok _ _ _ H) as ([] & k' & E & V' & T' & _).
  exists k'. split; [exact E|]. exists V'. exact T'.
Defined.
