(* ===== verification/FsInode.v ===== *)
(** * Inodes and file contents (kernel/fs.c)

    A pointer to an in-memory inode is its index in the inode table; an inode's
    fields are read and written where the code does it, between the calls that may
    change them. *)

From S2P Require Import Prelude State Spin Sleep Bio Log Txn Strings Kalloc Vm FsBlock.

(** ** Definitions: the inode on disk *)

(** Where the inode is in its block: [dip + inum%IPB]. *)
Definition dinode_off (inum : Z) : nat := Z.to_nat (inum mod IPB * 64).

Definition ld_dinode (inum : Z) (b : list Z) : dinode :=
  let o := dinode_off inum in
  mkDinode (get_short o b) (get_short (o + 2) b) (get_short (o + 4) b) (get_short (o + 6) b)
           (get_uint (o + 8) b) (get_uints (o + 12) 13 b).

Definition st_dinode (inum : Z) (d : dinode) (b : list Z) : list Z :=
  let o := dinode_off inum in
  put_uints (o + 12) (di_addrs d)
    (put_int (o + 8) (di_size d)
      (put_short (o + 6) (di_nlink d)
        (put_short (o + 4) (di_minor d)
          (put_short (o + 2) (di_major d)
            (put_short o (di_type d) b))))).

Definition IBLOCK (i : Z) (sb : superblock) : Z := u32 (i / IPB + sb_inodestart sb).

(** ** Definitions: inodes *)

Definition T_DIR : Z := 1.
Definition T_FILE : Z := 2.
Definition T_DEVICE : Z := 3.

Definition iinit : K unit :=
  initlock LItable "itable" ;*
  for_each (seq 0 NINODE) (fun i => initsleeplock (SInode i) "inode").

(** The entry in use for the inode, or else the first unused one. *)
Fixpoint iget_scan (l : list inode) (i : nat) (dev inum : Z) (empty : option nat) :
    option nat * option nat :=
  match l with
  | [] => (None, empty)
  | ip :: l =>
      if (0 <? i_ref ip) && (i_dev ip =? dev) && (i_inum ip =? inum) then (Some i, empty)
      else iget_scan l (S i) dev inum
             (match empty with
              | None => if i_ref ip =? 0 then Some i else None
              | Some _ => empty
              end)
  end.

Definition iget (dev inum : Z) : K nat :=
  acquire LItable ;*
  let* t := gets k_itable in
  match iget_scan t 0 dev inum None with
  | (Some i, _) =>
      upd_inode i (set_i_ref (fun r => i32 (r + 1))) ;*
      release LItable ;*
      M_ret i
  | (None, None) => panic "iget: no inodes"
  | (None, Some i) =>
      upd_inode i (set_i_dev (fun _ => dev)) ;*
      upd_inode i (set_i_inum (fun _ => inum)) ;*
      upd_inode i (set_i_ref (fun _ => 1)) ;*
      upd_inode i (set_i_valid (fun _ => 0)) ;*
      release LItable ;*
      M_ret i
  end.

Definition ialloc (dev type : Z) : K nat :=
  let* sb := gets k_sb in
  let* r := for_find (seq 1 (Z.to_nat (sb_ninodes sb) - 1)) (fun n =>
    let inum := Z.of_nat n in
    let* bp := bread dev (IBLOCK inum sb) in
    let* d := bdata bp in
    if di_type (ld_dinode inum d) =? 0 then
      set_bdata bp (put_short (dinode_off inum) type
                      (splice (dinode_off inum) (replicate 64 0) d)) ;*
      log_write bp ;*
      brelse bp ;*
      let* ip := iget dev inum in
      M_ret (Some ip)
    else
      brelse bp ;*
      M_ret None) in
  match r with
  | Some ip => M_ret ip
  | None => panic "ialloc: no inodes"
  end.

Definition dinode_of (ip : inode) : dinode :=
  mkDinode (i_type ip) (i_major ip) (i_minor ip) (i_nlink ip) (i_size ip) (i_addrs ip).

Definition iupdate (i : nat) : K unit :=
  let* sb := gets k_sb in
  let* ip := get_inode i in
  let* bp := bread (i_dev ip) (IBLOCK (i_inum ip) sb) in
  let* d := bdata bp in
  let* ip := get_inode i in
  set_bdata bp (st_dinode (i_inum ip) (dinode_of ip) d) ;*
  log_write bp ;*
  brelse bp.

Definition idup (i : nat) : K nat :=
  acquire LItable ;*
  upd_inode i (set_i_ref (fun r => i32 (r + 1))) ;*
  release LItable ;*
  M_ret i.

Definition load_inode (d : dinode) (ip : inode) : inode :=
  mkInode (i_dev ip) (i_inum ip) (i_ref ip) (i_valid ip) (di_type d) (di_major d) (di_minor d)
          (di_nlink d) (di_size d) (di_addrs d).

Definition ilock (i : nat) : K unit :=
  let* ip := get_inode i in
  if i_ref ip <? 1 then panic "ilock" else
  acquiresleep (SInode i) ;*
  let* ip := get_inode i in
  if i_valid ip =? 0 then
    let* sb := gets k_sb in
    let* bp := bread (i_dev ip) (IBLOCK (i_inum ip) sb) in
    let* d := bdata bp in
    upd_inode i (load_inode (ld_dinode (i_inum ip) d)) ;*
    brelse bp ;*
    upd_inode i (set_i_valid (fun _ => 1)) ;*
    let* ip := get_inode i in
    if i_type ip =? 0 then panic "ilock: no type" else M_ret tt
  else M_ret tt.

Definition iunlock (i : nat) : K unit :=
  let* h := holdingsleep (SInode i) in
  let* ip := get_inode i in
  if negb h || (i_ref ip <? 1) then panic "iunlock" else
  releasesleep (SInode i).

(** ** Definitions: file contents *)

(** Entry [bn] of the indirect block [addr], allocating it if necessary. *)
Definition bmap_ind (dev addr bn : Z) : K Z :=
  let* bp := bread dev addr in
  let* d := bdata bp in
  let addr := get_uint (4 * Z.to_nat bn) d in
  let* addr :=
    (if addr =? 0 then
       let* addr := balloc dev in
       let* d := bdata bp in
       set_bdata bp (put_int (4 * Z.to_nat bn) addr d) ;*
       log_write bp ;*
       M_ret addr
     else M_ret addr) in
  brelse bp ;*
  M_ret addr.

(** Entry [n] of [ip->addrs], allocating it if necessary. *)
Definition bmap_addr (i n : nat) : K Z :=
  let* ip := get_inode i in
  let* addr := of_opt (i_addrs ip !! n) in
  if addr =? 0 then
    let* addr := balloc (i_dev ip) in
    upd_inode i (set_i_addrs (<[n := addr]>)) ;*
    M_ret addr
  else M_ret addr.

Definition bmap (i : nat) (bn : Z) : K Z :=
  if bn <? NDIRECT then bmap_addr i (Z.to_nat bn)
  else
    let bn := bn - NDIRECT in
    if bn <? NINDIRECT then
      let* addr := bmap_addr i (Z.to_nat NDIRECT) in
      let* ip := get_inode i in
      bmap_ind (i_dev ip) addr bn
    else panic "bmap: out of range".

Definition itrunc (i : nat) : K unit :=
  let* ip := get_inode i in
  let dev := i_dev ip in
  for_each (seq 0 (Z.to_nat NDIRECT)) (fun j =>
    let* ip := get_inode i in
    let* addr := of_opt (i_addrs ip !! j) in
    when (truthy addr)
      (bfree dev addr ;*
       upd_inode i (set_i_addrs (<[j := 0]>)))) ;*
  let* ip := get_inode i in
  let* addr := of_opt (i_addrs ip !! Z.to_nat NDIRECT) in
  when (truthy addr)
    (let* bp := bread dev addr in
     for_each (seq 0 (Z.to_nat NINDIRECT)) (fun j =>
       let* d := bdata bp in
       let a := get_uint (4 * j) d in
       when (truthy a) (bfree dev a)) ;*
     brelse bp ;*
     bfree dev addr ;*
     upd_inode i (set_i_addrs (<[Z.to_nat NDIRECT := 0]>))) ;*
  upd_inode i (set_i_size (fun _ => 0)) ;*
  iupdate i.

Definition iput (i : nat) : K unit :=
  acquire LItable ;*
  let* ip := get_inode i in
  when ((i_ref ip =? 1) && truthy (i_valid ip) && (i_nlink ip =? 0))
    (acquiresleep (SInode i) ;*
     release LItable ;*
     itrunc i ;*
     upd_inode i (set_i_type (fun _ => 0)) ;*
     iupdate i ;*
     upd_inode i (set_i_valid (fun _ => 0)) ;*
     releasesleep (SInode i) ;*
     acquire LItable) ;*
  upd_inode i (set_i_ref (fun r => i32 (r - 1))) ;*
  release LItable.

Definition iunlockput (i : nat) : K unit :=
  iunlock i ;*
  iput i.

Record stat := mkStat {
  st_dev : Z;
  st_ino : Z;
  st_type : Z;
  st_nlink : Z;
  st_size : Z
}.

Definition stati (ip : inode) : stat :=
  mkStat (i32 (i_dev ip)) (i_inum ip) (i_type ip) (i_nlink ip) (i_size ip).

(** Where [either_copyout] (proc.c) puts bytes: a user address, a kernel address, or
    a variable of the caller. *)
Inductive dest :=
| ToUser (va : Z)
| ToKernel (pa : Z)
| ToLocal.

Definition dest_add (d : dest) (m : Z) : dest :=
  match d with
  | ToUser va => ToUser (u64 (va + m))
  | ToKernel pa => ToKernel (u64 (pa + m))
  | ToLocal => ToLocal
  end.

Definition either_copyout (d : dest) (src : list Z) : K Z :=
  let* p := curproc in
  match d with
  | ToUser va => let* pr := get_proc p in copyout (p_pagetable pr) va src
  | ToKernel pa => st_mem pa src ;* M_ret 0
  | ToLocal => M_ret 0
  end.

(** Where [either_copyin] takes bytes from. *)
Inductive source :=
| FromUser (va : Z)
| FromKernel (pa : Z)
| FromLocal (l : list Z).

Definition source_add (s : source) (m : Z) : source :=
  match s with
  | FromUser va => FromUser (u64 (va + m))
  | FromKernel pa => FromKernel (u64 (pa + m))
  | FromLocal l => FromLocal (drop (Z.to_nat m) l)
  end.

(** The result, and the bytes that reached the destination. *)
Definition either_copyin (s : source) (len : Z) : K (Z * list Z) :=
  let* p := curproc in
  match s with
  | FromUser va => let* pr := get_proc p in copyin (p_pagetable pr) va len
  | FromKernel pa => let* b := ld_mem pa (Z.to_nat len) in M_ret (0, b)
  | FromLocal l => M_ret (0, take (Z.to_nat len) l)
  end.

(** Rounds enough for [n] bytes from any offset. *)
Definition rw_fuel (n : Z) : nat := (Z.to_nat (n / BSIZE) + 3)%nat.

(** [readi] returns its result and the bytes it has copied, in order. *)
Fixpoint readi_loop (fuel : nat) (i : nat) (dst : dest) (off n tot : Z) : K (Z * list Z) :=
  match fuel with
  | O => nofuel
  | S fuel =>
      if negb (tot <? n) then M_ret (i32 tot, []) else
      let* bn := bmap i (off / BSIZE) in
      let* ip := get_inode i in
      let* bp := bread (i_dev ip) bn in
      let m := Z.min (n - tot) (BSIZE - off mod BSIZE) in
      let* d := bdata bp in
      let b := slice (Z.to_nat (off mod BSIZE)) (Z.to_nat m) d in
      let* r := either_copyout dst b in
      if r =? -1 then
        brelse bp ;*
        M_ret (-1, [])
      else
        brelse bp ;*
        let* r := readi_loop fuel i (dest_add dst m) (u32 (off + m)) n (u32 (tot + m)) in
        M_ret (r.1, b ++ r.2)
  end.

Definition readi (i : nat) (dst : dest) (off n : Z) : K (Z * list Z) :=
  let* ip := get_inode i in
  if (i_size ip <? off) || (u32 (off + n) <? off) then M_ret (0, []) else
  let n := if i_size ip <? u32 (off + n) then i_size ip - off else n in
  readi_loop (rw_fuel n) i dst off n 0.

(** The loop of [writei] ends with [off] and [tot]. *)
Fixpoint writei_loop (fuel : nat) (i : nat) (src : source) (off n tot : Z) : K (Z * Z) :=
  match fuel with
  | O => nofuel
  | S fuel =>
      if negb (tot <? n) then M_ret (off, tot) else
      let* bn := bmap i (off / BSIZE) in
      let* ip := get_inode i in
      let* bp := bread (i_dev ip) bn in
      let m := Z.min (n - tot) (BSIZE - off mod BSIZE) in
      let* r := either_copyin src m in
      let* d := bdata bp in
      set_bdata bp (splice (Z.to_nat (off mod BSIZE)) r.2 d) ;*
      if r.1 =? -1 then
        brelse bp ;*
        M_ret (off, tot)
      else
        log_write bp ;*
        brelse bp ;*
        writei_loop fuel i (source_add src m) (u32 (off + m)) n (u32 (tot + m))
  end.

Definition writei (i : nat) (src : source) (off n : Z) : K Z :=
  let* ip := get_inode i in
  if (i_size ip <? off) || (u32 (off + n) <? off) then M_ret (-1) else
  if MAXFILE * BSIZE <? u32 (off + n) then M_ret (-1) else
  let* r := writei_loop (rw_fuel n) i src off n 0 in
  let* ip := get_inode i in
  when (i_size ip <? r.1) (upd_inode i (set_i_size (fun _ => r.1))) ;*
  iupdate i ;*
  M_ret (i32 r.2).

(** ** Specification: inodes *)

Record dinode_ok (d : dinode) : Prop := mkDinodeOk {
  dk_type : - 2 ^ 15 <= di_type d < 2 ^ 15;
  dk_major : - 2 ^ 15 <= di_major d < 2 ^ 15;
  dk_minor : - 2 ^ 15 <= di_minor d < 2 ^ 15;
  dk_nlink : - 2 ^ 15 <= di_nlink d < 2 ^ 15;
  dk_size : 0 <= di_size d < 2 ^ 32;
  dk_len : length (di_addrs d) = 13%nat;
  dk_addrs : Forall (fun a => 0 <= a < 2 ^ 32) (di_addrs d)
}.

(** The 64 bytes of an inode. *)
Definition dinode_bytes (d : dinode) : list Z :=
  le_split 2 (di_type d) ++ le_split 2 (di_major d) ++ le_split 2 (di_minor d) ++
  le_split 2 (di_nlink d) ++ le_split 4 (di_size d) ++ concat (le_split 4 <$> di_addrs d).

(** The inode [inum] as the view has it. *)
Definition disk_inode (sb : superblock) (V : Z -> list Z) (inum : Z) : dinode :=
  ld_dinode inum (V (IBLOCK inum sb)).

(** The view with the inode [inum] written. *)
Definition put_inode (sb : superblock) (inum : Z) (d : dinode) (V : Z -> list Z) : Z -> list Z :=
  vset (IBLOCK inum sb) (st_dinode inum d (V (IBLOCK inum sb))) V.

(** An entry of the table in use for an inode, and the entry [iget] gives. *)
Definition for_inode (dev inum : Z) (x : inode) : Prop := 0 < i_ref x /\ i_dev x = dev /\ i_inum x = inum.

Inductive igot (t : list inode) (dev inum : Z) (i : nat) : inode -> Prop :=
  | igot_again x : t !! i = Some x -> for_inode dev inum x -> igot t dev inum i (set_i_ref (fun r => i32 (r + 1)) x)
  | igot_new x : (forall j y, t !! j = Some y -> ~ for_inode dev inum y) -> t !! i = Some x -> i_ref x = 0 ->
      igot t dev inum i (set_i_valid (fun _ => 0) (set_i_ref (fun _ => 1) (set_i_inum (fun _ => inum) (set_i_dev (fun _ => dev) x)))).

(** ** Lemmas: inodes on disk *)

Lemma i16_small x : - 2 ^ 15 <= x < 2 ^ 15 -> i16 x = x.
Proof.
  intros H. unfold i16, swrap.
  destruct (decide (0 <= x)) as [Hx|Hx].
  - rewrite Z.mod_small by lia. destruct (Z.ltb_spec x (2 ^ (16 - 1))); lia.
  - rewrite <- (Z.mod_unique_pos x (2 ^ 16) (-1) (x + 2 ^ 16)) by lia.
    destruct (Z.ltb_spec (x + 2 ^ 16) (2 ^ (16 - 1))); lia.
Qed.

Lemma i16_mod x : i16 (x mod 256 ^ Z.of_nat 2) = i16 x.
Proof. unfold i16, swrap. change (256 ^ Z.of_nat 2) with (2 ^ 16). by rewrite Z.mod_mod. Qed.

Lemma length_dinode_bytes d : length (di_addrs d) = 13%nat -> length (dinode_bytes d) = 64%nat.
Proof.
  intros H. unfold dinode_bytes. rewrite !length_app, !length_le_split.
  assert (E : forall l, length (concat (le_split 4 <$> l)) = (4 * length l)%nat).
  { induction l as [|x l IH]; [done|]. rewrite fmap_cons. cbn [concat length]. rewrite length_app, IH, length_le_split. lia. }
  rewrite E, H. done.
Qed.

(** The fields are stored one after the other. *)
Lemma st_dinode_bytes inum d b :
  length (di_addrs d) = 13%nat -> (dinode_off inum + 64 <= length b)%nat ->
  st_dinode inum d b = splice (dinode_off inum) (dinode_bytes d) b.
Proof.
  intros Hl Hb. pose proof (length_dinode_bytes d Hl) as H64. unfold dinode_bytes in *.
  set (c := concat _) in *. rewrite !length_app, !length_le_split in H64.
  unfold st_dinode, put_uints, put_int, put_short. set (o := dinode_off inum) in *. fold c.
  assert (Hs : forall v w n m, length v = n -> (o + n + length w <= length b)%nat -> (m = o + n)%nat ->
    splice m w (splice o v b) = splice o (v ++ w) b).
  { intros v w n m <- H ->. by apply splice_app. }
  rewrite (Hs _ _ 2%nat) by len. rewrite (Hs _ _ 4%nat) by len. rewrite (Hs _ _ 6%nat) by len.
  rewrite (Hs _ _ 8%nat) by len. rewrite (Hs _ _ 12%nat) by len. by rewrite <- !app_assoc.
Qed.

Lemma dinode_off_bound inum : (dinode_off inum + 64 <= Z.to_nat BSIZE)%nat.
Proof.
  unfold dinode_off. pose proof (Z.mod_pos_bound inum IPB eq_refl) as H.
  change IPB with 16 in *. unfold BSIZE. lia.
Qed.

(** Reading an inode uses its 64 bytes only. *)
Definition dinode_at (l : list Z) : dinode :=
  mkDinode (get_short 0 l) (get_short 2 l) (get_short 4 l) (get_short 6 l) (get_uint 8 l) (get_uints 12 13 l).

Lemma ld_dinode_at inum b : ld_dinode inum b = dinode_at (slice (dinode_off inum) 64 b).
Proof.
  unfold ld_dinode, dinode_at. set (o := dinode_off inum) in *.
  unfold get_uints, get_short, get_uint. rewrite !slice_slice, Nat.add_0_r by lia. f_equal.
  apply list_fmap_ext. intros i x [-> Hi]%lookup_seq. rewrite slice_slice by lia. do 2 f_equal. lia.
Qed.

Lemma dinode_at_bytes d : dinode_ok d -> dinode_at (dinode_bytes d) = d.
Proof.
  intros [H1 H2 H3 H4 H5 H6 H7]. destruct d as [ty ma mi nl sz ad]. simpl in *.
  assert (Hu : forall x, 0 <= x < 2 ^ 32 -> le_join (le_split 4 x) = x).
  { intros x Hx. rewrite le_join_split. apply Z.mod_small. done. }
  assert (Hs : forall x, - 2 ^ 15 <= x < 2 ^ 15 -> i16 (le_join (le_split 2 x)) = x).
  { intros x Hx. rewrite le_join_split, i16_mod. by apply i16_small. }
  do 13 (destruct ad as [|? ad]; [discriminate|]). destruct ad; [|discriminate]. clear H6.
  repeat (apply Forall_cons in H7 as [? H7]).
  unfold dinode_at. f_equal; [exact (Hs ty H1)|exact (Hs ma H2)|exact (Hs mi H3)|exact (Hs nl H4)|exact (Hu sz H5)|].
  repeat (apply (f_equal2 cons); [by apply Hu|]). reflexivity.
Qed.

Lemma length_st_dinode inum d b :
  length (di_addrs d) = 13%nat -> length b = Z.to_nat BSIZE -> length (st_dinode inum d b) = length b.
Proof.
  intros Hl Hb. pose proof (dinode_off_bound inum). rewrite st_dinode_bytes by (done || lia).
  apply length_splice. rewrite length_dinode_bytes by done. lia.
Qed.

Lemma le_split_byte n x : Forall byte (le_split n x).
Proof. apply le_split_bytes. Qed.

Lemma st_dinode_ok inum d b :
  length (di_addrs d) = 13%nat -> length b = Z.to_nat BSIZE -> Forall byte b -> Forall byte (st_dinode inum d b).
Proof.
  intros Hl Hb Hf. pose proof (dinode_off_bound inum). rewrite st_dinode_bytes by (done || lia).
  apply Forall_splice; [|done]. unfold dinode_bytes. rewrite !Forall_app. split_ands; try apply le_split_byte.
  apply Forall_concat, Forall_fmap, Forall_forall. intros x _. apply le_split_byte.
Qed.

(** An inode written is read back; the others of its block stay. *)
Lemma ld_st_dinode inum d b :
  dinode_ok d -> length b = Z.to_nat BSIZE -> ld_dinode inum (st_dinode inum d b) = d.
Proof.
  intros Hd Hb. pose proof (dinode_off_bound inum). pose proof (dk_len _ Hd) as Hl.
  rewrite ld_dinode_at, st_dinode_bytes by (done || lia).
  rewrite <- (length_dinode_bytes d Hl), slice_splice_same by lia. by apply dinode_at_bytes.
Qed.

Lemma ld_st_dinode_ne inum inum' d b :
  length (di_addrs d) = 13%nat -> length b = Z.to_nat BSIZE -> inum mod IPB <> inum' mod IPB ->
  ld_dinode inum' (st_dinode inum d b) = ld_dinode inum' b.
Proof.
  intros Hl Hb Hne. pose proof (dinode_off_bound inum).
  rewrite !ld_dinode_at, st_dinode_bytes by (done || lia). f_equal.
  apply slice_splice_other; rewrite length_dinode_bytes by done; [lia|]. unfold dinode_off.
  pose proof (Z.mod_pos_bound inum IPB eq_refl). pose proof (Z.mod_pos_bound inum' IPB eq_refl). lia.
Qed.

Lemma IBLOCK_small sb inum :
  layout sb -> 0 <= inum < sb_ninodes sb -> IBLOCK inum sb = inum / IPB + sb_inodestart sb.
Proof.
  intros [H1 H2 H3 H4 H5] Hi. unfold IBLOCK. apply u32_small.
  assert (0 <= inum / IPB) by (apply Z.div_pos; [lia|reflexivity]).
  assert (inum / IPB <= sb_ninodes sb / IPB) by (apply Z.div_le_mono; [reflexivity|lia]).
  assert (0 <= sb_size sb / BPB) by (apply Z.div_pos; [lia|reflexivity]). lia.
Qed.

(** Inode blocks are neither map blocks nor data blocks. *)
Lemma IBLOCK_not_map sb inum b :
  layout sb -> 0 <= inum < sb_ninodes sb -> 0 <= b < sb_size sb -> IBLOCK inum sb <> BBLOCK b sb.
Proof.
  intros HL Hi Hb. rewrite IBLOCK_small, BBLOCK_small by done. destruct HL.
  assert (inum / IPB <= sb_ninodes sb / IPB) by (apply Z.div_le_mono; [reflexivity|lia]).
  assert (0 <= b / BPB) by (apply Z.div_pos; [lia|reflexivity]). lia.
Qed.

Lemma IBLOCK_not_data sb inum x :
  layout sb -> 0 <= inum < sb_ninodes sb -> data_block sb x -> x <> IBLOCK inum sb.
Proof.
  intros HL Hi Hx. rewrite IBLOCK_small by done. destruct HL. unfold data_block in Hx.
  assert (inum / IPB <= sb_ninodes sb / IPB) by (apply Z.div_le_mono; [reflexivity|lia]).
  assert (0 <= sb_size sb / BPB) by (apply Z.div_pos; [lia|reflexivity]). lia.
Qed.

Lemma disk_put_inode sb V inum inum' d :
  layout sb -> blocks_ok V -> dinode_ok d ->
  0 <= inum < sb_ninodes sb -> 0 <= inum' < sb_ninodes sb ->
  disk_inode sb (put_inode sb inum d V) inum' = if decide (inum' = inum) then d else disk_inode sb V inum'.
Proof.
  intros HL HV Hd Hi Hi'. unfold disk_inode, put_inode. destruct (HV (IBLOCK inum sb)) as [Hl _].
  destruct (decide (inum' = inum)) as [->|Hne]; [rewrite vset_eq; by apply ld_st_dinode|].
  destruct (decide (IBLOCK inum' sb = IBLOCK inum sb)) as [E|E]; [|by rewrite vset_ne].
  rewrite E, vset_eq. apply ld_st_dinode_ne; [apply Hd|done|]. intros Em. apply Hne.
  rewrite !IBLOCK_small in E by done.
  rewrite (Z.div_mod inum IPB), (Z.div_mod inum' IPB), Em by done. do 2 f_equal. lia.
Qed.

Lemma put_inode_ok sb V inum d :
  blocks_ok V -> length (di_addrs d) = 13%nat -> blocks_ok (put_inode sb inum d V).
Proof.
  intros HV Hd. destruct (HV (IBLOCK inum sb)) as [Hl Hb].
  apply blocks_ok_vset; [done|by rewrite length_st_dinode|by apply st_dinode_ok].
Qed.

(** ** Lemmas: operations on inodes *)

(** What an operation on the table entries [P] leaves alone. *)
Record inode_frame (me : nat) (P : nat -> Prop) (k k' : kernel) : Prop := mkInodeFrame {
  nf_core : core_frame me (k_core k) (k_core k');
  nf_locks : forall j, ~ P j -> c_sleep (k_core k') (SInode j) = c_sleep (k_core k) (SInode j);
  nf_itable : forall j, ~ P j -> k_itable k' !! j = k_itable k !! j;
  nf_len : length (k_itable k') = length (k_itable k);
  nf_sb : k_sb k' = k_sb k;
  nf_ftable : k_ftable k' = k_ftable k;
  nf_pipes : k_pipes k' = k_pipes k;
  nf_phys : k_phys k' = k_phys k;
  nf_ticks : k_ticks k' = k_ticks k;
  nf_img : k_img k' = k_img k
}.

Lemma fs_inode_frame me P k k' : fs_frame me k k' -> inode_frame me P k k'.
Proof. intros []. constructor; try done; congruence. Qed.

Lemma inode_frame_refl me P k : inode_frame me P k k.
Proof. apply fs_inode_frame, fs_frame_refl. Qed.

Lemma inode_frame_trans me P k1 k2 k3 :
  inode_frame me P k1 k2 -> inode_frame me P k2 k3 -> inode_frame me P k1 k3.
Proof.
  intros [] []. constructor; try congruence.
  - by eapply core_frame_trans.
  - intros j Hj. rewrite nf_locks1, nf_locks0; done.
  - intros j Hj. rewrite nf_itable1, nf_itable0; done.
Qed.

Lemma inode_frame_upd me i k g :
  inode_frame me (fun j => j = i) k (set_k_itable (alter g i) k).
Proof.
  constructor; try done; simpl; [|by rewrite length_alter].
  intros j Hj. apply list_lookup_alter_ne. congruence.
Qed.

Section ops.
Context {T : kernel -> nat -> proc -> (Z -> list Z) -> gset Z -> held_map -> Prop} `{!TxnLaws T}.

Lemma wp_iupdate k me pr V W h i ip Q :
  T k me pr V W h -> k_itable k !! i = Some ip -> i_dev ip = ROOTDEV ->
  h !! IBLOCK (i_inum ip) (k_sb k) = None -> (size W + size h < NBUF)%nat ->
  IBLOCK (i_inum ip) (k_sb k) ∈ W ->
  (forall k', T k' me pr (put_inode (k_sb k) (i_inum ip) (dinode_of ip) V) W h ->
     fs_frame me k k' -> Q tt k') ->
  wp (iupdate i) Q k.
Proof.
  intros HT Hi Hd Hh Hs HW HQ. unfold iupdate. wp_steps. eapply wp_get_inode; [exact Hi|]. rewrite Hd.
  set (blk := IBLOCK _ _) in *. wp_steps. eapply tx_bread; [exact HT|done|done|]. intros k1 b T1 F1. wp_steps.
  eapply (tx_bdata _ _ _ _ _ _ blk (b, false)); [exact T1|apply lookup_insert_eq|]. wp_steps.
  eapply wp_get_inode; [by rewrite (ff_itable _ _ _ F1)|]. apply wp_bind.
  eapply (tx_set_bdata _ _ _ _ _ _ blk (b, false)); [exact T1|apply lookup_insert_eq|].
  intros k2 T2 F2. rewrite insert_insert_eq in T2.
  eapply (wp_log_release _ _ _ _ _ _ blk (b, true)); [exact T2|done|done|].
  intros k3 T3 F3. apply HQ; [exact T3|]. eauto using fs_frame_trans.
Qed.

(** The inode is locked by the process, and nothing but its entry and lock changed. *)
Definition ilocked (k : kernel) (pr : proc) (i : nat) : Prop :=
  sl_locked (c_sleep (k_core k) (SInode i)) = 1 /\ sl_pid (c_sleep (k_core k) (SInode i)) = p_pid pr.

Definition loaded (d : dinode) (ip : inode) : inode := set_i_valid (fun _ => 1) (load_inode d ip).

Lemma tx_sleep_lock k me pr V W h i c' x y :
  T k me pr V W h -> core_ok c' me [] -> core_frame me (k_core k) c' ->
  sleep_set (c_sleep (k_core k)) (c_sleep c') (SInode i) x y ->
  T (with_core k c') me pr V W h /\ inode_frame me (fun j => j = i) k (with_core k c').
Proof.
  intros HT Hc Hf (_ & _ & Ho). split.
  - apply tx_locks; try done. intros j. by apply Ho.
  - constructor; try done. intros j Hj. apply Ho. congruence.
Qed.

Lemma wp_ilock k me pr V W h i ip Q :
  T k me pr V W h -> k_itable k !! i = Some ip -> 1 <= i_ref ip ->
  sl_locked (c_sleep (k_core k) (SInode i)) = 0 ->
  (i_valid ip = 0 -> i_dev ip = ROOTDEV /\ h !! IBLOCK (i_inum ip) (k_sb k) = None /\
     (size W + size h < NBUF)%nat /\ di_type (disk_inode (k_sb k) V (i_inum ip)) <> 0) ->
  (forall k', T k' me pr V W h -> ilocked k' pr i -> inode_frame me (fun j => j = i) k k' ->
     k_itable k' !! i =
       Some (if i_valid ip =? 0 then loaded (disk_inode (k_sb k) V (i_inum ip)) ip else ip) -> Q tt k') ->
  wp (ilock i) Q k.
Proof.
  intros HT Hi Hr Hl Hv HQ. unfold ilock. destruct (tx_core _ _ _ _ _ _ HT) as [Hc Hp]. wp_steps.
  eapply wp_get_inode; [exact Hi|]. rewrite (proj2 (Z.ltb_ge _ _)) by lia. wp_steps.
  eapply (wp_acquiresleep _ me pr [] 0); [exact Hc|simpl; lia|set_solver|exact Hl|exact Hp|].
  intros c1 H1 F1 S1. destruct (tx_sleep_lock _ _ _ _ _ _ _ _ _ _ HT H1 F1 S1) as [T1 N1].
  assert (L1 : ilocked (with_core k c1) pr i) by (destruct S1 as (? & ? & _); done).
  wp_steps. eapply wp_get_inode; [exact Hi|]. destruct (Z.eqb_spec (i_valid ip) 0) as [E0|E0].
  - destruct (Hv E0) as (Hd & Hh & Hs & Hty). rewrite Hd. wp_steps. cbn [k_sb set_k_core].
    set (blk := IBLOCK _ _) in *. eapply tx_bread; [exact T1|done|done|]. intros k2 b T2 F2. wp_steps.
    eapply (tx_bdata _ _ _ _ _ _ blk (b, false)); [exact T2|apply lookup_insert_eq|]. wp_steps.
    eapply wp_upd_inode; [rewrite (ff_itable _ _ _ F2); exact Hi|]. wp_steps.
    eapply (tx_brelse _ _ _ _ _ _ blk); [apply tx_inodes; exact T2|apply lookup_insert_eq|].
    intros k3 T3 F3. rewrite delete_insert_id in T3 by done. wp_steps.
    set (d := ld_dinode _ _) in *.
    assert (E3 : k_itable k3 !! i = Some (load_inode d ip)).
    { rewrite (ff_itable _ _ _ F3). simpl. rewrite list_lookup_alter_eq, (ff_itable _ _ _ F2). simpl. by rewrite Hi. }
    eapply wp_upd_inode; [exact E3|]. wp_steps.
    assert (E4 : k_itable (set_k_itable (alter (set_i_valid (fun _ => 1)) i) k3) !! i = Some (loaded d ip)).
    { simpl. by rewrite list_lookup_alter_eq, E3. }
    eapply wp_get_inode; [exact E4|]. simpl. rewrite (proj2 (Z.eqb_neq _ _)) by exact Hty. wp_steps.
    apply HQ; [by apply tx_inodes| | |exact E4].
    + unfold ilocked in *. simpl. by rewrite (ff_inodes _ _ _ F3), (ff_inodes _ _ _ F2).
    + eapply inode_frame_trans; [exact N1|]. eapply inode_frame_trans; [by apply fs_inode_frame|].
      eapply inode_frame_trans; [apply inode_frame_upd|].
      eapply inode_frame_trans; [by apply fs_inode_frame|apply inode_frame_upd].
  - wp_steps. by apply HQ.
Qed.

Lemma wp_iunlock k me pr V W h i ip Q :
  T k me pr V W h -> k_itable k !! i = Some ip -> 1 <= i_ref ip -> ilocked k pr i ->
  (forall k', T k' me pr V W h -> inode_frame me (fun j => j = i) k k' ->
     sl_locked (c_sleep (k_core k') (SInode i)) = 0 -> k_itable k' = k_itable k -> Q tt k') ->
  wp (iunlock i) Q k.
Proof.
  intros HT Hi Hr [L1 L2] HQ. unfold iunlock. destruct (tx_core _ _ _ _ _ _ HT) as [Hc Hp]. wp_steps.
  eapply (wp_holdingsleep _ me pr [] 0); [exact Hc|simpl; lia|set_solver|exact Hp|].
  intros c1 H1 S1. rewrite L1, L2, Z.eqb_refl. wp_steps. eapply wp_get_inode; [exact Hi|].
  rewrite (proj2 (Z.ltb_ge _ _)) by lia. simpl.
  eapply (wp_releasesleep _ me [] 0); [exact H1|simpl; lia|set_solver|set_solver|].
  intros c2 H2 F2 S2 _. simpl in F2, S2. rewrite (sb_sleep _ _ S1) in S2.
  assert (F : core_frame me (k_core k) c2) by (eapply core_frame_trans; [by apply same_core_frame|exact F2]).
  destruct (tx_sleep_lock _ _ _ _ _ _ _ _ _ _ HT H2 F S2) as [T2 N2]. destruct S2 as (S2 & _).
  by apply HQ.
Qed.

Lemma iget_scan_spec l i dev inum empty :
  match iget_scan l i dev inum empty with
  | (Some r, _) => exists j x, r = (i + j)%nat /\ l !! j = Some x /\ for_inode dev inum x
  | (None, e) => (forall j x, l !! j = Some x -> ~ for_inode dev inum x) /\
      match e with
      | Some r => empty = Some r \/ (empty = None /\ exists j x, r = (i + j)%nat /\ l !! j = Some x /\ i_ref x = 0)
      | None => empty = None /\ forall j x, l !! j = Some x -> i_ref x <> 0
      end
  end.
Proof.
  revert i empty. induction l as [|y l IH]; intros i empty.
  { split; [intros j x E; by rewrite lookup_nil in E|]. destruct empty; [by left|]. split; [done|].
    intros j x E. by rewrite lookup_nil in E. }
  cbn [iget_scan].
  destruct ((0 <? i_ref y) && (i_dev y =? dev) && (i_inum y =? inum)) eqn:Eb.
  - exists 0%nat, y. rewrite !andb_true_iff, Z.ltb_lt, !Z.eqb_eq in Eb. unfold for_inode. split_ands; [lia|done|tauto..].
  - assert (Hno : ~ for_inode dev inum y).
    { intros (? & ? & ?). rewrite !andb_false_iff, Z.ltb_ge, !Z.eqb_neq in Eb. lia. }
    set (e2 := match empty with Some _ => empty | None => _ end). specialize (IH (S i) e2).
    destruct (iget_scan l (S i) dev inum e2) as [[r|] e].
    + destruct IH as (j & x & -> & Hx). exists (S j), x. split; [lia|done].
    + destruct IH as [Hall He]. split; [by intros [|j] x E; simplify_eq/=; eauto|]. unfold e2 in He. destruct e as [r|].
      * destruct empty as [e0|]; [naive_solver|]. right. split; [done|]. destruct (Z.eqb_spec (i_ref y) 0) as [E|E].
        -- destruct He as [[= <-]|[[=] _]]. exists 0%nat, y. split; [lia|done].
        -- destruct He as [[=]|(_ & j & x & -> & Hx)]. exists (S j), x. split; [lia|done].
      * destruct empty as [e0|]; [naive_solver|]. split; [done|]. destruct (Z.eqb_spec (i_ref y) 0) as [E|E]; [naive_solver|].
        intros [|j] x Ex; simplify_eq/=; [done|]. destruct He as [_ He]. eauto.
Qed.

Lemma wp_iget k me pr V W h dev inum Q :
  T k me pr V W h ->
  (exists j x, k_itable k !! j = Some x /\ (i_ref x = 0 \/ for_inode dev inum x)) ->
  (forall k' i x, T k' me pr V W h -> igot (k_itable k) dev inum i x -> k_itable k' = <[i := x]> (k_itable k) ->
     inode_frame me (fun j => j = i) k k' -> c_sleep (k_core k') = c_sleep (k_core k) -> Q i k') ->
  wp (iget dev inum) Q k.
Proof.
  intros HT (j0 & x0 & Hx0 & Hslot) HQ. destruct (tx_core _ _ _ _ _ _ HT) as [Hc Hp]. unfold iget. wp_steps.
  eapply wp_acquire; [exact Hc|simpl; lia|set_solver|]. intros c1 H1 S1. wp_steps. cbn [k_itable set_k_core].
  assert (Hend : forall i x (g : list inode -> list inode) c2, g (k_itable k) = <[i := x]> (k_itable k) ->
    igot (k_itable k) dev inum i x -> core_ok c2 me [] -> same_but_locks c1 c2 ->
    Q i (with_core (set_k_itable g (with_core k c1)) c2)).
  { intros i x g c2 Eg Hg H2 S2. pose proof (same_but_locks_trans _ _ _ S1 S2) as S12. apply (HQ _ i x).
    - change (T (set_k_itable g (with_core k c2)) me pr V W h). apply tx_inodes. apply tx_locks; [done|done|by apply same_core_frame|].
      intros j. by rewrite (sb_sleep _ _ S12).
    - done.
    - done.
    - constructor; simpl; rewrite ?Eg; try done.
      + by apply same_core_frame.
      + intros j Hj. by rewrite (sb_sleep _ _ S12).
      + intros j Hj. by rewrite list_lookup_insert_ne.
      + by rewrite length_insert.
    - simpl. by rewrite (sb_sleep _ _ S12). }
  pose proof (iget_scan_spec (k_itable k) 0 dev inum None) as Hs.
  destruct (iget_scan (k_itable k) 0 dev inum None) as [[i|] e]; [|destruct Hs as [Hno Hs]; destruct e as [i|]].
  - destruct Hs as (j & x & -> & Hx & Hfor). cbn [Nat.add] in *. wp_steps. eapply wp_upd_inode; [exact Hx|]. wp_steps.
    eapply (wp_release _ me _ [] 0); [exact H1|]. intros c2 H2 S2. wp_steps.
    eapply Hend; [by apply alter_as_insert|by constructor|done|done].
  - destruct Hs as [[=]|(_ & j & x & -> & Hx & Hr)]. cbn [Nat.add] in *. wp_steps.
    assert (Hlt : (j < length (k_itable k))%nat) by (by eapply lookup_lt_Some).
    eapply wp_upd_inode; [exact Hx|]. wp_steps.
    eapply wp_upd_inode; [simpl; by rewrite list_lookup_alter_eq, Hx|]. wp_steps.
    eapply wp_upd_inode; [simpl; by rewrite !list_lookup_alter_eq, Hx|]. wp_steps.
    eapply wp_upd_inode; [simpl; by rewrite !list_lookup_alter_eq, Hx|]. wp_steps.
    eapply (wp_release _ me _ [] 0); [exact H1|]. intros c2 H2 S2. wp_steps.
    eapply (Hend j _ (fun t => alter (set_i_valid (fun _ => 0)) j (alter (set_i_ref (fun _ => 1)) j
      (alter (set_i_inum (fun _ => inum)) j (alter (set_i_dev (fun _ => dev)) j t)))));
      [|apply igot_new; [exact Hno|exact Hx|exact Hr]|done|done].
    apply list_eq. intros l. destruct (decide (l = j)) as [->|Hne].
    + by rewrite !list_lookup_alter_eq, Hx, list_lookup_insert_eq.
    + by rewrite !list_lookup_alter_ne, list_lookup_insert_ne.
  - destruct Hs as [_ Hs]. exfalso. destruct Hslot as [Hz|Hf]; [by apply (Hs _ _ Hx0)|by apply (Hno _ _ Hx0)].
Qed.
End ops.
