(* ===== verification/FsFile.v ===== *)
(** * File contents: the theorems on [bmap], [readi] and [writei] of kernel/fs.c

    A file is its block addresses: twelve direct ones and an indirect block.  The
    specification reads them as a map from block numbers to blocks and from there as
    a sequence of bytes. *)

From S2P Require Import Prelude State Spin Sleep Bio Log Txn Strings Kalloc Vm FsBlock FsInode.

(** ** Specification *)

(** The address of block [bn] of a file; 0 when it has none. *)
Definition ind_addr (addrs : list Z) : Z := addrs !!! Z.to_nat NDIRECT.

Definition faddr (V : Z -> list Z) (addrs : list Z) (bn : Z) : Z :=
  if decide (bn < NDIRECT) then addrs !!! Z.to_nat bn
  else if decide (ind_addr addrs = 0) then 0
  else get_uint (4 * Z.to_nat (bn - NDIRECT)) (V (ind_addr addrs)).

(** A file system: the blocks that are free are data blocks. *)
Record fs_ok (sb : superblock) (V : Z -> list Z) : Prop := mkFsOk {
  fk_layout : layout sb;
  fk_blocks : blocks_ok V;
  fk_free : forall b, 0 <= b < sb_size sb -> used sb V b = false -> data_block sb b
}.

(** A data block that is in use. *)
Definition in_use (sb : superblock) (V : Z -> list Z) (b : Z) : Prop :=
  data_block sb b /\ used sb V b = true.

(** The blocks of a file are in use and distinct. *)
Record file_ok (sb : superblock) (V : Z -> list Z) (addrs : list Z) : Prop := mkFileOk {
  fo_len : length addrs = 13%nat;
  fo_ind : ind_addr addrs <> 0 -> in_use sb V (ind_addr addrs);
  fo_data : forall bn, 0 <= bn < MAXFILE -> faddr V addrs bn <> 0 -> in_use sb V (faddr V addrs bn);
  fo_inj : forall bn bn', 0 <= bn < MAXFILE -> 0 <= bn' < MAXFILE -> faddr V addrs bn <> 0 ->
    faddr V addrs bn = faddr V addrs bn' -> bn = bn';
  fo_apart : forall bn, 0 <= bn < MAXFILE -> faddr V addrs bn <> 0 -> faddr V addrs bn <> ind_addr addrs
}.

(** The blocks the next allocations return, in order. *)
Fixpoint allocs (size : Z) (u : Z -> bool) (fl : list Z) : Prop :=
  match fl with
  | [] => True
  | r :: fl =>
      (0 <= r < size /\ u r = false /\ forall b, 0 <= b < r -> u b = true) /\
      allocs size (fun b => if decide (b = r) then true else u b) fl
  end.

(** The view after block [r] is allocated. *)
Definition alloc (sb : superblock) (r : Z) (V : Z -> list Z) : Z -> list Z := vset r zeros (mark sb r V).

(** The block is none of the free map. *)
Definition not_map (sb : superblock) (x : Z) : Prop := forall b, 0 <= b < sb_size sb -> x <> BBLOCK b sb.

(** What finding block [bn] of a file does to the file and the disk: the block
    exists afterwards, filled with zeros if it is new, and every other block of the
    file and every block in use keeps its place and contents.  The new blocks are
    those of [tk]. *)
Record bmapped (sb : superblock) (V V' : Z -> list Z) (addrs addrs' : list Z) (bn : Z) (tk fl' : list Z) :
    Prop := mkBmapped {
  bm_fs : fs_ok sb V';
  bm_file : file_ok sb V' addrs';
  bm_addr : faddr V' addrs' bn <> 0;
  bm_same : forall x, 0 <= x < MAXFILE -> x <> bn -> faddr V' addrs' x = faddr V addrs x;
  bm_old : faddr V addrs bn <> 0 -> faddr V' addrs' bn = faddr V addrs bn;
  bm_new : faddr V addrs bn = 0 -> V' (faddr V' addrs' bn) = zeros;
  bm_keep : forall b, not_map sb b -> (0 <= b < sb_size sb -> used sb V b = true) ->
    b <> ind_addr addrs -> V' b = V b;
  bm_used : forall b, 0 <= b < sb_size sb -> used sb V b = true -> used sb V' b = true;
  bm_from : faddr V addrs bn = 0 -> faddr V' addrs' bn ∈ tk;
  bm_ind : ind_addr addrs' = ind_addr addrs \/ ind_addr addrs = 0 /\ ind_addr addrs' ∈ tk;
  bm_allocs : allocs (sb_size sb) (used sb V') fl'
}.

(** ** Lemmas: allocating a block *)

Lemma allocs_ext size u u' fl :
  (forall b, 0 <= b < size -> u' b = u b) -> allocs size u fl -> allocs size u' fl.
Proof.
  revert u u'. induction fl as [|r fl IH]; intros u u' He; simpl; [done|].
  intros [(Hr & Hf & Hu) Ha]. split.
  - split_ands; try lia; [by rewrite He|]. intros b Hb. rewrite He by lia. auto.
  - eapply IH; [|exact Ha]. intros b Hb. simpl. by rewrite He.
Qed.

Lemma data_not_map sb x : layout sb -> data_block sb x -> not_map sb x.
Proof. intros HL Hx b Hb. by apply (BBLOCK_not_data sb b x). Qed.

Lemma data_range sb x : layout sb -> data_block sb x -> 0 < x < sb_size sb.
Proof.
  intros [H1 H2 H3 H4 H5] Hx. unfold data_block in Hx.
  assert (0 <= sb_ninodes sb / IPB) by (apply Z.div_pos; [lia|reflexivity]).
  assert (0 <= sb_size sb / BPB) by (apply Z.div_pos; [lia|reflexivity]). lia.
Qed.

(** Writing a block that is not of the map keeps the marks. *)
Lemma used_vset sb V x dt b :
  not_map sb x -> 0 <= b < sb_size sb -> used sb (vset x dt V) b = used sb V b.
Proof. intros Hx Hb. unfold used. rewrite vset_ne; [done|]. apply not_eq_sym. by apply Hx. Qed.

Section alloc.
Context (sb : superblock) (V : Z -> list Z) (r : Z) (fl : list Z).
Hypothesis Hok : fs_ok sb V.
Hypothesis Hal : allocs (sb_size sb) (used sb V) (r :: fl).

Lemma alloc_data : data_block sb r /\ used sb V r = false.
Proof. destruct Hal as [(Hr & Hf & _) _]. split; [by apply (fk_free _ _ Hok)|done]. Qed.

Lemma alloc_first : first_block sb V r.
Proof. destruct Hal as [(Hr & Hf & Hu) _]. split_ands; try done; lia. Qed.

Lemma used_alloc b :
  0 <= b < sb_size sb -> used sb (alloc sb r V) b = if decide (b = r) then true else used sb V b.
Proof.
  intros Hb. destruct Hok as [HL HV _]. destruct alloc_data as [Hd _].
  unfold alloc. rewrite used_vset by (done || by apply data_not_map).
  apply used_mark; try done. pose proof (data_range _ _ HL Hd). lia.
Qed.

Lemma alloc_zeros : alloc sb r V r = zeros.
Proof. apply vset_eq. Qed.

Lemma alloc_keep b : not_map sb b -> b <> r -> alloc sb r V b = V b.
Proof.
  intros Hm Hne. unfold alloc. rewrite vset_ne by done. unfold mark. apply vset_ne. apply Hm.
  destruct alloc_data as [Hd _]. pose proof (data_range _ _ (fk_layout _ _ Hok) Hd). lia.
Qed.

Lemma alloc_fs_ok : fs_ok sb (alloc sb r V).
Proof.
  destruct Hok as [HL HV Hf]. constructor; [done| |].
  - apply blocks_ok_vset; [by apply mark_ok|apply zeros_ok..].
  - intros b Hb. rewrite used_alloc by done. case_decide; [done|]. by apply Hf.
Qed.

Lemma alloc_allocs : allocs (sb_size sb) (used sb (alloc sb r V)) fl.
Proof. eapply allocs_ext; [|exact (proj2 Hal)]. intros b Hb. by apply used_alloc. Qed.

Lemma alloc_in_use b : in_use sb V b -> b <> r /\ in_use sb (alloc sb r V) b /\ alloc sb r V b = V b.
Proof.
  intros [Hd Hu]. destruct alloc_data as [Hdr Hur]. assert (b <> r) by congruence.
  pose proof (data_range _ _ (fk_layout _ _ Hok) Hd). split_ands; [done| |].
  - split; [done|]. rewrite used_alloc by lia. by rewrite decide_False.
  - apply alloc_keep; [|done]. by apply data_not_map; [apply Hok|].
Qed.

Lemma alloc_new : in_use sb (alloc sb r V) r /\ r <> 0.
Proof.
  destruct alloc_data as [Hd _]. pose proof (data_range _ _ (fk_layout _ _ Hok) Hd).
  split; [|lia]. split; [done|]. rewrite used_alloc by lia. by rewrite decide_True.
Qed.
End alloc.

(** Writing a data block keeps the file system. *)
Lemma vset_fs_ok sb V x dt :
  fs_ok sb V -> not_map sb x -> length dt = Z.to_nat BSIZE -> Forall byte dt -> fs_ok sb (vset x dt V).
Proof.
  intros [HL HV Hf] Hx Hl Hb. constructor; [done|by apply blocks_ok_vset|].
  intros b Hr. rewrite used_vset by done. by apply Hf.
Qed.

(** ** Lemmas: the block map of a file *)

Lemma get_put_uint off v b :
  (off + 4 <= length b)%nat -> 0 <= v < 2 ^ 32 -> get_uint off (put_int off v b) = v.
Proof.
  intros Hb Hv. unfold get_uint, put_int. replace 4%nat with (length (le_split 4 v)) at 1 by len.
  rewrite slice_splice_same, le_join_split by lia. by apply Z.mod_small.
Qed.

Lemma get_put_uint_ne off off' v b :
  (off' + 4 <= length b)%nat -> (off + 4 <= off' \/ off' + 4 <= off)%nat ->
  get_uint off (put_int off' v b) = get_uint off b.
Proof. intros. unfold get_uint, put_int. by rewrite slice_splice_other by len. Qed.

Lemma get_uint_zeros off : (off + 4 <= Z.to_nat BSIZE)%nat -> get_uint off zeros = 0.
Proof.
  intros H. unfold get_uint, slice, zeros. rewrite drop_replicate, take_replicate.
  replace (4 `min` (Z.to_nat BSIZE - off))%nat with 4%nat by lia. done.
Qed.

Lemma ind_off bn :
  NDIRECT <= bn < MAXFILE -> (4 * Z.to_nat (bn - NDIRECT) + 4 <= Z.to_nat BSIZE)%nat.
Proof. change MAXFILE with 268. unfold NDIRECT, BSIZE. lia. Qed.

Lemma faddr_direct V addrs bn : bn < NDIRECT -> faddr V addrs bn = addrs !!! Z.to_nat bn.
Proof. intros. unfold faddr. by rewrite decide_True. Qed.

Lemma faddr_indirect V addrs bn :
  NDIRECT <= bn -> ind_addr addrs <> 0 ->
  faddr V addrs bn = get_uint (4 * Z.to_nat (bn - NDIRECT)) (V (ind_addr addrs)).
Proof. intros. unfold faddr. rewrite decide_False by lia. by rewrite decide_False. Qed.

(** The map depends on the addresses and the indirect block. *)
Lemma faddr_view V V' addrs bn :
  (ind_addr addrs <> 0 -> V' (ind_addr addrs) = V (ind_addr addrs)) -> faddr V' addrs bn = faddr V addrs bn.
Proof.
  intros H. unfold faddr. destruct (decide (bn < NDIRECT)); [done|].
  destruct (decide (ind_addr addrs = 0)); [done|]. by rewrite H.
Qed.

Lemma total_insert (l : list Z) (i j : nat) x :
  (i < length l)%nat -> <[i := x]> l !!! j = if decide (j = i) then x else l !!! j.
Proof.
  intros Hi. rewrite !list_lookup_total_alt. destruct (decide (j = i)) as [->|Hne].
  - by rewrite list_lookup_insert_eq.
  - by rewrite list_lookup_insert_ne by congruence.
Qed.

(** A file stays well formed when all its old blocks stay in use and one new block,
    not in use before, is added at [bn]. *)
Lemma file_ok_add sb V V' addrs addrs' bn r :
  file_ok sb V addrs -> length addrs' = 13%nat ->
  (forall x, 0 <= x < MAXFILE -> faddr V' addrs' x = if decide (x = bn) then r else faddr V addrs x) ->
  (forall b, in_use sb V b -> in_use sb V' b /\ b <> r) -> in_use sb V' r ->
  (ind_addr addrs' = ind_addr addrs) -> faddr V addrs bn = 0 ->
  file_ok sb V' addrs'.
Proof.
  intros [Hl Hi Hd Hj Ha] Hl' Hf Hu Hr Ei H0. constructor; rewrite ?Ei; try done.
  - intros Hne. apply Hu. auto.
  - intros x Hx. rewrite Hf by done. destruct (decide (x = bn)) as [->|]; [done|]. intros Hne. by apply Hu, Hd.
  - intros x y Hx Hy. rewrite !Hf by done.
    destruct (decide (x = bn)) as [->|Hxb], (decide (y = bn)) as [->|Hyb]; try done.
    + intros Hne E. destruct (Hu (faddr V addrs y)) as [_ Hbad]; [|by rewrite E in Hbad].
      apply Hd; [done|]. by rewrite <- E.
    + intros Hne E. destruct (Hu (faddr V addrs x)) as [_ Hbad]; [by apply Hd|done].
    + auto.
  - intros x Hx. rewrite Hf by done. destruct (decide (x = bn)) as [->|]; [|by apply Ha].
    intros Hne E. destruct (decide (ind_addr addrs = 0)); [congruence|].
    destruct (Hu (ind_addr addrs)) as [_ Hbad]; [by apply Hi|congruence].
Qed.

Section grow.
Context (sb : superblock) (V : Z -> list Z) (addrs : list Z) (r : Z) (fl : list Z).
Hypothesis Hok : fs_ok sb V.
Hypothesis Hfile : file_ok sb V addrs.
Hypothesis Hal : allocs (sb_size sb) (used sb V) (r :: fl).

Lemma in_use_add b : in_use sb V b -> in_use sb (alloc sb r V) b /\ b <> r.
Proof. intros Hb. by destruct (alloc_in_use _ _ _ _ Hok Hal _ Hb) as (? & ? & _). Qed.

Lemma alloc_keep_used b :
  not_map sb b -> (0 <= b < sb_size sb -> used sb V b = true) -> alloc sb r V b = V b.
Proof.
  intros Hm Hb. apply (alloc_keep _ _ _ fl); try done. intros ->.
  destruct (alloc_data _ _ _ _ Hok Hal) as [Hd Hu].
  rewrite Hb in Hu; [done|]. pose proof (data_range _ _ (fk_layout _ _ Hok) Hd). lia.
Qed.

Lemma alloc_keep_ind : ind_addr addrs <> 0 -> alloc sb r V (ind_addr addrs) = V (ind_addr addrs).
Proof. intros Hi. by apply (alloc_in_use _ _ _ _ Hok Hal), (fo_ind _ _ _ Hfile). Qed.

Lemma alloc_used b : 0 <= b < sb_size sb -> used sb V b = true -> used sb (alloc sb r V) b = true.
Proof. intros Hb Hu. rewrite (used_alloc _ _ _ _ Hok Hal) by done. by case_decide. Qed.

(** A new direct block. *)
Lemma grow_direct bn :
  0 <= bn < NDIRECT -> faddr V addrs bn = 0 ->
  bmapped sb V (alloc sb r V) addrs (<[Z.to_nat bn := r]> addrs) bn [r] fl /\
  faddr (alloc sb r V) (<[Z.to_nat bn := r]> addrs) bn = r.
Proof.
  intros Hbn H0. set (V' := alloc sb r V). set (addrs' := <[Z.to_nat bn := r]> addrs).
  pose proof (fo_len _ _ _ Hfile) as Hl. destruct (alloc_new _ _ _ _ Hok Hal) as [Hr Hr0].
  assert (Hlt : (Z.to_nat bn < length addrs)%nat) by (rewrite Hl; unfold NDIRECT in *; lia).
  assert (Ei : ind_addr addrs' = ind_addr addrs).
  { unfold ind_addr, addrs'. rewrite total_insert by done. rewrite decide_False; [done|]. unfold NDIRECT in *. lia. }
  assert (Hf : forall x, 0 <= x < MAXFILE -> faddr V' addrs' x = if decide (x = bn) then r else faddr V addrs x).
  { intros x Hx. destruct (decide (x < NDIRECT)) as [Hd|Hd].
    - rewrite !faddr_direct by done. unfold addrs'. rewrite total_insert by done.
      destruct (decide (x = bn)) as [->|]; [by rewrite decide_True|]. rewrite decide_False; [done|lia].
    - rewrite (decide_False (P := x = bn)) by lia. unfold faddr. rewrite Ei.
      rewrite !(decide_False (P := x < NDIRECT)) by done.
      destruct (decide (ind_addr addrs = 0)); [done|]. unfold V'. by rewrite alloc_keep_ind. }
  assert (HM : MAXFILE = 268) by done. assert (HN : NDIRECT = 12) by done.
  assert (Hfr : faddr V' addrs' bn = r) by (rewrite Hf by lia; by rewrite decide_True).
  split; [|done]. constructor.
  - by eapply alloc_fs_ok.
  - eapply (file_ok_add _ V _ addrs _ bn r); try done; [unfold addrs'; by rewrite length_insert|apply in_use_add].
  - by rewrite Hfr.
  - intros x Hx Hne. rewrite Hf by done. by rewrite decide_False.
  - done.
  - intros _. rewrite Hfr. apply alloc_zeros.
  - intros b Hm Hb _. by apply alloc_keep_used.
  - apply alloc_used.
  - intros _. rewrite Hfr. left.
  - by left.
  - by eapply alloc_allocs.
Qed.

(** A new block listed in the indirect block. *)
Definition ind_view (bn : Z) : Z -> list Z :=
  vset (ind_addr addrs)
    (put_int (4 * Z.to_nat (bn - NDIRECT)) r (alloc sb r V (ind_addr addrs))) (alloc sb r V).

Lemma grow_indirect bn :
  NDIRECT <= bn < MAXFILE -> ind_addr addrs <> 0 -> faddr V addrs bn = 0 ->
  bmapped sb V (ind_view bn) addrs addrs bn [r] fl /\ faddr (ind_view bn) addrs bn = r.
Proof.
  intros Hbn Hi H0. pose proof (alloc_fs_ok _ _ _ _ Hok Hal) as Hok1.
  pose proof (fo_ind _ _ _ Hfile Hi) as Hiu. destruct Hiu as [Hid Hiu].
  destruct (alloc_new _ _ _ _ Hok Hal) as [Hr Hr0].
  destruct (in_use_add (ind_addr addrs)) as [Hiu1 Hir]; [done|].
  pose proof (fk_layout _ _ Hok) as HL. pose proof (data_not_map _ _ HL Hid) as Him.
  pose proof (data_range _ _ HL (proj1 Hr)) as Hrr. pose proof (lay_size _ HL) as Hsz.
  destruct (fk_blocks _ _ Hok1 (ind_addr addrs)) as [Hlen Hby]. pose proof (ind_off bn Hbn) as Ho.
  assert (Hlp : length (put_int (4 * Z.to_nat (bn - NDIRECT)) r (alloc sb r V (ind_addr addrs))) = Z.to_nat BSIZE).
  { rewrite length_put_int; [done|lia]. }
  assert (Hu2 : forall b, 0 <= b < sb_size sb -> used sb (ind_view bn) b = used sb (alloc sb r V) b)
    by (intros b Hb; by apply used_vset).
  assert (Hin2 : forall b, in_use sb (alloc sb r V) b -> in_use sb (ind_view bn) b).
  { intros b [Hd Hu]. split; [done|]. pose proof (data_range _ _ HL Hd). rewrite Hu2 by lia. done. }
  assert (Hf : forall x, 0 <= x < MAXFILE ->
    faddr (ind_view bn) addrs x = if decide (x = bn) then r else faddr V addrs x).
  { intros x Hx. destruct (decide (x < NDIRECT)) as [Hd|Hd].
    - rewrite (decide_False (P := x = bn)) by lia. by rewrite !faddr_direct.
    - rewrite !faddr_indirect by (done || lia). unfold ind_view. rewrite vset_eq.
      destruct (decide (x = bn)) as [->|Hne].
      + apply get_put_uint; lia.
      + rewrite get_put_uint_ne by lia. by rewrite alloc_keep_ind. }
  assert (Hfr : faddr (ind_view bn) addrs bn = r).
  { rewrite Hf by (unfold NDIRECT in *; lia). by rewrite decide_True. }
  split; [|done]. constructor.
  - apply vset_fs_ok; try done. apply Forall_splice; [apply le_split_byte|done].
  - eapply (file_ok_add _ V _ addrs _ bn r); try done; [by apply (fo_len _ _ _ Hfile)| |by apply Hin2].
    intros b Hb. destruct (in_use_add b Hb). auto.
  - by rewrite Hfr.
  - intros x Hx Hne. rewrite Hf by done. by rewrite decide_False.
  - done.
  - intros _. rewrite Hfr. unfold ind_view. rewrite vset_ne by congruence. apply alloc_zeros.
  - intros b Hm Hb Hne. unfold ind_view. rewrite vset_ne by done. by apply alloc_keep_used.
  - intros b Hb Hu. rewrite Hu2 by done. by apply alloc_used.
  - intros _. rewrite Hfr. left.
  - by left.
  - eapply allocs_ext; [|exact (alloc_allocs _ _ _ _ Hok Hal)]. intros b Hb. by apply Hu2.
Qed.

(** A new, empty indirect block. *)
Lemma grow_ind :
  ind_addr addrs = 0 ->
  let addrs' := <[Z.to_nat NDIRECT := r]> addrs in
  file_ok sb (alloc sb r V) addrs' /\ ind_addr addrs' = r /\
  forall x, 0 <= x < MAXFILE -> faddr (alloc sb r V) addrs' x = faddr V addrs x.
Proof.
  intros Hi addrs'. pose proof (fo_len _ _ _ Hfile) as Hl. destruct (alloc_new _ _ _ _ Hok Hal) as [Hr Hr0].
  assert (Hlt : (Z.to_nat NDIRECT < length addrs)%nat) by (rewrite Hl; unfold NDIRECT; lia).
  assert (Ei : ind_addr addrs' = r) by (unfold ind_addr, addrs'; rewrite total_insert by done; by rewrite decide_True).
  assert (Hf : forall x, 0 <= x < MAXFILE -> faddr (alloc sb r V) addrs' x = faddr V addrs x).
  { intros x Hx. destruct (decide (x < NDIRECT)) as [Hd|Hd].
    - rewrite !faddr_direct by done. unfold addrs'. rewrite total_insert by done.
      rewrite decide_False; [done|]. unfold NDIRECT in *. lia.
    - rewrite faddr_indirect by (rewrite ?Ei; done || lia). rewrite Ei, alloc_zeros, get_uint_zeros by (apply ind_off; lia).
      unfold faddr. rewrite decide_False by done. by rewrite decide_True. }
  split; [|done]. destruct Hfile as [_ _ Hd Hj Ha]. constructor.
  - unfold addrs'. by rewrite length_insert.
  - intros _. by rewrite Ei.
  - intros x Hx. rewrite Hf by done. intros Hne. by apply in_use_add, Hd.
  - intros x y Hx Hy. rewrite !Hf by done. auto.
  - intros x Hx. rewrite Hf, Ei by done. intros Hne. by apply in_use_add, Hd.
Qed.
End grow.

(** ** Lemmas: [bmap] *)

(** How many blocks finding block [bn] allocates. *)
Definition missing (V : Z -> list Z) (addrs : list Z) (bn : Z) : nat :=
  if decide (faddr V addrs bn = 0) then
    if decide (bn < NDIRECT) then 1 else if decide (ind_addr addrs = 0) then 2 else 1
  else 0.

(** The next [n] allocations are within the blocks the operation may write. *)
Definition can_alloc (sb : superblock) (W : gset Z) (fl : list Z) (n : nat) : Prop :=
  (n <= length fl)%nat /\ forall r, r ∈ take n fl -> r ∈ W /\ BBLOCK r sb ∈ W.

Lemma can_alloc_S sb W fl n :
  can_alloc sb W fl (S n) -> exists r fl', fl = r :: fl' /\ r ∈ W /\ BBLOCK r sb ∈ W /\ can_alloc sb W fl' n.
Proof.
  intros [Hn Hin]. destruct fl as [|r fl]; simpl in Hn; [lia|]. exists r, fl. split; [done|].
  destruct (Hin r) as [H1 H2]; [simpl; left|]. split_ands; try done. split; [lia|].
  intros x Hx. apply Hin. simpl. by right.
Qed.

(** Finding a block that is there changes nothing. *)
Lemma bmapped_refl sb V addrs bn fl :
  fs_ok sb V -> file_ok sb V addrs -> faddr V addrs bn <> 0 -> allocs (sb_size sb) (used sb V) fl ->
  bmapped sb V V addrs addrs bn [] fl.
Proof. intros. constructor; try done. by left. Qed.

(** The indirect block is made first, then the block listed in it. *)
Lemma bmapped_ind sb V V' addrs addrs1 bn r fl tk fl' :
  fs_ok sb V -> file_ok sb V addrs -> allocs (sb_size sb) (used sb V) (r :: fl) ->
  ind_addr addrs = 0 -> addrs1 = <[Z.to_nat NDIRECT := r]> addrs -> faddr V addrs bn = 0 -> 0 <= bn < MAXFILE ->
  bmapped sb (alloc sb r V) V' addrs1 addrs1 bn tk fl' -> bmapped sb V V' addrs addrs1 bn (r :: tk) fl'.
Proof.
  intros Hok Hfile Hal Hi -> H0 Hbn [B1 B2 B3 B4 B5 B6 B7 B8 B9 B10 B11].
  destruct (grow_ind _ _ _ _ _ Hok Hfile Hal Hi) as (G1 & G2 & G3). set (addrs' := <[_ := r]> addrs) in *.
  constructor; try done.
  - intros x Hx Hne. rewrite B4 by done. by apply G3.
  - intros _. apply B6. by rewrite G3.
  - intros b Hm Hb Hne. rewrite B7; [by eapply alloc_keep_used|done| |].
    + intros Hr. by apply (alloc_used _ _ _ _ Hok Hal), Hb.
    + rewrite G2. intros ->. destruct (alloc_data _ _ _ _ Hok Hal) as [Hd Hu].
      pose proof (data_range _ _ (fk_layout _ _ Hok) Hd). rewrite Hb in Hu by lia. done.
  - intros b Hb Hu. apply B8; [done|]. by apply (alloc_used _ _ _ _ Hok Hal).
  - intros _. right. apply B9. by rewrite G3.
  - right. split; [done|]. rewrite G2. left.
Qed.

Section bmap.
Context {T : kernel -> nat -> proc -> (Z -> list Z) -> gset Z -> held_map -> Prop} `{!TxnLaws T}.

(** Allocating while holding at most the indirect block [x]. *)
Lemma wp_alloc k me pr V W h r fl Q :
  T k me pr V W h -> fs_ok (k_sb k) V -> allocs (sb_size (k_sb k)) (used (k_sb k) V) (r :: fl) ->
  (forall b, is_Some (h !! b) -> in_use (k_sb k) V b) -> (size W + size h < NBUF)%nat ->
  r ∈ W -> BBLOCK r (k_sb k) ∈ W ->
  (forall k', T k' me pr (alloc (k_sb k) r V) W h -> fs_frame me k k' -> Q r k') ->
  wp (balloc ROOTDEV) Q k.
Proof.
  intros HT Hok Hal Hh Hs H1 H2 HQ. destruct (alloc_data _ _ _ _ Hok Hal) as [Hd Hu].
  pose proof (fk_layout _ _ Hok) as HL. pose proof (data_range _ _ HL Hd).
  eapply wp_balloc; try done; [apply Hok|by eapply alloc_first| |].
  - intros b Hb. destruct (h !! BBLOCK b (k_sb k)) eqn:E; [|done].
    destruct (Hh (BBLOCK b (k_sb k))) as [Hx _]; [by eexists|].
    destruct (BBLOCK_not_data (k_sb k) b _ HL ltac:(lia) Hx). done.
  - destruct (h !! r) eqn:E; [|done]. destruct (Hh r) as [_ Hx]; [by eexists|congruence].
Qed.

Lemma wp_bmap_ind k me pr V W addrs bn fl Q :
  T k me pr V W ∅ -> fs_ok (k_sb k) V -> file_ok (k_sb k) V addrs ->
  NDIRECT <= bn < MAXFILE -> ind_addr addrs <> 0 ->
  allocs (sb_size (k_sb k)) (used (k_sb k) V) fl ->
  let n := if decide (faddr V addrs bn = 0) then 1%nat else 0%nat in
  can_alloc (k_sb k) W fl n -> (faddr V addrs bn = 0 -> ind_addr addrs ∈ W) -> (size W + 1 < NBUF)%nat ->
  (forall k' V', T k' me pr V' W ∅ -> fs_frame me k k' ->
     bmapped (k_sb k) V V' addrs addrs bn (take n fl) (drop n fl) -> Q (faddr V' addrs bn) k') ->
  wp (bmap_ind ROOTDEV (ind_addr addrs) (bn - NDIRECT)) Q k.
Proof.
  intros HT Hok Hfile Hbn Hi Hal n Hca HWi Hs HQ. unfold bmap_ind. set (x := ind_addr addrs) in *.
  wp_steps. eapply tx_bread; [exact HT|apply lookup_empty|rewrite map_size_empty; lia|].
  intros k1 b T1 F1. wp_steps. eapply (tx_bdata _ _ _ _ _ _ x (b, false)); [exact T1|apply lookup_insert_eq|].
  assert (Ef : get_uint (4 * Z.to_nat (bn - NDIRECT)) (V x) = faddr V addrs bn)
    by (symmetry; apply faddr_indirect; (done || lia)).
  rewrite Ef. pose proof (ff_sb _ _ _ F1) as Esb.
  destruct (decide (faddr V addrs bn = 0)) as [E0|E0]; wp_steps.
  - rewrite (proj2 (Z.eqb_eq _ _)) by done. apply can_alloc_S in Hca as (r & fl' & -> & Hr1 & Hr2 & _).
    wp_steps. eapply (wp_alloc _ _ _ _ _ _ r fl'); [exact T1|by rewrite Esb|by rewrite Esb| | |done|by rewrite Esb|].
    { intros y [z Hz]. rewrite Esb. destruct (decide (y = x)) as [->|Hne]; [by apply (fo_ind _ _ _ Hfile)|].
      by rewrite lookup_insert_ne in Hz by congruence. }
    { rewrite map_size_insert_None by apply lookup_empty. rewrite map_size_empty. lia. }
    intros k2 T2 F2. rewrite Esb in T2. wp_steps.
    eapply (tx_bdata _ _ _ _ _ _ x (b, false)); [exact T2|apply lookup_insert_eq|]. wp_steps.
    eapply (tx_set_bdata _ _ _ _ _ _ x (b, false)); [exact T2|apply lookup_insert_eq|].
    intros k3 T3 F3. rewrite insert_insert_eq in T3. wp_steps.
    eapply (tx_log_write _ _ _ _ _ _ x (b, true)); [exact T3|apply lookup_insert_eq|auto|].
    intros k4 T4 F4. rewrite insert_insert_eq in T4. wp_steps.
    eapply (tx_brelse _ _ _ _ _ _ x); [exact T4|apply lookup_insert_eq|].
    intros k5 T5 F5. rewrite delete_insert_id in T5 by apply lookup_empty. wp_steps.
    destruct (grow_indirect _ _ _ _ _ Hok Hfile Hal bn Hbn Hi E0) as [HB Er].
    rewrite <- Er. apply HQ; [exact T5|eauto 10 using fs_frame_trans|exact HB].
  - rewrite (proj2 (Z.eqb_neq _ _)) by done. wp_steps.
    eapply (tx_brelse _ _ _ _ _ _ x); [exact T1|apply lookup_insert_eq|].
    intros k2 T2 F2. rewrite delete_insert_id in T2 by apply lookup_empty. wp_steps.
    apply HQ; [exact T2|eauto using fs_frame_trans|]. by apply bmapped_refl.
Qed.

(** An address in the inode, allocated when it is 0. *)
Lemma wp_bmap_addr k me pr V W i ip n fl Q :
  T k me pr V W ∅ -> k_itable k !! i = Some ip -> i_dev ip = ROOTDEV -> (n < length (i_addrs ip))%nat ->
  fs_ok (k_sb k) V -> allocs (sb_size (k_sb k)) (used (k_sb k) V) fl ->
  can_alloc (k_sb k) W fl (if decide (i_addrs ip !!! n = 0) then 1 else 0) -> (size W < NBUF)%nat ->
  (i_addrs ip !!! n <> 0 -> Q (i_addrs ip !!! n) k) ->
  (forall k' r fl', i_addrs ip !!! n = 0 -> fl = r :: fl' -> T k' me pr (alloc (k_sb k) r V) W ∅ ->
     inode_frame me (fun j => j = i) k k' -> c_sleep (k_core k') (SInode i) = c_sleep (k_core k) (SInode i) ->
     k_itable k' !! i = Some (set_i_addrs (fun _ => <[n := r]> (i_addrs ip)) ip) -> Q r k') ->
  wp (bmap_addr i n) Q k.
Proof.
  intros HT Hip Hdev Hn Hok Hal Hca Hs HQ0 HQ1. unfold bmap_addr. wp_steps.
  eapply wp_get_inode; [exact Hip|]. rewrite (list_lookup_lookup_total_lt _ _ Hn). wp_steps. rewrite Hdev.
  destruct (Z.eqb_spec (i_addrs ip !!! n) 0) as [E0|E0]; [|by wp_steps; auto].
  rewrite decide_True in Hca by done. apply can_alloc_S in Hca as (r & fl' & Efl & Hr1 & Hr2 & _). subst fl.
  wp_steps. eapply (wp_alloc _ _ _ _ _ _ r fl'); [exact HT|done|done| |by rewrite map_size_empty; lia|done|done|].
  { intros b [? Hb]. done. }
  intros k1 T1 F1. wp_steps. eapply wp_upd_inode; [by rewrite (ff_itable _ _ _ F1)|]. wp_steps.
  apply (HQ1 _ r fl'); try done.
  - by apply tx_inodes.
  - eapply inode_frame_trans; [by apply fs_inode_frame|apply inode_frame_upd].
  - simpl. by rewrite (ff_inodes _ _ _ F1).
  - simpl. rewrite list_lookup_alter_eq, (ff_itable _ _ _ F1), Hip. done.
Qed.

Lemma wp_bmap k me pr V W i ip bn fl Q :
  T k me pr V W ∅ -> k_itable k !! i = Some ip -> i_dev ip = ROOTDEV ->
  fs_ok (k_sb k) V -> file_ok (k_sb k) V (i_addrs ip) -> 0 <= bn < MAXFILE ->
  allocs (sb_size (k_sb k)) (used (k_sb k) V) fl ->
  can_alloc (k_sb k) W fl (missing V (i_addrs ip) bn) ->
  (NDIRECT <= bn -> ind_addr (i_addrs ip) <> 0 -> faddr V (i_addrs ip) bn = 0 -> ind_addr (i_addrs ip) ∈ W) ->
  (size W + 1 < NBUF)%nat ->
  (forall k' V' addrs', T k' me pr V' W ∅ -> inode_frame me (fun j => j = i) k k' ->
     c_sleep (k_core k') (SInode i) = c_sleep (k_core k) (SInode i) ->
     k_itable k' !! i = Some (set_i_addrs (fun _ => addrs') ip) ->
     bmapped (k_sb k) V V' (i_addrs ip) addrs' bn (take (missing V (i_addrs ip) bn) fl)
       (drop (missing V (i_addrs ip) bn) fl) ->
     Q (faddr V' addrs' bn) k') ->
  wp (bmap i bn) Q k.
Proof.
  intros HT Hip Hdev Hok Hfile Hbn Hal Hca HWi Hs HQ. unfold bmap. pose proof (fo_len _ _ _ Hfile) as Hl.
  assert (HN : NDIRECT = 12) by done. assert (HM : MAXFILE = 268) by done. unfold missing in *.
  assert (Eip : set_i_addrs (fun _ => i_addrs ip) ip = ip) by (by destruct ip).
  destruct (Z.ltb_spec bn NDIRECT) as [Hd|Hd].
  - pose proof (faddr_direct V (i_addrs ip) bn Hd) as Ef.
    eapply (wp_bmap_addr _ _ _ _ _ _ _ (Z.to_nat bn)); try done; [lia| |lia| |].
    + rewrite <- Ef. rewrite (decide_True (P := bn < NDIRECT)) in Hca by done. done.
    + rewrite <- Ef. intros Hne. apply HQ; [done|apply inode_frame_refl|done|by rewrite Eip|].
      rewrite decide_False by done. by apply bmapped_refl.
    + rewrite <- Ef. intros k' r fl' E0 -> T' F' S' I'.
      destruct (grow_direct _ _ _ _ _ Hok Hfile Hal bn ltac:(lia) E0) as [HB Er].
      rewrite <- Er. apply HQ; try done. rewrite decide_True by done. by rewrite decide_True.
  - rewrite (proj2 (Z.ltb_lt _ _)) by (change NINDIRECT with 256; lia). wp_steps.
    rewrite !(decide_False (P := bn < NDIRECT)) in * by lia.
    eapply (wp_bmap_addr _ _ _ _ _ _ _ (Z.to_nat NDIRECT) fl); try done; [lia| |lia| |]; fold (ind_addr (i_addrs ip)).
    + destruct (decide (ind_addr (i_addrs ip) = 0)) as [Ei|Ei]; [|split; [lia|set_solver]].
      assert (faddr V (i_addrs ip) bn = 0) as E0.
      { unfold faddr. rewrite decide_False by lia. by rewrite decide_True. }
      rewrite decide_True in Hca by done. apply can_alloc_S in Hca as (r & fl' & -> & Hr1 & Hr2 & _).
      split; [simpl; lia|]. intros x Hx. simpl in Hx. rewrite take_0 in Hx. set_solver.
    + intros Ei. rewrite !(decide_False (P := ind_addr _ = 0)) in * by done.
      wp_steps. eapply wp_get_inode; [exact Hip|]. rewrite Hdev.
      eapply wp_bmap_ind; try done; [lia|by apply HWi|]. intros k' V' T' F' HB.
      apply HQ; [exact T'|by apply fs_inode_frame|by rewrite (ff_inodes _ _ _ F')| |exact HB].
      by rewrite Eip, (ff_itable _ _ _ F').
    + intros k1 r fl1 Ei -> T1 F1 S1 I1. rewrite !(decide_True (P := ind_addr _ = 0)) in * by done.
      assert (faddr V (i_addrs ip) bn = 0) as E0.
      { unfold faddr. rewrite decide_False by lia. by rewrite decide_True. }
      rewrite !(decide_True (P := faddr _ _ _ = 0)) in * by done.
      apply can_alloc_S in Hca as (r' & fl' & [= <- <-] & Hr1 & Hr2 & Hca).
      destruct (grow_ind _ _ _ _ _ Hok Hfile Hal Ei) as (G1 & G2 & G3).
      pose proof (nf_sb _ _ _ _ F1) as Esb. destruct (alloc_new _ _ _ _ Hok Hal) as [_ Hr0].
      wp_steps. eapply wp_get_inode; [exact I1|]. cbn [i_dev set_i_addrs]. rewrite Hdev.
      set (addrs1 := <[_ := r]> (i_addrs ip)) in *. rewrite <- G2.
      eapply (wp_bmap_ind _ _ _ _ _ addrs1 _ fl1); rewrite ?Esb; try done; [by eapply alloc_fs_ok|lia|by rewrite G2| | | |].
      * by eapply alloc_allocs.
      * rewrite G3 by lia. by rewrite decide_True.
      * intros _. by rewrite G2.
      * rewrite G3 by lia. rewrite decide_True by done. intros k' V' T' F' HB.
        apply HQ; [exact T'| | | |].
        -- eapply inode_frame_trans; [exact F1|by apply fs_inode_frame].
        -- by rewrite (ff_inodes _ _ _ F').
        -- by rewrite (ff_itable _ _ _ F').
        -- eapply (bmapped_ind _ _ _ _ _ _ r fl1); try done.
Qed.
End bmap.

(** ** Specification: bytes of a file *)

Definition fbyte (V : Z -> list Z) (addrs : list Z) (off : Z) : Z :=
  V (faddr V addrs (off / BSIZE)) !!! Z.to_nat (off mod BSIZE).

Definition fbytes (V : Z -> list Z) (addrs : list Z) (off : Z) (n : nat) : list Z :=
  (fun i => fbyte V addrs (off + Z.of_nat i)) <$> seq 0 n.

(** The blocks of the bytes from [off] on are there. *)
Definition has_bytes (V : Z -> list Z) (addrs : list Z) (off n : Z) : Prop :=
  forall x, off <= x < off + n -> faddr V addrs (x / BSIZE) <> 0.

(** ** Lemmas: bytes of a file *)

Lemma fbytes_app V addrs off n1 n2 :
  fbytes V addrs off (n1 + n2) = fbytes V addrs off n1 ++ fbytes V addrs (off + Z.of_nat n1) n2.
Proof.
  unfold fbytes. rewrite seq_app, fmap_app. f_equal. change (0 + n1)%nat with n1.
  rewrite <- (Nat.add_0_r n1) at 1. rewrite <- fmap_add_seq, <- list_fmap_compose.
  apply list_fmap_ext. intros i x _. simpl. f_equal. lia.
Qed.

Lemma length_fbytes V addrs off n : length (fbytes V addrs off n) = n.
Proof. unfold fbytes. len. Qed.

Lemma block_in off i :
  0 <= i -> off mod BSIZE + i < BSIZE -> (off + i) / BSIZE = off / BSIZE /\ (off + i) mod BSIZE = off mod BSIZE + i.
Proof.
  intros Hi Hlt. pose proof (Z.div_mod off BSIZE ltac:(done)). pose proof (Z.mod_pos_bound off BSIZE eq_refl).
  split; symmetry; [apply (Z.div_unique_pos _ _ _ (off mod BSIZE + i))|
    apply (Z.mod_unique_pos _ _ (off / BSIZE))]; lia.
Qed.

(** Bytes of one block. *)
Lemma fbytes_block V addrs off m :
  blocks_ok V -> 0 <= m -> off mod BSIZE + m <= BSIZE ->
  slice (Z.to_nat (off mod BSIZE)) (Z.to_nat m) (V (faddr V addrs (off / BSIZE))) =
  fbytes V addrs off (Z.to_nat m).
Proof.
  intros HV Hm Hb. destruct (HV (faddr V addrs (off / BSIZE))) as [Hl _].
  pose proof (Z.mod_pos_bound off BSIZE eq_refl) as Hmb. apply list_eq. intros i.
  destruct (decide (i < Z.to_nat m)%nat) as [Hi|Hi].
  - rewrite lookup_slice by done. unfold fbytes. rewrite list_lookup_fmap, lookup_seq_lt by done. simpl.
    unfold fbyte. destruct (block_in off (Z.of_nat i)) as [-> ->]; [lia|lia|].
    rewrite list_lookup_lookup_total_lt by lia. do 2 f_equal. lia.
  - rewrite !lookup_ge_None_2; [done|rewrite length_fbytes; lia|rewrite length_slice; lia].
Qed.

(** The part of a transfer that lies in the first block. *)
Lemma rw_step off n tot fuel :
  0 <= off -> 0 <= tot < n -> off + (n - tot) < 2 ^ 32 -> n < 2 ^ 32 ->
  off mod BSIZE + (n - tot) <= Z.of_nat (S fuel - 1) * BSIZE ->
  let m := Z.min (n - tot) (BSIZE - off mod BSIZE) in
  0 < m <= n - tot /\ off mod BSIZE + m <= BSIZE /\ (0 < fuel)%nat /\
  u32 (off + m) = off + m /\ u32 (tot + m) = tot + m /\
  (tot + m = n \/ (off + m) mod BSIZE + (n - (tot + m)) <= Z.of_nat (fuel - 1) * BSIZE).
Proof.
  intros Ho Ht Hb Hn Hf m. assert (HB : BSIZE = 1024) by done. unfold m.
  pose proof (Z.mod_pos_bound off BSIZE ltac:(lia)) as Hmb. pose proof (Z.div_mod off BSIZE ltac:(lia)) as Hdm.
  rewrite !u32_small by lia. destruct (decide (n - tot < BSIZE - off mod BSIZE)) as [Hlt|Hge].
  - rewrite Z.min_l by lia. destruct (block_in off (n - tot)) as [_ ->]; [lia|lia|].
    destruct fuel as [|fuel]; split_ands; lia.
  - rewrite Z.min_r by lia.
    assert (E : (off + (BSIZE - off mod BSIZE)) mod BSIZE = 0).
    { replace (off + (BSIZE - off mod BSIZE)) with ((off / BSIZE + 1) * BSIZE) by lia. by apply Z.mod_mul. }
    rewrite E. destruct fuel as [|[|fuel]]; split_ands; lia.
Qed.

Lemma rw_fuel_enough off n :
  0 <= n -> (0 < rw_fuel n)%nat /\ off mod BSIZE + n <= Z.of_nat (rw_fuel n - 1) * BSIZE.
Proof.
  intros Hn. assert (HB : BSIZE = 1024) by done. unfold rw_fuel. pose proof (Z.mod_pos_bound off BSIZE ltac:(lia)).
  pose proof (Z.div_mod n BSIZE ltac:(lia)). pose proof (Z.mod_pos_bound n BSIZE ltac:(lia)).
  assert (0 <= n / BSIZE) by (apply Z.div_pos; lia). lia.
Qed.

(** Block numbers below the file size limit. *)
Lemma file_block off : 0 <= off < MAXFILE * BSIZE -> 0 <= off / BSIZE < MAXFILE.
Proof. intros H. split; [apply Z.div_pos; [lia|reflexivity]|]. apply Z.div_lt_upper_bound; [reflexivity|lia]. Qed.

(** ** Lemmas: transfers *)

(** What [either_copyout] and [either_copyin] may change: physical memory, and the
    locks of the running process while they run. *)
Definition copy_frame (me : nat) (k k' : kernel) : Prop :=
  exists c' g, k' = set_k_phys g (with_core k c') /\ core_ok c' me [] /\ same_but_locks (k_core k) c'.

(** What a transfer leaves alone. *)
Definition xfer_frame (me : nat) (P : nat -> Prop) (k k' : kernel) : Prop :=
  inode_frame me P (set_k_phys (fun _ => k_phys k') k) k'.

Lemma xfer_frame_trans me P k1 k2 k3 :
  xfer_frame me P k1 k2 -> xfer_frame me P k2 k3 -> xfer_frame me P k1 k3.
Proof.
  intros [A1 A2 A3 A4 A5 A6 A7 A8 A9 A10] [B1 B2 B3 B4 B5 B6 B7 B8 B9 B10]. simpl in *.
  constructor; simpl; try congruence.
  - by eapply core_frame_trans.
  - intros j Hj. by rewrite B2, A2.
  - intros j Hj. by rewrite B3, A3.
Qed.

Lemma inode_xfer_frame me P k k' : inode_frame me P k k' -> xfer_frame me P k k'.
Proof. intros []. by constructor. Qed.

Lemma fs_xfer_frame me P k k' : fs_frame me k k' -> xfer_frame me P k k'.
Proof. intros H. by apply inode_xfer_frame, fs_inode_frame. Qed.

Lemma copy_xfer_frame me P k k' : copy_frame me k k' -> xfer_frame me P k k'.
Proof.
  intros (c' & g & -> & Hc & Hs). constructor; try done; simpl; [by apply same_core_frame|].
  intros j _. by rewrite (sb_sleep _ _ Hs).
Qed.

Section transfer.
Context {T : kernel -> nat -> proc -> (Z -> list Z) -> gset Z -> held_map -> Prop} `{!TxnLaws T}.

Lemma tx_copy k k' me pr V W h : T k me pr V W h -> copy_frame me k k' -> T k' me pr V W h.
Proof.
  intros HT (c' & g & -> & Hc & Hs). apply tx_phys, tx_locks; try done; [by apply same_core_frame|].
  intros i. by rewrite (sb_sleep _ _ Hs).
Qed.

(** [bmap] of a block that is there. *)
Lemma wp_bmap_hit k me pr V W i ip bn Q :
  T k me pr V W ∅ -> k_itable k !! i = Some ip -> i_dev ip = ROOTDEV ->
  file_ok (k_sb k) V (i_addrs ip) -> 0 <= bn < MAXFILE -> faddr V (i_addrs ip) bn <> 0 ->
  (size W < NBUF)%nat ->
  (forall k', T k' me pr V W ∅ -> fs_frame me k k' -> Q (faddr V (i_addrs ip) bn) k') ->
  wp (bmap i bn) Q k.
Proof.
  intros HT Hip Hdev Hfile Hbn Hne Hs HQ. pose proof (fo_len _ _ _ Hfile) as Hl.
  assert (HN : NDIRECT = 12) by done. assert (HM : MAXFILE = 268) by done. unfold bmap, bmap_addr.
  assert (Hlk : forall n, (n < 13)%nat -> i_addrs ip !! n = Some (i_addrs ip !!! n))
    by (intros n Hn; apply list_lookup_lookup_total_lt; lia).
  destruct (Z.ltb_spec bn NDIRECT) as [Hd|Hd]; wp_steps.
  - eapply wp_get_inode; [exact Hip|]. rewrite Hlk by lia. wp_steps. rewrite faddr_direct in * by done.
    rewrite (proj2 (Z.eqb_neq _ _)) by done. wp_steps. apply HQ; [done|apply fs_frame_refl].
  - rewrite (proj2 (Z.ltb_lt _ _)) by (change NINDIRECT with 256; lia). wp_steps.
    eapply wp_get_inode; [exact Hip|]. rewrite Hlk by lia. fold (ind_addr (i_addrs ip)).
    assert (Hi : ind_addr (i_addrs ip) <> 0).
    { intros E. apply Hne. unfold faddr. rewrite decide_False by lia. by rewrite decide_True. }
    wp_steps. rewrite (proj2 (Z.eqb_neq _ _)) by done. wp_steps. eapply wp_get_inode; [exact Hip|].
    rewrite Hdev. unfold bmap_ind. wp_steps. rewrite faddr_indirect in * by done.
    set (x := ind_addr (i_addrs ip)) in *.
    eapply tx_bread; [exact HT|apply lookup_empty|by rewrite map_size_empty; lia|]. intros k1 b T1 F1. wp_steps.
    eapply (tx_bdata _ _ _ _ _ _ x (b, false)); [exact T1|apply lookup_insert_eq|]. wp_steps.
    rewrite (proj2 (Z.eqb_neq _ _)) by done. wp_steps.
    eapply (tx_brelse _ _ _ _ _ _ x); [exact T1|apply lookup_insert_eq|].
    intros k2 T2 F2. rewrite delete_insert_id in T2 by apply lookup_empty. wp_steps.
    apply HQ; [exact T2|by eapply fs_frame_trans].
Qed.

(** *** [readi], for any destination that takes the bytes

    [I d l k]: the bytes [l] have arrived and the next ones go to [d]. *)
Section readi.
Context (me : nat) (pr : proc) (total : Z) (I : dest -> list Z -> kernel -> Prop).
Hypothesis HIf : forall d l k k', I d l k -> fs_frame me k k' -> I d l k'.
Hypothesis HIc : forall d l b k, I d l k -> core_ok (k_core k) me [] -> c_procs (k_core k) !! me = Some pr ->
  Z.of_nat (length (l ++ b)) <= total ->
  wp (either_copyout d b) (fun r k' => r = 0 /\ I (dest_add d (Z.of_nat (length b))) (l ++ b) k' /\
    copy_frame me k k') k.

Lemma wp_readi_loop fuel k V W i ip off n d l Q :
  let tot := Z.of_nat (length l) in
  T k me pr V W ∅ -> k_itable k !! i = Some ip -> i_dev ip = ROOTDEV ->
  blocks_ok V -> file_ok (k_sb k) V (i_addrs ip) -> (size W < NBUF)%nat ->
  0 <= off -> tot <= n <= total -> off + (n - tot) <= MAXFILE * BSIZE -> n < 2 ^ 31 ->
  has_bytes V (i_addrs ip) off (n - tot) ->
  (0 < fuel)%nat -> (tot = n \/ off mod BSIZE + (n - tot) <= Z.of_nat (fuel - 1) * BSIZE) ->
  I d l k ->
  (forall k' d', T k' me pr V W ∅ -> xfer_frame me (fun _ => False) k k' ->
     I d' (l ++ fbytes V (i_addrs ip) off (Z.to_nat (n - tot))) k' ->
     Q (n, fbytes V (i_addrs ip) off (Z.to_nat (n - tot))) k') ->
  wp (readi_loop fuel i d off n tot) Q k.
Proof.
  revert k off d l Q. induction fuel as [|fuel IH];
    intros k off d l Q tot HT Hip Hdev HV Hfile Hs Ho Htn Hmax Hn Hhas Hf0 Hf HI HQ; [lia|].
  assert (HM : MAXFILE * BSIZE = 274432) by done.
  cbn [readi_loop]. destruct (Z.ltb_spec tot n) as [Hlt|Hge].
  - cbn [negb]. destruct (rw_step off n tot fuel) as (Hm & Hmb & Hf' & Eo & Et & Hfn); [lia|unfold tot; lia|lia|lia|lia|].
    set (m := Z.min _ _) in *. rewrite Eo, Et.
    assert (Hbn : 0 <= off / BSIZE < MAXFILE) by (apply file_block; lia).
    wp_steps. eapply wp_bmap_hit; [exact HT|exact Hip|done|done|done|by apply Hhas; lia|done|].
    intros k1 T1 F1. wp_steps. eapply wp_get_inode; [by rewrite (ff_itable _ _ _ F1)|]. rewrite Hdev. wp_steps.
    set (x := faddr _ _ _) in *.
    eapply tx_bread; [exact T1|apply lookup_empty|by rewrite map_size_empty; lia|]. intros k2 b T2 F2. wp_steps.
    eapply (tx_bdata _ _ _ _ _ _ x (b, false)); [exact T2|apply lookup_insert_eq|]. wp_steps.
    unfold x. rewrite fbytes_block by (done || lia). fold x. set (bs := fbytes _ _ off (Z.to_nat m)) in *.
    assert (Hlb : Z.of_nat (length bs) = m) by (unfold bs; rewrite length_fbytes; lia).
    destruct (tx_core _ _ _ _ _ _ T2) as [C2 P2].
    eapply wp_mono; [apply (HIc d l bs k2); [eauto|done|done|rewrite length_app; lia]|].
    intros r k3 (-> & I3 & CF3). cbn [Z.eqb]. pose proof (tx_copy _ _ _ _ _ _ _ T2 CF3) as T3. wp_steps.
    eapply (tx_brelse _ _ _ _ _ _ x); [exact T3|apply lookup_insert_eq|].
    intros k4 T4 F4. rewrite delete_insert_id in T4 by apply lookup_empty. wp_steps.
    assert (FX : xfer_frame me (fun _ => False) k k4).
    { eapply xfer_frame_trans; [apply fs_xfer_frame; by eapply fs_frame_trans|].
      eapply xfer_frame_trans; [by apply copy_xfer_frame|by apply fs_xfer_frame]. }
    assert (Etot : tot + m = Z.of_nat (length (l ++ bs))) by (rewrite length_app; lia).
    assert (Esp : fbytes V (i_addrs ip) off (Z.to_nat (n - tot)) = bs ++ fbytes V (i_addrs ip) (off + m) (Z.to_nat (n - (tot + m)))).
    { replace (Z.to_nat (n - tot)) with (Z.to_nat m + Z.to_nat (n - (tot + m)))%nat by lia.
      rewrite fbytes_app, Z2Nat.id by lia. done. }
    rewrite Etot in Esp, Hfn |- *. rewrite Hlb in I3.
    apply IH; try done; try lia.
    + rewrite (nf_itable _ _ _ _ FX) by (intros []). done.
    + by rewrite (nf_sb _ _ _ _ FX).
    + intros y Hy. apply Hhas. lia.
    + by apply HIf with k3.
    + intros k5 d5 T5 F5 I5. wp_steps. cbn [fst snd]. rewrite <- Esp. apply (HQ _ d5).
      * exact T5.
      * by eapply xfer_frame_trans.
      * rewrite Esp, app_assoc. exact I5.
  - cbn [negb]. assert (Etn : tot = n) by lia. wp_steps. rewrite Etn, i32_small by lia.
    rewrite Etn, Z.sub_diag in HQ. apply (HQ k d); [done| |].
    + apply inode_xfer_frame, inode_frame_refl.
    + simpl. by rewrite app_nil_r.
Qed.

(** The number of bytes [readi] returns. *)
Definition read_len (size off n : Z) : Z :=
  if (size <? off) || (u32 (off + n) <? off) then 0 else Z.min n (size - off).

Lemma wp_readi k V W i ip off n d Q :
  let m := read_len (i_size ip) off n in
  T k me pr V W ∅ -> k_itable k !! i = Some ip -> i_dev ip = ROOTDEV ->
  blocks_ok V -> file_ok (k_sb k) V (i_addrs ip) -> (size W < NBUF)%nat ->
  0 <= off < 2 ^ 32 -> 0 <= n < 2 ^ 32 -> 0 <= i_size ip <= MAXFILE * BSIZE -> m <= total ->
  has_bytes V (i_addrs ip) 0 (i_size ip) -> I d [] k ->
  (forall k' d', T k' me pr V W ∅ -> xfer_frame me (fun _ => False) k k' ->
     I d' (fbytes V (i_addrs ip) off (Z.to_nat m)) k' -> Q (m, fbytes V (i_addrs ip) off (Z.to_nat m)) k') ->
  wp (readi i d off n) Q k.
Proof.
  intros m HT Hip Hdev HV Hfile Hs Ho Hn Hsz Hm Hhas HI HQ. unfold readi. wp_steps.
  assert (HM : MAXFILE * BSIZE = 274432) by done.
  eapply wp_get_inode; [exact Hip|]. unfold m, read_len in *.
  destruct (Z.ltb_spec (i_size ip) off) as [H1|H1]; [cbn [orb] in *; wp_steps|].
  { apply (HQ k d); [done|apply inode_xfer_frame, inode_frame_refl|done]. }
  destruct (Z.ltb_spec (u32 (off + n)) off) as [H2|H2]; [cbn [orb] in *; wp_steps|].
  { apply (HQ k d); [done|apply inode_xfer_frame, inode_frame_refl|done]. }
  cbn [orb] in *.
  assert (E : u32 (off + n) = off + n).
  { unfold u32 in *. destruct (decide (off + n < 2 ^ 32)); [by rewrite Z.mod_small by lia|].
    rewrite <- (Z.mod_unique_pos (off + n) (2 ^ 32) 1 (off + n - 2 ^ 32)) in H2 by lia. lia. }
  rewrite E. set (n' := if i_size ip <? off + n then _ else _).
  assert (En : n' = Z.min n (i_size ip - off)) by (unfold n'; destruct (Z.ltb_spec (i_size ip) (off + n)); lia).
  rewrite En. set (x := Z.min _ _) in *. clear n' En. destruct (rw_fuel_enough off x ltac:(lia)) as [F1 F2].
  change 0 with (Z.of_nat (length (@nil Z))).
  eapply wp_readi_loop; try done; rewrite ?Z.sub_0_r; cbn [length]; try lia.
  - intros y Hy. apply Hhas. cbn [length] in *. lia.
  - intros k' d' T' F' I'. by apply (HQ _ d').
Qed.
End readi.

(** Into a variable of the caller. *)
Lemma wp_readi_local k me pr V W i ip off n Q :
  let m := read_len (i_size ip) off n in
  T k me pr V W ∅ -> k_itable k !! i = Some ip -> i_dev ip = ROOTDEV ->
  blocks_ok V -> file_ok (k_sb k) V (i_addrs ip) -> (size W < NBUF)%nat ->
  0 <= off < 2 ^ 32 -> 0 <= n < 2 ^ 32 -> 0 <= i_size ip <= MAXFILE * BSIZE ->
  has_bytes V (i_addrs ip) 0 (i_size ip) ->
  (forall k', T k' me pr V W ∅ -> inode_frame me (fun _ => False) k k' ->
     Q (m, fbytes V (i_addrs ip) off (Z.to_nat m)) k') ->
  wp (readi i ToLocal off n) Q k.
Proof.
  intros m HT Hip Hdev HV Hfile Hs Ho Hn Hsz Hhas HQ.
  eapply (wp_readi me pr m (fun d l k' => d = ToLocal /\ k_phys k' = k_phys k)); try done.
  - intros d l k1 k2 [-> E] F. split; [done|]. by rewrite (ff_phys _ _ _ F).
  - intros d l b k1 [-> E] Hc Hp _. unfold either_copyout. wp_steps.
    eapply (wp_curproc _ me [] 0); [exact Hc|simpl; lia|]. intros c' Hc' Hs'. wp_steps. split; [done|].
    split; [done|]. exists c', (fun ph => ph). split; [by destruct k1|done].
  - intros k' d' T' F' [_ E]. apply HQ; [done|]. unfold xfer_frame in F'. rewrite E in F'.
    destruct F'. by constructor.
Qed.

(** Into user memory: the memory in which the bytes [l] have been stored at [va]. *)
Definition stored_at (k0 : kernel) (t : ptree) (fl : list Z) (va : Z) (l : list Z) (k : kernel) : Prop :=
  let m0 := ph_mem (k_phys k0) in
  k_img k = k_img k0 /\
  exists m', k_phys k = set_ph_mem (fun _ => m') (k_phys k0) /\
    same_space (k_img k0) (k_phys k0) m' t fl /\
    forall x, m' x = ustore (uaddr m0 t) m0 va l x.

Definition user_stored (k0 : kernel) (t : ptree) (fl : list Z) (va : Z) (d : dest) (l : list Z) (k : kernel) : Prop :=
  d = ToUser (u64 (va + Z.of_nat (length l))) /\ stored_at k0 t fl va l k.

Lemma stored_at_nil k t fl va :
  vm_ok (k_img k) (k_phys k) t fl -> frames_ok (k_img k) (ph_mem (k_phys k)) t fl -> stored_at k t fl va [] k.
Proof.
  intros Hv Hf. split; [done|]. exists (ph_mem (k_phys k)). split; [by destruct (k_phys k)|]. split; [|done].
  constructor; try done. by destruct (k_phys k).
Qed.

Lemma uload_part tr m va n1 n2 n :
  is_Some (uload tr m va n) -> (n1 + n2 <= n)%nat ->
  is_Some (uload tr m va n1) /\ is_Some (uload tr m (va + Z.of_nat n1) n2).
Proof.
  intros [b Hb] Hn. replace n with (n1 + (n2 + (n - n1 - n2)))%nat in Hb by lia.
  rewrite !uload_app in Hb. destruct (uload tr m va n1); [|done].
  destruct (uload tr m (va + Z.of_nat n1) n2); [|done]. split; by eexists.
Qed.

Lemma uaddr_max m t va : is_Some (uaddr m t va) -> va < MAXVA.
Proof. intros [a Ha]. unfold uaddr in Ha. destruct (Z.ltb_spec va MAXVA); done. Qed.

(** The next bytes are stored after those. *)
Lemma wp_copyout_next k0 k pt t fl va l b n Q :
  vm_ok (k_img k0) (k_phys k0) t fl -> frames_ok (k_img k0) (ph_mem (k_phys k0)) t fl ->
  t !! [] = Some pt -> 0 <= va < 2 ^ 64 -> is_Some (ubytes (ph_mem (k_phys k0)) t va n) -> (length (l ++ b) <= n)%nat ->
  stored_at k0 t fl va l k ->
  (forall m2, let k' := set_k_phys (set_ph_mem (fun _ => m2)) k in stored_at k0 t fl va (l ++ b) k' -> Q 0 k') ->
  wp (copyout pt (u64 (va + Z.of_nat (length l))) b) Q k.
Proof.
  intros Hv Hf Hpt Hva Hm Hn (Ei & m' & Ep & [S1 S2 S3] & Hm') HQ. rewrite length_app in Hn.
  set (m0 := ph_mem (k_phys k0)) in *. set (va' := u64 (va + Z.of_nat (length l))).
  destruct (uload_part _ _ _ (length l) (length b) _ Hm ltac:(lia)) as [Hl1 Hl2].
  assert (Eva : b = [] \/ va' = va + Z.of_nat (length l)).
  { destruct b as [|y b]; [by left|right]. apply u64_small. split; [lia|].
    simpl in Hl2. destruct (uaddr m0 t (va + Z.of_nat (length l))) as [a|] eqn:Ea; [|by destruct Hl2].
    assert (va + Z.of_nat (length l) < MAXVA) by (apply (uaddr_max m0 t); by rewrite Ea).
    change MAXVA with (2 ^ 38) in *. lia. }
  assert (Etr : forall v, uaddr m' t v = uaddr m0 t v) by (intros v; by apply uaddr_leaf).
  destruct (copy_fuel_enough va' (Z.of_nat (length b)) ltac:(lia)) as [F1 F2].
  eapply (wp_copyout_loop _ _ t fl); rewrite ?Ep, ?Ei; try done.
  { apply u64_range. }
  cbn [ph_mem set_ph_mem]. intros r m2 [V2 Fr2 L2] M2 ->.
  assert (Hok : is_Some (ubytes m' t va' (length b))).
  { unfold ubytes. rewrite (uload_tr _ _ _ _ _ Etr). destruct Eva as [-> | ->]; [by eexists|].
    by eapply uload_mapped. }
  rewrite decide_True by done. apply (HQ m2). split; [done|]. exists m2.
  split; [exact (f_equal (set_ph_mem (fun _ => m2)) Ep)|]. split.
  - constructor; [exact V2|exact Fr2|]. intros v. by rewrite L2.
  - intros x. rewrite M2, (ustore_tr _ _ _ _ _ Etr), ustore_app by done.
    destruct Eva as [-> | ->]; [simpl; apply Hm'|]. by apply ustore_ext.
Qed.

Lemma wp_copyout_user k0 k me pr t fl va d l b n :
  vm_ok (k_img k0) (k_phys k0) t fl -> frames_ok (k_img k0) (ph_mem (k_phys k0)) t fl ->
  t !! [] = Some (p_pagetable pr) -> 0 <= va < 2 ^ 64 ->
  is_Some (ubytes (ph_mem (k_phys k0)) t va n) -> (length (l ++ b) <= n)%nat ->
  user_stored k0 t fl va d l k -> core_ok (k_core k) me [] -> c_procs (k_core k) !! me = Some pr ->
  wp (either_copyout d b) (fun r k' => r = 0 /\
    user_stored k0 t fl va (dest_add d (Z.of_nat (length b))) (l ++ b) k' /\ copy_frame me k k') k.
Proof.
  intros Hv Hf Hpt Hva Hm Hn (-> & Hst) Hc Hp.
  unfold either_copyout. wp_steps. eapply (wp_curproc _ me [] 0); [exact Hc|simpl; lia|].
  intros c' Hc' Hs'. wp_steps. eapply wp_get_proc; [simpl; rewrite (sb_procs _ _ Hs'); exact Hp|].
  eapply (wp_copyout_next k0 (with_core k c') _ t fl); try done. intros m2 k' St'. split; [done|]. split.
  - split; [|exact St']. simpl. f_equal. rewrite length_app. unfold u64. rewrite Zplus_mod_idemp_l. f_equal. lia.
  - exists c', (set_ph_mem (fun _ => m2)). done.
Qed.

Lemma wp_readi_user k me pr V W i ip t fl va off n Q :
  let m := read_len (i_size ip) off n in
  let m0 := ph_mem (k_phys k) in
  T k me pr V W ∅ -> k_itable k !! i = Some ip -> i_dev ip = ROOTDEV ->
  blocks_ok V -> file_ok (k_sb k) V (i_addrs ip) -> (size W < NBUF)%nat ->
  0 <= off < 2 ^ 32 -> 0 <= n < 2 ^ 32 -> 0 <= i_size ip <= MAXFILE * BSIZE ->
  has_bytes V (i_addrs ip) 0 (i_size ip) ->
  vm_ok (k_img k) (k_phys k) t fl -> frames_ok (k_img k) m0 t fl ->
  t !! [] = Some (p_pagetable pr) -> 0 <= va < 2 ^ 64 -> is_Some (ubytes m0 t va (Z.to_nat m)) ->
  (forall k' m', T k' me pr V W ∅ -> inode_frame me (fun _ => False) (with_mem k m') k' ->
     same_space (k_img k) (k_phys k) m' t fl ->
     (forall x, m' x = ustore (uaddr m0 t) m0 va (fbytes V (i_addrs ip) off (Z.to_nat m)) x) ->
     Q (m, fbytes V (i_addrs ip) off (Z.to_nat m)) k') ->
  wp (readi i (ToUser va) off n) Q k.
Proof.
  intros m m0 HT Hip Hdev HV Hfile Hs Ho Hn Hsz Hhas Hv Hf Hpt Hva Hm HQ.
  eapply (wp_readi me pr (Z.max 0 m) (user_stored k t fl va)); try done; try lia.
  - intros d l k1 k2 (-> & E1 & m1 & E2 & E3) F. split; [done|]. split.
    + by rewrite (ff_img _ _ _ F).
    + exists m1. by rewrite (ff_phys _ _ _ F).
  - intros d l b k1 Hu Hc Hp Hlen. eapply wp_copyout_user; try done. lia.
  - split; [|by apply stored_at_nil]. simpl. by rewrite Z.add_0_r, u64_small.
  - intros k' d' T' F' (_ & Ei & m' & E & Hss & Hm'). apply (HQ _ m'); try done.
    unfold xfer_frame in F'. rewrite E in F'. destruct F'. by constructor.
Qed.
End transfer.
