(* ===== verification/FsWrite.v ===== *)
(** * Writing files: the theorems on [writei] of kernel/fs.c

    A write changes the bytes of its range, allocates the blocks that were missing
    and leaves every other byte of the file and every other block in use alone. *)

From S2P Require Import Prelude State Spin Sleep Bio Log Txn Strings Kalloc Vm FsBlock FsInode FsFile.

(** ** Specification *)

(** The file [addrs] of the view [V] has become [addrs'] of [V'] by writing [bs] at
    [off]. *)
Record written (sb : superblock) (V V' : Z -> list Z) (addrs addrs' : list Z) (off : Z) (bs fl' : list Z) :
    Prop := mkWritten {
  wr_fs : fs_ok sb V';
  wr_file : file_ok sb V' addrs';
  wr_in : forall x, off <= x < off + Z.of_nat (length bs) ->
    faddr V' addrs' (x / BSIZE) <> 0 /\ fbyte V' addrs' x = bs !!! Z.to_nat (x - off);
  wr_out : forall x, 0 <= x < MAXFILE * BSIZE -> ~ off <= x < off + Z.of_nat (length bs) ->
    faddr V addrs (x / BSIZE) <> 0 -> fbyte V' addrs' x = fbyte V addrs x;
  wr_same : forall bn, 0 <= bn < MAXFILE -> faddr V addrs bn <> 0 -> faddr V' addrs' bn = faddr V addrs bn;
  wr_fresh : forall bn, 0 <= bn < MAXFILE -> faddr V addrs bn = 0 -> faddr V' addrs' bn <> 0 ->
    used sb V (faddr V' addrs' bn) = false;
  wr_ind : ind_addr addrs' = ind_addr addrs \/
    ind_addr addrs = 0 /\ 0 <= ind_addr addrs' < sb_size sb /\ used sb V (ind_addr addrs') = false;
  wr_keep : forall b, not_map sb b -> (0 <= b < sb_size sb -> used sb V b = true) -> b <> ind_addr addrs ->
    (forall bn, 0 <= bn < MAXFILE -> faddr V addrs bn <> 0 -> b <> faddr V addrs bn) -> V' b = V b;
  wr_used : forall b, 0 <= b < sb_size sb -> used sb V b = true -> used sb V' b = true;
  wr_allocs : allocs (sb_size sb) (used sb V') fl'
}.

(** ** Lemmas: blocks written *)

Lemma allocs_unused size u fl r : allocs size u fl -> r ∈ fl -> 0 <= r < size /\ u r = false.
Proof.
  revert u. induction fl as [|y fl IH]; intros u; simpl; [set_solver|].
  intros [(Hy & Hf & _) Ha] [->|Hr]%elem_of_cons; [done|].
  destruct (IH _ Ha Hr) as [H1 H2]. split; [done|]. by destruct (decide (r = y)).
Qed.

(** Writing a block of a file, the indirect one apart. *)
Lemma vset_file_ok sb V x dt addrs :
  fs_ok sb V -> file_ok sb V addrs -> in_use sb V x -> x <> ind_addr addrs -> file_ok sb (vset x dt V) addrs.
Proof.
  intros Hok [Hl Hi Hd Hj Ha] [Hx Hu] Hne. pose proof (fk_layout _ _ Hok) as HL.
  assert (Ef : forall bn, faddr (vset x dt V) addrs bn = faddr V addrs bn).
  { intros bn. apply faddr_view. intros _. apply vset_ne. congruence. }
  assert (Hin : forall b, in_use sb V b -> in_use sb (vset x dt V) b).
  { intros b [H1 H2]. split; [done|]. pose proof (data_range _ _ HL H1).
    rewrite used_vset; [done|by apply data_not_map|lia]. }
  constructor; try done.
  - auto.
  - intros bn Hbn. rewrite Ef. auto.
  - intros bn bn' H1 H2. rewrite !Ef. auto.
  - intros bn Hbn. rewrite Ef. auto.
Qed.

(** A byte of a block some bytes of which have been replaced. *)
Lemma total_splice_in o (bs l : list Z) i :
  (o + length bs <= length l)%nat -> (o <= i < o + length bs)%nat -> splice o bs l !!! i = bs !!! (i - o)%nat.
Proof. intros H1 H2. by rewrite !list_lookup_total_alt, lookup_splice_in. Qed.

Lemma total_splice_out o (bs l : list Z) i :
  (o + length bs <= length l)%nat -> ~ (o <= i < o + length bs)%nat -> splice o bs l !!! i = l !!! i.
Proof. intros H1 H2. rewrite !list_lookup_total_alt, lookup_splice_out by lia. done. Qed.

Section step.
Context (sb : superblock) (V V1 : Z -> list Z) (addrs addrs1 : list Z) (off : Z) (bs tk fl : list Z).
Hypothesis Hok : fs_ok sb V.
Hypothesis Hfile : file_ok sb V addrs.
Hypothesis Htk : forall r, r ∈ tk -> 0 <= r < sb_size sb /\ used sb V r = false.
Hypothesis Hbm : bmapped sb V V1 addrs addrs1 (off / BSIZE) tk fl.
Hypothesis Hoff : 0 <= off < MAXFILE * BSIZE.
Hypothesis Hbs : Forall byte bs.
Hypothesis Hlen : off mod BSIZE + Z.of_nat (length bs) <= BSIZE.

Let x := faddr V1 addrs1 (off / BSIZE).
Let dt := splice (Z.to_nat (off mod BSIZE)) bs (V1 x).
Let V2 := vset x dt V1.

Lemma step_in_use : in_use sb V1 x /\ x <> ind_addr addrs1.
Proof.
  pose proof (file_block _ Hoff) as Hbn. destruct Hbm as [B1 B2 B3 _ _ _ _ _ _ _ _].
  split; [by apply (fo_data _ _ _ B2)|by apply (fo_apart _ _ _ B2)].
Qed.

Lemma step_len : (Z.to_nat (off mod BSIZE) + length bs <= length (V1 x))%nat.
Proof.
  destruct (fk_blocks _ _ (bm_fs _ _ _ _ _ _ _ _ Hbm) x) as [-> _].
  pose proof (Z.mod_pos_bound off BSIZE eq_refl). unfold BSIZE in *. lia.
Qed.

Lemma step_faddr bn : faddr V2 addrs1 bn = faddr V1 addrs1 bn.
Proof. destruct step_in_use as [_ H]. apply faddr_view. intros _. apply vset_ne. congruence. Qed.

Lemma step_used b : 0 <= b < sb_size sb -> used sb V2 b = used sb V1 b.
Proof.
  intros Hb. destruct step_in_use as [[H _] _]. apply used_vset; [|done].
  apply data_not_map; [apply Hok|done].
Qed.

Lemma step_byte_in y :
  off <= y < off + Z.of_nat (length bs) -> y / BSIZE = off / BSIZE /\ fbyte V2 addrs1 y = bs !!! Z.to_nat (y - off).
Proof.
  intros Hy. pose proof (Z.mod_pos_bound off BSIZE eq_refl).
  destruct (block_in off (y - off)) as [E1 E2]; [lia|lia|].
  replace (off + (y - off)) with y in * by lia. split; [done|].
  unfold fbyte. rewrite E1, E2, step_faddr. fold x. unfold V2. rewrite vset_eq. unfold dt.
  rewrite total_splice_in; [f_equal; lia|apply step_len|lia].
Qed.

Lemma step_byte_out y :
  0 <= y < MAXFILE * BSIZE -> ~ off <= y < off + Z.of_nat (length bs) -> faddr V addrs (y / BSIZE) <> 0 ->
  fbyte V2 addrs1 y = fbyte V addrs y.
Proof.
  intros Hy Ho Hne. pose proof (file_block _ Hy) as Hbn. pose proof (file_block _ Hoff) as Hbo.
  pose proof Hbm as [B1 B2 B3 B4 B5 B6 B7 B8 B9 B10 B11]. pose proof (fk_layout _ _ Hok) as HL.
  assert (Ea : faddr V1 addrs1 (y / BSIZE) = faddr V addrs (y / BSIZE)).
  { destruct (decide (y / BSIZE = off / BSIZE)) as [E|E]; [rewrite E in *; auto|auto]. }
  assert (Ek : V1 (faddr V addrs (y / BSIZE)) = V (faddr V addrs (y / BSIZE))).
  { destruct (fo_data _ _ _ Hfile _ Hbn Hne) as [H1 H2]. apply B7; [by apply data_not_map|done|by apply Hfile]. }
  unfold fbyte. rewrite step_faddr, Ea. unfold V2.
  destruct (decide (y / BSIZE = off / BSIZE)) as [E|E].
  - assert (Ex : faddr V addrs (y / BSIZE) = x) by (rewrite <- Ea, E; done).
    rewrite Ex in *. rewrite vset_eq. unfold dt. rewrite total_splice_out; [by rewrite Ek|apply step_len|].
    pose proof (Z.mod_pos_bound off BSIZE eq_refl). pose proof (Z.mod_pos_bound y BSIZE eq_refl).
    pose proof (Z.div_mod off BSIZE ltac:(done)). pose proof (Z.div_mod y BSIZE ltac:(done)). rewrite E in *. lia.
  - rewrite vset_ne; [by rewrite Ek|]. rewrite <- Ea. intros Ex. apply E. symmetry.
    by apply (fo_inj _ _ _ B2).
Qed.

(** One block of a write. *)
Lemma written_step : written sb V V2 addrs addrs1 off bs fl.
Proof.
  pose proof Hbm as [B1 B2 B3 B4 B5 B6 B7 B8 B9 B10 B11]. destruct step_in_use as [Hx Hxi].
  pose proof (fk_layout _ _ Hok) as HL. pose proof (file_block _ Hoff) as Hbo. destruct (fk_blocks _ _ B1 x) as [Hl Hby].
  constructor.
  - apply vset_fs_ok; [done|by apply data_not_map; [|apply Hx]| |by apply Forall_splice].
    unfold dt. rewrite length_splice; [done|apply step_len].
  - by apply vset_file_ok.
  - intros y Hy. destruct (step_byte_in y Hy) as [E1 E2]. split; [|done]. by rewrite step_faddr, E1.
  - apply step_byte_out.
  - intros bn Hbn Hne. rewrite step_faddr. destruct (decide (bn = off / BSIZE)) as [->|]; auto.
  - intros bn Hbn H0 Hne. rewrite step_faddr in *. destruct (decide (bn = off / BSIZE)) as [->|].
    + by apply Htk, B9.
    + rewrite B4 in Hne by done. done.
  - destruct B10 as [B10|[B10 B10']]; [by left|right]. split; [done|]. by apply Htk.
  - intros b Hm Hu Hi Hbs'. unfold V2. destruct (decide (b = x)) as [->|Hne].
    + exfalso. destruct (decide (faddr V addrs (off / BSIZE) = 0)) as [E|E].
      * destruct (Htk x) as [H1 H2]; [by apply B9|]. rewrite Hu in H2; done.
      * apply (Hbs' _ Hbo E). by apply B5.
    + rewrite vset_ne by done. by apply B7.
  - intros b Hb Hu. rewrite step_used by done. auto.
  - eapply allocs_ext; [|exact B11]. intros b Hb. by apply step_used.
Qed.
End step.

(** The boot block is never free. *)
Lemma zero_used sb V : fs_ok sb V -> used sb V 0 = true.
Proof.
  intros Hok. destruct (used sb V 0) eqn:E; [done|]. pose proof (fk_layout _ _ Hok) as HL.
  assert (0 < sb_size sb) by (destruct HL; lia).
  pose proof (data_range _ _ HL (fk_free _ _ Hok 0 ltac:(lia) E)). lia.
Qed.

(** Nothing written. *)
Lemma written_nil sb V addrs off fl :
  fs_ok sb V -> file_ok sb V addrs -> allocs (sb_size sb) (used sb V) fl -> written sb V V addrs addrs off [] fl.
Proof. intros. constructor; try done; [intros x Hx; simpl in Hx; lia|by left]. Qed.

(** Writing goes on where it stopped. *)
Lemma written_app sb V V1 V2 addrs addrs1 addrs2 off bs1 bs2 fl1 fl2 :
  fs_ok sb V -> file_ok sb V addrs -> 0 <= off -> off + Z.of_nat (length (bs1 ++ bs2)) <= MAXFILE * BSIZE ->
  written sb V V1 addrs addrs1 off bs1 fl1 ->
  written sb V1 V2 addrs1 addrs2 (off + Z.of_nat (length bs1)) bs2 fl2 ->
  written sb V V2 addrs addrs2 off (bs1 ++ bs2) fl2.
Proof.
  intros Hok Hf Ho Hmax [A1 A2 A3 A4 A5 A6 A7 A8 A9 A10] [B1 B2 B3 B4 B5 B6 B7 B8 B9 B10].
  rewrite length_app, Nat2Z.inj_add in Hmax.
  assert (Hun : forall b, used sb V1 b = false -> 0 <= b < sb_size sb -> used sb V b = false).
  { intros b H1 H2. destruct (used sb V b) eqn:E; [|done]. rewrite A9 in H1 by done. done. }
  pose proof (fk_layout _ _ Hok) as HL.
  assert (Hrg : forall bn, 0 <= bn < MAXFILE -> faddr V2 addrs2 bn <> 0 -> 0 <= faddr V2 addrs2 bn < sb_size sb).
  { intros bn H1 H2. destruct (fo_data _ _ _ B2 bn H1 H2) as [H3 _]. pose proof (data_range _ _ HL H3). lia. }
  constructor; try done; rewrite ?length_app, ?Nat2Z.inj_add.
  - intros x Hx. destruct (decide (x < off + Z.of_nat (length bs1))) as [H1|H1].
    + destruct (A3 x ltac:(lia)) as [E1 E2]. assert (Hbn : 0 <= x / BSIZE < MAXFILE) by (apply file_block; lia).
      split; [by rewrite B5|]. rewrite B4, E2 by (done || lia). rewrite lookup_total_app_l by lia. done.
    + destruct (B3 x ltac:(lia)) as [E1 E2]. split; [done|]. rewrite E2, lookup_total_app_r by lia. f_equal. lia.
  - intros x Hx Hn Hne. assert (Hbn : 0 <= x / BSIZE < MAXFILE) by (by apply file_block).
    rewrite B4; [apply A4; try done; lia|done|lia|by rewrite A5].
  - intros bn Hbn Hne. rewrite B5, A5; try done. by rewrite A5.
  - intros bn Hbn H0 Hne. destruct (decide (faddr V1 addrs1 bn = 0)) as [E|E].
    + apply Hun; [by apply B6|by apply Hrg].
    + rewrite B5 by done. by apply A6.
  - destruct B7 as [E|(E1 & E2 & E3)]; [by rewrite E|]. rewrite E1 in A7.
    destruct A7 as [E|(E4 & E5 & E6)]; [|by rewrite (zero_used _ _ Hok) in E6].
    right. split_ands; try lia. by apply Hun.
  - intros b Hm Hu Hi Hbs. rewrite B8; [by apply A8|done| | |].
    + intros Hb. auto.
    + destruct A7 as [-> |(_ & E1 & E2)]; [done|]. intros ->. rewrite Hu in E2; done.
    + intros bn Hbn Hne Eb. destruct (decide (faddr V addrs bn = 0)) as [E|E].
      * pose proof (A6 bn Hbn E Hne) as H6. rewrite <- Eb in H6. destruct (fo_data _ _ _ A2 bn Hbn Hne) as [H3 _].
        pose proof (data_range _ _ HL H3). rewrite Hu in H6 by lia. done.
      * apply (Hbs bn Hbn E). by rewrite Eb, A5.
  - auto.
Qed.

(** ** Lemmas: [writei] *)

(** The number of blocks that [n] bytes from [off] touch. *)
Definition blocks_of (off n : Z) : nat :=
  if decide (n = 0) then 0 else Z.to_nat ((off + n - 1) / BSIZE - off / BSIZE + 1).

(** Blocks that a write may have to allocate: those, and the indirect one. *)
Definition budget (addrs : list Z) (off n : Z) : nat :=
  (blocks_of off n + if decide (ind_addr addrs = 0%Z) then 1 else 0)%nat.

(** The blocks of the file a write changes are among those the operation may write. *)
Record may_write (V : Z -> list Z) (W : gset Z) (addrs : list Z) (off n : Z) : Prop := mkMayWrite {
  mw_ind : ind_addr addrs <> 0 -> ind_addr addrs ∈ W;
  mw_data : forall y, off <= y < off + n -> faddr V addrs (y / BSIZE) <> 0 -> faddr V addrs (y / BSIZE) ∈ W
}.

Lemma can_alloc_drop sb W fl n d m :
  can_alloc sb W fl n -> (d + m <= n)%nat -> can_alloc sb W fl d /\ can_alloc sb W (drop d fl) m.
Proof.
  intros [Hl Hin] Hd. split; split; try (rewrite ?length_drop; lia).
  - intros r Hr. apply Hin. rewrite <- (take_take fl d n) in Hr || idtac.
    rewrite elem_of_take in *. destruct Hr as (i & H1 & H2). exists i. split; [done|lia].
  - intros r Hr. apply Hin. rewrite elem_of_take in *. destruct Hr as (i & H1 & H2).
    rewrite lookup_drop in H1. exists (d + i)%nat. split; [done|lia].
Qed.

(** The first block uses up its part of the budget. *)
Lemma blocks_of_step off n m :
  0 <= off -> 0 < m <= n -> off mod BSIZE + m <= BSIZE -> (m = n \/ off mod BSIZE + m = BSIZE) ->
  blocks_of off n = S (blocks_of (off + m) (n - m)).
Proof.
  intros Ho Hm Hb Hc. assert (HB : BSIZE = 1024) by done. unfold blocks_of. rewrite decide_False by lia.
  pose proof (Z.mod_pos_bound off BSIZE ltac:(lia)). pose proof (Z.div_mod off BSIZE ltac:(lia)) as Hd.
  destruct Hc as [->|Hc].
  - rewrite Z.sub_diag, decide_True by done. destruct (block_in off (n - 1)) as [E _]; [lia|lia|].
    replace (off + n - 1) with (off + (n - 1)) by lia. lia.
  - assert (E : (off + m) / BSIZE = off / BSIZE + 1).
    { symmetry. apply (Z.div_unique_pos _ _ _ 0); lia. }
    rewrite E. destruct (decide (n - m = 0)) as [E0|E0].
    + destruct (block_in off (n - 1)) as [E1 _]; [lia|lia|]. replace (off + n - 1) with (off + (n - 1)) by lia. lia.
    + replace (off + m + (n - m) - 1) with (off + n - 1) by lia.
      assert (off / BSIZE + 1 <= (off + n - 1) / BSIZE).
      { apply Z.div_le_lower_bound; lia. } lia.
Qed.

Lemma missing_budget V addrs addrs' bn (tk : list Z) :
  (ind_addr addrs' = ind_addr addrs \/ ind_addr addrs = 0 /\ ind_addr addrs' ∈ tk) ->
  (ind_addr addrs = 0 -> NDIRECT <= bn -> ind_addr addrs' <> 0) ->
  (missing V addrs bn + (if decide (ind_addr addrs' = 0%Z) then 1 else 0) <=
   1 + if decide (ind_addr addrs = 0%Z) then 1 else 0)%nat.
Proof.
  intros H1 H2. unfold missing.
  destruct (decide (faddr V addrs bn = 0)), (decide (bn < NDIRECT)), (decide (ind_addr addrs = 0)),
    (decide (ind_addr addrs' = 0)); try lia; try (destruct H1 as [H1|[H1 _]]; congruence).
Qed.

Section writei.
Context {T : kernel -> nat -> proc -> (Z -> list Z) -> gset Z -> held_map -> Prop} `{!TxnLaws T}.

(** [S s bs k]: the source [s] has the bytes [bs] to give. *)
Context (me : nat) (pr : proc) (S_ : source -> list Z -> kernel -> Prop).
Hypothesis HSf : forall s bs k k', S_ s bs k -> k_phys k' = k_phys k -> k_img k' = k_img k -> S_ s bs k'.
Hypothesis HSc : forall s bs k m, S_ s bs k -> core_ok (k_core k) me [] -> c_procs (k_core k) !! me = Some pr ->
  0 <= m <= Z.of_nat (length bs) ->
  wp (either_copyin s m) (fun r k' => r = (0, take (Z.to_nat m) bs) /\
    S_ (source_add s m) (drop (Z.to_nat m) bs) k' /\
    exists c', k' = with_core k c' /\ core_ok c' me [] /\ same_but_locks (k_core k) c') k.

(** One round: a block is found, made if need be, and the bytes go into it. *)
Lemma wp_write_block {B} k V W i ip off bs m src fl (cont : K B) (fail : K B) Q :
  let need := missing V (i_addrs ip) (off / BSIZE) in
  T k me pr V W ∅ -> k_itable k !! i = Some ip -> i_dev ip = ROOTDEV ->
  fs_ok (k_sb k) V -> file_ok (k_sb k) V (i_addrs ip) ->
  allocs (sb_size (k_sb k)) (used (k_sb k) V) fl -> can_alloc (k_sb k) W fl need ->
  (ind_addr (i_addrs ip) <> 0 -> ind_addr (i_addrs ip) ∈ W) ->
  (faddr V (i_addrs ip) (off / BSIZE) <> 0 -> faddr V (i_addrs ip) (off / BSIZE) ∈ W) ->
  (size W + 1 < NBUF)%nat -> 0 <= off < MAXFILE * BSIZE -> Forall byte bs ->
  0 <= m <= Z.of_nat (length bs) -> off mod BSIZE + m <= BSIZE -> S_ src bs k ->
  (forall k' V' addrs', T k' me pr V' W ∅ -> inode_frame me (fun j => j = i) k k' ->
     c_sleep (k_core k') (SInode i) = c_sleep (k_core k) (SInode i) ->
     k_itable k' !! i = Some (set_i_addrs (fun _ => addrs') ip) ->
     (NDIRECT <= off / BSIZE -> ind_addr addrs' <> 0) ->
     (ind_addr addrs' = ind_addr (i_addrs ip) \/ ind_addr (i_addrs ip) = 0 /\ ind_addr addrs' ∈ take need fl) ->
     (forall bn, 0 <= bn < MAXFILE -> faddr V' addrs' bn = faddr V (i_addrs ip) bn \/ bn = off / BSIZE) ->
     written (k_sb k) V V' (i_addrs ip) addrs' off (take (Z.to_nat m) bs) (drop need fl) ->
     S_ (source_add src m) (drop (Z.to_nat m) bs) k' -> wp cont Q k') ->
  wp (let* bn := bmap i (off / BSIZE) in
      let* ip := get_inode i in
      let* bp := bread (i_dev ip) bn in
      let* r := either_copyin src m in
      let* d := bdata bp in
      set_bdata bp (splice (Z.to_nat (off mod BSIZE)) r.2 d) ;*
      if r.1 =? -1 then brelse bp ;* fail else log_write bp ;* brelse bp ;* cont) Q k.
Proof.
  intros need HT Hip Hdev Hok Hfile Hal Hca HWi HWd Hs Ho Hbs Hm Hb HS HQ.
  pose proof (file_block _ Ho) as Hbn. wp_steps. eapply wp_bmap; try done; [by intros _ ? _; apply HWi|].
  intros k1 V1 addrs1 T1 F1 L1 I1 HB. fold need in HB. wp_steps. eapply wp_get_inode; [exact I1|].
  cbn [i_dev set_i_addrs]. rewrite Hdev. set (x := faddr V1 addrs1 (off / BSIZE)) in *. wp_steps.
  eapply tx_bread; [exact T1|apply lookup_empty|rewrite map_size_empty; lia|]. intros k2 b T2 F2. wp_steps.
  destruct (tx_core _ _ _ _ _ _ T2) as [C2 P2].
  eapply wp_mono; [apply (HSc src bs k2 m); try done|].
  { eapply HSf; [exact HS| |].
    - by rewrite (ff_phys _ _ _ F2), (nf_phys _ _ _ _ F1).
    - by rewrite (ff_img _ _ _ F2), (nf_img _ _ _ _ F1). }
  intros r k3 (-> & S3 & c3 & -> & C3 & Sb3).
  assert (T3 : T (with_core k2 c3) me pr V1 W (<[x := (b, false)]> ∅)).
  { apply tx_locks; [done|done|by apply same_core_frame|]. intros j. by rewrite (sb_sleep _ _ Sb3). }
  wp_steps. eapply (tx_bdata _ _ _ _ _ _ x (b, false)); [exact T3|apply lookup_insert_eq|]. wp_steps.
  eapply (tx_set_bdata _ _ _ _ _ _ x (b, false)); [exact T3|apply lookup_insert_eq|].
  intros k4 T4 F4. rewrite insert_insert_eq in T4. cbn [fst snd Z.eqb Z.opp].
  assert (Hxw : x ∈ W).
  { unfold x. destruct (decide (faddr V (i_addrs ip) (off / BSIZE) = 0)) as [E|E].
    - apply Hca. by apply (bm_from _ _ _ _ _ _ _ _ HB).
    - rewrite (bm_old _ _ _ _ _ _ _ _ HB E). auto. }
  apply wp_mono with Q; [|done].
  eapply (wp_log_release_then _ _ _ _ _ _ _ x (b, true)); [exact T4|apply lookup_empty|done|]. intros k5 T5 F5.
  assert (FX : inode_frame me (fun j => j = i) k k5).
  { eapply inode_frame_trans; [exact F1|]. eapply inode_frame_trans; [by apply fs_inode_frame|].
    eapply (inode_frame_trans _ _ _ (with_core k2 c3)); [|apply fs_inode_frame; by eapply fs_frame_trans].
    constructor; try done; simpl; [by apply same_core_frame|]. intros j _. by rewrite (sb_sleep _ _ Sb3). }
  eapply (HQ k5 (vset x _ V1) addrs1).
  - exact T5.
  - exact FX.
  - rewrite (ff_inodes _ _ _ F5), (ff_inodes _ _ _ F4). simpl. rewrite (sb_sleep _ _ Sb3).
    by rewrite (ff_inodes _ _ _ F2).
  - rewrite (ff_itable _ _ _ F5), (ff_itable _ _ _ F4). simpl. by rewrite (ff_itable _ _ _ F2).
  - intros Hd E. apply (bm_addr _ _ _ _ _ _ _ _ HB). unfold faddr. rewrite decide_False by lia. by rewrite decide_True.
  - apply HB.
  - intros bn Hbn'. destruct (decide (bn = off / BSIZE)); [by right|left].
    rewrite <- (bm_same _ _ _ _ _ _ _ _ HB bn) by done. apply faddr_view. intros _. apply vset_ne.
    apply not_eq_sym, (fo_apart _ _ _ (bm_file _ _ _ _ _ _ _ _ HB)); [done|apply HB].
  - eapply written_step; try done; [|by apply Forall_take|rewrite length_take; lia].
    intros y Hy. apply (allocs_unused _ _ fl); [done|]. apply elem_of_take in Hy as (j & Hj & _).
    by eapply list_elem_of_lookup_2.
  - eapply HSf; [exact S3| |].
    + by rewrite (ff_phys _ _ _ F5), (ff_phys _ _ _ F4).
    + by rewrite (ff_img _ _ _ F5), (ff_img _ _ _ F4).
Qed.

Lemma wp_writei_loop fuel k V W i ip off n tot bs src fl Q :
  T k me pr V W ∅ -> k_itable k !! i = Some ip -> i_dev ip = ROOTDEV ->
  fs_ok (k_sb k) V -> file_ok (k_sb k) V (i_addrs ip) ->
  allocs (sb_size (k_sb k)) (used (k_sb k) V) fl ->
  can_alloc (k_sb k) W fl (budget (i_addrs ip) off (n - tot)) -> may_write V W (i_addrs ip) off (n - tot) ->
  (size W + 1 < NBUF)%nat -> 0 <= off -> 0 <= tot <= n -> off + (n - tot) <= MAXFILE * BSIZE -> n < 2 ^ 31 ->
  Z.of_nat (length bs) = n - tot -> Forall byte bs -> S_ src bs k ->
  (0 < fuel)%nat -> (tot = n \/ off mod BSIZE + (n - tot) <= Z.of_nat (fuel - 1) * BSIZE) ->
  (forall k' V' addrs' fl', T k' me pr V' W ∅ -> inode_frame me (fun j => j = i) k k' ->
     c_sleep (k_core k') (SInode i) = c_sleep (k_core k) (SInode i) ->
     k_itable k' !! i = Some (set_i_addrs (fun _ => addrs') ip) ->
     written (k_sb k) V V' (i_addrs ip) addrs' off bs fl' -> Q (off + (n - tot), n) k') ->
  wp (writei_loop fuel i src off n tot) Q k.
Proof.
  revert k V ip off tot bs src fl Q. induction fuel as [|fuel IH];
    intros k V ip off tot bs src fl Q HT Hip Hdev Hok Hfile Hal Hca [HWi HWd] Hs Ho Htn Hmax Hn Hl Hbs HS Hf0 Hf HQ;
    [lia|].
  assert (HM : MAXFILE * BSIZE = 274432) by done.
  cbn [writei_loop]. destruct (Z.ltb_spec tot n) as [Hlt|Hge]; cbn [negb].
  - destruct (rw_step off n tot fuel) as (Hm & Hmb & Hf' & Eo & Et & Hfn); [lia|lia|lia|lia|lia|].
    cbv zeta. set (m := Z.min _ _) in *. rewrite Eo, Et.
    assert (Hc : m = n - tot \/ off mod BSIZE + m = BSIZE) by (unfold m; lia).
    pose proof (blocks_of_step off (n - tot) m Ho Hm Hmb Hc) as Hbud.
    assert (Hd : (missing V (i_addrs ip) (off / BSIZE) + 0 <= budget (i_addrs ip) off (n - tot))%nat).
    { unfold budget, missing. rewrite Hbud. repeat case_decide; lia. }
    destruct (can_alloc_drop _ _ _ _ _ _ Hca Hd) as [Hca0 _].
    eapply (wp_write_block k V W i ip off bs m src fl); try done; try lia; [apply HWd; lia|].
    intros k1 V1 addrs1 T1 F1 L1 I1 Hnd Hind Hsame HW1 S1.
    assert (Hd1 : (missing V (i_addrs ip) (off / BSIZE) + budget addrs1 (off + m) (n - tot - m) <=
      budget (i_addrs ip) off (n - tot))%nat).
    { unfold budget. rewrite Hbud. pose proof (missing_budget V _ _ (off / BSIZE) _ Hind (fun _ => Hnd)). lia. }
    destruct (can_alloc_drop _ _ _ _ _ _ Hca Hd1) as [_ Hca1].
    replace (n - tot - m) with (n - (tot + m)) in Hca1 by lia. pose proof (nf_sb _ _ _ _ F1) as Esb.
    pose proof (wr_fs _ _ _ _ _ _ _ _ HW1). pose proof (wr_file _ _ _ _ _ _ _ _ HW1).
    pose proof (wr_allocs _ _ _ _ _ _ _ _ HW1).
    eapply (IH k1 V1 (set_i_addrs (fun _ => addrs1) ip) (off + m) (tot + m) (drop (Z.to_nat m) bs) (source_add src m)
      (drop (missing V (i_addrs ip) (off / BSIZE)) fl)); rewrite ?Esb; try done; try lia.
    + cbn [i_addrs set_i_addrs]. constructor.
      * intros Hne. destruct Hind as [E|[_ E]]; [rewrite E in *; auto|]. by apply Hca0.
      * intros y Hy. destruct (Hsame (y / BSIZE)) as [->|E]; [apply file_block; lia|apply HWd; lia|].
        intros _. rewrite E. destruct (decide (faddr V (i_addrs ip) (off / BSIZE) = 0)) as [E0|E0].
        -- exfalso. destruct Hc as [Hc|Hc]; [lia|].
           pose proof (Z.mod_pos_bound y BSIZE eq_refl). pose proof (Z.div_mod y BSIZE ltac:(done)).
           pose proof (Z.div_mod off BSIZE ltac:(done)). rewrite E in *. lia.
        -- rewrite (wr_same _ _ _ _ _ _ _ _ HW1) by (done || apply file_block; lia). apply HWd; [lia|done].
    + rewrite length_drop. lia.
    + by apply Forall_drop.
    + intros k2 V2 addrs2 fl2 T2 F2 L2 I2 HW2. cbn [i_addrs set_i_addrs] in HW2.
      replace (off + m + (n - (tot + m))) with (off + (n - tot)) by lia. eapply HQ.
      * exact T2.
      * by eapply inode_frame_trans.
      * by rewrite L2.
      * rewrite I2. by destruct ip.
      * rewrite <- (take_drop (Z.to_nat m) bs). eapply written_app; try done; rewrite ?take_drop; [lia|].
        rewrite length_take. replace (Z.of_nat (Z.to_nat m `min` length bs)) with m by lia. exact HW2.
  - assert (tot = n) as -> by lia. wp_steps. destruct bs; [|simpl in Hl; lia].
    replace (off, n) with (off + (n - n), n) by (f_equal; lia).
    apply (HQ k V (i_addrs ip) fl); [done|apply inode_frame_refl|done|by destruct ip|by apply written_nil].
Qed.

(** The inode after a write that ended at [e]. *)
Definition grown (ip : inode) (addrs' : list Z) (e : Z) : inode :=
  set_i_size (Z.max e) (set_i_addrs (fun _ => addrs') ip).

Lemma wp_writei k V W i ip off bs src fl Q :
  let n := Z.of_nat (length bs) in
  T k me pr V W ∅ -> k_itable k !! i = Some ip -> i_dev ip = ROOTDEV -> 0 <= i_size ip ->
  fs_ok (k_sb k) V -> file_ok (k_sb k) V (i_addrs ip) ->
  allocs (sb_size (k_sb k)) (used (k_sb k) V) fl ->
  can_alloc (k_sb k) W fl (budget (i_addrs ip) off n) -> may_write V W (i_addrs ip) off n ->
  IBLOCK (i_inum ip) (k_sb k) ∈ W ->
  (size W + 1 < NBUF)%nat -> 0 <= off <= i_size ip -> off + n <= MAXFILE * BSIZE ->
  Forall byte bs -> S_ src bs k ->
  (forall k' V' addrs' fl',
     let ip' := grown ip addrs' (off + n) in
     T k' me pr (put_inode (k_sb k) (i_inum ip) (dinode_of ip') V') W ∅ -> inode_frame me (fun j => j = i) k k' ->
     c_sleep (k_core k') (SInode i) = c_sleep (k_core k) (SInode i) ->
     k_itable k' !! i = Some ip' ->
     written (k_sb k) V V' (i_addrs ip) addrs' off bs fl' -> Q n k') ->
  wp (writei i src off n) Q k.
Proof.
  intros n HT Hip Hdev Hsz Hok Hfile Hal Hca Hmw HI Hs Ho Hmax Hbs HS HQ. unfold writei. wp_steps.
  assert (HM : MAXFILE * BSIZE = 274432) by done.
  eapply wp_get_inode; [exact Hip|]. rewrite (u32_small (off + n)) by lia.
  rewrite (proj2 (Z.ltb_ge (i_size ip) off)), (proj2 (Z.ltb_ge (off + n) off)) by lia. cbn [orb].
  rewrite (proj2 (Z.ltb_ge (MAXFILE * BSIZE) (off + n))) by lia. apply wp_bind.
  destruct (rw_fuel_enough off n ltac:(lia)) as [F1 F2].
  eapply (wp_writei_loop _ k V W i ip off n 0 bs src fl); rewrite ?Z.sub_0_r; try done; try lia.
  intros k1 V1 addrs1 fl1 T1 N1 L1 I1 HW. wp_steps. eapply wp_get_inode; [exact I1|].
  assert (E : k_itable k1 !! i = Some (set_i_addrs (fun _ => addrs1) ip)) by done.
  set (ip1 := set_i_addrs _ ip) in *. cbn [fst snd].
  assert (Hrest : forall k2, T k2 me pr V1 W ∅ -> inode_frame me (fun j => j = i) k1 k2 ->
    c_sleep (k_core k2) (SInode i) = c_sleep (k_core k1) (SInode i) ->
    k_itable k2 !! i = Some (grown ip addrs1 (off + n)) -> wp (iupdate i ;* M_ret (i32 n)) Q k2).
  { intros k2 T2 N2 L2 I2. wp_steps. pose proof (nf_sb _ _ _ _ N2) as E2. pose proof (nf_sb _ _ _ _ N1) as E1.
    eapply wp_iupdate; [exact T2|exact I2|exact Hdev|apply lookup_empty|rewrite map_size_empty; lia| |].
    { rewrite E2, E1. exact HI. }
    rewrite E2, E1. intros k3 T3 F3. wp_steps. rewrite i32_small by lia. eapply HQ.
    - exact T3.
    - eapply inode_frame_trans; [exact N1|]. eapply inode_frame_trans; [exact N2|by apply fs_inode_frame].
    - by rewrite (ff_inodes _ _ _ F3), L2, L1.
    - by rewrite (ff_itable _ _ _ F3).
    - exact HW. }
  assert (Esz : i_size ip1 = i_size ip) by done. rewrite Esz.
  destruct (Z.ltb_spec (i_size ip) (off + n)) as [Hlt|Hge]; cbn [when]; apply wp_bind.
  - eapply wp_upd_inode; [exact I1|]. apply Hrest; [by apply tx_inodes|apply inode_frame_upd|done|].
    simpl. rewrite list_lookup_alter_eq, I1. simpl. unfold grown, set_i_size. simpl.
    by rewrite Z.max_l by lia.
  - apply wp_ret, Hrest; [done|apply inode_frame_refl|done|]. rewrite I1. unfold grown, set_i_size, ip1. simpl.
    rewrite Z.max_r by lia. by destruct ip.
Qed.
End writei.

Section sources.
Context {T : kernel -> nat -> proc -> (Z -> list Z) -> gset Z -> held_map -> Prop} `{!TxnLaws T}.

(** Bytes of a variable of the caller. *)
Lemma local_source me pr s bs k m :
  s = FromLocal bs -> core_ok (k_core k) me [] -> c_procs (k_core k) !! me = Some pr ->
  0 <= m <= Z.of_nat (length bs) ->
  wp (either_copyin s m) (fun r k' => r = (0, take (Z.to_nat m) bs) /\
    source_add s m = FromLocal (drop (Z.to_nat m) bs) /\
    exists c', k' = with_core k c' /\ core_ok c' me [] /\ same_but_locks (k_core k) c') k.
Proof.
  intros -> Hc Hp Hm. unfold either_copyin. wp_steps.
  eapply (wp_curproc _ me [] 0); [exact Hc|simpl; lia|]. intros c' Hc' Hs'. wp_steps. split_ands; try done.
  by exists c'.
Qed.

(** Bytes of user memory. *)
Definition user_source (k0 : kernel) (t : ptree) (s : source) (bs : list Z) (k : kernel) : Prop :=
  k_phys k = k_phys k0 /\ k_img k = k_img k0 /\
  exists va, s = FromUser va /\ 0 <= va < 2 ^ 64 /\
    ubytes (ph_mem (k_phys k0)) t va (length bs) = Some bs.

Lemma user_source_copyin k0 t fl me pr s bs k m :
  vm_ok (k_img k0) (k_phys k0) t fl -> frames_ok (k_img k0) (ph_mem (k_phys k0)) t fl ->
  t !! [] = Some (p_pagetable pr) ->
  user_source k0 t s bs k -> core_ok (k_core k) me [] -> c_procs (k_core k) !! me = Some pr ->
  0 <= m <= Z.of_nat (length bs) ->
  wp (either_copyin s m) (fun r k' => r = (0, take (Z.to_nat m) bs) /\
    user_source k0 t (source_add s m) (drop (Z.to_nat m) bs) k' /\
    exists c', k' = with_core k c' /\ core_ok c' me [] /\ same_but_locks (k_core k) c') k.
Proof.
  intros Hv Hf Hpt (Ep & Ei & va & -> & Hva & Hb) Hc Hp Hm. unfold either_copyin. wp_steps.
  eapply (wp_curproc _ me [] 0); [exact Hc|simpl; lia|]. intros c' Hc' Hs'. wp_steps.
  eapply wp_get_proc; [simpl; rewrite (sb_procs _ _ Hs'); exact Hp|].
  set (m0 := ph_mem (k_phys k0)) in *. unfold ubytes in Hb.
  assert (Hsp : length bs = (Z.to_nat m + (length bs - Z.to_nat m))%nat) by lia.
  rewrite Hsp, uload_app in Hb. destruct (uload _ _ va (Z.to_nat m)) as [b1|] eqn:E1; [|done]. simpl in Hb.
  destruct (uload _ _ (va + _) _) as [b2|] eqn:E2; [|done]. injection Hb as Hb.
  pose proof (uload_length _ _ _ _ _ E1) as Hl1. pose proof (uload_length _ _ _ _ _ E2) as Hl2.
  assert (Et : take (Z.to_nat m) bs = b1) by (by rewrite <- Hb, <- Hl1, take_app_length).
  assert (Ed : drop (Z.to_nat m) bs = b2) by (by rewrite <- Hb, <- Hl1, drop_app_length).
  assert (Ek : k_phys (with_core k c') = k_phys k0) by exact Ep.
  destruct (copy_fuel_enough va m ltac:(lia)) as [F1 F2].
  eapply (wp_copyin_loop _ _ t fl); rewrite ?Ek; cbn [k_img set_k_core]; rewrite ?Ei; try done; try lia.
  - fold m0. unfold ubytes. rewrite E1. intros b [= <-]. rewrite Et, Ed. split; [done|]. split; [|by exists c'].
    split; [done|]. split; [done|]. simpl. exists (u64 (va + m)). split; [done|]. split; [apply u64_range|].
    rewrite Hl2. destruct b2 as [|y b2]; [by rewrite <- Hl2|].
    rewrite u64_small; [by rewrite Z2Nat.id in E2 by lia|]. split; [lia|]. rewrite <- Hl2 in E2. simpl in E2.
    destruct (uaddr m0 t (va + Z.of_nat (Z.to_nat m))) as [a|] eqn:Ea; [|done].
    assert (va + Z.of_nat (Z.to_nat m) < MAXVA) by (apply (uaddr_max m0 t); by rewrite Ea).
    change MAXVA with (2 ^ 38) in *. lia.
  - intros b n. fold m0. unfold ubytes. by rewrite E1.
Qed.
End sources.

(** ** Lemmas: reading what was written *)

(** Writing back the inode leaves data blocks and the map alone. *)
Lemma put_inode_data sb V inum d b :
  layout sb -> 0 <= inum < sb_ninodes sb -> data_block sb b -> put_inode sb inum d V b = V b.
Proof. intros HL Hi Hb. unfold put_inode. apply vset_ne. by apply IBLOCK_not_data. Qed.

Lemma put_inode_used sb V inum d b :
  layout sb -> 0 <= inum < sb_ninodes sb -> 0 <= b < sb_size sb -> used sb (put_inode sb inum d V) b = used sb V b.
Proof. intros HL Hi Hb. apply used_vset; [|done]. intros b' Hb'. by apply IBLOCK_not_map. Qed.

Lemma put_inode_file sb V inum d addrs :
  layout sb -> 0 <= inum < sb_ninodes sb -> file_ok sb V addrs ->
  file_ok sb (put_inode sb inum d V) addrs /\
  (forall bn, faddr (put_inode sb inum d V) addrs bn = faddr V addrs bn) /\
  (forall x, 0 <= x < MAXFILE * BSIZE -> faddr V addrs (x / BSIZE) <> 0 ->
     fbyte (put_inode sb inum d V) addrs x = fbyte V addrs x).
Proof.
  intros HL Hi [Hl Hind Hd Hj Ha]. set (V' := put_inode sb inum d V).
  assert (Ef : forall bn, faddr V' addrs bn = faddr V addrs bn).
  { intros bn. apply faddr_view. intros Hne. apply put_inode_data; try done. by apply Hind. }
  assert (Hin : forall b, in_use sb V b -> in_use sb V' b).
  { intros b [H1 H2]. split; [done|]. pose proof (data_range _ _ HL H1). unfold V'. rewrite put_inode_used; (done || lia). }
  split_ands; [constructor| |]; try done.
  - auto.
  - intros bn Hbn. rewrite Ef. auto.
  - intros bn bn' H1 H2. rewrite !Ef. auto.
  - intros bn Hbn. rewrite Ef. auto.
  - intros x Hx Hne. unfold fbyte. rewrite Ef. unfold V'. rewrite put_inode_data; try done.
    apply Hd; [by apply file_block|done].
Qed.

(** The bytes of a file after a write. *)
Lemma written_fbytes sb V V' addrs addrs' off bs fl :
  written sb V V' addrs addrs' off bs fl -> fbytes V' addrs' off (length bs) = bs.
Proof.
  intros HW. apply list_eq. intros i. unfold fbytes. destruct (decide (i < length bs)%nat) as [Hi|Hi].
  - rewrite list_lookup_fmap, lookup_seq_lt by done. simpl.
    destruct (wr_in _ _ _ _ _ _ _ _ HW (off + Z.of_nat i)) as [_ ->]; [lia|].
    replace (Z.to_nat (off + Z.of_nat i - off)) with i by lia. symmetry. by apply list_lookup_lookup_total_lt.
  - rewrite !lookup_ge_None_2; [done|lia|]. rewrite length_fmap, length_seq. lia.
Qed.

(** A file without holes stays without. *)
Lemma written_has sb V V' addrs addrs' off bs fl size :
  written sb V V' addrs addrs' off bs fl -> 0 <= off <= size -> size <= MAXFILE * BSIZE ->
  has_bytes V addrs 0 size -> has_bytes V' addrs' 0 (Z.max (off + Z.of_nat (length bs)) size).
Proof.
  intros HW Ho Hs Hh x Hx. destruct (decide (off <= x < off + Z.of_nat (length bs))) as [Hin|Hin].
  - by apply (wr_in _ _ _ _ _ _ _ _ HW).
  - rewrite (wr_same _ _ _ _ _ _ _ _ HW); [apply Hh; lia|apply file_block; lia|apply Hh; lia].
Qed.

(** ** Files open for reading and writing *)

(** The entry [i] of the inode table, [ip], is a file of the view [V] without holes. *)
Record open_file (k : kernel) (me : nat) (pr : proc) (V : Z -> list Z) (W : gset Z) (i : nat) (ip : inode) :
    Prop := mkOpenFile {
  of_txn : txn k me pr V W ∅;
  of_entry : k_itable k !! i = Some ip;
  of_dev : i_dev ip = ROOTDEV;
  of_inum : 0 <= i_inum ip < sb_ninodes (k_sb k);
  of_size : 0 <= i_size ip <= MAXFILE * BSIZE;
  of_dinode : dinode_ok (dinode_of ip);
  of_fs : fs_ok (k_sb k) V;
  of_file : file_ok (k_sb k) V (i_addrs ip);
  of_bytes : has_bytes V (i_addrs ip) 0 (i_size ip)
}.

(** The operation may write what a write of [n] bytes at [off] touches. *)
Record writable (sb : superblock) (V : Z -> list Z) (W : gset Z) (ip : inode) (off n : Z) : Prop := mkWritable {
  wt_allocs : exists fl, allocs (sb_size sb) (used sb V) fl /\ can_alloc sb W fl (budget (i_addrs ip) off n);
  wt_blocks : may_write V W (i_addrs ip) off n;
  wt_inode : IBLOCK (i_inum ip) sb ∈ W;
  wt_fits : (size W + 1 < NBUF)%nat;
  wt_off : 0 <= off <= i_size ip;
  wt_end : off + n <= MAXFILE * BSIZE
}.

(** The outcome of writing [bs] at [off] to the file [ip]. *)
Record file_written (k k' : kernel) (V V' : Z -> list Z) (ip ip' : inode) (off : Z) (bs : list Z) : Prop := mkFileWritten {
  fw_bytes : fbytes V' (i_addrs ip') off (length bs) = bs;
  fw_other : forall x, 0 <= x < i_size ip -> ~ off <= x < off + Z.of_nat (length bs) ->
    fbyte V' (i_addrs ip') x = fbyte V (i_addrs ip) x;
  fw_size : i_size ip' = Z.max (off + Z.of_nat (length bs)) (i_size ip);
  fw_disk : disk_inode (k_sb k) V' (i_inum ip) = dinode_of ip';
  fw_keep : forall b, not_map (k_sb k) b -> (0 <= b < sb_size (k_sb k) -> used (k_sb k) V b = true) ->
    b <> IBLOCK (i_inum ip) (k_sb k) -> b <> ind_addr (i_addrs ip) ->
    (forall bn, 0 <= bn < MAXFILE -> faddr V (i_addrs ip) bn <> 0 -> b <> faddr V (i_addrs ip) bn) -> V' b = V b;
  fw_rest : ip' = set_i_size (fun _ => i_size ip') (set_i_addrs (fun _ => i_addrs ip') ip)
}.

Lemma file_ok_addrs sb V addrs :
  layout sb -> file_ok sb V addrs -> Forall (fun a => 0 <= a < 2 ^ 32) addrs.
Proof.
  intros HL [Hl Hi Hd _ _]. apply Forall_lookup_2. intros j a Hj.
  assert (HN : NDIRECT = 12) by done. assert (HM : MAXFILE = 268) by done.
  assert (Hr : forall b, in_use sb V b -> 0 <= b < 2 ^ 32).
  { intros b [Hb _]. pose proof (data_range _ _ HL Hb). destruct (lay_size _ HL). lia. }
  destruct (decide (a = 0)) as [->|Hne]; [lia|]. apply Hr.
  pose proof (list_lookup_total_correct _ _ _ Hj) as Et. apply lookup_lt_Some in Hj.
  destruct (decide (j = 12)%nat) as [->|]; [change (ind_addr addrs = a) in Et; subst a; by apply Hi|].
  pose proof (faddr_direct V addrs (Z.of_nat j) ltac:(lia)) as Ef. rewrite Nat2Z.id, Et in Ef.
  rewrite <- Ef in *. apply Hd; [lia|done].
Qed.

Lemma written_open k k' me pr V V' W i ip addrs' off bs fl :
  let ip' := grown ip addrs' (off + Z.of_nat (length bs)) in
  let V2 := put_inode (k_sb k) (i_inum ip) (dinode_of ip') V' in
  open_file k me pr V W i ip -> 0 <= off <= i_size ip -> off + Z.of_nat (length bs) <= MAXFILE * BSIZE ->
  txn k' me pr V2 W ∅ -> inode_frame me (fun j => j = i) k k' -> k_itable k' !! i = Some ip' ->
  written (k_sb k) V V' (i_addrs ip) addrs' off bs fl ->
  open_file k' me pr V2 W i ip' /\ file_written k k' V V2 ip ip' off bs.
Proof.
  intros ip' V2 [O1 O2 O3 O4 O5 O6 O7 O8 O9] Ho Hmax T' N' I' HW. pose proof (fk_layout _ _ O7) as HL.
  assert (HM : MAXFILE * BSIZE = 274432) by done.
  pose proof (wr_fs _ _ _ _ _ _ _ _ HW) as Hfs. pose proof (wr_file _ _ _ _ _ _ _ _ HW) as Hf.
  destruct (put_inode_file (k_sb k) V' (i_inum ip) (dinode_of ip') addrs' HL O4 Hf) as (P1 & P2 & P3). fold V2 in P1, P2, P3.
  pose proof (written_has _ _ _ _ _ _ _ _ _ HW Ho ltac:(lia) O9) as Hhas.
  assert (Hd : dinode_ok (dinode_of ip')).
  { destruct O6. constructor; try done; simpl in *; [lia|apply Hf|by eapply file_ok_addrs]. }
  split; constructor; rewrite ?(nf_sb _ _ _ _ N'); try done.
  - simpl. lia.
  - constructor; [done|apply put_inode_ok; [apply Hfs|apply Hd]|]. intros b Hb. unfold V2.
    rewrite put_inode_used by done. by apply Hfs.
  - intros x Hx. simpl. rewrite P2. by apply Hhas.
  - rewrite <- (written_fbytes _ _ _ _ _ _ _ _ HW) at 2. apply list_fmap_ext. intros j y [-> Hj]%lookup_seq.
    apply P3; [lia|]. apply (wr_in _ _ _ _ _ _ _ _ HW). lia.
  - intros x Hx Hn. simpl. assert (Hnz : faddr V (i_addrs ip) (x / BSIZE) <> 0) by (apply O9; lia).
    rewrite P3, (wr_out _ _ _ _ _ _ _ _ HW); try done; try lia.
    rewrite (wr_same _ _ _ _ _ _ _ _ HW); [done|apply file_block; lia|done].
  - unfold V2. rewrite disk_put_inode; try done; [by rewrite decide_True|apply Hfs].
  - intros b Hm Hu Hib Hi Hbs. unfold V2, put_inode. rewrite vset_ne by done.
    by apply (wr_keep _ _ _ _ _ _ _ _ HW).
Qed.

Lemma open_writei k me pr V W i ip off bs src (S_ : source -> list Z -> kernel -> Prop) Q :
  (forall s l k k', S_ s l k -> k_phys k' = k_phys k -> k_img k' = k_img k -> S_ s l k') ->
  (forall s l k m, S_ s l k -> core_ok (k_core k) me [] -> c_procs (k_core k) !! me = Some pr ->
     0 <= m <= Z.of_nat (length l) ->
     wp (either_copyin s m) (fun r k' => r = (0, take (Z.to_nat m) l) /\
       S_ (source_add s m) (drop (Z.to_nat m) l) k' /\
       exists c', k' = with_core k c' /\ core_ok c' me [] /\ same_but_locks (k_core k) c') k) ->
  open_file k me pr V W i ip -> writable (k_sb k) V W ip off (Z.of_nat (length bs)) -> Forall byte bs ->
  S_ src bs k ->
  (forall k' V' ip', open_file k' me pr V' W i ip' -> file_written k k' V V' ip ip' off bs ->
     inode_frame me (fun j => j = i) k k' -> c_sleep (k_core k') (SInode i) = c_sleep (k_core k) (SInode i) ->
     Q (Z.of_nat (length bs)) k') ->
  wp (writei i src off (Z.of_nat (length bs))) Q k.
Proof.
  intros HSf HSc HO [(fl & Hal & Hca) Hmw HI Hs Ho Hmax] Hbs HS HQ. pose proof HO as [O1 O2 O3 O4 O5 O6 O7 O8 O9].
  eapply (wp_writei me pr S_ HSf HSc k V W i ip off bs src fl); try done; [lia|].
  intros k' V' addrs' fl' ip' T' N' L' I' HW.
  destruct (written_open _ _ _ _ _ _ _ _ _ _ _ _ _ HO Ho Hmax T' N' I' HW) as [H1 H2].
  by eapply HQ.
Qed.

(** ** An example: an empty file and one of three bytes *)

Definition sample_entry (type size : Z) (addrs : list Z) : inode :=
  mkInode ROOTDEV 5 1 1 type 0 0 1 size addrs.
Abbreviation sample_inode := (sample_entry T_FILE).

(** Blocks up to 46 are in use; block 46 starts with three bytes. *)
Definition file_map : list Z := [255; 255; 255; 255; 255; 127] ++ replicate 1018 0.
Definition file_data : list Z := [104; 105; 10] ++ replicate 1021 0.
Definition file_disk (b : Z) : list Z := if b =? 45 then file_map else if b =? 46 then file_data else zeros.

Definition no_addrs : list Z := replicate 13 0.
Definition file_addrs : list Z := 46 :: replicate 12 0.

Definition file_kernel (d : Z -> list Z) (ip : inode) : kernel :=
  set_k_itable (fun _ => [ip]) (set_k_phys (fun _ => k_phys space_kernel) (op_kernel d)).

Lemma below_used n (d : Z -> list Z) :
  forallb (fun i => used sample_sb d (Z.of_nat i)) (seq 0 n) = true ->
  forall b, 0 <= b < Z.of_nat n -> used sample_sb d b = true.
Proof.
  intros H b Hb. rewrite forallb_forall in H. rewrite <- (Z2Nat.id b) by lia. apply H, in_seq. lia.
Qed.

Lemma sample_fs_ok d n :
  blocks_ok d -> (46 <= n)%nat -> forallb (fun i => used sample_sb d (Z.of_nat i)) (seq 0 n) = true -> fs_ok sample_sb d.
Proof.
  intros Hd Hn H. constructor; [apply sample_layout|done|]. intros b Hb Hu.
  destruct (decide (b < Z.of_nat n)) as [Hlt|Hlt].
  - rewrite (below_used n d H) in Hu by lia. done.
  - unfold data_block. change (sb_bmapstart sample_sb) with 45. change (sb_size sample_sb / BPB) with 0. lia.
Qed.

Lemma file_disk_ok : blocks_ok file_disk.
Proof.
  intros b. unfold file_disk. destruct (b =? 45).
  { split; [reflexivity|]. apply Forall_app. split; [repeat constructor; lia|apply Forall_replicate; split; lia]. }
  destruct (b =? 46); [|apply zeros_ok].
  split; [reflexivity|]. apply Forall_app. split; [repeat constructor; lia|apply Forall_replicate; split; lia].
Qed.

Lemma no_addrs_faddr V bn : bn < 12 -> faddr V no_addrs bn = 0.
Proof.
  intros H. rewrite faddr_direct by done. unfold no_addrs. rewrite list_lookup_total_alt.
  rewrite lookup_replicate_2 by lia. done.
Qed.

Lemma no_addrs_ok V : file_ok sample_sb V no_addrs.
Proof.
  assert (Hz : forall bn, faddr V no_addrs bn = 0).
  { intros bn. destruct (decide (bn < 12)); [by apply no_addrs_faddr|].
    unfold faddr. rewrite decide_False by (unfold NDIRECT; lia). by rewrite decide_True. }
  constructor; try done; intros; rewrite !Hz in *; done.
Qed.

Lemma file_addrs_faddr V bn : 0 <= bn -> faddr V file_addrs bn = if decide (bn = 0) then 46 else 0.
Proof.
  intros Hb. destruct (decide (bn = 0)) as [->|Hne]; [done|].
  unfold faddr. destruct (decide (bn < NDIRECT)); [|by rewrite decide_True]. unfold file_addrs.
  replace (Z.to_nat bn) with (S (Z.to_nat (bn - 1))) by lia. rewrite list_lookup_total_alt.
  change ((46 :: replicate 12 0) !! S (Z.to_nat (bn - 1))) with (replicate 12 0 !! Z.to_nat (bn - 1)).
  rewrite lookup_replicate_2 by (unfold NDIRECT in *; lia). done.
Qed.

Lemma file_addrs_ok : file_ok sample_sb file_disk file_addrs.
Proof.
  assert (Hu : in_use sample_sb file_disk 46).
  { split; [split; vm_compute; reflexivity|vm_compute; reflexivity]. }
  constructor; try done; intros; rewrite ?file_addrs_faddr in * by lia;
    repeat case_decide; try done; lia.
Qed.

Lemma sample_open d type size addrs W :
  0 <= type <= 3 -> write_set 2 W -> fs_ok sample_sb d -> file_ok sample_sb d addrs -> 0 <= size <= MAXFILE * BSIZE ->
  has_bytes d addrs 0 size ->
  open_file (file_kernel d (sample_entry type size addrs)) 0 first_proc d W 0 (sample_entry type size addrs).
Proof.
  intros Hty HW Hd Hf Hs Hh. assert (HM : MAXFILE * BSIZE = 274432) by done. constructor; try done.
  - apply tx_inodes, tx_phys, op_txn, HW.
  - constructor; simpl; try lia; [apply Hf|]. by eapply file_ok_addrs; [apply sample_layout|].
Qed.

Lemma file_type : 0 <= T_FILE <= 3.
Proof. by vm_compute. Qed.

Lemma small_size n : 0 <= n <= 100 -> 0 <= n <= MAXFILE * BSIZE.
Proof. change (MAXFILE * BSIZE) with 274432. lia. Qed.

Definition sample_writes : gset Z := {[32; 45; 46; 47]}.

Lemma sample_writes_ok : write_set 2 sample_writes.
Proof.
  split; [|intros blk Hb; assert (blk = 32 \/ blk = 45 \/ blk = 46 \/ blk = 47)
    by (unfold sample_writes in Hb; set_solver); unfold outside, LOGSIZE, MAXOPBLOCKS; lia].
  unfold sample_writes. rewrite !size_union by set_solver. rewrite !size_singleton.
  unfold LOGSIZE, MAXOPBLOCKS. lia.
Qed.

Lemma map_disk_allocs : allocs (sb_size sample_sb) (used sample_sb map_disk) [46; 47].
Proof.
  assert (H46 : forallb (fun i => used sample_sb map_disk (Z.of_nat i)) (seq 0 46) = true)
    by (vm_compute; reflexivity).
  assert (U : used sample_sb map_disk 46 = false /\ used sample_sb map_disk 47 = false)
    by (vm_compute; done).
  pose proof (below_used 46 _ H46) as Hb. change (Z.of_nat 46) with 46 in Hb.
  assert (Hs : sb_size sample_sb = 1000) by done. rewrite Hs.
  set (u := used sample_sb map_disk) in *. clearbody u. cbn [allocs]. split_ands; try done; try lia; try apply U.
  intros b Hlt. destruct (decide (b = 46)); [done|]. apply Hb. lia.
Qed.

Lemma sample_writes_elem x : x = 32 \/ x = 45 \/ x = 46 \/ x = 47 -> x ∈ sample_writes.
Proof. unfold sample_writes. set_solver. Qed.

Lemma sample_writes_size : size sample_writes = 4%nat.
Proof. reflexivity. Qed.

Lemma empty_writable type n :
  n = 3 \/ n = 16 -> writable sample_sb map_disk sample_writes (sample_entry type 0 no_addrs) 0 n.
Proof.
  intros Hn. constructor.
  - exists [46; 47]. split; [apply map_disk_allocs|]. split; [destruct Hn as [-> | ->]; apply Nat.leb_le; reflexivity|]. intros r Hr.
    assert (r ∈ take 2 [46; 47]) as Hr2 by (destruct Hn as [-> | ->]; exact Hr). clear Hr. rename Hr2 into Hr.
    assert (r = 46 \/ r = 47) as Hr'.
    { apply elem_of_take in Hr as (j & Hj & _). apply list_elem_of_lookup_2 in Hj. set_solver. }
    split; [apply sample_writes_elem; lia|].
    assert (BBLOCK r sample_sb = 45) as -> by (destruct Hr' as [-> | ->]; reflexivity).
    apply sample_writes_elem. lia.
  - constructor; [done|]. intros y Hy. rewrite no_addrs_faddr; [done|]. apply Z.div_lt_upper_bound; unfold BSIZE; lia.
  - change (IBLOCK _ _) with 32. apply sample_writes_elem. lia.
  - rewrite sample_writes_size. unfold NBUF. lia.
  - simpl. lia.
  - change (MAXFILE * BSIZE) with 274432. lia.
Qed.

(** ** Properties *)

(** C9: [writei] of bytes of user memory to a file, with room for the missing blocks
    on the disk and in the log, writes them all: they are the bytes of the file at
    that offset, its other bytes are unchanged, its size and its inode on disk are up
    to date, the file is well formed and without holes, and no other block in use has
    changed. *)
Theorem writei_correct k me pr V W i ip t fl va off bs :
  open_file k me pr V W i ip -> writable (k_sb k) V W ip off (Z.of_nat (length bs)) ->
  vm_ok (k_img k) (k_phys k) t fl -> frames_ok (k_img k) (ph_mem (k_phys k)) t fl ->
  t !! [] = Some (p_pagetable pr) -> 0 <= va < 2 ^ 64 ->
  ubytes (ph_mem (k_phys k)) t va (length bs) = Some bs -> Forall byte bs ->
  wp (writei i (FromUser va) off (Z.of_nat (length bs))) (fun r k' => r = Z.of_nat (length bs) /\
    exists V' ip', open_file k' me pr V' W i ip' /\ file_written k k' V V' ip ip' off bs /\
      inode_frame me (fun j => j = i) k k') k.
Proof.
  intros HO HW Hv Hf Hpt Hva Hb Hbs.
  eapply (open_writei _ _ _ _ _ _ _ _ _ _ (user_source k t)); try done.
  - intros s l k1 k2 (E1 & E2 & E3) E4 E5. split; [by rewrite E4|]. split; [by rewrite E5|done].
  - intros s l k1 m. by apply (user_source_copyin _ _ fl).
  - split; [done|]. split; [done|]. by exists va.
  - intros k' V' ip' O' W' N' _. split; [done|]. by exists V', ip'.
Qed.

Lemma writei_correct_witness :
  exists k', writei 0 (FromUser 0) 0 3 (file_kernel map_disk (sample_inode 0 no_addrs)) = Ok 3 k'.
Proof.
  assert (H46 : forallb (fun i => used sample_sb map_disk (Z.of_nat i)) (seq 0 46) = true)
    by (vm_compute; reflexivity).
  assert (Hb : ubytes sample_mem sample_tree 0 3 = Some [0; 0; 0]).
  { unfold ubytes. cbn [uload]. rewrite !sample_uaddr by lia. vm_compute. reflexivity. }
  destruct (wp_ok _ _ _ (writei_correct (file_kernel map_disk (sample_inode 0 no_addrs)) 0 first_proc map_disk
    sample_writes 0 (sample_inode 0 no_addrs) sample_tree [0x80100000] 0 0 [0; 0; 0]
    (sample_open _ _ _ _ _ file_type sample_writes_ok (sample_fs_ok _ 46 map_disk_ok ltac:(lia) H46) (no_addrs_ok _)
       (small_size 0 ltac:(lia)) ltac:(intros x Hx; lia))
    (empty_writable _ _ (or_introl eq_refl)) space_vm_ok space_frames_ok ltac:(reflexivity) ltac:(lia) Hb
    ltac:(repeat constructor; lia))) as (r & k' & E & -> & _).
  exists k'. exact E.
Defined.

(** C34: what [writei] has written [readi] reads back. *)
Theorem writei_readi k me pr V W i ip off bs :
  open_file k me pr V W i ip -> writable (k_sb k) V W ip off (Z.of_nat (length bs)) -> Forall byte bs ->
  wp (writei i (FromLocal bs) off (Z.of_nat (length bs)) ;* readi i ToLocal off (Z.of_nat (length bs)))
    (fun r _ => r = (Z.of_nat (length bs), bs)) k.
Proof.
  intros HO HW Hbs. assert (HM : MAXFILE * BSIZE = 274432) by done. pose proof HW as [_ _ _ Hs Ho Hmax].
  apply wp_bind. eapply (open_writei _ _ _ _ _ _ _ _ _ _ (fun s l _ => s = FromLocal l)); try done.
  { intros s l k1 m. by apply local_source. }
  intros k' V' ip' [O1 O2 O3 O4 O5 O6 O7 O8 O9] [W1 W2 W3 W4 W5 _] _ _.
  set (n := Z.of_nat (length bs)) in *.
  assert (El : read_len (i_size ip') off n = n).
  { unfold read_len. rewrite u32_small by lia. rewrite (proj2 (Z.ltb_ge _ _)), (proj2 (Z.ltb_ge _ _)) by lia.
    cbn [orb]. lia. }
  eapply (wp_readi_local k' me pr V' W i ip' off n); try done; try lia; [apply O7|].
  intros k2 _ _. rewrite El. unfold n. rewrite Nat2Z.id. by rewrite W1.
Qed.

Lemma writei_readi_witness :
  exists k', (writei 0 (FromLocal [104; 105; 10]) 0 3 ;* readi 0 ToLocal 0 3)
    (file_kernel map_disk (sample_inode 0 no_addrs)) = Ok (3, [104; 105; 10]) k'.
Proof.
  assert (H46 : forallb (fun i => used sample_sb map_disk (Z.of_nat i)) (seq 0 46) = true)
    by (vm_compute; reflexivity).
  destruct (wp_ok _ _ _ (writei_readi (file_kernel map_disk (sample_inode 0 no_addrs)) 0 first_proc map_disk
    sample_writes 0 (sample_inode 0 no_addrs) 0 [104; 105; 10]
    (sample_open _ _ _ _ _ file_type sample_writes_ok (sample_fs_ok _ 46 map_disk_ok ltac:(lia) H46) (no_addrs_ok _)
       (small_size 0 ltac:(lia)) ltac:(intros x Hx; lia))
    (empty_writable _ _ (or_introl eq_refl)) ltac:(repeat constructor; lia))) as (r & k' & E & ->).
  exists k'. exact E.
Defined.

(** [readi] into user memory copies the bytes of the file from the offset up to
    the end of the file or the count asked for, whichever comes first, and returns
    their number; it changes no other byte of memory, no page table, no block of the
    view and no inode. *)
Theorem readi_correct k me pr V W i ip t fl va off n :
  let m := read_len (i_size ip) off n in
  let m0 := ph_mem (k_phys k) in
  open_file k me pr V W i ip -> (size W < NBUF)%nat -> 0 <= off < 2 ^ 32 -> 0 <= n < 2 ^ 32 ->
  vm_ok (k_img k) (k_phys k) t fl -> frames_ok (k_img k) m0 t fl ->
  t !! [] = Some (p_pagetable pr) -> 0 <= va < 2 ^ 64 -> is_Some (ubytes m0 t va (Z.to_nat m)) ->
  wp (readi i (ToUser va) off n) (fun r k' => r.1 = m /\ txn k' me pr V W ∅ /\
    exists m', inode_frame me (fun _ => False) (with_mem k m') k' /\
      same_space (k_img k) (k_phys k) m' t fl /\
      forall x, m' x = ustore (uaddr m0 t) m0 va (fbytes V (i_addrs ip) off (Z.to_nat m)) x) k.
Proof.
  intros m m0 [O1 O2 O3 O4 O5 O6 O7 O8 O9] Hs Ho Hn Hv Hf Hpt Hva Hm.
  eapply wp_readi_user; try done; [apply O7|]. intros k' m' T' N' S' M'. split; [done|]. split; [done|]. by exists m'.
Qed.

Lemma readi_correct_witness :
  exists r k', readi 0 (ToUser 0) 1 10 (file_kernel file_disk (sample_inode 3 file_addrs)) = Ok r k' /\ r.1 = 2.
Proof.
  assert (H47 : forallb (fun i => used sample_sb file_disk (Z.of_nat i)) (seq 0 47) = true)
    by (vm_compute; reflexivity).
  assert (Hb : is_Some (ubytes sample_mem sample_tree 0 2)).
  { unfold ubytes. cbn [uload]. rewrite !sample_uaddr by lia. vm_compute. by eexists. }
  assert (Hh : has_bytes file_disk file_addrs 0 3).
  { intros x Hx. assert (x / BSIZE = 0) as -> by (apply Z.div_small; unfold BSIZE; lia). by vm_compute. }
  destruct (wp_ok _ _ _ (readi_correct (file_kernel file_disk (sample_inode 3 file_addrs)) 0 first_proc file_disk
    sample_writes 0 (sample_inode 3 file_addrs) sample_tree [0x80100000] 0 1 10
    (sample_open _ _ _ _ _ file_type sample_writes_ok (sample_fs_ok _ 47 file_disk_ok ltac:(lia) H47) file_addrs_ok
       (small_size 3 ltac:(lia)) Hh)
    ltac:(pose proof (wt_fits _ _ _ _ _ _ (empty_writable T_FILE _ (or_introl eq_refl))); lia) ltac:(lia) ltac:(lia)
    space_vm_ok space_frames_ok ltac:(reflexivity) ltac:(lia) Hb)) as (r & k' & E & Hr & _).
  exists r, k'. exact (conj E Hr).
Defined.
