(* ===== verification/FsDir.v ===== *)
(** * Directories and path names (kernel/fs.c) *)

From S2P Require Import Prelude State Spin Sleep Bio Log Txn Strings Kalloc Vm FsBlock FsInode FsFile FsWrite.

(** ** Definitions: directories *)

(** The arrays [s] and [t] in a memory of their own. *)
Definition two_arrays (s t : list Z) : mem := mwrite (mwrite (fun _ => 0) 0 s) 16 t.

Definition namecmp (s t : list Z) : Z := strncmp (two_arrays s t) 0 16 (Z.of_nat DIRSIZ).

Record dirent := mkDirent {
  de_inum : Z;
  de_name : list Z
}.

Definition ld_dirent (b : list Z) : dirent := mkDirent (get_ushort 0 b) (slice 2 DIRSIZ b).

Definition st_dirent (de : dirent) : list Z := le_split 2 (de_inum de) ++ de_name de.

(** [for(off = 0; off < dp->size; off += sizeof(de))] *)
Definition dirent_offs (size : Z) : list Z :=
  (fun i => Z.of_nat i * 16) <$> seq 0 (Z.to_nat ((size + 15) / 16)).

(** [readi] into a [struct dirent] of the caller. *)
Definition read_dirent (dp : nat) (off : Z) (msg : string) : K dirent :=
  let* r := readi dp ToLocal off 16 in
  if negb (r.1 =? 16) then panic msg else M_ret (ld_dirent r.2).

(** The inode, and the offset of its entry. *)
Definition dirlookup (dp : nat) (name : list Z) : K (option (nat * Z)) :=
  let* d := get_inode dp in
  if negb (i_type d =? T_DIR) then panic "dirlookup not DIR" else
  for_find (dirent_offs (i_size d)) (fun off =>
    let* de := read_dirent dp off "dirlookup read" in
    if de_inum de =? 0 then M_ret None else
    if namecmp name (de_name de) =? 0 then
      let* d := get_inode dp in
      let* ip := iget (i_dev d) (de_inum de) in
      M_ret (Some (ip, off))
    else M_ret None).

(** [strncpy(de.name, name, DIRSIZ)] *)
Definition name_field (name : list Z) : list Z :=
  mread (strncpy (two_arrays (replicate DIRSIZ 0) name) 0 16 (Z.of_nat DIRSIZ)) 0 DIRSIZ.

Definition dirlink (dp : nat) (name : list Z) (inum : Z) : K Z :=
  let* r := dirlookup dp name in
  match r with
  | Some (ip, _) => iput ip ;* M_ret (-1)
  | None =>
      let* d := get_inode dp in
      let* r := for_find (dirent_offs (i_size d)) (fun off =>
        let* de := read_dirent dp off "dirlink read" in
        M_ret (if de_inum de =? 0 then Some off else None)) in
      let off := match r with Some off => off | None => (i_size d + 15) / 16 * 16 end in
      let* w := writei dp (FromLocal (st_dirent (mkDirent (u16 inum) (name_field name)))) off 16 in
      if negb (w =? 16) then panic "dirlink" else M_ret 0
  end.

(** ** Definitions: paths

    A path is its bytes up to the terminating NUL; [name] is an array of [DIRSIZ]
    bytes that keeps what was in it after the copied element. *)

Definition slash : Z := 47.

Fixpoint skip_slashes (path : list Z) : list Z :=
  match path with
  | c :: p => if c =? slash then skip_slashes p else path
  | [] => []
  end.

(** The element at the start of the path, and what follows it. *)
Fixpoint span_elem (path : list Z) : list Z * list Z :=
  match path with
  | c :: p => if c =? slash then ([], path) else let r := span_elem p in (c :: r.1, r.2)
  | [] => ([], [])
  end.

Definition skipelem (path name : list Z) : option (list Z * list Z) :=
  match skip_slashes path with
  | [] => None
  | path =>
      let (s, rest) := span_elem path in
      let name := if (DIRSIZ <=? length s)%nat then splice 0 (take DIRSIZ s) name
                  else splice 0 (s ++ [0]) name in
      Some (skip_slashes rest, name)
  end.

Fixpoint namex_loop (fuel : nat) (ip : nat) (path : list Z) (nameiparent : bool) (name : list Z) :
    K (option nat * list Z) :=
  match fuel with
  | O => nofuel
  | S fuel =>
      match skipelem path name with
      | None =>
          if nameiparent then iput ip ;* M_ret (None, name) else M_ret (Some ip, name)
      | Some (path, name) =>
          ilock ip ;*
          let* d := get_inode ip in
          if negb (i_type d =? T_DIR) then iunlockput ip ;* M_ret (None, name) else
          if nameiparent && (length path =? 0)%nat then iunlock ip ;* M_ret (Some ip, name) else
          let* next := dirlookup ip name in
          match next with
          | None => iunlockput ip ;* M_ret (None, name)
          | Some (next, _) => iunlockput ip ;* namex_loop fuel next path nameiparent name
          end
      end
  end.

(** Each round takes at least one byte of the path. *)
Definition namex (path : list Z) (nameiparent : bool) (name : list Z) : K (option nat * list Z) :=
  let* ip :=
    (if match path with c :: _ => c =? slash | [] => false end then iget ROOTDEV ROOTINO
     else let* p := curproc in
          let* pr := get_proc p in
          let* cwd := of_opt (p_cwd pr) in
          idup cwd) in
  namex_loop (S (length path)) ip path nameiparent name.

(** [name] is a fresh array of the caller. *)
Definition namei (path : list Z) : K (option nat) :=
  let* r := namex path false (replicate DIRSIZ 0) in M_ret r.1.

Definition nameiparent (path name : list Z) : K (option nat * list Z) := namex path true name.

(** ** Specification: names *)

(** The name an array holds: the bytes before the first NUL of its first [n]. *)
Fixpoint cname (n : nat) (l : list Z) : list Z :=
  match n, l with
  | S n, c :: l => if c =? 0 then [] else c :: cname n l
  | _, _ => []
  end.

Definition dname (l : list Z) : list Z := cname DIRSIZ l.

(** The elements of a path. *)
Fixpoint split_path (cur path : list Z) : list (list Z) :=
  match path with
  | [] => if decide (cur = []) then [] else [cur]
  | c :: p => if c =? slash then (if decide (cur = []) then split_path [] p else cur :: split_path [] p)
              else split_path (cur ++ [c]) p
  end.

Definition elems (path : list Z) : list (list Z) := split_path [] path.

(** ** Specification: directories *)

(** The entry at [off] of the file with the addresses [addrs], and whether it is for
    [name]. *)
Definition dir_entry (V : Z -> list Z) (addrs : list Z) (off : Z) : dirent := ld_dirent (fbytes V addrs off 16).

Definition entry_for (V : Z -> list Z) (addrs name : list Z) (off : Z) : Prop :=
  de_inum (dir_entry V addrs off) <> 0 /\ dname (de_name (dir_entry V addrs off)) = dname name.

(** The number and the offset a directory has for a name. *)
Definition dir_find (V : Z -> list Z) (ip : inode) (name : list Z) : option (Z * Z) :=
  (fun r => (de_inum (dir_entry V (i_addrs ip) r.2), r.2)) <$>
    list_find (entry_for V (i_addrs ip) name) (dirent_offs (i_size ip)).

(** Where [dirlink] puts a new entry. *)
Definition dir_slot (V : Z -> list Z) (ip : inode) : Z :=
  match list_find (fun off => de_inum (dir_entry V (i_addrs ip) off) = 0) (dirent_offs (i_size ip)) with
  | Some (_, off) => off
  | None => i_size ip
  end.

(** An open directory. *)
Record open_dir (k : kernel) (me : nat) (pr : proc) (V : Z -> list Z) (W : gset Z) (i : nat) (ip : inode) : Prop := mkOpenDir {
  od_file : open_file k me pr V W i ip;
  od_type : i_type ip = T_DIR;
  od_whole : i_size ip mod 16 = 0;
  od_fits : (size W < NBUF)%nat
}.

(** ** Lemmas: names *)

Lemma cname_mread n m a l :
  (forall i, (i < n)%nat -> m (a + Z.of_nat i) = default 0 (l !! i)) -> cname n (mread m a n) = cname n l.
Proof.
  revert a l. induction n as [|n IH]; intros a l H; [done|]. rewrite mread_S. pose proof (H 0%nat ltac:(lia)) as H0.
  rewrite Z.add_0_r in H0. cbn [cname]. rewrite H0. destruct l as [|c l]; [done|]. simpl.
  destruct (c =? 0); [done|]. f_equal. apply IH. intros i Hi. specialize (H (S i) ltac:(lia)). simpl in H.
  rewrite <- H. f_equal. lia.
Qed.

Lemma strncmp_cname n m p q :
  (forall x, 0 <= m x < 256) -> strncmp_loop n m p q = 0 <-> cname n (mread m p n) = cname n (mread m q n).
Proof.
  intros Hb. revert p q. induction n as [|n IH]; intros p q; [done|]. rewrite !mread_S. cbn [strncmp_loop cname].
  unfold truthy, u8. rewrite !Z.mod_small by apply Hb.
  destruct (Z.eqb_spec (m p) 0) as [Ep|Ep], (Z.eqb_spec (m q) 0) as [Eq|Eq], (Z.eqb_spec (m p) (m q)) as [E|E]; cbn [negb andb];
    try lia; try (split; [lia|done]).
  - split; [done|lia].
  - rewrite IH. split; [intros ->; by rewrite E|]. by intros [= _ ?].
  - split; [lia|]. intros [= ? _]. lia.
Qed.

Lemma two_arrays_at s t i :
  (length s <= 16)%nat -> (i < DIRSIZ)%nat ->
  two_arrays s t (0 + Z.of_nat i) = default 0 (s !! i) /\ two_arrays s t (16 + Z.of_nat i) = default 0 (t !! i).
Proof.
  intros Hs Hi. unfold two_arrays. unfold DIRSIZ in Hi. split.
  - rewrite mwrite_out by lia. destruct (decide (i < length s)%nat).
    + rewrite mwrite_in by lia. replace (Z.to_nat (0 + Z.of_nat i - 0)) with i by lia.
      by rewrite (list_lookup_lookup_total_lt s i) by done.
    + rewrite mwrite_out by lia. by rewrite lookup_ge_None_2 by lia.
  - destruct (decide (i < length t)%nat).
    + rewrite mwrite_in by lia. replace (Z.to_nat (16 + Z.of_nat i - 16)) with i by lia.
      by rewrite (list_lookup_lookup_total_lt t i) by done.
    + rewrite !mwrite_out by lia. by rewrite lookup_ge_None_2 by lia.
Qed.

Lemma mwrite_byte m a l : (forall x, 0 <= m x < 256) -> Forall byte l -> forall x, 0 <= mwrite m a l x < 256.
Proof.
  intros Hm Hl x. destruct (decide (a <= x < a + Z.of_nat (length l))).
  - rewrite mwrite_in by done. assert (is_Some (l !! Z.to_nat (x - a))) as [c Hc] by (apply lookup_lt_is_Some_2; lia).
    rewrite (list_lookup_total_correct _ _ _ Hc). by apply (Forall_lookup_1 _ _ _ _ Hl Hc).
  - by rewrite mwrite_out.
Qed.

Lemma two_arrays_byte s t : Forall byte s -> Forall byte t -> forall x, 0 <= two_arrays s t x < 256.
Proof. intros Hs Ht. apply mwrite_byte; [|done]. by apply mwrite_byte. Qed.

(** [namecmp] compares names. *)
Lemma namecmp_dname s t :
  Forall byte s -> Forall byte t -> (length s <= 16)%nat -> namecmp s t = 0 <-> dname s = dname t.
Proof.
  intros Hs Ht Hl. unfold namecmp, strncmp. rewrite Nat2Z.id, strncmp_cname by (by apply two_arrays_byte).
  rewrite (cname_mread _ _ 0 s), (cname_mread _ _ 16 t); [done|..]; intros i Hi; by apply two_arrays_at.
Qed.

(** The field [dirlink] stores holds the same name. *)
Lemma cname_all l :
  let z := cname (length l) l in
  default 0 (l !! length z) = 0 /\
  (forall i c, z !! i = Some c -> l !! i = Some c /\ c <> 0) /\ (forall n, cname n z = cname n l).
Proof.
  induction l as [|c l (H1 & H2 & H3)]; simpl in *; [by split_ands|]. destruct (Z.eqb_spec c 0) as [->|Hc]; simpl.
  - split_ands; try done. by intros [].
  - split_ands; [done| |].
    + intros [|i] d E; simplify_eq/=; [done|]. by apply H2.
    + intros [|n]; [done|]. simpl. rewrite (proj2 (Z.eqb_neq _ _) Hc). by rewrite H3.
Qed.

Lemma two_arrays_snd s t i :
  (length s <= 16)%nat -> two_arrays s t (16 + Z.of_nat i) = default 0 (t !! i).
Proof.
  intros Hs. unfold two_arrays. destruct (decide (i < length t)%nat).
  - rewrite mwrite_in by lia. replace (Z.to_nat (16 + Z.of_nat i - 16)) with i by lia.
    by rewrite (list_lookup_lookup_total_lt t i) by done.
  - rewrite !mwrite_out by lia. by rewrite lookup_ge_None_2 by lia.
Qed.

Lemma name_field_ok name :
  Forall byte name -> dname (name_field name) = dname name /\ length (name_field name) = DIRSIZ /\ Forall byte (name_field name).
Proof.
  intros Hb. destruct (cname_all name) as (H1 & H2 & H3). set (z := cname (length name) name) in *.
  set (m := two_arrays (replicate DIRSIZ 0) name).
  assert (Hm : forall i : nat, m (16 + Z.of_nat i) = default 0 (name !! i)) by (intros i; apply two_arrays_snd; simpl; lia).
  assert (Hs : str_at m 16 (length z)).
  { split; [by rewrite Hm|]. intros i Hi. replace i with (Z.of_nat (Z.to_nat i)) by lia. rewrite Hm.
    destruct (lookup_lt_is_Some_2 z (Z.to_nat i)) as [c Hc]; [lia|]. destruct (H2 _ _ Hc) as [-> ?]. done. }
  assert (Hf : forall i, (i < DIRSIZ)%nat -> strncpy m 0 16 (Z.of_nat DIRSIZ) (0 + Z.of_nat i) = default 0 (z !! i)).
  { intros i Hi. unfold DIRSIZ in *. rewrite (strncpy_mem m 0 16 (Z.of_nat 14) (length z)) by (done || lia). rewrite decide_True by lia.
    destruct (decide (i < length z)%nat) as [Hl|Hl].
    - rewrite decide_True by lia. replace (16 + (0 + Z.of_nat i - 0)) with (16 + Z.of_nat i) by lia. rewrite Hm.
      destruct (lookup_lt_is_Some_2 z i Hl) as [c Hc]. destruct (H2 _ _ Hc) as [-> _]. by rewrite Hc.
    - rewrite decide_False by lia. by rewrite lookup_ge_None_2 by lia. }
  split_ands.
  - unfold dname, name_field. fold m. rewrite (cname_mread _ _ 0 z Hf). apply H3.
  - apply length_mread.
  - apply Forall_lookup. intros i c Hc. pose proof (lookup_lt_Some _ _ _ Hc) as Hi.
    unfold name_field in *. rewrite length_mread in Hi. rewrite lookup_mread in Hc by done. injection Hc as <-. fold m. rewrite Hf by done.
    destruct (z !! i) as [c|] eqn:Ez; [|unfold byte; simpl; lia]. destruct (H2 _ _ Ez) as [E _].
    exact (Forall_lookup_1 _ _ _ _ Hb E).
Qed.

(** ** Lemmas: paths *)

Lemma skip_slashes_spec path :
  elems (skip_slashes path) = elems path /\ (length (skip_slashes path) <= length path)%nat /\
  head (skip_slashes path) <> Some slash.
Proof.
  induction path as [|c p (H1 & H2 & H3)]; [done|]. unfold elems in *. simpl. destruct (Z.eqb_spec c slash) as [->|Hc].
  - split_ands; [done|lia|done].
  - split_ands; [|done|simpl; congruence]. simpl. by rewrite (proj2 (Z.eqb_neq _ _) Hc).
Qed.

Lemma span_elem_spec path :
  let (s, rest) := span_elem path in
  path = s ++ rest /\ Forall (fun c => c <> slash) s /\ (rest = [] \/ head rest = Some slash) /\
  forall cur, cur ++ s <> [] -> split_path cur path = (cur ++ s) :: elems rest.
Proof.
  induction path as [|c p IH]; simpl.
  - split_ands; try done; [by left|]. intros cur Hne. rewrite app_nil_r in *. by rewrite decide_False.
  - destruct (Z.eqb_spec c slash) as [->|Hc].
    + split_ands; try done; [by right|]. intros cur Hne. rewrite app_nil_r in *. rewrite decide_False by done. done.
    + destruct (span_elem p) as [s rest]. destruct IH as (-> & H1 & H2 & H3). simpl. split_ands; [done|by constructor|done|].
      intros cur _. rewrite (H3 (cur ++ [c])), <- app_assoc by (by destruct cur). done.
Qed.

(** What an element leaves in the array [name]. *)
Definition put_name (s name : list Z) : list Z :=
  if (DIRSIZ <=? length s)%nat then splice 0 (take DIRSIZ s) name else splice 0 (s ++ [0]) name.

Lemma skipelem_elems path name :
  match elems path with
  | [] => skipelem path name = None
  | s :: es => exists path', skipelem path name = Some (path', put_name s name) /\ elems path' = es /\
      head path' <> Some slash /\ (length path' < length path)%nat
  end.
Proof.
  destruct (skip_slashes_spec path) as (E & Hl & Hh). unfold skipelem. rewrite <- E.
  destruct (skip_slashes path) as [|c p] eqn:Ep; [done|]. simpl in Hh.
  assert (Hc : (c =? slash) = false) by (apply Z.eqb_neq; congruence).
  pose proof (span_elem_spec (c :: p)) as Hs. destruct (span_elem (c :: p)) as [s rest] eqn:Es.
  destruct Hs as (Eq & _ & _ & H3). destruct s as [|c' s]; [simpl in Es; rewrite Hc in Es; by destruct (span_elem p)|].
  unfold elems. rewrite (H3 []) by done. cbn [app]. destruct (skip_slashes_spec rest) as (E2 & Hl2 & Hh2).
  exists (skip_slashes rest). split_ands; [done|done|done|]. rewrite Eq, length_app in Hl. simpl in Hl. lia.
Qed.

Lemma elems_nil path : head path <> Some slash -> elems path = [] <-> path = [].
Proof.
  intros Hh. split; [|by intros ->]. destruct path as [|c p]; [done|]. intros E.
  assert (Hc : (c =? slash) = false) by (apply Z.eqb_neq; intros ->; by apply Hh).
  pose proof (skipelem_elems (c :: p) []) as H. rewrite E in H. unfold skipelem in H. cbn [skip_slashes] in H.
  rewrite Hc in H. by destruct (span_elem (c :: p)).
Qed.

Lemma cname_app n s l : Forall (fun c => c <> 0) s -> (length s < n)%nat -> cname n (s ++ 0 :: l) = s.
Proof.
  revert n. induction s as [|c s IH]; intros n Hs Hn; (destruct n as [|n]; simpl in Hn; [lia|]); [done|].
  inversion_clear Hs. simpl. rewrite (proj2 (Z.eqb_neq _ _)) by done. f_equal. apply IH; [done|lia].
Qed.

Lemma cname_full n s l : Forall (fun c => c <> 0) s -> (n <= length s)%nat -> cname n (take n s ++ l) = take n s.
Proof.
  revert n. induction s as [|c s IH]; intros [|n] Hs Hn; simpl in *; try done; [lia|].
  inversion_clear Hs. rewrite (proj2 (Z.eqb_neq _ _)) by done. f_equal. apply IH; [done|lia].
Qed.

(** The array then holds the element, or as much of it as a directory can hold. *)
Lemma put_name_ok s name :
  Forall (fun c => c <> 0) s -> length name = DIRSIZ ->
  dname (put_name s name) = take DIRSIZ s /\ length (put_name s name) = DIRSIZ.
Proof.
  intros Hs Hl. unfold put_name, dname, splice. rewrite take_0, app_nil_l, app_nil_l.
  destruct (Nat.leb_spec DIRSIZ (length s)) as [H|H].
  - rewrite cname_full by done. split; [done|]. rewrite length_app, length_drop, length_take. lia.
  - rewrite <- app_assoc. cbn [app]. rewrite cname_app by done. rewrite take_ge by lia. split; [done|].
    rewrite !length_app. cbn [length]. rewrite length_drop. lia.
Qed.

Lemma elems_bytes P path cur : Forall P path -> Forall P cur -> Forall (Forall P) (split_path cur path).
Proof.
  revert cur. induction path as [|c p IH]; intros cur Hp Hc; simpl.
  - destruct (decide (cur = [])); [constructor|by constructor].
  - inversion_clear Hp. destruct (c =? slash); [destruct (decide (cur = []))|].
    + by apply IH.
    + constructor; [done|by apply IH].
    + apply IH; [done|]. apply Forall_app. split; [done|by constructor].
Qed.

(** [namex] over the list of the elements. *)
Fixpoint walk_path (es : list (list Z)) (ip : nat) (nameiparent : bool) (name : list Z) : K (option nat * list Z) :=
  match es with
  | [] => if nameiparent then iput ip ;* M_ret (None, name) else M_ret (Some ip, name)
  | s :: es =>
      let name := put_name s name in
      ilock ip ;*
      let* d := get_inode ip in
      if negb (i_type d =? T_DIR) then iunlockput ip ;* M_ret (None, name) else
      if nameiparent && bool_decide (es = []) then iunlock ip ;* M_ret (Some ip, name) else
      let* next := dirlookup ip name in
      match next with
      | None => iunlockput ip ;* M_ret (None, name)
      | Some (next, _) => iunlockput ip ;* walk_path es next nameiparent name
      end
  end.

Lemma bind_ext {A B} (m : K A) (f g : A -> K B) k : (forall a k', f a k' = g a k') -> M_bind m f k = M_bind m g k.
Proof. intros H. unfold M_bind. destruct (m k); congruence. Qed.

Lemma namex_loop_walk fuel ip path par name k :
  (length path < fuel)%nat -> namex_loop fuel ip path par name k = walk_path (elems path) ip par name k.
Proof.
  revert ip path name k. induction fuel as [|fuel IH]; intros ip path name k Hf; [lia|]. cbn [namex_loop].
  pose proof (skipelem_elems path name) as H. destruct (elems path) as [|s es]; [by rewrite H|].
  destruct H as (path' & -> & He & Hh & Hl). cbn [walk_path]. apply bind_ext. intros _ k1. apply bind_ext. intros d k2.
  destruct (negb (i_type d =? T_DIR)); [done|].
  assert ((length path' =? 0)%nat = bool_decide (es = [])) as ->.
  { pose proof (elems_nil path' Hh) as Hn. rewrite He in Hn. apply eq_true_iff_eq.
    rewrite bool_decide_eq_true, Nat.eqb_eq, length_zero_iff_nil. tauto. }
  destruct (par && bool_decide (es = [])); [done|]. apply bind_ext. intros [[next off]|] k3; [|done].
  apply bind_ext. intros _ k4. rewrite IH by lia. by rewrite He.
Qed.

(** ** Lemmas: directories *)

Lemma dirent_offs_lookup size j off :
  dirent_offs size !! j = Some off <-> off = Z.of_nat j * 16 /\ (j < Z.to_nat ((size + 15) / 16))%nat.
Proof.
  unfold dirent_offs. rewrite list_lookup_fmap. split.
  - destruct (seq 0 _ !! j) as [i|] eqn:E; [|done]. apply lookup_seq in E as [-> Hi]. simpl. by intros [= <-].
  - intros [-> Hj]. by rewrite lookup_seq_lt.
Qed.

Lemma dirent_offs_bound size off :
  0 <= size -> size mod 16 = 0 -> off ∈ dirent_offs size -> 0 <= off /\ off + 16 <= size /\ off mod 16 = 0.
Proof.
  intros Hs Hm [j [-> Hj]%dirent_offs_lookup]%list_elem_of_lookup. rewrite Z.mod_mul by lia.
  pose proof (Z.div_mod size 16). assert ((size + 15) / 16 = size / 16) as E.
  { replace (size + 15) with (15 + size / 16 * 16) by lia. rewrite Z.div_add by lia. reflexivity. }
  rewrite E in Hj. lia.
Qed.

Lemma fbytes_byte V addrs off n : blocks_ok V -> Forall byte (fbytes V addrs off n).
Proof.
  intros HV. apply Forall_fmap, Forall_forall. intros i _. unfold fbyte, compose. destruct (HV (faddr V addrs ((off + Z.of_nat i) / BSIZE))) as [Hl Hb].
  apply (Forall_lookup_1 _ _ (Z.to_nat ((off + Z.of_nat i) mod BSIZE)) _ Hb). apply list_lookup_lookup_total_lt.
  pose proof (Z.mod_pos_bound (off + Z.of_nat i) BSIZE eq_refl). lia.
Qed.

Lemma entry_name_byte V addrs off : blocks_ok V -> Forall byte (de_name (dir_entry V addrs off)).
Proof. intros HV. apply Forall_slice. by apply fbytes_byte. Qed.

Lemma wp_read_dirent k me pr V W i ip off msg Q :
  open_dir k me pr V W i ip -> off ∈ dirent_offs (i_size ip) ->
  (forall k', txn k' me pr V W ∅ -> inode_frame me (fun _ => False) k k' -> Q (dir_entry V (i_addrs ip) off) k') ->
  wp (read_dirent i off msg) Q k.
Proof.
  intros [[O1 O2 O3 O4 O5 O6 O7 O8 O9] Ht Hw Hf] Hoff HQ.
  destruct (dirent_offs_bound _ _ (proj1 O5) Hw Hoff) as (B1 & B2 & _).
  assert (HM : MAXFILE * BSIZE = 274432) by done.
  unfold read_dirent. wp_steps. eapply wp_readi_local; try done; [apply O7|lia|].
  intros k' T' N'. assert (read_len (i_size ip) off 16 = 16) as ->.
  { unfold read_len, u32. rewrite Z.mod_small by lia. rewrite !(proj2 (Z.ltb_ge _ _)) by lia. simpl. lia. }
  cbn [fst Z.eqb Pos.eqb negb snd]. wp_steps. by apply HQ.
Qed.

Lemma open_dir_frame k k' me pr V W i ip :
  open_dir k me pr V W i ip -> txn k' me pr V W ∅ -> inode_frame me (fun _ => False) k k' -> open_dir k' me pr V W i ip.
Proof.
  intros [[O1 O2 O3 O4 O5 O6 O7 O8 O9] Ht Hw Hf] T' N. pose proof (nf_sb _ _ _ _ N) as Es.
  constructor; [|done..]. constructor; rewrite ?Es; try done. by rewrite (nf_itable _ _ _ _ N i id).
Qed.

Lemma wp_dirlookup k me pr V W i ip name Q :
  open_dir k me pr V W i ip -> Forall byte name -> (length name <= 16)%nat ->
  match dir_find V ip name with
  | None => forall k', txn k' me pr V W ∅ -> inode_frame me (fun _ => False) k k' -> Q None k'
  | Some (inum, off) =>
      (exists j x, k_itable k !! j = Some x /\ (i_ref x = 0 \/ for_inode ROOTDEV inum x)) /\
      forall k' j x, txn k' me pr V W ∅ -> igot (k_itable k) ROOTDEV inum j x -> k_itable k' = <[j := x]> (k_itable k) ->
        inode_frame me (fun l => l = j) k k' -> (forall l, c_sleep (k_core k') (SInode l) = c_sleep (k_core k) (SInode l)) ->
        Q (Some (j, off)) k'
  end -> wp (dirlookup i name) Q k.
Proof.
  intros HD Hb Hl HQ. pose proof HD as [[O1 O2 O3 O4 O5 O6 O7 O8 O9] Ht Hw Hf]. unfold dirlookup. wp_steps.
  eapply wp_get_inode; [exact O2|]. rewrite Ht. cbn [Z.eqb T_DIR Pos.eqb negb]. change (negb (T_DIR =? T_DIR)) with false. cbv iota.
  unfold dir_find in HQ. set (offs := dirent_offs (i_size ip)) in *. set (P := entry_for V (i_addrs ip) name) in *.
  apply (wp_for_find _ _ (fun n k' => txn k' me pr V W ∅ /\ inode_frame me (fun _ => False) k k' /\
    forall j off, (j < n)%nat -> offs !! j = Some off -> ~ P off)).
  - split_ands; [done|apply inode_frame_refl|lia].
  - intros n off k' Hn (T' & N' & Hno). wp_steps. pose proof (open_dir_frame _ _ _ _ _ _ _ _ HD T' N') as HD'.
    eapply wp_read_dirent; [exact HD'|by eapply list_elem_of_lookup_2|]. intros k2 T2 N2.
    pose proof (inode_frame_trans _ _ _ _ _ N' N2) as N12.
    pose proof (namecmp_dname name _ Hb (entry_name_byte V (i_addrs ip) off (fk_blocks _ _ O7)) Hl) as Hcmp.
    assert (Hskip : ~ P off -> txn k2 me pr V W ∅ /\ inode_frame me (fun _ => False) k k2 /\
      forall j off, (j < S n)%nat -> offs !! j = Some off -> ~ P off).
    { intros HP. split_ands; [done|done|]. intros j off' Hj Hoff. destruct (decide (j = n)) as [->|]; [congruence|]. apply (Hno j); [lia|done]. }
    destruct (Z.eqb_spec (de_inum (dir_entry V (i_addrs ip) off)) 0) as [E0|E0]; [wp_steps; apply Hskip; intros [HP _]; by apply HP|].
    destruct (Z.eqb_spec (namecmp name (de_name (dir_entry V (i_addrs ip) off))) 0) as [E1|E1]; [|wp_steps; apply Hskip; intros [_ E]; apply E1, Hcmp; done].
    assert (HP : P off) by (split; [done|symmetry; by apply Hcmp]).
    assert (Ef : list_find P offs = Some (n, off)) by (apply list_find_Some; split_ands; [done|done|]; intros j y Hy Hj; by apply (Hno j)).
    rewrite Ef in HQ. cbn [fmap option_fmap option_map snd] in HQ. destruct HQ as [Hslot HQ].
    assert (Ei : k_itable k2 = k_itable k).
    { apply list_eq. intros j. exact (nf_itable _ _ _ _ N12 j id). }
    wp_steps. eapply wp_get_inode; [rewrite Ei; exact O2|]. rewrite O3. wp_steps.
    eapply (wp_iget k2 me pr V W ∅); [exact T2|by rewrite Ei|]. intros k3 j x T3 G3 E3 N3 S3. wp_steps. rewrite Ei in *.
    apply (HQ k3 j x); try done; [|intros l; rewrite S3; exact (nf_locks _ _ _ _ N12 l id)].
    eapply inode_frame_trans; [|exact N3]. destruct N12. constructor; try done.
    + intros l _. exact (nf_locks l id).
    + intros l _. exact (nf_itable l id).
  - intros k' (T' & N' & Hno). assert (list_find P offs = None) as E.
    { apply list_find_None, Forall_lookup. intros j off Hj. apply (Hno j); [by eapply lookup_lt_Some|done]. }
    rewrite E in HQ. by apply HQ.
Qed.

(** *** A new entry *)

Lemma ld_st_dirent x nm : 0 <= x < 2 ^ 16 -> length nm = DIRSIZ -> ld_dirent (st_dirent (mkDirent x nm)) = mkDirent x nm.
Proof.
  intros Hx Hn. unfold ld_dirent, st_dirent, get_ushort, slice. cbn [de_inum de_name].
  assert (Hl : length (le_split 2 x) = 2%nat) by (by rewrite length_le_split).
  rewrite drop_0, take_app_le, take_ge, le_join_split by lia. rewrite Z.mod_small by (simpl; lia).
  rewrite drop_app_length' by done. by rewrite take_ge by lia.
Qed.

Lemma st_dirent_ok x nm :
  Forall byte nm -> length nm = DIRSIZ -> Forall byte (st_dirent (mkDirent x nm)) /\ length (st_dirent (mkDirent x nm)) = 16%nat.
Proof.
  intros Hb Hn. unfold st_dirent. cbn [de_inum de_name]. split.
  - apply Forall_app. split; [apply le_split_byte|done].
  - rewrite length_app, length_le_split, Hn. done.
Qed.

Lemma list_find_iff {A} (P Q : A -> Prop) `{!forall x, Decision (P x)} `{!forall x, Decision (Q x)} l :
  (forall x, x ∈ l -> P x <-> Q x) -> list_find P l = list_find Q l.
Proof.
  induction l as [|y l IH]; intros Hpq; [done|]. simpl. rewrite IH by (intros x Hx; apply Hpq; by right).
  pose proof (Hpq y ltac:(by left)). destruct (decide (P y)), (decide (Q y)); try done; tauto.
Qed.

Lemma list_find_snoc {A} (P : A -> Prop) `{!forall x, Decision (P x)} l y :
  ~ P y -> list_find P (l ++ [y]) = list_find P l.
Proof. intros Hy. induction l as [|z l IH]; simpl; [by rewrite decide_False|]. destruct (decide (P z)); [done|]. by rewrite IH. Qed.

Lemma dir_slot_bound V ip : 0 <= i_size ip -> i_size ip mod 16 = 0 -> dir_slot V ip mod 16 = 0 /\ 0 <= dir_slot V ip.
Proof.
  intros Hsz Hw. unfold dir_slot. destruct (list_find _ _) as [[j o']|] eqn:E; [|done]. apply list_find_Some in E as (E1 & _).
  destruct (dirent_offs_bound _ _ Hsz Hw (list_elem_of_lookup_2 _ _ _ E1)) as (? & ? & ?). done.
Qed.

(** The directory after an entry was written into an unused slot or at its end. *)
Section new_entry.
Context (V V' : Z -> list Z) (ip ip' : inode) (name : list Z) (inum : Z).
Let off := dir_slot V ip.
Context (Hsz : 0 <= i_size ip) (Hw : i_size ip mod 16 = 0) (Hinum : 0 < inum < 2 ^ 16) (Hb : Forall byte name).
Context (Hnew : fbytes V' (i_addrs ip') off 16 = st_dirent (mkDirent inum (name_field name))).
Context (Hold : forall x, 0 <= x < i_size ip -> ~ off <= x < off + 16 -> fbyte V' (i_addrs ip') x = fbyte V (i_addrs ip) x).
Context (Hsize : i_size ip' = Z.max (off + 16) (i_size ip)).

Lemma slot_cases :
  (off ∈ dirent_offs (i_size ip) /\ de_inum (dir_entry V (i_addrs ip) off) = 0 /\ dirent_offs (i_size ip') = dirent_offs (i_size ip)) \/
  (off ∉ dirent_offs (i_size ip) /\ dirent_offs (i_size ip') = dirent_offs (i_size ip) ++ [off]).
Proof.
  unfold off, dir_slot in *. destruct (list_find _ _) as [[j o]|] eqn:E.
  - left. apply list_find_Some in E as (E1 & E2 & _). pose proof (list_elem_of_lookup_2 _ _ _ E1) as Hin.
    destruct (dirent_offs_bound _ _ Hsz Hw Hin) as (B1 & B2 & _). split_ands; [done|done|]. f_equal. lia.
  - right. split.
    + intros Hin. destruct (dirent_offs_bound _ _ Hsz Hw Hin). lia.
    + rewrite Hsize, Z.max_l by lia. unfold dirent_offs. pose proof (Z.div_mod (i_size ip) 16).
      assert ((i_size ip + 16 + 15) / 16 = i_size ip / 16 + 1) as ->.
      { replace (i_size ip + 16 + 15) with (15 + (i_size ip / 16 + 1) * 16) by lia. rewrite Z.div_add by lia. reflexivity. }
      assert ((i_size ip + 15) / 16 = i_size ip / 16) as ->.
      { replace (i_size ip + 15) with (15 + i_size ip / 16 * 16) by lia. rewrite Z.div_add by lia. reflexivity. }
      rewrite Z2Nat.inj_add, seq_app, fmap_app by lia. f_equal. simpl. f_equal. lia.
Qed.

Lemma entry_new : dir_entry V' (i_addrs ip') off = mkDirent inum (name_field name).
Proof.
  destruct (name_field_ok name Hb) as (_ & Hl & _). unfold dir_entry. rewrite Hnew. apply ld_st_dirent; [lia|done].
Qed.

Lemma entry_old o : o ∈ dirent_offs (i_size ip) -> o <> off -> dir_entry V' (i_addrs ip') o = dir_entry V (i_addrs ip) o.
Proof.
  intros Ho Hne. destruct (dirent_offs_bound _ _ Hsz Hw Ho) as (B1 & B2 & B3). unfold dir_entry. f_equal.
  destruct (dir_slot_bound V ip Hsz Hw) as [Ho2 Ho3]. fold off in Ho2, Ho3.
  unfold fbytes. apply list_fmap_ext. intros i j [-> Hi]%lookup_seq. apply Hold; [lia|].
  pose proof (Z.div_mod o 16). pose proof (Z.div_mod off 16). intros Hx. apply Hne. lia.
Qed.

Lemma dir_find_new name' :
  dir_find V ip name = None ->
  dir_find V' ip' name' = if decide (dname name' = dname name) then Some (inum, off) else dir_find V ip name'.
Proof.
  intros Hnone. unfold dir_find in *. destruct (name_field_ok name Hb) as (Hf & _ & _). pose proof entry_new as En.
  set (P := entry_for V (i_addrs ip)) in *. set (P' := entry_for V' (i_addrs ip')).
  assert (Hoff : forall n, P' n off <-> dname n = dname name).
  { intros n. unfold P', entry_for. rewrite En. cbn [de_inum de_name]. rewrite Hf. split; [by intros [_ ->]|]. intros ->. split; [lia|done]. }
  assert (Hiff : forall n o, o ∈ dirent_offs (i_size ip) -> o <> off -> P' n o <-> P n o).
  { intros n o Ho Hne. unfold P', P, entry_for. by rewrite (entry_old o Ho Hne). }
  assert (Hno : forall o, o ∈ dirent_offs (i_size ip) -> ~ P name o).
  { destruct (list_find (P name) _) as [[]|] eqn:E; [done|]. apply list_find_None in E. intros o Ho. rewrite Forall_forall in E. by apply E. }
  destruct (decide (dname name' = dname name)) as [Ed|Ed].
  - assert (exists j, list_find (P' name') (dirent_offs (i_size ip')) = Some (j, off)) as [j ->].
    { assert (Hin : off ∈ dirent_offs (i_size ip')).
      { destruct slot_cases as [(? & _ & ->)|[_ ->]]; [done|]. apply elem_of_app. right. by left. }
      destruct (list_find (P' name') (dirent_offs (i_size ip'))) as [[j o]|] eqn:E.
      - exists j. apply list_find_Some in E as (E1 & E2 & _). do 2 f_equal. destruct (decide (o = off)) as [|Hne]; [done|]. exfalso.
        assert (Ho : o ∈ dirent_offs (i_size ip)).
        { apply list_elem_of_lookup_2 in E1. destruct slot_cases as [(_ & _ & Eq)|[_ Eq]]; rewrite Eq in E1; [done|].
          apply elem_of_app in E1 as [?|?%list_elem_of_singleton]; done. }
        apply (Hno o Ho). apply Hiff in E2; [|done..]. destruct E2. split; congruence.
      - apply list_find_None in E. rewrite Forall_forall in E. exfalso. apply (E off Hin). by apply Hoff. }
    cbn [fmap option_fmap option_map snd]. by rewrite En.
  - assert (Hoff' : ~ P' name' off) by (by rewrite Hoff).
    assert (E : list_find (P' name') (dirent_offs (i_size ip')) = list_find (P name') (dirent_offs (i_size ip))).
    { destruct slot_cases as [(_ & Hz & ->)|[Hni ->]]; [|rewrite list_find_snoc by done]; apply list_find_iff; intros o Ho.
      - destruct (decide (o = off)) as [->|Hne]; [|by apply Hiff]. split; [done|]. by intros [].
      - apply Hiff; [done|]. congruence. }
    rewrite E. destruct (list_find (P name') (dirent_offs (i_size ip))) as [[j o]|] eqn:E2; [|done].
    apply list_find_Some in E2 as (F1 & F2 & _). apply list_elem_of_lookup_2 in F1. cbn [fmap option_fmap option_map snd]. rewrite (entry_old o F1); [done|].
    intros ->. destruct slot_cases as [(_ & Hz & _)|[Hni _]]; [by destruct F2|done].
Qed.
End new_entry.

Lemma wp_find_slot {k me pr V W i ip msg} Q :
  open_dir k me pr V W i ip ->
  (forall r k', txn k' me pr V W ∅ -> inode_frame me (fun _ => False) k k' ->
     match r with Some off => off | None => (i_size ip + 15) / 16 * 16 end = dir_slot V ip -> Q r k') ->
  wp (for_find (dirent_offs (i_size ip)) (fun off =>
        let* de := read_dirent i off msg in
        M_ret (if de_inum de =? 0 then Some off else None))) Q k.
Proof.
  intros HD HQ. pose proof HD as [[_ _ _ _ O5 _ _ _ _] _ Hw _]. unfold dir_slot in HQ. set (offs := dirent_offs (i_size ip)) in *.
  set (P := fun off => de_inum (dir_entry V (i_addrs ip) off) = 0) in *.
  apply (wp_for_find _ _ (fun n k' => txn k' me pr V W ∅ /\ inode_frame me (fun _ => False) k k' /\
    forall j off, (j < n)%nat -> offs !! j = Some off -> ~ P off)).
  - split_ands; [apply HD|apply inode_frame_refl|lia].
  - intros n off k' Hn (T' & N' & Hno). wp_steps. pose proof (open_dir_frame _ _ _ _ _ _ _ _ HD T' N') as HD'.
    eapply wp_read_dirent; [exact HD'|by eapply list_elem_of_lookup_2|]. intros k2 T2 N2. wp_steps.
    pose proof (inode_frame_trans _ _ _ _ _ N' N2) as N12.
    destruct (Z.eqb_spec (de_inum (dir_entry V (i_addrs ip) off)) 0) as [E0|E0].
    + apply HQ; [done|done|]. rewrite (proj2 (list_find_Some P offs n off)); [done|]. split_ands; [done|done|]. intros j y Hy Hj. by apply (Hno j).
    + split_ands; [done|done|]. intros j off' Hj Hoff. destruct (decide (j = n)) as [->|]; [congruence|]. apply (Hno j); [lia|done].
  - intros k' (T' & N' & Hno). apply HQ; [done|done|].
    rewrite (proj2 (list_find_None P offs)); [|apply Forall_lookup; intros j off Hj; apply (Hno j); [by eapply lookup_lt_Some|done]].
    pose proof (Z.div_mod (i_size ip) 16). replace (i_size ip + 15) with (15 + i_size ip / 16 * 16) by lia.
    rewrite Z.div_add by lia. change (15 / 16) with 0. lia.
Qed.

Lemma wp_dirlink k me pr V W i ip name inum Q :
  open_dir k me pr V W i ip -> Forall byte name -> (length name <= 16)%nat -> 0 < inum < 2 ^ 16 ->
  dir_find V ip name = None -> writable (k_sb k) V W ip (dir_slot V ip) 16 ->
  (forall k' V' ip', open_dir k' me pr V' W i ip' -> inode_frame me (fun j => j = i) k k' ->
     file_written k k' V V' ip ip' (dir_slot V ip) (st_dirent (mkDirent inum (name_field name))) ->
     (forall name', dir_find V' ip' name' =
        if decide (dname name' = dname name) then Some (inum, dir_slot V ip) else dir_find V ip name') -> Q 0 k') ->
  wp (dirlink i name inum) Q k.
Proof.
  intros HD Hb Hl Hi Hnone HW HQ. unfold dirlink. wp_steps. eapply wp_dirlookup; [exact HD|done|done|]. rewrite Hnone.
  intros k1 T1 N1. pose proof (open_dir_frame _ _ _ _ _ _ _ _ HD T1 N1) as HD1. pose proof HD1 as [[_ O2 _ _ O5 _ _ _ _] Ht Hw Hf].
  cbv iota. wp_steps. eapply wp_get_inode; [exact O2|]. wp_steps. apply (wp_find_slot _ HD1). intros r k2 T2 N2 ->. wp_steps.
  pose proof (open_dir_frame _ _ _ _ _ _ _ _ HD1 T2 N2) as HD2. pose proof (inode_frame_trans _ _ _ _ _ N1 N2) as N12.
  destruct (name_field_ok name Hb) as (_ & F2 & F3). unfold u16. rewrite Z.mod_small by lia.
  set (bs := st_dirent (mkDirent inum (name_field name))) in *.
  destruct (st_dirent_ok inum (name_field name) F3 F2) as [B1 B2]. fold bs in B1, B2.
  change 16 with (Z.of_nat 16) at 1. rewrite <- B2 at 1.
  eapply (open_writei _ _ _ _ _ _ _ _ _ _ (fun s l _ => s = FromLocal l)); try done.
  { intros s l k3 m. by apply local_source. }
  { apply HD2. }
  { rewrite B2, (nf_sb _ _ _ _ N12). exact HW. }
  intros k3 V' ip' O3 W3 N3 _. cbn [Z.eqb Pos.eqb negb]. rewrite B2. change (negb (Z.of_nat 16 =? 16)) with false. wp_steps.
  assert (W3' : file_written k k3 V V' ip ip' (dir_slot V ip) bs).
  { destruct W3. rewrite (nf_sb _ _ _ _ N12) in *. by constructor. }
  pose proof W3 as [W31 W32 W33 _ _ W36]. rewrite B2 in W31, W32, W33. change (Z.of_nat 16) with 16 in *.
  destruct (dir_slot_bound V ip (proj1 O5) Hw) as [S1 S2].
  apply (HQ k3 V' ip'); [| |done|].
  - constructor; [done|by rewrite W36| |done]. rewrite W33.
    destruct (Z.max_spec (dir_slot V ip + 16) (i_size ip)) as [[_ ->]|[_ ->]]; [done|].
    replace (dir_slot V ip + 16) with (dir_slot V ip + 1 * 16) by lia. by rewrite Z.mod_add.
  - eapply inode_frame_trans; [|exact N3]. destruct N12. constructor; try done.
    + intros l _. exact (nf_locks l id).
    + intros l _. exact (nf_itable l id).
  - intros name'. apply (dir_find_new V V' ip ip' name inum (proj1 O5)); done.
Qed.

(** ** Properties *)

(** [skipelem] takes the elements of a path one by one.  Of a path with no element
    left it returns 0; otherwise it returns a shorter path with the other elements,
    without slashes in front and so empty exactly when there are none, and leaves in
    [name] the first element, cut to [DIRSIZ] bytes. *)
Theorem skipelem_correct path name :
  Forall (fun c => c <> 0) path -> length name = DIRSIZ ->
  match elems path with
  | [] => skipelem path name = None
  | s :: es => exists path' name', skipelem path name = Some (path', name') /\ elems path' = es /\
      (path' = [] <-> es = []) /\ (length path' < length path)%nat /\
      dname name' = take DIRSIZ s /\ length name' = DIRSIZ
  end.
Proof.
  intros Hp Hn. pose proof (skipelem_elems path name) as H. pose proof (elems_bytes _ path [] Hp ltac:(constructor)) as Hb.
  fold (elems path) in Hb. destruct (elems path) as [|s es]; [done|]. destruct H as (path' & E & He & Hh & Hl).
  inversion_clear Hb. destruct (put_name_ok s name ltac:(done) Hn) as [P1 P2].
  exists path', (put_name s name). split_ands; try done. pose proof (elems_nil path' Hh) as H'. rewrite He in H'. tauto.
Qed.

Lemma skipelem_correct_witness :
  exists path' name', skipelem [47; 47; 97; 47; 47; 98; 98] (replicate DIRSIZ 7) = Some (path', name') /\ dname name' = [97].
Proof.
  destruct (skipelem_correct [47; 47; 97; 47; 47; 98; 98] (replicate DIRSIZ 7) ltac:(repeat constructor; discriminate) eq_refl)
    as (path' & name' & E & _ & _ & _ & Hd & _).
  exists path', name'. exact (conj E Hd).
Defined.

(** [namex] ends, whatever the path and the file system: it is the walk over the
    finite list of the elements of the path, one lookup for each, that stops before the
    last element when the parent is asked for. *)
Theorem namex_walks path par name k :
  namex path par name k =
  (let* ip :=
     (if match path with c :: _ => c =? slash | [] => false end then iget ROOTDEV ROOTINO
      else let* p := curproc in
           let* pr := get_proc p in
           let* cwd := of_opt (p_cwd pr) in
           idup cwd) in
   walk_path (elems path) ip par name) k.
Proof. unfold namex. apply bind_ext. intros ip k'. apply namex_loop_walk. lia. Qed.

(** [dirlookup] finds the entry of a directory for a name: the first one in use
    whose name is that name, as far as [DIRSIZ] bytes go.  It returns the entry of the
    inode table for that inode, the one it had or a new one, with one more reference, and
    the offset in the directory; it returns 0 when there is no such entry, and then
    changes nothing. *)
Theorem dirlookup_correct k me pr V W i ip name :
  open_dir k me pr V W i ip -> Forall byte name -> (length name <= 16)%nat ->
  match dir_find V ip name with
  | None => wp (dirlookup i name) (fun r k' => r = None /\ txn k' me pr V W ∅ /\ inode_frame me (fun _ => False) k k') k
  | Some (inum, off) =>
      (exists j x, k_itable k !! j = Some x /\ (i_ref x = 0 \/ for_inode ROOTDEV inum x)) ->
      wp (dirlookup i name) (fun r k' => exists j x, r = Some (j, off) /\ igot (k_itable k) ROOTDEV inum j x /\
        k_itable k' = <[j := x]> (k_itable k) /\ txn k' me pr V W ∅ /\ inode_frame me (fun l => l = j) k k') k
  end.
Proof.
  intros HD Hb Hl. destruct (dir_find V ip name) as [[inum off]|] eqn:E.
  - intros Hslot. eapply wp_dirlookup; [done..|]. rewrite E. split; [done|]. intros k' j x. eauto 10.
  - eapply wp_dirlookup; [done..|]. by rewrite E.
Qed.

(** A directory with one entry, and an empty one. *)
Lemma sample_dir d size addrs :
  fs_ok sample_sb d -> file_ok sample_sb d addrs -> 0 <= size <= MAXFILE * BSIZE -> has_bytes d addrs 0 size -> size mod 16 = 0 ->
  open_dir (file_kernel d (sample_entry T_DIR size addrs)) 0 first_proc d sample_writes 0 (sample_entry T_DIR size addrs).
Proof.
  intros Hd Hf Hs Hh Hm. constructor; [|done|done|by rewrite sample_writes_size; unfold NBUF; lia].
  apply sample_open; try done. apply sample_writes_ok.
Qed.

Lemma dirlookup_correct_witness :
  exists r k', dirlookup 0 [10] (set_k_itable (fun t => t ++ [zero_inode]) (file_kernel file_disk (sample_entry T_DIR 16 file_addrs))) = Ok r k' /\
    snd <$> r = Some 0.
Proof.
  assert (H47 : forallb (fun i => used sample_sb file_disk (Z.of_nat i)) (seq 0 47) = true) by (vm_compute; reflexivity).
  assert (Hh : has_bytes file_disk file_addrs 0 16).
  { intros x Hx. assert (x / BSIZE = 0) as -> by (apply Z.div_small; unfold BSIZE; lia). by vm_compute. }
  set (k := set_k_itable _ _).
  assert (HD : open_dir k 0 first_proc file_disk sample_writes 0 (sample_entry T_DIR 16 file_addrs)).
  { destruct (sample_dir file_disk 16 file_addrs (sample_fs_ok _ 47 file_disk_ok ltac:(lia) H47) file_addrs_ok (small_size 16 ltac:(lia)) Hh eq_refl)
      as [[O1 O2 O3 O4 O5 O6 O7 O8 O9] Ht Hw Hf]. constructor; [|done..]. constructor; try done. by apply tx_inodes. }
  pose proof (dirlookup_correct k 0 first_proc file_disk sample_writes 0 (sample_entry T_DIR 16 file_addrs) [10] HD
    ltac:(repeat constructor; lia) ltac:(simpl; lia)) as H.
  assert (E : dir_find file_disk (sample_entry T_DIR 16 file_addrs) [10] = Some (26984, 0)) by (vm_compute; reflexivity).
  rewrite E in H. destruct (wp_ok _ _ _ (H ltac:(exists 1%nat, zero_inode; split; [reflexivity|left; reflexivity]))) as (r & k' & Ek & j & x & -> & _).
  exists (Some (j, 0)), k'. exact (conj Ek eq_refl).
Defined.

(** C11: a directory is a map from names to inode numbers, and [dirlink] adds a name to
    it.  For a name that is not in the directory it returns 0, and in the directory it
    leaves, still one whose size is a whole number of entries, looking up that name gives
    the new number and looking up any other name gives what it gave before. *)
Theorem dirlink_correct k me pr V W i ip name inum :
  open_dir k me pr V W i ip -> Forall byte name -> (length name <= 16)%nat -> 0 < inum < 2 ^ 16 ->
  dir_find V ip name = None -> writable (k_sb k) V W ip (dir_slot V ip) 16 ->
  wp (dirlink i name inum) (fun r k' => r = 0 /\
    exists V' ip', open_dir k' me pr V' W i ip' /\ inode_frame me (fun j => j = i) k k' /\
      forall name', dir_find V' ip' name' =
        if decide (dname name' = dname name) then Some (inum, dir_slot V ip) else dir_find V ip name') k.
Proof. intros. eapply wp_dirlink; [done..|]. eauto 10. Qed.

Lemma dirlink_correct_witness :
  exists k', dirlink 0 [46; 46] 7 (file_kernel map_disk (sample_entry T_DIR 0 no_addrs)) = Ok 0 k'.
Proof.
  assert (H46 : forallb (fun i => used sample_sb map_disk (Z.of_nat i)) (seq 0 46) = true) by (vm_compute; reflexivity).
  destruct (wp_ok _ _ _ (dirlink_correct (file_kernel map_disk (sample_entry T_DIR 0 no_addrs)) 0 first_proc map_disk
    sample_writes 0 (sample_entry T_DIR 0 no_addrs) [46; 46] 7
    (sample_dir _ 0 _ (sample_fs_ok _ 46 map_disk_ok ltac:(lia) H46) (no_addrs_ok _) (small_size 0 ltac:(lia)) ltac:(intros x Hx; lia) eq_refl)
    ltac:(repeat constructor; lia) ltac:(simpl; lia) ltac:(lia) eq_refl (empty_writable _ _ (or_intror eq_refl)))) as (r & k' & E & -> & _).
  exists k'. exact E.
Defined.
