(* ===== verification/Path.v ===== *)
(** * Path names: how the kernel resolves a path in the tree of directories (kernel/fs.c) *)

From S2P Require Import Prelude State Spin Sleep Bio Log Txn Strings Kalloc Vm FsBlock FsInode FsFile FsWrite FsDir.

(** ** Specification: the tree of the directories *)

(** The entry of the inode table for an inode, as far as its contents go. *)
Definition node (sb : superblock) (V : Z -> list Z) (n : Z) : inode :=
  loaded (disk_inode sb V n) (mkInode ROOTDEV n 1 0 0 0 0 0 0 []).

Definition node_type (sb : superblock) (V : Z -> list Z) (n : Z) : Z := di_type (disk_inode sb V n).

(** The inode number a directory has for a name *)
Definition node_find (sb : superblock) (V : Z -> list Z) (n : Z) (name : list Z) : option Z :=
  fst <$> dir_find V (node sb V n) name.

(** What a walk along the elements of a path gets to: the inode that has the path, or the
    directory of its last element. *)
Fixpoint resolve (sb : superblock) (V : Z -> list Z) (parent : bool) (n : Z) (es : list (list Z)) : option Z :=
  match es with
  | [] => if parent then None else Some n
  | s :: es =>
      if negb (node_type sb V n =? T_DIR) then None
      else if parent && bool_decide (es = []) then Some n
      else match node_find sb V n s with Some m => resolve sb V parent m es | None => None end
  end.

(** A set of inodes, with the entries of its directories. *)
Record tree (sb : superblock) (V : Z -> list Z) (S : Z -> Prop) : Prop := mkTree {
  tr_fs : fs_ok sb V;
  tr_range n : S n -> 0 <= n < sb_ninodes sb;
  tr_type n : S n -> node_type sb V n <> 0;
  tr_links n : S n -> di_nlink (disk_inode sb V n) <> 0;
  tr_file n : S n -> node_type sb V n = T_DIR -> file_ok sb V (di_addrs (disk_inode sb V n));
  tr_size n : S n -> node_type sb V n = T_DIR ->
    di_size (disk_inode sb V n) <= MAXFILE * BSIZE /\ di_size (disk_inode sb V n) mod 16 = 0;
  tr_bytes n : S n -> node_type sb V n = T_DIR -> has_bytes V (di_addrs (disk_inode sb V n)) 0 (di_size (disk_inode sb V n));
  tr_entry n name m : S n -> node_type sb V n = T_DIR -> node_find sb V n name = Some m -> S m
}.

(** How often [j] is in a list *)
Fixpoint times (j : nat) (own : list nat) : Z :=
  match own with
  | [] => 0
  | i :: own => (if decide (i = j) then 1 else 0) + times j own
  end.

(** ** Lemmas *)

Lemma i16_range x : - 2 ^ 15 <= i16 x < 2 ^ 15.
Proof.
  unfold i16, swrap. pose proof (Z.mod_pos_bound x (2 ^ 16) ltac:(lia)). change (16 - 1) with 15.
  destruct (Z.ltb_spec (x mod 2 ^ 16) (2 ^ 15)); lia.
Qed.

Lemma ld_dinode_ok n b : dinode_ok (ld_dinode n b).
Proof.
  constructor; cbn [ld_dinode di_type di_major di_minor di_nlink di_size di_addrs]; try apply i16_range.
  - apply get_uint_range.
  - unfold get_uints. by rewrite length_fmap, length_seq.
  - unfold get_uints. apply Forall_fmap, Forall_true. intros i. apply get_uint_range.
Qed.

Lemma dir_find_dname V ip ip' name name' :
  i_addrs ip = i_addrs ip' -> i_size ip = i_size ip' -> dname name = dname name' -> dir_find V ip name = dir_find V ip' name'.
Proof.
  intros E1 E2 E3. unfold dir_find. rewrite E1, E2. f_equal. apply list_find_iff. intros off. unfold entry_for. by rewrite E3.
Qed.

Lemma cname_take n s : Forall (fun c => c <> 0) s -> cname n s = take n s.
Proof.
  revert n. induction s as [|c s IH]; intros [|n] Hs; try done. apply Forall_cons in Hs as [Hc Hs]. simpl.
  rewrite (proj2 (Z.eqb_neq _ _)) by done. by rewrite IH.
Qed.

Lemma put_name_byte s name : Forall byte s -> Forall byte name -> Forall byte (put_name s name).
Proof.
  intros Hs Hn. unfold put_name, splice. case_match; repeat apply Forall_app_2; try apply Forall_take; try apply Forall_drop; try done.
  apply Forall_singleton. unfold byte. lia.
Qed.

Lemma times_nonneg j own : 0 <= times j own.
Proof. induction own as [|i own IH]; simpl; [done|]. case_decide; lia. Qed.

Lemma times_elem j own : j ∈ own -> 0 < times j own.
Proof.
  induction own as [|i own IH]; [by intros ?%elem_of_nil|]. intros [->|H]%elem_of_cons; simpl.
  - rewrite decide_True by done. pose proof (times_nonneg i own). lia.
  - apply IH in H. case_decide; lia.
Qed.

Lemma times_le j own : times j own <= Z.of_nat (length own).
Proof. induction own as [|i own IH]; simpl; [done|]. case_decide; lia. Qed.

(** The references that other processes have to the [n0] entries of the inode table leave
    two entries free. *)
Record spare (r0 : nat -> Z) (n0 : nat) : Prop := mkSpare {
  sp_refs j : 0 <= r0 j < 2 ^ 30;
  sp_free : exists i j, i <> j /\ (i < n0)%nat /\ (j < n0)%nat /\ r0 i = 0 /\ r0 j = 0
}.

Section walk.
Context (me : nat) (pr : proc) (sb : superblock) (V : Z -> list Z) (W : gset Z) (S_ : Z -> Prop).
Context (r0 : nat -> Z) (n0 : nat).
Hypothesis Htree : tree sb V S_.
Hypothesis Hfits : (size W < NBUF)%nat.
Hypothesis Hspare : spare r0 n0.

(** The process is in a transaction, has the references [own] to entries of the inode
    table and the lock of the entry [lk]; the entries agree with the disk. *)
Record walking (k : kernel) (own : list nat) (lk : option nat) : Prop := mkWalking {
  wa_txn : txn k me pr V W ∅;
  wa_sb : k_sb k = sb;
  wa_len : length (k_itable k) = n0;
  wa_free j : lk <> Some j -> sl_locked (c_sleep (k_core k) (SInode j)) = 0;
  wa_held j : lk = Some j -> ilocked k pr j;
  wa_refs j x : k_itable k !! j = Some x -> i_ref x = r0 j + times j own;
  wa_entry j x : k_itable k !! j = Some x -> 0 < i_ref x -> i_dev x = ROOTDEV -> S_ (i_inum x) -> i_valid x <> 0 ->
    dinode_of x = disk_inode sb V (i_inum x)
}.

(** The entry [j] is for the inode [n]. *)
Definition entry_is (k : kernel) (j : nat) (n : Z) : Prop :=
  exists x, k_itable k !! j = Some x /\ i_dev x = ROOTDEV /\ i_inum x = n.

(** The entries of [own] are for the same inodes as before. *)
Definition kept (own : list nat) (k k' : kernel) : Prop := forall j n, j ∈ own -> entry_is k j n -> entry_is k' j n.

Lemma kept_trans own k1 k2 k3 : kept own k1 k2 -> kept own k2 k3 -> kept own k1 k3.
Proof. intros H1 H2 j n Hj He. eauto. Qed.

Lemma walking_slot k own lk :
  walking k own lk -> (length own <= 1)%nat -> exists j x, k_itable k !! j = Some x /\ i_ref x = 0.
Proof.
  intros Hw Hl. destruct (sp_free _ _ Hspare) as (free1 & free2 & Hne & H1 & H2 & Hfree1 & Hfree2). rewrite <- (wa_len _ _ _ Hw) in H1, H2.
  destruct (lookup_lt_is_Some_2 _ _ H1) as [x1 E1], (lookup_lt_is_Some_2 _ _ H2) as [x2 E2].
  pose proof (wa_refs _ _ _ Hw _ _ E1) as R1. pose proof (wa_refs _ _ _ Hw _ _ E2) as R2. rewrite Hfree1 in R1. rewrite Hfree2 in R2.
  destruct own as [|i [|? ?]]; simpl in Hl, R1, R2; [by exists free1, x1; split; [|lia]| |lia].
  destruct (decide (i = free1)) as [->|].
  - exists free2, x2. split; [done|]. rewrite decide_False in R2 by done. lia.
  - exists free1, x1. split; [done|]. lia.
Qed.

(** [iget] of an inode of the tree *)
Lemma igot_walking k k' own lk n i x :
  walking k own lk -> (length own <= 1)%nat -> S_ n -> igot (k_itable k) ROOTDEV n i x ->
  k_itable k' = <[i := x]> (k_itable k) -> txn k' me pr V W ∅ -> k_sb k' = k_sb k ->
  (forall l, c_sleep (k_core k') (SInode l) = c_sleep (k_core k) (SInode l)) ->
  walking k' (i :: own) lk /\ entry_is k' i n /\ kept own k k'.
Proof.
  intros [w1 w2 w3 w4 w5 w6 w7] Hl Hn Hg Et HT Es Hs.
  assert (Hi : exists y, k_itable k !! i = Some y /\ i_ref x = i_ref y + 1 /\ i_dev x = ROOTDEV /\ i_inum x = n /\
    (0 < i_ref y -> i_dev y = ROOTDEV /\ i_inum y = n) /\
    (i_valid x <> 0 -> 0 < i_ref y /\ i_valid y <> 0 /\ dinode_of x = dinode_of y)).
  { destruct Hg as [y Hy (F1 & F2 & F3)|y Hno Hy Hz]; exists y.
    - pose proof (w6 _ _ Hy) as R. pose proof (sp_refs _ _ Hspare i). pose proof (times_le i own). cbn [i_ref i_dev i_inum i_valid set_i_ref].
      rewrite i32_small by lia. by split_ands.
    - cbn [i_ref i_dev i_inum i_valid set_i_valid set_i_ref set_i_inum set_i_dev]. rewrite Hz. split_ands; try done; lia. }
  destruct Hi as (y & Hy & R & D & I & Hsame & Hval). pose proof (lookup_lt_Some _ _ _ Hy) as Hlt.
  assert (Hx : k_itable k' !! i = Some x) by (rewrite Et; by apply list_lookup_insert_eq).
  assert (Ho : forall j, j <> i -> k_itable k' !! j = k_itable k !! j) by (intros j Hj; rewrite Et; by apply list_lookup_insert_ne).
  split; [constructor|split].
  - done.
  - congruence.
  - by rewrite Et, length_insert.
  - intros j Hj. rewrite Hs. by apply w4.
  - intros j Hj. unfold ilocked. rewrite Hs. by apply w5.
  - intros j z Hz. cbn [times]. destruct (decide (i = j)) as [<-|Hne].
    + replace z with x in * by congruence. rewrite R, (w6 _ _ Hy). lia.
    + rewrite Ho in Hz by done. rewrite (w6 _ _ Hz). lia.
  - intros j z Hz Hzr Hzd HzS Hzv. destruct (decide (i = j)) as [<-|Hne]; [|rewrite Ho in Hz by done; by eapply w7].
    replace z with x in * by congruence. destruct (Hval Hzv) as (V1 & V2 & ->). destruct (Hsame V1) as [E1 E2]. rewrite I, <- E2. apply (w7 i y); try done. by rewrite E2.
  - by exists x.
  - intros j m Hj (z & Hz & Dz & Iz). destruct (decide (i = j)) as [<-|Hne]; [|exists z; rewrite Ho by done; done].
    replace z with y in * by congruence. exists x. apply times_elem in Hj. pose proof (w6 _ _ Hy). pose proof (sp_refs _ _ Hspare i).
    destruct Hsame as [_ E]; [lia|]. split_ands; [done|done|congruence].
Qed.

Lemma wp_iget_walk k own n Q :
  walking k own None -> (length own <= 1)%nat -> S_ n ->
  (forall k' i, walking k' (i :: own) None -> entry_is k' i n -> kept own k k' -> Q i k') -> wp (iget ROOTDEV n) Q k.
Proof.
  intros Hw Hl Hn HQ. destruct (walking_slot _ _ _ Hw Hl) as (j & x & Hj & Hx).
  eapply (wp_iget k me pr V W ∅); [apply Hw|eauto|]. intros k' i y T' G E N C.
  destruct (igot_walking k k' own None n i y) as (H1 & H2 & H3); try done; [by rewrite (nf_sb _ _ _ _ N)|intros l; by rewrite C|].
  by apply (HQ k' i).
Qed.

(** An inode of the tree has links, so that [iput] only gives the reference back. *)
Lemma wp_iput_walk k own i n Q :
  walking k (i :: own) None -> (length own <= 1)%nat -> S_ n -> entry_is k i n ->
  (forall k', walking k' own None -> kept own k k' -> Q tt k') -> wp (iput i) Q k.
Proof.
  intros Hw Hl Hn (x & Hx & Dx & Ix) HQ. pose proof Hw as [w1 w2 w3 w4 w5 w6 w7]. destruct (tx_core _ _ _ _ _ _ w1) as [Hc Hp].
  pose proof (w6 _ _ Hx) as R. cbn [times] in R. rewrite decide_True in R by done. pose proof (sp_refs _ _ Hspare i). pose proof (times_nonneg i own). pose proof (times_le i own).
  unfold iput. wp_steps. eapply wp_acquire; [exact Hc|simpl; lia|set_solver|]. intros c1 C1 S1. wp_steps.
  eapply wp_get_inode; [exact Hx|]. replace ((i_ref x =? 1) && truthy (i_valid x) && (i_nlink x =? 0)) with false.
  2: { symmetry. destruct (Z.eqb_spec (i_valid x) 0) as [E|E]; [unfold truthy; rewrite E; by rewrite andb_false_r|].
    assert (En : i_nlink x = di_nlink (disk_inode sb V n)).
    { assert (Ed : dinode_of x = disk_inode sb V n) by (rewrite <- Ix; apply (w7 i); try done; [lia|by rewrite Ix]). by rewrite <- Ed. }
    rewrite En, (proj2 (Z.eqb_neq (di_nlink _) 0)) by (by apply (tr_links _ _ _ Htree)). apply andb_false_r. }
  cbn [when]. wp_steps. eapply wp_upd_inode; [exact Hx|]. wp_steps.
  eapply wp_release; [exact C1|]. intros c2 C2 S2. simpl in S2. pose proof (same_but_locks_trans _ _ _ S1 S2) as S12.
  set (k' := with_core _ c2).
  assert (Ey : k_itable k' !! i = Some (set_i_ref (fun r => i32 (r - 1)) x)) by (simpl; by rewrite list_lookup_alter_eq, Hx).
  assert (Eo : forall j, j <> i -> k_itable k' !! j = k_itable k !! j) by (intros j Hj; simpl; apply list_lookup_alter_ne; congruence).
  assert (Er : i32 (i_ref x - 1) = r0 i + times i own) by (rewrite i32_small by lia; lia).
  apply HQ.
  - constructor.
    + change (txn (set_k_itable (alter (set_i_ref (fun r => i32 (r - 1))) i) (with_core k c2)) me pr V W ∅). apply tx_inodes.
      apply tx_locks; [done|done|by apply same_core_frame|]. intros j. by rewrite (sb_sleep _ _ S12).
    + done.
    + simpl. by rewrite length_alter.
    + intros j Hj. simpl. rewrite (sb_sleep _ _ S12). by apply w4.
    + done.
    + intros j y Hy. destruct (decide (j = i)) as [->|Hne]; [rewrite Ey in Hy; injection Hy as <-; exact Er|].
      rewrite Eo in Hy by done. pose proof (w6 _ _ Hy) as Rj. cbn [times] in Rj. by rewrite decide_False in Rj by done.
    + intros j y Hy Hyr Hyd HyS Hyv. destruct (decide (j = i)) as [->|Hne]; [|rewrite Eo in Hy by done; by eapply w7].
      rewrite Ey in Hy. injection Hy as <-. change (dinode_of x = disk_inode sb V (i_inum x)). apply (w7 i); try done. lia.
  - intros j m _ (y & Hy & Dy & Iy). destruct (decide (j = i)) as [->|Hne]; [|exists y; rewrite Eo by done; done].
    rewrite Hx in Hy. injection Hy as <-. eexists. split; [exact Ey|done].
Qed.

(** A locked inode: its entry has the contents of the inode on disk. *)
Definition opened (k : kernel) (i : nat) (n : Z) : Prop :=
  exists x, k_itable k !! i = Some x /\ i_dev x = ROOTDEV /\ i_inum x = n /\ dinode_of x = disk_inode sb V n.

Lemma wp_ilock_walk k own i n Q :
  walking k own None -> i ∈ own -> S_ n -> entry_is k i n ->
  (forall k', walking k' own (Some i) -> opened k' i n -> kept own k k' -> Q tt k') -> wp (ilock i) Q k.
Proof.
  intros Hw Hi Hn (x & Hx & Dx & Ix) HQ. pose proof Hw as [w1 w2 w3 w4 w5 w6 w7].
  pose proof (w6 _ _ Hx) as R. pose proof (times_elem _ _ Hi). pose proof (sp_refs _ _ Hspare i).
  eapply (wp_ilock k me pr V W ∅ i x); [done|done|lia|by apply w4| |].
  { intros _. rewrite Ix, w2. split_ands; [done|done|rewrite map_size_empty; lia|by apply (tr_type _ _ _ Htree)]. }
  intros k' T' L' N' E'. rewrite Ix, w2 in E'. set (y := if i_valid x =? 0 then _ else x) in E'.
  assert (Hy : i_ref y = i_ref x /\ i_dev y = ROOTDEV /\ i_inum y = n /\ dinode_of y = disk_inode sb V n).
  { unfold y. destruct (Z.eqb_spec (i_valid x) 0) as [E|E]; [by destruct (disk_inode sb V n); split_ands|].
    split_ands; try done. rewrite <- Ix. apply (w7 i); try done; [lia|by rewrite Ix]. }
  clearbody y. destruct Hy as (Yr & Yd & Yi & Yc).
  assert (Eo : forall j, j <> i -> k_itable k' !! j = k_itable k !! j) by (intros j Hj; by apply (nf_itable _ _ _ _ N')).
  apply HQ.
  - constructor.
    + done.
    + by rewrite (nf_sb _ _ _ _ N').
    + by rewrite (nf_len _ _ _ _ N').
    + intros j Hj. rewrite (nf_locks _ _ _ _ N') by congruence. by apply w4.
    + intros j [= <-]. done.
    + intros j z Hz. destruct (decide (j = i)) as [->|Hne]; [|rewrite Eo in Hz by done; by apply w6].
      rewrite E' in Hz. injection Hz as <-. lia.
    + intros j z Hz Hzr Hzd HzS Hzv. destruct (decide (j = i)) as [->|Hne]; [|rewrite Eo in Hz by done; by eapply w7].
      rewrite E' in Hz. injection Hz as <-. by rewrite Yi.
  - by exists y.
  - intros j m _ (z & Hz & Dz & Iz). destruct (decide (j = i)) as [->|Hne]; [|exists z; rewrite Eo by done; done].
    exists y. split_ands; [done|done|congruence].
Qed.

Lemma wp_iunlock_walk k own i n Q :
  walking k own (Some i) -> i ∈ own -> entry_is k i n ->
  (forall k', walking k' own None -> k_itable k' = k_itable k -> Q tt k') -> wp (iunlock i) Q k.
Proof.
  intros Hw Hi (x & Hx & _) HQ. pose proof Hw as [w1 w2 w3 w4 w5 w6 w7].
  pose proof (w6 _ _ Hx) as R. pose proof (times_elem _ _ Hi). pose proof (sp_refs _ _ Hspare i).
  eapply (wp_iunlock k me pr V W ∅ i x); [done|done|lia|by apply w5|]. intros k' T' N' L' E'. apply HQ; [|done].
  constructor; rewrite ?E'; try done.
  - by rewrite (nf_sb _ _ _ _ N').
  - intros j _. destruct (decide (j = i)) as [->|Hne]; [done|]. rewrite (nf_locks _ _ _ _ N') by done. apply w4. congruence.
Qed.

Lemma walking_swap k a b lk : walking k [a; b] lk -> walking k [b; a] lk.
Proof.
  intros [w1 w2 w3 w4 w5 w6 w7]. constructor; try done. intros j x Hx. rewrite (w6 _ _ Hx). simpl. lia.
Qed.

Lemma opened_entry k i n : opened k i n -> entry_is k i n.
Proof. intros (x & H1 & H2 & H3 & _). by exists x. Qed.

Lemma opened_dir k i n own :
  walking k own (Some i) -> opened k i n -> S_ n -> node_type sb V n = T_DIR ->
  exists x, open_dir k me pr V W i x /\ forall name, fst <$> dir_find V x name = node_find sb V n name.
Proof.
  intros Hw (x & Hx & Dx & Ix & Ex) Hn Ht. pose proof Hw as [w1 w2 w3 w4 w5 w6 w7]. pose proof (ld_dinode_ok n (V (IBLOCK n sb))) as Hd.
  change (dinode_ok (disk_inode sb V n)) in Hd. unfold node_type in Ht. destruct (tr_size _ _ _ Htree n Hn Ht) as [Z1 Z2].
  pose proof (tr_file _ _ _ Htree n Hn Ht) as Hf. pose proof (tr_bytes _ _ _ Htree n Hn Ht) as Hb.
  assert (Hsz := dk_size _ Hd). rewrite <- Ex in Hd, Ht, Z1, Z2, Hf, Hb, Hsz. cbn [dinode_of di_type di_size di_addrs] in *.
  exists x. split.
  - constructor; [|done|done|done]. constructor; rewrite ?w2; try done; [rewrite Ix; by apply (tr_range _ _ _ Htree)|lia|apply Htree].
  - intros name. unfold node_find. f_equal. apply dir_find_dname; [|  |done].
    + change (i_addrs (node sb V n)) with (di_addrs (disk_inode sb V n)). by rewrite <- Ex.
    + change (i_size (node sb V n)) with (di_size (disk_inode sb V n)). by rewrite <- Ex.
Qed.

Lemma wp_dirlookup_walk k i n name Q :
  walking k [i] (Some i) -> opened k i n -> S_ n -> node_type sb V n = T_DIR -> Forall byte name -> (length name <= 16)%nat ->
  match node_find sb V n name with
  | None => forall k', walking k' [i] (Some i) -> kept [i] k k' -> Q None k'
  | Some m => forall k' j off, walking k' [j; i] (Some i) -> S_ m -> entry_is k' j m -> kept [i] k k' -> Q (Some (j, off)) k'
  end -> wp (dirlookup i name) Q k.
Proof.
  intros Hw Ho Hn Ht Hb Hl HQ. destruct (opened_dir _ _ _ _ Hw Ho Hn Ht) as (x & Hx & Hf). specialize (Hf name).
  destruct (walking_slot _ _ _ Hw ltac:(simpl; lia)) as (j0 & x0 & Hj0 & Hx0).
  eapply wp_dirlookup; [exact Hx|done|done|]. destruct (dir_find V x name) as [[m off]|]; simpl in Hf.
  - rewrite <- Hf in HQ. split; [eauto|]. intros k' j y T' G E N C.
    assert (Hm : S_ m) by (eapply (tr_entry _ _ _ Htree n name); [done|done|by rewrite <- Hf]).
    destruct (igot_walking k k' [i] (Some i) m j y) as (W1 & W2 & W3); try done; [by rewrite (nf_sb _ _ _ _ N)|].
    by apply HQ.
  - rewrite <- Hf in HQ. intros k' T' N. pose proof Hw as [w1 w2 w3 w4 w5 w6 w7].
    assert (Et : k_itable k' = k_itable k) by (apply list_eq; intros j; exact (nf_itable _ _ _ _ N j id)).
    assert (Es : forall j, c_sleep (k_core k') (SInode j) = c_sleep (k_core k) (SInode j)) by (intros j; exact (nf_locks _ _ _ _ N j id)).
    apply HQ.
    + constructor; rewrite ?Et; try done; [by rewrite (nf_sb _ _ _ _ N)|intros j Hj; rewrite Es; by apply w4|].
      intros j Hj. unfold ilocked. rewrite Es. by apply w5.
    + intros j m _ (z & Hz). exists z. by rewrite Et.
Qed.

(** Where a walk along the elements [es] from the inode [n] ends, and what it leaves in
    the array [name] *)
Definition arrived (par : bool) (n : Z) (es : list (list Z)) (name : list Z) (r : option nat * list Z) (k : kernel) : Prop :=
  match resolve sb V par n es with
  | Some m => S_ m /\ exists j, r.1 = Some j /\ walking k [j] None /\ entry_is k j m /\
      dname r.2 = match last es with Some s => take DIRSIZ s | None => dname name end
  | None => r.1 = None /\ walking k [] None
  end.

Lemma wp_unlockput_walk k own i n Q :
  walking k (i :: own) (Some i) -> (length own <= 1)%nat -> S_ n -> entry_is k i n ->
  (forall k', walking k' own None -> kept own k k' -> Q tt k') -> wp (iunlockput i) Q k.
Proof.
  intros Hw Hl Hn He HQ. unfold iunlockput. wp_steps. eapply wp_iunlock_walk; [exact Hw|left|exact He|]. intros k1 W1 E1.
  assert (He1 : forall j m, entry_is k j m -> entry_is k1 j m) by (intros j m (z & Hz); exists z; by rewrite E1).
  eapply wp_iput_walk; [exact W1|done|done|by apply He1|]. intros k2 W2 K2. apply HQ; [done|]. intros j m Hj H. apply K2; [done|]. by apply He1.
Qed.

Lemma wp_walk_path par es : forall k i n name Q,
  walking k [i] None -> entry_is k i n -> S_ n -> Forall (Forall byte) es -> Forall (Forall (fun c => c <> 0)) es ->
  Forall byte name -> length name = DIRSIZ ->
  (forall r k', arrived par n es name r k' -> Q r k') -> wp (walk_path es i par name) Q k.
Proof.
  induction es as [|s es IH]; intros k i n name Q Hw He Hn Hb Hz Hnb Hnl HQ; cbn [walk_path].
  - destruct par; wp_steps.
    + eapply wp_iput_walk; [exact Hw|simpl; lia|done|done|]. intros k1 W1 _. wp_steps. apply HQ. by split.
    + apply HQ. split; [done|]. by exists i.
  - apply Forall_cons in Hb as [Hb Hbs], Hz as [Hz Hzs]. destruct (put_name_ok s name Hz Hnl) as [P1 P2]. pose proof (put_name_byte s name Hb Hnb) as P3.
    set (nm := put_name s name) in *. wp_steps. eapply wp_ilock_walk; [exact Hw|left|exact Hn|done|]. intros k1 W1 O1 K1. wp_steps.
    destruct O1 as (x & Hx & O1). pose proof O1 as (_ & _ & Ex). assert (Hop : opened k1 i n) by (by exists x). pose proof (opened_entry _ _ _ Hop) as He1.
    eapply wp_get_inode; [exact Hx|]. assert (Et : i_type x = node_type sb V n) by (unfold node_type; by rewrite <- Ex).
    unfold arrived in HQ. cbn [resolve] in HQ. rewrite Et. destruct (Z.eqb_spec (node_type sb V n) T_DIR) as [Hd|Hd]; cbn [negb] in *.
    2: { wp_steps. eapply wp_unlockput_walk; [exact W1|simpl; lia|done|done|]. intros k2 W2 _. wp_steps. apply HQ. by split. }
    destruct (par && bool_decide (es = [])) eqn:Ep.
    { wp_steps. eapply wp_iunlock_walk; [exact W1|left|exact He1|]. intros k2 W2 E2. wp_steps. apply HQ. split; [done|]. exists i.
      apply andb_true_iff in Ep as [_ Ep]. apply bool_decide_eq_true in Ep as ->.
      split_ands; [done|done|destruct He1 as (z & Hz'); exists z; by rewrite E2|exact P1]. }
    wp_steps. eapply wp_dirlookup_walk; [exact W1|done|done|done|done|rewrite P2; unfold DIRSIZ; lia|].
    assert (Ef : node_find sb V n nm = node_find sb V n s).
    { unfold node_find. f_equal. apply dir_find_dname; [done|done|]. rewrite P1. unfold dname. by rewrite cname_take. }
    rewrite Ef. destruct (node_find sb V n s) as [m|].
    + intros k2 j off W2 Hm E2 K2. wp_steps. eapply (wp_unlockput_walk _ _ _ n); [apply walking_swap; exact W2|simpl; lia|done|apply K2; [left|done]|].
      intros k3 W3 K3. eapply (IH k3 j m nm); try done; [apply K3; [left|done]|].
      intros r k4 Hr. apply HQ. unfold arrived in Hr. destruct (resolve sb V par m es) as [m'|]; [|done].
      destruct Hr as (Hm' & j' & R1 & R2 & R3 & R4). split; [done|]. exists j'. split_ands; [done|done|done|].
      rewrite R4, last_cons. by destruct (last es).
    + intros k2 W2 K2. wp_steps. eapply wp_unlockput_walk; [exact W2|simpl; lia|done|apply K2; [left|done]|]. intros k3 W3 _. wp_steps.
      apply HQ. by split.
Qed.

Lemma wp_idup_walk k i n Q :
  walking k [] None -> 0 < r0 i -> S_ n -> entry_is k i n ->
  (forall k', walking k' [i] None -> entry_is k' i n -> Q i k') -> wp (idup i) Q k.
Proof.
  intros Hw Hr Hn (x & Hx & Dx & Ix) HQ. pose proof Hw as [w1 w2 w3 w4 w5 w6 w7]. destruct (tx_core _ _ _ _ _ _ w1) as [Hc Hp].
  pose proof (w6 _ _ Hx) as R. simpl in R. unfold idup. wp_steps.
  eapply wp_acquire; [exact Hc|simpl; lia|set_solver|]. intros c1 C1 S1. wp_steps.
  eapply wp_upd_inode; [exact Hx|]. wp_steps. eapply wp_release; [exact C1|]. intros c2 C2 S2. simpl in S2.
  pose proof (same_but_locks_trans _ _ _ S1 S2) as S12. wp_steps. set (k' := with_core _ c2).
  destruct (igot_walking k k' [] None n i (set_i_ref (fun r => i32 (r + 1)) x)) as (W1 & W2 & _); try done; [simpl; lia| | | | |].
  - constructor; [done|]. unfold for_inode. split_ands; [lia|done|done].
  - simpl. by apply alter_as_insert.
  - change (txn (set_k_itable (alter (set_i_ref (fun r => i32 (r + 1))) i) (with_core k c2)) me pr V W ∅). apply tx_inodes.
    apply tx_locks; [done|done|by apply same_core_frame|]. intros j. by rewrite (sb_sleep _ _ S12).
  - intros l. simpl. by rewrite (sb_sleep _ _ S12).
  - by apply HQ.
Qed.

(** Where the walk starts: at the root, or at the current directory of the process. *)
Definition start_at (k : kernel) (path : list Z) (n : Z) : Prop :=
  S_ n /\
  if match path with c :: _ => c =? slash | [] => false end then n = ROOTINO
  else exists i, p_cwd pr = Some i /\ entry_is k i n /\ 0 < r0 i.

Lemma walking_core k c own lk :
  walking k own lk -> core_ok c me [] -> same_but_locks (k_core k) c -> walking (with_core k c) own lk.
Proof.
  intros [w1 w2 w3 w4 w5 w6 w7] Hc Hs. constructor; try done.
  - apply tx_locks; [done|done|by apply same_core_frame|]. intros i. by rewrite (sb_sleep _ _ Hs).
  - intros j Hj. simpl. rewrite (sb_sleep _ _ Hs). by apply w4.
  - intros j Hj. unfold ilocked. simpl. rewrite (sb_sleep _ _ Hs). by apply w5.
Qed.

Lemma wp_namex k par path name n Q :
  walking k [] None -> start_at k path n -> Forall byte path -> Forall (fun c => c <> 0) path -> Forall byte name -> length name = DIRSIZ ->
  (forall r k', arrived par n (elems path) name r k' -> Q r k') -> wp (namex path par name) Q k.
Proof.
  intros Hw [Hn Hs] Hb Hz Hnb Hnl HQ.
  assert (Hwalk : forall k i, walking k [i] None -> entry_is k i n -> wp (namex_loop (S (length path)) i path par name) Q k).
  { intros k1 i W1 E1. unfold wp. rewrite namex_loop_walk by lia.
    apply (wp_walk_path par (elems path) k1 i n name Q W1 E1 Hn); try done; by apply elems_bytes. }
  unfold namex. wp_steps. destruct (match path with c :: _ => c =? slash | [] => false end).
  - subst n. eapply wp_iget_walk; [exact Hw|simpl; lia|done|]. intros k1 i W1 E1 _. by apply Hwalk.
  - destruct Hs as (i & Hcwd & He & Hr). destruct (tx_core _ _ _ _ _ _ (wa_txn _ _ _ Hw)) as [Hc Hp]. wp_steps.
    eapply (wp_curproc _ me [] 0); [exact Hc|simpl; lia|]. intros c C S. wp_steps.
    eapply wp_get_proc; [simpl; rewrite (sb_procs _ _ S); exact Hp|]. wp_steps. eapply wp_of_opt; [exact Hcwd|].
    eapply wp_idup_walk; [by apply walking_core|done|exact Hn|exact He|]. intros k1 W1 E1. by apply Hwalk.
Qed.
End walk.

(** ** Properties *)

(** C10: path names name what they should.  [namex] walks from the root or the current
    directory through the directories of the tree: it returns the entry of the inode table
    for the inode that the path leads to, or for the directory of its last element when
    the parent is asked for, with one reference for the caller, and leaves the last element
    in [name]; it returns 0 when an element is missing or is not in a directory.  Every
    other reference it took on the way is given back, and every lock is released. *)
Theorem namex_correct k me pr sb V W S r0 par path name n :
  tree sb V S -> (size W < NBUF)%nat -> spare r0 (length (k_itable k)) ->
  walking me pr sb V W S r0 (length (k_itable k)) k [] None -> start_at pr S r0 k path n ->
  Forall byte path -> Forall (fun c => c <> 0) path -> Forall byte name -> length name = DIRSIZ ->
  wp (namex path par name) (fun r k' =>
    match resolve sb V par n (elems path) with
    | Some m => exists j, r.1 = Some j /\ walking me pr sb V W S r0 (length (k_itable k)) k' [j] None /\ entry_is k' j m /\
        dname r.2 = match last (elems path) with Some s => take DIRSIZ s | None => dname name end
    | None => r.1 = None /\ walking me pr sb V W S r0 (length (k_itable k)) k' [] None
    end) k.
Proof.
  intros Ht Hf Hs Hw Hn Hb Hz Hnb Hnl. eapply wp_namex; [done..|]. intros r k' Hr. unfold arrived in Hr.
  destruct (resolve sb V par n (elems path)); [|done]. destruct Hr as (_ & Hr). exact Hr.
Qed.

(** *** An example: a root directory with one file *)

Definition root_inode : dinode := mkDinode T_DIR 0 0 1 16 file_addrs.
Definition plain_inode : dinode := mkDinode T_FILE 0 0 1 0 no_addrs.

Definition tree_disk (b : Z) : list Z :=
  if b =? 32 then st_dinode 1 root_inode (st_dinode 2 plain_inode zeros)
  else if b =? 45 then file_map
  else if b =? 46 then [2; 0; 97] ++ replicate 1021 0
  else zeros.

Lemma tree_disk_ok : blocks_ok tree_disk.
Proof.
  intros b. unfold tree_disk. destruct (b =? 32); [split; [vm_compute; reflexivity|]|].
  { apply st_dinode_ok; [done|vm_compute; reflexivity|]. apply st_dinode_ok; [done|done|apply zeros_ok]. }
  pose proof (file_disk_ok 45) as H. destruct (b =? 45); [exact H|]. destruct (b =? 46); [|apply zeros_ok].
  split; [reflexivity|]. apply Forall_app. split; [repeat constructor; lia|apply Forall_replicate; split; lia].
Qed.

Lemma root_addrs_ok : file_ok sample_sb tree_disk file_addrs.
Proof.
  assert (Hu : in_use sample_sb tree_disk 46) by (split; [split; vm_compute; reflexivity|vm_compute; reflexivity]).
  constructor; try done; intros; rewrite ?file_addrs_faddr in * by lia; repeat case_decide; try done; lia.
Qed.

Lemma tree_disk_root : disk_inode sample_sb tree_disk 1 = root_inode.
Proof. vm_compute. reflexivity. Qed.

Lemma tree_disk_plain : disk_inode sample_sb tree_disk 2 = plain_inode.
Proof. vm_compute. reflexivity. Qed.

Lemma tree_disk_find name m : node_find sample_sb tree_disk 1 name = Some m -> m = 2.
Proof.
  unfold node_find, dir_find. intros (r & Hr & ->)%fmap_Some. apply fmap_Some in Hr as ([j off] & Hr & ->). apply list_find_Some in Hr as (Hj & _).
  apply list_elem_of_lookup_2 in Hj. change (dirent_offs (i_size (node sample_sb tree_disk 1))) with [0] in Hj.
  apply list_elem_of_singleton in Hj as ->. vm_compute. reflexivity.
Qed.

Lemma sample_tree_ok : tree sample_sb tree_disk (fun n => n = 1 \/ n = 2).
Proof.
  assert (H47 : forallb (fun i => used sample_sb tree_disk (Z.of_nat i)) (seq 0 47) = true) by (vm_compute; reflexivity).
  assert (Hd : forall n, n = 1 \/ n = 2 -> node_type sample_sb tree_disk n = T_DIR -> n = 1).
  { intros n [->| ->] E; [done|]. unfold node_type in E. rewrite tree_disk_plain in E. done. }
  constructor.
  - apply (sample_fs_ok _ 47 tree_disk_ok); [lia|done].
  - intros n [->| ->]; split; vm_compute; done.
  - intros n [->| ->]; unfold node_type; rewrite ?tree_disk_root, ?tree_disk_plain; done.
  - intros n [->| ->]; rewrite ?tree_disk_root, ?tree_disk_plain; done.
  - intros n Hn ->%Hd; [|done]. rewrite tree_disk_root. apply root_addrs_ok.
  - intros n Hn ->%Hd; [|done]. rewrite tree_disk_root. split; vm_compute; done.
  - intros n Hn ->%Hd; [|done]. rewrite tree_disk_root. intros x Hx. cbn [root_inode di_size di_addrs] in *.
    assert (x / BSIZE = 0) as -> by (apply Z.div_small; unfold BSIZE; lia). by vm_compute.
  - intros n name m Hn ->%Hd; [|done]. intros ->%tree_disk_find. by right.
Qed.

Definition tree_kernel : kernel := set_k_itable (fun _ => [zero_inode; zero_inode]) (file_kernel tree_disk zero_inode).

Lemma tree_kernel_walking :
  walking 0 first_proc sample_sb tree_disk sample_writes (fun n => n = 1 \/ n = 2) (fun _ => 0) 2 tree_kernel [] None.
Proof.
  constructor; try done.
  - apply tx_inodes, tx_inodes, tx_phys, op_txn, sample_writes_ok.
  - intros j x Hx. destruct j as [|[|j]]; simpl in Hx; by simplify_eq.
  - intros j x Hx Hr. destruct j as [|[|j]]; simpl in Hx; by simplify_eq.
Qed.

Lemma namex_correct_witness :
  exists r k' j, namex [47; 97] false (replicate DIRSIZ 0) tree_kernel = Ok r k' /\ r.1 = Some j /\ entry_is k' j 2.
Proof.
  pose proof (namex_correct tree_kernel 0 first_proc sample_sb tree_disk sample_writes (fun n => n = 1 \/ n = 2) (fun _ => 0) false [47; 97] (replicate DIRSIZ 0) 1
    sample_tree_ok ltac:(rewrite sample_writes_size; unfold NBUF; lia)
    ltac:(constructor; [intros; lia|exists 0%nat, 1%nat; simpl; split_ands; lia]) tree_kernel_walking
    ltac:(split; [by left|reflexivity]) ltac:(repeat constructor; lia) ltac:(by repeat constructor) ltac:(by repeat constructor) eq_refl) as H.
  assert (E : resolve sample_sb tree_disk false 1 (elems [47; 97]) = Some 2) by (vm_compute; reflexivity).
  rewrite E in H. destruct (wp_ok _ _ _ H) as (r & k' & Ek & j & Hj & _ & He & _). exists r, k', j. exact (conj Ek (conj Hj He)).
Defined.
