(* ===== verification/Trunc.v ===== *)
(** * Truncating files and freeing inodes ([itrunc] and [iput] of kernel/fs.c) *)

From S2P Require Import Prelude State Spin Sleep Bio Log Txn Strings Kalloc Vm FsBlock FsInode FsFile FsWrite.

(** ** Specification *)

(** The view [V'] is [V] with the blocks [l] marked as free. *)
Record freed (sb : superblock) (V V' : Z -> list Z) (l : list Z) : Prop := mkFreed {
  fr_blocks : blocks_ok V';
  fr_used b : 0 <= b < sb_size sb -> used sb V' b = used sb V b && negb (bool_decide (b ∈ l));
  fr_same x : not_map sb x -> V' x = V x
}.

(** The blocks of the first [n] blocks of a file, and all its blocks. *)
Definition data_list (V : Z -> list Z) (addrs : list Z) (n : nat) : list Z :=
  filter (fun a => a <> 0) ((fun j => faddr V addrs (Z.of_nat j)) <$> seq 0 n).

Definition file_blocks (V : Z -> list Z) (addrs : list Z) : list Z :=
  data_list V addrs (Z.to_nat MAXFILE) ++ (if decide (ind_addr addrs = 0) then [] else [ind_addr addrs]).

(** The view [V'] is [V] without the file of the addresses [addrs], and with [d] as the
    inode [inum]. *)
Record truncated (sb : superblock) (V V' : Z -> list Z) (addrs : list Z) (inum : Z) (d : dinode) : Prop := mkTruncated {
  tc_blocks : blocks_ok V';
  tc_used b : 0 <= b < sb_size sb -> used sb V' b = used sb V b && negb (bool_decide (b ∈ file_blocks V addrs));
  tc_data x : data_block sb x -> V' x = V x;
  tc_inode n : 0 <= n < sb_ninodes sb -> disk_inode sb V' n = if decide (n = inum) then d else disk_inode sb V n
}.

(** The entry of a file without contents, and of an inode that has been freed. *)
Definition emptied (ip : inode) : inode := set_i_size (fun _ => 0) (set_i_addrs (fun _ => replicate 13 0) ip).

Definition removed (ip : inode) : inode :=
  set_i_ref (fun _ => 0) (set_i_valid (fun _ => 0) (set_i_type (fun _ => 0) (emptied ip))).

(** ** Lemmas *)

Lemma freed_nil sb V : blocks_ok V -> freed sb V V [].
Proof. intros H. constructor; [done| |done]. intros b Hb. rewrite bool_decide_false by apply not_elem_of_nil. by rewrite andb_true_r. Qed.

Lemma freed_snoc sb V V' l b : layout sb -> 0 <= b < sb_size sb -> freed sb V V' l -> freed sb V (unmark sb b V') (l ++ [b]).
Proof.
  intros HL Hb [F1 F2 F3]. constructor; [by apply unmark_ok| |].
  - intros x Hx. rewrite used_unmark, F2 by done. destruct (decide (x = b)) as [->|Hne].
    + rewrite bool_decide_true by set_solver. by rewrite andb_false_r.
    + f_equal. f_equal. apply bool_decide_ext. set_solver.
  - intros x Hx. unfold unmark. rewrite vset_ne by (by apply Hx). by apply F3.
Qed.

Lemma data_list_S V addrs n :
  data_list V addrs (S n) = data_list V addrs n ++ (if decide (faddr V addrs (Z.of_nat n) = 0) then [] else [faddr V addrs (Z.of_nat n)]).
Proof.
  unfold data_list. rewrite seq_S, fmap_app, filter_app. f_equal. simpl. rewrite filter_cons, filter_nil. by repeat case_decide.
Qed.

Lemma data_list_elem V addrs n a : a ∈ data_list V addrs n <-> a <> 0 /\ exists j, (j < n)%nat /\ a = faddr V addrs (Z.of_nat j).
Proof.
  unfold data_list. rewrite list_elem_of_filter, list_elem_of_fmap. split; intros [H (j & H1 & H2)]; (split; [done|]); exists j.
  - apply elem_of_seq in H2. split; [lia|done].
  - split; [done|]. apply elem_of_seq. lia.
Qed.

Lemma data_list_new sb V addrs n :
  file_ok sb V addrs -> (n < Z.to_nat MAXFILE)%nat -> faddr V addrs (Z.of_nat n) <> 0 -> faddr V addrs (Z.of_nat n) ∉ data_list V addrs n.
Proof.
  intros Hf Hn H0 (_ & j & Hj & E)%data_list_elem.
  assert (Z.of_nat n = Z.of_nat j); [|lia]. by apply (fo_inj _ _ _ Hf); [lia|lia| |].
Qed.

Lemma file_blocks_use sb V addrs b : file_ok sb V addrs -> b ∈ file_blocks V addrs -> in_use sb V b.
Proof.
  intros Hf. unfold file_blocks. rewrite elem_of_app, data_list_elem. intros [(H0 & j & Hj & ->)|H].
  - apply (fo_data _ _ _ Hf); [lia|done].
  - case_decide; [by apply elem_of_nil in H|]. apply list_elem_of_singleton in H as ->. by apply (fo_ind _ _ _ Hf).
Qed.

Lemma freed_put sb V V1 addrs inum d :
  layout sb -> freed sb V V1 (file_blocks V addrs) -> 0 <= inum < sb_ninodes sb -> dinode_ok d ->
  truncated sb V (put_inode sb inum d V1) addrs inum d.
Proof.
  intros HL [F1 F2 F3] Hi Hd. constructor.
  - apply put_inode_ok; [done|apply Hd].
  - intros b Hb. rewrite put_inode_used by done. by apply F2.
  - intros x Hx. rewrite put_inode_data by done. by apply F3, data_not_map.
  - intros n Hn. rewrite disk_put_inode by done. case_decide; [done|]. unfold disk_inode. rewrite F3; [done|]. intros b Hb. by apply IBLOCK_not_map.
Qed.

Lemma truncated_put sb V V1 addrs inum d d' :
  layout sb -> truncated sb V V1 addrs inum d -> 0 <= inum < sb_ninodes sb -> dinode_ok d' ->
  truncated sb V (put_inode sb inum d' V1) addrs inum d'.
Proof.
  intros HL [F1 F2 F3 F4] Hi Hd. constructor.
  - apply put_inode_ok; [done|apply Hd].
  - intros b Hb. rewrite put_inode_used by done. by apply F2.
  - intros x Hx. rewrite put_inode_data by done. by apply F3.
  - intros n Hn. rewrite disk_put_inode by done. case_decide; [done|]. rewrite F4 by done. by rewrite decide_False.
Qed.

Lemma emptied_ok ip : dinode_ok (dinode_of ip) -> dinode_ok (dinode_of (emptied ip)).
Proof. intros []. constructor; try done. repeat constructor; done. Qed.

Lemma removed_ok ip : dinode_ok (dinode_of ip) -> dinode_ok (dinode_of (removed ip)).
Proof. intros H%emptied_ok. destruct H. by constructor. Qed.

Section trunc.
Context {T : kernel -> nat -> proc -> (Z -> list Z) -> gset Z -> held_map -> Prop} `{!TxnLaws T}.
Context (me : nat) (pr : proc) (sb : superblock) (V : Z -> list Z) (W : gset Z) (addrs : list Z).
Hypothesis Hok : fs_ok sb V.
Hypothesis Hfile : file_ok sb V addrs.
Hypothesis Hmap : forall b, b ∈ file_blocks V addrs -> BBLOCK b sb ∈ W.
Hypothesis Hfits : (size W + 1 < NBUF)%nat.

Lemma wp_bfree_next k V' l h b Q :
  T k me pr V' W h -> k_sb k = sb -> freed sb V V' l -> b ∈ file_blocks V addrs -> b ∉ l ->
  h !! BBLOCK b sb = None -> (size h <= 1)%nat ->
  (forall k' V2, T k' me pr V2 W h -> freed sb V V2 (l ++ [b]) -> fs_frame me k k' -> Q tt k') -> wp (bfree ROOTDEV b) Q k.
Proof.
  intros HT Es Hf Hb Hl Hh Hs HQ. destruct (file_blocks_use _ _ _ _ Hfile Hb) as [Hd Hu]. pose proof (fk_layout _ _ Hok) as HL.
  pose proof (data_range _ _ HL Hd) as Hr.
  eapply wp_bfree; [exact HT| |by rewrite Es|lia|rewrite Es; by apply Hmap|].
  - rewrite Es, (fr_used _ _ _ _ Hf), Hu by lia. by rewrite bool_decide_false.
  - intros k' T' F'. rewrite Es in T'. eapply (HQ _ _ T'); [apply freed_snoc; [done|lia|done]|done].
Qed.

(** The entry of the inode table while the first [n] direct blocks are gone *)
Definition cut (ip : inode) (n : nat) : inode := set_i_addrs (fun _ => replicate n 0 ++ drop n addrs) ip.

Lemma cut_step ip n a : addrs !! n = Some a -> set_i_addrs (<[n := 0]>) (cut ip n) = cut ip (S n).
Proof.
  intros Ha. unfold cut, set_i_addrs. cbn [i_addrs i_dev i_inum i_ref i_valid i_type i_major i_minor i_nlink i_size]. f_equal.
  rewrite (drop_S _ a n Ha), replicate_S_end, <- app_assoc. rewrite insert_app_r_alt by (rewrite length_replicate; lia).
  by rewrite length_replicate, Nat.sub_diag.
Qed.

Lemma cut_skip ip n : addrs !! n = Some 0 -> cut ip n = cut ip (S n).
Proof.
  intros Ha. rewrite <- (cut_step ip n 0 Ha). unfold set_i_addrs. cbn [cut i_addrs set_i_addrs]. rewrite list_insert_id; [done|].
  rewrite lookup_app_r by (rewrite length_replicate; lia). by rewrite length_replicate, Nat.sub_diag, lookup_drop, Nat.add_0_r.
Qed.

(** The state of the truncation: the view, the blocks that are free, and the entry. *)
Definition trunc_at (k0 : kernel) (i : nat) (ip : inode) (h : held_map) (l : list Z) (k : kernel) : Prop :=
  exists V', T k me pr V' W h /\ freed sb V V' l /\ k_itable k !! i = Some ip /\ inode_frame me (fun j => j = i) k0 k.

Lemma trunc_at_sb k0 i ip h l k : trunc_at k0 i ip h l k -> k_sb k0 = sb -> k_sb k = sb.
Proof. intros (V' & _ & _ & _ & N) H. by rewrite (nf_sb _ _ _ _ N). Qed.

Lemma trunc_at_upd k0 i ip h l k g : trunc_at k0 i ip h l k -> trunc_at k0 i (g ip) h l (set_k_itable (alter g i) k).
Proof.
  intros (V' & T1 & F1 & E1 & N1). exists V'. split_ands; [by apply tx_inodes|done|simpl; by rewrite list_lookup_alter_eq, E1|].
  eapply inode_frame_trans; [exact N1|apply inode_frame_upd].
Qed.

Lemma wp_trunc_free k0 i ip h l k b Q :
  trunc_at k0 i ip h l k -> k_sb k0 = sb -> b ∈ file_blocks V addrs -> b ∉ l -> h !! BBLOCK b sb = None -> (size h <= 1)%nat ->
  (forall k', trunc_at k0 i ip h (l ++ [b]) k' -> Q tt k') -> wp (bfree ROOTDEV b) Q k.
Proof.
  intros Ht Es Hb Hl Hh Hs HQ. pose proof (trunc_at_sb _ _ _ _ _ _ Ht Es) as Ek. destruct Ht as (V' & T1 & F1 & E1 & N1).
  eapply wp_bfree_next; [exact T1|exact Ek|exact F1|done|done|done|done|]. intros k' V2 T2 F2 N2. apply HQ. exists V2.
  split_ands; [done|done|by rewrite (ff_itable _ _ _ N2)|]. eapply inode_frame_trans; [exact N1|by apply fs_inode_frame].
Qed.

Lemma direct_lookup n : (n < 12)%nat -> addrs !! n = Some (faddr V addrs (Z.of_nat n)).
Proof.
  intros Hn. rewrite faddr_direct by (unfold NDIRECT; lia). rewrite Nat2Z.id. apply list_lookup_lookup_total_lt. rewrite (fo_len _ _ _ Hfile). lia.
Qed.

Lemma data_in n : (n < Z.to_nat MAXFILE)%nat -> faddr V addrs (Z.of_nat n) <> 0 -> faddr V addrs (Z.of_nat n) ∈ file_blocks V addrs.
Proof. intros Hn H0. apply elem_of_app. left. apply data_list_elem. split; [done|]. by exists n. Qed.

Lemma wp_trunc_direct k0 i ip k :
  k_sb k0 = sb -> i_dev ip = ROOTDEV -> trunc_at k0 i (cut ip 0) ∅ [] k ->
  wp (for_each (seq 0 (Z.to_nat NDIRECT)) (fun j =>
        let* ip := get_inode i in
        let* addr := of_opt (i_addrs ip !! j) in
        when (truthy addr) (bfree ROOTDEV addr ;* upd_inode i (set_i_addrs (<[j := 0]>)))))
    (fun _ k' => trunc_at k0 i (cut ip 12) ∅ (data_list V addrs 12) k') k.
Proof.
  intros Es Hd H0. change (Z.to_nat NDIRECT) with 12%nat.
  eapply wp_mono; [apply (wp_for_each _ _ (fun n k' => trunc_at k0 i (cut ip n) ∅ (data_list V addrs n) k'))|done].
  - exact H0.
  - intros n x k1 [-> Hn]%lookup_seq H1. cbn [Nat.add]. pose proof (direct_lookup n Hn) as Ha. wp_steps.
    pose proof H1 as (V' & T1 & F1 & E1 & N1). eapply wp_get_inode; [exact E1|]. wp_steps. eapply wp_of_opt.
    { cbn [cut i_addrs set_i_addrs]. rewrite lookup_app_r by (rewrite length_replicate; lia). rewrite length_replicate, Nat.sub_diag, lookup_drop, Nat.add_0_r. exact Ha. }
    set (a := faddr V addrs (Z.of_nat n)) in *. rewrite data_list_S. fold a. apply wp_when; unfold truthy; rewrite ?negb_true_iff, ?negb_false_iff, ?Z.eqb_neq, ?Z.eqb_eq; intros H.
    + rewrite decide_False by done. wp_steps. assert (HM : (n < Z.to_nat MAXFILE)%nat) by (change (Z.to_nat MAXFILE) with 268%nat; lia).
      eapply wp_trunc_free; [exact H1|done|by apply data_in|by eapply data_list_new|done|rewrite map_size_empty; lia|]. intros k2 H2.
      pose proof H2 as (V2 & _ & _ & E2 & _). eapply wp_upd_inode; [exact E2|]. rewrite <- (cut_step ip n a Ha). by apply trunc_at_upd.
    + rewrite decide_True, app_nil_r by done. rewrite <- cut_skip; [done|]. by rewrite Ha, H.
Qed.

Lemma data_list_no_ind n : ind_addr addrs = 0 -> data_list V addrs (12 + n) = data_list V addrs 12.
Proof.
  intros H0. induction n as [|n IH]; [done|]. replace (12 + S n)%nat with (S (12 + n)) by lia. rewrite data_list_S, IH.
  rewrite decide_True, app_nil_r; [done|]. unfold faddr. rewrite decide_False by (unfold NDIRECT; lia). by rewrite decide_True.
Qed.

Lemma wp_trunc_entries k0 i ip b k :
  k_sb k0 = sb -> ind_addr addrs <> 0 ->
  trunc_at k0 i ip {[ind_addr addrs := (b, false)]} (data_list V addrs 12) k ->
  wp (for_each (seq 0 (Z.to_nat NINDIRECT)) (fun j =>
        let* d := bdata b in
        let a := get_uint (4 * j) d in
        when (truthy a) (bfree ROOTDEV a)))
    (fun _ k' => trunc_at k0 i ip {[ind_addr addrs := (b, false)]} (data_list V addrs (Z.to_nat MAXFILE)) k') k.
Proof.
  intros Es Hi H0. change (Z.to_nat NINDIRECT) with 256%nat. pose proof (fo_ind _ _ _ Hfile Hi) as [Hd _].
  pose proof (data_not_map _ _ (fk_layout _ _ Hok) Hd) as Hnm.
  eapply wp_mono; [apply (wp_for_each _ _ (fun n k' => trunc_at k0 i ip {[ind_addr addrs := (b, false)]} (data_list V addrs (12 + n)) k'))|done].
  - exact H0.
  - intros n x k1 [-> Hn]%lookup_seq H1. cbn [Nat.add]. wp_steps. pose proof H1 as (V' & T1 & F1 & E1 & N1).
    eapply (tx_bdata _ _ _ _ _ _ (ind_addr addrs) (b, false)); [exact T1|apply lookup_singleton_eq|]. rewrite (fr_same _ _ _ _ F1) by done.
    assert (Ea : get_uint (4 * n) (V (ind_addr addrs)) = faddr V addrs (Z.of_nat (12 + n))).
    { rewrite faddr_indirect by (done || unfold NDIRECT; lia). f_equal. unfold NDIRECT. lia. }
    rewrite Ea. replace (12 + S n)%nat with (S (12 + n)) by lia. rewrite data_list_S. set (a := faddr V addrs _) in *.
    assert (HM : (12 + n < Z.to_nat MAXFILE)%nat) by (change (Z.to_nat MAXFILE) with 268%nat; lia).
    apply wp_when; unfold truthy; rewrite ?negb_true_iff, ?negb_false_iff, ?Z.eqb_neq, ?Z.eqb_eq; intros H.
    + rewrite decide_False by done. pose proof (data_in (12 + n) HM H) as Hin. pose proof (file_blocks_use _ _ _ _ Hfile Hin) as [Had _].
      pose proof (data_range _ _ (fk_layout _ _ Hok) Had) as Har.
      eapply wp_trunc_free; [exact H1|done|exact Hin|by eapply data_list_new| |rewrite map_size_singleton; lia|done].
      apply lookup_singleton_ne. apply Hnm. lia.
    + by rewrite decide_True, app_nil_r by done.
Qed.

Lemma ind_lookup : addrs !! 12%nat = Some (ind_addr addrs).
Proof. unfold ind_addr. apply list_lookup_lookup_total_lt. rewrite (fo_len _ _ _ Hfile). unfold NDIRECT. lia. Qed.

Lemma wp_trunc_indirect k0 i ip k :
  k_sb k0 = sb -> trunc_at k0 i (cut ip 12) ∅ (data_list V addrs 12) k ->
  wp (when (truthy (ind_addr addrs))
        (let* bp := bread ROOTDEV (ind_addr addrs) in
         for_each (seq 0 (Z.to_nat NINDIRECT)) (fun j =>
           let* d := bdata bp in
           let a := get_uint (4 * j) d in
           when (truthy a) (bfree ROOTDEV a)) ;*
         brelse bp ;*
         bfree ROOTDEV (ind_addr addrs) ;*
         upd_inode i (set_i_addrs (<[Z.to_nat NDIRECT := 0]>))))
    (fun _ k' => trunc_at k0 i (cut ip 13) ∅ (file_blocks V addrs) k') k.
Proof.
  intros Es H0. pose proof H0 as (V' & T0 & F0 & E0 & N0). change (Z.to_nat NDIRECT) with 12%nat.
  pose proof ind_lookup as Ha. unfold file_blocks. apply wp_when; unfold truthy; rewrite ?negb_true_iff, ?negb_false_iff, ?Z.eqb_neq, ?Z.eqb_eq; intros H.
  - rewrite decide_False by done. wp_steps. eapply tx_bread; [exact T0|done|rewrite map_size_empty; lia|]. intros k1 b T1 F1.
    assert (H1 : trunc_at k0 i (cut ip 12) {[ind_addr addrs := (b, false)]} (data_list V addrs 12) k1).
    { exists V'. split_ands; [exact T1|done|by rewrite (ff_itable _ _ _ F1)|]. eapply inode_frame_trans; [exact N0|by apply fs_inode_frame]. }
    wp_steps. eapply wp_mono; [by apply wp_trunc_entries|]. intros [] k2 H2. pose proof H2 as (V2 & T2 & F2 & E2 & N2). wp_steps.
    eapply (tx_brelse _ _ _ _ _ _ (ind_addr addrs)); [exact T2|apply lookup_singleton_eq|]. intros k3 T3 F3. rewrite delete_singleton_eq in T3.
    assert (H3 : trunc_at k0 i (cut ip 12) ∅ (data_list V addrs (Z.to_nat MAXFILE)) k3).
    { exists V2. split_ands; [exact T3|done|by rewrite (ff_itable _ _ _ F3)|]. eapply inode_frame_trans; [exact N2|by apply fs_inode_frame]. }
    wp_steps. eapply wp_trunc_free; [exact H3|done| | |done|rewrite map_size_empty; lia|].
    + apply elem_of_app. right. rewrite decide_False by done. by apply list_elem_of_singleton.
    + intros (_ & j & Hj & E)%data_list_elem. apply (fo_apart _ _ _ Hfile (Z.of_nat j)); [lia|congruence|congruence].
    + intros k4 H4. pose proof H4 as (V4 & _ & _ & E4 & _). eapply wp_upd_inode; [exact E4|]. rewrite <- (cut_step ip 12 _ Ha). by apply trunc_at_upd.
  - rewrite decide_True, app_nil_r by done. rewrite <- cut_skip by (by rewrite Ha, H).
    change (Z.to_nat MAXFILE) with (12 + 256)%nat. by rewrite data_list_no_ind.
Qed.

Lemma wp_itrunc k i ip Q :
  T k me pr V W ∅ -> k_sb k = sb -> k_itable k !! i = Some ip -> i_addrs ip = addrs -> i_dev ip = ROOTDEV -> IBLOCK (i_inum ip) sb ∈ W ->
  (forall k' V', T k' me pr (put_inode sb (i_inum ip) (dinode_of (emptied ip)) V') W ∅ -> freed sb V V' (file_blocks V addrs) ->
     k_itable k' !! i = Some (emptied ip) -> inode_frame me (fun j => j = i) k k' -> Q tt k') ->
  wp (itrunc i) Q k.
Proof.
  intros HT Es Hi Ha Hd HW HQ. unfold itrunc. wp_steps. eapply wp_get_inode; [exact Hi|]. rewrite Hd. wp_steps.
  assert (E0 : cut ip 0 = ip) by (unfold cut, set_i_addrs; rewrite drop_0; simpl; rewrite <- Ha; by destruct ip).
  assert (E13 : cut ip 13 = set_i_addrs (fun _ => replicate 13 0) ip).
  { unfold cut. by rewrite drop_ge, app_nil_r by (rewrite (fo_len _ _ _ Hfile); lia). }
  eapply wp_mono; [apply (wp_trunc_direct k i ip); [done|done|]|].
  { exists V. rewrite E0. split_ands; [done|apply freed_nil, Hok|done|apply inode_frame_refl]. }
  intros [] k1 H1. pose proof H1 as (V1 & _ & _ & E1 & _). wp_steps. eapply wp_get_inode; [exact E1|]. wp_steps. eapply wp_of_opt.
  { cbn [cut i_addrs set_i_addrs]. rewrite lookup_app_r by (rewrite length_replicate; unfold NDIRECT; lia).
    rewrite length_replicate. change (Z.to_nat NDIRECT - 12)%nat with 0%nat. rewrite lookup_drop. exact ind_lookup. }
  wp_steps. eapply wp_mono; [by apply (wp_trunc_indirect k i ip)|]. intros [] k2 H2. rewrite E13 in H2.
  pose proof H2 as (V2 & _ & _ & E2 & _). wp_steps. eapply wp_upd_inode; [exact E2|].
  apply (trunc_at_upd _ _ _ _ _ _ (set_i_size (fun _ => 0))) in H2. set (k3 := set_k_itable _ k2) in *. pose proof (trunc_at_sb _ _ _ _ _ _ H2 Es) as Es3.
  destruct H2 as (V3 & T3 & F3 & E3 & N3). eapply wp_iupdate; [exact T3|exact E3|exact Hd|done|rewrite map_size_empty; lia|rewrite Es3; exact HW|].
  intros k4 T4 F4. rewrite Es3 in T4. eapply HQ; [exact T4|exact F3|by rewrite (ff_itable _ _ _ F4)|].
  eapply inode_frame_trans; [exact N3|by apply fs_inode_frame].
Qed.

(** The last reference to an inode without links *)
Lemma wp_iput_last k i ip Q :
  T k me pr V W ∅ -> k_sb k = sb -> k_itable k !! i = Some ip -> i_addrs ip = addrs -> i_dev ip = ROOTDEV -> IBLOCK (i_inum ip) sb ∈ W ->
  i_ref ip = 1 -> i_valid ip <> 0 -> i_nlink ip = 0 -> sl_locked (c_sleep (k_core k) (SInode i)) = 0 ->
  0 <= i_inum ip < sb_ninodes sb -> dinode_ok (dinode_of ip) ->
  (forall k' V', T k' me pr V' W ∅ -> truncated sb V V' addrs (i_inum ip) (dinode_of (removed ip)) ->
     k_itable k' !! i = Some (removed ip) -> sl_locked (c_sleep (k_core k') (SInode i)) = 0 -> inode_frame me (fun j => j = i) k k' -> Q tt k') ->
  wp (iput i) Q k.
Proof.
  intros HT Es Hi Ha Hd HW Hr Hv Hn Hl Hin Hdi HQ. unfold iput. destruct (tx_core _ _ _ _ _ _ HT) as [Hc Hp]. pose proof (fk_layout _ _ Hok) as HL. wp_steps.
  eapply wp_acquire; [exact Hc|simpl; lia|set_solver|]. intros c1 C1 S1. wp_steps. eapply wp_get_inode; [exact Hi|].
  rewrite Hr, Hn. unfold truthy. rewrite (proj2 (Z.eqb_neq _ _) Hv). change ((1 =? 1) && negb false && (0 =? 0)) with true. cbn [when]. wp_steps.
  eapply (wp_acquiresleep _ me pr [LItable] 0); [exact C1|simpl; lia|set_solver|simpl; by rewrite (sb_sleep _ _ S1)|simpl; by rewrite (sb_procs _ _ S1)|].
  intros c2 C2 F2 Sl2. simpl in F2, Sl2. wp_steps. eapply (wp_release _ me LItable [] 0); [exact C2|]. intros c3 C3 S3. simpl in S3. wp_steps.
  assert (F3 : core_frame me (k_core k) c3).
  { eapply core_frame_trans; [by apply same_core_frame|]. eapply core_frame_trans; [exact F2|by apply same_core_frame]. }
  assert (Sl3 : sleep_set (c_sleep (k_core k)) (c_sleep c3) (SInode i) 1 (p_pid pr)).
  { rewrite (sb_sleep _ _ S3). by rewrite (sb_sleep _ _ S1) in Sl2. }
  destruct (tx_sleep_lock _ _ _ _ _ _ _ _ _ _ HT C3 F3 Sl3) as [T3 N3]. set (k3 := with_core k c3) in *.
  eapply (wp_itrunc k3 i ip); [exact T3|exact Es|exact Hi|exact Ha|exact Hd|exact HW|]. intros k4 V4 T4 Fr4 E4 N4. wp_steps.
  eapply wp_upd_inode; [exact E4|]. wp_steps. set (k5 := set_k_itable _ k4).
  assert (E5 : k_itable k5 !! i = Some (set_i_type (fun _ => 0) (emptied ip))) by (simpl; by rewrite list_lookup_alter_eq, E4).
  assert (Es5 : k_sb k5 = sb) by (simpl; by rewrite (nf_sb _ _ _ _ N4)).
  eapply wp_iupdate; [apply tx_inodes; exact T4|exact E5|exact Hd|done|rewrite map_size_empty; lia|rewrite Es5; exact HW|]. intros k6 T6 F6. rewrite Es5 in T6.
  wp_steps. eapply wp_upd_inode; [rewrite (ff_itable _ _ _ F6); exact E5|]. wp_steps. set (k7 := set_k_itable _ k6).
  pose proof (tx_inodes _ _ _ _ _ _ (alter (set_i_valid (fun _ => 0)) i) T6) as T7. fold k7 in T7. destruct (tx_core _ _ _ _ _ _ T7) as [C7 P7].
  eapply (wp_releasesleep _ me [] 0); [exact C7|simpl; lia|set_solver|set_solver|]. intros c8 C8 F8 Sl8 _.
  destruct (tx_sleep_lock _ _ _ _ _ _ _ _ _ _ T7 C8 F8 Sl8) as [T8 N8]. wp_steps.
  eapply wp_acquire; [exact C8|simpl; lia|set_solver|]. intros c9 C9 S9. wp_steps.
  assert (E7 : k_itable k7 !! i = Some (set_i_valid (fun _ => 0) (set_i_type (fun _ => 0) (emptied ip)))).
  { simpl. by rewrite list_lookup_alter_eq, (ff_itable _ _ _ F6), E5. }
  eapply wp_upd_inode; [exact E7|]. wp_steps. eapply wp_release; [exact C9|]. intros c10 C10 S10. simpl in S10.
  pose proof (same_but_locks_trans _ _ _ S9 S10) as S9'. simpl in S9'. set (k8 := with_core k7 c8) in *.
  set (k11 := set_k_itable (alter (set_i_ref (fun r => i32 (r - 1))) i) (with_core k8 c10)). change (Q tt k11).
  assert (N11 : inode_frame me (fun j => j = i) k8 k11).
  { eapply inode_frame_trans; [|apply inode_frame_upd]. constructor; try done; simpl; [by apply same_core_frame|]. intros j _. by rewrite (sb_sleep _ _ S9'). }
  apply (HQ k11 (put_inode sb (i_inum ip) (dinode_of (removed ip)) (put_inode sb (i_inum ip) (dinode_of (emptied ip)) V4))).
  - apply tx_inodes, tx_locks; [exact T8|exact C10|by apply same_core_frame|]. intros j. simpl. by rewrite (sb_sleep _ _ S9').
  - eapply truncated_put; [done|apply freed_put; try done|done|]; [by apply emptied_ok|by apply removed_ok].
  - simpl. rewrite list_lookup_alter_eq. simpl in E7. rewrite E7. simpl. unfold removed, set_i_ref. simpl. by rewrite Hr.
  - simpl. rewrite (sb_sleep _ _ S9'). apply Sl8.
  - eapply inode_frame_trans; [exact N3|]. eapply inode_frame_trans; [exact N4|]. eapply inode_frame_trans; [apply inode_frame_upd|].
    eapply inode_frame_trans; [apply fs_inode_frame, F6|]. eapply inode_frame_trans; [apply inode_frame_upd|]. eapply inode_frame_trans; [exact N8|exact N11].
Qed.
End trunc.

(** ** Sample: a file without links *)

Definition orphan : inode := set_i_nlink (fun _ => 0) (sample_inode 3 file_addrs).

Lemma orphan_open : open_file (file_kernel file_disk orphan) 0 first_proc file_disk sample_writes 0 orphan.
Proof.
  assert (H47 : forallb (fun i => used sample_sb file_disk (Z.of_nat i)) (seq 0 47) = true) by (vm_compute; reflexivity).
  assert (Hh : has_bytes file_disk file_addrs 0 3).
  { intros x Hx. rewrite Z.div_small by (unfold BSIZE; lia). by vm_compute. }
  destruct (sample_open _ _ _ _ _ file_type sample_writes_ok (sample_fs_ok _ 47 file_disk_ok ltac:(lia) H47) file_addrs_ok
    (small_size 3 ltac:(lia)) Hh) as [O1 O2 O3 O4 O5 [] O7 O8 O9].
  constructor; try done. apply tx_inodes, tx_phys, op_txn, sample_writes_ok.
Qed.

Lemma orphan_map b : b ∈ file_blocks file_disk file_addrs -> BBLOCK b sample_sb ∈ sample_writes.
Proof.
  intros Hb. assert (E : file_blocks file_disk file_addrs = [46]) by (vm_compute; reflexivity).
  rewrite E in Hb. apply list_elem_of_singleton in Hb as ->. apply sample_writes_elem. right. left. by vm_compute.
Qed.

(** ** Properties *)

(** C12: dropping the last reference to an inode without links frees the file: exactly
    its blocks (direct, indirect and the block of indirect addresses) become free, its
    inode on disk has no type, no size and no addresses, no other inode and no data
    block changes, and the entry of the inode table is unlocked and can be reused. *)
Theorem iput_frees k me pr V W i ip :
  open_file k me pr V W i ip -> i_ref ip = 1 -> i_valid ip <> 0 -> i_nlink ip = 0 -> sl_locked (c_sleep (k_core k) (SInode i)) = 0 ->
  IBLOCK (i_inum ip) (k_sb k) ∈ W -> (forall b, b ∈ file_blocks V (i_addrs ip) -> BBLOCK b (k_sb k) ∈ W) -> (size W + 1 < NBUF)%nat ->
  wp (iput i) (fun _ k' => exists V', txn k' me pr V' W ∅ /\
    truncated (k_sb k) V V' (i_addrs ip) (i_inum ip) (dinode_of (removed ip)) /\
    k_itable k' !! i = Some (removed ip) /\ sl_locked (c_sleep (k_core k') (SInode i)) = 0 /\ inode_frame me (fun j => j = i) k k') k.
Proof.
  intros [O1 O2 O3 O4 O5 O6 O7 O8 O9] Hr Hv Hn Hl HI HB HW.
  eapply (wp_iput_last me pr (k_sb k) V W (i_addrs ip)); try done. intros k' V' T' Tr E' L' N'. by exists V'.
Qed.

Lemma iput_frees_witness :
  exists k', iput 0 (file_kernel file_disk orphan) = Ok tt k' /\ k_itable k' !! 0%nat = Some (removed orphan).
Proof.
  destruct (wp_ok _ _ _ (iput_frees (file_kernel file_disk orphan) 0 first_proc file_disk sample_writes 0 orphan orphan_open
    eq_refl ltac:(done) eq_refl eq_refl (sample_writes_elem _ (or_introl eq_refl)) orphan_map
    ltac:(rewrite sample_writes_size; unfold NBUF; lia))) as ([] & k' & E & V' & _ & _ & Hk & _).
  exists k'. split; [exact E|exact Hk].
Defined.
