(* ===== verification/Console.v ===== *)
(** * The console (kernel/console.c, and the interrupt handler of kernel/uart.c)

    Input characters go into a ring of [INPUT_BUF]: [cons_r <= cons_w <= cons_e] count
    the characters read, those of complete lines and those typed.  [consoleintr] edits
    the last, incomplete line and [consoleread] hands out complete ones. *)

From S2P Require Import Prelude Ring State Spin Sleep Uart Printf Bio Log Txn Strings Kalloc Vm FsBlock FsInode.

(** ** Definitions *)

Definition INPUT_BUF : Z := 128.

(** [C('D')] and the like. *)
Definition Ctrl (x : Z) : Z := x - 64.

Definition CONSOLE : nat := 1.

Definition get_cons : K console := get_dev dv_cons.

Definition upd_cons (g : console -> console) : K unit := modify (set_k_dev (set_dv_cons g)).

(** [cons.buf[i % INPUT_BUF]]. *)
Definition cons_char (c : console) (i : Z) : K Z := of_opt (cons_buf c !! Z.to_nat (i mod INPUT_BUF)).

Fixpoint consolewrite_loop (fuel : nat) (src : source) (i n : Z) : K Z :=
  match fuel with
  | O => nofuel
  | S fuel =>
      if negb (i <? n) then M_ret i else
      let* r := either_copyin (source_add src i) 1 in
      if r.1 =? -1 then M_ret i else
      let* c := of_opt (head r.2) in
      uartputc c ;*
      consolewrite_loop fuel src (i + 1) n
  end.

Definition consolewrite (src : source) (n : Z) : K Z := consolewrite_loop (S (Z.to_nat n)) src 0 n.

(** The loop of [consoleread] returns, or it ends with [n] characters still wanted. *)
Fixpoint consoleread_loop (fuel : nat) (dst : dest) (n target : Z) : K (Z + Z) :=
  match fuel with
  | O => nofuel
  | S fuel =>
      if n <=? 0 then M_ret (inr n) else
      let* c := get_cons in
      if cons_r c =? cons_w c then
        let* p := curproc in
        let* pr := get_proc p in
        if truthy (p_killed pr) then release LCons ;* M_ret (inl (-1))
        else sleep ChanCons LCons ;* nofuel
      else
        let* ch := cons_char c (cons_r c) in
        upd_cons (set_cons_r (fun r => u32 (r + 1))) ;*
        if ch =? Ctrl 68 then
          when (u32 n <? target) (upd_cons (set_cons_r (fun r => u32 (r - 1)))) ;*
          M_ret (inr n)
        else
          let* r := either_copyout dst [ch] in
          if r =? -1 then M_ret (inr n) else
          if ch =? 10 then M_ret (inr (n - 1)) else
          consoleread_loop fuel (dest_add dst 1) (n - 1) target
  end.

Definition consoleread (dst : dest) (n : Z) : K Z :=
  let target := u32 n in
  acquire LCons ;*
  let* r := consoleread_loop (S (Z.to_nat n)) dst n target in
  match r with
  | inl r => M_ret r
  | inr n => release LCons ;* M_ret (i32 (target - n))
  end.

(** The loop of control-U. *)
Fixpoint kill_line (fuel : nat) : K unit :=
  match fuel with
  | O => nofuel
  | S fuel =>
      let* c := get_cons in
      if cons_e c =? cons_w c then M_ret tt else
      let* ch := cons_char c (u32 (cons_e c - 1)) in
      if ch =? 10 then M_ret tt else
      upd_cons (set_cons_e (fun e => u32 (e - 1))) ;*
      consputc BACKSPACE ;*
      kill_line fuel
  end.

Definition consoleintr (c : Z) : K unit :=
  acquire LCons ;*
  (if c =? Ctrl 80 then procdump
   else if c =? Ctrl 85 then kill_line (S (Z.to_nat INPUT_BUF))
   else if (c =? Ctrl 72) || (c =? 127) then
     let* s := get_cons in
     when (negb (cons_e s =? cons_w s))
       (upd_cons (set_cons_e (fun e => u32 (e - 1))) ;* consputc BACKSPACE)
   else
     let* s := get_cons in
     when (negb (c =? 0) && (u32 (cons_e s - cons_r s) <? INPUT_BUF))
       (let c := if c =? 13 then 10 else c in
        consputc c ;*
        upd_cons (set_cons_buf (insert (Z.to_nat (cons_e s mod INPUT_BUF)) (u8 c))) ;*
        upd_cons (set_cons_e (fun e => u32 (e + 1))) ;*
        let* s := get_cons in
        when ((c =? 10) || (c =? Ctrl 68) || (cons_e s =? u32 (cons_r s + INPUT_BUF)))
          (upd_cons (set_cons_w (fun _ => cons_e s)) ;* wakeup ChanCons))) ;*
  release LCons.

Definition consoleinit : K unit :=
  initlock LCons "cons" ;*
  uartinit ;*
  modify (set_k_dev (set_dv_devsw (insert CONSOLE (Some ConsoleRead, Some ConsoleWrite)))).

Fixpoint uartintr_loop (fuel : nat) : K unit :=
  match fuel with
  | O => nofuel
  | S fuel =>
      let* c := uartgetc in
      if c =? -1 then M_ret tt else
      consoleintr c ;*
      uartintr_loop fuel
  end.

Definition uartintr : K unit :=
  let* u := get_dev dv_uart in
  uartintr_loop (S (length (u_rx u))) ;*
  acquire LUart ;*
  uartstart ;*
  release LUart.

(** ** Specification: a line editor *)

(** The complete lines that wait to be read, and the line being typed. *)
Definition cons_lines (c : console) : list Z := ring (cons_buf c) (cons_r c) (Z.to_nat (ahead (2 ^ 32) (cons_r c) (cons_w c))).
Definition cons_edit (c : console) : list Z := ring (cons_buf c) (cons_w c) (Z.to_nat (ahead (2 ^ 32) (cons_w c) (cons_e c))).

Record cons_ok (c : console) : Prop := mkConsOk {
  ck_len : length (cons_buf c) = Z.to_nat INPUT_BUF;
  ck_r : 0 <= cons_r c < 2 ^ 32;
  ck_w : 0 <= cons_w c < 2 ^ 32;
  ck_e : 0 <= cons_e c < 2 ^ 32;
  ck_room : ahead (2 ^ 32) (cons_r c) (cons_w c) + ahead (2 ^ 32) (cons_w c) (cons_e c) <= INPUT_BUF;
  ck_line : Forall (fun ch => ch <> 10) (cons_edit c)
}.

(** The effect of a backspace on the terminal. *)
Definition rubout : list Z := [8; 32; 8].

(** What typing [ch] does to the lines and the edited line, and what is echoed. *)
Definition typed (ch : Z) (lines edit : list Z) : list Z * list Z * list Z :=
  if ch =? Ctrl 85 then (lines, [], concat (replicate (length edit) rubout))
  else if (ch =? Ctrl 72) || (ch =? 127) then
    match edit with [] => (lines, [], []) | _ => (lines, removelast edit, rubout) end
  else if (ch =? 0) || (128 <=? length lines + length edit)%nat then (lines, edit, [])
  else
    let c := if ch =? 13 then 10 else ch in
    if (c =? 10) || (c =? Ctrl 68) || (length lines + length edit + 1 =? 128)%nat
    then (lines ++ edit ++ [c], [], [c]) else (lines, edit ++ [c], [c]).

(** ** Lemmas: the console's ring *)

Lemma cons_index c r e :
  length (cons_buf c) = Z.to_nat INPUT_BUF -> 0 <= e < 2 ^ 32 ->
  (r + ahead (2 ^ 32) r e) mod Z.of_nat (length (cons_buf c)) = e mod INPUT_BUF.
Proof.
  intros Hl He. rewrite ring_index; [by rewrite Hl|rewrite Hl; apply Nat.ltb_lt; reflexivity| |lia|done].
  rewrite Hl. by exists (2 ^ 25).
Qed.

(** The last character typed, and what is left without it. *)
Lemma cons_unedit c :
  cons_ok c -> cons_e c <> cons_w c ->
  let c' := set_cons_e (fun e => u32 (e - 1)) c in
  exists ch, cons_buf c !! Z.to_nat (u32 (cons_e c - 1) mod INPUT_BUF) = Some ch /\
    cons_edit c = cons_edit c' ++ [ch] /\ cons_lines c' = cons_lines c /\ cons_ok c'.
Proof.
  intros [Hl Hr Hw He Hroom Hln] Hne c'. set (M := 2 ^ 32) in *.
  assert (HM : 1 < M) by (unfold M; lia).
  assert (H1 : 1 <= ahead M (cons_w c) (cons_e c)).
  { pose proof (ahead_range M HM (cons_w c) (cons_e c)).
    destruct (decide (ahead M (cons_w c) (cons_e c) = 0)) as [E|]; [|lia]. by apply ahead_zero in E. }
  pose proof (ahead_back M HM (cons_w c) (cons_e c) H1) as Hb.
  change ((cons_e c - 1) mod M) with (u32 (cons_e c - 1)) in Hb.
  assert (Hrg : 0 <= u32 (cons_e c - 1) < M) by apply u32_range.
  pose proof (Z.mod_pos_bound (u32 (cons_e c - 1)) INPUT_BUF eq_refl) as Hm.
  destruct (lookup_lt_is_Some_2 (cons_buf c) (Z.to_nat (u32 (cons_e c - 1) mod INPUT_BUF))) as [ch Hch]; [lia|].
  assert (He' : cons_edit c = cons_edit c' ++ [ch]).
  { unfold cons_edit. simpl. fold M. rewrite Hb.
    replace (Z.to_nat (ahead M (cons_w c) (cons_e c))) with (S (Z.to_nat (ahead M (cons_w c) (cons_e c) - 1))) by lia.
    rewrite ring_last, Z2Nat.id by lia. rewrite <- Hb, cons_index by done.
    by rewrite (list_lookup_total_correct _ _ _ Hch). }
  exists ch. split_ands; try done. constructor; simpl; try done; [fold M; lia|].
  rewrite He' in Hln. by apply Forall_app in Hln as [? _].
Qed.

Lemma cons_all c :
  cons_ok c -> ahead (2 ^ 32) (cons_r c) (cons_e c) =
      ahead (2 ^ 32) (cons_r c) (cons_w c) + ahead (2 ^ 32) (cons_w c) (cons_e c) /\
    ring (cons_buf c) (cons_r c) (Z.to_nat (ahead (2 ^ 32) (cons_r c) (cons_e c))) = cons_lines c ++ cons_edit c.
Proof.
  intros [Hl Hr Hw He Hroom _]. assert (HI : INPUT_BUF = 128) by done.
  pose proof (ahead_range (2 ^ 32) ltac:(lia) (cons_r c) (cons_w c)).
  pose proof (ahead_range (2 ^ 32) ltac:(lia) (cons_w c) (cons_e c)).
  pose proof (ahead_add (2 ^ 32) ltac:(lia) (cons_r c) (cons_w c) (cons_e c) ltac:(lia)) as Ea.
  split; [exact Ea|]. rewrite Ea, Z2Nat.inj_add, ring_app, Z2Nat.id by lia. unfold cons_lines, cons_edit. f_equal.
  apply ring_mod. rewrite cons_index by done. by rewrite Hl.
Qed.

(** A character typed, before and after it may end the line. *)
Lemma cons_type c ch :
  cons_ok c -> ahead (2 ^ 32) (cons_r c) (cons_e c) < INPUT_BUF ->
  let c1 := set_cons_e (fun e => u32 (e + 1)) (set_cons_buf (insert (Z.to_nat (cons_e c mod INPUT_BUF)) ch) c) in
  let c2 := set_cons_w (fun _ => cons_e c1) c1 in
  ahead (2 ^ 32) (cons_r c) (cons_e c1) = ahead (2 ^ 32) (cons_r c) (cons_e c) + 1 /\
  (cons_lines c1 = cons_lines c /\ cons_edit c1 = cons_edit c ++ [ch] /\ (ch <> 10 -> cons_ok c1)) /\
  cons_lines c2 = cons_lines c ++ cons_edit c ++ [ch] /\ cons_edit c2 = [] /\ cons_ok c2.
Proof.
  intros Hok Hlt c1 c2. destruct (cons_all c Hok) as [Ea Eall]. pose proof Hok as [Hl Hr Hw He Hroom Hln].
  assert (HI : INPUT_BUF = 128) by done. set (M := 2 ^ 32) in *. assert (HM : 1 < M) by (unfold M; lia).
  set (r := cons_r c) in *. set (w := cons_w c) in *. set (e := cons_e c) in *. set (buf := cons_buf c) in *.
  pose proof (ahead_range M HM r w) as Hrw. pose proof (ahead_range M HM w e) as Hwe.
  assert (HM2 : 200 < M) by (unfold M; lia).
  assert (E1 : ahead M r (u32 (e + 1)) = ahead M r e + 1) by (apply (ahead_push M HM); lia).
  assert (E2 : ahead M w (u32 (e + 1)) = ahead M w e + 1) by (apply (ahead_push M HM); lia).
  assert (Hpush : ring (cons_buf c1) r (S (Z.to_nat (ahead M r e))) = (cons_lines c ++ cons_edit c) ++ [ch]).
  { rewrite <- Eall. rewrite <- ring_push by (rewrite Hl; lia). simpl. f_equal. f_equal.
    rewrite Z2Nat.id by lia. unfold M, buf, r. rewrite cons_index by done. done. }
  assert (Hl1 : length (cons_buf c1) = Z.to_nat INPUT_BUF) by (simpl; by rewrite length_insert).
  assert (Hsplit : ring (cons_buf c1) r (S (Z.to_nat (ahead M r e))) =
    ring (cons_buf c1) r (Z.to_nat (ahead M r w)) ++ ring (cons_buf c1) w (S (Z.to_nat (ahead M w e)))).
  { replace (S (Z.to_nat (ahead M r e))) with (Z.to_nat (ahead M r w) + S (Z.to_nat (ahead M w e)))%nat by lia.
    rewrite ring_app, Z2Nat.id by lia. f_equal. apply ring_mod. unfold M. rewrite cons_index by done. by rewrite Hl1. }
  rewrite Hpush, <- app_assoc in Hsplit.
  apply app_inj_1 in Hsplit as [HL HE]; [|unfold cons_lines; fold r w buf M; by rewrite !length_ring].
  assert (EL : cons_lines c1 = cons_lines c) by (unfold cons_lines at 1; simpl; symmetry; exact HL).
  assert (EE : cons_edit c1 = cons_edit c ++ [ch]).
  { rewrite HE. unfold cons_edit. simpl. fold M e w. rewrite E2. f_equal. lia. }
  split_ands; try done.
  - intros Hne. constructor; try done; simpl; [apply u32_range|fold M r w e; rewrite E2; lia|].
    rewrite EE. apply Forall_app. split; [done|]. by apply Forall_singleton.
  - unfold cons_lines at 1. simpl. fold M r e. rewrite E1.
    replace (Z.to_nat (ahead M r e + 1)) with (S (Z.to_nat (ahead M r e))) by lia.
    simpl in Hpush. by rewrite Hpush, <- app_assoc.
  - unfold cons_edit. simpl. by rewrite ahead_same.
  - constructor; try done; simpl; [apply u32_range|apply u32_range| |].
    + fold M r e. rewrite E1, ahead_same by done. lia.
    + unfold cons_edit. simpl. by rewrite ahead_same.
Qed.

(** ** Lemmas: echoing *)

Abbreviation with_tty k c s l := (set_k_dev (fun d => set_dv_uart (sent l) (set_dv_cons (fun _ => s) d)) (with_core k c)).

Lemma wp_rubout k me hs n Q :
  core_at (k_core k) me hs n -> Z.of_nat (length hs + n) + 1 < 2 ^ 30 -> dv_panicked (k_dev k) = 0 ->
  (3 <= u_ready (dv_uart (k_dev k)))%nat ->
  (forall c', core_at c' me hs n -> same_but_locks (k_core k) c' -> Q tt (with_uart (with_core k c') (sent rubout))) ->
  wp (consputc BACKSPACE) Q k.
Proof.
  intros Hc Hn Hp Hr HQ. unfold consputc. rewrite Z.eqb_refl. wp_steps.
  eapply wp_uartputc_sync; [exact Hc|exact Hn|exact Hp|lia|]. intros c1 H1 S1. wp_steps.
  eapply wp_uartputc_sync; [exact H1|exact Hn|exact Hp|simpl; lia|]. intros c2 H2 S2. simpl in S2.
  eapply wp_uartputc_sync; [exact H2|exact Hn|exact Hp|simpl; lia|]. intros c3 H3 S3. simpl in S3.
  specialize (HQ c3 H3 (same_but_locks_trans _ _ _ S1 (same_but_locks_trans _ _ _ S2 S3))).
  match goal with H : Q tt ?a |- Q tt ?b => replace b with a; [exact H|] end.
  unfold set_k_dev, set_dv_uart. simpl. by rewrite !sent_app.
Qed.

Lemma wp_kill_line fuel k me hs n Q :
  let s := dv_cons (k_dev k) in
  core_at (k_core k) me hs n -> Z.of_nat (length hs + n) + 1 < 2 ^ 30 -> dv_panicked (k_dev k) = 0 ->
  cons_ok s -> (length (cons_edit s) < fuel)%nat ->
  (3 * length (cons_edit s) <= u_ready (dv_uart (k_dev k)))%nat ->
  (forall c' s', core_at c' me hs n -> same_but_locks (k_core k) c' -> cons_ok s' ->
     cons_lines s' = cons_lines s -> cons_edit s' = [] ->
     Q tt (with_tty k c' s' (concat (replicate (length (cons_edit s)) rubout)))) ->
  wp (kill_line fuel) Q k.
Proof.
  revert k Q. induction fuel as [|fuel IH]; intros k Q s Hc Hn Hp Hok Hf Hr HQ; [lia|].
  cbn [kill_line]. unfold get_cons, get_dev. wp_steps. fold s.
  destruct (Z.eqb_spec (cons_e s) (cons_w s)) as [E|Hne].
  - wp_steps. assert (Eed : cons_edit s = []) by (unfold cons_edit; by rewrite E, ahead_same).
    specialize (HQ (k_core k) s Hc ltac:(done) Hok eq_refl Eed). rewrite Eed in HQ.
    unfold s in HQ. destruct k as [? ? ? ? ? ? ? ? ? ? ? [? [] ? ? ? ? ? ? ?]]. unfold sent in HQ. simpl in HQ.
    unfold set_u_sent, set_u_ready, set_dv_uart, set_dv_cons, set_k_dev in HQ. simpl in HQ.
    by rewrite app_nil_r, Nat.sub_0_r in HQ.
  - destruct (cons_unedit s Hok Hne) as (ch & Hch & Hed & Hln & Hok'). unfold cons_char. rewrite Hch. wp_steps.
    assert (Hnl : ch <> 10).
    { pose proof (ck_line _ Hok) as Hf'. rewrite Hed in Hf'. apply Forall_app in Hf' as [_ Hf'].
      exact (proj1 (Forall_singleton _ _) Hf'). }
    rewrite (proj2 (Z.eqb_neq _ _)) by done. unfold upd_cons. wp_steps.
    set (s1 := set_cons_e _ s) in *.
    assert (Hlen : length (cons_edit s) = S (length (cons_edit s1))) by (rewrite Hed, length_app; simpl; lia).
    eapply wp_rubout; [exact Hc|exact Hn|exact Hp|simpl; lia|]. intros c1 H1 S1. simpl in S1.
    match goal with |- wp _ _ ?k2 => assert (Ek : dv_cons (k_dev k2) = s1) by reflexivity end.
    eapply IH; rewrite ?Ek; [exact H1|exact Hn|exact Hp|exact Hok'|lia|simpl; lia|].
    intros c2 s2 H2 S2 Hok2 Hl2 He2. simpl in S2.
    specialize (HQ c2 s2 H2 (same_but_locks_trans _ _ _ S1 S2) Hok2 ltac:(by rewrite Hl2) He2).
    match goal with H : Q tt ?a |- Q tt ?b => replace b with a; [exact H|] end.
    unfold set_k_dev, set_dv_uart, set_dv_cons. simpl. rewrite sent_app. by rewrite Hlen.
Qed.

Lemma length_cons_lines s : cons_ok s -> Z.of_nat (length (cons_lines s)) = ahead (2 ^ 32) (cons_r s) (cons_w s).
Proof. intros _. unfold cons_lines. rewrite length_ring. pose proof (ahead_range (2 ^ 32) ltac:(lia) (cons_r s) (cons_w s)). lia. Qed.

Lemma length_cons_edit s : cons_ok s -> Z.of_nat (length (cons_edit s)) = ahead (2 ^ 32) (cons_w s) (cons_e s).
Proof. intros _. unfold cons_edit. rewrite length_ring. pose proof (ahead_range (2 ^ 32) ltac:(lia) (cons_w s) (cons_e s)). lia. Qed.

Lemma cons_full s x :
  cons_ok s -> 0 <= cons_e x < 2 ^ 32 -> (cons_e x =? u32 (cons_r s + INPUT_BUF)) = (ahead (2 ^ 32) (cons_r s) (cons_e x) =? 128).
Proof.
  intros [_ Hr _ _ _ _] He. apply eq_true_iff_eq. rewrite !Z.eqb_eq. split; intros E.
  - unfold ahead. rewrite E. unfold u32. rewrite Zminus_mod_idemp_l.
    replace (cons_r s + INPUT_BUF - cons_r s) with 128 by (unfold INPUT_BUF; lia). done.
  - pose proof (ahead_at (2 ^ 32) (cons_r s) (cons_e x) He) as H. rewrite E in H. by rewrite <- H.
Qed.

(** The state after a key: what is in the rings, what was echoed and who was woken. *)
Definition key_done (k : kernel) (me : nat) (ch : Z) (k' : kernel) : Prop :=
  let s := dv_cons (k_dev k) in
  let s' := dv_cons (k_dev k') in
  cons_ok s' /\
  (exists echo, typed ch (cons_lines s) (cons_edit s) = (cons_lines s', cons_edit s', echo) /\
     u_sent (dv_uart (k_dev k')) = u_sent (dv_uart (k_dev k)) ++ echo) /\
  c_procs (k_core k') = if decide (cons_lines s' = cons_lines s) then c_procs (k_core k)
                        else woken ChanCons me (c_procs (k_core k)).

(** The default branch of the switch. *)
Lemma wp_type_key k me hs n ch Q :
  let s := dv_cons (k_dev k) in
  core_at (k_core k) me hs n -> Z.of_nat (length hs + n) + 2 < 2 ^ 30 -> (forall i, LProc i ∉ hs) ->
  dv_panicked (k_dev k) = 0 -> (0 < u_ready (dv_uart (k_dev k)))%nat -> cons_ok s -> 0 <= ch < 256 ->
  ch <> Ctrl 85 -> ch <> Ctrl 72 -> ch <> 127 ->
  (forall k', core_at (k_core k') me hs n -> key_done k me ch k' -> Q tt k') ->
  wp (let* s := get_cons in
      when (negb (ch =? 0) && (u32 (cons_e s - cons_r s) <? INPUT_BUF))
        (let c := if ch =? 13 then 10 else ch in
         consputc c ;*
         upd_cons (set_cons_buf (insert (Z.to_nat (cons_e s mod INPUT_BUF)) (u8 c))) ;*
         upd_cons (set_cons_e (fun e => u32 (e + 1))) ;*
         let* s := get_cons in
         when ((c =? 10) || (c =? Ctrl 68) || (cons_e s =? u32 (cons_r s + INPUT_BUF)))
           (upd_cons (set_cons_w (fun _ => cons_e s)) ;* wakeup ChanCons))) Q k.
Proof.
  intros s Hc Hn Hp Hpan Hr Hok Hch H1 H2 H3 HQ. unfold get_cons, get_dev, upd_cons. wp_steps. fold s.
  destruct (cons_all s Hok) as [Ea _]. pose proof (length_cons_lines s Hok) as Ll. pose proof (length_cons_edit s Hok) as Le.
  assert (Hty : typed ch (cons_lines s) (cons_edit s) =
    if (ch =? 0) || (128 <=? length (cons_lines s) + length (cons_edit s))%nat then (cons_lines s, cons_edit s, [])
    else let c := if ch =? 13 then 10 else ch in
         if (c =? 10) || (c =? Ctrl 68) || (length (cons_lines s) + length (cons_edit s) + 1 =? 128)%nat
         then (cons_lines s ++ cons_edit s ++ [c], [], [c]) else (cons_lines s, cons_edit s ++ [c], [c])).
  { unfold typed. by rewrite (proj2 (Z.eqb_neq ch (Ctrl 85))), (proj2 (Z.eqb_neq ch (Ctrl 72))), (proj2 (Z.eqb_neq ch 127)) by done. }
  change (u32 (cons_e s - cons_r s)) with (ahead (2 ^ 32) (cons_r s) (cons_e s)).
  assert (Hnone : (ch =? 0) || (128 <=? length (cons_lines s) + length (cons_edit s))%nat = true -> Q tt k).
  { intros E. apply HQ; [exact Hc|]. unfold key_done. fold s. rewrite Hty, E. split; [exact Hok|].
    split; [|by rewrite decide_True]. exists []. by rewrite app_nil_r. }
  destruct (Z.eqb_spec ch 0) as [E0|E0]; [cbn [negb andb when]; wp_steps; by apply Hnone|].
  destruct (Z.ltb_spec (ahead (2 ^ 32) (cons_r s) (cons_e s)) INPUT_BUF) as [Hlt|Hge]; cbn [negb andb when].
  2: { wp_steps. apply Hnone. cbn [orb]. apply Nat.leb_le. unfold INPUT_BUF in Hge. lia. }
  assert (Hroom : (128 <=? length (cons_lines s) + length (cons_edit s))%nat = false).
  { apply Nat.leb_gt. unfold INPUT_BUF in Hlt. lia. }
  cbv zeta. set (c := if ch =? 13 then 10 else ch) in *.
  assert (Hcr : 0 <= c < 256) by (unfold c; destruct (ch =? 13); lia).
  assert (Eu8 : u8 c = c) by (unfold u8; by apply Z.mod_small).
  wp_steps. unfold consputc. rewrite (proj2 (Z.eqb_neq c BACKSPACE)) by (unfold BACKSPACE; lia).
  eapply wp_uartputc_sync; [exact Hc|lia|exact Hpan|exact Hr|]. intros c1 C1 S1. wp_steps.
  rewrite Eu8. destruct (cons_type s c Hok Hlt) as (T0 & (T1 & T2 & T3) & T4 & T5 & T6).
  set (s1 := set_cons_e _ _) in *. set (s2 := set_cons_w _ s1) in *.
  match goal with |- wp _ _ ?k2 => assert (Ek : dv_cons (k_dev k2) = s1) by reflexivity end. rewrite Ek.
  assert (Her : 0 <= cons_e s1 < 2 ^ 32) by apply u32_range.
  change (cons_r s1) with (cons_r s). rewrite (cons_full s s1 Hok Her), T0.
  assert (Ebool : (ahead (2 ^ 32) (cons_r s) (cons_e s) + 1 =? 128) =
    (length (cons_lines s) + length (cons_edit s) + 1 =? 128)%nat).
  { apply eq_true_iff_eq. rewrite Z.eqb_eq, Nat.eqb_eq. lia. }
  rewrite Ebool. rewrite Hroom in Hty. cbn [orb] in Hty. cbv zeta in Hty. fold c in Hty.
  destruct ((c =? 10) || (c =? Ctrl 68) || _) eqn:Eend; cbn [when]; wp_steps.
  - eapply wp_wakeup; [exact C1|lia|exact Hp|]. intros c2 C2 _ _ _ _ Ew. simpl in Ew. rewrite (sb_procs _ _ S1) in Ew.
    apply HQ; [exact C2|]. unfold key_done. cbv zeta. fold s.
    match goal with |- cons_ok ?x /\ _ => change x with s2 end. split; [exact T6|]. rewrite Hty, T4, T5. split; [exists [c]; split; [done|reflexivity]|]. simpl. rewrite Ew, decide_False; [done|].
    intros E. apply (f_equal length) in E. rewrite !length_app in E. simpl in E. lia.
  - apply HQ; [exact C1|]. unfold key_done. cbv zeta. fold s.
    match goal with |- cons_ok ?x /\ _ => change x with s1 end. split.
    { apply T3. intros E. by rewrite E in Eend. }
    rewrite Hty, T1, T2. split; [exists [c]; split; [done|reflexivity]|]. simpl. rewrite decide_True by done. apply (sb_procs _ _ S1).
Qed.

Lemma typed_kill lines edit : typed (Ctrl 85) lines edit = (lines, [], concat (replicate (length edit) rubout)).
Proof. reflexivity. Qed.

Lemma typed_rubout ch lines edit :
  ch = Ctrl 72 \/ ch = 127 ->
  typed ch lines edit = match edit with [] => (lines, [], []) | _ => (lines, removelast edit, rubout) end.
Proof. intros [-> | ->]; reflexivity. Qed.

(** ** Properties *)

(** C39: [consoleintr] is a line editor.  A key other than control-P changes the complete
    lines, the line being typed and the terminal as the editor prescribes: characters
    are appended and echoed, backspace and control-U take them back, a newline, a
    control-D or a full buffer completes the line; and exactly when a line is completed
    the processes waiting for input become runnable.  The counters stay consistent, also
    when they wrap around. *)
Theorem consoleintr_correct k me ch :
  core_ok (k_core k) me [] -> dv_panicked (k_dev k) = 0 -> (384 <= u_ready (dv_uart (k_dev k)))%nat ->
  cons_ok (dv_cons (k_dev k)) -> 0 <= ch < 256 -> ch <> Ctrl 80 ->
  wp (consoleintr ch) (fun _ k' => core_ok (k_core k') me [] /\ key_done k me ch k') k.
Proof.
  intros Hc Hp Hr Hok Hch HP. unfold consoleintr. wp_steps.
  eapply wp_acquire; [exact Hc|simpl; lia|set_solver|]. intros c1 C1 S1.
  set (s := dv_cons (k_dev k)) in *. pose proof (ck_room _ Hok) as Hroom. unfold INPUT_BUF in Hroom.
  pose proof (length_cons_edit s Hok) as Le. pose proof (ahead_range (2 ^ 32) ltac:(lia) (cons_r s) (cons_w s)) as Ha.
  assert (Hend : forall k', core_ok (k_core k') me [LCons] -> key_done (with_core k c1) me ch k' ->
    wp (release LCons) (fun _ k' => core_ok (k_core k') me [] /\ key_done k me ch k') k').
  { intros k' C' (D1 & D2 & D3). eapply (wp_release _ me LCons [] 0); [exact C'|]. intros c2 C2 S2.
    split; [exact C2|]. split; [exact D1|]. split; [exact D2|]. cbn [k_core set_k_core] in *.
    rewrite (sb_procs _ _ S2), D3, (sb_procs _ _ S1). done. }
  wp_steps. rewrite (proj2 (Z.eqb_neq ch (Ctrl 80))) by done.
  destruct (Z.eqb_spec ch (Ctrl 85)) as [->|H85].
  - eapply (wp_kill_line _ _ _ _ 0); cbn [k_dev set_k_core]; fold s; [exact C1|simpl; lia|exact Hp|exact Hok| | |].
    + change (S (Z.to_nat INPUT_BUF)) with 129%nat. lia.
    + lia.
    + intros c2 s2 C2 S2 Hok2 El Ee. simpl in S2. apply Hend; [exact C2|]. unfold key_done. cbv zeta. simpl. fold s.
      split; [exact Hok2|]. rewrite typed_kill, El, Ee. split; [by eexists|]. rewrite decide_True by done. apply S2.
  - destruct ((ch =? Ctrl 72) || (ch =? 127)) eqn:Eb.
    + assert (Hb : ch = Ctrl 72 \/ ch = 127) by (apply orb_true_iff in Eb as [E%Z.eqb_eq|E%Z.eqb_eq]; auto).
      unfold get_cons, get_dev, upd_cons. wp_steps. cbn [k_dev set_k_core]. fold s.
      destruct (Z.eqb_spec (cons_e s) (cons_w s)) as [E|Hne]; cbn [negb when]; wp_steps.
      * apply Hend; [exact C1|]. unfold key_done. cbv zeta. simpl. fold s.
        assert (Eed : cons_edit s = []) by (unfold cons_edit; by rewrite E, ahead_same).
        split; [exact Hok|]. rewrite typed_rubout, Eed by done. split; [exists []; by rewrite app_nil_r|].
        by rewrite decide_True.
      * destruct (cons_unedit s Hok Hne) as (x & Hx & Hed & Hln & Hok').
        eapply wp_rubout; [exact C1|simpl; lia|exact Hp|simpl; lia|]. intros c2 C2 S2. simpl in S2.
        apply Hend; [exact C2|]. unfold key_done. cbv zeta. simpl. fold s.
        split; [exact Hok'|]. rewrite typed_rubout, Hln, Hed by done. split; [|rewrite decide_True by done; apply S2].
        exists rubout. split; [|done]. destruct (cons_edit _ ++ [x]) eqn:E; [by apply app_nil in E as [_ ?]|].
        rewrite <- E. by rewrite removelast_last.
    + apply orb_false_iff in Eb as [E1%Z.eqb_neq E2%Z.eqb_neq].
      eapply (wp_type_key _ me _ 0); cbn [k_dev set_k_core]; [exact C1|simpl; lia|set_solver|exact Hp|lia|exact Hok|done..|].
      intros k' C' D'. by apply Hend.
Qed.

Lemma consoleintr_correct_witness :
  exists k', consoleintr 97 (set_k_dev (set_dv_uart (set_u_ready (fun _ => 400%nat)))
      (first_kernel sample_disk (fun _ => 0) sample_image)) = Ok tt k' /\ cons_edit (dv_cons (k_dev k')) = [97].
Proof.
  assert (Hc : core_ok (held_core []) 0 []) by (apply held_core_ok; [apply NoDup_nil_2|done]).
  assert (Hs : cons_ok (dv_cons zero_devices)).
  { constructor; [reflexivity|simpl; lia..|vm_compute; discriminate|constructor]. }
  destruct (wp_ok _ _ _ (consoleintr_correct (set_k_dev (set_dv_uart (set_u_ready (fun _ => 400%nat)))
    (first_kernel sample_disk (fun _ => 0) sample_image)) 0 97 Hc eq_refl ltac:(apply Nat.leb_le; reflexivity) Hs
    ltac:(lia) ltac:(discriminate))) as ([] & k' & E & _ & _ & (echo & Ht & _) & _).
  exists k'. split; [exact E|].
  assert (H : typed 97 (cons_lines (dv_cons zero_devices)) (cons_edit (dv_cons zero_devices)) = ([], [97], [97]))
    by (vm_compute; reflexivity).
  change (dv_cons (k_dev _)) with (dv_cons zero_devices) in Ht at 1 2. rewrite H in Ht. congruence.
Defined.
