(* ===== verification/Pipe.v ===== *)
(** * Pipes (kernel/pipe.c)

    A pipe lives in a page of its own; [k_pipes] maps the address of the page to the
    structure.  [nread] and [nwrite] count bytes modulo 2^32 and index the ring modulo
    [PIPESIZE], which divides 2^32. *)

From S2P Require Import Prelude Ring State Spin Sleep Bio Log Txn Strings Kalloc Vm FsBlock FsInode FsFile.

(** ** Definitions *)

Definition PIPESIZE : Z := 512.

Definition get_pipe (a : Z) : K pipe :=
  let* o := gets (fun k => k_pipes k !! a) in of_opt o.

Definition upd_pipe (a : Z) (g : pipe -> pipe) : K unit :=
  let* _ := get_pipe a in modify (set_k_pipes (alter g a)).

Definition pipeclose (pi : Z) (writable : bool) : K unit :=
  acquire (LPipe pi) ;*
  (if writable then
     upd_pipe pi (set_pi_writeopen (fun _ => 0)) ;*
     wakeup (ChanPipeR pi)
   else
     upd_pipe pi (set_pi_readopen (fun _ => 0)) ;*
     wakeup (ChanPipeW pi)) ;*
  let* p := get_pipe pi in
  if (pi_readopen p =? 0) && (pi_writeopen p =? 0) then
    release (LPipe pi) ;*
    modify (set_k_pipes (delete pi)) ;*
    kfree pi
  else
    release (LPipe pi).

(** The loop of [pipewrite]: it returns, or ends after [i] bytes. *)
Fixpoint pipewrite_loop (fuel : nat) (pi : Z) (pr : nat) (addr n i : Z) : K (Z + Z) :=
  match fuel with
  | O => nofuel
  | S fuel =>
      if negb (i <? n) then M_ret (inr i) else
      let* p := get_pipe pi in
      let* q := get_proc pr in
      if (pi_readopen p =? 0) || truthy (p_killed q) then
        release (LPipe pi) ;* M_ret (inl (-1))
      else if pi_nwrite p =? u32 (pi_nread p + PIPESIZE) then
        wakeup (ChanPipeR pi) ;*
        sleep (ChanPipeW pi) (LPipe pi) ;*
        nofuel
      else
        let* r := copyin (p_pagetable q) (u64 (addr + i)) 1 in
        if r.1 =? -1 then M_ret (inr i) else
        let* ch := of_opt (head r.2) in
        upd_pipe pi (set_pi_data (insert (Z.to_nat (pi_nwrite p mod PIPESIZE)) ch)) ;*
        upd_pipe pi (set_pi_nwrite (fun w => u32 (w + 1))) ;*
        pipewrite_loop fuel pi pr addr n (i + 1)
  end.

Definition pipewrite (pi addr n : Z) : K Z :=
  let* pr := curproc in
  acquire (LPipe pi) ;*
  let* r := pipewrite_loop (S (Z.to_nat n)) pi pr addr n 0 in
  match r with
  | inl r => M_ret r
  | inr i =>
      wakeup (ChanPipeR pi) ;*
      release (LPipe pi) ;*
      M_ret i
  end.

Fixpoint piperead_loop (fuel : nat) (pi : Z) (pr : nat) (addr n i : Z) : K Z :=
  match fuel with
  | O => nofuel
  | S fuel =>
      if negb (i <? n) then M_ret i else
      let* p := get_pipe pi in
      if pi_nread p =? pi_nwrite p then M_ret i else
      let* ch := of_opt (pi_data p !! Z.to_nat (pi_nread p mod PIPESIZE)) in
      upd_pipe pi (set_pi_nread (fun r => u32 (r + 1))) ;*
      let* q := get_proc pr in
      let* r := copyout (p_pagetable q) (u64 (addr + i)) [ch] in
      if r =? -1 then M_ret i else
      piperead_loop fuel pi pr addr n (i + 1)
  end.

Definition piperead (pi addr n : Z) : K Z :=
  let* pr := curproc in
  acquire (LPipe pi) ;*
  let* p := get_pipe pi in
  let* q := get_proc pr in
  if (pi_nread p =? pi_nwrite p) && truthy (pi_writeopen p) then
    if truthy (p_killed q) then
      release (LPipe pi) ;* M_ret (-1)
    else
      sleep (ChanPipeR pi) (LPipe pi) ;*
      nofuel
  else
    let* i := piperead_loop (S (Z.to_nat n)) pi pr addr n 0 in
    wakeup (ChanPipeW pi) ;*
    release (LPipe pi) ;*
    M_ret i.

(** ** Specification *)

(** The bytes written and not yet read, in order. *)
Definition in_flight (p : pipe) : nat := Z.to_nat (u32 (pi_nwrite p - pi_nread p)).
Definition queue (p : pipe) : list Z := ring (pi_data p) (pi_nread p) (in_flight p).

Record pipe_ok (p : pipe) : Prop := mkPipeOk {
  po_len : length (pi_data p) = Z.to_nat PIPESIZE;
  po_r : 0 <= pi_nread p < 2 ^ 32;
  po_w : 0 <= pi_nwrite p < 2 ^ 32;
  po_room : (in_flight p <= Z.to_nat PIPESIZE)%nat
}.

Definition room (p : pipe) : nat := Z.to_nat PIPESIZE - length (queue p).

(** The process asleep on a channel. *)
Definition asleep_on (ch : chan) (pr : proc) : proc :=
  set_p_state (fun _ => SLEEPING) (set_p_chan (fun _ => ch) pr).

(** What both ends of a pipe assume: the process [me] runs with no lock held, its page
    table and the frames it maps are sound, and the pipe is. *)
Record pipe_user (k : kernel) (me : nat) (pr : proc) (pi : Z) (p : pipe) (t : ptree) (fl : list Z) : Prop := mkPipeUser {
  pu_core : core_ok (k_core k) me [];
  pu_proc : c_procs (k_core k) !! me = Some pr;
  pu_pipe : k_pipes k !! pi = Some p;
  pu_ok : pipe_ok p;
  pu_vm : vm_ok (k_img k) (k_phys k) t fl;
  pu_frames : frames_ok (k_img k) (ph_mem (k_phys k)) t fl;
  pu_root : t !! [] = Some (p_pagetable pr)
}.

Abbreviation with_pipe k pi p := (set_k_pipes (insert pi p) k).

(** ** Lemmas *)

Lemma pipe_ring_mod buf x n : length buf = Z.to_nat PIPESIZE -> ring buf (u32 x) n = ring buf x n.
Proof.
  intros Hl. apply ring_mod. rewrite Hl. unfold u32. apply wrap_mod; [done| |lia]. by exists (2 ^ 23).
Qed.

Lemma length_queue p : length (queue p) = in_flight p.
Proof. apply length_ring. Qed.

(** The two tests of the ring. *)
Lemma pipe_full p : pipe_ok p -> pi_nwrite p = u32 (pi_nread p + PIPESIZE) <-> room p = 0%nat.
Proof.
  intros [Hl Hr Hw Hq]. unfold room. rewrite length_queue. unfold in_flight, u32 in *.
  change PIPESIZE with 512 in *. pose proof (Z.mod_pos_bound (pi_nwrite p - pi_nread p) (2 ^ 32) eq_refl). split; intros E.
  - rewrite E, Zminus_mod_idemp_l. replace (pi_nread p + 512 - pi_nread p) with 512 by lia. done.
  - assert ((pi_nwrite p - pi_nread p) mod 2 ^ 32 = 512) as E1 by lia. rewrite <- E1, Zplus_mod_idemp_r.
    replace (pi_nread p + (pi_nwrite p - pi_nread p)) with (pi_nwrite p) by lia. by rewrite Z.mod_small.
Qed.

Lemma pipe_empty p : pipe_ok p -> pi_nread p = pi_nwrite p <-> queue p = [].
Proof.
  intros [Hl Hr Hw Hq]. rewrite <- length_zero_iff_nil, length_queue. unfold in_flight.
  change (u32 (pi_nwrite p - pi_nread p)) with (ahead (2 ^ 32) (pi_nread p) (pi_nwrite p)).
  pose proof (ahead_range (2 ^ 32) ltac:(lia) (pi_nread p) (pi_nwrite p)).
  pose proof (ahead_zero (2 ^ 32) ltac:(lia) (pi_nread p) (pi_nwrite p) Hr Hw). split; intros; [|symmetry]; lia.
Qed.

(** A byte goes in at the end, and comes out at the front. *)
Lemma queue_push p c :
  pipe_ok p -> room p <> 0%nat ->
  let p' := set_pi_nwrite (fun w => u32 (w + 1)) (set_pi_data (insert (Z.to_nat (pi_nwrite p mod PIPESIZE)) c) p) in
  queue p' = queue p ++ [c] /\ pipe_ok p'.
Proof.
  intros [Hl Hr Hw Hq] Hroom p'. unfold room in Hroom. rewrite length_queue in Hroom.
  assert (HS : PIPESIZE = 512) by done.
  pose proof (ahead_range (2 ^ 32) ltac:(lia) (pi_nread p) (pi_nwrite p)) as Ha.
  assert (Eq : in_flight p' = S (in_flight p)).
  { unfold in_flight in *. simpl. unfold u32 in *. fold (ahead (2 ^ 32) (pi_nread p) (pi_nwrite p)) in *.
    fold (ahead (2 ^ 32) (pi_nread p) ((pi_nwrite p + 1) mod 2 ^ 32)). rewrite ahead_push by lia. lia. }
  split.
  - unfold queue. rewrite Eq. simpl. rewrite <- ring_push by lia. f_equal. f_equal.
    rewrite Hl. change (Z.of_nat (Z.to_nat PIPESIZE)) with PIPESIZE.
    unfold in_flight. rewrite Z2Nat.id by apply Ha. f_equal.
    pose proof (ring_index 32 (pi_data p) (pi_nread p) (pi_nwrite p)) as E. rewrite Hl in E. symmetry.
    apply E; [apply Nat.ltb_lt; reflexivity|by exists (2 ^ 23)|lia|done].
  - constructor; simpl; [by rewrite length_insert|done|apply Z.mod_pos_bound; lia|]. rewrite Eq. lia.
Qed.

Lemma queue_pop p :
  pipe_ok p -> pi_nread p <> pi_nwrite p ->
  let p' := set_pi_nread (fun r => u32 (r + 1)) p in
  exists c, pi_data p !! Z.to_nat (pi_nread p mod PIPESIZE) = Some c /\ queue p = c :: queue p' /\ pipe_ok p'.
Proof.
  intros [Hl Hr Hw Hq] Hne p'.
  assert (Eq : in_flight p = S (in_flight p')).
  { unfold in_flight. simpl. unfold u32. fold (ahead (2 ^ 32) (pi_nread p) (pi_nwrite p)).
    fold (ahead (2 ^ 32) ((pi_nread p + 1) mod 2 ^ 32) (pi_nwrite p)).
    pose proof (ahead_range (2 ^ 32) ltac:(lia) (pi_nread p) (pi_nwrite p)).
    pose proof (ahead_zero (2 ^ 32) ltac:(lia) (pi_nread p) (pi_nwrite p) Hr Hw). rewrite ahead_pop by lia. lia. }
  pose proof (Z.mod_pos_bound (pi_nread p) PIPESIZE eq_refl) as Hm.
  destruct (lookup_lt_is_Some_2 (pi_data p) (Z.to_nat (pi_nread p mod PIPESIZE))) as [c Hc]; [lia|].
  exists c. split_ands; try done.
  - unfold queue. rewrite Eq, ring_S, Hl. change (Z.of_nat (Z.to_nat PIPESIZE)) with PIPESIZE.
    rewrite (list_lookup_total_correct _ _ _ Hc). f_equal. symmetry. by apply pipe_ring_mod.
  - constructor; [done|apply Z.mod_pos_bound; lia|done|lia].
Qed.

Lemma wp_get_pipe k pi p Q : k_pipes k !! pi = Some p -> Q p k -> wp (get_pipe pi) Q k.
Proof. intros Hp HQ. unfold get_pipe. wp_steps. by apply (wp_of_opt _ p). Qed.

Lemma get_pipe_ok k pi p : k_pipes k !! pi = Some p -> get_pipe pi k = Ok p k.
Proof. intros Hp. unfold get_pipe, M_bind, gets. by rewrite Hp. Qed.

Lemma upd_pipe_ok k pi p g : k_pipes k !! pi = Some p -> upd_pipe pi g k = Ok tt (with_pipe k pi (g p)).
Proof.
  intros Hp. unfold upd_pipe. rewrite (bind_ok _ _ _ _ _ (get_pipe_ok _ _ _ Hp)). unfold modify. f_equal.
  unfold set_k_pipes. f_equal. apply map_eq. intros j. rewrite lookup_alter, lookup_insert.
  case_decide; [|done]. subst. by rewrite Hp.
Qed.

Lemma with_pipe_twice k pi p p' : with_pipe (with_pipe k pi p) pi p' = with_pipe k pi p'.
Proof. unfold set_k_pipes. simpl. by rewrite insert_insert_eq. Qed.

Lemma copyin_byte k t fl pt va b :
  vm_ok (k_img k) (k_phys k) t fl -> frames_ok (k_img k) (ph_mem (k_phys k)) t fl -> t !! [] = Some pt ->
  0 <= va -> ubytes (ph_mem (k_phys k)) t va 1 = Some [b] -> copyin pt va 1 k = Ok (0, [b]) k.
Proof.
  intros Hv Hf Hpt Hva Hb. destruct (copy_fuel_enough va 1 ltac:(lia)) as [F1 F2].
  assert (H : wp (copyin pt va 1) (fun r k' => r = (0, [b]) /\ k' = k) k).
  { eapply (wp_copyin_loop _ _ t fl); try done; change (Z.to_nat 1) with 1%nat; rewrite Hb; [|done].
    by intros ? [= <-]. }
  destruct (wp_ok _ _ _ H) as (r & k' & E & -> & ->). exact E.
Qed.

Section transfers.
Context (me : nat) (pr : proc) (pi : Z) (t : ptree) (fl : list Z).
Context (Hpt : t !! [] = Some (p_pagetable pr)).

(** Iterations of [pipewrite] that put the bytes [bs] into the ring. *)
Lemma pipewrite_run k p addr n i bs fuel :
  c_procs (k_core k) !! me = Some pr -> p_killed pr = 0 ->
  vm_ok (k_img k) (k_phys k) t fl -> frames_ok (k_img k) (ph_mem (k_phys k)) t fl ->
  k_pipes k !! pi = Some p -> pipe_ok p -> pi_readopen p <> 0 -> (length bs <= room p)%nat ->
  0 <= addr -> 0 <= i -> i + Z.of_nat (length bs) <= n ->
  ubytes (ph_mem (k_phys k)) t (addr + i) (length bs) = Some bs ->
  exists p', pipewrite_loop (length bs + fuel) pi me addr n i k =
             pipewrite_loop fuel pi me addr n (i + Z.of_nat (length bs)) (with_pipe k pi p') /\
    pipe_ok p' /\ queue p' = queue p ++ bs /\ pi_nread p' = pi_nread p /\
    pi_readopen p' = pi_readopen p /\ pi_writeopen p' = pi_writeopen p.
Proof.
  revert k p i. induction bs as [|b bs IH]; intros k p i Hpr Hk Hv Hf Hp Hok Hro Hroom Ha Hi Hn Hb.
  { exists p. rewrite app_nil_r, Z.add_0_r. split_ands; try done.
    cbn [length Nat.add]. f_equal. destruct k. unfold set_k_pipes. simpl in *. f_equal. symmetry. by apply insert_id. }
  simpl length in *. unfold ubytes in Hb. cbn [uload] in Hb.
  destruct (uaddr _ t (addr + i)) as [x|] eqn:Ex; [|done].
  destruct (uload _ _ (addr + i + 1) _) as [bs'|] eqn:E'; [|done]. injection Hb as Hb1 Hb2.
  assert (Emax : addr + i < MAXVA) by (eapply uaddr_max; by rewrite Ex). change MAXVA with (2 ^ 38) in Emax.
  assert (Eb : ubytes (ph_mem (k_phys k)) t (addr + i) 1 = Some [b]).
  { unfold ubytes. cbn [uload]. rewrite Ex. simpl. by rewrite Hb1. }
  destruct (queue_push p b Hok ltac:(lia)) as [Q1 Q2]. set (p1 := set_pi_nwrite _ _) in *.
  assert (Hroom1 : room p = S (room p1)).
  { unfold room in *. rewrite Q1, length_app. simpl. lia. }
  destruct (IH (with_pipe k pi p1) p1 (i + 1)) as (p' & Er & P1 & P2 & P3 & P4 & P5); try done; try lia.
  { simpl. apply lookup_insert_eq. }
  { unfold ubytes. subst bs'. simpl. by rewrite Z.add_assoc. }
  exists p'. split_ands; try done; [|by rewrite P2, Q1, <- app_assoc].
  rewrite with_pipe_twice in Er. replace (i + Z.of_nat (S (length bs))) with (i + 1 + Z.of_nat (length bs)) by lia.
  rewrite <- Er. cbn [Nat.add pipewrite_loop]. rewrite (proj2 (Z.ltb_lt i n)) by lia. cbn [negb].
  rewrite (bind_ok _ _ _ _ _ (get_pipe_ok _ _ _ Hp)), (bind_ok _ _ _ pr k) by (unfold get_proc, M_bind, gets; by rewrite Hpr).
  rewrite (proj2 (Z.eqb_neq _ _) Hro), Hk. cbn [truthy Z.eqb negb orb].
  rewrite (proj2 (Z.eqb_neq _ _)) by (rewrite pipe_full by done; lia).
  rewrite u64_small by lia. rewrite (bind_ok _ _ _ (0, [b]) k) by (apply (copyin_byte k t fl); (done || lia)).
  change ((0, [b]).1 =? -1) with false. cbv iota. change (head (0, [b]).2) with (Some b). rewrite (bind_ok _ _ _ b k) by done.
  rewrite (bind_ok _ _ _ _ _ (upd_pipe_ok _ _ _ _ Hp)).
  rewrite (bind_ok _ _ _ _ _ (upd_pipe_ok _ _ _ _ (lookup_insert_eq _ _ _))), with_pipe_twice. reflexivity.
Qed.

(** Reading: [l] of the [m] bytes are at [addr], the others are still in the ring. *)
Lemma wp_piperead_loop fuel k0 k p addr n l m Q :
  vm_ok (k_img k0) (k_phys k0) t fl -> frames_ok (k_img k0) (ph_mem (k_phys k0)) t fl ->
  0 <= addr < 2 ^ 64 -> is_Some (ubytes (ph_mem (k_phys k0)) t addr m) ->
  c_procs (k_core k) !! me = Some pr -> k_pipes k !! pi = Some p -> pipe_ok p -> stored_at k0 t fl addr l k ->
  (length l <= m)%nat -> m = Nat.min (Z.to_nat n) (length l + length (queue p)) -> 0 <= n -> (m < fuel + length l)%nat ->
  (forall p' m', let k' := set_k_phys (set_ph_mem m') (with_pipe k pi p') in
     pipe_ok p' -> queue p' = drop (m - length l) (queue p) ->
     pi_readopen p' = pi_readopen p -> pi_writeopen p' = pi_writeopen p ->
     stored_at k0 t fl addr (l ++ take (m - length l) (queue p)) k' -> Q (Z.of_nat m) k') ->
  wp (piperead_loop fuel pi me addr n (Z.of_nat (length l))) Q k.
Proof.
  revert k p l Q. induction fuel as [|fuel IH]; intros k p l Q Hv Hf Ha Hm Hpr Hp Hok Hst Hlm Em Hn Hfl HQ; [lia|].
  assert (Hend : (m - length l = 0)%nat -> Q (Z.of_nat (length l)) k).
  { intros E. specialize (HQ p (fun x => x) Hok). rewrite E in HQ. cbv zeta in HQ.
    assert (Ek : set_k_phys (set_ph_mem (fun x => x)) (with_pipe k pi p) = k).
    { destruct k as [? ? ? ? ? ? ? ? [] ? ? ?]. unfold set_k_phys, set_k_pipes. simpl in *. f_equal. by apply insert_id. }
    rewrite Ek, drop_0, take_0, app_nil_r in HQ. replace (length l) with m by lia. by apply HQ. }
  cbn [piperead_loop]. destruct (Z.ltb_spec (Z.of_nat (length l)) n) as [Hlt|Hge]; cbn [negb].
  2:{ wp_steps. apply Hend. lia. }
  wp_steps. eapply wp_get_pipe; [exact Hp|]. destruct (Z.eqb_spec (pi_nread p) (pi_nwrite p)) as [E|Hne].
  { wp_steps. apply Hend. apply pipe_empty in E; [|done]. rewrite E in Em. simpl in Em. lia. }
  destruct (queue_pop p Hok Hne) as (c & Hc & Hq & Hok'). set (p1 := set_pi_nread _ p) in *.
  rewrite Hc. rewrite Hq in Em. simpl in Em. wp_steps.
  unfold wp at 1. rewrite (upd_pipe_ok _ _ _ _ Hp). fold p1. wp_steps. eapply wp_get_proc; [exact Hpr|]. wp_steps.
  eapply (wp_copyout_next k0 _ _ t fl addr l [c] m); try done; [rewrite length_app; simpl; lia|].
  intros m2 k1 St1. change (0 =? -1) with false. cbv iota.
  replace (Z.of_nat (length l) + 1) with (Z.of_nat (length (l ++ [c]))) by (rewrite length_app; simpl; lia).
  assert (Hl1 : length (l ++ [c]) = S (length l)) by (rewrite length_app; simpl; lia).
  eapply (IH k1 p1); try done; [apply lookup_insert_eq|lia|lia|lia|].
  intros p' m' k' P1 P2 P3 P4 P5. assert (Ed : (m - length l = S (m - length (l ++ [c])))%nat) by lia.
  rewrite Ed, Hq in HQ. specialize (HQ p' (fun x => m' m2)).
  assert (Ek : set_k_phys (set_ph_mem (fun x => m' m2)) (with_pipe k pi p') = k').
  { unfold k', k1. unfold set_k_phys, set_ph_mem, set_k_pipes. simpl. by rewrite insert_insert_eq. }
  cbv zeta in HQ. rewrite Ek in HQ. apply HQ; try done. simpl. by rewrite <- app_assoc in P5.
Qed.
End transfers.

(** Both operations start with the lock of the pipe. *)
Lemma pipe_enter k me pi :
  core_ok (k_core k) me [] ->
  exists c, core_ok c me [LPipe pi] /\ same_but_locks (k_core k) c /\
    forall {A} (f : nat -> K A), (let* pr := curproc in acquire (LPipe pi) ;* f pr) k = f me (with_core k c).
Proof.
  intros Hc. assert (H : wp (let* pr := curproc in acquire (LPipe pi) ;* M_ret pr) (fun r k' => r = me /\
    exists c, k' = with_core k c /\ core_ok c me [LPipe pi] /\ same_but_locks (k_core k) c) k).
  { wp_steps. eapply wp_curproc; [exact Hc|simpl; lia|]. intros c1 H1 S1. wp_steps.
    eapply wp_acquire; [exact H1|simpl; lia|set_solver|]. intros c2 H2 S2. wp_steps. split; [done|].
    exists c2. split_ands; [done|done|]. by eapply same_but_locks_trans. }
  destruct (wp_ok _ _ _ H) as (r & k' & E & -> & c & -> & Hcc & S). exists c. split_ands; [done..|].
  intros A f. unfold M_bind in *. destruct (curproc k); try done. destruct (acquire _ _); try done.
  injection E as -> ->. done.
Qed.

Section writing.
Context (k : kernel) (me : nat) (pr : proc) (pi : Z) (p : pipe) (t : ptree) (fl : list Z) (addr : Z) (bs : list Z).
Context (HU : pipe_user k me pr pi p t fl) (Ha : 0 <= addr).
Context (Hb : ubytes (ph_mem (k_phys k)) t addr (length bs) = Some bs).

Lemma pipewrite_prefix c fuel l :
  same_but_locks (k_core k) c -> p_killed pr = 0 -> pi_readopen p <> 0 -> l = take (length l) bs ->
  (length l <= room p)%nat -> (length l <= length bs)%nat ->
  exists p', pipewrite_loop (length l + fuel) pi me addr (Z.of_nat (length bs)) 0 (with_core k c) =
             pipewrite_loop fuel pi me addr (Z.of_nat (length bs)) (Z.of_nat (length l)) (with_pipe (with_core k c) pi p') /\
    pipe_ok p' /\ queue p' = queue p ++ l /\ pi_readopen p' = pi_readopen p.
Proof.
  destruct HU as [Hc Hpr Hp Hok Hv Hf Hpt]. intros S Hk Hro El Hl Hlb.
  destruct (pipewrite_run me pr pi t fl Hpt (with_core k c) p addr (Z.of_nat (length bs)) 0 l fuel)
    as (p' & E & P1 & P2 & _ & P3 & _); try done; [simpl; by rewrite (sb_procs _ _ S)|lia| |by exists p'].
  rewrite Z.add_0_r. cbn [k_phys set_k_core].
  destruct (uload_part _ _ _ (length l) 0 _ (mk_is_Some _ _ Hb) ltac:(lia)) as [[l' Hl'] _].
  unfold ubytes in *. rewrite Hl'. f_equal. replace (length bs) with (length l + (length bs - length l))%nat in Hb by lia.
  rewrite uload_app, Hl' in Hb. simpl in Hb. destruct (uload _ _ _ (length bs - _)); [|done]. injection Hb as Hb'.
  apply uload_length in Hl'. rewrite El, <- Hb', <- Hl'. symmetry. apply take_app_length.
Qed.

Lemma wp_pipewrite_broken n :
  0 < n -> pi_readopen p = 0 \/ p_killed pr <> 0 ->
  wp (pipewrite pi addr n) (fun r k' => r = -1 /\
    exists c', k' = with_core k c' /\ core_ok c' me [] /\ same_but_locks (k_core k) c') k.
Proof.
  destruct HU as [Hc Hpr Hp Hok Hv Hf Hpt]. intros Hn Hbad.
  destruct (pipe_enter k me pi Hc) as (c & H1 & S1 & Er). unfold pipewrite. eapply wp_same; [apply Er|]. wp_steps.
  cbn [pipewrite_loop]. rewrite (proj2 (Z.ltb_lt 0 n)) by done. cbn [negb]. wp_steps. eapply wp_get_pipe; [exact Hp|].
  wp_steps. eapply wp_get_proc; [simpl; rewrite (sb_procs _ _ S1); exact Hpr|].
  assert (((pi_readopen p =? 0) || truthy (p_killed pr)) = true) as ->.
  { unfold truthy. destruct Hbad; [by rewrite (proj2 (Z.eqb_eq _ _))|].
    rewrite (proj2 (Z.eqb_neq (p_killed pr) 0)) by done. by destruct (_ =? _). }
  wp_steps. eapply (wp_release _ me _ [] 0); [exact H1|]. intros c3 H3 S3. wp_steps. split; [done|].
  exists c3. split_ands; [done|done|]. eapply same_but_locks_trans; [exact S1|exact S3].
Qed.

Lemma wp_pipewrite_fits :
  p_killed pr = 0 -> pi_readopen p <> 0 -> (length bs <= room p)%nat ->
  wp (pipewrite pi addr (Z.of_nat (length bs))) (fun r k' => r = Z.of_nat (length bs) /\
    exists c' p', k' = with_pipe (with_core k c') pi p' /\ core_ok c' me [] /\
      c_procs c' = woken (ChanPipeR pi) me (c_procs (k_core k)) /\ pipe_ok p' /\ queue p' = queue p ++ bs) k.
Proof.
  intros Hk Hro Hfit. destruct (pipe_enter k me pi (pu_core _ _ _ _ _ _ _ HU)) as (c & H1 & S1 & Er).
  unfold pipewrite. eapply wp_same; [apply Er|]. apply wp_bind.
  destruct (pipewrite_prefix c 1 bs S1 Hk Hro ltac:(by rewrite take_ge by lia) Hfit ltac:(lia)) as (p' & E & P1 & P2 & _).
  eapply wp_same; [rewrite Nat2Z.id, <- Nat.add_1_r; exact E|]. cbn [pipewrite_loop]. rewrite Z.ltb_irrefl.
  cbn [negb]. wp_steps. eapply wp_wakeup; [exact H1|simpl; lia|set_solver|]. intros c3 H3 _ _ _ _ W3. simpl in W3. wp_steps.
  eapply (wp_release _ me _ [] 0); [exact H3|]. intros c4 H4 S4. wp_steps. split; [done|]. exists c4, p'.
  split_ands; try done. rewrite (sb_procs _ _ S4). simpl. by rewrite W3, (sb_procs _ _ S1).
Qed.

Lemma pipewrite_blocks :
  p_killed pr = 0 -> pi_readopen p <> 0 -> (room p < length bs)%nat ->
  exists c' p', pipewrite pi addr (Z.of_nat (length bs)) k =
      Wait (Sleeping (ChanPipeW pi)) (with_pipe (with_core k c') pi p') /\
    core_ok c' me [LProc me] /\
    c_procs c' = <[me := asleep_on (ChanPipeW pi) pr]> (woken (ChanPipeR pi) me (c_procs (k_core k))) /\
    pipe_ok p' /\ queue p' = queue p ++ take (room p) bs /\ room p' = 0%nat.
Proof.
  intros Hk Hro Hlt. pose proof HU as [Hc Hpr _ _ _ _ _].
  destruct (pipe_enter k me pi Hc) as (c & H1 & S1 & Er). unfold pipewrite. rewrite Er.
  set (l := take (room p) bs). assert (Hll : length l = room p) by (unfold l; rewrite length_take; lia).
  destruct (pipewrite_prefix c (S (length bs - room p)) l S1 Hk Hro ltac:(by rewrite Hll) ltac:(lia) ltac:(lia))
    as (p' & E & P1 & P2 & P3).
  assert (Hfull : room p' = 0%nat) by (unfold room in *; rewrite P2, length_app; lia).
  match goal with |- context [?m (with_core k c) = _] =>
    assert (Hw : waits m (Sleeping (ChanPipeW pi)) (fun k' => exists c', k' = with_pipe (with_core k c') pi p' /\
      core_ok c' me [LProc me] /\
      c_procs c' = <[me := asleep_on (ChanPipeW pi) pr]> (woken (ChanPipeR pi) me (c_procs (k_core k)))) (with_core k c)) end.
  { apply waits_bind_l.
    eapply waits_same; [rewrite Nat2Z.id; replace (S (length bs)) with (length l + S (length bs - room p))%nat by lia; exact E|].
    cbn [pipewrite_loop]. rewrite (proj2 (Z.ltb_lt _ _)) by lia. cbn [negb]. wp_steps.
    eapply wp_get_pipe; [apply lookup_insert_eq|]. wp_steps.
    eapply wp_get_proc; [simpl; rewrite (sb_procs _ _ S1); exact Hpr|].
    rewrite P3, Hk, (proj2 (Z.eqb_neq _ _) Hro). cbn [truthy Z.eqb negb orb].
    rewrite (proj2 (Z.eqb_eq _ _)) by (by apply pipe_full). wp_steps.
    eapply wp_wakeup; [exact H1|simpl; lia|set_solver|]. intros c3 H3 _ _ _ _ W3. simpl in W3.
    apply waits_bind_l. eapply waits_sleep; [exact H3|done| |].
    - simpl. rewrite W3, (sb_procs _ _ S1). unfold woken. rewrite list_lookup_imap, Hpr. simpl. unfold wake_one.
      rewrite decide_False by tauto. done.
    - intros c4 H4 _ _ E4. exists c4. split_ands; try done. rewrite E4. simpl. by rewrite W3, (sb_procs _ _ S1). }
  destruct (waits_ok _ _ _ _ Hw) as (k' & Ek & c' & -> & H2 & H3). exists c', p'. by split_ands.
Qed.
End writing.

(** ** Properties *)

(** C30: a pipe is a bounded queue of bytes, at its writing end.  [pipewrite] of the
    bytes [bs] of the caller's memory fails when the reading end is closed or the caller
    has been killed, and the pipe is as it was.  With room for [bs] it returns their
    number, has appended them in order and woken the readers.  Otherwise it has appended
    as many as there is room for and woken the readers, and sleeps until one of them
    makes room. *)
Theorem pipewrite_appends k me pr pi p t fl addr bs :
  pipe_user k me pr pi p t fl -> 0 <= addr -> bs <> [] ->
  ubytes (ph_mem (k_phys k)) t addr (length bs) = Some bs ->
  let woken_procs := woken (ChanPipeR pi) me (c_procs (k_core k)) in
  let n := Z.of_nat (length bs) in
  if decide (pi_readopen p = 0 \/ p_killed pr <> 0)
  then wp (pipewrite pi addr n) (fun r k' => r = -1 /\
         exists c', k' = with_core k c' /\ core_ok c' me [] /\ same_but_locks (k_core k) c') k
  else if decide (length bs <= room p)%nat
  then wp (pipewrite pi addr n) (fun r k' => r = n /\
         exists c' p', k' = with_pipe (with_core k c') pi p' /\ core_ok c' me [] /\ c_procs c' = woken_procs /\
           pipe_ok p' /\ queue p' = queue p ++ bs) k
  else exists c' p', pipewrite pi addr n k = Wait (Sleeping (ChanPipeW pi)) (with_pipe (with_core k c') pi p') /\
         core_ok c' me [LProc me] /\ c_procs c' = <[me := asleep_on (ChanPipeW pi) pr]> woken_procs /\
         pipe_ok p' /\ queue p' = queue p ++ take (room p) bs /\ room p' = 0%nat.
Proof.
  intros HU Ha Hne Hb wk n. destruct (decide (_ \/ _)) as [Hbad|Hbad]; [|destruct (decide (_ <= _)%nat) as [Hfit|Hfit]].
  - eapply wp_pipewrite_broken; try done. unfold n. destruct bs; [done|simpl; lia].
  - apply Decidable.not_or in Hbad as [Hro Hk]. eapply wp_pipewrite_fits; try done. lia.
  - apply Decidable.not_or in Hbad as [Hro Hk]. eapply pipewrite_blocks; try done; lia.
Qed.

(** An empty pipe whose counters are about to wrap around, and a process that holds it. *)
Definition sample_pipe : pipe := mkPipe (replicate 512 0) (2 ^ 32 - 1) (2 ^ 32 - 1) 1 1.
Definition pipe_kernel (p : pipe) : kernel := with_pipe space_kernel 0x80200000 p.

Lemma sample_pipe_user p : pipe_ok p -> pipe_user (pipe_kernel p) 0 first_proc 0x80200000 p sample_tree [0x80100000].
Proof.
  intros Hp. constructor; try done.
  - apply (held_core_ok []); [constructor|done].
  - exact space_vm_ok.
  - exact space_frames_ok.
Qed.

Lemma pipewrite_appends_witness :
  exists k', pipewrite 0x80200000 0 3 (pipe_kernel sample_pipe) = Ok 3 k' /\
    queue <$> (k_pipes k' !! 0x80200000) = Some [0; 0; 0].
Proof.
  assert (Hb : ubytes sample_mem sample_tree 0 3 = Some [0; 0; 0]).
  { unfold ubytes. cbn [uload]. rewrite !sample_uaddr by lia. vm_compute. reflexivity. }
  assert (Hp : pipe_ok sample_pipe).
  { constructor; [apply length_replicate|simpl; lia|simpl; lia|vm_compute; lia]. }
  pose proof (pipewrite_appends (pipe_kernel sample_pipe) 0 first_proc 0x80200000 sample_pipe sample_tree [0x80100000] 0
    [0; 0; 0] (sample_pipe_user _ Hp) ltac:(lia) ltac:(discriminate) Hb) as H.
  cbv zeta in H. rewrite decide_False in H by (intros [E|E]; [discriminate E|by apply E]).
  rewrite decide_True in H by (vm_compute; lia).
  destruct (wp_ok _ _ _ H) as (r & k' & E & -> & c' & p' & -> & _ & _ & _ & Hq).
  eexists. split; [exact E|]. cbn [k_pipes set_k_pipes]. rewrite lookup_insert_eq. simpl. f_equal. exact Hq.
Defined.

(** C31: a pipe is a bounded queue of bytes, at its reading end.  Of an empty pipe with a
    writer [piperead] fails when the caller has been killed, and otherwise sleeps until a
    writer wakes it.  Otherwise it returns the number of bytes it has taken from the
    front of the queue, [n] or all of them (0 at end of file), has stored them in order
    in the caller's memory, and has woken the writers. *)
Theorem piperead_takes k me pr pi p t fl addr n :
  pipe_user k me pr pi p t fl -> 0 <= addr < 2 ^ 64 -> 0 <= n ->
  let m := Nat.min (Z.to_nat n) (length (queue p)) in
  is_Some (ubytes (ph_mem (k_phys k)) t addr m) ->
  if decide (queue p = [] /\ pi_writeopen p <> 0)
  then if decide (p_killed pr = 0)
    then exists c', piperead pi addr n k = Wait (Sleeping (ChanPipeR pi)) (with_core k c') /\
           core_ok c' me [LProc me] /\ c_procs c' = <[me := asleep_on (ChanPipeR pi) pr]> (c_procs (k_core k))
    else wp (piperead pi addr n) (fun r k' => r = -1 /\
           exists c', k' = with_core k c' /\ core_ok c' me [] /\ same_but_locks (k_core k) c') k
  else wp (piperead pi addr n) (fun r k' => r = Z.of_nat m /\
         stored_at k t fl addr (take m (queue p)) k' /\
         exists c' p' m', k' = set_k_phys (set_ph_mem m') (with_pipe (with_core k c') pi p') /\ core_ok c' me [] /\
           c_procs c' = woken (ChanPipeW pi) me (c_procs (k_core k)) /\
           pipe_ok p' /\ queue p' = drop m (queue p) /\ pi_writeopen p' = pi_writeopen p) k.
Proof.
  intros [Hc Hpr Hp Hok Hv Hf Hpt] Ha Hn m Hm. destruct (pipe_enter k me pi Hc) as (c & H1 & S1 & Er).
  assert (Hpr1 : c_procs c !! me = Some pr) by (by rewrite (sb_procs _ _ S1)).
  assert (Ht : (pi_nread p =? pi_nwrite p) && truthy (pi_writeopen p) = bool_decide (queue p = [] /\ pi_writeopen p <> 0)).
  { unfold truthy. apply eq_true_iff_eq. pose proof (pipe_empty p Hok).
    rewrite bool_decide_eq_true, andb_true_iff, negb_true_iff, Z.eqb_eq, Z.eqb_neq. tauto. }
  destruct (decide (queue p = [] /\ pi_writeopen p <> 0)) as [Hd|Hd]; [destruct (decide (p_killed pr = 0)) as [Hk|Hk]|].
  - unfold piperead. rewrite Er.
    match goal with |- context [?m (with_core k c) = _] =>
      assert (Hw : waits m (Sleeping (ChanPipeR pi)) (fun k' => exists c', k' = with_core k c' /\ core_ok c' me [LProc me] /\
        c_procs c' = <[me := asleep_on (ChanPipeR pi) pr]> (c_procs (k_core k))) (with_core k c)) end.
    { wp_steps. eapply wp_get_pipe; [exact Hp|]. wp_steps. eapply wp_get_proc; [exact Hpr1|].
      rewrite Ht, bool_decide_eq_true_2, Hk by done. cbn [truthy Z.eqb negb]. apply waits_bind_l.
      eapply waits_sleep; [exact H1|done|exact Hpr1|]. intros c4 H4 _ _ E4. exists c4. split_ands; try done.
      rewrite E4. simpl. by rewrite (sb_procs _ _ S1). }
    destruct (waits_ok _ _ _ _ Hw) as (k' & Ek & c' & -> & H2 & H3). by exists c'.
  - unfold piperead. eapply wp_same; [apply Er|]. wp_steps. eapply wp_get_pipe; [exact Hp|]. wp_steps.
    eapply wp_get_proc; [exact Hpr1|]. rewrite Ht, bool_decide_eq_true_2 by done. unfold truthy.
    rewrite (proj2 (Z.eqb_neq _ _) Hk). cbn [negb]. wp_steps.
    eapply (wp_release _ me _ [] 0); [exact H1|]. intros c3 H3 S3. wp_steps. split; [done|]. exists c3.
    split_ands; [done|done|]. eapply same_but_locks_trans; [exact S1|exact S3].
  - unfold piperead. eapply wp_same; [apply Er|]. wp_steps. eapply wp_get_pipe; [exact Hp|]. wp_steps.
    eapply wp_get_proc; [exact Hpr1|]. rewrite Ht, bool_decide_eq_false_2 by done. apply wp_bind.
    eapply (wp_piperead_loop me pr pi t fl Hpt _ k (with_core k c) p addr n [] m); try done.
    { exact (stored_at_nil k t fl addr Hv Hf). } { simpl. lia. } { simpl. unfold m. lia. }
    intros p' m' k' P1 P2 _ P3 P4. simpl in P2, P4. rewrite Nat.sub_0_r in *. wp_steps.
    eapply wp_wakeup; [exact H1|simpl; lia|set_solver|]. intros c3 H3 _ _ _ _ W3. simpl in W3. wp_steps.
    eapply (wp_release _ me _ [] 0); [exact H3|]. intros c4 H4 S4. wp_steps. split_ands; [done|exact P4|].
    exists c4, p', m'. split_ands; try done. rewrite (sb_procs _ _ S4). simpl. by rewrite W3, (sb_procs _ _ S1).
Qed.

Lemma piperead_takes_witness :
  exists k', piperead 0x80200000 0 2 (pipe_kernel (mkPipe (<[511%nat := 7]> (<[0%nat := 8]> (replicate 512 0))) (2 ^ 32 - 1) 2 1 1)) = Ok 2 k'.
Proof.
  set (p := mkPipe _ _ _ _ _).
  assert (Hp : pipe_ok p).
  { constructor; [reflexivity|simpl; lia|simpl; lia|vm_compute; lia]. }
  assert (Hq : queue p = [7; 8; 0]) by (vm_compute; reflexivity).
  assert (Hb : is_Some (ubytes sample_mem sample_tree 0 (Nat.min (Z.to_nat 2) (length (queue p))))).
  { rewrite Hq. change (Nat.min _ _) with 2%nat. unfold ubytes. cbn [uload]. rewrite !sample_uaddr by lia. vm_compute. by eexists. }
  pose proof (piperead_takes (pipe_kernel p) 0 first_proc 0x80200000 p sample_tree [0x80100000] 0 2
    (sample_pipe_user _ Hp) ltac:(lia) ltac:(lia) Hb) as H.
  rewrite Hq in H. rewrite decide_False in H by (intros [E _]; discriminate E).
  destruct (wp_ok _ _ _ H) as (r & k' & E & -> & _). exists k'. exact E.
Defined.
