(* ===== verification/File.v ===== *)
(** * Open files (kernel/file.c, and [pipealloc] of kernel/pipe.c) *)

From S2P Require Import Prelude State Spin Sleep Uart Printf Bio Log Txn Strings Kalloc Vm FsBlock FsInode FsDir Console Pipe.

(** ** Definitions *)

Definition fileinit : K unit := initlock LFtable "ftable".

Definition filealloc : K (option nat) :=
  acquire LFtable ;*
  let* r := for_find (seq 0 NFILE) (fun f =>
    let* x := get_file f in
    if f_ref x =? 0 then
      upd_file f (set_f_ref (fun _ => 1)) ;*
      M_ret (Some f)
    else M_ret None) in
  release LFtable ;*
  M_ret r.

Definition filedup (f : nat) : K nat :=
  acquire LFtable ;*
  let* x := get_file f in
  if f_ref x <? 1 then panic "filedup" else
  upd_file f (set_f_ref (fun r => i32 (r + 1))) ;*
  release LFtable ;*
  M_ret f.

Definition fileclose (f : nat) : K unit :=
  acquire LFtable ;*
  let* x := get_file f in
  if f_ref x <? 1 then panic "fileclose" else
  upd_file f (set_f_ref (fun r => i32 (r - 1))) ;*
  let* ff := get_file f in
  if 0 <? f_ref ff then release LFtable else
  upd_file f (set_f_ref (fun _ => 0)) ;*
  upd_file f (set_f_type (fun _ => FD_NONE)) ;*
  release LFtable ;*
  match f_type ff with
  | FD_PIPE => pipeclose (f_pipe ff) (truthy (f_writable ff))
  | FD_INODE | FD_DEVICE =>
      begin_op ;*
      iput (f_ip ff) ;*
      end_op
  | FD_NONE => M_ret tt
  end.

(** The bytes of a [struct stat]; [pad] are the four that no field covers. *)
Definition stat_bytes (st : stat) (pad : list Z) : list Z :=
  le_split 4 (st_dev st) ++ le_split 4 (st_ino st) ++ le_split 2 (st_type st) ++ le_split 2 (st_nlink st) ++
  pad ++ le_split 8 (st_size st).

Definition filestat (f : nat) (addr : Z) (pad : list Z) : K Z :=
  let* p := curproc in
  let* x := get_file f in
  match f_type x with
  | FD_INODE | FD_DEVICE =>
      ilock (f_ip x) ;*
      let* ip := get_inode (f_ip x) in
      let st := stati ip in
      iunlock (f_ip x) ;*
      let* pr := get_proc p in
      let* r := copyout (p_pagetable pr) addr (stat_bytes st pad) in
      if r <? 0 then M_ret (-1) else M_ret 0
  | _ => M_ret (-1)
  end.

(** The functions of [devsw[major]]. *)
Definition dev_fns (major : Z) : K (option devfn * option devfn) :=
  let* sw := get_dev dv_devsw in
  of_opt (sw !! Z.to_nat major).

Definition run_dev (fn : devfn) (addr n : Z) : K Z :=
  match fn with
  | ConsoleRead => consoleread (ToUser addr) n
  | ConsoleWrite => consolewrite (FromUser addr) n
  end.

Definition fileread (f : nat) (addr n : Z) : K Z :=
  let* x := get_file f in
  if f_readable x =? 0 then M_ret (-1) else
  match f_type x with
  | FD_PIPE => piperead (f_pipe x) addr n
  | FD_DEVICE =>
      if (f_major x <? 0) || (NDEV <=? f_major x) then M_ret (-1) else
      let* fns := dev_fns (f_major x) in
      match fns.1 with
      | None => M_ret (-1)
      | Some fn => run_dev fn addr n
      end
  | FD_INODE =>
      ilock (f_ip x) ;*
      let* x := get_file f in
      let* r := readi (f_ip x) (ToUser addr) (f_off x) (u32 n) in
      when (0 <? r.1) (upd_file f (set_f_off (fun o => u32 (o + r.1)))) ;*
      iunlock (f_ip x) ;*
      M_ret r.1
  | FD_NONE => panic "fileread"
  end.

Definition FILE_CHUNK : Z := (MAXOPBLOCKS - 1 - 1 - 2) / 2 * BSIZE.

(** The loop of [filewrite] for an inode, from [i] on; its result is the final [i]. *)
Fixpoint filewrite_loop (fuel : nat) (f : nat) (addr n i : Z) : K Z :=
  match fuel with
  | O => nofuel
  | S fuel =>
      if negb (i <? n) then M_ret i else
      let n1 := if FILE_CHUNK <? n - i then FILE_CHUNK else n - i in
      begin_op ;*
      let* x := get_file f in
      ilock (f_ip x) ;*
      let* x := get_file f in
      let* r := writei (f_ip x) (FromUser (u64 (addr + i))) (f_off x) n1 in
      when (0 <? r) (upd_file f (set_f_off (fun o => u32 (o + r)))) ;*
      iunlock (f_ip x) ;*
      end_op ;*
      if negb (r =? n1) then M_ret i else
      filewrite_loop fuel f addr n (i + r)
  end.

Definition filewrite (f : nat) (addr n : Z) : K Z :=
  let* x := get_file f in
  if f_writable x =? 0 then M_ret (-1) else
  match f_type x with
  | FD_PIPE => pipewrite (f_pipe x) addr n
  | FD_DEVICE =>
      if (f_major x <? 0) || (NDEV <=? f_major x) then M_ret (-1) else
      let* fns := dev_fns (f_major x) in
      match fns.2 with
      | None => M_ret (-1)
      | Some fn => run_dev fn addr n
      end
  | FD_INODE =>
      let* i := filewrite_loop (S (Z.to_nat (n / FILE_CHUNK) + 1)) f addr n 0 in
      M_ret (if i =? n then n else -1)
  | FD_NONE => panic "filewrite"
  end.

(** A new pipe in the page [pi], with the bytes the page had. *)
Definition new_pipe (data : list Z) : pipe := mkPipe data 0 0 1 1.

Definition pipe_file (readable writable : bool) (pi : Z) (x : file) : file :=
  set_f_pipe (fun _ => pi) (set_f_writable (fun _ => zb writable)
    (set_f_readable (fun _ => zb readable) (set_f_type (fun _ => FD_PIPE) x))).

(** The path [bad] of [pipealloc]. *)
Definition pipealloc_bad (f0 f1 : option nat) : K (option (nat * nat)) :=
  match f0 with Some f => fileclose f | None => M_ret tt end ;*
  match f1 with Some f => fileclose f | None => M_ret tt end ;*
  M_ret None.

Definition pipealloc : K (option (nat * nat)) :=
  let* r0 := filealloc in
  match r0 with
  | None => pipealloc_bad None None
  | Some f0 =>
      let* r1 := filealloc in
      match r1 with
      | None => pipealloc_bad (Some f0) None
      | Some f1 =>
          let* pi := kalloc in
          if pi =? 0 then pipealloc_bad (Some f0) (Some f1) else
          let* data := ld_mem (pi + 24) (Z.to_nat PIPESIZE) in
          modify (set_k_pipes (insert pi (new_pipe data))) ;*
          initlock (LPipe pi) "pipe" ;*
          upd_file f0 (pipe_file true false pi) ;*
          upd_file f1 (pipe_file false true pi) ;*
          M_ret (Some (f0, f1))
      end
  end.
