(* ===== verification/Proc.v ===== *)
(** * Processes (kernel/proc.c)

    A context switch ends a computation: [sched] is the outcome [Wait] of the process,
    [scheduler_visit] that of the scheduler when it has chosen a process.  What each of
    them does after it is switched back to is a definition of its own ([yield_return],
    [scheduler_back]). *)

From S2P Require Import Prelude State Spin Sleep Uart Printf Bio Log Txn Strings Kalloc Vm FsBlock FsInode FsDir Console Pipe File.

(** ** Definitions: the trap frame *)

(** Offsets in [struct trapframe]. *)
Definition TF_KERNEL_SATP : Z := 0.
Definition TF_KERNEL_SP : Z := 8.
Definition TF_KERNEL_TRAP : Z := 16.
Definition TF_EPC : Z := 24.
Definition TF_KERNEL_HARTID : Z := 32.
Definition TF_SP : Z := 48.
Definition TF_A0 : Z := 112.
Definition TF_A1 : Z := 120.
Definition TF_A7 : Z := 168.
Definition TF_SIZE : nat := 288.

Definition ld_tf (p : nat) (off : Z) : K Z :=
  let* pr := get_proc p in ld64 (p_trapframe pr + off).

Definition st_tf (p : nat) (off v : Z) : K unit :=
  let* pr := get_proc p in st64 (p_trapframe pr + off) v.

(** ** Definitions: the process table *)

Definition procinit : K unit :=
  initlock LPid "nextpid" ;*
  initlock LWait "wait_lock" ;*
  for_each (seq 0 NPROC) (fun p =>
    initlock (LProc p) "proc" ;*
    upd_proc p (set_p_kstack (fun _ => KSTACK (Z.of_nat p)))).

Definition allocpid : K Z :=
  acquire LPid ;*
  let* pid := gets (fun k => c_nextpid (k_core k)) in
  modify (set_k_core (set_c_nextpid (fun n => i32 (n + 1)))) ;*
  release LPid ;*
  M_ret pid.

Definition proc_freepagetable (pagetable sz : Z) : K unit :=
  uvmunmap pagetable TRAMPOLINE 1 false ;*
  uvmunmap pagetable TRAPFRAME 1 false ;*
  uvmfree pagetable sz.

Definition proc_pagetable (p : nat) : K Z :=
  let* pagetable := uvmcreate in
  if pagetable =? 0 then M_ret 0 else
  let* img := gets k_img in
  let* r := mappages pagetable TRAMPOLINE PGSIZE (img_trampoline img) (Z.lor PTE_R PTE_X) in
  if r <? 0 then
    uvmfree pagetable 0 ;* M_ret 0
  else
    let* pr := get_proc p in
    let* r := mappages pagetable TRAPFRAME PGSIZE (p_trapframe pr) (Z.lor PTE_R PTE_W) in
    if r <? 0 then
      uvmunmap pagetable TRAMPOLINE 1 false ;*
      uvmfree pagetable 0 ;*
      M_ret 0
    else M_ret pagetable.

Definition freeproc (p : nat) : K unit :=
  let* pr := get_proc p in
  when (truthy (p_trapframe pr)) (kfree (p_trapframe pr)) ;*
  upd_proc p (set_p_trapframe (fun _ => 0)) ;*
  let* pr := get_proc p in
  when (truthy (p_pagetable pr)) (proc_freepagetable (p_pagetable pr) (p_sz pr)) ;*
  upd_proc p (set_p_pagetable (fun _ => 0)) ;*
  upd_proc p (set_p_sz (fun _ => 0)) ;*
  upd_proc p (set_p_pid (fun _ => 0)) ;*
  upd_proc p (set_p_parent (fun _ => None)) ;*
  upd_proc p (set_p_name (insert 0%nat 0)) ;*
  upd_proc p (set_p_chan (fun _ => ChanNull)) ;*
  upd_proc p (set_p_killed (fun _ => 0)) ;*
  upd_proc p (set_p_xstate (fun _ => 0)) ;*
  upd_proc p (set_p_state (fun _ => UNUSED)).

(** The first loop of [allocproc]: an unused entry, with its lock held. *)
Definition find_unused : K (option nat) :=
  for_find (seq 0 NPROC) (fun p =>
    acquire (LProc p) ;*
    let* pr := get_proc p in
    if bool_decide (p_state pr = UNUSED) then M_ret (Some p)
    else release (LProc p) ;* M_ret None).

Definition allocproc : K (option nat) :=
  let* r := find_unused in
  match r with
  | None => M_ret None
  | Some p =>
      let* pid := allocpid in
      upd_proc p (set_p_pid (fun _ => pid)) ;*
      upd_proc p (set_p_state (fun _ => USED)) ;*
      let* tf := kalloc in
      upd_proc p (set_p_trapframe (fun _ => tf)) ;*
      if tf =? 0 then
        freeproc p ;*
        release (LProc p) ;*
        M_ret None
      else
        let* pt := proc_pagetable p in
        upd_proc p (set_p_pagetable (fun _ => pt)) ;*
        if pt =? 0 then
          freeproc p ;*
          release (LProc p) ;*
          M_ret None
        else
          let* img := gets k_img in
          upd_proc p (set_p_context (fun _ => zero_context)) ;*
          upd_proc p (set_p_context (set_ctx_ra (fun _ => img_forkret img))) ;*
          let* pr := get_proc p in
          upd_proc p (set_p_context (set_ctx_sp (fun _ => u64 (p_kstack pr + PGSIZE)))) ;*
          M_ret (Some p)
  end.

Definition initcode : list Z :=
  [0x17; 0x05; 0x00; 0x00; 0x13; 0x05; 0x45; 0x02;
   0x97; 0x05; 0x00; 0x00; 0x93; 0x85; 0x35; 0x02;
   0x93; 0x08; 0x70; 0x00; 0x73; 0x00; 0x00; 0x00;
   0x93; 0x08; 0x20; 0x00; 0x73; 0x00; 0x00; 0x00;
   0xef; 0xf0; 0x9f; 0xff; 0x2f; 0x69; 0x6e; 0x69;
   0x74; 0x00; 0x00; 0x24; 0x00; 0x00; 0x00; 0x00;
   0x00; 0x00; 0x00; 0x00].

(** [safestrcpy(name, s, sizeof(name))] on the array [name] of a process. *)
Definition copy_name (s name : list Z) : list Z :=
  mread (safestrcpy (mwrite (mwrite (fun _ => 0) 0 name) 16 s) 0 16 16) 0 16.

Definition userinit : K unit :=
  let* r := allocproc in
  modify (set_k_core (set_c_initproc (fun _ => r))) ;*
  let* p := of_opt r in
  let* pr := get_proc p in
  uvminit (p_pagetable pr) initcode ;*
  upd_proc p (set_p_sz (fun _ => PGSIZE)) ;*
  st_tf p TF_EPC 0 ;*
  st_tf p TF_SP PGSIZE ;*
  upd_proc p (set_p_name (copy_name (chars "initcode"))) ;*
  let* cwd := namei [slash] in
  upd_proc p (set_p_cwd (fun _ => cwd)) ;*
  upd_proc p (set_p_state (fun _ => RUNNABLE)) ;*
  release (LProc p).

Definition growproc (n : Z) : K Z :=
  let* p := curproc in
  let* pr := get_proc p in
  let sz := u32 (p_sz pr) in
  if 0 <? n then
    let* r := uvmalloc (p_pagetable pr) sz (u32 (sz + n)) in
    if u32 r =? 0 then M_ret (-1) else
    upd_proc p (set_p_sz (fun _ => u32 r)) ;* M_ret 0
  else if n <? 0 then
    let* r := uvmdealloc (p_pagetable pr) sz (u32 (sz + n)) in
    upd_proc p (set_p_sz (fun _ => u32 r)) ;* M_ret 0
  else
    upd_proc p (set_p_sz (fun _ => sz)) ;* M_ret 0.

(** The loop of [fork] over the open files. *)
Definition fork_files (p np : nat) : K unit :=
  for_each (seq 0 NOFILE) (fun i =>
    let* pr := get_proc p in
    let* o := of_opt (p_ofile pr !! i) in
    match o with
    | None => M_ret tt
    | Some f =>
        let* f := filedup f in
        upd_proc np (set_p_ofile (insert i (Some f)))
    end).

Definition fork : K Z :=
  let* p := curproc in
  let* r := allocproc in
  match r with
  | None => M_ret (-1)
  | Some np =>
      let* pr := get_proc p in
      let* nr := get_proc np in
      let* r := uvmcopy (p_pagetable pr) (p_pagetable nr) (p_sz pr) in
      if r <? 0 then
        freeproc np ;*
        release (LProc np) ;*
        M_ret (-1)
      else
        upd_proc np (set_p_sz (fun _ => p_sz pr)) ;*
        let* tf := ld_mem (p_trapframe pr) TF_SIZE in
        st_mem (p_trapframe nr) tf ;*
        st_tf np TF_A0 0 ;*
        fork_files p np ;*
        let* cwd := of_opt (p_cwd pr) in
        let* cwd := idup cwd in
        upd_proc np (set_p_cwd (fun _ => Some cwd)) ;*
        upd_proc np (set_p_name (copy_name (cstr (p_name pr)))) ;*
        let* nr := get_proc np in
        let pid := p_pid nr in
        release (LProc np) ;*
        acquire LWait ;*
        upd_proc np (set_p_parent (fun _ => Some p)) ;*
        release LWait ;*
        acquire (LProc np) ;*
        upd_proc np (set_p_state (fun _ => RUNNABLE)) ;*
        release (LProc np) ;*
        M_ret pid
  end.

(** The channel [wakeup] gets as a pointer to a process, which may be null. *)
Definition proc_chan (o : option nat) : chan :=
  match o with Some p => ChanProc p | None => ChanNull end.

Definition reparent (p : nat) : K unit :=
  for_each (seq 0 NPROC) (fun pp =>
    let* r := get_proc pp in
    when (bool_decide (p_parent r = Some p))
      (let* init := gets (fun k => c_initproc (k_core k)) in
       upd_proc pp (set_p_parent (fun _ => init)) ;*
       wakeup (proc_chan init))).

(** The loop of [exit] over the open files. *)
Definition exit_files (p : nat) : K unit :=
  for_each (seq 0 NOFILE) (fun fd =>
    let* pr := get_proc p in
    let* o := of_opt (p_ofile pr !! fd) in
    match o with
    | None => M_ret tt
    | Some f =>
        fileclose f ;*
        upd_proc p (set_p_ofile (insert fd None))
    end).

Definition exit (status : Z) : K unit :=
  let* p := curproc in
  let* init := gets (fun k => c_initproc (k_core k)) in
  if bool_decide (init = Some p) then panic "init exiting" else
  exit_files p ;*
  begin_op ;*
  let* pr := get_proc p in
  let* cwd := of_opt (p_cwd pr) in
  iput cwd ;*
  end_op ;*
  upd_proc p (set_p_cwd (fun _ => None)) ;*
  acquire LWait ;*
  reparent p ;*
  let* pr := get_proc p in
  wakeup (proc_chan (p_parent pr)) ;*
  acquire (LProc p) ;*
  upd_proc p (set_p_xstate (fun _ => status)) ;*
  upd_proc p (set_p_state (fun _ => ZOMBIE)) ;*
  release LWait ;*
  sched Exited ;*
  panic "zombie exit".

(** The scan of [wait]: its result if it returns, and [havekids]. *)
Fixpoint wait_scan (p : nat) (addr : Z) (l : list nat) (havekids : bool) : K (option Z * bool) :=
  match l with
  | [] => M_ret (None, havekids)
  | np :: l =>
      let* nr := get_proc np in
      if negb (bool_decide (p_parent nr = Some p)) then wait_scan p addr l havekids else
      acquire (LProc np) ;*
      let* nr := get_proc np in
      if bool_decide (p_state nr = ZOMBIE) then
        let pid := p_pid nr in
        let* pr := get_proc p in
        let* r := (if addr =? 0 then M_ret 0
                   else copyout (p_pagetable pr) addr (le_split 4 (p_xstate nr))) in
        if r <? 0 then
          release (LProc np) ;*
          release LWait ;*
          M_ret (Some (-1), true)
        else
          freeproc np ;*
          release (LProc np) ;*
          release LWait ;*
          M_ret (Some pid, true)
      else
        release (LProc np) ;*
        wait_scan p addr l true
  end.

(** [wait] up to its [sleep]; the process goes on with [wait_again] when it is woken. *)
Definition wait_again (p : nat) (addr : Z) : K Z :=
  let* r := wait_scan p addr (seq 0 NPROC) false in
  match r with
  | (Some r, _) => M_ret r
  | (None, havekids) =>
      let* pr := get_proc p in
      if negb havekids || truthy (p_killed pr) then
        release LWait ;* M_ret (-1)
      else
        sleep (ChanProc p) LWait ;*
        nofuel
  end.

Definition wait (addr : Z) : K Z :=
  let* p := curproc in
  acquire LWait ;*
  wait_again p addr.

(** ** Definitions: the scheduler *)

Definition scheduler_start : K unit :=
  let* c := mycpu in
  upd_cpu c (set_cpu_proc (fun _ => None)).

(** The body of the scheduler's loop, up to the switch. *)
Definition scheduler_visit (p : nat) : K unit :=
  let* c := mycpu in
  acquire (LProc p) ;*
  let* pr := get_proc p in
  when (bool_decide (p_state pr = RUNNABLE))
    (upd_proc p (set_p_state (fun _ => RUNNING)) ;*
     upd_cpu c (set_cpu_proc (fun _ => Some p)) ;*
     wait_for (Switched p)) ;*
  release (LProc p).

(** What it does when the process has switched back. *)
Definition scheduler_back (p : nat) : K unit :=
  let* c := mycpu in
  upd_cpu c (set_cpu_proc (fun _ => None)) ;*
  release (LProc p).

(** One round over the process table. *)
Definition scheduler_round : K unit :=
  intr_on ;*
  for_each (seq 0 NPROC) scheduler_visit.

Definition yield : K unit :=
  let* p := curproc in
  acquire (LProc p) ;*
  upd_proc p (set_p_state (fun _ => RUNNABLE)) ;*
  sched Yielded ;*
  release (LProc p).

(** The end of [sched], with the [intena] it saved, and of [yield]. *)
Definition sched_return (intena : Z) : K unit :=
  let* c := mycpu in
  upd_cpu c (set_cpu_intena (fun _ => intena)).

Definition yield_return (intena : Z) : K unit :=
  sched_return intena ;*
  let* p := curproc in
  release (LProc p).

Definition kill (pid : Z) : K Z :=
  let* r := for_find (seq 0 NPROC) (fun p =>
    acquire (LProc p) ;*
    let* pr := get_proc p in
    if p_pid pr =? pid then
      upd_proc p (set_p_killed (fun _ => 1)) ;*
      when (bool_decide (p_state pr = SLEEPING)) (upd_proc p (set_p_state (fun _ => RUNNABLE))) ;*
      release (LProc p) ;*
      M_ret (Some 0)
    else release (LProc p) ;* M_ret None) in
  M_ret (default (-1) r).

(** ** Specification *)

(** A process that has been killed: it will exit when it next returns to user space,
    and it does not stay asleep. *)
Definition killed_proc (p : proc) : proc :=
  let p' := set_p_killed (fun _ => 1) p in
  if decide (p_state p = SLEEPING) then set_p_state (fun _ => RUNNABLE) p' else p'.

(** ** Lemmas *)

Lemma wp_kill_hit k me i p Q :
  core_ok (k_core k) me [LProc i] -> c_procs (k_core k) !! i = Some p ->
  (forall c', core_ok c' me [] -> c_procs c' = <[i := killed_proc p]> (c_procs (k_core k)) -> Q (Some 0) (with_core k c')) ->
  wp (upd_proc i (set_p_killed (fun _ => 1)) ;*
      when (bool_decide (p_state p = SLEEPING)) (upd_proc i (set_p_state (fun _ => RUNNABLE))) ;*
      release (LProc i) ;* M_ret (Some 0)) Q k.
Proof.
  intros H1 Hp HQ. wp_steps. eapply wp_upd_proc; [exact Hp|]. wp_steps. set (c := k_core k) in *.
  assert (Hend : forall c2, core_ok c2 me [LProc i] -> c_procs c2 = <[i := killed_proc p]> (c_procs c) ->
    wp (release (LProc i)) (fun _ s' => wp (M_ret (Some 0) : K _) Q s') (with_core k c2)).
  { intros c2 H2 E2. eapply (wp_release _ me _ [] 0); [exact H2|]. intros c3 H3 S3. apply (HQ c3 H3). by rewrite (sb_procs _ _ S3). }
  apply wp_when; intros Es; unfold killed_proc in Hend.
  - apply bool_decide_eq_true in Es. rewrite decide_True in Hend by done.
    eapply wp_upd_proc; [simpl; fold c; rewrite list_lookup_alter_eq, Hp; reflexivity|].
    apply wp_bind, (Hend (set_c_procs (alter (set_p_state (fun _ => RUNNABLE)) i) (set_c_procs (alter (set_p_killed (fun _ => 1)) i) c))).
    + destruct H1; constructor; simpl; try done. by rewrite !length_alter.
    + simpl. rewrite (alter_as_insert _ _ _ _ Hp).
      rewrite (alter_as_insert _ _ (set_p_killed (fun _ => 1) p)) by (apply list_lookup_insert_eq; by eapply lookup_lt_Some).
      apply list_insert_insert_eq.
  - apply bool_decide_eq_false in Es. rewrite decide_False in Hend by done.
    apply wp_bind, (Hend (set_c_procs (alter (set_p_killed (fun _ => 1)) i) c)).
    + destruct H1; constructor; simpl; try done. by rewrite !length_alter.
    + simpl. by rewrite (alter_as_insert _ _ _ _ Hp).
Qed.

(** ** Properties *)

(** [kill] returns 0 and marks as killed the process with that pid, which is made
    runnable if it sleeps, whatever it sleeps on, so that it gets to see it; it returns
    -1 when there is none.  No other process changes. *)
Theorem kill_correct k me pid :
  core_ok (k_core k) me [] ->
  wp (kill pid) (fun r k' => exists c', k' = with_core k c' /\ core_ok c' me [] /\
    match list_find (fun p => p_pid p = pid) (c_procs (k_core k)) with
    | Some (i, p) => r = 0 /\ c_procs c' = <[i := killed_proc p]> (c_procs (k_core k))
    | None => r = -1 /\ c_procs c' = c_procs (k_core k)
    end) k.
Proof.
  intros Hc. unfold kill. wp_steps. set (ps := c_procs (k_core k)). set (P := fun p => p_pid p = pid).
  apply (wp_for_find _ _ (fun n k' => exists c', k' = with_core k c' /\ core_ok c' me [] /\ same_but_locks (k_core k) c' /\
    forall j p, (j < n)%nat -> ps !! j = Some p -> ~ P p)).
  - exists (k_core k). split_ands; [by destruct k|done|done|lia].
  - intros i x k' [-> Hi]%lookup_seq (c & -> & H0 & S0 & Hno). cbn [Nat.add]. wp_steps.
    destruct (lookup_lt_is_Some_2 ps i) as [p Hp]; [unfold ps; by rewrite (co_procs _ _ _ _ Hc)|].
    eapply wp_acquire; [exact H0|simpl; lia|set_solver|]. intros c1 H1 S1. simpl in S1. wp_steps.
    pose proof (same_but_locks_trans _ _ _ S0 S1) as S01.
    assert (Hp1 : c_procs c1 !! i = Some p) by (rewrite (sb_procs _ _ S01); exact Hp).
    eapply wp_get_proc; [exact Hp1|]. destruct (Z.eqb_spec (p_pid p) pid) as [E|E].
    + assert (Hfind : list_find P ps = Some (i, p)).
      { apply list_find_Some. split_ands; [done|done|]. intros j q Hq Hj. by apply (Hno j). }
      eapply wp_kill_hit; [exact H1|exact Hp1|]. intros c2 H2 E2. wp_steps. exists c2. split_ands; [done|done|]. rewrite Hfind.
      split; [done|]. rewrite E2. simpl. by rewrite (sb_procs _ _ S01).
    + wp_steps. eapply (wp_release _ me _ [] 0); [exact H1|]. intros c2 H2 S2. simpl in S2. wp_steps. exists c2.
      split_ands; [done|done|by eapply same_but_locks_trans|]. intros j q Hj Hq.
      destruct (decide (j = i)) as [->|]; [by simplify_eq|]. apply (Hno j); [lia|done].
  - intros k' (c & -> & H0 & S0 & Hno). wp_steps. exists c. split_ands; [done|done|].
    rewrite (proj2 (list_find_None P ps)); [split; [done|apply (sb_procs _ _ S0)]|].
    apply Forall_lookup. intros j p Hp. apply (Hno j); [|done]. rewrite length_seq, <- (co_procs _ _ _ _ Hc). by eapply lookup_lt_Some.
Qed.

Lemma kill_correct_witness :
  exists k', kill 1 (first_kernel sample_disk (fun _ => 0) sample_image) = Ok 0 k'.
Proof.
  assert (Hc : core_ok (held_core []) 0 []) by (apply held_core_ok; [apply NoDup_nil_2|done]).
  pose proof (kill_correct (first_kernel sample_disk (fun _ => 0) sample_image) 0 1 Hc) as H.
  destruct (wp_ok _ _ _ H) as (r & k' & E & c' & -> & _ & Hm). cbn in Hm.
  destruct Hm as [-> _]. exists (with_core (first_kernel sample_disk (fun _ => 0) sample_image) c'). exact E.
Defined.
