(* ===== verification/Exec.v ===== *)
(** * Running a program (kernel/exec.c, kernel/elf.h) *)

From S2P Require Import Prelude State Spin Sleep Uart Printf Bio Log Txn Strings Kalloc Vm FsBlock FsInode FsDir Console Pipe File Proc.

(** ** Definitions: ELF files *)

Definition ELF_MAGIC : Z := 0x464C457F.
Definition ELF_PROG_LOAD : Z := 1.

(** The fields of [struct elfhdr] that [exec] uses. *)
Record elfhdr := mkElfhdr {
  elf_magic : Z;
  elf_entry : Z;
  elf_phoff : Z;
  elf_phnum : Z
}.

Definition ELF_SIZE : Z := 64.

Definition ld_elfhdr (b : list Z) : elfhdr :=
  mkElfhdr (get_uint 0 b) (le_join (slice 24 8 b)) (le_join (slice 32 8 b)) (get_ushort 56 b).

(** Those of [struct proghdr]. *)
Record proghdr := mkProghdr {
  ph_type : Z;
  ph_off : Z;
  ph_vaddr : Z;
  ph_filesz : Z;
  ph_memsz : Z
}.

Definition PH_SIZE : Z := 56.

Definition ld_proghdr (b : list Z) : proghdr :=
  mkProghdr (get_uint 0 b) (le_join (slice 8 8 b)) (le_join (slice 16 8 b)) (le_join (slice 32 8 b))
    (le_join (slice 40 8 b)).

(** ** Definitions: loading *)

Fixpoint loadseg_loop (fuel : nat) (pagetable va : Z) (ip : nat) (offset sz i : Z) : K Z :=
  match fuel with
  | O => nofuel
  | S fuel =>
      if negb (i <? sz) then M_ret 0 else
      let* pa := walkaddr pagetable (u64 (va + i)) in
      if pa =? 0 then panic "loadseg: address should exist" else
      let n := if sz - i <? PGSIZE then sz - i else PGSIZE in
      let* r := readi ip (ToKernel pa) (u32 (offset + i)) n in
      if negb (r.1 =? n) then M_ret (-1) else
      loadseg_loop fuel pagetable va ip offset sz (u32 (i + PGSIZE))
  end.

Definition loadseg (pagetable va : Z) (ip : nat) (offset sz : Z) : K Z :=
  loadseg_loop (Z.to_nat (sz / PGSIZE) + 2) pagetable va ip offset sz 0.

(** The program headers left to load, from offset [off] on.  The result is the size of
    the memory allocated, and whether everything went well. *)
Fixpoint load_segments (todo : nat) (ip : nat) (pagetable off sz : Z) : K (Z * bool) :=
  match todo with
  | O => M_ret (sz, true)
  | S todo =>
      let* r := readi ip ToLocal (u32 off) PH_SIZE in
      if negb (r.1 =? PH_SIZE) then M_ret (sz, false) else
      let ph := ld_proghdr r.2 in
      if negb (ph_type ph =? ELF_PROG_LOAD) then load_segments todo ip pagetable (i32 (off + PH_SIZE)) sz else
      if ph_memsz ph <? ph_filesz ph then M_ret (sz, false) else
      if u64 (ph_vaddr ph + ph_memsz ph) <? ph_vaddr ph then M_ret (sz, false) else
      let* sz1 := uvmalloc pagetable sz (u64 (ph_vaddr ph + ph_memsz ph)) in
      if sz1 =? 0 then M_ret (sz, false) else
      if negb (ph_vaddr ph mod PGSIZE =? 0) then M_ret (sz1, false) else
      let* r := loadseg pagetable (ph_vaddr ph) ip (u32 (ph_off ph)) (u32 (ph_filesz ph)) in
      if r <? 0 then M_ret (sz1, false) else
      load_segments todo ip pagetable (i32 (off + PH_SIZE)) sz1
  end.

(** ** Definitions: the stack of the new program *)

(** The string at kernel address [a], with its nul. *)
Definition kstring (a : Z) : K (list Z) :=
  let* m := gets (fun k => ph_mem (k_phys k)) in
  match strlen (Z.to_nat PGSIZE) m a with
  | None => fault
  | Some n => ld_mem a (S (Z.to_nat n))
  end.

(** The argument strings from [argc] on: the final stack pointer and the addresses of
    the strings, or [None] on failure. *)
Fixpoint push_args (fuel : nat) (pagetable stackbase sp : Z) (argv : list Z) (argc : nat) (ustack : list Z) :
    K (option (Z * list Z)) :=
  match fuel with
  | O => nofuel
  | S fuel =>
      let* a := of_opt (argv !! argc) in
      if a =? 0 then M_ret (Some (sp, ustack)) else
      if (MAXARG <=? argc)%nat then M_ret None else
      let* s := kstring a in
      let sp := u64 (sp - Z.of_nat (length s)) in
      let sp := u64 (sp - sp mod 16) in
      if sp <? stackbase then M_ret None else
      let* r := copyout pagetable sp s in
      if r <? 0 then M_ret None else
      push_args fuel pagetable stackbase sp argv (S argc) (ustack ++ [sp])
  end.

(** The last element of a path. *)
Fixpoint last_elem (path last : list Z) : list Z :=
  match path with
  | [] => last
  | c :: path => last_elem path (if c =? slash then path else last)
  end.

(** ** Definitions: [exec] *)

(** The path [bad]; [ip] is the inode while it is locked. *)
Definition exec_bad (pagetable sz : Z) (ip : option nat) : K Z :=
  when (truthy pagetable) (proc_freepagetable pagetable sz) ;*
  match ip with
  | Some ip => iunlockput ip ;* end_op
  | None => M_ret tt
  end ;*
  M_ret (-1).

(** From the stack on: the new image is complete but for its arguments. *)
Definition exec_start (path argv : list Z) (pagetable sz entry : Z) : K Z :=
  let* p := curproc in
  let* pr := get_proc p in
  let oldsz := p_sz pr in
  let sz := PGROUNDUP sz in
  let* sz1 := uvmalloc pagetable sz (u64 (sz + 2 * PGSIZE)) in
  if sz1 =? 0 then exec_bad pagetable sz None else
  let sz := sz1 in
  uvmclear pagetable (u64 (sz - 2 * PGSIZE)) ;*
  let stackbase := u64 (sz - PGSIZE) in
  let* r := push_args (S MAXARG) pagetable stackbase sz argv 0 [] in
  match r with
  | None => exec_bad pagetable sz None
  | Some (sp, ustack) =>
      let argc := Z.of_nat (length ustack) in
      let sp := u64 (sp - (argc + 1) * 8) in
      let sp := u64 (sp - sp mod 16) in
      if sp <? stackbase then exec_bad pagetable sz None else
      let* r := copyout pagetable sp (concat (le_split 8 <$> (ustack ++ [0]))) in
      if r <? 0 then exec_bad pagetable sz None else
      st_tf p TF_A1 sp ;*
      upd_proc p (set_p_name (copy_name (last_elem path path))) ;*
      let* pr := get_proc p in
      let oldpagetable := p_pagetable pr in
      upd_proc p (set_p_pagetable (fun _ => pagetable)) ;*
      upd_proc p (set_p_sz (fun _ => sz)) ;*
      st_tf p TF_EPC entry ;*
      st_tf p TF_SP sp ;*
      proc_freepagetable oldpagetable oldsz ;*
      M_ret (i32 argc)
  end.

Definition exec (path argv : list Z) : K Z :=
  let* p := curproc in
  begin_op ;*
  let* r := namei path in
  match r with
  | None => end_op ;* M_ret (-1)
  | Some ip =>
      ilock ip ;*
      let* r := readi ip ToLocal 0 ELF_SIZE in
      if negb (r.1 =? ELF_SIZE) then exec_bad 0 0 (Some ip) else
      let elf := ld_elfhdr r.2 in
      if negb (elf_magic elf =? ELF_MAGIC) then exec_bad 0 0 (Some ip) else
      let* pagetable := proc_pagetable p in
      if pagetable =? 0 then exec_bad 0 0 (Some ip) else
      let* r := load_segments (Z.to_nat (elf_phnum elf)) ip pagetable (i32 (elf_phoff elf)) 0 in
      if negb r.2 then exec_bad pagetable r.1 (Some ip) else
      iunlockput ip ;*
      end_op ;*
      exec_start path argv pagetable r.1 (elf_entry elf)
  end.
