(* ===== verification/Syscall.v ===== *)
(** * System call arguments (kernel/syscall.c) and the calls on processes
    (kernel/sysproc.c) *)

From S2P Require Import Prelude State Spin Sleep Uart Printf Bio Log Txn Strings Kalloc Vm FsBlock FsInode FsDir Console Pipe File Proc.

(** ** Definitions: arguments

    An argument that is written through a pointer is the result; [None] is the error. *)

Definition fetchaddr (addr : Z) : K (option Z) :=
  let* p := curproc in
  let* pr := get_proc p in
  if (p_sz pr <=? addr) || (p_sz pr <? u64 (addr + 8)) then M_ret None else
  let* r := copyin (p_pagetable pr) addr 8 in
  M_ret (if r.1 =? 0 then Some (le_join r.2) else None).

(** The string without its nul; its length is the result of the C function. *)
Definition fetchstr (addr max : Z) : K (option (list Z)) :=
  let* p := curproc in
  let* pr := get_proc p in
  let* r := copyinstr (p_pagetable pr) addr max in
  M_ret (if r.1 <? 0 then None else Some r.2).

Definition argraw (n : Z) : K Z :=
  let* p := curproc in
  if (0 <=? n) && (n <=? 5) then ld_tf p (TF_A0 + 8 * n) else panic "argraw".

Definition argint (n : Z) : K Z := let* x := argraw n in M_ret (i32 x).

Definition argaddr (n : Z) : K Z := argraw n.

Definition argstr (n max : Z) : K (option (list Z)) :=
  let* addr := argaddr n in fetchstr addr max.

(** ** Definitions: sysproc.c *)

Definition sys_exit : K Z :=
  let* n := argint 0 in
  exit n ;*
  M_ret 0.

Definition sys_getpid : K Z :=
  let* p := curproc in
  let* pr := get_proc p in
  M_ret (p_pid pr).

Definition sys_fork : K Z := fork.

Definition sys_wait : K Z :=
  let* p := argaddr 0 in
  wait p.

Definition sys_sbrk : K Z :=
  let* n := argint 0 in
  let* p := curproc in
  let* pr := get_proc p in
  let addr := i32 (p_sz pr) in
  let* r := growproc n in
  M_ret (if r <? 0 then -1 else addr).

(** [sys_sleep] from its test on; [ticks0] is when it started. *)
Definition sleep_until (ticks0 n : Z) : K Z :=
  let* ticks := gets k_ticks in
  if u32 (ticks - ticks0) <? u32 n then
    let* p := curproc in
    let* pr := get_proc p in
    if truthy (p_killed pr) then
      release LTicks ;* M_ret (-1)
    else
      sleep ChanTicks LTicks ;*
      nofuel
  else
    release LTicks ;* M_ret 0.

Definition sys_sleep : K Z :=
  let* n := argint 0 in
  acquire LTicks ;*
  let* ticks0 := gets k_ticks in
  sleep_until ticks0 n.

Definition sys_kill : K Z :=
  let* pid := argint 0 in
  kill pid.

Definition sys_uptime : K Z :=
  acquire LTicks ;*
  let* xticks := gets k_ticks in
  release LTicks ;*
  M_ret xticks.
