(* ===== verification/Sysfile.v ===== *)
(** * System calls on files (kernel/sysfile.c) *)

From S2P Require Import Prelude State Spin Sleep Uart Printf Bio Log Txn Strings Kalloc Vm FsBlock FsInode FsDir Console Pipe File Proc Exec Syscall.

(** ** Definitions *)

Definition O_RDONLY : Z := 0x000.
Definition O_WRONLY : Z := 0x001.
Definition O_RDWR : Z := 0x002.
Definition O_CREATE : Z := 0x200.
Definition O_TRUNC : Z := 0x400.

(** The descriptor and the file. *)
Definition argfd (n : Z) : K (option (nat * nat)) :=
  let* fd := argint n in
  if (fd <? 0) || (Z.of_nat NOFILE <=? fd) then M_ret None else
  let* p := curproc in
  let* pr := get_proc p in
  let* o := of_opt (p_ofile pr !! Z.to_nat fd) in
  M_ret (pair (Z.to_nat fd) <$> o).

Definition fdalloc (f : nat) : K (option nat) :=
  let* p := curproc in
  for_find (seq 0 NOFILE) (fun fd =>
    let* pr := get_proc p in
    let* o := of_opt (p_ofile pr !! fd) in
    match o with
    | None => upd_proc p (set_p_ofile (insert fd (Some f))) ;* M_ret (Some fd)
    | Some _ => M_ret None
    end).

(** [p->ofile[fd] = 0] *)
Definition fdclear (fd : nat) : K unit :=
  let* p := curproc in upd_proc p (set_p_ofile (insert fd None)).

Definition sys_dup : K Z :=
  let* a := argfd 0 in
  match a with
  | None => M_ret (-1)
  | Some (_, f) =>
      let* r := fdalloc f in
      match r with
      | None => M_ret (-1)
      | Some fd => let* _ := filedup f in M_ret (Z.of_nat fd)
      end
  end.

Definition sys_read : K Z :=
  let* a := argfd 0 in
  match a with
  | None => M_ret (-1)
  | Some (_, f) =>
      let* n := argint 2 in
      let* p := argaddr 1 in
      fileread f p n
  end.

Definition sys_write : K Z :=
  let* a := argfd 0 in
  match a with
  | None => M_ret (-1)
  | Some (_, f) =>
      let* n := argint 2 in
      let* p := argaddr 1 in
      filewrite f p n
  end.

Definition sys_close : K Z :=
  let* a := argfd 0 in
  match a with
  | None => M_ret (-1)
  | Some (fd, f) => fdclear fd ;* fileclose f ;* M_ret 0
  end.

Definition sys_fstat (pad : list Z) : K Z :=
  let* a := argfd 0 in
  match a with
  | None => M_ret (-1)
  | Some (_, f) => let* st := argaddr 1 in filestat f st pad
  end.

(** The path [bad] of [sys_link]. *)
Definition link_bad (ip : nat) : K Z :=
  ilock ip ;*
  upd_inode ip (set_i_nlink (fun n => i16 (n - 1))) ;*
  iupdate ip ;*
  iunlockput ip ;*
  end_op ;*
  M_ret (-1).

Definition no_name : list Z := replicate DIRSIZ 0.

Definition sys_link : K Z :=
  let* old := argstr 0 (Z.of_nat MAXPATH) in
  match old with None => M_ret (-1) | Some old =>
  let* new := argstr 1 (Z.of_nat MAXPATH) in
  match new with None => M_ret (-1) | Some new =>
  begin_op ;*
  let* r := namei old in
  match r with None => end_op ;* M_ret (-1) | Some ip =>
  ilock ip ;*
  let* x := get_inode ip in
  if i_type x =? T_DIR then
    iunlockput ip ;* end_op ;* M_ret (-1)
  else
  upd_inode ip (set_i_nlink (fun n => i16 (n + 1))) ;*
  iupdate ip ;*
  iunlock ip ;*
  let* r := nameiparent new no_name in
  match r with (None, _) => link_bad ip | (Some dp, name) =>
  ilock dp ;*
  let* d := get_inode dp in
  let* x := get_inode ip in
  let* r := (if negb (i_dev d =? i_dev x) then M_ret (-1) else dirlink dp name (i_inum x)) in
  if r <? 0 then
    iunlockput dp ;* link_bad ip
  else
    iunlockput dp ;*
    iput ip ;*
    end_op ;*
    M_ret 0
  end end end end.

Definition isdirempty (dp : nat) : K bool :=
  let* d := get_inode dp in
  let* r := for_find (drop 2 (dirent_offs (i_size d))) (fun off =>
    let* de := read_dirent dp off "isdirempty: readi" in
    M_ret (if negb (de_inum de =? 0) then Some tt else None)) in
  M_ret (bool_decide (r = None)).

Definition sys_unlink : K Z :=
  let* path := argstr 0 (Z.of_nat MAXPATH) in
  match path with None => M_ret (-1) | Some path =>
  begin_op ;*
  let* r := nameiparent path no_name in
  match r with (None, _) => end_op ;* M_ret (-1) | (Some dp, name) =>
  ilock dp ;*
  let bad := iunlockput dp ;* end_op ;* M_ret (-1) in
  if (namecmp name (chars ".") =? 0) || (namecmp name (chars "..") =? 0) then bad else
  let* r := dirlookup dp name in
  match r with None => bad | Some (ip, off) =>
  ilock ip ;*
  let* x := get_inode ip in
  if i_nlink x <? 1 then panic "unlink: nlink < 1" else
  let* full := (if i_type x =? T_DIR then let* e := isdirempty ip in M_ret (negb e) else M_ret false) in
  if full then
    iunlockput ip ;* bad
  else
  let* w := writei dp (FromLocal (replicate 16 0)) off 16 in
  if negb (w =? 16) then panic "unlink: writei" else
  when (i_type x =? T_DIR)
    (upd_inode dp (set_i_nlink (fun n => i16 (n - 1))) ;*
     iupdate dp) ;*
  iunlockput dp ;*
  upd_inode ip (set_i_nlink (fun n => i16 (n - 1))) ;*
  iupdate ip ;*
  iunlockput ip ;*
  end_op ;*
  M_ret 0
  end end end.

(** The inode is returned locked. *)
Definition create (path : list Z) (type major minor : Z) : K (option nat) :=
  let* r := nameiparent path no_name in
  match r with (None, _) => M_ret None | (Some dp, name) =>
  ilock dp ;*
  let* r := dirlookup dp name in
  match r with
  | Some (ip, _) =>
      iunlockput dp ;*
      ilock ip ;*
      let* x := get_inode ip in
      if (type =? T_FILE) && ((i_type x =? T_FILE) || (i_type x =? T_DEVICE)) then M_ret (Some ip)
      else iunlockput ip ;* M_ret None
  | None =>
      let* d := get_inode dp in
      let* ip := ialloc (i_dev d) type in
      ilock ip ;*
      upd_inode ip (set_i_major (fun _ => i16 major)) ;*
      upd_inode ip (set_i_minor (fun _ => i16 minor)) ;*
      upd_inode ip (set_i_nlink (fun _ => 1)) ;*
      iupdate ip ;*
      let* x := get_inode ip in
      when (type =? T_DIR)
        (upd_inode dp (set_i_nlink (fun n => i16 (n + 1))) ;*
         iupdate dp ;*
         let* d := get_inode dp in
         let* r := dirlink ip (chars ".") (i_inum x) in
         let* r := (if r <? 0 then M_ret r else dirlink ip (chars "..") (i_inum d)) in
         if r <? 0 then panic "create dots" else M_ret tt) ;*
      let* r := dirlink dp name (i_inum x) in
      if r <? 0 then panic "create: dirlink" else
      iunlockput dp ;*
      M_ret (Some ip)
  end end.

(** [sys_open] once it has the inode, locked. *)
Definition open_inode (ip : nat) (omode : Z) : K Z :=
  let bad := iunlockput ip ;* end_op ;* M_ret (-1) in
  let* x := get_inode ip in
  if (i_type x =? T_DEVICE) && ((i_major x <? 0) || (NDEV <=? i_major x)) then bad else
  let* r := filealloc in
  match r with None => bad | Some f =>
  let* r := fdalloc f in
  match r with None => fileclose f ;* bad | Some fd =>
  (if i_type x =? T_DEVICE then
     upd_file f (set_f_type (fun _ => FD_DEVICE)) ;*
     upd_file f (set_f_major (fun _ => i_major x))
   else
     upd_file f (set_f_type (fun _ => FD_INODE)) ;*
     upd_file f (set_f_off (fun _ => 0))) ;*
  upd_file f (set_f_ip (fun _ => ip)) ;*
  upd_file f (set_f_readable (fun _ => zb (negb (truthy (Z.land omode O_WRONLY))))) ;*
  upd_file f (set_f_writable (fun _ => zb (truthy (Z.land omode O_WRONLY) || truthy (Z.land omode O_RDWR)))) ;*
  when (truthy (Z.land omode O_TRUNC) && (i_type x =? T_FILE)) (itrunc ip) ;*
  iunlock ip ;*
  end_op ;*
  M_ret (Z.of_nat fd)
  end end.

Definition sys_open : K Z :=
  let* path := argstr 0 (Z.of_nat MAXPATH) in
  match path with None => M_ret (-1) | Some path =>
  let* omode := argint 1 in
  begin_op ;*
  if truthy (Z.land omode O_CREATE) then
    let* r := create path T_FILE 0 0 in
    match r with
    | None => end_op ;* M_ret (-1)
    | Some ip => open_inode ip omode
    end
  else
    let* r := namei path in
    match r with
    | None => end_op ;* M_ret (-1)
    | Some ip =>
        ilock ip ;*
        let* x := get_inode ip in
        if (i_type x =? T_DIR) && negb (omode =? O_RDONLY) then
          iunlockput ip ;* end_op ;* M_ret (-1)
        else open_inode ip omode
    end
  end.

(** The ends of [sys_mkdir] and [sys_mknod]. *)
Definition created (r : option nat) : K Z :=
  match r with
  | None => end_op ;* M_ret (-1)
  | Some ip => iunlockput ip ;* end_op ;* M_ret 0
  end.

Definition sys_mkdir : K Z :=
  begin_op ;*
  let* path := argstr 0 (Z.of_nat MAXPATH) in
  match path with
  | None => created None
  | Some path => let* r := create path T_DIR 0 0 in created r
  end.

Definition sys_mknod : K Z :=
  begin_op ;*
  let* path := argstr 0 (Z.of_nat MAXPATH) in
  match path with
  | None => created None
  | Some path =>
      let* major := argint 1 in
      let* minor := argint 2 in
      let* r := create path T_DEVICE (i16 major) (i16 minor) in
      created r
  end.

Definition sys_chdir : K Z :=
  let* p := curproc in
  begin_op ;*
  let* path := argstr 0 (Z.of_nat MAXPATH) in
  match path with None => end_op ;* M_ret (-1) | Some path =>
  let* r := namei path in
  match r with None => end_op ;* M_ret (-1) | Some ip =>
  ilock ip ;*
  let* x := get_inode ip in
  if negb (i_type x =? T_DIR) then
    iunlockput ip ;* end_op ;* M_ret (-1)
  else
  iunlock ip ;*
  let* pr := get_proc p in
  let* cwd := of_opt (p_cwd pr) in
  iput cwd ;*
  end_op ;*
  upd_proc p (set_p_cwd (fun _ => Some ip)) ;*
  M_ret 0
  end end.

(** The argument strings of [sys_exec] from [i] on, each copied to a page of its own;
    the pages allocated, and whether all went well. *)
Fixpoint fetch_args (todo : nat) (uargv i : Z) (argv : list Z) : K (list Z * bool) :=
  match todo with
  | O => M_ret (argv, false)
  | S todo =>
      let* a := fetchaddr (u64 (uargv + 8 * i)) in
      match a with
      | None => M_ret (argv, false)
      | Some uarg =>
          if uarg =? 0 then M_ret (argv, true) else
          let* page := kalloc in
          if page =? 0 then M_ret (argv, false) else
          let* p := curproc in
          let* pr := get_proc p in
          let* r := copyinstr (p_pagetable pr) uarg PGSIZE in
          st_mem page (if r.1 <? 0 then r.2 else r.2 ++ [0]) ;*
          if r.1 <? 0 then M_ret (argv ++ [page], false) else
          fetch_args todo uargv (i + 1) (argv ++ [page])
      end
  end.

Definition sys_exec : K Z :=
  let* path := argstr 0 (Z.of_nat MAXPATH) in
  match path with None => M_ret (-1) | Some path =>
  let* uargv := argaddr 1 in
  let* r := fetch_args MAXARG uargv 0 [] in
  let argv := r.1 ++ replicate (MAXARG - length r.1) 0 in
  let* ret := (if r.2 then exec path argv else M_ret (-1)) in
  for_each r.1 kfree ;*
  M_ret ret
  end.

Definition sys_pipe : K Z :=
  let* p := curproc in
  let* fdarray := argaddr 0 in
  let* r := pipealloc in
  match r with None => M_ret (-1) | Some (rf, wf) =>
  let bad := fileclose rf ;* fileclose wf ;* M_ret (-1) in
  let* r0 := fdalloc rf in
  match r0 with None => bad | Some fd0 =>
  let* r1 := fdalloc wf in
  match r1 with None => fdclear fd0 ;* bad | Some fd1 =>
  let* pr := get_proc p in
  let* c := copyout (p_pagetable pr) fdarray (le_split 4 (Z.of_nat fd0)) in
  let* c := (if c <? 0 then M_ret c
             else copyout (p_pagetable pr) (u64 (fdarray + 4)) (le_split 4 (Z.of_nat fd1))) in
  if c <? 0 then
    fdclear fd0 ;* fdclear fd1 ;* bad
  else M_ret 0
  end end end.

(** ** Definitions: the table of system calls *)

(** [pad] is what the padding of a [struct stat] on the stack happens to hold. *)
Definition syscalls (pad : list Z) (num : Z) : option (K Z) :=
  match num with
  | 1 => Some sys_fork
  | 2 => Some sys_exit
  | 3 => Some sys_wait
  | 4 => Some sys_pipe
  | 5 => Some sys_read
  | 6 => Some sys_kill
  | 7 => Some sys_exec
  | 8 => Some (sys_fstat pad)
  | 9 => Some sys_chdir
  | 10 => Some sys_dup
  | 11 => Some sys_getpid
  | 12 => Some sys_sbrk
  | 13 => Some sys_sleep
  | 14 => Some sys_uptime
  | 15 => Some sys_open
  | 16 => Some sys_write
  | 17 => Some sys_mknod
  | 18 => Some sys_unlink
  | 19 => Some sys_link
  | 20 => Some sys_mkdir
  | 21 => Some sys_close
  | _ => None
  end.

Definition syscall (pad : list Z) : K unit :=
  let* p := curproc in
  let* a7 := ld_tf p TF_A7 in
  let num := i32 a7 in
  match syscalls pad num with
  | Some f =>
      let* r := f in
      st_tf p TF_A0 (u64 r)
  | None =>
      let* pr := get_proc p in
      printf ("%d %s: unknown sys call %d" +:+ newline) [PInt (p_pid pr); PStr (Some (cstr (p_name pr))); PInt num] ;*
      st_tf p TF_A0 (u64 (-1))
  end.
