(* ===== verification/Virtio.v ===== *)
(** * The disk driver (kernel/virtio_disk.c, kernel/virtio.h)

    Bio.v takes [virtio_disk_rw] as one step: the block is read or written.  Here is the
    driver itself: the table of descriptors, the ring of requests offered to the device,
    the ring of requests it has served, and the interrupt handler.  [virtio_disk_rw] is
    cut where it waits for the device: [rw_submit] before, [rw_finish] after. *)

From S2P Require Import Prelude Ring State Spin Sleep Uart Bio.

(** ** Definitions *)

Definition VIRTIO_MMIO_MAGIC_VALUE : Z := 0x000.
Definition VIRTIO_MMIO_VERSION : Z := 0x004.
Definition VIRTIO_MMIO_DEVICE_ID : Z := 0x008.
Definition VIRTIO_MMIO_VENDOR_ID : Z := 0x00c.
Definition VIRTIO_MMIO_DEVICE_FEATURES : Z := 0x010.
Definition VIRTIO_MMIO_DRIVER_FEATURES : Z := 0x020.
Definition VIRTIO_MMIO_GUEST_PAGE_SIZE : Z := 0x028.
Definition VIRTIO_MMIO_QUEUE_SEL : Z := 0x030.
Definition VIRTIO_MMIO_QUEUE_NUM_MAX : Z := 0x034.
Definition VIRTIO_MMIO_QUEUE_NUM : Z := 0x038.
Definition VIRTIO_MMIO_QUEUE_PFN : Z := 0x040.
Definition VIRTIO_MMIO_QUEUE_NOTIFY : Z := 0x050.
Definition VIRTIO_MMIO_INTERRUPT_STATUS : Z := 0x060.
Definition VIRTIO_MMIO_INTERRUPT_ACK : Z := 0x064.
Definition VIRTIO_MMIO_STATUS : Z := 0x070.

Definition VIRTIO_CONFIG_S_ACKNOWLEDGE : Z := 1.
Definition VIRTIO_CONFIG_S_DRIVER : Z := 2.
Definition VIRTIO_CONFIG_S_DRIVER_OK : Z := 4.
Definition VIRTIO_CONFIG_S_FEATURES_OK : Z := 8.

Definition VIRTIO_BLK_F_RO : Z := 5.
Definition VIRTIO_BLK_F_SCSI : Z := 7.
Definition VIRTIO_BLK_F_CONFIG_WCE : Z := 11.
Definition VIRTIO_BLK_F_MQ : Z := 12.
Definition VIRTIO_F_ANY_LAYOUT : Z := 27.
Definition VIRTIO_RING_F_INDIRECT_DESC : Z := 28.
Definition VIRTIO_RING_F_EVENT_IDX : Z := 29.

Definition NUM : nat := 8.

Definition VRING_DESC_F_NEXT : Z := 1.
Definition VRING_DESC_F_WRITE : Z := 2.
Definition VIRTIO_BLK_T_IN : Z := 0.
Definition VIRTIO_BLK_T_OUT : Z := 1.

Definition get_vdisk : K vdisk := get_dev dv_vdisk.

Definition upd_vdisk (g : vdisk -> vdisk) : K unit := modify (set_k_dev (set_dv_vdisk g)).

(** A write to a register of the device. *)
Definition mmio_write (r v : Z) : K unit := upd_vdisk (set_v_ctl (fun l => l ++ [(r, u32 v)])).

(** The features the driver does without. *)
Definition declined : list Z :=
  [VIRTIO_BLK_F_RO; VIRTIO_BLK_F_SCSI; VIRTIO_BLK_F_CONFIG_WCE; VIRTIO_BLK_F_MQ; VIRTIO_F_ANY_LAYOUT;
   VIRTIO_RING_F_EVENT_IDX; VIRTIO_RING_F_INDIRECT_DESC].

Definition features_of (offered : Z) : Z :=
  foldl (fun f b => Z.land f (Z.lnot (Z.shiftl 1 b))) offered declined.

(** The queue after [memset(disk.pages, 0, sizeof(disk.pages))]. *)
Definition clear_queue (v : vdisk) : vdisk :=
  set_v_desc (fun _ => replicate NUM (mkDesc DNull 0 0 0)) (set_v_avail_ring (fun _ => replicate NUM 0)
    (set_v_avail_idx (fun _ => 0) (set_v_used_ring (fun _ => replicate NUM 0) (set_v_used_ridx (fun _ => 0) v)))).

(** [reg] are the values of the device's registers, [pages] the address of
    [disk.pages]. *)
Definition virtio_disk_init (reg : Z -> Z) (pages : Z) : K unit :=
  initlock LDisk "virtio_disk" ;*
  if negb (reg VIRTIO_MMIO_MAGIC_VALUE =? 0x74726976) || negb (reg VIRTIO_MMIO_VERSION =? 1) ||
     negb (reg VIRTIO_MMIO_DEVICE_ID =? 2) || negb (reg VIRTIO_MMIO_VENDOR_ID =? 0x554d4551)
  then panic "could not find virtio disk" else
  let status := VIRTIO_CONFIG_S_ACKNOWLEDGE in
  mmio_write VIRTIO_MMIO_STATUS status ;*
  let status := Z.lor status VIRTIO_CONFIG_S_DRIVER in
  mmio_write VIRTIO_MMIO_STATUS status ;*
  mmio_write VIRTIO_MMIO_DRIVER_FEATURES (features_of (reg VIRTIO_MMIO_DEVICE_FEATURES)) ;*
  let status := Z.lor status VIRTIO_CONFIG_S_FEATURES_OK in
  mmio_write VIRTIO_MMIO_STATUS status ;*
  let status := Z.lor status VIRTIO_CONFIG_S_DRIVER_OK in
  mmio_write VIRTIO_MMIO_STATUS status ;*
  mmio_write VIRTIO_MMIO_GUEST_PAGE_SIZE 4096 ;*
  mmio_write VIRTIO_MMIO_QUEUE_SEL 0 ;*
  let max := reg VIRTIO_MMIO_QUEUE_NUM_MAX in
  if max =? 0 then panic "virtio disk has no queue 0" else
  if max <? Z.of_nat NUM then panic "virtio disk max queue too short" else
  mmio_write VIRTIO_MMIO_QUEUE_NUM (Z.of_nat NUM) ;*
  upd_vdisk clear_queue ;*
  mmio_write VIRTIO_MMIO_QUEUE_PFN (Z.shiftr pages 12) ;*
  for_each (seq 0 NUM) (fun i => upd_vdisk (set_v_free (insert i 1))).

Definition alloc_desc : K (option nat) :=
  for_find (seq 0 NUM) (fun i =>
    let* v := get_vdisk in
    let* f := of_opt (v_free v !! i) in
    if truthy f then
      upd_vdisk (set_v_free (insert i 0)) ;* M_ret (Some i)
    else M_ret None).

Definition free_desc (i : nat) : K unit :=
  if (NUM <=? i)%nat then panic "free_desc 1" else
  let* v := get_vdisk in
  let* f := of_opt (v_free v !! i) in
  if truthy f then panic "free_desc 2" else
  upd_vdisk (set_v_desc (insert i (mkDesc DNull 0 0 0))) ;*
  upd_vdisk (set_v_free (insert i 1)) ;*
  wakeup ChanDisk.

(** A chain has at most [NUM] descriptors. *)
Fixpoint free_chain_loop (fuel : nat) (i : nat) : K unit :=
  match fuel with
  | O => nofuel
  | S fuel =>
      let* v := get_vdisk in
      let* d := of_opt (v_desc v !! i) in
      free_desc i ;*
      if truthy (Z.land (vd_flags d) VRING_DESC_F_NEXT) then free_chain_loop fuel (Z.to_nat (vd_next d))
      else M_ret tt
  end.

Definition free_chain (i : nat) : K unit := free_chain_loop NUM i.

(** Up to [n] more descriptors after those of [idx]; when there are too few, those are
    given back. *)
Fixpoint alloc_descs (n : nat) (idx : list nat) : K (option (list nat)) :=
  match n with
  | O => M_ret (Some idx)
  | S n =>
      let* r := alloc_desc in
      match r with
      | Some i => alloc_descs n (idx ++ [i])
      | None => for_each idx free_desc ;* M_ret None
      end
  end.

Definition alloc3_desc : K (option (list nat)) := alloc_descs 3 [].

(** The three descriptors of a request for buffer [b], block [blockno]. *)
Definition format_request (b : nat) (blockno : Z) (write : bool) (i0 i1 i2 : nat) (v : vdisk) : vdisk :=
  let v := set_v_ops (insert i0 (mkReq (if write then VIRTIO_BLK_T_OUT else VIRTIO_BLK_T_IN) 0
                                       (u32 (blockno * (BSIZE / 512))))) v in
  let v := set_v_desc (insert i0 (mkDesc (DReq i0) 16 VRING_DESC_F_NEXT (Z.of_nat i1))) v in
  let v := set_v_desc (insert i1 (mkDesc (DData b) BSIZE
             (Z.lor (if write then 0 else VRING_DESC_F_WRITE) VRING_DESC_F_NEXT) (Z.of_nat i2))) v in
  let v := set_v_info_status (insert i0 0xff) v in
  set_v_desc (insert i2 (mkDesc (DStatus i0) 1 VRING_DESC_F_WRITE 0)) v.

(** The request is offered to the device. *)
Definition publish (i0 : nat) (v : vdisk) : vdisk :=
  set_v_avail_idx (fun i => u16 (i + 1))
    (set_v_avail_ring (insert (Z.to_nat (v_avail_idx v mod Z.of_nat NUM)) (Z.of_nat i0)) v).

Definition rw_submit (b : nat) (write : bool) : K nat :=
  let* x := get_buf b in
  acquire LDisk ;*
  let* r := alloc3_desc in
  match r with
  | Some [i0; i1; i2] =>
      upd_vdisk (format_request b (b_blockno x) write i0 i1 i2) ;*
      upd_buf b (set_b_disk (fun _ => 1)) ;*
      upd_vdisk (set_v_info_b (insert i0 (Some b))) ;*
      upd_vdisk (publish i0) ;*
      mmio_write VIRTIO_MMIO_QUEUE_NOTIFY 0 ;*
      M_ret i0
  | _ => sleep ChanDisk LDisk ;* nofuel
  end.

Definition rw_finish (b i0 : nat) : K unit :=
  let* x := get_buf b in
  if b_disk x =? 1 then sleep (ChanBuf b) LDisk else
  upd_vdisk (set_v_info_b (insert i0 None)) ;*
  free_chain i0 ;*
  release LDisk.

Definition virtio_disk_rw (b : nat) (write : bool) : K unit :=
  let* i0 := rw_submit b write in rw_finish b i0.

(** The loop of [virtio_disk_intr] over the requests the device has served; there are
    at most [NUM] of them. *)
Fixpoint intr_loop (fuel : nat) : K unit :=
  match fuel with
  | O => nofuel
  | S fuel =>
      let* v := get_vdisk in
      if v_used_idx v =? v_used_ridx v then M_ret tt else
      let* id := of_opt (v_used_ring v !! Z.to_nat (v_used_idx v mod Z.of_nat NUM)) in
      let* st := of_opt (v_info_status v !! Z.to_nat id) in
      if negb (st =? 0) then panic "virtio_disk_intr status" else
      let* o := of_opt (v_info_b v !! Z.to_nat id) in
      let* b := of_opt o in
      upd_buf b (set_b_disk (fun _ => 0)) ;*
      wakeup (ChanBuf b) ;*
      upd_vdisk (set_v_used_idx (fun i => u16 (i + 1))) ;*
      intr_loop fuel
  end.

(** [status] is the device's interrupt status register. *)
Definition virtio_disk_intr (status : Z) : K unit :=
  acquire LDisk ;*
  mmio_write VIRTIO_MMIO_INTERRUPT_ACK (Z.land status 3) ;*
  intr_loop (S NUM) ;*
  release LDisk.

(** ** Specification *)

(** What the device reads from a chain of descriptors: a header it reads, one block of
    data it reads or writes, and a status byte it writes (virtio 1.0, section 5.2.6). *)
Record blk_request := mkBlk { br_type : Z; br_sector : Z; br_buf : nat; br_status : nat }.

Definition decode (v : vdisk) (i0 : nat) : option blk_request :=
  match v_desc v !! i0 with
  | Some (mkDesc (DReq r) l0 f0 n0) =>
      match v_desc v !! Z.to_nat n0, v_ops v !! r with
      | Some (mkDesc (DData b) l1 f1 n1), Some q =>
          match v_desc v !! Z.to_nat n1 with
          | Some (mkDesc (DStatus s) l2 f2 _) =>
              if (l0 =? 16) && (f0 =? VRING_DESC_F_NEXT) && (l1 =? BSIZE) &&
                 (f1 =? (if rq_type q =? VIRTIO_BLK_T_IN then 3 else 1)) &&
                 (l2 =? 1) && (f2 =? VRING_DESC_F_WRITE)
              then Some (mkBlk (rq_type q) (rq_sector q) b s) else None
          | _ => None
          end
      | _, _ => None
      end
  | _ => None
  end.

(** The oldest request the device has not served. *)
Definition next_request (v : vdisk) : option (nat * blk_request) :=
  if v_seen v =? v_avail_idx v then None else
  i0 ← v_avail_ring v !! Z.to_nat (v_seen v mod Z.of_nat NUM);
  r ← decode v (Z.to_nat i0);
  Some (Z.to_nat i0, r).

(** Serving it: the block of two sectors is transferred, the status set to 0, and the
    chain put into the ring of served requests. *)
Definition complete (i0 : nat) (r : blk_request) (v : vdisk) : vdisk :=
  set_v_seen (fun i => u16 (i + 1)) (set_v_used_ridx (fun i => u16 (i + 1))
    (set_v_used_ring (insert (Z.to_nat (v_used_ridx v mod Z.of_nat NUM)) (Z.of_nat i0))
      (set_v_info_status (insert (br_status r) 0) v))).

Definition transfer (r : blk_request) (data : list Z) (k : kernel) : kernel :=
  let blk := br_sector r / 2 in
  if br_type r =? VIRTIO_BLK_T_OUT
  then set_k_disk (fun d => mkDisk (fun x => if x =? blk then data else d_blocks d x) (d_trace d ++ [(blk, data)])) k
  else set_k_bcache (set_bc_bufs (alter (set_b_data (fun _ => d_blocks (k_disk k) blk)) (br_buf r))) k.

(** A device that serves requests so. *)
Definition serves (device : kernel -> option kernel) : Prop :=
  forall k i0 r x, next_request (dv_vdisk (k_dev k)) = Some (i0, r) -> bc_bufs (k_bcache k) !! br_buf r = Some x ->
    device k = Some (set_k_dev (set_dv_vdisk (complete i0 r)) (transfer r (b_data x) k)).

(** The queue with no request in it; [free] says which descriptors are. *)
Record queue_ok (v : vdisk) : Prop := mkQueueOk {
  qo_desc : length (v_desc v) = NUM;
  qo_avail : length (v_avail_ring v) = NUM;
  qo_used : length (v_used_ring v) = NUM;
  qo_free : length (v_free v) = NUM;
  qo_info_b : length (v_info_b v) = NUM;
  qo_status : length (v_info_status v) = NUM;
  qo_ops : length (v_ops v) = NUM;
  qo_flags : Forall (fun f => f = 0 \/ f = 1) (v_free v);
  qo_idx : 0 <= v_avail_idx v < 2 ^ 16;
  qo_ridx : 0 <= v_used_ridx v < 2 ^ 16;
  qo_seen : v_seen v = v_avail_idx v;
  qo_done : v_used_idx v = v_used_ridx v
}.

Definition nfree (v : vdisk) : nat := length (filter (fun f => f <> 0) (v_free v)).

Abbreviation with_vdisk k g := (set_k_dev (set_dv_vdisk g) k).

(** ** Lemmas *)

Lemma wp_upd_vdisk k g Q : Q tt (with_vdisk k g) -> wp (upd_vdisk g) Q k.
Proof. intros H. unfold upd_vdisk. by wp_steps. Qed.

Lemma nfree_lookup (l : list Z) :
  filter (fun f => f <> 0) l <> [] <-> exists i f, l !! i = Some f /\ f <> 0.
Proof.
  split.
  - destruct (filter _ l) as [|f r] eqn:E; [done|]. intros _.
    assert (f ∈ filter (fun f => f <> 0) l) as [Hf Hin]%list_elem_of_filter by (rewrite E; by left).
    apply list_elem_of_lookup in Hin as [i Hi]. eauto.
  - intros (i & f & Hi & Hf) E.
    assert (f ∈ filter (fun f => f <> 0) l) as Hin by (apply list_elem_of_filter; split; [done|by eapply list_elem_of_lookup_2]).
    rewrite E in Hin. by apply not_elem_of_nil in Hin.
Qed.

Lemma nfree_insert (l : list Z) i f :
  l !! i = Some f -> f <> 0 ->
  S (length (filter (fun f => f <> 0) (<[i := 0]> l))) = length (filter (fun f => f <> 0) l).
Proof.
  revert i. induction l as [|y l IH]; intros [|i] Hi Hf; simplify_eq/=.
  - rewrite filter_cons_False, filter_cons_True by (try done; tauto). done.
  - rewrite !filter_cons. destruct (decide (y <> 0)); simpl; by rewrite (IH i).
Qed.

Lemma insert_taken (l : list Z) i j f : <[i := 0]> l !! j = Some f -> f <> 0 -> i <> j /\ l !! j = Some f.
Proof.
  intros H Hf. destruct (decide (i = j)) as [->|Hne]; [|by rewrite list_lookup_insert_ne in H].
  pose proof (lookup_lt_Some _ _ _ H) as Hl. rewrite length_insert in Hl. rewrite list_lookup_insert_eq in H by done. by simplify_eq.
Qed.

(** [alloc_desc] takes a free descriptor if there is one. *)
Lemma wp_alloc_desc k Q :
  let v := dv_vdisk (k_dev k) in
  length (v_free v) = NUM ->
  (forall i f, v_free v !! i = Some f -> f <> 0 -> Q (Some i) (with_vdisk k (set_v_free (insert i 0)))) ->
  (nfree v = 0%nat -> Q None k) ->
  wp alloc_desc Q k.
Proof.
  intros v Hl HS HN. unfold alloc_desc.
  apply (wp_for_find _ _ (fun n s => s = k /\ forall i f, (i < n)%nat -> v_free v !! i = Some f -> f = 0)).
  - split; [done|]. lia.
  - intros i x s [-> Hi]%lookup_seq [-> H0]. unfold get_vdisk, get_dev. wp_steps. fold v. rewrite Nat.add_0_l.
    destruct (lookup_lt_is_Some_2 (v_free v) i) as [f Hf]; [lia|]. rewrite Hf. wp_steps. unfold truthy.
    destruct (Z.eqb_spec f 0) as [->|Hne]; cbn [negb].
    + wp_steps. split; [done|]. intros j g Hj Hg. destruct (decide (j = i)) as [->|]; [congruence|]. apply (H0 j); [lia|done].
    + wp_steps. apply wp_upd_vdisk. wp_steps. by apply (HS _ f).
  - intros s [-> H0]. apply HN. unfold nfree. destruct (decide (filter (fun f => f <> 0) (v_free v) = [])) as [->|Hne]; [done|].
    apply nfree_lookup in Hne as (i & f & Hi & Hf). destruct Hf. apply (H0 i); [|done].
    rewrite length_seq. rewrite <- Hl. by eapply lookup_lt_Some.
Qed.

(** With three of them free, [alloc3_desc] takes three. *)
Lemma wp_alloc3_desc k Q :
  let v := dv_vdisk (k_dev k) in
  length (v_free v) = NUM -> (3 <= nfree v)%nat ->
  (forall i0 i1 i2 f0 f1 f2, NoDup [i0; i1; i2] -> v_free v !! i0 = Some f0 -> f0 <> 0 ->
     v_free v !! i1 = Some f1 -> f1 <> 0 -> v_free v !! i2 = Some f2 -> f2 <> 0 ->
     Q (Some [i0; i1; i2]) (with_vdisk k (set_v_free (fun l => <[i2 := 0]> (<[i1 := 0]> (<[i0 := 0]> l)))))) ->
  wp alloc3_desc Q k.
Proof.
  intros v Hl Hn HQ. unfold alloc3_desc, nfree in *. cbn [alloc_descs]. wp_steps.
  apply wp_alloc_desc; [done| |unfold nfree; fold v; lia]. fold v. intros i0 f0 H0 F0. cbv iota. wp_steps.
  pose proof (nfree_insert _ _ _ H0 F0) as N0.
  apply wp_alloc_desc; simpl; fold v; [by rewrite length_insert| |unfold nfree; simpl; fold v; lia].
  intros i1 f1 H1 F1. wp_steps. pose proof (nfree_insert _ _ _ H1 F1) as N1.
  apply wp_alloc_desc; simpl; fold v; [by rewrite !length_insert| |unfold nfree; simpl; fold v; lia].
  intros i2 f2 H2 F2. wp_steps.
  apply insert_taken in H2 as [D2 [D2' H2]%insert_taken]; [|done..]. apply insert_taken in H1 as [D1 H1]; [|done].
  apply (HQ i0 i1 i2 f0 f1 f2); try done.
  rewrite !NoDup_cons, !not_elem_of_cons. pose proof (NoDup_nil_2 (A := nat)). set_solver.
Qed.

(** The queue with a request for [b] offered to the device. *)
Definition submitted (b : nat) (blockno : Z) (write : bool) (i0 i1 i2 : nat) (v : vdisk) : vdisk :=
  set_v_ctl (fun l => l ++ [(VIRTIO_MMIO_QUEUE_NOTIFY, 0)])
    (publish i0 (set_v_info_b (insert i0 (Some b)) (format_request b blockno write i0 i1 i2
      (set_v_free (fun l => <[i2 := 0]> (<[i1 := 0]> (<[i0 := 0]> l))) v)))).

Lemma wp_rw_submit k me b x write Q :
  let v := dv_vdisk (k_dev k) in
  core_ok (k_core k) me [] -> bc_bufs (k_bcache k) !! b = Some x -> length (v_free v) = NUM -> (3 <= nfree v)%nat ->
  (forall c' i0 i1 i2 f0 f1 f2, core_ok c' me [LDisk] -> same_but_locks (k_core k) c' -> NoDup [i0; i1; i2] ->
     v_free v !! i0 = Some f0 -> f0 <> 0 -> v_free v !! i1 = Some f1 -> f1 <> 0 -> v_free v !! i2 = Some f2 -> f2 <> 0 ->
     Q i0 (with_vdisk (set_k_bcache (set_bc_bufs (alter (set_b_disk (fun _ => 1)) b)) (with_core k c'))
             (submitted b (b_blockno x) write i0 i1 i2))) ->
  wp (rw_submit b write) Q k.
Proof.
  intros v Hc Hb Hl Hn HQ. unfold rw_submit. wp_steps. eapply wp_get_buf; [exact Hb|]. wp_steps.
  eapply wp_acquire; [exact Hc|simpl; lia|set_solver|]. intros c1 H1 S1. wp_steps.
  apply wp_alloc3_desc; [done..|]. intros i0 i1 i2 f0 f1 f2 Hd E0 F0 E1 F1 E2 F2. cbv iota. wp_steps.
  apply wp_upd_vdisk. wp_steps. eapply wp_upd_buf; [exact Hb|]. wp_steps. apply wp_upd_vdisk. wp_steps.
  apply wp_upd_vdisk. wp_steps. unfold mmio_write. apply wp_upd_vdisk. wp_steps.
  exact (HQ c1 i0 i1 i2 f0 f1 f2 H1 S1 Hd E0 F0 E1 F1 E2 F2).
Qed.

Definition clear_desc (i : nat) (v : vdisk) : vdisk :=
  set_v_free (insert i 1) (set_v_desc (insert i (mkDesc DNull 0 0 0)) v).

(** The queue when the request has been served and finished. *)
Definition finished (i0 i1 i2 : nat) (v : vdisk) : vdisk :=
  clear_desc i2 (clear_desc i1 (clear_desc i0 (set_v_info_b (insert i0 None) v))).

Section request.
Context (b : nat) (blockno : Z) (write : bool) (i0 i1 i2 : nat) (v : vdisk).
Context (Hv : queue_ok v) (Hd : NoDup [i0; i1; i2]) (H0 : (i0 < NUM)%nat) (H1 : (i1 < NUM)%nat) (H2 : (i2 < NUM)%nat).

Let v1 := submitted b blockno write i0 i1 i2 v.
Let req := mkBlk (if write then VIRTIO_BLK_T_OUT else VIRTIO_BLK_T_IN) (u32 (blockno * 2)) b i0.

Lemma distinct3 : i0 <> i1 /\ i0 <> i2 /\ i1 <> i2.
Proof. rewrite !NoDup_cons, !not_elem_of_cons in Hd. tauto. Qed.

(** The three descriptors, as the device finds them. *)
Lemma submitted_chain :
  v_desc v1 !! i0 = Some (mkDesc (DReq i0) 16 VRING_DESC_F_NEXT (Z.of_nat i1)) /\
  v_desc v1 !! i1 = Some (mkDesc (DData b) BSIZE (if write then 1 else 3) (Z.of_nat i2)) /\
  v_desc v1 !! i2 = Some (mkDesc (DStatus i0) 1 VRING_DESC_F_WRITE 0).
Proof.
  destruct distinct3 as (D1 & D2 & D3), Hv as [Hl _ _ _ _ _ _ _ _ _ _ _]. unfold v1. simpl. split_ands.
  - rewrite !list_lookup_insert_ne, list_lookup_insert_eq by (try done; lia). done.
  - rewrite list_lookup_insert_ne, list_lookup_insert_eq by (try done; rewrite length_insert; lia). by destruct write.
  - rewrite list_lookup_insert_eq by (rewrite !length_insert; lia). done.
Qed.

Lemma decode_submitted : decode v1 i0 = Some req.
Proof.
  destruct submitted_chain as (E0 & E1 & E2), Hv as [_ _ _ _ _ _ Hl _ _ _ _ _].
  assert (Eo : v_ops v1 !! i0 = Some (mkReq (br_type req) 0 (br_sector req))).
  { unfold v1. simpl. by rewrite list_lookup_insert_eq by lia. }
  unfold decode. rewrite E0, Nat2Z.id, E1, Eo, Nat2Z.id, E2. unfold req. by destruct write.
Qed.

Lemma next_submitted : next_request v1 = Some (i0, req).
Proof.
  pose proof decode_submitted as Hdec. destruct Hv as [_ Hl _ _ _ _ _ _ Hi _ Hs _]. unfold next_request.
  replace (v_seen v1) with (v_avail_idx v) by (unfold v1; simpl; congruence).
  replace (v_avail_idx v1) with (u16 (v_avail_idx v + 1)) by reflexivity.
  replace (v_avail_ring v1) with (<[Z.to_nat (v_avail_idx v mod Z.of_nat NUM) := Z.of_nat i0]> (v_avail_ring v)) by reflexivity.
  rewrite (proj2 (Z.eqb_neq _ _)).
  - rewrite list_lookup_insert_eq.
    + cbn [mbind option_bind]. by rewrite Nat2Z.id, Hdec.
    + pose proof (Z.mod_pos_bound (v_avail_idx v) (Z.of_nat NUM) eq_refl). lia.
  - intros E. pose proof (ahead_push (2 ^ 16) ltac:(lia) (v_avail_idx v) (v_avail_idx v)) as Ha.
    rewrite ahead_same in Ha by lia. unfold u16 in E. rewrite <- E, ahead_same in Ha by lia. lia.
Qed.

(** The served request, as the interrupt handler finds it. *)
Lemma complete_submitted :
  let v2 := complete i0 req v1 in
  0 <= v_used_idx v2 < 2 ^ 16 /\ v_used_ridx v2 = u16 (v_used_idx v2 + 1) /\
  v_used_ring v2 !! Z.to_nat (v_used_idx v2 mod Z.of_nat NUM) = Some (Z.of_nat i0) /\
  v_info_status v2 !! i0 = Some 0 /\ v_info_b v2 !! i0 = Some (Some b) /\
  v_free v2 !! i0 = Some 0 /\ v_free v2 !! i1 = Some 0 /\ v_free v2 !! i2 = Some 0.
Proof.
  intros v2. destruct distinct3 as (D1 & D2 & D3), Hv as [L1 L2 L3 L4 L5 L6 L7 Hf Ha Hr Hs Hu].
  pose proof (Z.mod_pos_bound (v_used_ridx v) (Z.of_nat NUM) eq_refl).
  unfold v2, v1. simpl. rewrite Hu. split_ands; try done; try lia.
  - apply list_lookup_insert_eq. lia.
  - apply list_lookup_insert_eq. rewrite length_insert. lia.
  - apply list_lookup_insert_eq. lia.
  - rewrite !list_lookup_insert_ne by done. apply list_lookup_insert_eq. lia.
  - rewrite list_lookup_insert_ne by done. apply list_lookup_insert_eq. rewrite length_insert. lia.
  - apply list_lookup_insert_eq. rewrite !length_insert. lia.
Qed.

(** Serving and finishing the request leaves the queue as it was. *)
Lemma request_done l :
  v_free v !! i0 = Some 1 -> v_free v !! i1 = Some 1 -> v_free v !! i2 = Some 1 ->
  let v4 := finished i0 i1 i2 (set_v_used_idx (fun i => u16 (i + 1)) (set_v_ctl (fun _ => l) (complete i0 req v1))) in
  queue_ok v4 /\ v_free v4 = v_free v.
Proof.
  intros F0 F1 F2 v4. destruct distinct3 as (D1 & D2 & D3), Hv as [L1 L2 L3 L4 L5 L6 L7 Hf Ha Hr Hs Hu].
  assert (Ef : v_free v4 = v_free v).
  { unfold v4, v1. simpl. apply list_eq. intros j. rewrite !list_lookup_insert, !length_insert. repeat case_decide; naive_solver. }
  split; [|done]. constructor; rewrite ?Ef; unfold v4, v1; simpl; rewrite ?length_insert; try done;
    [apply Z.mod_pos_bound; lia..|congruence|congruence].
Qed.
End request.

Lemma wp_intr_end fuel k Q :
  v_used_idx (dv_vdisk (k_dev k)) = v_used_ridx (dv_vdisk (k_dev k)) -> Q tt k -> wp (intr_loop (S fuel)) Q k.
Proof. intros E HQ. cbn [intr_loop]. unfold get_vdisk, get_dev. wp_steps. rewrite E, Z.eqb_refl. by wp_steps. Qed.

(** The interrupt handler, when one request has been served. *)
Lemma wp_intr_one k me b x i0 st Q :
  let v := dv_vdisk (k_dev k) in
  core_ok (k_core k) me [] -> bc_bufs (k_bcache k) !! b = Some x ->
  0 <= v_used_idx v < 2 ^ 16 -> v_used_ridx v = u16 (v_used_idx v + 1) ->
  v_used_ring v !! Z.to_nat (v_used_idx v mod Z.of_nat NUM) = Some (Z.of_nat i0) ->
  v_info_status v !! i0 = Some 0 -> v_info_b v !! i0 = Some (Some b) ->
  (forall c' l, core_ok c' me [] -> c_procs c' = woken (ChanBuf b) me (c_procs (k_core k)) ->
     Q tt (with_vdisk (set_k_bcache (set_bc_bufs (alter (set_b_disk (fun _ => 0)) b)) (with_core k c'))
             (fun v => set_v_used_idx (fun i => u16 (i + 1)) (set_v_ctl (fun _ => l) v)))) ->
  wp (virtio_disk_intr st) Q k.
Proof.
  intros v Hc Hb Hu Hr Hring Hst Hib HQ. unfold virtio_disk_intr, mmio_write. wp_steps.
  eapply wp_acquire; [exact Hc|simpl; lia|set_solver|]. intros c1 H1 S1. wp_steps. apply wp_upd_vdisk. apply wp_bind.
  assert (Hne : v_used_idx v <> u16 (v_used_idx v + 1)).
  { intros E. pose proof (ahead_push (2 ^ 16) ltac:(lia) (v_used_idx v) (v_used_idx v)) as Ha.
    rewrite ahead_same in Ha by lia. unfold u16 in E. rewrite <- E, ahead_same in Ha by lia. lia. }
  unfold NUM at 1. set (fuel := 7%nat). change (intr_loop 9) with (intr_loop (S (S fuel))). generalize fuel. clear fuel. intros fuel.
  remember (S fuel) as f1 eqn:Ef. cbn [intr_loop]. subst f1. unfold get_vdisk, get_dev. wp_steps.
  cbn [k_dev set_k_dev set_k_core dv_vdisk set_dv_vdisk v_used_idx v_used_ridx set_v_ctl v_used_ring v_info_status v_info_b]. fold v.
  rewrite Hr, (proj2 (Z.eqb_neq _ _) Hne), Hring. wp_steps. rewrite Nat2Z.id, Hst. wp_steps. cbn [Z.eqb negb]. rewrite Hib. wp_steps.
  eapply wp_upd_buf; [exact Hb|]. wp_steps. eapply wp_wakeup; [exact H1|simpl; lia|set_solver|].
  intros c2 H2 _ _ _ _ W2. simpl in W2. wp_steps. apply wp_upd_vdisk.
  apply wp_intr_end; [simpl; by fold v|].
  eapply (wp_release _ me _ [] 0); [exact H2|]. intros c3 H3 S3. simpl in S3.
  apply (HQ c3 (v_ctl v ++ [(VIRTIO_MMIO_INTERRUPT_ACK, u32 (Z.land st 3))]) H3).
  rewrite (sb_procs _ _ S3), W2. by rewrite (sb_procs _ _ S1).
Qed.

Lemma wp_free_desc k me hs n i Q :
  core_at (k_core k) me hs n -> Z.of_nat (length hs + n) + 2 < 2 ^ 30 -> (forall i, LProc i ∉ hs) ->
  (i < NUM)%nat -> v_free (dv_vdisk (k_dev k)) !! i = Some 0 ->
  (forall c', core_at c' me hs n -> core_frame me (k_core k) c' -> Q tt (with_vdisk (with_core k c') (clear_desc i))) ->
  wp (free_desc i) Q k.
Proof.
  intros Hc Hn Hp Hi Hf HQ. unfold free_desc. rewrite (proj2 (Nat.leb_gt _ _) Hi). unfold get_vdisk, get_dev. wp_steps.
  rewrite Hf. wp_steps. cbn [truthy Z.eqb negb]. wp_steps. apply wp_upd_vdisk. wp_steps. apply wp_upd_vdisk.
  eapply wp_wakeup; [exact Hc|lia|exact Hp|]. intros c' H' E1 _ E2 E3 E4. apply (HQ c' H'). by eapply woken_frame.
Qed.

(** The end of the request frees its three descriptors. *)
Lemma wp_rw_finish k me b x i0 i1 i2 d0 d1 d2 Q :
  let v := dv_vdisk (k_dev k) in
  core_ok (k_core k) me [LDisk] -> bc_bufs (k_bcache k) !! b = Some x -> b_disk x = 0 ->
  NoDup [i0; i1; i2] -> (i0 < NUM)%nat -> (i1 < NUM)%nat -> (i2 < NUM)%nat ->
  v_desc v !! i0 = Some d0 -> v_desc v !! i1 = Some d1 -> v_desc v !! i2 = Some d2 ->
  Z.odd (vd_flags d0) = true -> vd_next d0 = Z.of_nat i1 -> Z.odd (vd_flags d1) = true -> vd_next d1 = Z.of_nat i2 ->
  Z.odd (vd_flags d2) = false ->
  v_free v !! i0 = Some 0 -> v_free v !! i1 = Some 0 -> v_free v !! i2 = Some 0 ->
  (forall c', core_ok c' me [] -> core_frame me (k_core k) c' ->
     Q tt (with_vdisk (with_core k c') (finished i0 i1 i2))) ->
  wp (rw_finish b i0) Q k.
Proof.
  intros v Hc Hb Hdisk Hd Hi0 Hi1 Hi2 D0 D1 D2 F0 N0 F1 N1 F2 E0 E1 E2 HQ.
  assert (i0 <> i1 /\ i0 <> i2 /\ i1 <> i2) as (X1 & X2 & X3) by (rewrite !NoDup_cons, !not_elem_of_cons in Hd; tauto).
  assert (Hland : forall z, truthy (Z.land z VRING_DESC_F_NEXT) = Z.odd z).
  { intros z. change VRING_DESC_F_NEXT with (Z.ones 1). rewrite Z.land_ones by lia. unfold truthy.
    rewrite Zmod_odd. by destruct (Z.odd z). }
  unfold rw_finish. wp_steps. eapply wp_get_buf; [exact Hb|]. rewrite Hdisk. cbn [Z.eqb]. wp_steps.
  apply wp_upd_vdisk. apply wp_bind. unfold free_chain, NUM. cbn [free_chain_loop]. unfold get_vdisk, get_dev. wp_steps.
  simpl. fold v. rewrite D0. wp_steps. eapply wp_free_desc; [exact Hc|simpl; lia|set_solver|done|done|].
  intros c1 H1 C1. rewrite Hland, F0, N0, Nat2Z.id. wp_steps. simpl. fold v. rewrite list_lookup_insert_ne, D1 by done. wp_steps.
  eapply wp_free_desc; [exact H1|simpl; lia|set_solver|done|by simpl; rewrite list_lookup_insert_ne by done|].
  intros c2 H2 C2. rewrite Hland, F1, N1, Nat2Z.id. wp_steps. simpl. fold v. rewrite !list_lookup_insert_ne, D2 by done. wp_steps.
  eapply wp_free_desc; [exact H2|simpl; lia|set_solver|done|by simpl; rewrite !list_lookup_insert_ne by done|].
  intros c3 H3 C3. rewrite Hland, F2. wp_steps.
  eapply (wp_release _ me _ [] 0); [exact H3|]. intros c4 H4 S4. apply (HQ c4 H4).
  eapply core_frame_trans; [exact C1|]. eapply core_frame_trans; [exact C2|]. eapply core_frame_trans; [exact C3|].
  by apply same_core_frame.
Qed.

(** A read or a write up to the point where the process waits for the device. *)
Lemma waits_virtio_disk_rw k me pr b x write Q :
  let v := dv_vdisk (k_dev k) in
  core_ok (k_core k) me [] -> c_procs (k_core k) !! me = Some pr -> bc_bufs (k_bcache k) !! b = Some x ->
  length (v_free v) = NUM -> (3 <= nfree v)%nat ->
  (forall c' i0 i1 i2 f0 f1 f2, core_ok c' me [LProc me] ->
     c_procs c' = <[me := set_p_state (fun _ => SLEEPING) (set_p_chan (fun _ => ChanBuf b) pr)]> (c_procs (k_core k)) ->
     NoDup [i0; i1; i2] ->
     v_free v !! i0 = Some f0 -> f0 <> 0 -> v_free v !! i1 = Some f1 -> f1 <> 0 -> v_free v !! i2 = Some f2 -> f2 <> 0 ->
     Q (with_vdisk (set_k_bcache (set_bc_bufs (alter (set_b_disk (fun _ => 1)) b)) (with_core k c'))
             (submitted b (b_blockno x) write i0 i1 i2))) ->
  waits (virtio_disk_rw b write) (Sleeping (ChanBuf b)) Q k.
Proof.
  intros v Hc Hp Hb Hl Hn HQ. unfold virtio_disk_rw. apply waits_bind. eapply wp_rw_submit; [exact Hc|exact Hb|done|done|].
  intros c1 i0 i1 i2 f0 f1 f2 H1 S1 Hd E0 F0 E1 F1 E2 F2. unfold rw_finish. wp_steps.
  eapply wp_get_buf; [simpl; rewrite list_lookup_alter_eq, Hb; reflexivity|]. cbn [b_disk set_b_disk fmap option_fmap option_map Z.eqb].
  change (1 =? 1) with true. cbv iota.
  eapply waits_sleep; [exact H1|done|simpl; by rewrite (sb_procs _ _ S1)|]. intros c2 H2 _ _ E.
  refine (HQ c2 i0 i1 i2 f0 f1 f2 H2 _ Hd E0 F0 E1 F1 E2 F2). simpl in E. by rewrite E, (sb_procs _ _ S1).
Qed.

Lemma kernel_ext k k' :
  k_core k = k_core k' -> k_bcache k = k_bcache k' -> k_disk k = k_disk k' -> k_log k = k_log k' -> k_sb k = k_sb k' ->
  k_itable k = k_itable k' -> k_ftable k = k_ftable k' -> k_pipes k = k_pipes k' -> k_phys k = k_phys k' ->
  k_ticks k = k_ticks k' -> k_img k = k_img k' -> k_dev k = k_dev k' -> k = k'.
Proof. destruct k, k'. simpl. by intros; subst. Qed.

(** The state after [disk_rw], with the driver's bookkeeping of the buffer undone. *)
Lemma transfer_disk_rw k b x (write : bool) blockno :
  bc_bufs (k_bcache k) !! b = Some x -> b_disk x = 0 -> b_blockno x = blockno -> 0 <= blockno < 2 ^ 31 ->
  let req := mkBlk (if write then VIRTIO_BLK_T_OUT else VIRTIO_BLK_T_IN) (u32 (blockno * 2)) b in
  exists kd, disk_rw b write k = Ok tt kd /\
    forall (s : nat) (c1 c2 c3 c4 c5 : core) (g1 g2 g3 g4 : vdisk -> vdisk),
      with_vdisk (with_core (with_core (with_vdisk (set_k_bcache (set_bc_bufs (alter (set_b_disk (fun _ => 0)) b))
        (with_core (with_core (with_vdisk (transfer (req s) (b_data x) (with_vdisk (set_k_bcache (set_bc_bufs
          (alter (set_b_disk (fun _ => 1)) b)) (with_core k c1)) g1)) g2) c2) c3)) g3) c4) c5) g4
      = with_vdisk (with_core kd c5) (fun _ => g4 (g3 (g2 (g1 (dv_vdisk (k_dev k)))))).
Proof.
  intros Hb Hdisk Hbn Hr req. assert (Es : u32 (blockno * 2) / 2 = blockno).
  { unfold u32. rewrite Z.mod_small by lia. apply Z.div_mul. lia. }
  assert (Eb : alter (set_b_disk (fun _ => 0)) b (alter (set_b_disk (fun _ => 1)) b (bc_bufs (k_bcache k))) = bc_bufs (k_bcache k)).
  { apply list_eq. intros j. destruct (decide (j = b)) as [->|Hne]; [|by rewrite !list_lookup_alter_ne].
    rewrite !list_lookup_alter_eq, Hb. simpl. f_equal. destruct x. simpl in *. by subst. }
  assert (Hg : get_buf b k = Ok x k) by (unfold get_buf, M_bind, gets; by rewrite Hb).
  unfold disk_rw. rewrite (bind_ok _ _ _ _ _ Hg). destruct write.
  - eexists. split; [reflexivity|]. intros. apply kernel_ext; try reflexivity.
    + change (set_bc_bufs (alter (set_b_disk (fun _ => 0)) b) (set_bc_bufs (alter (set_b_disk (fun _ => 1)) b) (k_bcache k)) = k_bcache k).
      unfold set_bc_bufs. cbn [bc_bufs]. rewrite Eb. by destruct (k_bcache k).
    + change (mkDisk (fun y => if y =? u32 (blockno * 2) / 2 then b_data x else d_blocks (k_disk k) y)
        (d_trace (k_disk k) ++ [(u32 (blockno * 2) / 2, b_data x)]) =
        mkDisk (fun y => if y =? b_blockno x then b_data x else d_blocks (k_disk k) y) (d_trace (k_disk k) ++ [(b_blockno x, b_data x)])).
      by rewrite Es, Hbn.
  - rewrite (bind_ok _ _ _ (k_disk k) k) by done. unfold upd_buf. rewrite (bind_ok _ _ _ _ _ Hg).
    eexists. split; [reflexivity|]. intros. apply kernel_ext; try reflexivity.
    change (set_bc_bufs (alter (set_b_disk (fun _ => 0)) b) (set_bc_bufs (alter (set_b_data (fun _ => d_blocks (k_disk k) (u32 (blockno * 2) / 2))) b)
      (set_bc_bufs (alter (set_b_disk (fun _ => 1)) b) (k_bcache k))) = set_bc_bufs (alter (set_b_data (fun _ => d_blocks (k_disk k) (b_blockno x))) b) (k_bcache k)).
    rewrite Es, Hbn. unfold set_bc_bufs. cbn [bc_bufs bc_hnext bc_hprev]. f_equal.
    rewrite <- Eb at 2. apply list_eq. intros j. destruct (decide (j = b)) as [->|Hne]; [|by rewrite !list_lookup_alter_ne].
    rewrite !list_lookup_alter_eq, Hb. done.
Qed.

Lemma complete_keeps i0 r f g v :
  let v3 := set_v_used_idx f (set_v_ctl g (complete i0 r v)) in
  v_desc v3 = v_desc v /\ v_free v3 = v_free (complete i0 r v).
Proof. destruct v. by split. Qed.

Lemma transfer_buf r b x k :
  br_buf r = b -> bc_bufs (k_bcache k) !! b = Some x ->
  k_dev (transfer r (b_data x) k) = k_dev k /\ k_core (transfer r (b_data x) k) = k_core k /\
  exists x', bc_bufs (k_bcache (transfer r (b_data x) k)) !! b = Some x' /\ b_disk x' = b_disk x.
Proof.
  intros <- Hb. unfold transfer. destruct (br_type r =? VIRTIO_BLK_T_OUT); split_ands; try done; [by exists x|].
  eexists. split; [cbn [k_bcache set_k_bcache bc_bufs set_bc_bufs]; rewrite list_lookup_alter_eq, Hb; reflexivity|done].
Qed.

(** ** Properties *)

(** C4: the driver, the device and the interrupt handler together do what bio.c takes
    [virtio_disk_rw] for.  Started on a buffer with the queue idle and three descriptors
    free, [virtio_disk_rw] offers the device a request and sleeps on the buffer; a device
    that serves the request it is offered finds one for the whole of that block, in the
    right direction; the interrupt makes the process runnable again; and when it goes on,
    holding the lock, it returns with the disk and the buffer as [disk_rw] leaves them,
    the queue idle and the same descriptors free. *)
Theorem virtio_disk_rw_refines device k me pr b x write :
  let v := dv_vdisk (k_dev k) in
  serves device -> core_ok (k_core k) me [] -> c_procs (k_core k) !! me = Some pr ->
  bc_bufs (k_bcache k) !! b = Some x -> b_disk x = 0 -> 0 <= b_blockno x < 2 ^ 31 ->
  queue_ok v -> (3 <= nfree v)%nat ->
  exists i0 k1 k2,
    virtio_disk_rw b write k = Wait (Sleeping (ChanBuf b)) k1 /\ core_ok (k_core k1) me [LProc me] /\
    device k1 = Some k2 /\
    forall me2 c2 st, core_ok c2 me2 [] -> me2 <> me -> c_procs c2 !! me = c_procs (k_core k2) !! me ->
      wp (virtio_disk_intr st) (fun _ k3 =>
        p_state <$> c_procs (k_core k3) !! me = Some RUNNABLE /\
        forall c3, core_ok c3 me [LDisk] ->
          wp (rw_finish b i0) (fun _ k4 =>
            exists kd c4 v4, disk_rw b write k = Ok tt kd /\ k4 = with_vdisk (with_core kd c4) (fun _ => v4) /\
              core_ok c4 me [] /\ core_frame me c3 c4 /\ queue_ok v4 /\ v_free v4 = v_free v)
            (with_core k3 c3)) (with_core k2 c2).
Proof.
  intros v Hdev Hc Hp Hb Hdisk Hbn Hv Hn. pose proof Hv as [L1 L2 L3 L4 L5 L6 L7 Hf Ha Hr Hs Hu].
  destruct (transfer_disk_rw k b x write _ Hb Hdisk eq_refl Hbn) as (kd & Ekd & Htr).
  edestruct (waits_ok (virtio_disk_rw b write) (Sleeping (ChanBuf b)) (fun k1 => exists c1 i0 i1 i2 f0 f1 f2,
    k1 = with_vdisk (set_k_bcache (set_bc_bufs (alter (set_b_disk (fun _ => 1)) b)) (with_core k c1))
             (submitted b (b_blockno x) write i0 i1 i2) /\ core_ok c1 me [LProc me] /\
    c_procs c1 = <[me := set_p_state (fun _ => SLEEPING) (set_p_chan (fun _ => ChanBuf b) pr)]> (c_procs (k_core k)) /\
    NoDup [i0; i1; i2] /\ v_free v !! i0 = Some f0 /\ f0 <> 0 /\ v_free v !! i1 = Some f1 /\ f1 <> 0 /\
    v_free v !! i2 = Some f2 /\ f2 <> 0) k) as (k1 & Ek1 & c1 & i0 & i1 & i2 & f0 & f1 & f2 & -> & H1 & Ep & Hd & E0 & F0 & E1 & F1 & E2 & F2).
  { eapply waits_virtio_disk_rw; try done. intros. do 7 eexists. split_ands; done. }
  assert (Hone : forall i f, v_free v !! i = Some f -> f <> 0 -> f = 1 /\ (i < NUM)%nat).
  { intros i f Hi Hne. destruct (Forall_lookup_1 _ _ _ _ Hf Hi); [done|]. split; [done|]. rewrite <- L4. by eapply lookup_lt_Some. }
  destruct (Hone _ _ E0 F0) as [-> B0], (Hone _ _ E1 F1) as [-> B1], (Hone _ _ E2 F2) as [-> B2].
  pose proof (next_submitted b (b_blockno x) write i0 i1 i2 v Hv Hd B0 B1 B2) as Hnext.
  set (req := mkBlk _ _ b i0) in Hnext. set (v1 := submitted b (b_blockno x) write i0 i1 i2 v) in *.
  assert (Hb1 : alter (set_b_disk (fun _ => 1)) b (bc_bufs (k_bcache k)) !! b = Some (set_b_disk (fun _ => 1) x))
    by (by rewrite list_lookup_alter_eq, Hb).
  destruct (submitted_chain b (b_blockno x) write i0 i1 i2 v Hv Hd B0 B1 B2) as (C0 & C1 & C2). fold v1 in C0, C1, C2.
  destruct (complete_submitted b (b_blockno x) write i0 i1 i2 v Hv Hd B0 B1 B2) as (P1 & P2 & P3 & P4 & P5 & P6 & P7 & P8).
  fold v1 req in P1, P2, P3, P4, P5, P6, P7, P8.
  eexists i0, _, _. split; [exact Ek1|]. split; [exact H1|]. split; [eapply Hdev; [exact Hnext|exact Hb1]|].
  set (k1 := with_vdisk _ _) in *. intros me2 c2 st H2 Hme Hp2.
  destruct (transfer_buf req b _ k1 eq_refl Hb1) as (Edev & Ecore & x2 & Hx2 & _).
  set (kt := transfer req _ k1) in *.
  assert (Ev2 : dv_vdisk (k_dev (with_core (with_vdisk kt (complete i0 req)) c2)) = complete i0 req v1).
  { cbn [k_dev set_k_core set_k_dev dv_vdisk set_dv_vdisk]. by rewrite Edev. }
  eapply (wp_intr_one _ me2 b x2 i0); rewrite ?Ev2; [exact H2|exact Hx2|exact P1|exact P2|exact P3|exact P4|exact P5|].
  intros c' l H' Ew. cbn [k_core set_k_core] in Ew. split.
  { cbn [k_core set_k_core set_k_dev set_k_bcache]. rewrite Ew. unfold woken. rewrite list_lookup_imap, Hp2.
    cbn [k_core set_k_dev]. rewrite Ecore. unfold k1. cbn [k_core set_k_dev set_k_bcache set_k_core].
    rewrite Ep, list_lookup_insert_eq by (by eapply lookup_lt_Some). cbn. unfold wake_one. rewrite decide_True by done. done. }
  intros c3 H3. set (v3 := set_v_used_idx (fun i => u16 (i + 1)) (set_v_ctl (fun _ => l) (complete i0 req v1))).
  match goal with |- wp _ _ ?k3 => assert (Ev3 : dv_vdisk (k_dev k3) = v3) end.
  { cbn [k_dev set_k_core set_k_dev set_k_bcache dv_vdisk set_dv_vdisk]. by rewrite Edev. }
  destruct (complete_keeps i0 req (fun i => u16 (i + 1)) (fun _ => l) v1) as [Ed Ef]. fold v3 in Ed, Ef.
  eapply (wp_rw_finish _ me b (set_b_disk (fun _ => 0) x2) i0 i1 i2); rewrite ?Ev3, ?Ed, ?Ef;
    [exact H3| |done|exact Hd|exact B0|exact B1|exact B2|exact C0|exact C1|exact C2|done|done|by destruct write|done|done|
     exact P6|exact P7|exact P8|].
  { cbn [k_bcache set_k_core set_k_dev set_k_bcache bc_bufs set_bc_bufs]. rewrite list_lookup_alter_eq, Hx2. done. }
  intros c4 H4 Hf4. destruct (request_done b (b_blockno x) write i0 i1 i2 v Hv Hd B0 B1 B2 l E0 E1 E2) as [Q1 Q2].
  exists kd, c4, (finished i0 i1 i2 v3). split_ands; try done. apply (Htr i0).
Qed.

(** A device that serves requests, and a kernel with the queue initialised. *)
Definition sample_device (k : kernel) : option kernel :=
  r ← next_request (dv_vdisk (k_dev k));
  x ← bc_bufs (k_bcache k) !! br_buf r.2;
  Some (with_vdisk (transfer r.2 (b_data x) k) (complete r.1 r.2)).

Definition driver_kernel : kernel :=
  with_vdisk (first_kernel sample_disk (fun _ => 0) sample_image) (set_v_free (fun _ => replicate 8 1)).

Lemma virtio_disk_rw_refines_witness :
  exists k1 k2, virtio_disk_rw 3 true driver_kernel = Wait (Sleeping (ChanBuf 3)) k1 /\ sample_device k1 = Some k2.
Proof.
  assert (Hs : serves sample_device).
  { intros k i0 r x Hn Hb. unfold sample_device. rewrite Hn. simpl. by rewrite Hb. }
  assert (Hq : queue_ok (dv_vdisk (k_dev driver_kernel))).
  { constructor; try reflexivity; try (simpl; lia). simpl. repeat constructor; by right. }
  assert (Hc : core_ok (held_core []) 0 []) by (apply held_core_ok; [apply NoDup_nil_2|done]).
  destruct (virtio_disk_rw_refines sample_device driver_kernel 0 first_proc 3 zero_buf true Hs Hc eq_refl eq_refl eq_refl
    ltac:(simpl; lia) Hq ltac:(vm_compute; lia)) as (i0 & k1 & k2 & E1 & _ & E2 & _).
  exists k1, k2. exact (conj E1 E2).
Defined.
