(* ===== verification/Trap.v ===== *)
(** * Traps, interrupts and booting (kernel/trap.c, kernel/plic.c, [forkret] of
    kernel/proc.c, [kvminithart] of kernel/vm.c, kernel/main.c, kernel/start.c)

    The jump to user space at the end of [usertrapret] is its result: the address jumped
    to and the two arguments. *)

From S2P Require Import Prelude State Spin Sleep Uart Printf Bio Log Txn Strings Kalloc Vm FsBlock FsInode FsDir Console Pipe File Proc Exec Syscall Sysfile Virtio.

(** ** Definitions: registers *)

Definition SSTATUS_SPP : Z := Z.shiftl 1 8.
Definition SSTATUS_SPIE : Z := Z.shiftl 1 5.
Definition SSTATUS_SIE : Z := Z.shiftl 1 1.
Definition SATP_SV39 : Z := Z.shiftl 8 60.
Definition MAKE_SATP (pagetable : Z) : Z := Z.lor SATP_SV39 (Z.shiftr pagetable 12).

Definition upd_csr (g : csr -> csr) : K unit := modify (set_k_dev (set_dv_csr g)).

Definition r_sstatus : K Z :=
  let* cs := get_dev dv_csr in
  let* on := intr_get in
  M_ret (Z.lor (cs_sstatus cs) (if on then SSTATUS_SIE else 0)).

Definition w_sstatus (x : Z) : K unit :=
  upd_csr (set_cs_sstatus (fun _ => Z.land x (Z.lnot SSTATUS_SIE))) ;*
  modify (set_k_core (set_c_intr (fun _ => truthy (Z.land x SSTATUS_SIE)))).

(** ** Definitions: plic.c *)

Definition UART0_IRQ : Z := 10.
Definition VIRTIO0_IRQ : Z := 1.
Definition PLIC_SENABLE (hart : Z) : Z := PLIC + 0x2080 + hart * 0x100.
Definition PLIC_SPRIORITY (hart : Z) : Z := PLIC + 0x201000 + hart * 0x2000.

Definition upd_plic (g : plic -> plic) : K unit := modify (set_k_dev (set_dv_plic g)).

Definition plic_write (a v : Z) : K unit := upd_plic (set_pl_ctl (fun l => l ++ [(a, v)])).

Definition plicinit : K unit :=
  plic_write (PLIC + UART0_IRQ * 4) 1 ;*
  plic_write (PLIC + VIRTIO0_IRQ * 4) 1.

Definition plicinithart : K unit :=
  let* hart := cpuid in
  plic_write (PLIC_SENABLE (Z.of_nat hart)) (Z.lor (Z.shiftl 1 UART0_IRQ) (Z.shiftl 1 VIRTIO0_IRQ)) ;*
  plic_write (PLIC_SPRIORITY (Z.of_nat hart)) 0.

(** A claim takes the first pending request; without one it reads 0. *)
Definition plic_claim : K Z :=
  let* _ := cpuid in
  let* p := get_dev dv_plic in
  upd_plic (set_pl_pending tail) ;*
  M_ret (default 0 (head (pl_pending p))).

Definition plic_complete (irq : Z) : K unit :=
  let* _ := cpuid in
  upd_plic (set_pl_done (fun l => l ++ [irq])).

(** ** Definitions: trap.c *)

(** Addresses of code, and what a handler finds in memory it has not written: the
    padding of a [struct stat] and the status register of the disk. *)
Record symbols := mkSymbols {
  sy_kernelvec : Z;
  sy_uservec : Z;
  sy_userret : Z;
  sy_usertrap : Z;
  sy_pad : list Z;
  sy_disk_status : Z
}.

Definition trapinit : K unit := initlock LTicks "time".

Definition clockintr : K unit :=
  acquire LTicks ;*
  modify (set_k_ticks (fun t => u32 (t + 1))) ;*
  wakeup ChanTicks ;*
  release LTicks.

Section traps.
Variable sy : symbols.

Definition trapinithart : K unit := upd_csr (set_cs_stvec (fun _ => sy_kernelvec sy)).

Definition devintr : K Z :=
  let* cs := get_dev dv_csr in
  let scause := cs_scause cs in
  if truthy (Z.land scause 0x8000000000000000) && (Z.land scause 0xff =? 9) then
    let* irq := plic_claim in
    (if irq =? UART0_IRQ then uartintr
     else if irq =? VIRTIO0_IRQ then virtio_disk_intr (sy_disk_status sy)
     else when (truthy irq) (printf ("unexpected interrupt irq=%d" +:+ newline) [PInt irq])) ;*
    when (truthy irq) (plic_complete irq) ;*
    M_ret 1
  else if scause =? 0x8000000000000001 then
    let* id := cpuid in
    when (id =? 0)%nat clockintr ;*
    upd_csr (set_cs_sip (fun x => Z.land x (Z.lnot 2))) ;*
    M_ret 2
  else M_ret 0.

Definition usertrapret : K (Z * Z * Z) :=
  let* p := curproc in
  intr_off ;*
  let* img := gets k_img in
  upd_csr (set_cs_stvec (fun _ => TRAMPOLINE + (sy_uservec sy - img_trampoline img))) ;*
  let* cs := get_dev dv_csr in
  st_tf p TF_KERNEL_SATP (cs_satp cs) ;*
  let* pr := get_proc p in
  st_tf p TF_KERNEL_SP (u64 (p_kstack pr + PGSIZE)) ;*
  st_tf p TF_KERNEL_TRAP (sy_usertrap sy) ;*
  let* hart := cpuid in
  st_tf p TF_KERNEL_HARTID (Z.of_nat hart) ;*
  let* x := r_sstatus in
  let x := Z.land x (Z.lnot SSTATUS_SPP) in
  let x := Z.lor x SSTATUS_SPIE in
  w_sstatus x ;*
  let* epc := ld_tf p TF_EPC in
  upd_csr (set_cs_sepc (fun _ => epc)) ;*
  let* pr := get_proc p in
  let satp := MAKE_SATP (p_pagetable pr) in
  let fn := TRAMPOLINE + (sy_userret sy - img_trampoline img) in
  M_ret (fn, TRAPFRAME, satp).

Definition usertrap : K (Z * Z * Z) :=
  let* s := r_sstatus in
  if truthy (Z.land s SSTATUS_SPP) then panic "usertrap: not from user mode" else
  upd_csr (set_cs_stvec (fun _ => sy_kernelvec sy)) ;*
  let* p := curproc in
  let* cs := get_dev dv_csr in
  st_tf p TF_EPC (cs_sepc cs) ;*
  let* which_dev :=
    (if cs_scause cs =? 8 then
       let* pr := get_proc p in
       when (truthy (p_killed pr)) (exit (-1)) ;*
       let* epc := ld_tf p TF_EPC in
       st_tf p TF_EPC (u64 (epc + 4)) ;*
       intr_on ;*
       syscall (sy_pad sy) ;*
       M_ret 0
     else
       let* d := devintr in
       if truthy d then M_ret d else
       let* pr := get_proc p in
       let* cs := get_dev dv_csr in
       printf ("usertrap(): unexpected scause %p pid=%d" +:+ newline) [PPtr (cs_scause cs); PInt (p_pid pr)] ;*
       printf ("            sepc=%p stval=%p" +:+ newline) [PPtr (cs_sepc cs); PPtr (cs_stval cs)] ;*
       upd_proc p (set_p_killed (fun _ => 1)) ;*
       M_ret 0) in
  let* pr := get_proc p in
  when (truthy (p_killed pr)) (exit (-1)) ;*
  when (which_dev =? 2) yield ;*
  usertrapret.

Definition kerneltrap : K unit :=
  let* cs := get_dev dv_csr in
  let sepc := cs_sepc cs in
  let* sstatus := r_sstatus in
  let scause := cs_scause cs in
  if Z.land sstatus SSTATUS_SPP =? 0 then panic "kerneltrap: not from supervisor mode" else
  let* on := intr_get in
  if on then panic "kerneltrap: interrupts enabled" else
  let* which_dev := devintr in
  if which_dev =? 0 then
    printf ("scause %p" +:+ newline) [PPtr scause] ;*
    let* cs := get_dev dv_csr in
    printf ("sepc=%p stval=%p" +:+ newline) [PPtr (cs_sepc cs); PPtr (cs_stval cs)] ;*
    panic "kerneltrap"
  else
    let* me := myproc in
    let* running :=
      match me with
      | Some p => let* pr := get_proc p in M_ret (bool_decide (p_state pr = RUNNING))
      | None => M_ret false
      end in
    when ((which_dev =? 2) && running) yield ;*
    upd_csr (set_cs_sepc (fun _ => sepc)) ;*
    w_sstatus sstatus.

(** A process that has never run starts here, with its lock held by the scheduler. *)
Definition forkret : K (Z * Z * Z) :=
  let* p := curproc in
  release (LProc p) ;*
  let* first := get_dev dv_first in
  when (truthy first)
    (modify (set_k_dev (set_dv_first (fun _ => 0))) ;*
     fsinit ROOTDEV) ;*
  usertrapret.

(** ** Definitions: main.c *)

Definition kvminithart : K unit :=
  let* kpgtbl := gets (fun k => ph_kpgtbl (k_phys k)) in
  upd_csr (set_cs_satp (fun _ => MAKE_SATP kpgtbl)).

(** [main] up to [scheduler], on the first hart and on the others. *)
Definition main (reg : Z -> Z) (pages : Z) : K unit :=
  let* id := cpuid in
  if (id =? 0)%nat then
    consoleinit ;*
    printfinit ;*
    printf newline [] ;*
    printf ("xv6 kernel is booting" +:+ newline) [] ;*
    printf newline [] ;*
    kinit ;*
    kvminit ;*
    kvminithart ;*
    procinit ;*
    trapinit ;*
    trapinithart ;*
    plicinit ;*
    plicinithart ;*
    binit ;*
    iinit ;*
    fileinit ;*
    virtio_disk_init reg pages ;*
    userinit
  else
    printf ("hart %d starting" +:+ newline) [PInt (Z.of_nat id)] ;*
    kvminithart ;*
    trapinithart ;*
    plicinithart.

End traps.

(** ** Definitions: start.c *)

Definition MSTATUS_MPP_MASK : Z := Z.shiftl 3 11.
Definition MSTATUS_MPP_S : Z := Z.shiftl 1 11.
Definition MSTATUS_MIE : Z := Z.shiftl 1 3.
Definition SIE_SEIE : Z := Z.shiftl 1 9.
Definition SIE_STIE : Z := Z.shiftl 1 5.
Definition SIE_SSIE : Z := Z.shiftl 1 1.
Definition MIE_MTIE : Z := Z.shiftl 1 7.
Definition CLINT : Z := 0x2000000.
Definition CLINT_MTIMECMP (hartid : Z) : Z := CLINT + 0x4000 + 8 * hartid.

(** The machine-mode registers of a hart, its comparator of the clock and its entry of
    [timer_scratch]. *)
Record machine := mkMachine {
  m_mstatus : Z;
  m_mepc : Z;
  m_satp : Z;
  m_medeleg : Z;
  m_mideleg : Z;
  m_sie : Z;
  m_pmpaddr0 : Z;
  m_pmpcfg0 : Z;
  m_mie : Z;
  m_mscratch : Z;
  m_mtvec : Z;
  m_tp : Z;
  m_mtimecmp : Z;
  m_scratch : list Z
}.

(** [mtime] is the clock, [scratch] the address of the hart's scratch area, [timervec]
    that of the handler. *)
Definition timerinit (id mtime scratch timervec : Z) (m : machine) : machine :=
  let interval := 1000000 in
  mkMachine (Z.lor (m_mstatus m) MSTATUS_MIE) (m_mepc m) (m_satp m) (m_medeleg m) (m_mideleg m) (m_sie m)
    (m_pmpaddr0 m) (m_pmpcfg0 m) (Z.lor (m_mie m) MIE_MTIE) scratch timervec (m_tp m)
    (u64 (mtime + interval)) (<[3%nat := CLINT_MTIMECMP id]> (<[4%nat := interval]> (m_scratch m))).

Definition start (id mtime scratch timervec main_addr : Z) (m : machine) : machine :=
  let x := Z.lor (Z.land (m_mstatus m) (Z.lnot MSTATUS_MPP_MASK)) MSTATUS_MPP_S in
  let m := mkMachine x main_addr 0 0xffff 0xffff
             (Z.lor (Z.lor (Z.lor (m_sie m) SIE_SEIE) SIE_STIE) SIE_SSIE) 0x3fffffffffffff 0xf
             (m_mie m) (m_mscratch m) (m_mtvec m) (m_tp m) (m_mtimecmp m) (m_scratch m) in
  let m := timerinit id mtime scratch timervec m in
  mkMachine (m_mstatus m) (m_mepc m) (m_satp m) (m_medeleg m) (m_mideleg m) (m_sie m) (m_pmpaddr0 m)
    (m_pmpcfg0 m) (m_mie m) (m_mscratch m) (m_mtvec m) id (m_mtimecmp m) (m_scratch m).

(** ** Properties *)

(** The trap frame of a process is a page of memory. *)
Definition frame_ok (pr : proc) : Prop := in_ram (p_trapframe pr) 288 = true.

Lemma wp_st_tf k p pr off v Q :
  c_procs (k_core k) !! p = Some pr -> in_ram (p_trapframe pr + off) 8 = true ->
  Q tt (set_k_phys (set_ph_mem (fun m => mwrite m (p_trapframe pr + off) (le_split 8 v))) k) -> wp (st_tf p off v) Q k.
Proof. intros Hp Hr HQ. unfold st_tf. wp_steps. eapply wp_get_proc; [exact Hp|]. by apply wp_st64. Qed.

Lemma wp_ld_tf k p pr off Q :
  c_procs (k_core k) !! p = Some pr -> in_ram (p_trapframe pr + off) 8 = true ->
  Q (word (ph_mem (k_phys k)) (p_trapframe pr + off)) k -> wp (ld_tf p off) Q k.
Proof. intros Hp Hr HQ. unfold ld_tf. wp_steps. eapply wp_get_proc; [exact Hp|]. by apply wp_ld64. Qed.

Lemma frame_word pr off : frame_ok pr -> 0 <= off <= 280 -> in_ram (p_trapframe pr + off) 8 = true.
Proof.
  unfold frame_ok, in_ram. rewrite !andb_true_iff, !Z.leb_le. lia.
Qed.

Lemma sstatus_bits s :
  Z.testbit s 1 = false ->
  let x := Z.lor (Z.land (Z.lor s 0) (Z.lnot SSTATUS_SPP)) SSTATUS_SPIE in
  Z.testbit (Z.land x (Z.lnot SSTATUS_SIE)) 8 = false /\ Z.testbit (Z.land x (Z.lnot SSTATUS_SIE)) 5 = true /\
  truthy (Z.land x SSTATUS_SIE) = false.
Proof.
  intros Hs x.
  assert (Hx : forall i, 0 <= i -> Z.testbit x i = Z.testbit s i && negb (Z.testbit SSTATUS_SPP i) || Z.testbit SSTATUS_SPIE i).
  { intros i Hi. unfold x. by rewrite Z.lor_spec, Z.land_spec, Z.lor_spec, Z.lnot_spec, Z.bits_0, orb_false_r by lia. }
  split_ands.
  - rewrite Z.land_spec, Hx by lia. simpl. by rewrite andb_false_r.
  - rewrite Z.land_spec, Hx, Z.lnot_spec by lia. simpl. by rewrite orb_true_r.
  - assert (Z.land x SSTATUS_SIE = 0) as ->; [|done]. apply Z.bits_inj'. intros i Hi. rewrite Z.land_spec, Z.bits_0.
    change SSTATUS_SIE with (2 ^ 1). destruct (decide (i = 1)) as [->|Hne].
    + rewrite Hx, Hs by lia. reflexivity.
    + rewrite Z.pow2_bits_false by lia. apply andb_false_r.
Qed.

(** [usertrapret] leaves the hart so that [sret] goes to user mode, with interrupts
    enabled there and disabled until then, at the saved program counter; it leaves in
    the trap frame what [uservec] needs to come back into the kernel (the kernel's page
    table, the process's kernel stack, [usertrap] and the hart), and gives the
    trampoline the process's page table.  It writes no other word of memory. *)
Theorem usertrapret_correct sy k me pr :
  let m := ph_mem (k_phys k) in
  let tf := p_trapframe pr in
  core_ok (k_core k) me [] -> c_procs (k_core k) !! me = Some pr -> frame_ok pr ->
  0 <= sy_usertrap sy < 2 ^ 64 -> 0 <= cs_satp (dv_csr (k_dev k)) < 2 ^ 64 -> 0 <= p_kstack pr < 2 ^ 64 - PGSIZE ->
  Z.testbit (cs_sstatus (dv_csr (k_dev k))) 1 = false -> (c_hart (k_core k) < NCPU)%nat ->
  wp (usertrapret sy) (fun r k' =>
    let m' := ph_mem (k_phys k') in
    let cs' := dv_csr (k_dev k') in
    r = (TRAMPOLINE + (sy_userret sy - img_trampoline (k_img k)), TRAPFRAME, MAKE_SATP (p_pagetable pr)) /\
    Z.testbit (cs_sstatus cs') 8 = false /\ Z.testbit (cs_sstatus cs') 5 = true /\ c_intr (k_core k') = false /\
    cs_sepc cs' = word m (tf + TF_EPC) /\
    cs_stvec cs' = TRAMPOLINE + (sy_uservec sy - img_trampoline (k_img k)) /\
    word m' (tf + TF_KERNEL_SATP) = cs_satp (dv_csr (k_dev k)) /\
    word m' (tf + TF_KERNEL_SP) = p_kstack pr + PGSIZE /\
    word m' (tf + TF_KERNEL_TRAP) = sy_usertrap sy /\
    word m' (tf + TF_KERNEL_HARTID) = Z.of_nat (c_hart (k_core k)) /\
    (forall x, ~ tf <= x < tf + TF_EPC -> ~ tf + TF_KERNEL_HARTID <= x < tf + TF_KERNEL_HARTID + 8 -> m' x = m x)) k.
Proof.
  intros m tf Hc Hp Hf Hut Hsatp Hks Hsie Hh. unfold usertrapret. wp_steps.
  eapply wp_curproc; [exact Hc|simpl; lia|]. intros c1 H1 S1. unfold intr_off, upd_csr at 1, get_dev. wp_steps.
  set (k2 := set_k_dev _ _). assert (Hp2 : c_procs (k_core k2) !! me = Some pr) by (simpl; by rewrite (sb_procs _ _ S1)).
  assert (Hsp : u64 (p_kstack pr + PGSIZE) = p_kstack pr + PGSIZE) by (apply u64_small; unfold PGSIZE in *; lia).
  wp_steps. apply (wp_st_tf _ _ pr); [exact Hp2|by apply frame_word|]. wp_steps. eapply wp_get_proc; [exact Hp2|]. wp_steps.
  apply (wp_st_tf _ _ pr); [exact Hp2|by apply frame_word|]. wp_steps.
  apply (wp_st_tf _ _ pr); [exact Hp2|by apply frame_word|]. unfold cpuid at 1. wp_steps.
  apply (wp_st_tf _ _ pr); [exact Hp2|by apply frame_word|]. unfold r_sstatus, w_sstatus, upd_csr, get_dev, intr_get. wp_steps.
  apply (wp_ld_tf _ _ pr); [exact Hp2|by apply frame_word|]. wp_steps. eapply wp_get_proc; [exact Hp2|]. wp_steps.
  rewrite Hsp. fold tf. cbn [k_phys set_k_phys ph_mem set_ph_mem k_dev set_k_dev dv_csr set_dv_csr k_core set_k_core c_intr set_c_intr
    cs_sstatus set_cs_sstatus cs_sepc set_cs_sepc cs_stvec set_cs_stvec cs_satp k_img c_hart] in *.
  unfold k2. cbn -[Z.testbit TF_EPC TF_KERNEL_SATP TF_KERNEL_SP TF_KERNEL_TRAP TF_KERNEL_HARTID].
  destruct (sstatus_bits _ Hsie) as (B1 & B2 & B3). rewrite (sb_hart _ _ S1). fold m.
  unfold TF_EPC, TF_KERNEL_SATP, TF_KERNEL_SP, TF_KERNEL_TRAP, TF_KERNEL_HARTID. split_ands; try done.
  - by rewrite !word_mwrite_ne by lia.
  - rewrite !word_mwrite_ne by lia. by rewrite word_mwrite.
  - rewrite !word_mwrite_ne by lia. rewrite word_mwrite; [done|unfold PGSIZE in *; lia].
  - rewrite !word_mwrite_ne by lia. by rewrite word_mwrite.
  - rewrite word_mwrite; [done|]. unfold NCPU in Hh. lia.
  - intros x X1 X2. rewrite !mwrite_out by (rewrite length_le_split; simpl; lia). done.
Qed.

Lemma usertrapret_correct_witness :
  exists r k', usertrapret (mkSymbols 0 0 0 0x80002000 [] 0)
    (set_k_core (set_c_procs (alter (set_p_trapframe (fun _ => 0x80200000)) 0%nat)) (first_kernel sample_disk (fun _ => 0) sample_image)) = Ok r k' /\
    c_intr (k_core k') = false.
Proof.
  assert (Hc : core_ok (held_core []) 0 []) by (apply held_core_ok; [apply NoDup_nil_2|done]).
  set (k := set_k_core _ _). assert (Hk : core_ok (k_core k) 0 []).
  { destruct Hc; constructor; try done. }
  destruct (wp_ok _ _ _ (usertrapret_correct (mkSymbols 0 0 0 0x80002000 [] 0) k 0 (set_p_trapframe (fun _ => 0x80200000) first_proc) Hk eq_refl eq_refl
    ltac:(simpl; lia) ltac:(simpl; lia) ltac:(simpl; unfold PGSIZE; lia) eq_refl ltac:(simpl; unfold NCPU; lia))) as (r & k' & E & _ & _ & _ & Hi & _).
  exists r, k'. exact (conj E Hi).
Defined.
