(* ===== verification/Fd.v ===== *)
(** * File descriptors: the reference counts of the open files (kernel/file.c, sysfile.c, and [fork] of proc.c)

    A file of the table is shared by the descriptors that refer to it, of one process or
    of several.  The invariant is that its count is the number of these references; the
    theorems show it for the operations that make and drop references. *)

From S2P Require Import Prelude State Spin Sleep Uart Printf Bio Log Txn Strings Kalloc Vm FsBlock FsInode FsDir Console Pipe File Proc Exec Syscall Sysfile Trap.

(** ** Specification *)

(** The references to the file [f] of a table of descriptors, and of all processes *)
Definition refs_in (l : list (option nat)) (f : nat) : Z := Z.of_nat (length (filter (fun o => o = Some f) l)).

Fixpoint fd_refs (ps : list proc) (f : nat) : Z :=
  match ps with
  | [] => 0
  | p :: ps => refs_in (p_ofile p) f + fd_refs ps f
  end.

(** [extra f]: references that are not in a descriptor, but held by running kernel code. *)
Record files_ok (ps : list proc) (t : list file) (extra : nat -> Z) : Prop := mkFilesOk {
  fs_len : length t = NFILE;
  fs_procs : Forall (fun p => length (p_ofile p) = NOFILE) ps;
  fs_open p pr fd f : ps !! p = Some pr -> p_ofile pr !! fd = Some (Some f) -> (f < NFILE)%nat;
  fs_refs f x : t !! f = Some x -> f_ref x = fd_refs ps f + extra f;
  fs_extra f : 0 <= extra f < 2 ^ 30
}.

Definition no_extra : nat -> Z := fun _ => 0.
Definition one_extra (f : nat) : nat -> Z := fun g => if decide (g = f) then 1 else 0.

(** The first free descriptor *)
Definition free_slot (l : list (option nat)) : option nat := fst <$> list_find (fun o => o = None) l.

(** ** Lemmas: counting *)

Lemma refs_in_nonneg l f : 0 <= refs_in l f.
Proof. unfold refs_in. lia. Qed.

Lemma refs_in_le l f : refs_in l f <= Z.of_nat (length l).
Proof. unfold refs_in. pose proof (length_filter (fun o => o = Some f) l). lia. Qed.

Lemma refs_in_insert l fd o o' f :
  l !! fd = Some o' ->
  refs_in (<[fd := o]> l) f = refs_in l f + (if decide (o = Some f) then 1 else 0) - (if decide (o' = Some f) then 1 else 0).
Proof.
  intros Hl. rewrite <- (take_drop_middle l fd o' Hl) at 2. rewrite insert_take_drop by (by eapply lookup_lt_Some).
  unfold refs_in. rewrite !filter_app, !filter_cons, !length_app. repeat case_decide; simpl; lia.
Qed.

Lemma refs_in_elem l fd f : l !! fd = Some (Some f) -> 0 < refs_in l f.
Proof.
  intros Hl. rewrite <- (take_drop_middle l fd _ Hl). unfold refs_in. rewrite filter_app, filter_cons, length_app. rewrite decide_True by done. simpl. lia.
Qed.

Lemma fd_refs_nonneg ps f : 0 <= fd_refs ps f.
Proof. induction ps as [|p ps IH]; simpl; [done|]. pose proof (refs_in_nonneg (p_ofile p) f). lia. Qed.

Lemma fd_refs_le ps f : Forall (fun p => length (p_ofile p) = NOFILE) ps -> fd_refs ps f <= Z.of_nat (NOFILE * length ps).
Proof.
  induction 1 as [|p ps Hp _ IH]; cbn [fd_refs length]; [lia|]. pose proof (refs_in_le (p_ofile p) f). rewrite Hp in *. lia.
Qed.

Lemma fd_refs_alter ps p pr g f :
  ps !! p = Some pr -> fd_refs (alter g p ps) f = fd_refs ps f + refs_in (p_ofile (g pr)) f - refs_in (p_ofile pr) f.
Proof.
  revert p. induction ps as [|q ps IH]; intros [|p] Hp; [done|done| |]; simpl in Hp.
  - injection Hp as ->. change (alter g 0%nat (pr :: ps)) with (g pr :: ps). simpl. lia.
  - change (alter g (S p) (q :: ps)) with (q :: alter g p ps). simpl. rewrite (IH p Hp). lia.
Qed.

Lemma fd_refs_elem ps p pr fd f : ps !! p = Some pr -> p_ofile pr !! fd = Some (Some f) -> 0 < fd_refs ps f.
Proof.
  revert p. induction ps as [|q ps IH]; intros [|p] Hp Hf; simpl in Hp; [done|done| |].
  - injection Hp as ->. simpl. pose proof (refs_in_elem _ _ _ Hf). pose proof (fd_refs_nonneg ps f). lia.
  - simpl. pose proof (IH p Hp Hf). pose proof (refs_in_nonneg (p_ofile q) f). lia.
Qed.

Lemma files_ok_bound ps t extra f x :
  files_ok ps t extra -> length ps = NPROC -> t !! f = Some x -> 0 <= f_ref x < 2 ^ 31 - 1.
Proof.
  intros [H1 H2 H3 H4 H5] Hl Hx. rewrite (H4 _ _ Hx). pose proof (fd_refs_nonneg ps f). pose proof (fd_refs_le ps f H2). pose proof (H5 f).
  rewrite Hl in *. change (Z.of_nat (NOFILE * NPROC)) with 1024 in *. lia.
Qed.

(** A descriptor gets one more or one less reference from the kernel, or gives it one. *)
Lemma files_ok_set_ref ps t extra extra' f x r :
  files_ok ps t extra -> t !! f = Some x -> r = fd_refs ps f + extra' f -> 0 <= extra' f < 2 ^ 30 ->
  (forall g, g <> f -> extra' g = extra g) -> files_ok ps (alter (set_f_ref (fun _ => r)) f t) extra'.
Proof.
  intros [H1 H2 H3 H4 H5] Hx Hr He Ho. constructor; try done.
  - by rewrite length_alter.
  - intros g y Hy. destruct (decide (g = f)) as [->|Hne].
    + rewrite list_lookup_alter_eq, Hx in Hy. injection Hy as <-. done.
    + rewrite list_lookup_alter_ne in Hy by congruence. rewrite (H4 _ _ Hy). by rewrite Ho.
  - intros g. destruct (decide (g = f)) as [->|Hne]; [done|]. by rewrite Ho.
Qed.

Lemma files_ok_set_fd ps t extra extra' p pr fd o o' :
  files_ok ps t extra -> ps !! p = Some pr -> p_ofile pr !! fd = Some o' ->
  (forall f, o = Some f -> (f < NFILE)%nat) -> (forall f, 0 <= extra' f < 2 ^ 30) ->
  (forall f, extra' f + (if decide (o = Some f) then 1 else 0) = extra f + (if decide (o' = Some f) then 1 else 0)) ->
  files_ok (alter (set_p_ofile (insert fd o)) p ps) t extra'.
Proof.
  intros [H1 H2 H3 H4 H5] Hp Hfd Ho He Hsum. constructor; try done.
  - apply Forall_alter; [done|]. intros q Hq Hlen. simpl. by rewrite length_insert.
  - intros q qr fd' f Hq Hf. destruct (decide (q = p)) as [->|Hne].
    + rewrite list_lookup_alter_eq, Hp in Hq. injection Hq as <-. cbn [p_ofile set_p_ofile] in Hf.
      destruct (decide (fd' = fd)) as [->|Hne]; [|rewrite list_lookup_insert_ne in Hf by congruence; by eapply H3].
      rewrite list_lookup_insert_eq in Hf by (by eapply lookup_lt_Some). injection Hf as ->. by apply Ho.
    + rewrite list_lookup_alter_ne in Hq by congruence. by eapply H3.
  - intros f x Hx. rewrite (H4 _ _ Hx), (fd_refs_alter _ _ _ _ _ Hp). cbn [p_ofile set_p_ofile]. rewrite (refs_in_insert _ _ _ _ _ Hfd).
    specialize (Hsum f). lia.
Qed.

(** ** Lemmas: the operations *)

Abbreviation with_files k c t := (set_k_ftable (fun _ => t) (with_core k c)).

Lemma wp_filealloc k me hs n Q :
  core_at (k_core k) me hs n -> Z.of_nat (length hs + n) + 1 < 2 ^ 30 -> LFtable ∉ hs -> length (k_ftable k) = NFILE ->
  (forall c', core_at c' me hs n -> same_but_locks (k_core k) c' ->
     match list_find (fun x => f_ref x = 0) (k_ftable k) with
     | Some (f, _) => Q (Some f) (with_files k c' (alter (set_f_ref (fun _ => 1)) f (k_ftable k)))
     | None => Q None (with_files k c' (k_ftable k))
     end) ->
  wp filealloc Q k.
Proof.
  intros Hc Hlt Hl Hlen HQ. unfold filealloc. wp_steps. eapply wp_acquire; [exact Hc|exact Hlt|exact Hl|]. intros c1 H1 S1. wp_steps.
  apply (wp_for_find _ _ (fun n k' => k' = with_core k c1 /\ forall j x, (j < n)%nat -> k_ftable k !! j = Some x -> f_ref x <> 0)).
  - split; [done|lia].
  - intros i f k' [-> Hi]%lookup_seq [-> Hno]. cbn [Nat.add]. wp_steps.
    destruct (lookup_lt_is_Some_2 (k_ftable k) i) as [x Hx]; [by rewrite Hlen|].
    eapply wp_get_file; [exact Hx|]. destruct (Z.eqb_spec (f_ref x) 0) as [E|E].
    + wp_steps. eapply wp_upd_file; [exact Hx|]. wp_steps.
      assert (Ef : list_find (fun x => f_ref x = 0) (k_ftable k) = Some (i, x)).
      { apply list_find_Some. split_ands; [done|done|]. intros j y Hy Hj. by apply (Hno j). }
      rewrite Ef in HQ. eapply wp_release; [exact H1|]. intros c2 H2 S2. wp_steps. apply (HQ c2 H2). by eapply same_but_locks_trans.
    + wp_steps. split; [done|]. intros j y Hj Hy. destruct (decide (j = i)) as [->|]; [congruence|]. apply (Hno j); [lia|done].
  - intros k' [-> Hno]. wp_steps. assert (Ef : list_find (fun x => f_ref x = 0) (k_ftable k) = None).
    { apply list_find_None, Forall_lookup. intros j x Hx. apply (Hno j); [|done]. rewrite length_seq, <- Hlen. by eapply lookup_lt_Some. }
    rewrite Ef in HQ. eapply wp_release; [exact H1|]. intros c2 H2 S2. wp_steps. apply (HQ c2 H2). by eapply same_but_locks_trans.
Qed.

Lemma wp_filedup k me hs n f x Q :
  core_at (k_core k) me hs n -> Z.of_nat (length hs + n) + 1 < 2 ^ 30 -> LFtable ∉ hs ->
  k_ftable k !! f = Some x -> 1 <= f_ref x < 2 ^ 31 - 1 ->
  (forall c', core_at c' me hs n -> same_but_locks (k_core k) c' ->
     Q f (with_files k c' (alter (set_f_ref (fun _ => f_ref x + 1)) f (k_ftable k)))) ->
  wp (filedup f) Q k.
Proof.
  intros Hc Hlt Hl Hx Hr HQ. unfold filedup. wp_steps. eapply wp_acquire; [exact Hc|exact Hlt|exact Hl|]. intros c1 H1 S1. wp_steps.
  eapply wp_get_file; [exact Hx|]. rewrite (proj2 (Z.ltb_ge _ _)) by lia. wp_steps. eapply wp_upd_file; [exact Hx|]. wp_steps.
  eapply wp_release; [exact H1|]. intros c2 H2 S2. wp_steps.
  pose proof (HQ c2 H2 (same_but_locks_trans _ _ _ S1 S2)) as H. rewrite (alter_as_insert _ _ x) in H by done.
  erewrite (f_equal (fun t => set_k_ftable (fun _ => t) (with_core k c2))) in H; [exact H|]. simpl.
  rewrite (alter_as_insert _ _ x) by done. unfold set_f_ref. by rewrite i32_small by lia.
Qed.

(** The file is still referred to by others. *)
Lemma wp_fileclose_shared k me hs n f x Q :
  core_at (k_core k) me hs n -> Z.of_nat (length hs + n) + 1 < 2 ^ 30 -> LFtable ∉ hs ->
  k_ftable k !! f = Some x -> 1 < f_ref x < 2 ^ 31 ->
  (forall c', core_at c' me hs n -> same_but_locks (k_core k) c' ->
     Q tt (with_files k c' (alter (set_f_ref (fun _ => f_ref x - 1)) f (k_ftable k)))) ->
  wp (fileclose f) Q k.
Proof.
  intros Hc Hlt Hl Hx Hr HQ. unfold fileclose. wp_steps. eapply wp_acquire; [exact Hc|exact Hlt|exact Hl|]. intros c1 H1 S1. wp_steps.
  eapply wp_get_file; [exact Hx|]. rewrite (proj2 (Z.ltb_ge _ _)) by lia. wp_steps. eapply wp_upd_file; [exact Hx|]. wp_steps.
  eapply wp_get_file; [simpl; rewrite list_lookup_alter_eq, Hx; reflexivity|]. cbn [f_ref set_f_ref]. rewrite i32_small by lia.
  rewrite (proj2 (Z.ltb_lt _ _)) by lia. eapply wp_release; [exact H1|]. intros c2 H2 S2.
  pose proof (HQ c2 H2 (same_but_locks_trans _ _ _ S1 S2)) as H. rewrite (alter_as_insert _ _ x) in H by done.
  erewrite (f_equal (fun t => set_k_ftable (fun _ => t) (with_core k c2))) in H; [exact H|]. simpl.
  rewrite (alter_as_insert _ _ x) by done. unfold set_f_ref. by rewrite i32_small by lia.
Qed.

Lemma core_at_alter c me hs n g i : core_at c me hs n -> core_at (set_c_procs (alter g i) c) me hs n.
Proof. intros []. constructor; simpl; try done. by rewrite length_alter. Qed.

Lemma wp_fdalloc k me hs n pr f Q :
  core_at (k_core k) me hs n -> Z.of_nat (length hs + n) + 1 < 2 ^ 30 ->
  c_procs (k_core k) !! me = Some pr -> length (p_ofile pr) = NOFILE ->
  (forall c', core_at c' me hs n ->
     match free_slot (p_ofile pr) with
     | Some fd => same_but_locks (set_c_procs (alter (set_p_ofile (insert fd (Some f))) me) (k_core k)) c' -> Q (Some fd) (with_core k c')
     | None => same_but_locks (k_core k) c' -> Q None (with_core k c')
     end) ->
  wp (fdalloc f) Q k.
Proof.
  intros Hc Hlt Hp Hlen HQ. unfold fdalloc. wp_steps. eapply wp_curproc; [exact Hc|exact Hlt|]. intros c1 H1 S1.
  assert (Hp1 : c_procs c1 !! me = Some pr) by (by rewrite (sb_procs _ _ S1)).
  apply (wp_for_find _ _ (fun n k' => k' = with_core k c1 /\ forall j o, (j < n)%nat -> p_ofile pr !! j = Some o -> o <> None)).
  - split; [done|lia].
  - intros i fd k' [-> Hi]%lookup_seq [-> Hno]. cbn [Nat.add]. wp_steps. eapply wp_get_proc; [exact Hp1|]. wp_steps.
    destruct (lookup_lt_is_Some_2 (p_ofile pr) i) as [o Ho]; [by rewrite Hlen|]. eapply wp_of_opt; [exact Ho|].
    destruct o as [g|].
    + wp_steps. split; [done|]. intros j o Hj Hy. destruct (decide (j = i)) as [->|]; [congruence|]. apply (Hno j); [lia|done].
    + wp_steps. eapply wp_upd_proc; [exact Hp1|]. wp_steps.
      assert (Ef : free_slot (p_ofile pr) = Some i).
      { unfold free_slot. rewrite (proj2 (list_find_Some (fun o => o = None) (p_ofile pr) i None)); [done|]. split_ands; [done|done|]. intros j y Hy Hj. by apply (Hno j). }
      rewrite Ef in HQ. apply (HQ (set_c_procs (alter (set_p_ofile (insert i (Some f))) me) c1)); [by apply core_at_alter|].
      destruct S1. constructor; simpl; try done. by rewrite sb_procs.
  - intros k' [-> Hno]. assert (Ef : free_slot (p_ofile pr) = None).
    { unfold free_slot. rewrite (proj2 (list_find_None (fun o => o = None) (p_ofile pr))); [done|]. apply Forall_lookup. intros j o Ho.
      apply (Hno j); [|done]. rewrite length_seq, <- Hlen. by eapply lookup_lt_Some. }
    rewrite Ef in HQ. by apply (HQ c1).
Qed.

(** The value of the argument [n] of a system call *)
Definition arg_word (k : kernel) (pr : proc) (n : Z) : Z := word (ph_mem (k_phys k)) (p_trapframe pr + (TF_A0 + 8 * n)).

Lemma wp_argraw k me hs d pr n Q :
  core_at (k_core k) me hs d -> Z.of_nat (length hs + d) + 1 < 2 ^ 30 ->
  c_procs (k_core k) !! me = Some pr -> frame_ok pr -> 0 <= n <= 5 ->
  (forall c', core_at c' me hs d -> same_but_locks (k_core k) c' -> Q (arg_word k pr n) (with_core k c')) -> wp (argraw n) Q k.
Proof.
  intros Hc Hlt Hp Hf Hn HQ. unfold argraw. wp_steps. eapply wp_curproc; [exact Hc|exact Hlt|]. intros c1 H1 S1.
  rewrite !(proj2 (Z.leb_le _ _)) by lia. cbn [andb].
  eapply wp_ld_tf; [simpl; rewrite (sb_procs _ _ S1); exact Hp|apply frame_word; [done|unfold TF_A0; lia]|]. by apply HQ.
Qed.

(** The file that the descriptor of the argument [n] refers to *)
Definition fd_arg (k : kernel) (pr : proc) (n : Z) : option (nat * nat) :=
  let fd := i32 (arg_word k pr n) in
  if (fd <? 0) || (Z.of_nat NOFILE <=? fd) then None
  else match p_ofile pr !! Z.to_nat fd with Some (Some f) => Some (Z.to_nat fd, f) | _ => None end.

Lemma wp_argfd k me hs d pr n Q :
  core_at (k_core k) me hs d -> Z.of_nat (length hs + d) + 1 < 2 ^ 30 ->
  c_procs (k_core k) !! me = Some pr -> frame_ok pr -> 0 <= n <= 5 -> length (p_ofile pr) = NOFILE ->
  (forall c', core_at c' me hs d -> same_but_locks (k_core k) c' -> Q (fd_arg k pr n) (with_core k c')) -> wp (argfd n) Q k.
Proof.
  intros Hc Hlt Hp Hf Hn Hlen HQ. unfold argfd, argint. wp_steps. eapply wp_argraw; [exact Hc|exact Hlt|exact Hp|done|done|].
  intros c1 H1 S1. wp_steps. unfold fd_arg in HQ. set (fd := i32 _) in *. destruct ((fd <? 0) || (Z.of_nat NOFILE <=? fd)) eqn:E.
  - wp_steps. by apply HQ.
  - apply orb_false_iff in E as [E1 E2]. apply Z.ltb_ge in E1. apply Z.leb_gt in E2. wp_steps.
    eapply wp_curproc; [exact H1|exact Hlt|]. intros c2 H2 S2. simpl in S2. pose proof (same_but_locks_trans _ _ _ S1 S2) as S12. wp_steps.
    eapply wp_get_proc; [simpl; rewrite (sb_procs _ _ S12); exact Hp|]. wp_steps.
    destruct (lookup_lt_is_Some_2 (p_ofile pr) (Z.to_nat fd)) as [o Ho]; [rewrite Hlen; lia|]. eapply wp_of_opt; [exact Ho|]. wp_steps.
    specialize (HQ c2 H2 S12). rewrite Ho in HQ. by destruct o.
Qed.

Lemma fd_arg_open k pr n fd f : fd_arg k pr n = Some (fd, f) -> p_ofile pr !! fd = Some (Some f).
Proof.
  unfold fd_arg. case_match; [done|]. destruct (p_ofile pr !! _) as [[g|]|] eqn:E; [|done|done]. by intros [= <- <-].
Qed.

Lemma free_slot_some l fd : free_slot l = Some fd -> l !! fd = Some None /\ forall j, (j < fd)%nat -> l !! j <> Some None.
Proof.
  unfold free_slot. intros ([i o] & H & ->)%fmap_Some. apply list_find_Some in H as (H1 & -> & H2). split; [done|].
  intros j Hj E. by apply (H2 j None).
Qed.

Lemma wp_fork_files k me hs n pr np nr Q :
  core_at (k_core k) me hs n -> Z.of_nat (length hs + n) + 1 < 2 ^ 30 -> LFtable ∉ hs -> np <> me ->
  c_procs (k_core k) !! me = Some pr -> c_procs (k_core k) !! np = Some nr -> p_ofile nr = replicate NOFILE None ->
  files_ok (c_procs (k_core k)) (k_ftable k) no_extra ->
  (forall c' t', core_at c' me hs n -> files_ok (c_procs c') t' no_extra ->
     same_but_locks (set_c_procs (alter (set_p_ofile (fun _ => p_ofile pr)) np) (k_core k)) c' -> Q tt (with_files k c' t')) ->
  wp (fork_files me np) Q k.
Proof.
  intros Hc Hlt Hl Hne Hp Hn Hnew Hok HQ. set (ps := c_procs (k_core k)) in *.
  pose proof (proj1 (Forall_lookup _ _) (fs_procs _ _ _ Hok) _ _ Hp) as Hlen. cbv beta in Hlen.
  set (tbl := fun i => take i (p_ofile pr) ++ replicate (NOFILE - i) (@None nat)).
  eapply wp_mono; [apply (wp_for_each _ _ (fun i k' => exists c' t', k' = with_files k c' t' /\ core_at c' me hs n /\ files_ok (c_procs c') t' no_extra /\
    same_but_locks (set_c_procs (alter (set_p_ofile (fun _ => tbl i)) np) (k_core k)) c'))|].
  - exists (k_core k), (k_ftable k). split_ands; [by destruct k as [[] ? ? ? ? ? ? ? ? ? ? ?]|done|done|]. constructor; try done. simpl. fold ps.
    rewrite (alter_as_insert _ _ nr) by done. symmetry. apply list_insert_id. rewrite Hn. f_equal. unfold tbl. rewrite take_0, Nat.sub_0_r. cbn [app].
    rewrite <- Hnew. by destruct nr.
  - intros i x k' [-> Hi]%lookup_seq (c1 & t1 & -> & H1 & F1 & S1). cbn [Nat.add]. wp_steps.
    assert (Ep : c_procs c1 !! me = Some pr) by (rewrite (sb_procs _ _ S1); simpl; by rewrite list_lookup_alter_ne).
    assert (En : c_procs c1 !! np = Some (set_p_ofile (fun _ => tbl i) nr)).
    { rewrite (sb_procs _ _ S1). simpl. fold ps. by rewrite list_lookup_alter_eq, Hn. }
    eapply wp_get_proc; [exact Ep|]. wp_steps. destruct (lookup_lt_is_Some_2 (p_ofile pr) i) as [o Ho]; [by rewrite Hlen|].
    eapply wp_of_opt; [exact Ho|].
    assert (Et : <[i := o]> (tbl i) = tbl (S i)).
    { unfold tbl. replace (NOFILE - i)%nat with (S (NOFILE - S i)) by lia. rewrite insert_app_r_alt by (rewrite length_take; lia).
      rewrite length_take_le, Nat.sub_diag by lia. simpl. by rewrite (take_S_r _ _ _ Ho), <- app_assoc. }
    assert (Hnone : tbl i !! i = Some None).
    { unfold tbl. rewrite lookup_app_r by (rewrite length_take; lia). rewrite length_take_le, Nat.sub_diag by lia. apply lookup_replicate. split; [done|lia]. }
    destruct o as [f|].
    + pose proof (fs_open _ _ _ Hok _ _ _ _ Hp Ho) as Hf. destruct (lookup_lt_is_Some_2 t1 f) as [y Hy]; [by rewrite (fs_len _ _ _ F1)|].
      pose proof (files_ok_bound _ _ _ _ _ F1 (co_procs _ _ _ _ H1) Hy) as Hb. pose proof (fs_refs _ _ _ F1 _ _ Hy) as Hr.
      pose proof (fd_refs_elem _ _ _ _ _ Ep Ho) as Hpos. unfold no_extra in Hr. wp_steps.
      eapply wp_filedup; [exact H1|exact Hlt|exact Hl|exact Hy|lia|]. intros c2 H2 S2. simpl in S2. wp_steps.
      eapply wp_upd_proc; [simpl; rewrite (sb_procs _ _ S2); exact En|]. eexists _, _. split; [reflexivity|]. split; [by apply core_at_alter|]. simpl. split.
      * eapply (files_ok_set_fd _ _ (one_extra f)); [|rewrite (sb_procs _ _ S2); exact En|exact Hnone|by intros ? [= <-]|unfold no_extra; lia|].
        -- rewrite (sb_procs _ _ S2). eapply files_ok_set_ref; [exact F1|exact Hy| | |].
           ++ unfold one_extra. rewrite decide_True by done. lia.
           ++ unfold one_extra. rewrite decide_True by done. lia.
           ++ intros g Hg. unfold one_extra. by rewrite decide_False.
        -- intros g. unfold one_extra, no_extra. rewrite (decide_False (P := None = Some g)) by done.
           destruct (decide (g = f)) as [->|Hg]; [by rewrite decide_True|]. rewrite decide_False by congruence. done.
      * destruct S1, S2. constructor; simpl in *; try congruence. rewrite sb_procs0, sb_procs. fold ps.
        rewrite (alter_as_insert _ np (set_p_ofile (fun _ => tbl i) nr)) by (by rewrite list_lookup_alter_eq, Hn).
        rewrite !(alter_as_insert _ np nr) by done. rewrite list_insert_insert_eq. f_equal. unfold set_p_ofile. simpl. by rewrite Et.
    + wp_steps. exists c1, t1. split_ands; [done|done|done|]. rewrite list_insert_id in Et by done. by rewrite <- Et.
  - intros [] k' (c1 & t1 & -> & H1 & F1 & S1). rewrite length_seq in S1. apply HQ; [done|done|].
    assert (Et : tbl NOFILE = p_ofile pr) by (unfold tbl; rewrite Nat.sub_diag, app_nil_r; apply take_ge; lia). by rewrite Et in S1.
Qed.

(** A copy of a file has one more reference, from a descriptor. *)
Lemma files_ok_dup ps t p pr fd f x :
  files_ok ps t no_extra -> ps !! p = Some pr -> p_ofile pr !! fd = Some None -> t !! f = Some x ->
  files_ok (alter (set_p_ofile (insert fd (Some f))) p ps) (alter (set_f_ref (fun _ => f_ref x + 1)) f t) no_extra.
Proof.
  intros Hok Hp Hfd Hx. pose proof (lookup_lt_Some _ _ _ Hx) as Hlt. rewrite (fs_len _ _ _ Hok) in Hlt.
  eapply (files_ok_set_fd _ _ (one_extra f)); [|exact Hp|exact Hfd|by intros ? [= <-]|unfold no_extra; lia|].
  - eapply files_ok_set_ref; [exact Hok|exact Hx| | |]; unfold one_extra; rewrite ?decide_True by done; [|lia|intros g Hg; by rewrite decide_False].
    rewrite (fs_refs _ _ _ Hok _ _ Hx). unfold no_extra. lia.
  - intros g. unfold one_extra, no_extra. rewrite (decide_False (P := None = Some g)) by done.
    destruct (decide (g = f)) as [->|Hg]; [by rewrite decide_True|]. rewrite decide_False by congruence. done.
Qed.

(** A descriptor that is dropped *)
Lemma files_ok_drop ps t p pr fd f x :
  files_ok ps t no_extra -> ps !! p = Some pr -> p_ofile pr !! fd = Some (Some f) -> t !! f = Some x ->
  files_ok (alter (set_p_ofile (insert fd None)) p ps) (alter (set_f_ref (fun _ => f_ref x - 1)) f t) no_extra.
Proof.
  intros Hok Hp Hfd Hx. assert (H : files_ok (alter (set_p_ofile (insert fd None)) p ps) t (one_extra f)).
  { eapply (files_ok_set_fd _ _ no_extra); [exact Hok|exact Hp|exact Hfd|done| |].
    - intros g. unfold one_extra. case_decide; lia.
    - intros g. unfold one_extra, no_extra. rewrite (decide_False (P := None = Some g)) by done.
      destruct (decide (g = f)) as [->|Hg]; [by rewrite decide_True|]. rewrite decide_False by congruence. done. }
  eapply files_ok_set_ref; [exact H|exact Hx| |unfold no_extra; lia|intros g Hg; unfold one_extra, no_extra; by rewrite decide_False].
  rewrite (fs_refs _ _ _ H _ _ Hx). unfold one_extra, no_extra. rewrite decide_True by done. lia.
Qed.

(** *** An example: a process with two descriptors for one file *)

Definition fd_proc : proc :=
  set_p_trapframe (fun _ => 0x80200000) (set_p_ofile (fun _ => [Some 0%nat; Some 0%nat] ++ replicate 14 None) first_proc).

Definition fd_kernel (hs : list lockid) : kernel :=
  set_k_ftable (fun _ => set_f_ref (fun _ => 2) zero_file :: replicate 99 zero_file)
    (set_k_core (set_c_procs (fun _ => fd_proc :: replicate 63 zero_proc)) (held_kernel hs sample_disk (fun _ => 0) sample_image)).

Lemma fd_kernel_core hs : NoDup hs -> Z.of_nat (length hs) < 2 ^ 30 -> core_ok (k_core (fd_kernel hs)) 0 hs.
Proof. intros Hn Hl. destruct (held_core_ok hs Hn Hl). by constructor. Qed.

Lemma fd_refs_unused n f : fd_refs (replicate n zero_proc) f = 0.
Proof. induction n as [|n IH]; [done|]. cbn [replicate fd_refs]. rewrite IH. done. Qed.

Lemma fd_kernel_files hs : files_ok (c_procs (k_core (fd_kernel hs))) (k_ftable (fd_kernel hs)) no_extra.
Proof.
  assert (Hz : forall p pr, replicate 63 zero_proc !! p = Some pr -> pr = zero_proc) by (intros p pr [-> _]%lookup_replicate; done).
  change (files_ok (fd_proc :: replicate 63 zero_proc) (set_f_ref (fun _ => 2) zero_file :: replicate 99 zero_file) no_extra). constructor.
  - done.
  - constructor; [done|]. by apply Forall_replicate.
  - intros [|p] pr fd f Hp Hf; [|apply Hz in Hp as ->; by apply lookup_replicate in Hf as [? _]]. injection Hp as <-.
    destruct fd as [|[|fd]]; [injection Hf as <-|injection Hf as <-|]; [unfold NFILE; lia..|]. by apply lookup_replicate in Hf as [? _].
  - intros f x Hx. cbn [fd_refs]. rewrite fd_refs_unused. destruct f as [|f]; [injection Hx as <-; done|].
    apply lookup_replicate in Hx as [-> _]. unfold refs_in. simpl. done.
  - intros f. unfold no_extra. lia.
Qed.

(** ** Properties *)

(** C28: [dup] makes the lowest free descriptor refer to the file of the descriptor it is
    given, and returns it; it returns -1 and changes nothing when the argument is not an
    open descriptor or none is free.  The counts of the open files stay the numbers of the
    descriptors that refer to them. *)
Theorem sys_dup_correct k me pr :
  core_ok (k_core k) me [] -> c_procs (k_core k) !! me = Some pr -> frame_ok pr -> files_ok (c_procs (k_core k)) (k_ftable k) no_extra ->
  wp sys_dup (fun r k' => exists c' t', k' = with_files k c' t' /\ core_ok c' me [] /\ files_ok (c_procs c') t' no_extra /\
    match fd_arg k pr 0, free_slot (p_ofile pr) with
    | Some (_, f), Some fd => r = Z.of_nat fd /\ c_procs c' = alter (set_p_ofile (insert fd (Some f))) me (c_procs (k_core k))
    | _, _ => r = -1 /\ c_procs c' = c_procs (k_core k) /\ t' = k_ftable k
    end) k.
Proof.
  intros Hc Hp Hf Hok. pose proof (proj1 (Forall_lookup _ _) (fs_procs _ _ _ Hok) _ _ Hp) as Hlen. cbv beta in Hlen.
  unfold sys_dup. wp_steps. eapply wp_argfd; [exact Hc|simpl; lia|exact Hp|done|lia|done|]. intros c1 H1 S1.
  assert (Hsame : forall c, core_ok c me [] -> same_but_locks (k_core k) c -> exists c' t', with_core k c = with_files k c' t' /\ core_ok c' me [] /\
    files_ok (c_procs c') t' no_extra /\ -1 = -1 /\ c_procs c' = c_procs (k_core k) /\ t' = k_ftable k).
  { intros c H S. exists c, (k_ftable k). rewrite (sb_procs _ _ S). by destruct k. }
  destruct (fd_arg k pr 0) as [[fd0 f]|] eqn:Ea; [|wp_steps; by apply Hsame]. wp_steps. pose proof (fd_arg_open _ _ _ _ _ Ea) as Ho.
  eapply (wp_fdalloc (with_core k c1) me [] 0 pr); [exact H1|simpl; lia|simpl; rewrite (sb_procs _ _ S1); exact Hp|done|].
  intros c2 H2. destruct (free_slot (p_ofile pr)) as [fd|] eqn:Es.
  - intros S2. simpl in S2. destruct (free_slot_some _ _ Es) as [Hfree _]. destruct (lookup_lt_is_Some_2 (k_ftable k) f) as [x Hx].
    { rewrite (fs_len _ _ _ Hok). by eapply (fs_open _ _ _ Hok). }
    pose proof (files_ok_bound _ _ _ _ _ Hok (co_procs _ _ _ _ Hc) Hx) as Hb. pose proof (fs_refs _ _ _ Hok _ _ Hx) as Hr.
    pose proof (fd_refs_elem _ _ _ _ _ Hp Ho) as Hpos. unfold no_extra in Hr.
    wp_steps. eapply (wp_filedup _ me [] 0 f x); [exact H2|simpl; lia|set_solver|exact Hx|lia|]. intros c3 H3 S3. simpl in S3. wp_steps.
    eexists c3, _. split; [reflexivity|]. assert (Ep : c_procs c3 = alter (set_p_ofile (insert fd (Some f))) me (c_procs (k_core k))).
    { rewrite (sb_procs _ _ S3), (sb_procs _ _ S2). simpl. by rewrite (sb_procs _ _ S1). }
    split_ands; [done| |done|done]. rewrite Ep. simpl. by eapply files_ok_dup.
  - intros S2. simpl in S2. wp_steps. apply (Hsame c2 H2). by eapply same_but_locks_trans.
Qed.

Lemma sys_dup_correct_witness : exists k', sys_dup (fd_kernel []) = Ok 2 k'.
Proof.
  destruct (wp_ok _ _ _ (sys_dup_correct (fd_kernel []) 0 fd_proc (fd_kernel_core [] ltac:(constructor) ltac:(simpl; lia)) eq_refl eq_refl (fd_kernel_files [])))
    as (r & k' & E & c' & t' & _ & _ & _ & H).
  assert (Ea : fd_arg (fd_kernel []) fd_proc 0 = Some (0%nat, 0%nat)) by (vm_compute; reflexivity).
  assert (Es : free_slot (p_ofile fd_proc) = Some 2%nat) by (vm_compute; reflexivity).
  rewrite Ea, Es in H. destruct H as [-> _]. exists k'. exact E.
Defined.

(** [close] of a descriptor whose file others refer to frees the descriptor and drops
    its reference; of a number that is not an open descriptor it returns -1. *)
Theorem sys_close_correct k me pr :
  core_ok (k_core k) me [] -> c_procs (k_core k) !! me = Some pr -> frame_ok pr -> files_ok (c_procs (k_core k)) (k_ftable k) no_extra ->
  (forall fd f, fd_arg k pr 0 = Some (fd, f) -> 1 < fd_refs (c_procs (k_core k)) f) ->
  wp sys_close (fun r k' => exists c' t', k' = with_files k c' t' /\ core_ok c' me [] /\ files_ok (c_procs c') t' no_extra /\
    match fd_arg k pr 0 with
    | Some (fd, _) => r = 0 /\ c_procs c' = alter (set_p_ofile (insert fd None)) me (c_procs (k_core k))
    | None => r = -1 /\ c_procs c' = c_procs (k_core k) /\ t' = k_ftable k
    end) k.
Proof.
  intros Hc Hp Hf Hok Hsh. pose proof (proj1 (Forall_lookup _ _) (fs_procs _ _ _ Hok) _ _ Hp) as Hlen. cbv beta in Hlen.
  unfold sys_close. wp_steps. eapply wp_argfd; [exact Hc|simpl; lia|exact Hp|done|lia|done|]. intros c1 H1 S1.
  destruct (fd_arg k pr 0) as [[fd f]|] eqn:Ea.
  - pose proof (fd_arg_open _ _ _ _ _ Ea) as Ho. specialize (Hsh _ _ eq_refl). destruct (lookup_lt_is_Some_2 (k_ftable k) f) as [x Hx].
    { rewrite (fs_len _ _ _ Hok). by eapply (fs_open _ _ _ Hok). }
    pose proof (files_ok_bound _ _ _ _ _ Hok (co_procs _ _ _ _ Hc) Hx) as Hb. pose proof (fs_refs _ _ _ Hok _ _ Hx) as Hr. unfold no_extra in Hr.
    unfold fdclear. wp_steps. eapply wp_curproc; [exact H1|simpl; lia|]. intros c2 H2 S2. simpl in S2. wp_steps.
    pose proof (same_but_locks_trans _ _ _ S1 S2) as S12.
    eapply wp_upd_proc; [simpl; rewrite (sb_procs _ _ S12); exact Hp|]. wp_steps.
    eapply (wp_fileclose_shared _ me [] 0 f x); [apply core_at_alter; exact H2|simpl; lia|set_solver|exact Hx|lia|]. intros c3 H3 S3. simpl in S3. wp_steps.
    eexists c3, _. split; [reflexivity|]. assert (Ep : c_procs c3 = alter (set_p_ofile (insert fd None)) me (c_procs (k_core k))).
    { rewrite (sb_procs _ _ S3). simpl. by rewrite (sb_procs _ _ S12). }
    split_ands; [done| |done|done]. rewrite Ep. simpl. by eapply files_ok_drop.
  - wp_steps. exists c1, (k_ftable k). rewrite (sb_procs _ _ S1). by destruct k.
Qed.

Lemma sys_close_correct_witness : exists k', sys_close (fd_kernel []) = Ok 0 k'.
Proof.
  assert (Ea : fd_arg (fd_kernel []) fd_proc 0 = Some (0%nat, 0%nat)) by (vm_compute; reflexivity).
  destruct (wp_ok _ _ _ (sys_close_correct (fd_kernel []) 0 fd_proc (fd_kernel_core [] ltac:(constructor) ltac:(simpl; lia)) eq_refl eq_refl (fd_kernel_files [])
    ltac:(intros fd f H; rewrite Ea in H; injection H as <- <-; vm_compute; reflexivity)))
    as (r & k' & E & c' & t' & _ & _ & _ & H).
  rewrite Ea in H. destruct H as [-> _]. exists k'. exact E.
Defined.

(** C29: the loop of [fork] gives the child the open files of its parent: the same
    descriptors, and one more reference to each file for each of them. *)
Theorem fork_files_correct k me pr np nr :
  core_ok (k_core k) me [LProc np] -> np <> me -> c_procs (k_core k) !! me = Some pr -> c_procs (k_core k) !! np = Some nr ->
  p_ofile nr = replicate NOFILE None -> files_ok (c_procs (k_core k)) (k_ftable k) no_extra ->
  wp (fork_files me np) (fun _ k' => exists c' t', k' = with_files k c' t' /\ core_ok c' me [LProc np] /\ files_ok (c_procs c') t' no_extra /\
    c_procs c' = alter (set_p_ofile (fun _ => p_ofile pr)) np (c_procs (k_core k))) k.
Proof.
  intros Hc Hne Hp Hn Hnew Hok. eapply wp_fork_files; [exact Hc|simpl; lia|set_solver|done|exact Hp|exact Hn|done|done|].
  intros c' t' H F S. exists c', t'. split_ands; [done|done|done|]. by rewrite (sb_procs _ _ S).
Qed.

Lemma fork_files_correct_witness : exists k', fork_files 0 1 (fd_kernel [LProc 1]) = Ok tt k'.
Proof.
  destruct (wp_ok _ _ _ (fork_files_correct (fd_kernel [LProc 1]) 0 fd_proc 1 zero_proc
    (fd_kernel_core [LProc 1] ltac:(apply NoDup_singleton) ltac:(simpl; lia)) ltac:(lia) eq_refl eq_refl eq_refl (fd_kernel_files [LProc 1])))
    as ([] & k' & E & _).
  exists k'. exact E.
Defined.
