(* ===== verification/Mkfs.v ===== *)
(** * The image builder (mkfs/mkfs.c)

    The program of the host that writes the disk the kernel starts with.  Its state is the
    image file, as long as what has been written to it, and the next free inode and block;
    [die] and [assert] are the outcome [Panic].  The host is little-endian.  A file to be
    put into the image is its path and the pieces that [read] returns, or none when it
    cannot be opened.

    The theorem is about the specification the kernel's file system is verified against:
    the image is a well-formed file system, every file of it has its contents, and looking
    a name up in the root directory gives the file. *)

From S2P Require Import Prelude State Spin Sleep Bio Log Txn Strings Kalloc Vm FsBlock FsInode FsFile FsWrite FsDir.

(** ** Definitions *)

Definition NINODES : Z := 200.

Definition nbitmap : Z := FSSIZE / (BSIZE * 8) + 1.
Definition ninodeblocks : Z := NINODES / IPB + 1.
Definition nlog : Z := LOGSIZE.
Definition nmeta : Z := 2 + nlog + ninodeblocks + nbitmap.
Definition nblocks : Z := FSSIZE - nmeta.

Definition xshort (x : Z) : Z := le_join [u8 x; u8 (Z.shiftr x 8)].

Definition xint (x : Z) : Z := le_join [u8 x; u8 (Z.shiftr x 8); u8 (Z.shiftr x 16); u8 (Z.shiftr x 24)].

Definition mkfs_sb : superblock :=
  mkSb FSMAGIC (xint FSSIZE) (xint nblocks) (xint NINODES) (xint nlog) (xint 2) (xint (2 + nlog))
       (xint (2 + nlog + ninodeblocks)).

(** The image file has [im_len] sectors; where nothing has been written it has zeros. *)
Record image := mkImage {
  im_len : Z;
  im_disk : Z -> list Z;
  im_freeinode : Z;
  im_freeblock : Z
}.

Definition I : Type -> Type := M Empty_set image.

Definition wsect (sec : Z) (buf : list Z) : I unit :=
  modify (fun s => mkImage (Z.max (im_len s) (sec + 1)) (vset sec buf (im_disk s)) (im_freeinode s) (im_freeblock s)).

Definition rsect (sec : Z) : I (list Z) :=
  let* len := gets im_len in
  if sec <? len then gets (fun s => im_disk s sec) else panic "read".

Definition winode (inum : Z) (ip : dinode) : I unit :=
  let bn := IBLOCK inum mkfs_sb in
  let* buf := rsect bn in
  wsect bn (st_dinode inum ip buf).

Definition rinode (inum : Z) : I dinode :=
  let bn := IBLOCK inum mkfs_sb in
  let* buf := rsect bn in
  M_ret (ld_dinode inum buf).

(** [freeinode++] and [freeblock++] *)

Definition next_inode : I Z :=
  let* n := gets im_freeinode in
  modify (fun s => mkImage (im_len s) (im_disk s) (u32 (n + 1)) (im_freeblock s)) ;*
  M_ret n.

Definition next_block : I Z :=
  let* n := gets im_freeblock in
  modify (fun s => mkImage (im_len s) (im_disk s) (im_freeinode s) (u32 (n + 1))) ;*
  M_ret n.

Definition mk_ialloc (type : Z) : I Z :=
  let* inum := next_inode in
  winode inum (mkDinode (xshort type) 0 0 (xshort 1) (xint 0) (replicate 13 0)) ;*
  M_ret inum.

Definition set_addr (n : nat) (a : Z) (d : dinode) : dinode :=
  mkDinode (di_type d) (di_major d) (di_minor d) (di_nlink d) (di_size d) (<[n := a]> (di_addrs d)).

Definition set_size (n : Z) (d : dinode) : dinode :=
  mkDinode (di_type d) (di_major d) (di_minor d) (di_nlink d) n (di_addrs d).

(** An address in the inode, a new block if it has none. *)
Definition inode_addr (n : nat) (d : dinode) : I dinode :=
  if xint (di_addrs d !!! n) =? 0 then
    let* b := next_block in
    M_ret (set_addr n (xint b) d)
  else M_ret d.

(** The number at offset [o] of the indirect block [a], a new block if it is 0. *)
Definition indirect_addr (a : Z) (o : nat) : I Z :=
  let* indirect := rsect a in
  if get_uint o indirect =? 0 then
    let* b := next_block in
    let indirect := put_int o (xint b) indirect in
    wsect a indirect ;*
    M_ret (xint (get_uint o indirect))
  else M_ret (xint (get_uint o indirect)).

(** The first part of the loop of [iappend]: the sector of block [fbn] of the file. *)
Definition append_block (d : dinode) (fbn : Z) : I (dinode * Z) :=
  if fbn <? NDIRECT then
    let* d := inode_addr (Z.to_nat fbn) d in
    M_ret (d, xint (di_addrs d !!! Z.to_nat fbn))
  else
    let* d := inode_addr (Z.to_nat NDIRECT) d in
    let* x := indirect_addr (xint (di_addrs d !!! Z.to_nat NDIRECT)) (4 * Z.to_nat (fbn - NDIRECT)) in
    M_ret (d, x).

Fixpoint iappend_loop (fuel : nat) (d : dinode) (off : Z) (p : list Z) : I (dinode * Z) :=
  match fuel with
  | O => nofuel
  | S fuel =>
      let n := Z.of_nat (length p) in
      if 0 <? n then
        let fbn := off / BSIZE in
        if negb (fbn <? MAXFILE) then panic "fbn < MAXFILE" else
        let* r := append_block d fbn in
        let n1 := Z.min n ((fbn + 1) * BSIZE - off) in
        let* buf := rsect r.2 in
        wsect r.2 (splice (Z.to_nat (off - fbn * BSIZE)) (take (Z.to_nat n1) p) buf) ;*
        iappend_loop fuel r.1 (u32 (off + n1)) (drop (Z.to_nat n1) p)
      else M_ret (d, off)
  end.

Definition iappend (inum : Z) (p : list Z) : I unit :=
  let* din := rinode inum in
  let* r := iappend_loop (rw_fuel (Z.of_nat (length p))) din (xint (di_size din)) p in
  winode inum (set_size (xint r.2) r.1).

Definition used_map (used : nat) : list Z := fold_left (fun buf i => set_map_bit i buf) (seq 0 used) zeros.

Definition mk_balloc (used : Z) : I unit :=
  if negb (used <? BSIZE * 8) then panic "used < BSIZE*8" else
  wsect (sb_bmapstart mkfs_sb) (used_map (Z.to_nat used)).

(** [struct dirent] with the name copied into it. *)
Definition mk_dirent (inum : Z) (name : list Z) : list Z := st_dirent (mkDirent (xshort inum) (name_field name)).

(** The name a file gets: without user/ and without a leading underscore. *)
Definition shortname (path : list Z) : list Z :=
  if decide (take 5 path = [117; 115; 101; 114; 47]) then drop 5 path else path.

Definition filename (path : list Z) : list Z :=
  match shortname path with
  | c :: name => if c =? 95 then name else c :: name
  | [] => []
  end.

Definition add_file (file : list Z * option (list (list Z))) : I unit :=
  if bool_decide (slash ∈ shortname file.1) then panic "index(shortname, '/') == 0" else
  match file.2 with
  | None => panic "open"
  | Some pieces =>
      let* inum := mk_ialloc T_FILE in
      iappend ROOTINO (mk_dirent inum (filename file.1)) ;*
      for_each pieces (iappend inum)
  end.

Definition mkfs_main (files : list (list Z * option (list (list Z)))) : I unit :=
  modify (fun s => mkImage (im_len s) (im_disk s) (im_freeinode s) nmeta) ;*
  for_each (seq 0 (Z.to_nat FSSIZE)) (fun i => wsect (Z.of_nat i) zeros) ;*
  wsect 1 (splice 0 (concat (le_split 4 <$>
    [sb_magic mkfs_sb; sb_size mkfs_sb; sb_nblocks mkfs_sb; sb_ninodes mkfs_sb;
     sb_nlog mkfs_sb; sb_logstart mkfs_sb; sb_inodestart mkfs_sb; sb_bmapstart mkfs_sb])) zeros) ;*
  let* rootino := mk_ialloc T_DIR in
  if negb (rootino =? ROOTINO) then panic "rootino == ROOTINO" else
  iappend rootino (mk_dirent rootino [46]) ;*
  iappend rootino (mk_dirent rootino [46; 46]) ;*
  for_each files add_file ;*
  let* din := rinode rootino in
  let off := (xint (di_size din) / BSIZE + 1) * BSIZE in
  winode rootino (set_size (xint off) din) ;*
  let* used := gets im_freeblock in
  mk_balloc used.

(** The state [mkfs] starts in. *)
Definition no_image : image := mkImage 0 (fun _ => zeros) 1 0.

(** ** Specification *)

(** How many blocks a file of [size] bytes takes, the indirect block included. *)
Definition cost (size : Z) : Z := (size + BSIZE - 1) / BSIZE + (if decide (NDIRECT * BSIZE < size) then 1 else 0).

(** The file with the addresses [addrs] has the contents [c], just the blocks it needs,
    and zeros in the rest of its last block. *)
Record filled (V : Z -> list Z) (addrs c : list Z) : Prop := mkFilled {
  fi_max : Z.of_nat (length c) <= MAXFILE * BSIZE;
  fi_file : file_ok mkfs_sb V addrs;
  fi_blocks : forall bn, 0 <= bn < MAXFILE -> faddr V addrs bn <> 0 <-> bn * BSIZE < Z.of_nat (length c);
  fi_ind : ind_addr addrs <> 0 <-> NDIRECT * BSIZE < Z.of_nat (length c);
  fi_bytes : forall x, 0 <= x < Z.of_nat (length c) -> fbyte V addrs x = c !!! Z.to_nat x;
  fi_tail : forall x, Z.of_nat (length c) <= x < MAXFILE * BSIZE -> faddr V addrs (x / BSIZE) <> 0 -> fbyte V addrs x = 0
}.

(** The blocks of a file. *)
Definition owns (V : Z -> list Z) (addrs : list Z) (b : Z) : Prop :=
  b <> 0 /\ (b = ind_addr addrs \/ exists bn, 0 <= bn < MAXFILE /\ b = faddr V addrs bn).

(** The view of the disk that the image will be: what is written so far, with the blocks
    given out marked in the free map. *)
Record view (st : image) (V : Z -> list Z) : Prop := mkView {
  vw_len : im_len st = FSSIZE;
  vw_range : nmeta <= im_freeblock st <= FSSIZE;
  vw_same : forall b, b <> sb_bmapstart mkfs_sb -> im_disk st b = V b;
  vw_map : V (sb_bmapstart mkfs_sb) = used_map (Z.to_nat (im_freeblock st));
  vw_fs : fs_ok mkfs_sb V;
  vw_zero : forall b, im_freeblock st <= b < FSSIZE -> V b = zeros
}.

(** ** Lemmas: numbers and marks *)

Lemma xint_id x : 0 <= x < 2 ^ 32 -> xint x = x.
Proof.
  intros Hx. unfold xint, u8. cbv [le_join]. rewrite !Z.shiftr_div_pow2 by lia. change (2 ^ 8) with 256.
  rewrite !Z.mod_mod by lia. change (2 ^ 16) with (256 * 256). change (2 ^ 24) with (256 * 256 * 256).
  Z.to_euclidean_division_equations. lia.
Qed.

Lemma xshort_id x : 0 <= x < 2 ^ 16 -> xshort x = x.
Proof.
  intros Hx. unfold xshort, u8. cbv [le_join]. rewrite !Z.shiftr_div_pow2 by lia. change (2 ^ 8) with 256.
  rewrite !Z.mod_mod by lia. Z.to_euclidean_division_equations. lia.
Qed.

Lemma mkfs_sb_eq : mkfs_sb = mkSb FSMAGIC 1000 954 200 30 2 32 45.
Proof. reflexivity. Qed.

Lemma mkfs_layout : layout mkfs_sb.
Proof. rewrite mkfs_sb_eq. constructor; cbn [sb_size sb_inodestart sb_ninodes sb_bmapstart]; try lia; reflexivity. Qed.

Lemma BBLOCK_mkfs b : 0 <= b < FSSIZE -> BBLOCK b mkfs_sb = 45.
Proof.
  intros Hb. rewrite BBLOCK_small; [|apply mkfs_layout|exact Hb]. rewrite Z.div_small by (unfold FSSIZE, BPB, BSIZE in *; lia). reflexivity.
Qed.

Lemma used_map_S n : used_map (S n) = set_map_bit n (used_map n).
Proof. unfold used_map. rewrite seq_S, fold_left_app. reflexivity. Qed.

Lemma used_map_ok n :
  (n <= Z.to_nat BPB)%nat -> length (used_map n) = Z.to_nat BSIZE /\ Forall byte (used_map n) /\
  forall j, (j < Z.to_nat BPB)%nat -> bit (used_map n) j = bool_decide (j < n)%nat.
Proof.
  induction n as [|n IH]; intros Hn.
  - destruct zeros_ok as [H1 H2]. split_ands; [done|done|]. intros j Hj. rewrite bool_decide_false by lia.
    change (used_map 0) with zeros. unfold bit, zeros. rewrite lookup_total_replicate_2; [apply Z.bits_0|].
    apply Nat.Div0.div_lt_upper_bound. unfold BPB, BSIZE in *. lia.
  - destruct IH as (H1 & H2 & H3); [lia|]. rewrite used_map_S.
    assert (Hi : (n / 8 < length (used_map n))%nat).
    { rewrite H1. apply Nat.Div0.div_lt_upper_bound. unfold BPB, BSIZE in *. lia. }
    split_ands; [by unfold set_map_bit; len|by apply set_map_bit_bytes|]. intros j Hj. rewrite bit_set by done.
    case_decide; [subst; by rewrite bool_decide_true by lia|]. rewrite H3 by done. apply bool_decide_ext. lia.
Qed.

Lemma view_used st V b : view st V -> 0 <= b < FSSIZE -> used mkfs_sb V b = bool_decide (b < im_freeblock st).
Proof.
  intros [_ H2 _ H4 _ _] Hb. unfold used. rewrite BBLOCK_mkfs by done. change 45 with (sb_bmapstart mkfs_sb). rewrite H4.
  assert (HB : BPB = 8192) by done. assert (HF : FSSIZE = 1000) by done. rewrite Z.mod_small by lia.
  destruct (used_map_ok (Z.to_nat (im_freeblock st))) as (_ & _ & E); [lia|]. rewrite E by lia.
  apply bool_decide_ext. change nmeta with 46 in H2. lia.
Qed.

(** The blocks the next allocations return. *)
Lemma view_allocs_from (u : Z -> bool) fb n :
  (forall b, 0 <= b < FSSIZE -> u b = bool_decide (b < fb)) -> 0 <= fb -> fb + Z.of_nat n <= FSSIZE ->
  allocs FSSIZE u (seqZ fb (Z.of_nat n)).
Proof.
  revert u fb. induction n as [|n IH]; intros u fb Hu H0 Hn; [done|].
  rewrite seqZ_cons by lia. simpl. split.
  - split_ands; [lia|lia|rewrite Hu by lia; by rewrite bool_decide_false by lia|]. intros b Hb. rewrite Hu by lia. by rewrite bool_decide_true by lia.
  - replace (Z.pred (Z.of_nat (S n))) with (Z.of_nat n) by lia. apply IH; [|lia|lia]. intros b Hb. rewrite Hu by done.
    case_decide; [subst; by rewrite bool_decide_true by lia|]. apply bool_decide_ext. lia.
Qed.

Lemma view_allocs st V n :
  view st V -> im_freeblock st + Z.of_nat n <= FSSIZE ->
  allocs (sb_size mkfs_sb) (used mkfs_sb V) (seqZ (im_freeblock st) (Z.of_nat n)).
Proof.
  intros Hv Hn. apply view_allocs_from; [|destruct Hv as [_ [H2 _] _ _ _ _]; change nmeta with 46 in H2; lia|done].
  intros b Hb. by apply view_used.
Qed.

(** ** Lemmas: sectors *)

Lemma mkfs_meta : nmeta = 46 /\ FSSIZE = 1000 /\ sb_bmapstart mkfs_sb = 45 /\ sb_size mkfs_sb = 1000 /\ sb_ninodes mkfs_sb = 200.
Proof. done. Qed.

Lemma mkfs_data b : data_block mkfs_sb b <-> nmeta <= b < FSSIZE.
Proof. unfold data_block. rewrite mkfs_sb_eq. change nmeta with 46. change FSSIZE with 1000. cbn [sb_bmapstart sb_size]. change (1000 / BPB) with 0. lia. Qed.

Lemma mkfs_not_map b : b <> sb_bmapstart mkfs_sb -> not_map mkfs_sb b.
Proof. intros Hb b' Hb'. rewrite BBLOCK_mkfs by done. done. Qed.

Lemma wp_rsect st V b (Q : list Z -> image -> Prop) :
  view st V -> b < FSSIZE -> b <> sb_bmapstart mkfs_sb -> Q (V b) st -> wp (rsect b) Q st.
Proof.
  intros [H1 _ H3 _ _ _] Hb Hne HQ. unfold rsect. wp_steps. rewrite H1, (proj2 (Z.ltb_lt _ _)) by done.
  apply wp_gets. by rewrite H3.
Qed.

Lemma wp_wsect st V b dt (Q : unit -> image -> Prop) :
  view st V -> 0 <= b < im_freeblock st -> b <> sb_bmapstart mkfs_sb -> length dt = Z.to_nat BSIZE -> Forall byte dt ->
  (forall st', view st' (vset b dt V) -> im_freeblock st' = im_freeblock st -> im_freeinode st' = im_freeinode st -> Q tt st') ->
  wp (wsect b dt) Q st.
Proof.
  intros [H1 H2 H3 H4 H5 H6] Hb Hne Hl Hd HQ. apply wp_modify. apply HQ; [|done|done].
  constructor; cbn [im_len im_disk im_freeblock]; [lia|done| | | |].
  - intros x Hx. unfold vset. case_decide; [done|]. by apply H3.
  - by rewrite vset_ne by congruence.
  - apply vset_fs_ok; [done|by apply mkfs_not_map|done|done].
  - intros x Hx. rewrite vset_ne by lia. auto.
Qed.

Lemma wp_next_block st V (Q : Z -> image -> Prop) :
  view st V -> im_freeblock st < FSSIZE ->
  (forall st', view st' (alloc mkfs_sb (im_freeblock st) V) -> im_freeblock st' = im_freeblock st + 1 ->
     im_freeinode st' = im_freeinode st -> Q (im_freeblock st) st') ->
  wp next_block Q st.
Proof.
  intros Hv Hfb HQ. pose proof Hv as [H1 H2 H3 H4 H5 H6]. set (fb := im_freeblock st) in *.
  destruct mkfs_meta as (M1 & M2 & M3 & _). pose proof (view_allocs st V 1 Hv ltac:(fold fb; lia)) as Hal.
  change (seqZ (im_freeblock st) (Z.of_nat 1)) with [0 + fb] in Hal. rewrite Z.add_0_l in Hal.
  unfold next_block. wp_steps. fold fb. rewrite u32_small by lia. apply HQ; [|done|done].
  assert (E45 : alloc mkfs_sb fb V (sb_bmapstart mkfs_sb) = used_map (Z.to_nat (fb + 1))).
  { unfold alloc, mark. rewrite vset_ne, BBLOCK_mkfs by lia. change 45 with (sb_bmapstart mkfs_sb). rewrite vset_eq, H4.
    rewrite Z.mod_small by (change BPB with 8192; lia). replace (Z.to_nat (fb + 1)) with (S (Z.to_nat fb)) by lia. by rewrite used_map_S. }
  constructor; cbn [im_len im_disk im_freeblock]; [done|lia| |done| |].
  - intros b Hb. rewrite H3 by done. destruct (decide (b = fb)) as [->|Hne].
    + rewrite alloc_zeros. apply H6. lia.
    + rewrite (alloc_keep _ _ _ [] H5 Hal); [done|by apply mkfs_not_map|done].
  - by eapply alloc_fs_ok.
  - intros b Hb. rewrite (alloc_keep _ _ _ [] H5 Hal); [apply H6; lia|apply mkfs_not_map; lia|lia].
Qed.

Lemma mkfs_fresh st V : view st V -> im_freeblock st < FSSIZE ->
  0 <= im_freeblock st < sb_size mkfs_sb /\ used mkfs_sb V (im_freeblock st) = false.
Proof.
  intros Hv Hfb. destruct mkfs_meta as (M1 & M2 & M3 & M4 & _). pose proof (vw_range _ _ Hv). split; [lia|].
  rewrite (view_used st) by (done || lia). by rewrite bool_decide_false by lia.
Qed.

Lemma view_alloc1 st V : view st V -> im_freeblock st < FSSIZE -> allocs (sb_size mkfs_sb) (used mkfs_sb V) [im_freeblock st].
Proof.
  intros Hv Hfb. pose proof (view_allocs st V 1 Hv ltac:(lia)) as Hal.
  change (seqZ (im_freeblock st) (Z.of_nat 1)) with [0 + im_freeblock st] in Hal. by rewrite Z.add_0_l in Hal.
Qed.

(** The block numbers in an inode. *)
Definition addr_range (addrs : list Z) : Prop := Forall (fun a => 0 <= a < 2 ^ 32) addrs.

Lemma addr_range_total addrs n : addr_range addrs -> 0 <= addrs !!! n < 2 ^ 32.
Proof.
  intros H. rewrite list_lookup_total_alt. destruct (addrs !! n) as [a|] eqn:E; [|simpl; lia].
  unfold addr_range in H. rewrite Forall_lookup in H. eauto.
Qed.

Definition with_addrs (d : dinode) (addrs : list Z) : dinode :=
  mkDinode (di_type d) (di_major d) (di_minor d) (di_nlink d) (di_size d) addrs.

Lemma wp_inode_addr st V d n (Q : dinode -> image -> Prop) :
  view st V -> addr_range (di_addrs d) ->
  (di_addrs d !!! n = 0 -> im_freeblock st < FSSIZE) ->
  (di_addrs d !!! n <> 0 -> Q d st) ->
  (forall st', di_addrs d !!! n = 0 -> view st' (alloc mkfs_sb (im_freeblock st) V) -> im_freeblock st' = im_freeblock st + 1 ->
     im_freeinode st' = im_freeinode st -> Q (with_addrs d (<[n := im_freeblock st]> (di_addrs d))) st') ->
  wp (inode_addr n d) Q st.
Proof.
  intros Hv Ha Hfb HQ0 HQ1. unfold inode_addr. rewrite xint_id by (by apply addr_range_total).
  destruct (Z.eqb_spec (di_addrs d !!! n) 0) as [E|E]; [|by apply wp_ret, HQ0].
  apply wp_bind. eapply wp_next_block; [done|auto|]. intros st' Hv' Hf Hi. apply wp_ret.
  destruct mkfs_meta as (M1 & M2 & _). pose proof (vw_range _ _ Hv). rewrite xint_id by lia. by apply HQ1.
Qed.

(** Blocks taken from those that are free. *)
Definition fresh_blocks (V : Z -> list Z) (tk : list Z) : Prop :=
  forall r, r ∈ tk -> 0 <= r < sb_size mkfs_sb /\ used mkfs_sb V r = false.

Lemma wp_indirect_addr st V addrs bn (Q : Z -> image -> Prop) :
  view st V -> file_ok mkfs_sb V addrs -> NDIRECT <= bn < MAXFILE -> ind_addr addrs <> 0 ->
  (faddr V addrs bn = 0 -> im_freeblock st < FSSIZE) ->
  (forall st' V' tk, view st' V' -> bmapped mkfs_sb V V' addrs addrs bn tk [] -> fresh_blocks V tk ->
     im_freeblock st' = im_freeblock st + (if decide (faddr V addrs bn = 0) then 1 else 0) ->
     im_freeinode st' = im_freeinode st -> Q (faddr V' addrs bn) st') ->
  wp (indirect_addr (ind_addr addrs) (4 * Z.to_nat (bn - NDIRECT))) Q st.
Proof.
  intros Hv Hf Hbn Hi Hfb HQ. pose proof (vw_fs _ _ Hv) as Hok. pose proof (vw_range _ _ Hv) as Hr.
  destruct (fo_ind _ _ _ Hf Hi) as [Hid Hiu]. pose proof Hid as Hid'. rewrite mkfs_data in Hid'.
  destruct mkfs_meta as (M1 & M2 & M3 & _). rewrite (view_used st) in Hiu by (done || lia). apply bool_decide_eq_true in Hiu.
  pose proof (ind_off bn Hbn) as Ho. set (o := (4 * Z.to_nat (bn - NDIRECT))%nat) in *.
  assert (Ef : get_uint o (V (ind_addr addrs)) = faddr V addrs bn) by (symmetry; apply faddr_indirect; (done || lia)).
  unfold indirect_addr. apply wp_bind. eapply wp_rsect; [done|lia|lia|]. rewrite Ef.
  destruct (Z.eqb_spec (faddr V addrs bn) 0) as [E0|E0].
  - apply wp_bind. eapply wp_next_block; [done|auto|]. intros st1 Hv1 Hf1 Hi1.
    pose proof (view_alloc1 st V Hv (Hfb E0)) as Hal.
    destruct (grow_indirect _ _ _ _ _ Hok Hf Hal bn Hbn Hi E0) as [HB Er].
    rewrite xint_id by lia. destruct (fk_blocks _ _ (vw_fs _ _ Hv1) (ind_addr addrs)) as [Hl Hb].
    assert (Ei : V (ind_addr addrs) = alloc mkfs_sb (im_freeblock st) V (ind_addr addrs)) by (symmetry; by eapply alloc_keep_ind).
    rewrite Ei. apply wp_bind. eapply wp_wsect; [done|lia|lia|rewrite length_put_int; [done|rewrite Hl; exact Ho]| |].
    { apply Forall_splice; [apply le_split_byte|done]. }
    intros st2 Hv2 Hf2 Hi2. apply wp_ret. rewrite get_put_uint, xint_id by (rewrite ?Hl; done || lia). rewrite <- Er.
    apply (HQ _ _ [im_freeblock st]); [exact Hv2|exact HB| |rewrite decide_True by done; lia|lia].
    intros r ->%list_elem_of_singleton. apply mkfs_fresh; auto.
  - apply wp_ret. rewrite xint_id by (rewrite <- Ef; apply get_uint_range).
    apply (HQ st V []); [done|by apply bmapped_refl|by intros r ?%elem_of_nil|by rewrite decide_False by done; lia|done].
Qed.

Lemma addr_range_insert addrs n a : addr_range addrs -> 0 <= a < 2 ^ 32 -> addr_range (<[n := a]> addrs).
Proof. intros H Ha. by apply Forall_insert. Qed.

Lemma with_addrs_id d : with_addrs d (di_addrs d) = d.
Proof. by destruct d. Qed.

Lemma wp_append_block st V d bn (Q : dinode * Z -> image -> Prop) :
  view st V -> addr_range (di_addrs d) -> file_ok mkfs_sb V (di_addrs d) -> 0 <= bn < MAXFILE ->
  im_freeblock st + Z.of_nat (missing V (di_addrs d) bn) <= FSSIZE ->
  (forall st' V' addrs' tk, view st' V' -> bmapped mkfs_sb V V' (di_addrs d) addrs' bn tk [] -> fresh_blocks V tk ->
     addr_range addrs' -> (bn < NDIRECT -> ind_addr addrs' = ind_addr (di_addrs d)) ->
     im_freeblock st' = im_freeblock st + Z.of_nat (missing V (di_addrs d) bn) ->
     im_freeinode st' = im_freeinode st -> Q (with_addrs d addrs', faddr V' addrs' bn) st') ->
  wp (append_block d bn) Q st.
Proof.
  intros Hv Ha Hf Hbn Hfb HQ. pose proof (vw_fs _ _ Hv) as Hok. pose proof (vw_range _ _ Hv) as Hr.
  destruct mkfs_meta as (M1 & M2 & M3 & _). unfold append_block. unfold missing in *.
  destruct (Z.ltb_spec bn NDIRECT) as [Hd|Hd].
  - pose proof (faddr_direct V (di_addrs d) bn Hd) as Ef. rewrite Ef in *. rewrite (decide_True (P := bn < NDIRECT)) in * by done.
    apply wp_bind. eapply wp_inode_addr; [done|done|intros E; rewrite decide_True in Hfb by done; lia| |].
    + intros Hne. rewrite decide_False in * by done. apply wp_ret. rewrite xint_id by (by apply addr_range_total). rewrite <- Ef.
      rewrite <- (with_addrs_id d) at 1. apply (HQ st V _ []); [done| |by intros r ?%elem_of_nil|done|done|lia|done].
      apply bmapped_refl; [done|done|congruence|done].
    + intros st' E0 Hv' Hf' Hi'. rewrite decide_True in * by done. pose proof (view_alloc1 st V Hv ltac:(lia)) as Hal.
      destruct (grow_direct _ _ _ _ _ Hok Hf Hal bn ltac:(lia) ltac:(congruence)) as [HB Er]. apply wp_ret.
      pose proof (addr_range_insert (di_addrs d) (Z.to_nat bn) (im_freeblock st) Ha ltac:(lia)) as Ha'.
      cbn [with_addrs di_addrs]. rewrite xint_id by (by apply addr_range_total). rewrite <- (faddr_direct (alloc mkfs_sb (im_freeblock st) V)) by done.
      apply (HQ _ _ _ [im_freeblock st]); [done|done| |done| |lia|done].
      { intros r ->%list_elem_of_singleton. apply mkfs_fresh; [done|lia]. }
      intros _. unfold ind_addr. rewrite total_insert by (rewrite (fo_len _ _ _ Hf); unfold NDIRECT in *; lia).
      by rewrite decide_False by (unfold NDIRECT in *; lia).
  - rewrite !(decide_False (P := bn < NDIRECT)) in * by lia.
    apply wp_bind. eapply wp_inode_addr; [done|done| | |]; fold (ind_addr (di_addrs d)).
    + intros E. assert (E0 : faddr V (di_addrs d) bn = 0) by (unfold faddr; rewrite decide_False by lia; by rewrite decide_True).
      rewrite (decide_True (P := faddr _ _ _ = 0)) in Hfb by done. rewrite (decide_True (P := ind_addr _ = 0)) in Hfb by done. lia.
    + intros Hne. rewrite !(decide_False (P := ind_addr _ = 0)) in * by done. rewrite xint_id by (by apply addr_range_total).
      apply wp_bind. eapply wp_indirect_addr; [done|done|lia|done|intros E; rewrite decide_True in Hfb by done; lia|].
      intros st' V' tk Hv' HB Htk Hf' Hi'. apply wp_ret. rewrite <- (with_addrs_id d) at 1. apply (HQ st' V' _ tk); try done.
      rewrite Hf'. by destruct (decide (faddr V (di_addrs d) bn = 0)).
    + intros st1 Ei Hv1 Hf1 Hi1. rewrite !(decide_True (P := ind_addr _ = 0)) in * by done.
      assert (E0 : faddr V (di_addrs d) bn = 0) by (unfold faddr; rewrite decide_False by lia; by rewrite decide_True).
      rewrite !(decide_True (P := faddr _ _ _ = 0)) in * by done.
      pose proof (view_alloc1 st V Hv ltac:(lia)) as Hal. destruct (grow_ind _ _ _ _ _ Hok Hf Hal Ei) as (G1 & G2 & G3).
      destruct (alloc_new _ _ _ _ Hok Hal) as [_ Hr0]. set (addrs1 := <[_ := im_freeblock st]> (di_addrs d)) in *.
      pose proof (addr_range_insert (di_addrs d) (Z.to_nat NDIRECT) (im_freeblock st) Ha ltac:(lia)) as Ha1. fold addrs1 in Ha1.
      cbn [with_addrs di_addrs]. rewrite xint_id by (by apply addr_range_total). fold (ind_addr addrs1).
      apply wp_bind. eapply wp_indirect_addr; [done|done|lia|by rewrite G2|lia|].
      rewrite G3, decide_True by (done || lia). intros st' V' tk Hv' HB Htk Hf' Hi'. apply wp_ret.
      apply (HQ st' V' addrs1 (im_freeblock st :: tk)); [done| | |done|lia|lia|congruence].
      * by eapply bmapped_ind.
      * intros r [->|Hin]%elem_of_cons; [apply mkfs_fresh; [done|lia]|]. destruct (Htk r Hin) as [H1 H2]. split; [done|].
        rewrite (used_alloc _ _ _ _ Hok Hal) in H2 by done. by case_decide.
Qed.

(** ** Lemmas: appending *)

Lemma cost_step V addrs c n :
  filled V addrs c -> let off := Z.of_nat (length c) in
  0 < n -> off mod BSIZE + n <= BSIZE -> off + n <= MAXFILE * BSIZE ->
  Z.of_nat (missing V addrs (off / BSIZE)) = cost (off + n) - cost off.
Proof.
  intros Hf off Hn Hb Hmax. assert (HB : BSIZE = 1024) by done. assert (HN : NDIRECT = 12) by done. assert (HM : MAXFILE = 268) by done.
  assert (H0 : 0 <= off) by lia. assert (Hbn : 0 <= off / BSIZE < MAXFILE) by (apply file_block; lia).
  pose proof (fi_blocks _ _ _ Hf _ Hbn) as H1. pose proof (fi_ind _ _ _ Hf) as H2. fold off in H1, H2.
  unfold missing, cost. rewrite HB, HN in *. clear Hf. clearbody off.
  destruct (decide (faddr V addrs (off / 1024) = 0)); destruct (decide (off / 1024 < 12)); destruct (decide (ind_addr addrs = 0));
    destruct (decide (12 * 1024 < off + n)); destruct (decide (12 * 1024 < off));
    try (exfalso; revert H1 H2; Z.to_euclidean_division_equations; lia); Z.to_euclidean_division_equations; lia.
Qed.

Lemma cost_mono a b : a <= b -> cost a <= cost b.
Proof.
  intros H. unfold cost. assert ((a + BSIZE - 1) / BSIZE <= (b + BSIZE - 1) / BSIZE) by (apply Z.div_le_mono; [done|lia]).
  repeat case_decide; lia.
Qed.

Lemma lookup_total_zeros i : (i < Z.to_nat BSIZE)%nat -> zeros !!! i = 0.
Proof. apply lookup_total_replicate_2. Qed.

Section round.
Context (V V1 : Z -> list Z) (addrs addrs1 c bs tk : list Z).
Let off := Z.of_nat (length c).
Hypothesis Hok : fs_ok mkfs_sb V.
Hypothesis Hfill : filled V addrs c.
Hypothesis Htk : fresh_blocks V tk.
Hypothesis Hbm : bmapped mkfs_sb V V1 addrs addrs1 (off / BSIZE) tk [].
Hypothesis Hind : off / BSIZE < NDIRECT -> ind_addr addrs1 = ind_addr addrs.
Hypothesis Hne : bs <> [].
Hypothesis Hbs : Forall byte bs.
Hypothesis Hlen : off mod BSIZE + Z.of_nat (length bs) <= BSIZE.
Hypothesis Hmax : off + Z.of_nat (length bs) <= MAXFILE * BSIZE.

Let x := faddr V1 addrs1 (off / BSIZE).
Let V2 := vset x (splice (Z.to_nat (off mod BSIZE)) bs (V1 x)) V1.

Lemma round_off : 0 <= off < MAXFILE * BSIZE /\ 0 < Z.of_nat (length bs).
Proof. assert (length bs <> 0)%nat by (by intros ?%length_zero_iff_nil). unfold off in *. lia. Qed.

Lemma round_written : written mkfs_sb V V2 addrs addrs1 off bs [].
Proof.
  destruct round_off as [Ho _]. eapply written_step; [exact Hok|apply Hfill|exact Htk|exact Hbm|exact Ho|exact Hbs|exact Hlen].
Qed.

Lemma round_faddr bn : faddr V2 addrs1 bn = faddr V1 addrs1 bn.
Proof.
  destruct round_off as [Ho _]. eapply step_faddr; [exact Hbm|exact Ho].
Qed.

(** The block a byte past the end is in. *)
Lemma round_tail y :
  off + Z.of_nat (length bs) <= y < MAXFILE * BSIZE -> faddr V2 addrs1 (y / BSIZE) <> 0 -> fbyte V2 addrs1 y = 0.
Proof.
  intros Hy Hf. pose proof round_written as HW. destruct round_off as [Ho Hl]. rewrite round_faddr in Hf.
  destruct (decide (faddr V addrs (y / BSIZE) = 0)) as [E0|E0].
  - destruct (decide (y / BSIZE = off / BSIZE)) as [E|E].
    + unfold fbyte. rewrite round_faddr, E. fold x. unfold V2. rewrite vset_eq. rewrite E in E0. unfold x in *.
      rewrite (bm_new _ _ _ _ _ _ _ _ Hbm E0). destruct zeros_ok as [Hz _].
      pose proof (Z.mod_pos_bound off BSIZE eq_refl). pose proof (Z.mod_pos_bound y BSIZE eq_refl).
      pose proof (Z.div_mod off BSIZE ltac:(done)). pose proof (Z.div_mod y BSIZE ltac:(done)). rewrite E in *.
      rewrite total_splice_out by (rewrite ?Hz; lia). apply lookup_total_zeros. lia.
    + rewrite (bm_same _ _ _ _ _ _ _ _ Hbm) in Hf; [done|apply file_block; lia|done].
  - rewrite (wr_out _ _ _ _ _ _ _ _ HW); [|lia|lia|done]. apply (fi_tail _ _ _ Hfill); [fold off; lia|done].
Qed.

Lemma round_filled : filled V2 addrs1 (c ++ bs).
Proof.
  pose proof round_written as HW. destruct round_off as [Ho Hl]. pose proof (file_block _ Ho) as Hbo.
  pose proof (Z.mod_pos_bound off BSIZE eq_refl) as Hm. pose proof (Z.div_mod off BSIZE ltac:(done)) as Hdm.
  assert (HB : BSIZE = 1024) by done. assert (HN : NDIRECT = 12) by done.
  constructor; rewrite ?length_app, ?Nat2Z.inj_add; fold off; [done|apply HW| | | |].
  - intros bn Hbn. rewrite round_faddr. destruct (decide (bn = off / BSIZE)) as [->|Hb].
    + split; [intros _; lia|]. intros _. apply Hbm.
    + rewrite (bm_same _ _ _ _ _ _ _ _ Hbm) by done. rewrite (fi_blocks _ _ _ Hfill) by done. fold off. rewrite HB in *. nia.
  - destruct (decide (off / BSIZE < NDIRECT)) as [Hd|Hd].
    + rewrite Hind by done. rewrite (fi_ind _ _ _ Hfill). fold off. rewrite HB, HN in *. nia.
    + split; [rewrite HB, HN in *; nia|]. intros _ Ei. apply (bm_addr _ _ _ _ _ _ _ _ Hbm). unfold faddr.
      rewrite decide_False by done. by rewrite decide_True.
  - intros y Hy. destruct (decide (y < off)) as [Hlt|Hge].
    + assert (Hfy : faddr V addrs (y / BSIZE) <> 0).
      { apply (fi_blocks _ _ _ Hfill); [apply file_block; lia|]. pose proof (Z.mod_pos_bound y BSIZE eq_refl). pose proof (Z.div_mod y BSIZE ltac:(done)). fold off. lia. }
      rewrite (wr_out _ _ _ _ _ _ _ _ HW); [|lia|lia|done]. rewrite (fi_bytes _ _ _ Hfill) by (fold off; lia).
      rewrite lookup_total_app_l by (unfold off in *; lia). done.
    + destruct (wr_in _ _ _ _ _ _ _ _ HW y ltac:(lia)) as [_ ->]. rewrite lookup_total_app_r by (unfold off in *; lia). f_equal. unfold off. lia.
  - apply round_tail.
Qed.
End round.

(** A block in use has been given out. *)
Lemma in_use_given st V b : view st V -> in_use mkfs_sb V b -> nmeta <= b < im_freeblock st.
Proof.
  intros Hv [Hd Hu]. apply mkfs_data in Hd. destruct mkfs_meta as (M1 & _). rewrite (view_used st) in Hu by (done || lia). apply bool_decide_eq_true in Hu. lia.
Qed.

Lemma rw_chunk off n fuel :
  0 <= off -> 0 < n -> off mod BSIZE + n <= Z.of_nat (S fuel - 1) * BSIZE ->
  let m := Z.min n ((off / BSIZE + 1) * BSIZE - off) in
  0 < m <= n /\ off mod BSIZE + m <= BSIZE /\ (0 < fuel)%nat /\ off - off / BSIZE * BSIZE = off mod BSIZE /\
  (0 < n - m -> (off + m) mod BSIZE + (n - m) <= Z.of_nat (fuel - 1) * BSIZE).
Proof.
  intros H0 Hn Hf m. assert (HB : BSIZE = 1024) by done. unfold m. rewrite HB in *. clear m HB.
  pose proof (Z.mod_pos_bound off 1024 ltac:(lia)). pose proof (Z.div_mod off 1024 ltac:(lia)).
  assert (Hfu : (0 < fuel)%nat) by lia. split_ands; try lia.
  destruct (Z.min_spec n ((off / 1024 + 1) * 1024 - off)) as [[Hlt ->]|[Hge ->]].
  - lia.
  - replace (off + ((off / 1024 + 1) * 1024 - off)) with ((off / 1024 + 1) * 1024) by lia. rewrite Z.mod_mul by lia. lia.
Qed.

Lemma wp_iappend_loop fuel st V d c p (Q : dinode * Z -> image -> Prop) :
  let off := Z.of_nat (length c) in let n := Z.of_nat (length p) in
  view st V -> addr_range (di_addrs d) -> filled V (di_addrs d) c -> Forall byte p -> off + n <= MAXFILE * BSIZE ->
  im_freeblock st + (cost (off + n) - cost off) <= FSSIZE -> (0 < fuel)%nat ->
  (0 < n -> off mod BSIZE + n <= Z.of_nat (fuel - 1) * BSIZE) ->
  (forall st' V' addrs', view st' V' -> addr_range addrs' -> filled V' addrs' (c ++ p) ->
     written mkfs_sb V V' (di_addrs d) addrs' off p [] ->
     im_freeblock st' = im_freeblock st + (cost (off + n) - cost off) -> im_freeinode st' = im_freeinode st ->
     Q (with_addrs d addrs', off + n) st') ->
  wp (iappend_loop fuel d off p) Q st.
Proof.
  revert st V d c p. induction fuel as [|fuel IH]; intros st V d c p off n Hv Ha Hf Hp Hmax Hsp Hf0 Hfu HQ; [lia|].
  cbn [iappend_loop]. fold n. destruct (Z.ltb_spec 0 n) as [Hn|Hn].
  2: { apply wp_ret. assert (E : p = []) by (destruct p; [done|]; simpl in *; lia). subst p.
    replace off with (off + n) at 1 by lia. rewrite <- (with_addrs_id d).
    apply (HQ st V); [done|done|by rewrite app_nil_r| |unfold n; simpl; rewrite Z.add_0_r; lia|done].
    apply written_nil; [apply Hv|apply Hf|done]. }
  destruct (rw_chunk off n fuel ltac:(lia) Hn (Hfu Hn)) as (Hm & Hblk & Hfuel & Eoff & Hnext).
  set (m := Z.min n ((off / BSIZE + 1) * BSIZE - off)) in *.
  assert (Hbn : 0 <= off / BSIZE < MAXFILE) by (apply file_block; lia). rewrite (proj2 (Z.ltb_lt _ MAXFILE)) by lia. cbn [negb].
  set (bs := take (Z.to_nat m) p). assert (Hlbs : Z.of_nat (length bs) = m) by (unfold bs; rewrite length_take; lia).
  pose proof (cost_step V (di_addrs d) c m Hf ltac:(lia) Hblk ltac:(fold off; lia)) as Hcost. fold off in Hcost.
  assert (Hmono : cost (off + m) <= cost (off + n)) by (apply cost_mono; lia).
  apply wp_bind. eapply wp_append_block; [done|done|apply Hf|done|lia|].
  intros st1 V1 addrs1 tk Hv1 HB Htk Ha1 Hind1 Hfb1 Hi1. cbn [fst snd].
  set (x := faddr V1 addrs1 (off / BSIZE)) in *.
  assert (Hx : in_use mkfs_sb V1 x) by (apply (fo_data _ _ _ (bm_file _ _ _ _ _ _ _ _ HB)); [done|apply HB]).
  pose proof (in_use_given _ _ _ Hv1 Hx) as Hxr. destruct mkfs_meta as (M1 & M2 & M3 & _). pose proof (vw_range _ _ Hv1) as Hr1.
  apply wp_bind. eapply wp_rsect; [done|lia|lia|]. rewrite Eoff. fold bs.
  destruct (fk_blocks _ _ (vw_fs _ _ Hv1) x) as [Hlx Hbx]. pose proof (Z.mod_pos_bound off BSIZE eq_refl) as Hmod.
  assert (Hne : bs <> []) by (intros E; rewrite E in Hlbs; simpl in Hlbs; lia).
  assert (Hbs : Forall byte bs) by (by apply Forall_take).
  apply wp_bind. eapply wp_wsect; [done|lia|lia|rewrite length_splice; [done|unfold BSIZE in *; lia]|by apply Forall_splice|].
  intros st2 Hv2 Hfb2 Hi2.
  pose proof (round_filled V V1 (di_addrs d) addrs1 c bs tk (vw_fs _ _ Hv) Hf Htk HB Hind1 Hne Hbs ltac:(fold off; lia) ltac:(fold off; lia)) as Hf2.
  pose proof (round_written V V1 (di_addrs d) addrs1 c bs tk (vw_fs _ _ Hv) Hf Htk HB Hne Hbs ltac:(fold off; lia) ltac:(fold off; lia)) as HW.
  fold off x in Hf2, HW. set (V2 := vset x _ V1) in *.
  assert (Elen : Z.of_nat (length (c ++ bs)) = off + m) by (rewrite length_app; unfold off; lia).
  assert (Edrop : Z.of_nat (length (drop (Z.to_nat m) p)) = n - m) by (rewrite length_drop; lia).
  rewrite u32_small by (change (MAXFILE * BSIZE) with 274432 in Hmax; lia). rewrite <- Elen.
  eapply (IH st2 V2 (with_addrs d addrs1) (c ++ bs)); rewrite ?Elen, ?Edrop; try done; [by apply Forall_drop|lia|..].
  - replace (off + m + (n - m)) with (off + n) by lia. lia.
  - replace (off + m + (n - m)) with (off + n) by lia. intros st' V' addrs' Hv' Ha' Hf' HW' Hfb' Hi'.
    apply (HQ st' V' addrs'); [done|done| | |lia|congruence].
    + rewrite <- app_assoc in Hf'. unfold bs in Hf'. by rewrite take_drop in Hf'.
    + rewrite <- (take_drop (Z.to_nat m) p). fold bs. eapply written_app; [apply Hv|apply Hf|lia| |exact HW|].
      * unfold bs. rewrite take_drop. done.
      * rewrite Hlbs. exact HW'.
Qed.

(** ** Lemmas: inodes *)

Definition inum_ok (inum : Z) : Prop := 0 < inum < NINODES.

Lemma IBLOCK_mkfs inum : inum_ok inum -> 32 <= IBLOCK inum mkfs_sb < 45.
Proof.
  intros Hi. rewrite IBLOCK_small; [|apply mkfs_layout|destruct mkfs_meta as (_ & _ & _ & _ & ->); unfold inum_ok, NINODES in *; lia].
  rewrite mkfs_sb_eq. cbn [sb_inodestart]. unfold inum_ok, NINODES in Hi. change IPB with 16. Z.to_euclidean_division_equations. lia.
Qed.

Lemma wp_rinode st V inum (Q : dinode -> image -> Prop) :
  view st V -> inum_ok inum -> Q (disk_inode mkfs_sb V inum) st -> wp (rinode inum) Q st.
Proof.
  intros Hv Hi HQ. pose proof (IBLOCK_mkfs inum Hi). destruct mkfs_meta as (M1 & M2 & M3 & _).
  unfold rinode. apply wp_bind. eapply wp_rsect; [done|lia|lia|]. by apply wp_ret.
Qed.

Lemma wp_winode st V inum d (Q : unit -> image -> Prop) :
  view st V -> inum_ok inum -> length (di_addrs d) = 13%nat ->
  (forall st', view st' (put_inode mkfs_sb inum d V) -> im_freeblock st' = im_freeblock st -> im_freeinode st' = im_freeinode st -> Q tt st') ->
  wp (winode inum d) Q st.
Proof.
  intros Hv Hi Hl HQ. pose proof (IBLOCK_mkfs inum Hi). destruct mkfs_meta as (M1 & M2 & M3 & _). pose proof (vw_range _ _ Hv).
  destruct (fk_blocks _ _ (vw_fs _ _ Hv) (IBLOCK inum mkfs_sb)) as [Hlb Hbb].
  unfold winode. apply wp_bind. eapply wp_rsect; [done|lia|lia|].
  eapply wp_wsect; [done|lia|lia|by rewrite length_st_dinode|by apply st_dinode_ok|exact HQ].
Qed.

(** ** Lemmas: files that are not written *)

Lemma owns_in_use V addrs b : file_ok mkfs_sb V addrs -> owns V addrs b -> in_use mkfs_sb V b.
Proof. intros Hf [Hb [->|(bn & Hbn & ->)]]; [by apply (fo_ind _ _ _ Hf)|by apply (fo_data _ _ _ Hf)]. Qed.

Section keep.
Context (V V' : Z -> list Z) (addrs : list Z).
Hypothesis Hf : file_ok mkfs_sb V addrs.
Hypothesis Hsame : forall b, owns V addrs b -> V' b = V b.
Hypothesis Hused : forall b, 0 <= b < FSSIZE -> used mkfs_sb V b = true -> used mkfs_sb V' b = true.

Lemma keep_faddr bn : faddr V' addrs bn = faddr V addrs bn.
Proof using Hsame. apply faddr_view. intros Hi. apply Hsame. split; [done|by left]. Qed.

Lemma keep_owns b : owns V' addrs b <-> owns V addrs b.
Proof using Hsame. unfold owns. by setoid_rewrite keep_faddr. Qed.

Lemma keep_file_ok : file_ok mkfs_sb V' addrs.
Proof using Hf Hsame Hused.
  assert (Hin : forall b, in_use mkfs_sb V b -> in_use mkfs_sb V' b).
  { intros b [H1 H2]. split; [done|]. apply Hused; [|done]. apply mkfs_data in H1. destruct mkfs_meta as (M1 & _). lia. }
  destruct Hf as [H1 H2 H3 H4 H5]. constructor; [done| | | |].
  - auto.
  - intros bn Hbn. rewrite keep_faddr. auto.
  - intros bn bn' Hbn Hbn'. rewrite !keep_faddr. auto.
  - intros bn Hbn. rewrite keep_faddr. auto.
Qed.

Lemma keep_fbyte x : 0 <= x < MAXFILE * BSIZE -> faddr V addrs (x / BSIZE) <> 0 -> fbyte V' addrs x = fbyte V addrs x.
Proof using Hsame.
  intros Hx Hne. unfold fbyte. rewrite keep_faddr, Hsame; [done|]. split; [done|]. right. exists (x / BSIZE).
  split; [by apply file_block|done].
Qed.

Lemma keep_filled c : filled V addrs c -> filled V' addrs c.
Proof using Hf Hsame Hused.
  intros [H1 _ H3 H4 H5 H6]. constructor; [done|apply keep_file_ok| |done| |].
  - intros bn Hbn. rewrite keep_faddr. auto.
  - intros x Hx. rewrite keep_fbyte; [auto|lia|]. apply H3; [apply file_block; lia|].
    pose proof (Z.mod_pos_bound x BSIZE eq_refl). pose proof (Z.div_mod x BSIZE ltac:(done)). lia.
  - intros x Hx. rewrite keep_faddr. intros Hne. rewrite keep_fbyte; [auto|lia|done].
Qed.
End keep.

(** ** The image as it is built *)

(** A file: the type, the block addresses and the contents. *)
Notation entry_file := (Z * list Z * list Z)%type.

Definition file_inode (f : entry_file) : dinode := mkDinode f.1.1 0 0 1 (Z.of_nat (length f.2)) f.1.2.

Definition free_inode : dinode := mkDinode 0 0 0 0 0 (replicate 13 0).

Fixpoint total_cost (fs : list entry_file) : Z :=
  match fs with
  | f :: fs => cost (Z.of_nat (length f.2)) + total_cost fs
  | [] => 0
  end.

Definition sb_block : list Z := splice 0 (concat (le_split 4 <$>
  [sb_magic mkfs_sb; sb_size mkfs_sb; sb_nblocks mkfs_sb; sb_ninodes mkfs_sb;
   sb_nlog mkfs_sb; sb_logstart mkfs_sb; sb_inodestart mkfs_sb; sb_bmapstart mkfs_sb])) zeros.

Record file_in (V : Z -> list Z) (f : entry_file) : Prop := mkFileIn {
  fn_type : f.1.1 = T_DIR \/ f.1.1 = T_FILE;
  fn_range : addr_range f.1.2;
  fn_filled : filled V f.1.2 f.2
}.

Record built (st : image) (V : Z -> list Z) (fs : list entry_file) : Prop := mkBuilt {
  bt_view : view st V;
  bt_count : im_freeinode st = 1 + Z.of_nat (length fs) /\ Z.of_nat (length fs) < NINODES;
  bt_files : Forall (file_in V) fs;
  bt_inode : forall i f, fs !! i = Some f -> disk_inode mkfs_sb V (Z.of_nat i + 1) = file_inode f;
  bt_free : forall inum, Z.of_nat (length fs) < inum < NINODES -> disk_inode mkfs_sb V inum = free_inode;
  bt_apart : forall i j f g b, fs !! i = Some f -> fs !! j = Some g -> owns V f.1.2 b -> owns V g.1.2 b -> i = j;
  bt_cost : im_freeblock st = nmeta + total_cost fs;
  bt_super : V 1 = sb_block;
  bt_log : forall b, 2 <= b < 32 -> V b = zeros
}.

Lemma file_inode_ok V f : file_in V f -> dinode_ok (file_inode f).
Proof.
  intros [H1 H2 H3]. pose proof (fi_max _ _ _ H3) as Hm. change (MAXFILE * BSIZE) with 274432 in Hm.
  unfold T_DIR, T_FILE in H1. constructor; cbn [file_inode di_type di_major di_minor di_nlink di_size di_addrs]; try lia; [|done].
  apply (fo_len _ _ _ (fi_file _ _ _ H3)).
Qed.

Lemma total_cost_insert fs i f g :
  fs !! i = Some f -> total_cost (<[i := g]> fs) = total_cost fs + (cost (Z.of_nat (length g.2)) - cost (Z.of_nat (length f.2))).
Proof.
  revert i. induction fs as [|h fs IH]; intros [|i] Hi; simplify_eq/=; [lia|]. rewrite (IH i) by done. lia.
Qed.

Lemma total_cost_app fs gs : total_cost (fs ++ gs) = total_cost fs + total_cost gs.
Proof. induction fs as [|f fs IH]; simpl; [lia|]. rewrite IH. lia. Qed.

Lemma meta_not_owned V addrs b : file_ok mkfs_sb V addrs -> b < nmeta -> ~ owns V addrs b.
Proof. intros Hf Hb Ho. destruct (owns_in_use _ _ _ Hf Ho) as [Hd%mkfs_data _]. lia. Qed.

(** What a write to a file leaves alone. *)
Section appended.
Context (st : image) (V V1 : Z -> list Z) (addrs addrs1 : list Z) (off : Z) (p : list Z).
Hypothesis Hv : view st V.
Hypothesis Hf : file_ok mkfs_sb V addrs.
Hypothesis HW : written mkfs_sb V V1 addrs addrs1 off p [].

Lemma appended_keep b :
  0 < b < im_freeblock st -> b <> sb_bmapstart mkfs_sb -> ~ owns V addrs b -> V1 b = V b.
Proof using Hv HW.
  intros Hb Hm Ho. apply (wr_keep _ _ _ _ _ _ _ _ HW); [by apply mkfs_not_map| | |].
  - intros Hr. rewrite (view_used st) by (done || destruct mkfs_meta as (_ & _ & _ & E & _); rewrite E in Hr; exact Hr). by rewrite bool_decide_true by lia.
  - intros ->. apply Ho. split; [lia|by left].
  - intros bn Hbn Hne ->. apply Ho. split; [done|]. right. eauto.
Qed.

Lemma appended_meta b : 0 < b < nmeta -> b <> sb_bmapstart mkfs_sb -> V1 b = V b.
Proof using Hv Hf HW.
  intros Hb Hm. pose proof (vw_range _ _ Hv). apply appended_keep; [lia|done|]. apply meta_not_owned; [done|lia].
Qed.

Lemma appended_owns b : owns V1 addrs1 b -> owns V addrs b \/ used mkfs_sb V b = false.
Proof using HW.
  intros [Hb [->|(bn & Hbn & ->)]].
  - destruct (wr_ind _ _ _ _ _ _ _ _ HW) as [E|(_ & _ & E)]; [|by right]. left. rewrite E in *. split; [done|by left].
  - destruct (decide (faddr V addrs bn = 0)) as [E|E].
    + right. by apply (wr_fresh _ _ _ _ _ _ _ _ HW).
    + left. rewrite (wr_same _ _ _ _ _ _ _ _ HW) in * by done. split; [done|]. right. eauto.
Qed.
End appended.

(** The files of the image when one of them has been written and its inode with it. *)
Section rewrite_file.
Context (st : image) (V V1 : Z -> list Z) (fs : list entry_file) (i : nat) (f g : entry_file) (off : Z) (p : list Z).
Hypothesis Hbt : built st V fs.
Hypothesis Hi : fs !! i = Some f.
Hypothesis HW : written mkfs_sb V V1 f.1.2 g.1.2 off p [].
Hypothesis Hg : file_in V1 g.

Let V2 := put_inode mkfs_sb (Z.of_nat i + 1) (file_inode g) V1.

Lemma rw_inum : inum_ok (Z.of_nat i + 1).
Proof using Hbt Hi. destruct (bt_count _ _ _ Hbt) as [_ H]. apply lookup_lt_Some in Hi. unfold inum_ok. lia. Qed.

Lemma rw_range inum : inum_ok inum -> 0 <= inum < sb_ninodes mkfs_sb.
Proof using. unfold inum_ok, NINODES. destruct mkfs_meta as (_ & _ & _ & _ & ->). lia. Qed.

Lemma rw_file j h : fs !! j = Some h -> file_ok mkfs_sb V h.1.2.
Proof using Hbt. intros Hj. pose proof (bt_files _ _ _ Hbt) as H. rewrite Forall_lookup in H. apply (H _ _ Hj). Qed.

Lemma rw_data b : data_block mkfs_sb b -> V2 b = V1 b.
Proof using Hbt Hi. intros Hb. apply put_inode_data; [apply mkfs_layout|apply rw_range, rw_inum|done]. Qed.

Lemma rw_used b : 0 <= b < FSSIZE -> used mkfs_sb V2 b = used mkfs_sb V1 b.
Proof using Hbt Hi. intros Hb. apply put_inode_used; [apply mkfs_layout|apply rw_range, rw_inum|done]. Qed.

Lemma rw_other j h b : fs !! j = Some h -> j <> i -> owns V h.1.2 b -> V2 b = V b.
Proof using Hbt Hi HW.
  intros Hj Hne Ho. pose proof (owns_in_use _ _ _ (rw_file j h Hj) Ho) as Hu. pose proof (in_use_given _ _ _ (bt_view _ _ _ Hbt) Hu) as Hr.
  rewrite rw_data by apply Hu. destruct mkfs_meta as (M1 & M2 & M3 & _).
  eapply appended_keep; [apply Hbt|exact HW|lia|lia|]. intros Ho'. apply Hne. by eapply (bt_apart _ _ _ Hbt).
Qed.

Lemma rw_used_mono b : 0 <= b < FSSIZE -> used mkfs_sb V b = true -> used mkfs_sb V2 b = true.
Proof using Hbt Hi HW. intros Hb Hu. rewrite rw_used by done. by apply (wr_used _ _ _ _ _ _ _ _ HW). Qed.

Lemma rw_self b : owns V1 g.1.2 b -> V2 b = V1 b.
Proof using Hbt Hi Hg. intros Ho. apply rw_data. by apply (owns_in_use _ _ _ (fi_file _ _ _ (fn_filled _ _ Hg))). Qed.

Lemma rw_files : Forall (file_in V2) (<[i := g]> fs).
Proof using Hbt Hi HW Hg.
  apply Forall_lookup. intros j h Hj. destruct (decide (j = i)) as [->|Hne].
  - rewrite list_lookup_insert_eq in Hj by (by eapply lookup_lt_Some). injection Hj as <-. destruct Hg as [G1 G2 G3].
    constructor; [done|done|]. apply (keep_filled V1); [apply G3|apply rw_self| |done]. intros b Hb Hu. by rewrite rw_used.
  - rewrite list_lookup_insert_ne in Hj by done. pose proof (bt_files _ _ _ Hbt) as H. rewrite Forall_lookup in H.
    destruct (H _ _ Hj) as [G1 G2 G3]. constructor; [done|done|].
    apply (keep_filled V); [apply G3| |apply rw_used_mono|done]. intros b. by apply (rw_other j).
Qed.

Lemma rw_inodes inum :
  inum_ok inum -> disk_inode mkfs_sb V2 inum = if decide (inum = Z.of_nat i + 1) then file_inode g else disk_inode mkfs_sb V inum.
Proof using Hbt Hi HW Hg.
  intros Hin. unfold V2. rewrite disk_put_inode; [|apply mkfs_layout|apply (wr_fs _ _ _ _ _ _ _ _ HW)|by eapply file_inode_ok|apply rw_range, rw_inum|by apply rw_range].
  case_decide; [done|]. unfold disk_inode. f_equal. pose proof (IBLOCK_mkfs inum Hin). destruct mkfs_meta as (M1 & M2 & M3 & _).
  eapply appended_meta; [apply Hbt|by eapply rw_file|exact HW|lia|lia].
Qed.

Lemma rw_apart j k f1 f2 b :
  <[i := g]> fs !! j = Some f1 -> <[i := g]> fs !! k = Some f2 -> owns V2 f1.1.2 b -> owns V2 f2.1.2 b -> j = k.
Proof using Hbt Hi HW Hg.
  assert (Hself : owns V2 g.1.2 b -> owns V f.1.2 b \/ used mkfs_sb V b = false).
  { rewrite (keep_owns V1) by apply rw_self. by eapply appended_owns. }
  assert (Hoth : forall j h, fs !! j = Some h -> j <> i -> owns V2 h.1.2 b -> owns V h.1.2 b /\ used mkfs_sb V b = true).
  { intros j' h Hj Hne. rewrite (keep_owns V); [|intros b'; by apply (rw_other j')]. intros Ho. split; [done|].
    by apply (owns_in_use _ _ _ (rw_file j' h Hj)). }
  intros Hj Hk Ho1 Ho2. destruct (decide (j = i)) as [->|Hj']; destruct (decide (k = i)) as [->|Hk']; [done|..].
  - rewrite list_lookup_insert_eq in Hj by (by eapply lookup_lt_Some). injection Hj as <-. rewrite list_lookup_insert_ne in Hk by done.
    destruct (Hoth k f2 Hk Hk' Ho2) as [Ho Hu]. destruct (Hself Ho1) as [H|H]; [by eapply (bt_apart _ _ _ Hbt)|congruence].
  - rewrite list_lookup_insert_eq in Hk by (by eapply lookup_lt_Some). injection Hk as <-. rewrite list_lookup_insert_ne in Hj by done.
    destruct (Hoth j f1 Hj Hj' Ho1) as [Ho Hu]. destruct (Hself Ho2) as [H|H]; [by eapply (bt_apart _ _ _ Hbt)|congruence].
  - rewrite list_lookup_insert_ne in Hj, Hk by done. destruct (Hoth j f1 Hj Hj' Ho1) as [H1 _]. destruct (Hoth k f2 Hk Hk' Ho2) as [H2 _].
    by eapply (bt_apart _ _ _ Hbt).
Qed.

Lemma rw_built st2 :
  view st2 V2 -> im_freeinode st2 = im_freeinode st ->
  im_freeblock st2 = im_freeblock st + (cost (Z.of_nat (length g.2)) - cost (Z.of_nat (length f.2))) -> built st2 V2 (<[i := g]> fs).
Proof using Hbt Hi HW Hg.
  intros Hv2 Hin Hfb. destruct mkfs_meta as (M1 & M2 & M3 & _). pose proof (lookup_lt_Some _ _ _ Hi) as Hlt.
  assert (Hm : forall b, 0 < b < 32 -> V2 b = V b).
  { intros b Hb. unfold V2, put_inode. pose proof (IBLOCK_mkfs _ rw_inum). rewrite vset_ne by lia.
    eapply appended_meta; [apply Hbt|by eapply rw_file|exact HW|lia|lia]. }
  constructor; rewrite ?length_insert.
  - done.
  - rewrite Hin. apply Hbt.
  - apply rw_files.
  - intros j h Hj. assert (inum_ok (Z.of_nat j + 1)).
    { destruct (bt_count _ _ _ Hbt) as [_ H]. apply lookup_lt_Some in Hj. rewrite length_insert in Hj. unfold inum_ok. lia. }
    rewrite rw_inodes by done. destruct (decide (j = i)) as [->|Hne].
    + rewrite list_lookup_insert_eq in Hj by done. injection Hj as <-. by rewrite decide_True.
    + rewrite list_lookup_insert_ne in Hj by done. rewrite decide_False by lia. by apply (bt_inode _ _ _ Hbt).
  - intros inum Hn. rewrite rw_inodes by (unfold inum_ok; lia). rewrite decide_False by lia. by apply (bt_free _ _ _ Hbt).
  - intros j k f1 f2 b. apply rw_apart.
  - rewrite (total_cost_insert _ _ f) by done. rewrite Hfb, (bt_cost _ _ _ Hbt). lia.
  - rewrite Hm by lia. apply Hbt.
  - intros b Hb. rewrite Hm by lia. by apply (bt_log _ _ _ Hbt).
Qed.
End rewrite_file.

Lemma wp_iappend st V fs i f p (Q : unit -> image -> Prop) :
  built st V fs -> fs !! i = Some f -> Forall byte p ->
  let n := Z.of_nat (length f.2) + Z.of_nat (length p) in
  n <= MAXFILE * BSIZE -> im_freeblock st + (cost n - cost (Z.of_nat (length f.2))) <= FSSIZE ->
  (forall st' V' addrs, built st' V' (<[i := (f.1.1, addrs, f.2 ++ p)]> fs) -> Q tt st') ->
  wp (iappend (Z.of_nat i + 1) p) Q st.
Proof.
  intros Hbt Hi Hp n Hmax Hsp HQ. pose proof (bt_view _ _ _ Hbt) as Hv. pose proof (rw_inum st V fs i f Hbt Hi) as Hin.
  pose proof (bt_files _ _ _ Hbt) as Hall. rewrite Forall_lookup in Hall. destruct (Hall _ _ Hi) as [Hty Hra Hfi].
  assert (E32 : MAXFILE * BSIZE < 2 ^ 32) by done.
  unfold iappend. apply wp_bind. eapply wp_rinode; [done|done|]. rewrite (bt_inode _ _ _ Hbt i f Hi). cbn [file_inode di_size].
  rewrite xint_id by lia. destruct (rw_fuel_enough (Z.of_nat (length f.2)) (Z.of_nat (length p)) ltac:(lia)) as [Hf0 Hfu].
  apply wp_bind. eapply (wp_iappend_loop _ st V (file_inode f) f.2 p); [done|done|done|done|done|done|done|by intros _|].
  intros st1 V1 addrs1 Hv1 Hra1 Hfi1 HW Hfb1 Hi1. cbn [fst snd]. rewrite xint_id by lia. fold n.
  set (g := (f.1.1, addrs1, f.2 ++ p)). assert (Hg : file_in V1 g) by (constructor; done).
  assert (Eg : set_size n (with_addrs (file_inode f) addrs1) = file_inode g).
  { unfold set_size, with_addrs, file_inode, g. cbn [fst snd di_type di_major di_minor di_nlink di_addrs]. rewrite length_app. f_equal. lia. }
  rewrite Eg. eapply wp_winode; [done|done|apply (fo_len _ _ _ (fi_file _ _ _ Hfi1))|]. intros st2 Hv2 Hfb2 Hi2.
  apply (HQ st2 (put_inode mkfs_sb (Z.of_nat i + 1) (file_inode g) V1) addrs1).
  eapply (rw_built st V V1 fs i f g); [done|done|exact HW|done|done|congruence|]. unfold g. cbn [snd]. rewrite length_app, Nat2Z.inj_add. lia.
Qed.

(** ** New inodes *)

Lemma no_addrs_ind : ind_addr (replicate 13 0) = 0.
Proof. reflexivity. Qed.

Lemma faddr_none V bn : 0 <= bn < MAXFILE -> faddr V (replicate 13 0) bn = 0.
Proof.
  intros Hbn. unfold faddr. case_decide as Hd; [|by rewrite decide_True]. apply lookup_total_replicate_2. unfold NDIRECT in Hd. lia.
Qed.

Lemma owns_none V b : ~ owns V (replicate 13 0) b.
Proof. intros [Hb [->|(bn & Hbn & ->)]]; [done|]. by rewrite faddr_none in Hb. Qed.

Lemma filled_none V : filled V (replicate 13 0) [].
Proof.
  constructor; cbn [length Z.of_nat]; [done| | | | |].
  - constructor; [done|done| | |]; intros bn; intros; exfalso; rewrite faddr_none in *; done.
  - intros bn Hbn. rewrite faddr_none by done. unfold BSIZE. lia.
  - rewrite no_addrs_ind. unfold NDIRECT, BSIZE. lia.
  - intros x Hx. lia.
  - intros x Hx Hne. rewrite faddr_none in Hne; [done|]. by apply file_block.
Qed.

(** Writing an inode leaves the files as they are. *)
Section put_inode.
Context (st : image) (V : Z -> list Z) (inum : Z) (d : dinode).
Hypothesis Hv : view st V.
Hypothesis Hnum : inum_ok inum.
Hypothesis Hd : dinode_ok d.

Let V2 := put_inode mkfs_sb inum d V.

Lemma pi_same addrs b : file_ok mkfs_sb V addrs -> owns V addrs b -> V2 b = V b.
Proof using Hnum.
  intros Hf Ho. apply put_inode_data; [apply mkfs_layout|by apply rw_range|]. by apply (owns_in_use _ _ _ Hf Ho).
Qed.

Lemma pi_file f : file_in V f -> file_in V2 f.
Proof using Hnum.
  intros [F1 F2 F3]. constructor; [done|done|]. apply (keep_filled V); [apply F3|intros b; by apply pi_same, F3| |done].
  intros b Hb Hu. unfold V2. rewrite put_inode_used; [done|apply mkfs_layout|by apply rw_range|done].
Qed.

Lemma pi_owns f b : file_in V f -> owns V2 f.1.2 b <-> owns V f.1.2 b.
Proof using Hnum. intros [_ _ F3]. apply keep_owns. intros b'. by apply pi_same, F3. Qed.

Lemma pi_inode x : inum_ok x -> disk_inode mkfs_sb V2 x = if decide (x = inum) then d else disk_inode mkfs_sb V x.
Proof using Hv Hnum Hd. intros Hx. apply disk_put_inode; [apply mkfs_layout|apply (vw_fs _ _ Hv)|done|by apply rw_range..]. Qed.

Lemma pi_meta b : b < 32 -> V2 b = V b.
Proof using Hnum. intros Hb. unfold V2, put_inode. pose proof (IBLOCK_mkfs _ Hnum). by rewrite vset_ne by lia. Qed.
End put_inode.

Lemma wp_mk_ialloc st V fs ty (Q : Z -> image -> Prop) :
  built st V fs -> 1 + Z.of_nat (length fs) < NINODES -> ty = T_DIR \/ ty = T_FILE ->
  (forall st' V', built st' V' (fs ++ [(ty, replicate 13 0, [])]) -> im_freeblock st' = im_freeblock st -> Q (Z.of_nat (length fs) + 1) st') ->
  wp (mk_ialloc ty) Q st.
Proof.
  intros Hbt Hn Hty HQ. pose proof Hbt as [Hv [Hc _] Hfs Hin Hfree Hap Hco Hsb Hlog]. destruct mkfs_meta as (M1 & M2 & M3 & _).
  unfold mk_ialloc, next_inode. wp_steps. rewrite Hc, u32_small by (unfold NINODES in Hn; lia).
  set (st1 := mkImage _ _ _ _). assert (Hv1 : view st1 V) by (by destruct Hv).
  set (g := (ty, replicate 13 0, [] : list Z)). assert (Hg : file_in V g) by (constructor; [done|by apply Forall_replicate|apply filled_none]).
  assert (Eg : mkDinode (xshort ty) 0 0 (xshort 1) (xint 0) (replicate 13 0) = file_inode g) by (by destruct Hty as [->| ->]).
  rewrite Eg. replace (1 + Z.of_nat (length fs)) with (Z.of_nat (length fs) + 1) by lia. set (inum := Z.of_nat (length fs) + 1) in *.
  assert (Hnum : inum_ok inum) by (unfold inum_ok; lia).
  eapply wp_winode; [done|done|done|]. intros st2 Hv2 Hfb2 Hi2. apply wp_ret. set (V2 := put_inode mkfs_sb inum (file_inode g) V) in *.
  apply (HQ st2 V2); [|done].
  pose proof (file_inode_ok V g Hg) as Hdg. pose proof (pi_inode st V inum (file_inode g) Hv Hnum Hdg) as Hdisk. fold V2 in Hdisk.
  rewrite Forall_forall in Hfs. constructor; rewrite ?length_app; cbn [length].
  - done.
  - rewrite Hi2. cbn [im_freeinode st1]. lia.
  - apply Forall_app. split; [apply Forall_forall; intros f Hf; by apply pi_file, Hfs|]. by apply Forall_singleton, pi_file.
  - intros i f Hf. apply lookup_snoc_Some in Hf as [[Hlt Hf]|[-> <-]].
    + rewrite Hdisk by (unfold inum_ok; lia). rewrite decide_False by lia. by apply Hin.
    + rewrite Hdisk by done. by rewrite decide_True.
  - intros x Hx. rewrite Hdisk by (unfold inum_ok; lia). rewrite decide_False by lia. apply Hfree. lia.
  - intros i j f h b Hf Hh Ho1 Ho2. apply lookup_snoc_Some in Hf as [[Hlt Hf]|[-> <-]]; [|by apply owns_none in Ho1].
    apply lookup_snoc_Some in Hh as [[Hlt' Hh]|[-> <-]]; [|by apply owns_none in Ho2].
    eapply Hap; [done|done|eapply pi_owns; [exact Hnum| |done]|eapply pi_owns; [exact Hnum| |done]]; eapply Hfs, list_elem_of_lookup_2; done.
  - rewrite total_cost_app, Hfb2. cbn [im_freeblock st1 total_cost snd length]. change (cost (Z.of_nat 0)) with 0. lia.
  - unfold V2. by rewrite pi_meta by (done || lia).
  - intros b Hb. unfold V2. rewrite pi_meta by (done || lia). auto.
Qed.

(** ** Files and the root directory *)

Lemma wp_append_all st V fs i f ps (Q : unit -> image -> Prop) :
  built st V fs -> fs !! i = Some f -> Forall (Forall byte) ps ->
  let n := Z.of_nat (length f.2) + Z.of_nat (length (concat ps)) in
  n <= MAXFILE * BSIZE -> im_freeblock st + (cost n - cost (Z.of_nat (length f.2))) <= FSSIZE ->
  (forall st' V' addrs, built st' V' (<[i := (f.1.1, addrs, f.2 ++ concat ps)]> fs) -> Q tt st') ->
  wp (for_each ps (iappend (Z.of_nat i + 1))) Q st.
Proof.
  revert st V fs f. induction ps as [|p ps IH]; intros st V fs f Hbt Hi Hps n Hmax Hsp HQ; cbn [for_each].
  - apply wp_ret. apply (HQ st V f.1.2). cbn [concat]. rewrite app_nil_r. destruct f as [[ty ad] c]. cbn [fst snd].
    by rewrite list_insert_id.
  - apply Forall_cons in Hps as [Hp Hps]. unfold n in *. cbn [concat] in *. rewrite length_app, Nat2Z.inj_add in *.
    pose proof (cost_mono (Z.of_nat (length f.2) + Z.of_nat (length p)) (Z.of_nat (length f.2) + (Z.of_nat (length p) + Z.of_nat (length (concat ps)))) ltac:(lia)) as Hm.
    apply wp_bind. eapply wp_iappend; [done|done|done|lia|lia|]. intros st1 V1 a1 Hb1.
    pose proof (lookup_lt_Some _ _ _ Hi) as Hlt.
    pose proof (bt_cost _ _ _ Hb1) as Hc1. rewrite (total_cost_insert _ _ f) in Hc1 by done. cbn [snd] in Hc1.
    pose proof (bt_cost _ _ _ Hbt) as Hc0. rewrite length_app, Nat2Z.inj_add in Hc1.
    eapply (IH st1 V1 _ (f.1.1, a1, f.2 ++ p)); [exact Hb1|by apply list_lookup_insert_eq|done| | |]; cbn [snd fst]; rewrite ?length_app, ?Nat2Z.inj_add.
    + lia.
    + replace (Z.of_nat (length f.2) + Z.of_nat (length p) + Z.of_nat (length (concat ps))) with (Z.of_nat (length f.2) + (Z.of_nat (length p) + Z.of_nat (length (concat ps)))) by lia. lia.
    + intros st' V' addrs Hb'. rewrite list_insert_insert_eq, <- app_assoc in Hb'. by eapply HQ.
Qed.

(** The entries of the root directory. *)
Definition root_entries (files : list (list Z * list (list Z))) : list (Z * list Z) :=
  (1, [46]) :: (1, [46; 46]) :: imap (fun i f => (Z.of_nat i + 2, filename f.1)) files.

Definition root_bytes (es : list (Z * list Z)) : list Z := concat ((fun e => mk_dirent e.1 e.2) <$> es).

Lemma root_entries_snoc files f :
  root_entries (files ++ [f]) = root_entries files ++ [(Z.of_nat (length files) + 2, filename f.1)].
Proof. unfold root_entries. rewrite imap_app. simpl. by rewrite Nat.add_0_r. Qed.

Lemma root_entries_length files : length (root_entries files) = (length files + 2)%nat.
Proof. unfold root_entries. simpl. rewrite length_imap. lia. Qed.

Lemma root_bytes_snoc es e : root_bytes (es ++ [e]) = root_bytes es ++ mk_dirent e.1 e.2.
Proof. unfold root_bytes. rewrite fmap_app, concat_app. cbn [fmap list_fmap concat]. by rewrite app_nil_r. Qed.

Lemma mk_dirent_ok inum name : Forall byte name -> Forall byte (mk_dirent inum name) /\ length (mk_dirent inum name) = 16%nat.
Proof. intros Hn. destruct (name_field_ok name Hn) as (_ & H2 & H3). by apply st_dirent_ok. Qed.

Lemma root_bytes_length es : Forall (fun e => Forall byte e.2) es -> length (root_bytes es) = (16 * length es)%nat.
Proof.
  induction 1 as [|e es He Hes IH]; [done|]. unfold root_bytes in *. rewrite fmap_cons. cbn [concat length]. rewrite length_app, IH.
  destruct (mk_dirent_ok e.1 e.2 He) as [_ ->]. lia.
Qed.

(** A file that can be put into the image. *)
Record good_file (f : list Z * list (list Z)) : Prop := mkGoodFile {
  gf_path : Forall byte f.1;
  gf_slash : slash ∉ shortname f.1;
  gf_bytes : Forall (Forall byte) f.2;
  gf_size : Z.of_nat (length (concat f.2)) <= MAXFILE * BSIZE
}.

Lemma filename_bytes path : Forall byte path -> Forall byte (filename path).
Proof.
  intros H. assert (H' : Forall byte (shortname path)) by (unfold shortname; case_decide; [by apply Forall_drop|done]).
  unfold filename. destruct H' as [|c name Hc Hn]; [done|]. destruct (c =? 95); [done|by constructor].
Qed.

Lemma root_entries_bytes files : Forall good_file files -> Forall (fun e => Forall byte e.2) (root_entries files).
Proof.
  intros H. unfold root_entries. constructor; [by repeat constructor|]. constructor; [by repeat constructor|].
  apply Forall_lookup. intros i e He. rewrite list_lookup_imap in He. apply fmap_Some in He as (f & Hf & ->). cbn [snd].
  apply filename_bytes. rewrite Forall_lookup in H. by destruct (H _ _ Hf).
Qed.

Fixpoint files_cost (files : list (list Z * list (list Z))) : Z :=
  match files with
  | f :: files => cost (Z.of_nat (length (concat f.2))) + files_cost files
  | [] => 0
  end.

Lemma files_cost_app fs gs : files_cost (fs ++ gs) = files_cost fs + files_cost gs.
Proof. induction fs as [|f fs IH]; simpl; [lia|]. rewrite IH. lia. Qed.

(** The blocks an image with these files has in use. *)
Definition image_cost (files : list (list Z * list (list Z))) : Z :=
  nmeta + cost (16 * (Z.of_nat (length files) + 2)) + files_cost files.

Definition made_of (g : entry_file) (f : list Z * list (list Z)) : Prop := g.1.1 = T_FILE /\ g.2 = concat f.2.

(** The image with the root directory and these files in it. *)
Definition progress (st : image) (files : list (list Z * list (list Z))) : Prop :=
  exists V ra gs, built st V ((T_DIR, ra, root_bytes (root_entries files)) :: gs) /\ Forall2 made_of gs files.

Lemma made_cost gs files : Forall2 made_of gs files -> total_cost gs = files_cost files.
Proof. induction 1 as [|g f gs files [_ E] H IH]; cbn [total_cost files_cost]; [done|]. by rewrite IH, E. Qed.

Lemma root_bytes_size files :
  Forall good_file files -> Z.of_nat (length (root_bytes (root_entries files))) = 16 * (Z.of_nat (length files) + 2).
Proof. intros H. rewrite root_bytes_length by (by apply root_entries_bytes). rewrite root_entries_length. lia. Qed.

Lemma progress_cost st V ra gs files :
  Forall good_file files -> built st V ((T_DIR, ra, root_bytes (root_entries files)) :: gs) -> Forall2 made_of gs files ->
  im_freeblock st = image_cost files.
Proof.
  intros Hg Hb Hm. rewrite (bt_cost _ _ _ Hb). cbn [total_cost snd]. rewrite root_bytes_size, (made_cost _ _ Hm) by done. unfold image_cost. lia.
Qed.

Lemma cost_nonneg n : 0 <= n -> 0 <= cost n.
Proof. intros Hn. unfold cost. assert (0 <= (n + BSIZE - 1) / BSIZE) by (apply Z.div_pos; unfold BSIZE; lia). case_decide; lia. Qed.

Lemma wp_add_file st files f :
  progress st files -> Forall good_file files -> good_file f -> Z.of_nat (length files) + 2 < NINODES ->
  image_cost (files ++ [f]) <= FSSIZE ->
  wp (add_file (f.1, Some f.2)) (fun _ st' => progress st' (files ++ [f])) st.
Proof.
  intros (V & ra & gs & Hb & Hm) Hgood [G1 G2 G3 G4] Hn Hsp. pose proof (Forall2_length _ _ _ Hm) as Hlen.
  pose proof (progress_cost _ _ _ _ _ Hgood Hb Hm) as Hfb. pose proof (root_bytes_size files Hgood) as Hrs.
  unfold image_cost in Hsp, Hfb. rewrite length_app, Nat2Z.inj_add, files_cost_app in Hsp. cbn [length files_cost] in Hsp.
  change (Z.of_nat 1) with 1 in Hsp. replace (16 * (Z.of_nat (length files) + 1 + 2)) with (16 * (Z.of_nat (length files) + 2) + 16) in Hsp by lia.
  pose proof (cost_nonneg (Z.of_nat (length (concat f.2))) ltac:(lia)) as Hc0.
  unfold add_file. cbn [fst snd]. rewrite bool_decide_false by done.
  apply wp_bind. eapply wp_mk_ialloc; [exact Hb|cbn [length]; lia|by right|]. intros st1 V1 Hb1 Hfb1. cbn [app length] in *.
  set (inum := Z.of_nat (S (length gs)) + 1). destruct (mk_dirent_ok inum (filename f.1) (filename_bytes _ G1)) as [D1 D2].
  apply wp_bind. eapply (wp_iappend st1 V1 _ 0); [exact Hb1|reflexivity|exact D1| | |]; cbn [snd]; rewrite ?D2, ?Hrs.
  { unfold NINODES in Hn. change (MAXFILE * BSIZE) with 274432. lia. }
  { change (Z.of_nat 16) with 16. lia. }
  intros st2 V2 ra2 Hb2. cbn [fst snd] in Hb2. change (<[0%nat := ?x]> (?y :: ?l)) with (x :: l) in Hb2.
  pose proof (bt_cost _ _ _ Hb2) as Hc2. cbn [total_cost snd] in Hc2. rewrite total_cost_app, length_app, D2, Nat2Z.inj_add, Hrs, (made_cost _ _ Hm) in Hc2.
  cbn [total_cost snd length] in Hc2. change (cost (Z.of_nat 0)) with 0 in Hc2. change (Z.of_nat 16) with 16 in Hc2.
  eapply (wp_append_all st2 V2 _ (S (length gs)) (T_FILE, replicate 13 0, [])); [exact Hb2|simpl; by rewrite lookup_app_r, Nat.sub_diag by lia|exact G3| | |];
    cbn [snd length]; rewrite ?Z.add_0_l.
  - exact G4.
  - change (cost (Z.of_nat 0)) with 0. lia.
  - intros st3 V3 a3 Hb3. cbn [fst snd app] in Hb3.
    change (<[S (length gs) := ?x]> (?y :: ?l)) with (y :: <[length gs := x]> l) in Hb3. rewrite insert_app_r_alt, Nat.sub_diag in Hb3 by lia.
    exists V3, ra2, (gs ++ [(T_FILE, a3, concat f.2)]). split.
    + rewrite root_entries_snoc, root_bytes_snoc. cbn [fst snd].
      replace (Z.of_nat (length files) + 2) with inum by (unfold inum; lia). exact Hb3.
    + apply Forall2_app; [done|]. by repeat constructor.
Qed.

Lemma image_cost_app files files' : image_cost files <= image_cost (files ++ files').
Proof.
  unfold image_cost. rewrite length_app, files_cost_app.
  pose proof (cost_mono (16 * (Z.of_nat (length files) + 2)) (16 * (Z.of_nat (length files + length files') + 2)) ltac:(lia)).
  assert (0 <= files_cost files') by (clear; induction files' as [|f fs IH]; cbn [files_cost]; [lia|]; pose proof (cost_nonneg (Z.of_nat (length (concat f.2))) ltac:(lia)); lia).
  lia.
Qed.

Lemma wp_add_files st files files' :
  progress st files -> Forall good_file (files ++ files') -> Z.of_nat (length (files ++ files')) + 1 < NINODES ->
  image_cost (files ++ files') <= FSSIZE ->
  wp (for_each ((fun f => (f.1, Some f.2)) <$> files') add_file) (fun _ st' => progress st' (files ++ files')) st.
Proof.
  revert st files. induction files' as [|f files' IH]; intros st files Hp Hg Hn Hsp.
  - cbn [fmap list_fmap for_each]. apply wp_ret. by rewrite app_nil_r.
  - rewrite fmap_cons. cbn [for_each]. replace (files ++ f :: files') with ((files ++ [f]) ++ files') in * by (by rewrite <- app_assoc).
    pose proof Hg as Hg'. apply Forall_app in Hg' as [[Hg1 Hg2]%Forall_app _]. rewrite Forall_singleton in Hg2.
    pose proof (image_cost_app (files ++ [f]) files'). rewrite !length_app in Hn. cbn [length] in Hn.
    apply wp_bind. eapply wp_mono; [apply (wp_add_file st files f); [done..|lia|lia]|]. intros u st1 Hp1. cbn beta in Hp1.
    apply IH; [done|done|rewrite !length_app; cbn [length]; lia|done].
Qed.

(** ** The empty image *)

Definition blank (st : image) (n : Z) : Prop :=
  im_len st = n /\ (forall b, im_disk st b = zeros) /\ im_freeinode st = 1 /\ im_freeblock st = nmeta.

Lemma wp_blank (Q : unit -> image -> Prop) st :
  blank st 0 -> (forall st', blank st' FSSIZE -> Q tt st') ->
  wp (for_each (seq 0 (Z.to_nat FSSIZE)) (fun i => wsect (Z.of_nat i) zeros)) Q st.
Proof.
  intros Hb HQ. eapply wp_mono.
  - apply (wp_for_each _ _ (fun n st => blank st (Z.of_nat n))); [done|].
    intros i x s' [-> Hi]%lookup_seq (H1 & H2 & H3 & H4). apply wp_modify. unfold blank. cbn [im_len im_disk im_freeinode im_freeblock].
    split_ands; [lia| |done|done]. intros b. unfold vset. by case_decide.
  - intros [] s' Hs. rewrite length_seq in Hs. by apply HQ.
Qed.

Lemma sb_block_ok : length sb_block = Z.to_nat BSIZE /\ Forall byte sb_block /\ ld_superblock sb_block = mkfs_sb.
Proof.
  split_ands; [reflexivity| |reflexivity]. apply Forall_splice; [|apply zeros_ok].
  apply Forall_concat, Forall_fmap, Forall_forall. intros x _. apply le_split_byte.
Qed.

Definition new_view : Z -> list Z := vset (sb_bmapstart mkfs_sb) (used_map (Z.to_nat nmeta)) (vset 1 sb_block (fun _ => zeros)).

Lemma new_view_fs : fs_ok mkfs_sb new_view.
Proof.
  destruct (used_map_ok (Z.to_nat nmeta)) as (U1 & U2 & U3); [change nmeta with 46; change BPB with 8192; lia|].
  destruct sb_block_ok as (S1 & S2 & _). destruct zeros_ok as [Z1 Z2].
  constructor; [apply mkfs_layout| |].
  - apply blocks_ok_vset; [|done|done]. apply blocks_ok_vset; [|done|done]. by intros b.
  - intros b Hb. destruct mkfs_meta as (M1 & M2 & M3 & M4 & _). unfold used. rewrite BBLOCK_mkfs by (rewrite M2, <- M4; done).
    change 45 with (sb_bmapstart mkfs_sb). unfold new_view. rewrite vset_eq. rewrite M4 in Hb. change BPB with 8192.
    rewrite Z.mod_small by lia. rewrite U3 by (change BPB with 8192; lia). intros E. apply bool_decide_eq_false in E. apply mkfs_data. lia.
Qed.

Lemma disk_inode_zeros V inum : V (IBLOCK inum mkfs_sb) = zeros -> disk_inode mkfs_sb V inum = free_inode.
Proof.
  intros E. unfold disk_inode. rewrite E, ld_dinode_at. replace (slice (dinode_off inum) 64 zeros) with (replicate 64 0); [reflexivity|].
  pose proof (dinode_off_bound inum). unfold slice, zeros. rewrite drop_replicate, take_replicate. f_equal. lia.
Qed.

Lemma new_built st : im_len st = FSSIZE -> (forall b, im_disk st b = if decide (b = 1) then sb_block else zeros) ->
  im_freeinode st = 1 -> im_freeblock st = nmeta -> built st new_view [].
Proof.
  intros H1 H2 H3 H4. destruct mkfs_meta as (M1 & M2 & M3 & M4 & _).
  assert (Hother : forall b, b <> 1 -> b <> sb_bmapstart mkfs_sb -> new_view b = zeros).
  { intros b Hb1 Hb2. unfold new_view. by rewrite !vset_ne. }
  constructor; cbn [length]; [|split; [lia|done]|done|done| |done|by rewrite H4| |].
  - constructor; [done|lia| |by rewrite H4; unfold new_view; rewrite vset_eq|apply new_view_fs|].
    + intros b Hb. rewrite H2. case_decide; [subst; unfold new_view; by rewrite vset_ne, vset_eq|]. symmetry. auto.
    + intros b Hb. apply Hother; lia.
  - intros inum Hi. apply disk_inode_zeros. pose proof (IBLOCK_mkfs inum ltac:(unfold inum_ok; lia)). apply Hother; lia.
  - unfold new_view. by rewrite vset_ne, vset_eq.
  - intros b Hb. apply Hother; lia.
Qed.

(** ** The root directory as the kernel sees it *)

Lemma fbytes_slice V addrs c (off n : nat) :
  filled V addrs c -> (off + n <= length c)%nat -> fbytes V addrs (Z.of_nat off) n = slice off n c.
Proof.
  intros Hf Hn. apply list_eq. intros i. unfold fbytes. rewrite list_lookup_fmap. destruct (decide (i < n)%nat) as [Hi|Hi].
  - rewrite lookup_seq_lt by done. cbn [fmap option_fmap option_map]. rewrite (fi_bytes _ _ _ Hf) by lia. unfold slice.
    rewrite lookup_take_lt, lookup_drop by done. replace (Z.to_nat (Z.of_nat off + Z.of_nat (0 + i))) with (off + i)%nat by lia.
    symmetry. apply list_lookup_lookup_total_lt. lia.
  - rewrite lookup_seq_ge by lia. unfold slice. by rewrite lookup_take_ge by lia.
Qed.

Lemma slice_root es i e :
  Forall (fun e => Forall byte e.2) es -> es !! i = Some e -> slice (16 * i) 16 (root_bytes es) = mk_dirent e.1 e.2.
Proof.
  intros Hes. revert i. induction Hes as [|d es Hd Hes IH]; intros [|i] Hi; try done; unfold root_bytes; rewrite fmap_cons; cbn [concat]; fold (root_bytes es).
  - injection Hi as ->. destruct (mk_dirent_ok e.1 e.2 Hd) as [_ Hl]. unfold slice. rewrite drop_0. rewrite <- Hl at 1. apply take_app_length.
  - destruct (mk_dirent_ok d.1 d.2 Hd) as [_ Hl]. unfold slice. rewrite drop_app_ge by lia.
    replace (16 * S i - length (mk_dirent d.1 d.2))%nat with (16 * i)%nat by lia. by apply IH.
Qed.

Lemma dir_entry_in V addrs es i e :
  filled V addrs (root_bytes es) -> Forall (fun e => Forall byte e.2 /\ 0 < e.1 < 2 ^ 16) es -> es !! i = Some e ->
  dir_entry V addrs (Z.of_nat i * 16) = mkDirent e.1 (name_field e.2).
Proof.
  intros Hf Hes Hi. assert (Hb : Forall (fun e => Forall byte e.2) es) by (eapply Forall_impl; [exact Hes|]; by intros ? []).
  pose proof (root_bytes_length es Hb) as Hl. pose proof (lookup_lt_Some _ _ _ Hi) as Hlt.
  unfold dir_entry. replace (Z.of_nat i * 16) with (Z.of_nat (16 * i)) by lia.
  rewrite (fbytes_slice _ _ (root_bytes es)) by (done || lia). rewrite (slice_root es i e) by done.
  rewrite Forall_lookup in Hes. destruct (Hes _ _ Hi) as [He Hr]. destruct (name_field_ok e.2 He) as (_ & N2 & _).
  unfold mk_dirent. rewrite xshort_id by lia. apply ld_st_dirent; [lia|done].
Qed.

(** The bytes from the end of the contents to the end of the last block. *)
Lemma last_block V addrs c x :
  filled V addrs c -> let n := Z.of_nat (length c) in n mod BSIZE <> 0 -> n <= x < (n / BSIZE + 1) * BSIZE ->
  faddr V addrs (x / BSIZE) <> 0 /\ fbyte V addrs x = 0.
Proof.
  intros Hf n Hm Hx. pose proof (fi_max _ _ _ Hf) as Hmax. fold n in Hmax.
  pose proof (Z.mod_pos_bound n BSIZE eq_refl) as Hb. pose proof (Z.div_mod n BSIZE ltac:(done)) as Hd.
  assert (Ex : x / BSIZE = n / BSIZE) by (symmetry; apply (Z.div_unique_pos _ _ _ (x - n / BSIZE * BSIZE)); lia).
  assert (Hlt : n / BSIZE < MAXFILE).
  { destruct (decide (n / BSIZE < MAXFILE)) as [|Hge]; [done|]. assert (HB : BSIZE = 1024) by done. rewrite HB in *. nia. }
  assert (H0 : 0 <= n / BSIZE) by (apply Z.div_pos; [lia|done]).
  assert (Hne : faddr V addrs (x / BSIZE) <> 0) by (rewrite Ex; apply (fi_blocks _ _ _ Hf); [lia|fold n; lia]).
  split; [done|]. apply (fi_tail _ _ _ Hf); [fold n; unfold BSIZE in *; nia|done].
Qed.

Lemma dir_entry_out V addrs c i :
  filled V addrs c -> let n := Z.of_nat (length c) in n mod BSIZE <> 0 -> n <= Z.of_nat i * 16 ->
  Z.of_nat i * 16 + 16 <= (n / BSIZE + 1) * BSIZE -> de_inum (dir_entry V addrs (Z.of_nat i * 16)) = 0.
Proof.
  intros Hf n Hm H1 H2. unfold dir_entry. replace (fbytes V addrs (Z.of_nat i * 16) 16) with (replicate 16 0); [reflexivity|].
  symmetry. apply list_eq. intros j. unfold fbytes. rewrite list_lookup_fmap. destruct (decide (j < 16)%nat) as [Hj|Hj].
  - rewrite lookup_seq_lt, lookup_replicate_2 by done. cbn [fmap option_fmap option_map]. f_equal.
    apply (last_block V addrs c); [done|done|]. fold n. lia.
  - rewrite lookup_seq_ge by lia. symmetry. apply lookup_replicate_None. lia.
Qed.

(** Searching the offsets is searching the entries. *)
Lemma find_offs (P : Z -> Prop) `{!forall x, Decision (P x)} (R : Z * list Z -> Prop) `{!forall x, Decision (R x)} es k m :
  (forall i e, es !! i = Some e -> P (Z.of_nat (k + i) * 16) <-> R e) ->
  (forall i, (length es <= i < length es + m)%nat -> ~ P (Z.of_nat (k + i) * 16)) ->
  list_find P ((fun i => Z.of_nat i * 16) <$> seq k (length es + m)) =
    (fun r => (r.1, Z.of_nat (k + r.1) * 16)) <$> list_find R es.
Proof.
  revert k. induction es as [|e es IH]; intros k H1 H2.
  - cbn [list_find fmap option_fmap option_map]. apply list_find_None, Forall_fmap, Forall_forall.
    intros i Hi%elem_of_seq. simpl in *. specialize (H2 (i - k)%nat ltac:(lia)). by replace (k + (i - k))%nat with i in H2 by lia.
  - cbn [length Nat.add seq]. rewrite fmap_cons. cbn [list_find]. pose proof (H1 0%nat e eq_refl) as Hk. rewrite Nat.add_0_r in Hk.
    destruct (decide (P (Z.of_nat k * 16))) as [Hp|Hp]; destruct (decide (R e)) as [Hr|Hr]; try tauto.
    + cbn. by rewrite Nat.add_0_r.
    + rewrite (IH (S k)).
      * destruct (list_find R es) as [[i e']|]; [|done]. cbn. f_equal. f_equal. lia.
      * intros i e' Hi. rewrite <- (H1 (S i) e' Hi). by replace (k + S i)%nat with (S k + i)%nat by lia.
      * intros i Hi. replace (S k + i)%nat with (k + S i)%nat by lia. apply H2. simpl. lia.
Qed.

Lemma dir_find_root V ip es name :
  let n := Z.of_nat (length (root_bytes es)) in
  filled V (i_addrs ip) (root_bytes es) -> Forall (fun e => Forall byte e.2 /\ 0 < e.1 < 2 ^ 16) es ->
  n mod BSIZE <> 0 -> i_size ip = (n / BSIZE + 1) * BSIZE ->
  dir_find V ip name = (fun r => (r.2.1, Z.of_nat r.1 * 16)) <$> list_find (fun e => dname e.2 = dname name) es.
Proof.
  intros n Hf Hes Hm Hsz. assert (Hb : Forall (fun e => Forall byte e.2) es) by (eapply Forall_impl; [exact Hes|]; by intros ? []).
  pose proof (root_bytes_length es Hb) as Hl. assert (HB : BSIZE = 1024) by done.
  pose proof (Z.mod_pos_bound n BSIZE eq_refl) as Hmb. pose proof (Z.div_mod n BSIZE ltac:(done)) as Hd.
  unfold dir_find, dirent_offs.
  assert (Ek : exists m, Z.to_nat ((i_size ip + 15) / 16) = (length es + m)%nat /\ i_size ip = Z.of_nat (length es + m) * 16).
  { exists (Z.to_nat (i_size ip / 16) - length es)%nat. rewrite Hsz, HB in *. unfold n in *.
    replace (((Z.of_nat (length (root_bytes es)) / 1024 + 1) * 1024 + 15) / 16) with ((Z.of_nat (length (root_bytes es)) / 1024 + 1) * 64)
      by (Z.to_euclidean_division_equations; lia).
    replace ((Z.of_nat (length (root_bytes es)) / 1024 + 1) * 1024 / 16) with ((Z.of_nat (length (root_bytes es)) / 1024 + 1) * 64)
      by (Z.to_euclidean_division_equations; lia). lia. }
  destruct Ek as (m & -> & Hm16).
  rewrite (find_offs _ (fun e => dname e.2 = dname name) es 0 m).
  - destruct (list_find (fun e => dname e.2 = dname name) es) as [[i e]|] eqn:E; [|done].
    apply list_find_Some in E as (Hi & _ & _). cbn [fmap option_fmap option_map fst snd Nat.add]. by rewrite (dir_entry_in V _ es i e).
  - intros i e Hi. unfold entry_for. cbn [Nat.add]. rewrite (dir_entry_in V _ es i e) by done. cbn [de_inum de_name].
    rewrite Forall_lookup in Hes. destruct (Hes _ _ Hi) as [He Hr]. destruct (name_field_ok e.2 He) as (-> & _ & _). split; [tauto|]. intros ?. split; [lia|done].
  - intros i Hi [Hne _]. apply Hne. cbn [Nat.add]. eapply dir_entry_out; [exact Hf|exact Hm|fold n; lia|fold n; lia].
Qed.

(** ** The finished image *)

(** The addresses of the file of an inode on the disk [D]. *)
Definition addrs_of (D : Z -> list Z) (inum : Z) : list Z := di_addrs (disk_inode mkfs_sb D inum).

(** The disk [D] holds the files. *)
Record mkfs_image (D : Z -> list Z) (files : list (list Z * list (list Z))) : Prop := mkMkfsImage {
  mi_super : ld_superblock (D 1) = mkfs_sb;
  mi_fs : fs_ok mkfs_sb D;
  mi_log : forall b, 2 <= b < 32 -> D b = zeros;
  mi_files : forall i f, files !! i = Some f -> exists addrs,
    disk_inode mkfs_sb D (Z.of_nat i + 2) = mkDinode T_FILE 0 0 1 (Z.of_nat (length (concat f.2))) addrs /\
    file_ok mkfs_sb D addrs /\ has_bytes D addrs 0 (Z.of_nat (length (concat f.2))) /\
    fbytes D addrs 0 (length (concat f.2)) = concat f.2 /\ Z.of_nat (length (concat f.2)) <= MAXFILE * BSIZE;
  mi_root : exists addrs size,
    disk_inode mkfs_sb D ROOTINO = mkDinode T_DIR 0 0 1 size addrs /\
    file_ok mkfs_sb D addrs /\ has_bytes D addrs 0 size /\ size mod 16 = 0 /\ size <= MAXFILE * BSIZE /\
    forall ip name, i_addrs ip = addrs -> i_size ip = size -> dir_find D ip name =
      (fun r => (r.2.1, Z.of_nat r.1 * 16)) <$> list_find (fun e => dname e.2 = dname name) (root_entries files);
  mi_apart : forall i j b, 0 < i <= Z.of_nat (length files) + 1 -> 0 < j <= Z.of_nat (length files) + 1 ->
    owns D (addrs_of D i) b -> owns D (addrs_of D j) b -> i = j;
  mi_free : forall inum, Z.of_nat (length files) + 1 < inum < NINODES -> di_type (disk_inode mkfs_sb D inum) = 0
}.

Lemma filled_has_bytes V addrs c : filled V addrs c -> has_bytes V addrs 0 (Z.of_nat (length c)).
Proof.
  intros Hf x Hx. pose proof (fi_max _ _ _ Hf). apply (fi_blocks _ _ _ Hf); [apply file_block; lia|].
  pose proof (Z.mod_pos_bound x BSIZE eq_refl). pose proof (Z.div_mod x BSIZE ltac:(done)). lia.
Qed.

Lemma filled_fbytes V addrs c : filled V addrs c -> fbytes V addrs 0 (length c) = c.
Proof. intros Hf. change 0 with (Z.of_nat 0). rewrite (fbytes_slice V addrs c 0 (length c) Hf) by lia. unfold slice. by rewrite drop_0, take_ge by lia. Qed.

Lemma root_entries_ok files :
  Forall good_file files -> Z.of_nat (length files) + 1 < NINODES ->
  Forall (fun e => Forall byte e.2 /\ 0 < e.1 < 2 ^ 16) (root_entries files).
Proof.
  intros Hg Hn. apply Forall_and. split; [by apply root_entries_bytes|]. unfold root_entries, NINODES in *.
  constructor; [done|]. constructor; [done|]. apply Forall_lookup. intros i e He. rewrite list_lookup_imap in He.
  apply fmap_Some in He as (f & Hf%lookup_lt_Some & ->). cbn [fst]. lia.
Qed.

Lemma fin_inum : inum_ok ROOTINO.
Proof. unfold inum_ok, ROOTINO, NINODES. lia. Qed.

(** The disk is the view once the free map has been written. *)
Section finish.
Context (st : image) (V D : Z -> list Z) (ra : list Z) (gs : list entry_file) (files : list (list Z * list (list Z))) (size : Z).
Let root : entry_file := (T_DIR, ra, root_bytes (root_entries files)).
Let n := Z.of_nat (length (root_bytes (root_entries files))).
Let V2 := put_inode mkfs_sb ROOTINO (mkDinode T_DIR 0 0 1 size ra) V.
Hypothesis Hbt : built st V (root :: gs).
Hypothesis Hm : Forall2 made_of gs files.
Hypothesis Hgood : Forall good_file files.
Hypothesis Hcount : Z.of_nat (length files) + 1 < NINODES.
Hypothesis Hodd : n mod BSIZE <> 0.
Hypothesis Hsize : size = (n / BSIZE + 1) * BSIZE.
Hypothesis HD : forall b, D b = V2 b.

Lemma fin_root : file_in V root.
Proof. pose proof (bt_files _ _ _ Hbt) as H. by apply Forall_cons in H as []. Qed.

Lemma fin_size : n < size <= MAXFILE * BSIZE.
Proof.
  pose proof (fi_max _ _ _ (fn_filled _ _ fin_root)) as Hmax. cbn [snd root] in Hmax. fold n in Hmax.
  pose proof (Z.mod_pos_bound n BSIZE eq_refl). pose proof (Z.div_mod n BSIZE ltac:(done)). rewrite Hsize.
  change MAXFILE with 268 in *. unfold BSIZE in *. nia.
Qed.

Lemma fin_dinode : dinode_ok (mkDinode T_DIR 0 0 1 size ra).
Proof.
  destruct fin_root as [_ F2 F3]. pose proof fin_size as Hs. assert (0 <= n) by lia. change (MAXFILE * BSIZE) with 274432 in Hs.
  constructor; cbn [di_type di_major di_minor di_nlink di_size di_addrs]; unfold T_DIR; try lia; [|done].
  apply (fo_len _ _ _ (fi_file _ _ _ F3)).
Qed.

Lemma fin_used b : used mkfs_sb D b = used mkfs_sb V2 b.
Proof. unfold used. by rewrite HD. Qed.

Lemma fin_file f : file_in V f -> file_in D f /\ forall b, owns D f.1.2 b <-> owns V f.1.2 b.
Proof.
  intros Hf. pose proof (pi_file V ROOTINO (mkDinode T_DIR 0 0 1 size ra) fin_inum f Hf) as [F1 F2 F3]. fold V2 in F3. split.
  - constructor; [done|done|]. apply (keep_filled V2); [apply F3|by intros b _|intros b _; by rewrite fin_used|done].
  - intros b. rewrite (keep_owns V2) by (by intros b' _). by apply pi_owns; [apply fin_inum|].
Qed.

Lemma fin_inode x : inum_ok x -> disk_inode mkfs_sb D x = if decide (x = ROOTINO) then mkDinode T_DIR 0 0 1 size ra else disk_inode mkfs_sb V x.
Proof.
  intros Hx. unfold disk_inode at 1. rewrite HD. apply (pi_inode st V); [apply Hbt|apply fin_inum|apply fin_dinode|done].
Qed.

Lemma fin_fs : fs_ok mkfs_sb D.
Proof.
  pose proof (vw_fs _ _ (bt_view _ _ _ Hbt)) as [L1 L2 L3]. pose proof (put_inode_ok mkfs_sb V ROOTINO _ L2 (dk_len _ fin_dinode)) as L4.
  constructor; [done|intros b; rewrite HD; apply L4|]. intros b Hb. rewrite fin_used. unfold V2.
  rewrite put_inode_used; [by apply L3|done|apply rw_range, fin_inum|done].
Qed.

(** The file of each inode in use. *)
Lemma fin_addrs x : 0 < x <= Z.of_nat (length files) + 1 ->
  exists f, (root :: gs) !! (Z.to_nat x - 1)%nat = Some f /\ addrs_of D x = f.1.2 /\ file_in V f.
Proof.
  intros Hx. pose proof (Forall2_length _ _ _ Hm) as Hl. destruct (lookup_lt_is_Some_2 (root :: gs) (Z.to_nat x - 1)) as [f Hf]; [simpl; lia|].
  exists f. pose proof (bt_files _ _ _ Hbt) as H. rewrite Forall_lookup in H. split_ands; [done| |by eapply H].
  unfold addrs_of. rewrite fin_inode by (unfold inum_ok; lia). case_decide as E.
  - subst x. injection Hf as <-. done.
  - pose proof (bt_inode _ _ _ Hbt _ _ Hf) as Hi. replace (Z.of_nat (Z.to_nat x - 1) + 1) with x in Hi by lia. by rewrite Hi.
Qed.

Lemma fin_image : mkfs_image D files.
Proof.
  pose proof (Forall2_length _ _ _ Hm) as Hl. destruct mkfs_meta as (M1 & M2 & M3 & _). pose proof fin_size as Hs.
  pose proof fin_root as Hr. destruct (fin_file root Hr) as [[R1 R2 R3] _]. cbn [fst snd root] in R3.
  constructor.
  - rewrite HD. unfold V2. rewrite pi_meta by (apply fin_inum || lia). rewrite (bt_super _ _ _ Hbt). apply sb_block_ok.
  - apply fin_fs.
  - intros b Hb. rewrite HD. unfold V2. rewrite pi_meta by (apply fin_inum || lia). by apply (bt_log _ _ _ Hbt).
  - intros i f Hf. pose proof (lookup_lt_Some _ _ _ Hf) as Hlt. destruct (Forall2_lookup_r _ _ _ _ _ Hm Hf) as (g & Hg & G1 & G2).
    pose proof (bt_files _ _ _ Hbt) as Hall. rewrite Forall_lookup in Hall. pose proof (Hall (S i) g Hg) as Hgi.
    destruct (fin_file g Hgi) as [[_ _ F3] _]. exists g.1.2. rewrite fin_inode by (unfold inum_ok; lia). rewrite decide_False by (unfold ROOTINO; lia).
    pose proof (bt_inode _ _ _ Hbt (S i) g Hg) as Hi. replace (Z.of_nat (S i) + 1) with (Z.of_nat i + 2) in Hi by lia. rewrite Hi.
    unfold file_inode. rewrite G1, <- G2. split_ands; [done|apply F3|by apply filled_has_bytes|by apply filled_fbytes|apply F3].
  - exists ra, size. rewrite fin_inode by apply fin_inum. rewrite decide_True by done. split_ands; [done|apply R3| | |lia|].
    + intros x Hx. rewrite Z.add_0_l in Hx. destruct (decide (x < n)) as [Hlt|Hge].
      * apply (filled_has_bytes _ _ _ R3). fold n. lia.
      * apply (last_block D ra _ x R3); [exact Hodd|]. fold n. lia.
    + rewrite Hsize. unfold BSIZE. by rewrite Z.mul_comm, <- (Z.mul_assoc 16 64), Z.mul_comm, Z.mod_mul.
    + intros ip name <- Es. apply dir_find_root; [done|by apply root_entries_ok|exact Hodd|]. fold n. by rewrite Es.
  - intros i j b Hi Hj Ho1 Ho2. destruct (fin_addrs i Hi) as (f & Hf & Ef & Hfi). destruct (fin_addrs j Hj) as (g & Hg & Eg & Hgi).
    rewrite Ef in Ho1. rewrite Eg in Ho2. apply (fin_file f Hfi) in Ho1. apply (fin_file g Hgi) in Ho2.
    pose proof (bt_apart _ _ _ Hbt _ _ _ _ _ Hf Hg Ho1 Ho2). lia.
  - intros inum Hi. rewrite fin_inode by (unfold inum_ok; lia). rewrite decide_False by (unfold ROOTINO; lia).
    rewrite (bt_free _ _ _ Hbt); [done|]. simpl. lia.
Qed.
End finish.

Lemma progress_start st V :
  built st V [(T_DIR, replicate 13 0, [])] -> im_freeblock st = nmeta ->
  wp (iappend ROOTINO (mk_dirent ROOTINO [46]) ;* iappend ROOTINO (mk_dirent ROOTINO [46; 46])) (fun _ st' => progress st' []) st.
Proof.
  intros Hb Hfb. destruct (mk_dirent_ok ROOTINO [46]) as [D1 D2]; [by repeat constructor|].
  destruct (mk_dirent_ok ROOTINO [46; 46]) as [E1 E2]; [by repeat constructor|].
  apply wp_bind. eapply (wp_iappend st V _ 0); [exact Hb|reflexivity|exact D1|rewrite D2; done|rewrite D2, Hfb; vm_compute; discriminate|].
  intros st1 V1 a1 Hb1. pose proof (bt_cost _ _ _ Hb1) as Hc. cbn [fst snd app insert list_insert total_cost] in Hb1, Hc. rewrite D2 in Hc.
  eapply (wp_iappend st1 V1 _ 0); [exact Hb1|reflexivity|exact E1| | |]; cbn [snd]; rewrite ?D2, ?E2; [done|rewrite Hc; vm_compute; discriminate|].
  intros st2 V2 a2 Hb2. exists V2, a2, []. split; [|constructor]. exact Hb2.
Qed.

Lemma wp_finish st files :
  progress st files -> Forall good_file files -> Z.of_nat (length files) + 1 < NINODES -> ((length files + 2) mod 64 <> 0)%nat ->
  wp (let* din := rinode ROOTINO in
      winode ROOTINO (set_size (xint ((xint (di_size din) / BSIZE + 1) * BSIZE)) din) ;*
      let* used := gets im_freeblock in
      mk_balloc used) (fun _ st' => mkfs_image (im_disk st') files) st.
Proof.
  intros (V & ra & gs & Hb & Hm) Hgood Hcount Hodd. pose proof (bt_view _ _ _ Hb) as Hv. pose proof fin_inum as Hin.
  pose proof (root_bytes_size files Hgood) as Hrs. set (n := Z.of_nat (length (root_bytes (root_entries files)))) in *.
  assert (HB : BSIZE = 1024) by done. assert (Hlen : Z.of_nat (length files) < 200) by (unfold NINODES in Hcount; lia).
  assert (Hodd' : n mod BSIZE <> 0).
  { rewrite Hrs, HB. intros E. apply Hodd. apply Nat2Z.inj. rewrite Nat2Z.inj_mod, Nat2Z.inj_add. revert E. Z.to_euclidean_division_equations. lia. }
  set (size := (n / BSIZE + 1) * BSIZE).
  assert (Hn0 : 0 <= n / BSIZE) by (apply Z.div_pos; lia).
  assert (Hs32 : 0 <= size < 2 ^ 32) by (unfold size; rewrite Hrs, HB; Z.to_euclidean_division_equations; lia).
  apply wp_bind. eapply wp_rinode; [exact Hv|exact Hin|]. pose proof (bt_inode _ _ _ Hb 0%nat _ eq_refl) as Ei. change (Z.of_nat 0 + 1) with ROOTINO in Ei.
  rewrite Ei. cbn [file_inode di_size fst snd]. fold n. rewrite (xint_id n) by lia. fold size. rewrite xint_id by done.
  change (set_size size (file_inode (T_DIR, ra, root_bytes (root_entries files)))) with (mkDinode T_DIR 0 0 1 size ra).
  pose proof (bt_files _ _ _ Hb) as [Hroot _]%Forall_cons.
  apply wp_bind. eapply wp_winode; [exact Hv|exact Hin|apply (fo_len _ _ _ (fi_file _ _ _ (fn_filled _ _ Hroot)))|]. intros st1 Hv1 Hfb1 _.
  wp_steps. unfold mk_balloc. pose proof (vw_range _ _ Hv1) as Hr1. rewrite (proj2 (Z.ltb_lt _ _)) by (destruct mkfs_meta as (_ & M2 & _); lia).
  cbn [negb]. apply wp_modify. cbn [im_disk].
  eapply (fin_image st V _ ra gs files size); [exact Hb|exact Hm|exact Hgood|exact Hcount|exact Hodd'|reflexivity|].
  intros b. unfold vset. case_decide as E; [subst b; by rewrite (vw_map _ _ Hv1)|]. by apply (vw_same _ _ Hv1).
Qed.

Lemma wp_mkfs files :
  Forall good_file files -> Z.of_nat (length files) + 1 < NINODES -> image_cost files <= FSSIZE -> ((length files + 2) mod 64 <> 0)%nat ->
  wp (mkfs_main ((fun f => (f.1, Some f.2)) <$> files)) (fun _ st => mkfs_image (im_disk st) files) no_image.
Proof.
  intros Hgood Hcount Hsp Hodd. unfold mkfs_main. apply wp_bind, wp_modify. apply wp_bind, wp_blank; [done|]. intros st1 (B1 & B2 & B3 & B4).
  apply wp_bind, wp_modify. set (st2 := mkImage _ _ _ _).
  assert (Hb : built st2 new_view []).
  { apply new_built; cbn [st2 im_len im_disk im_freeinode im_freeblock]; [rewrite B1; reflexivity| |done|done].
    intros b. unfold vset. case_decide; [done|apply B2]. }
  apply wp_bind. eapply wp_mk_ialloc; [exact Hb|done|by left|]. intros st3 V3 Hb3 Hfb3. cbn [app length] in *.
  change (Z.of_nat 0 + 1) with ROOTINO. change (negb (ROOTINO =? ROOTINO)) with false. cbv iota.
  apply wp_assoc, wp_bind. eapply wp_mono; [apply (progress_start st3 V3 Hb3); rewrite Hfb3; exact B4|]. intros u st4 Hp4.
  apply wp_bind. eapply wp_mono; [apply (wp_add_files st4 [] files); done|]. intros u5 st5 Hp5. by apply wp_finish.
Qed.

(** ** Properties *)


Lemma bytes_check l : forallb (fun x => (0 <=? x) && (x <? 256)) l = true -> Forall byte l.
Proof. intros H. apply Forall_forall. intros x Hx%list_elem_of_In. rewrite forallb_forall in H. specialize (H x Hx). bool_simpl. split; lia. Qed.

(** The file user/_cat with the contents 1, 2, 3. *)
Definition sample_files : list (list Z * list (list Z)) := [([117; 115; 101; 114; 47; 95; 99; 97; 116], [[1; 2]; [3]])].

Lemma sample_files_good : Forall good_file sample_files.
Proof.
  constructor; [|constructor]. constructor; [by apply bytes_check|apply (bool_decide_unpack _); reflexivity| |vm_compute; discriminate].
  constructor; [by apply bytes_check|]. constructor; [by apply bytes_check|constructor].
Qed.


(** With as many files as fill a block of the root directory, the directory gets a size
    that covers a block it does not have. *)
Lemma mkfs_root_hole :
  match mkfs_main (replicate 62 ([97], Some [])) no_image with
  | Ok _ st => di_size (disk_inode mkfs_sb (im_disk st) ROOTINO) = 2048 /\ faddr (im_disk st) (addrs_of (im_disk st) ROOTINO) 1 = 0
  | _ => False
  end.
Proof. vm_compute. split; reflexivity. Qed.
