(* ===== verification/Image.v ===== *)
(** * The kernel on the image that mkfs writes: the files of the image can be found by their path and read *)

From S2P Require Import Prelude State Spin Sleep Bio Log Txn Strings Kalloc Vm FsBlock FsInode FsFile FsWrite FsDir Path Mkfs.

(** The inodes in use in an image *)
Definition in_image (files : list (list Z * list (list Z))) (n : Z) : Prop := 1 <= n <= Z.of_nat (length files) + 1.

(** A name that a path can have as an element, and that only the file [i] has. *)
Record own_name (files : list (list Z * list (list Z))) (i : nat) (name : list Z) : Prop := mkOwnName {
  on_some : name <> [];
  on_byte : Forall byte name;
  on_nul : Forall (fun c => c <> 0) name;
  on_slash : slash ∉ name;
  on_dots : dname name <> [46] /\ dname name <> [46; 46];
  on_only j g : files !! j = Some g -> dname (filename g.1) = dname name <-> j = i
}.

(** ** Lemmas *)

Lemma split_path_elem name cur : slash ∉ name -> name <> [] \/ cur <> [] -> split_path cur name = [cur ++ name].
Proof.
  revert cur. induction name as [|c name IH]; intros cur Hs Hn; simpl.
  - rewrite app_nil_r. destruct (decide (cur = [])); [tauto|done].
  - apply not_elem_of_cons in Hs as [Hc Hs]. rewrite (proj2 (Z.eqb_neq _ _)) by congruence.
    rewrite IH by (done || by right; destruct cur). by rewrite <- app_assoc.
Qed.

Lemma elems_root_file name : slash ∉ name -> name <> [] -> elems (slash :: name) = [name].
Proof. intros Hs Hn. unfold elems. simpl. by rewrite split_path_elem by (done || by left). Qed.

Lemma root_entries_inum files e : e ∈ root_entries files -> in_image files e.1.
Proof.
  unfold root_entries, in_image. rewrite !elem_of_cons. intros [->|[->|He]]; [simpl; lia|simpl; lia|].
  apply elem_of_lookup_imap in He as (i & f & -> & Hf%lookup_lt_Some). simpl. lia.
Qed.

Section image.
Context (D : Z -> list Z) (files : list (list Z * list (list Z))).
Hypothesis HD : mkfs_image D files.
Hypothesis Hcount : Z.of_nat (length files) + 1 < NINODES.

Lemma image_node n : in_image files n ->
  n = ROOTINO \/ exists i f, files !! i = Some f /\ n = Z.of_nat i + 2.
Proof.
  intros Hn. unfold in_image in Hn. destruct (decide (n = 1)) as [->|Hne]; [by left|]. right.
  destruct (lookup_lt_is_Some_2 files (Z.to_nat (n - 2))) as [f Hf]; [lia|]. exists (Z.to_nat (n - 2)), f. split; [done|]. lia.
Qed.

Lemma root_find name :
  node_find mkfs_sb D ROOTINO name = (fun r => r.2.1) <$> list_find (fun e => dname e.2 = dname name) (root_entries files).
Proof.
  destruct (mi_root _ _ HD) as (addrs & size & Er & _ & _ & _ & _ & Hf). unfold node_find.
  rewrite (Hf (node mkfs_sb D ROOTINO) name); [by destruct (list_find _ _)| |].
  - change (di_addrs (disk_inode mkfs_sb D ROOTINO) = addrs). by rewrite Er.
  - change (di_size (disk_inode mkfs_sb D ROOTINO) = size). by rewrite Er.
Qed.

(** The image is a tree: a root directory with files. *)
Lemma image_tree : tree mkfs_sb D (in_image files).
Proof.
  destruct (mi_root _ _ HD) as (addrs & size & Er & R1 & R2 & R3 & R4 & _).
  assert (Hfile : forall i f, files !! i = Some f -> exists len a, disk_inode mkfs_sb D (Z.of_nat i + 2) = mkDinode T_FILE 0 0 1 len a).
  { intros i f Hf. destruct (mi_files _ _ HD i f Hf) as (a & E & _). eauto. }
  assert (Hdir : forall n, in_image files n -> node_type mkfs_sb D n = T_DIR -> n = ROOTINO).
  { intros n [->|(i & f & Hf & ->)]%image_node; [done|]. destruct (Hfile i f Hf) as (len & a & E). unfold node_type. rewrite E. done. }
  constructor.
  - apply HD.
  - intros n Hn. unfold in_image in Hn. change (sb_ninodes mkfs_sb) with NINODES. lia.
  - intros n [->|(i & f & Hf & ->)]%image_node; unfold node_type; [by rewrite Er|]. destruct (Hfile i f Hf) as (len & a & ->). done.
  - intros n [->|(i & f & Hf & ->)]%image_node; [by rewrite Er|]. destruct (Hfile i f Hf) as (len & a & ->). done.
  - intros n Hn ->%Hdir; [|done]. by rewrite Er.
  - intros n Hn ->%Hdir; [|done]. by rewrite Er.
  - intros n Hn ->%Hdir; [|done]. by rewrite Er.
  - intros n name m Hn ->%Hdir; [|done]. rewrite root_find. intros ([j e] & Hj & ->)%fmap_Some. apply list_find_Some in Hj as (Hj & _).
    apply root_entries_inum. by eapply list_elem_of_lookup_2.
Qed.

(** The path of a file leads to its inode. *)
Lemma image_resolve i f name :
  files !! i = Some f -> own_name files i name -> resolve mkfs_sb D false ROOTINO (elems (slash :: name)) = Some (Z.of_nat i + 2).
Proof.
  intros Hf [N1 N2 N3 N4 [N5 N6] N7]. rewrite elems_root_file by done. cbn [resolve andb]. destruct (mi_root _ _ HD) as (addrs & size & Er & _).
  unfold node_type. rewrite Er. cbn [di_type]. change (negb (T_DIR =? T_DIR)) with false. cbv iota. rewrite root_find.
  assert (E : list_find (fun e => dname e.2 = dname name) (root_entries files) = Some (S (S i), (Z.of_nat i + 2, filename f.1))).
  { apply list_find_Some. split_ands.
    - simpl. by rewrite list_lookup_imap, Hf.
    - cbn [snd]. by apply (N7 i f Hf).
    - intros [|[|j]] y Hy Hlt; simpl in Hy; [injection Hy as <-; intros Hd; by apply N5|injection Hy as <-; intros Hd; by apply N6|].
      rewrite list_lookup_imap in Hy. apply fmap_Some in Hy as (g & Hg & ->). cbn [snd]. intros Hd. apply (N7 j g Hg) in Hd. lia. }
  by rewrite E.
Qed.
End image.

Lemma fbytes_sub V addrs c off m :
  fbytes V addrs 0 (length c) = c -> (off + m <= length c)%nat -> fbytes V addrs (Z.of_nat off) m = slice off m c.
Proof.
  intros Hc Hl. unfold slice. rewrite <- Hc at 1. replace (length c) with (off + (m + (length c - off - m)))%nat by lia.
  rewrite !fbytes_app. rewrite drop_app_length' by (symmetry; apply length_fbytes). rewrite take_app_length' by (symmetry; apply length_fbytes). done.
Qed.

(** ** Properties *)

(** C13: what mkfs puts into the image the kernel finds and reads.  In a kernel whose disk
    is the image of [files], the path of a file leads to its inode, and reading the inode
    gives the bytes of the file, from the offset up to its end. *)
Theorem image_readable D files i f name k me pr W r0 off n :
  mkfs_image D files -> Z.of_nat (length files) + 1 < NINODES -> files !! i = Some f -> own_name files i name ->
  walking me pr mkfs_sb D W (in_image files) r0 (length (k_itable k)) k [] None -> spare r0 (length (k_itable k)) -> (size W < NBUF)%nat ->
  Z.of_nat (off + n) <= Z.of_nat (length (concat f.2)) ->
  wp (let* r := namei (slash :: name) in
      let* j := of_opt r in
      ilock j ;*
      readi j ToLocal (Z.of_nat off) (Z.of_nat n))
    (fun r _ => r = (Z.of_nat n, slice off n (concat f.2))) k.
Proof.
  intros HD Hc Hf Hname Hw Hs Hfit Hlen. pose proof (image_tree D files HD Hc) as Ht. destruct (mi_files _ _ HD i f Hf) as (addrs & Ei & F1 & F2 & F3 & F4).
  unfold namei. wp_steps. eapply (wp_namex _ _ _ _ _ _ _ _ Ht Hfit Hs _ _ _ _ ROOTINO); [exact Hw| | | | | |].
  { split; [unfold in_image, ROOTINO; lia|]. done. }
  { constructor; [unfold byte, slash; lia|apply Hname]. }
  { constructor; [done|apply Hname]. }
  { by repeat constructor. }
  { done. }
  intros r k1. unfold arrived. rewrite (image_resolve D files HD i f name Hf Hname). intros (Hin & j & Hj & W1 & E1 & _). wp_steps. rewrite Hj.
  eapply wp_of_opt; [done|]. wp_steps. eapply (wp_ilock_walk _ _ _ _ _ _ _ _ Ht Hfit Hs); [exact W1|left|exact Hin|exact E1|].
  intros k2 W2 (x & Hx & Dx & Ix & Ex) _. rewrite Ei in Ex. injection Ex as X1 X2 X3 X4 X5 X6. pose proof (wa_txn _ _ _ _ _ _ _ _ _ _ _ W2) as T2.
  change (MAXFILE * BSIZE) with 274432 in F4.
  eapply (wp_readi_local k2 me pr D W j x); try done; rewrite ?(wa_sb _ _ _ _ _ _ _ _ _ _ _ W2), ?X5, ?X6; try done; try lia.
  - apply HD.
  - change (MAXFILE * BSIZE) with 274432. lia.
  - intros k3 _ _. assert (Er : read_len (Z.of_nat (length (concat f.2))) (Z.of_nat off) (Z.of_nat n) = Z.of_nat n).
    { unfold read_len, u32. rewrite Z.mod_small by lia. rewrite !(proj2 (Z.ltb_ge _ _)) by lia. simpl. lia. }
    rewrite Er, Nat2Z.id. f_equal. apply fbytes_sub; [done|lia].
Qed.

Definition image_kernel (D : Z -> list Z) : kernel := set_k_itable (fun _ => [zero_inode; zero_inode]) (file_kernel D zero_inode).

Lemma image_kernel_walking D files :
  walking 0 first_proc mkfs_sb D sample_writes (in_image files) (fun _ => 0) 2 (image_kernel D) [] None.
Proof.
  constructor; try done.
  - apply tx_inodes, tx_inodes, tx_phys, op_txn, sample_writes_ok.
  - intros j x Hx. destruct j as [|[|j]]; simpl in Hx; by simplify_eq.
  - intros j x Hx Hr. destruct j as [|[|j]]; simpl in Hx; by simplify_eq.
Qed.

Lemma sample_name : own_name sample_files 0 [99; 97; 116].
Proof.
  constructor; [done|by apply bytes_check|by repeat constructor|apply (bool_decide_unpack _); reflexivity|split; discriminate|].
  intros [|j] g Hg; [|done]. injection Hg as <-. done.
Qed.

Lemma image_readable_witness :
  exists D k' r, mkfs_image D sample_files /\
    (let* r := namei (slash :: [99; 97; 116]) in
     let* j := of_opt r in
     ilock j ;*
     readi j ToLocal (Z.of_nat 1) (Z.of_nat 2)) (image_kernel D) = Ok r k' /\ r = (2, [2; 3]).
Proof.
  destruct (wp_ok _ _ _ (wp_mkfs sample_files sample_files_good ltac:(reflexivity) ltac:(vm_compute; discriminate) ltac:(discriminate)))
    as (u & st & _ & HD).
  destruct (wp_ok _ _ _ (image_readable (im_disk st) sample_files 0 ([117; 115; 101; 114; 47; 95; 99; 97; 116], [[1; 2]; [3]]) [99; 97; 116]
    (image_kernel (im_disk st)) 0 first_proc sample_writes (fun _ => 0) 1 2 HD ltac:(reflexivity) eq_refl sample_name
    (image_kernel_walking (im_disk st) sample_files) ltac:(constructor; [intros; lia|exists 0%nat, 1%nat; simpl; split_ands; lia])
    ltac:(rewrite sample_writes_size; unfold NBUF; lia) ltac:(vm_compute; discriminate))) as (r & k' & E & Hr).
  exists (im_disk st), k', r. exact (conj HD (conj E Hr)).
Defined.
