(* ===== verification/Asm.v ===== *)
(** * Assembly code (kernel/trampoline.S, kernel/swtch.S, kernel/kernelvec.S,
    kernel/entry.S)

    The instructions these files use, over the registers of a hart and physical memory.
    The code is written out instruction by instruction; [run] executes it.  A load or
    store goes through the page table satp names, as the hardware walks it, except in
    machine mode; fetching instructions, the accessed and dirty bits and large pages are
    left out.  A list of instructions ends where control leaves the file: at a jump, a
    call of C code or a return from the trap. *)

From S2P Require Import Prelude State Spin Sleep Uart Printf Bio Log Txn Strings Kalloc Vm FsBlock FsInode FsDir Console Pipe File Proc Exec Syscall Sysfile Virtio Trap.

(** ** Definitions: the hart *)

Inductive reg :=
| zero | ra | sp | gp | tp | t0 | t1 | t2 | s0 | s1 | a0 | a1 | a2 | a3 | a4 | a5 | a6 | a7
| s2 | s3 | s4 | s5 | s6 | s7 | s8 | s9 | s10 | s11 | t3 | t4 | t5 | t6.

#[export] Instance reg_eq_dec : EqDecision reg.
Proof. solve_decision. Defined.

Inductive csr_name := sstatus | sepc | scause | stvec | sscratch | satp | sip | mstatus | mepc | mtvec | mscratch | mhartid.

#[export] Instance csr_name_eq_dec : EqDecision csr_name.
Proof. solve_decision. Defined.

Inductive mode := Machine | Supervisor | User.

#[export] Instance mode_eq_dec : EqDecision mode.
Proof. solve_decision. Defined.

Record hart := mkHart {
  h_mode : mode;
  h_pc : Z;
  h_regs : reg -> Z;
  h_csr : csr_name -> Z;
  h_mem : mem
}.

Definition rget (h : hart) (r : reg) : Z := if decide (r = zero) then 0 else h_regs h r.

Definition upd `{EqDecision A} (x : A) (v : Z) (f : A -> Z) : A -> Z := fun y => if decide (y = x) then v else f y.

Definition rset (r : reg) (v : Z) (h : hart) : hart := mkHart (h_mode h) (h_pc h) (upd r v (h_regs h)) (h_csr h) (h_mem h).

Definition jump (pc : Z) (h : hart) : hart := mkHart (h_mode h) pc (h_regs h) (h_csr h) (h_mem h).

Definition with_hmem (h : hart) (m : mem) : hart := mkHart (h_mode h) (h_pc h) (h_regs h) (h_csr h) m.

(** Of sip only the software interrupt bit can be written. *)
Definition csr_write (c : csr_name) (v : Z) (h : hart) : hart :=
  let v := match c with sip => Z.lor (Z.land (h_csr h sip) (Z.lnot 2)) (Z.land v 2) | _ => v end in
  mkHart (h_mode h) (h_pc h) (h_regs h) (upd c v (h_csr h)) (h_mem h).

(** The walk of a Sv39 page table by the hardware, for an access that needs the flag
    [need], on behalf of user or supervisor code. *)
Fixpoint sv39_walk (level : nat) (m : mem) (table va need : Z) (user : bool) : option Z :=
  let pte := word m (table + 8 * PX (Z.of_nat level) va) in
  if negb (has pte PTE_V) then None else
  if has pte PTE_R || has pte PTE_X then
    match level with
    | O => if has pte need && Bool.eqb (has pte PTE_U) user then Some (PTE2PA pte + va mod PGSIZE) else None
    | S _ => None
    end
  else
    match level with
    | O => None
    | S level => sv39_walk level m (PTE2PA pte) va need user
    end.

Definition satp_root (x : Z) : Z := Z.shiftl (Z.land x (2 ^ 44 - 1)) 12.

Definition translate (md : mode) (x : Z) (m : mem) (need va : Z) : option Z :=
  if decide (md = Machine) then Some va else
  if Z.shiftr x 60 =? 0 then Some va else
  if negb (Z.shiftr x 60 =? 8) || (MAXVA <=? va) then None else
  sv39_walk 2 m (satp_root x) va need (bool_decide (md = User)).

(** ** Definitions: instructions *)

Inductive instr :=
| sd (rs : reg) (off : Z) (base : reg)
| ld (rd : reg) (off : Z) (base : reg)
| addi (rd rs : reg) (imm : Z)
| add (rd r1 r2 : reg)
| mul (rd r1 r2 : reg)
| li (rd : reg) (imm : Z)
| la (rd : reg) (addr : Z)
| csrrw (rd : reg) (c : csr_name) (rs : reg)
| csrr (rd : reg) (c : csr_name)
| csrw (c : csr_name) (rs : reg)
| sfence_vma
| jr (rs : reg)
| ret
| call (target link : Z)
| sret
| mret.

Definition access (h : hart) (need va : Z) : option Z :=
  if va mod 8 =? 0 then translate (h_mode h) (h_csr h satp) (h_mem h) need va else None.

(** A return from supervisor mode: SIE (bit 1) gets SPIE (bit 5), and the mode is that
    of SPP (bit 8); from machine mode: MIE (bit 3), MPIE (bit 7), MPP (bits 11 and 12). *)
Definition do_sret (h : hart) : hart :=
  let s := h_csr h sstatus in
  let s' := if Z.testbit s 5 then Z.setbit s 1 else Z.clearbit s 1 in
  mkHart (if Z.testbit s 8 then Supervisor else User) (h_csr h sepc) (h_regs h)
    (upd sstatus (Z.clearbit (Z.setbit s' 5) 8) (h_csr h)) (h_mem h).

Definition do_mret (h : hart) : hart :=
  let s := h_csr h mstatus in
  let s' := if Z.testbit s 7 then Z.setbit s 3 else Z.clearbit s 3 in
  mkHart (if Z.testbit s 11 then if Z.testbit s 12 then Machine else Supervisor else User) (h_csr h mepc) (h_regs h)
    (upd mstatus (Z.clearbit (Z.clearbit (Z.setbit s' 7) 11) 12) (h_csr h)) (h_mem h).

(** One instruction; [None] is an access fault. *)
Definition exec1 (i : instr) (h : hart) : option hart :=
  match i with
  | sd rs off base =>
      pa ← access h PTE_W (u64 (rget h base + off));
      Some (with_hmem h (mwrite (h_mem h) pa (le_split 8 (rget h rs))))
  | ld rd off base =>
      pa ← access h PTE_R (u64 (rget h base + off));
      Some (rset rd (word (h_mem h) pa) h)
  | addi rd rs imm => Some (rset rd (u64 (rget h rs + imm)) h)
  | add rd r1 r2 => Some (rset rd (u64 (rget h r1 + rget h r2)) h)
  | mul rd r1 r2 => Some (rset rd (u64 (rget h r1 * rget h r2)) h)
  | li rd imm => Some (rset rd (u64 imm) h)
  | la rd addr => Some (rset rd addr h)
  | csrrw rd c rs => Some (rset rd (h_csr h c) (csr_write c (rget h rs) h))
  | csrr rd c => Some (rset rd (h_csr h c) h)
  | csrw c rs => Some (csr_write c (rget h rs) h)
  | sfence_vma => Some h
  | jr rs => Some (jump (rget h rs) h)
  | ret => Some (jump (rget h ra) h)
  | call target link => Some (jump target (rset ra link h))
  | sret => Some (do_sret h)
  | mret => Some (do_mret h)
  end.

Fixpoint run (l : list instr) (h : hart) : option hart :=
  match l with
  | [] => Some h
  | i :: l => h ← exec1 i h; run l h
  end.

(** ** Definitions: trampoline.S *)

Definition uservec : list instr :=
  [csrrw a0 sscratch a0; sd ra 40 a0; sd sp 48 a0; sd gp 56 a0; sd tp 64 a0; sd t0 72 a0;
   sd t1 80 a0; sd t2 88 a0; sd s0 96 a0; sd s1 104 a0; sd a1 120 a0; sd a2 128 a0; sd a3 136 a0;
   sd a4 144 a0; sd a5 152 a0; sd a6 160 a0; sd a7 168 a0; sd s2 176 a0; sd s3 184 a0;
   sd s4 192 a0; sd s5 200 a0; sd s6 208 a0; sd s7 216 a0; sd s8 224 a0; sd s9 232 a0;
   sd s10 240 a0; sd s11 248 a0; sd t3 256 a0; sd t4 264 a0; sd t5 272 a0; sd t6 280 a0;
   csrr t0 sscratch; sd t0 112 a0; ld sp 8 a0; ld tp 32 a0; ld t0 16 a0; ld t1 0 a0; csrw satp t1;
   sfence_vma; jr t0].

Definition userret : list instr :=
  [csrw satp a1; sfence_vma; ld t0 112 a0; csrw sscratch t0; ld ra 40 a0; ld sp 48 a0; ld gp 56 a0;
   ld tp 64 a0; ld t0 72 a0; ld t1 80 a0; ld t2 88 a0; ld s0 96 a0; ld s1 104 a0; ld a1 120 a0;
   ld a2 128 a0; ld a3 136 a0; ld a4 144 a0; ld a5 152 a0; ld a6 160 a0; ld a7 168 a0;
   ld s2 176 a0; ld s3 184 a0; ld s4 192 a0; ld s5 200 a0; ld s6 208 a0; ld s7 216 a0;
   ld s8 224 a0; ld s9 232 a0; ld s10 240 a0; ld s11 248 a0; ld t3 256 a0; ld t4 264 a0;
   ld t5 272 a0; ld t6 280 a0; csrrw a0 sscratch a0; sret].

(** ** Definitions: swtch.S *)

Definition swtch : list instr :=
  [sd ra 0 a0; sd sp 8 a0; sd s0 16 a0; sd s1 24 a0; sd s2 32 a0; sd s3 40 a0; sd s4 48 a0;
   sd s5 56 a0; sd s6 64 a0; sd s7 72 a0; sd s8 80 a0; sd s9 88 a0; sd s10 96 a0; sd s11 104 a0;
   ld ra 0 a1; ld sp 8 a1; ld s0 16 a1; ld s1 24 a1; ld s2 32 a1; ld s3 40 a1; ld s4 48 a1;
   ld s5 56 a1; ld s6 64 a1; ld s7 72 a1; ld s8 80 a1; ld s9 88 a1; ld s10 96 a1; ld s11 104 a1;
   ret].

(** ** Definitions: kernelvec.S *)

(** [kernelvec] up to the call of [kerneltrap], which comes back to [link], and from there. *)
Definition kernelvec_entry (kerneltrap link : Z) : list instr :=
  [addi sp sp (-256); sd ra 0 sp; sd sp 8 sp; sd gp 16 sp; sd tp 24 sp; sd t0 32 sp; sd t1 40 sp;
   sd t2 48 sp; sd s0 56 sp; sd s1 64 sp; sd a0 72 sp; sd a1 80 sp; sd a2 88 sp; sd a3 96 sp;
   sd a4 104 sp; sd a5 112 sp; sd a6 120 sp; sd a7 128 sp; sd s2 136 sp; sd s3 144 sp;
   sd s4 152 sp; sd s5 160 sp; sd s6 168 sp; sd s7 176 sp; sd s8 184 sp; sd s9 192 sp;
   sd s10 200 sp; sd s11 208 sp; sd t3 216 sp; sd t4 224 sp; sd t5 232 sp; sd t6 240 sp;
   call kerneltrap link].

Definition kernelvec_exit : list instr :=
  [ld ra 0 sp; ld sp 8 sp; ld gp 16 sp; ld t0 32 sp; ld t1 40 sp; ld t2 48 sp; ld s0 56 sp;
   ld s1 64 sp; ld a0 72 sp; ld a1 80 sp; ld a2 88 sp; ld a3 96 sp; ld a4 104 sp; ld a5 112 sp;
   ld a6 120 sp; ld a7 128 sp; ld s2 136 sp; ld s3 144 sp; ld s4 152 sp; ld s5 160 sp;
   ld s6 168 sp; ld s7 176 sp; ld s8 184 sp; ld s9 192 sp; ld s10 200 sp; ld s11 208 sp;
   ld t3 216 sp; ld t4 224 sp; ld t5 232 sp; ld t6 240 sp; addi sp sp 256; sret].

Definition timervec : list instr :=
  [csrrw a0 mscratch a0; sd a1 0 a0; sd a2 8 a0; sd a3 16 a0; ld a1 24 a0; ld a2 32 a0; ld a3 0 a1;
   add a3 a3 a2; sd a3 0 a1; li a1 2; csrw sip a1; ld a3 16 a0; ld a2 8 a0; ld a1 0 a0;
   csrrw a0 mscratch a0; mret].

(** ** Definitions: entry.S *)

Definition entry (stack0 start link : Z) : list instr :=
  [la sp stack0; li a0 (1024 * 4); csrr a1 mhartid; addi a1 a1 1; mul a0 a0 a1; add sp sp a0;
   call start link].

(** ** Specification *)

(** The registers of user code and where a trap frame keeps them (proc.h). *)
Definition frame_regs : list (reg * Z) :=
  [(ra, 40); (sp, 48); (gp, 56); (tp, 64); (t0, 72); (t1, 80); (t2, 88); (s0, 96); (s1, 104);
   (a1, 120); (a2, 128); (a3, 136); (a4, 144); (a5, 152); (a6, 160); (a7, 168); (s2, 176); (s3, 184);
   (s4, 192); (s5, 200); (s6, 208); (s7, 216); (s8, 224); (s9, 232); (s10, 240); (s11, 248); (t3, 256);
   (t4, 264); (t5, 272); (t6, 280); (a0, 112)].

(** What [swtch] saves, and where a [struct context] has it. *)
Definition context_regs : list (reg * Z) :=
  [(ra, 0); (sp, 8); (s0, 16); (s1, 24); (s2, 32); (s3, 40); (s4, 48); (s5, 56); (s6, 64); (s7, 72);
   (s8, 80); (s9, 88); (s10, 96); (s11, 104)].

(** What [kernelvec] saves on the stack. *)
Definition stack_regs : list (reg * Z) :=
  [(ra, 0); (sp, 8); (gp, 16); (tp, 24); (t0, 32); (t1, 40); (t2, 48); (s0, 56); (s1, 64); (a0, 72);
   (a1, 80); (a2, 88); (a3, 96); (a4, 104); (a5, 112); (a6, 120); (a7, 128); (s2, 136); (s3, 144);
   (s4, 152); (s5, 160); (s6, 168); (s7, 176); (s8, 184); (s9, 192); (s10, 200); (s11, 208); (t3, 216);
   (t4, 224); (t5, 232); (t6, 240)].

Definition regs_ok (h : hart) : Prop := forall r, 0 <= h_regs h r < 2 ^ 64.

(** The [n] bytes at the virtual address [va] are those at [pa], and stay so whatever is
    written to the addresses [W]: no table of the page table is there. *)
Definition area (md : mode) (x : Z) (m : mem) (W : Z -> Prop) (va pa n : Z) : Prop :=
  forall m', (forall y, ~ W y -> m' y = m y) -> forall o need, 0 <= o -> o + 8 <= n -> o mod 8 = 0 ->
    need = PTE_R \/ need = PTE_W ->
    u64 (va + o) mod 8 = 0 /\ translate md x m' need (u64 (va + o)) = Some (pa + o).

Definition harea (h : hart) (W : Z -> Prop) (va pa n : Z) : Prop :=
  area (h_mode h) (h_csr h satp) (h_mem h) W va pa n.

Definition within (pa n x : Z) : Prop := pa <= x < pa + n.

Definition slot (n : Z) (ro : reg * Z) : Prop := 0 <= ro.2 /\ ro.2 + 8 <= n /\ ro.2 mod 8 = 0 /\ ro.1 <> zero.

Definition slots (n : Z) (l : list (reg * Z)) : Prop := Forall (slot n) l /\ NoDup l.*1 /\ NoDup l.*2.

(** Memory after the registers [f] are saved at [pa], and the registers after they are
    loaded from there. *)
Definition saves (pa : Z) (f : reg -> Z) (l : list (reg * Z)) (m : mem) : mem :=
  fold_left (fun m ro => mwrite m (pa + ro.2) (le_split 8 (f ro.1))) l m.

Definition loads (pa : Z) (m : mem) (l : list (reg * Z)) (f : reg -> Z) : reg -> Z :=
  fold_left (fun f ro => upd ro.1 (word m (pa + ro.2)) f) l f.

Definition with_regs (h : hart) (f : reg -> Z) : hart := mkHart (h_mode h) (h_pc h) f (h_csr h) (h_mem h).

(** ** Lemmas: straight-line code *)

Lemma upd_eq `{EqDecision A} (x : A) v f : upd x v f x = v.
Proof. unfold upd. by rewrite decide_True. Qed.

Lemma upd_ne `{EqDecision A} (x y : A) v f : y <> x -> upd x v f y = f y.
Proof. intros. unfold upd. by rewrite decide_False. Qed.

Create Rewrite HintDb upd.
#[export] Hint Rewrite @upd_eq : upd.
#[export] Hint Rewrite @upd_ne using done : upd.

Lemma rget_ok h r : regs_ok h -> 0 <= rget h r < 2 ^ 64.
Proof. intros H. unfold rget. case_decide; [lia|apply H]. Qed.

Lemma rget_reg h r : r <> zero -> rget h r = h_regs h r.
Proof. intros. unfold rget. by rewrite decide_False. Qed.

Lemma rget_hmem h m r : rget (with_hmem h m) r = rget h r.
Proof. done. Qed.

Lemma rget_rset h r r' v : r' <> r -> rget (rset r v h) r' = rget h r'.
Proof. intros. unfold rget. simpl. by rewrite upd_ne. Qed.

Lemma run_app l1 l2 h : run (l1 ++ l2) h = run l1 h ≫= run l2.
Proof. revert h. induction l1 as [|i l1 IH]; intros h; simpl; [done|]. destruct (exec1 i h); simpl; [apply IH|done]. Qed.

Lemma run_step i l h h' : exec1 i h = Some h' -> run (i :: l) h = run l h'.
Proof. intros E. simpl. by rewrite E. Qed.

Lemma area_mono md x m W va pa n m' :
  area md x m W va pa n -> (forall y, ~ W y -> m' y = m y) -> area md x m' W va pa n.
Proof. intros H E m2 E2. apply H. intros y Hy. rewrite E2, E; done. Qed.

Lemma harea_hmem h W va pa n m :
  harea h W va pa n -> (forall y, ~ W y -> m y = h_mem h y) -> harea (with_hmem h m) W va pa n.
Proof. apply area_mono. Qed.

Lemma harea_rset h W va pa n r v : harea h W va pa n -> harea (rset r v h) W va pa n.
Proof. done. Qed.

Lemma harea_csr h W va pa n c v : c <> satp -> harea h W va pa n -> harea (csr_write c v h) W va pa n.
Proof. intros Hc. unfold harea. simpl. by rewrite upd_ne by done. Qed.

Lemma area_access h W va pa n o need :
  harea h W va pa n -> 0 <= o -> o + 8 <= n -> o mod 8 = 0 ->
  need = PTE_R \/ need = PTE_W -> access h need (u64 (va + o)) = Some (pa + o).
Proof.
  intros H ? ? ? ?. destruct (H (h_mem h) (fun _ _ => eq_refl) o need) as [E1 E2]; try done.
  unfold access. by rewrite E1.
Qed.

Lemma saves_apart pa f l m x : Forall (fun ro => ~ within (pa + ro.2) 8 x) l -> saves pa f l m x = m x.
Proof.
  intros Hl. unfold saves. revert m. induction Hl as [|[r o] l Ho Hl IH]; intros m; simpl in *; [done|].
  rewrite IH. apply mwrite_out. unfold within in Ho. len.
Qed.

Lemma saves_out pa f n l m x : Forall (slot n) l -> ~ within pa n x -> saves pa f l m x = m x.
Proof. intros Hl Hx. apply saves_apart. eapply Forall_impl; [exact Hl|]. intros ro (? & ? & ? & ?). unfold within in *. lia. Qed.

Lemma slots_apart o o' : o mod 8 = 0 -> o' mod 8 = 0 -> o <> o' -> o + 8 <= o' \/ o' + 8 <= o.
Proof. intros. pose proof (Z.div_mod o 8). pose proof (Z.div_mod o' 8). lia. Qed.

Lemma saves_other pa f n l m o : Forall (slot n) l -> o ∉ l.*2 -> o mod 8 = 0 -> word (saves pa f l m) (pa + o) = word m (pa + o).
Proof.
  intros Hl Ho Hm. unfold saves. revert m. induction Hl as [|[r o'] l (? & ? & ? & ?) Hl IH]; intros m; simpl in *; [done|].
  apply not_elem_of_cons in Ho as [Ho1 Ho2]. rewrite IH by done. apply word_mwrite_ne.
  destruct (slots_apart o o'); [done..|lia|lia].
Qed.

Lemma saves_word pa f n l m r o :
  slots n l -> (r, o) ∈ l -> 0 <= f r < 2 ^ 64 -> word (saves pa f l m) (pa + o) = f r.
Proof.
  intros (Hs & _ & Hn) Hin Hf. revert m. unfold saves. induction Hs as [|[r' o'] l (? & ? & ? & ?) Hl IH]; intros m; simpl in *; [set_solver|].
  apply NoDup_cons in Hn as [Hn1 Hn2]. apply elem_of_cons in Hin as [E|Hin].
  - injection E as -> ->. fold (saves pa f l (mwrite m (pa + o') (le_split 8 (f r')))).
    rewrite (saves_other _ _ n) by done. by apply word_mwrite.
  - by apply IH.
Qed.

Lemma saves_ext pa f g l m : Forall (fun ro => f ro.1 = g ro.1) l -> saves pa f l m = saves pa g l m.
Proof. intros Hl. revert m. unfold saves. induction Hl as [|ro l E Hl IH]; intros m; simpl; [done|]. by rewrite E, IH. Qed.

Lemma loads_out pa m l f r : r ∉ l.*1 -> loads pa m l f r = f r.
Proof.
  revert f. unfold loads. induction l as [|[r' o] l IH]; intros f Hr; simpl in *; [done|].
  apply not_elem_of_cons in Hr as [H1 H2]. rewrite IH by done. by apply upd_ne.
Qed.

Lemma loads_word pa m l f r o : NoDup l.*1 -> (r, o) ∈ l -> loads pa m l f r = word m (pa + o).
Proof.
  revert f. induction l as [|[r' o'] l IH]; intros f Hn Hin; simpl in *; [set_solver|].
  apply NoDup_cons in Hn as [Hn1 Hn2]. apply elem_of_cons in Hin as [E|Hin].
  - injection E as -> ->. unfold loads. simpl. fold (loads pa m l (upd r' (word m (pa + o')) f)).
    rewrite loads_out by done. apply upd_eq.
  - by apply IH.
Qed.

(** A row of stores, and a row of loads, off one base register. *)
Lemma run_saves l base rest W pa n h :
  harea h W (rget h base) pa n -> (forall x, within pa n x -> W x) -> Forall (slot n) l ->
  run (((fun ro => sd ro.1 ro.2 base) <$> l) ++ rest) h = run rest (with_hmem h (saves pa (rget h) l (h_mem h))).
Proof.
  intros Ha HW Hl. revert h Ha. induction Hl as [|[r o] l (? & ? & ? & ?) Hl IH]; intros h Ha; [by destruct h|].
  cbn [fst snd] in *. rewrite fmap_cons. cbn [app run exec1 fst snd]. rewrite (area_access _ _ _ _ _ _ _ Ha) by auto. cbn [mbind option_bind].
  match goal with |- run _ ?h1 = _ => set (h' := h1) end.
  rewrite (IH h'); [done|]. change (rget h' base) with (rget h base).
  apply harea_hmem; [exact Ha|]. intros y Hy. apply mwrite_out. intros Hin. apply Hy, HW. revert Hin. unfold within. len.
Qed.

Lemma run_loads l base rest W pa n h :
  harea h W (rget h base) pa n -> Forall (slot n) l ->
  Forall (fun ro => ro.1 = base -> word (h_mem h) (pa + ro.2) = rget h base) l ->
  run (((fun ro => ld ro.1 ro.2 base) <$> l) ++ rest) h = run rest (with_regs h (loads pa (h_mem h) l (h_regs h))).
Proof.
  intros Ha Hl Hb. revert h Ha Hb. induction Hl as [|[r o] l (? & ? & ? & Hz) Hl IH]; intros h Ha Hb; [by destruct h|].
  cbn [fst snd] in *. rewrite fmap_cons. cbn [app run exec1 fst snd]. apply Forall_cons in Hb as [Hb1 Hb2]. rewrite (area_access _ _ _ _ _ _ _ Ha) by auto. cbn [mbind option_bind].
  match goal with |- run _ ?h1 = _ => set (h' := h1) end.
  assert (Eb : rget h' base = rget h base).
  { unfold h', rget, rset. simpl. case_decide; [done|]. unfold upd. case_decide as E; [|done].
    simpl in Hb1. rewrite Hb1 by done. by rewrite rget_reg. }
  rewrite (IH h'); [done|by rewrite Eb|]. simpl. by rewrite Eb.
Qed.

Lemma slots_dec n l :
  forallb (fun ro => (0 <=? ro.2) && (ro.2 + 8 <=? n) && (ro.2 mod 8 =? 0) && bool_decide (ro.1 <> zero)) l = true ->
  NoDup l.*1 -> NoDup l.*2 -> slots n l.
Proof.
  intros H D1 D2. split; [|done]. apply Forall_forall. intros ro Hin. apply list_elem_of_In in Hin.
  rewrite forallb_forall in H. specialize (H _ Hin). rewrite !andb_true_iff in H.
  destruct H as [[[H1 H2] H3] H4]. apply Z.leb_le in H1, H2. apply Z.eqb_eq in H3. apply bool_decide_eq_true in H4. done.
Qed.

Lemma frame_slots : slots 288 frame_regs.
Proof. apply slots_dec; [reflexivity| |]; apply (bool_decide_unpack _); reflexivity. Qed.

Lemma context_slots : slots 112 context_regs.
Proof. apply slots_dec; [reflexivity| |]; apply (bool_decide_unpack _); reflexivity. Qed.

Lemma stack_slots : slots 256 stack_regs.
Proof. apply slots_dec; [reflexivity| |]; apply (bool_decide_unpack _); reflexivity. Qed.

(** ** Lemmas: trampoline.S *)

Lemma run_leave h f :
  run [csrw satp t1; sfence_vma; jr t0] (with_regs h f) =
  Some (mkHart (h_mode h) (f t0) f (upd satp (f t1) (h_csr h)) (h_mem h)).
Proof. done. Qed.

(** [uservec] leaves the user's registers in the trap frame and is in [usertrap] on the
    process's kernel stack and the kernel's page table, all as the frame says. *)
Lemma run_uservec h pa :
  let m := h_mem h in
  regs_ok h -> harea h (within pa 288) (h_csr h sscratch) pa 288 ->
  exists h', run uservec h = Some h' /\ h_mode h' = h_mode h /\
    h_pc h' = word m (pa + TF_KERNEL_TRAP) /\ rget h' sp = word m (pa + TF_KERNEL_SP) /\
    rget h' tp = word m (pa + TF_KERNEL_HARTID) /\
    h_csr h' = upd satp (word m (pa + TF_KERNEL_SATP)) (upd sscratch (rget h a0) (h_csr h)) /\
    (forall r o, (r, o) ∈ frame_regs -> word (h_mem h') (pa + o) = rget h r) /\
    (forall x, ~ pa + 40 <= x < pa + 288 -> h_mem h' x = m x).
Proof.
  intros m Hr Ha.
  assert (Ecode : uservec = csrrw a0 sscratch a0 :: ((fun ro => sd ro.1 ro.2 a0) <$> take 30 frame_regs) ++ csrr t0 sscratch ::
    ((fun ro => sd ro.1 ro.2 a0) <$> [(t0, 112)]) ++ ((fun ro => ld ro.1 ro.2 a0) <$> [(sp, 8); (tp, 32); (t0, 16); (t1, 0)]) ++
    [csrw satp t1; sfence_vma; jr t0]) by reflexivity.
  rewrite Ecode. clear Ecode.
  erewrite run_step by reflexivity.
  match goal with |- exists h', run _ ?h1 = _ /\ _ => set (hs := h1) end.
  assert (Hb : rget hs a0 = h_csr h sscratch) by (unfold hs, rget; simpl; by autorewrite with upd).
  assert (Hf : forall r, r <> a0 -> rget hs r = rget h r) by (intros r Hne; unfold hs, rget; simpl; by rewrite upd_ne).
  destruct frame_slots as (Hs & Hn1 & Hn2).
  rewrite (run_saves _ _ _ (within pa 288) pa 288); [|rewrite Hb; by apply harea_rset, harea_csr| done|by apply Forall_take].
  rewrite (saves_ext _ _ (rget h)); [|repeat constructor; by apply Hf].
  change (h_mem hs) with m. set (m1 := saves pa (rget h) (take 30 frame_regs) m).
  assert (E1 : forall y, ~ within pa 288 y -> m1 y = m y) by (intros y Hy; eapply saves_out; [by apply Forall_take|done]).
  erewrite run_step by reflexivity.
  match goal with |- exists h', run _ ?h1 = _ /\ _ => set (ht := h1) end.
  assert (Ha1 : harea ht (within pa 288) (rget ht a0) pa 288).
  { unfold ht. rewrite rget_rset, rget_hmem, Hb by done. apply harea_rset, harea_hmem; [by apply harea_rset, harea_csr|done]. }
  rewrite (run_saves _ _ _ _ _ _ _ Ha1); [|done|by repeat constructor].
  set (m2 := saves _ _ _ _).
  assert (E2 : m2 = saves pa (rget h) frame_regs m).
  { assert (Ef : frame_regs = take 30 frame_regs ++ [(a0, 112)]) by reflexivity.
    rewrite Ef. unfold saves. rewrite fold_left_app. reflexivity. }
  assert (E3 : forall y, ~ within pa 288 y -> m2 y = m y) by (intros y Hy; rewrite E2; by eapply saves_out).
  assert (Hw : forall o, o ∉ frame_regs.*2 -> o mod 8 = 0 -> word m2 (pa + o) = word m (pa + o)).
  { intros. rewrite E2. by eapply saves_other. }
  clearbody m2.
  rewrite (run_loads _ _ _ (within pa 288) pa 288); [|rewrite rget_hmem; apply harea_hmem; [exact Ha1|] |by repeat constructor|by repeat constructor].
  2: { intros y Hy. cbn [h_mem with_hmem ht rset]. rewrite E3, E1; done. }
  assert (Ec : h_csr ht = upd sscratch (rget h a0) (h_csr h)) by reflexivity.
  assert (Em : h_mode ht = h_mode h) by reflexivity.
  set (hu := with_hmem ht m2). assert (Eu : h_csr hu = h_csr ht /\ h_mode hu = h_mode ht /\ h_mem hu = m2) by done.
  destruct Eu as (Eu1 & Eu2 & Eu3). rewrite Eu3. rewrite <- Eu1 in Ec. rewrite <- Eu2 in Em. clearbody hu. set (f := loads _ _ _ _).
  assert (Hf4 : f t0 = word m2 (pa + 16) /\ f sp = word m2 (pa + 8) /\ f tp = word m2 (pa + 32) /\ f t1 = word m2 (pa + 0)).
  { split_ands; (apply loads_word; apply (bool_decide_unpack _); reflexivity). }
  clearbody f. destruct Hf4 as (F1 & F2 & F3 & F4).
  rewrite run_leave. eexists. split; [reflexivity|].
  rewrite (rget_reg _ sp), (rget_reg _ tp) by done. cbn [h_mode h_pc h_regs h_csr h_mem].
  rewrite F1, F2, F3, F4, Ec, Em.
  assert (Hw4 : word m2 (pa + 16) = word m (pa + TF_KERNEL_TRAP) /\ word m2 (pa + 8) = word m (pa + TF_KERNEL_SP) /\
    word m2 (pa + 32) = word m (pa + TF_KERNEL_HARTID) /\ word m2 (pa + 0) = word m (pa + TF_KERNEL_SATP)).
  { split_ands; (apply Hw; [apply (bool_decide_unpack _)|]); reflexivity. }
  destruct Hw4 as (W1 & W2 & W3 & W4). rewrite W1, W2, W3, W4. rewrite Eu3. split_ands; [done..| |].
  - intros r o Hin. rewrite E2, (saves_word _ _ 288 _ _ r); [done|exact frame_slots|done|by apply rget_ok].
  - intros x Hx. rewrite E2. apply saves_apart. repeat constructor; unfold within; simpl; lia.
Qed.

Lemma run_swap_sret h f :
  run [csrrw a0 sscratch a0; sret] (with_regs h f) =
  Some (do_sret (mkHart (h_mode h) (h_pc h) (upd a0 (h_csr h sscratch) f) (upd sscratch (f a0) (h_csr h)) (h_mem h))).
Proof. done. Qed.

(** [userret] loads the registers of the frame and enters user mode at sepc. *)
Lemma run_userret h pa :
  let m := h_mem h in
  let s := h_csr h sstatus in
  area (h_mode h) (rget h a1) m (fun _ => False) (rget h a0) pa 288 -> Z.testbit s 8 = false ->
  exists h', run userret h = Some h' /\ h_mode h' = User /\ h_pc h' = h_csr h sepc /\
    (forall r o, (r, o) ∈ frame_regs -> rget h' r = word m (pa + o)) /\
    h_csr h' satp = rget h a1 /\ h_csr h' sscratch = rget h a0 /\ h_csr h' stvec = h_csr h stvec /\
    Z.testbit (h_csr h' sstatus) 1 = Z.testbit s 5 /\ h_mem h' = m.
Proof.
  intros m s Ha Hspp.
  assert (Ecode : userret = csrw satp a1 :: sfence_vma :: ((fun ro => ld ro.1 ro.2 a0) <$> [(t0, 112)]) ++
    csrw sscratch t0 :: ((fun ro => ld ro.1 ro.2 a0) <$> take 30 frame_regs) ++ [csrrw a0 sscratch a0; sret]) by reflexivity.
  rewrite Ecode. clear Ecode. do 2 erewrite run_step by reflexivity.
  set (hs := csr_write satp _ _).
  assert (Hs : harea hs (fun _ => False) (rget hs a0) pa 288) by exact Ha.
  rewrite (run_loads _ _ _ (fun _ => False) pa 288); [|done|by repeat constructor|by repeat constructor].
  erewrite run_step by reflexivity. set (ht := csr_write sscratch _ _).
  assert (Ht : harea ht (fun _ => False) (rget ht a0) pa 288) by exact Ha.
  assert (Fm : h_mem ht = m) by reflexivity.
  assert (F0 : rget ht a0 = rget h a0) by reflexivity.
  assert (Fc : h_csr ht = upd sscratch (word m (pa + 112)) (upd satp (rget h a1) (h_csr h))) by reflexivity.
  clearbody ht. destruct frame_slots as (Sl & Sn & _).
  rewrite (run_loads _ _ _ (fun _ => False) pa 288); [|done|by apply Forall_take|by repeat constructor].
  set (f := loads _ _ _ _).
  assert (Hf : forall r o, (r, o) ∈ take 30 frame_regs -> f r = word m (pa + o)).
  { intros r o Hin. unfold f. rewrite Fm. apply loads_word; [|done]. apply (bool_decide_unpack _). reflexivity. }
  assert (Hf0 : f a0 = rget h a0).
  { unfold f. rewrite <- F0, rget_reg by done. apply loads_out. apply (bool_decide_unpack _). reflexivity. }
  clearbody f. rewrite run_swap_sret. eexists. split; [reflexivity|].
  unfold do_sret. cbn [h_mode h_pc h_regs h_csr h_mem]. rewrite Fm, Hf0, Fc, !upd_eq.
  set (c := upd sscratch (rget h a0) _). assert (Ec : c sstatus = s /\ c sepc = h_csr h sepc /\ c satp = rget h a1 /\
    c sscratch = rget h a0 /\ c stvec = h_csr h stvec) by done.
  clearbody c. destruct Ec as (C1 & C2 & C3 & C4 & C5). rewrite C1, Hspp, !upd_ne, C2, C3, C4, C5 by done.
  split_ands; [done|done| |done..| |done].
  - intros r o Hin. unfold rget. cbn [h_regs]. assert (Hz : r <> zero).
    { rewrite Forall_forall in Sl. by destruct (Sl _ Hin) as (_ & _ & _ & ?). }
    rewrite decide_False by done. assert (Ef : frame_regs = take 30 frame_regs ++ [(a0, 112)]) by reflexivity.
    rewrite Ef in Hin. apply elem_of_app in Hin as [Hin|Hin].
    + rewrite upd_ne; [by apply Hf|]. intros ->. apply (list_elem_of_fmap_2 fst) in Hin. revert Hin. apply (bool_decide_unpack _). reflexivity.
    + apply list_elem_of_singleton in Hin as [= -> ->]. by rewrite upd_eq.
  - rewrite Z.clearbit_neq, Z.setbit_neq by lia. destruct (Z.testbit s 5).
    + by rewrite Z.setbit_eq.
    + by rewrite Z.clearbit_eq.
Qed.

(** ** Lemmas: the trap frame through the page table *)

(** The page table at [pt], described by [t], maps the trap frame [tf] for the trampoline,
    and [tf] is a page of its own. *)
Record frame_mapped (img : image) (m : mem) (t : ptree) (pt tf : Z) : Prop := mkFrameMapped {
  fm_img : KERNBASE <= img_end img;
  fm_tree : tree_ok img m t;
  fm_root : t !! [] = Some pt;
  fm_leaf : leaf m t TRAPFRAME = Z.lor (PA2PTE tf) (Z.lor (Z.lor PTE_R PTE_W) PTE_V);
  fm_page : page_ok img tf;
  fm_apart : forall path, t !! path <> Some tf
}.

Lemma has_flags e g : 0 <= g < 2 ^ 10 -> has e g = has (PTE_FLAGS e) g.
Proof.
  intros Hg. unfold has, PTE_FLAGS. rewrite <- Z.land_assoc. do 2 f_equal. change 0x3FF with (Z.ones 10).
  rewrite Z.land_comm, Z.land_ones by lia. symmetry. by apply Z.mod_small.
Qed.

Lemma make_has q f g :
  q mod PGSIZE = 0 -> 0 <= q < 2 ^ 56 -> 0 <= f < 2 ^ 10 -> 0 <= g < 2 ^ 10 -> has (Z.lor (PA2PTE q) f) g = has f g.
Proof. intros Hm Hq Hf Hg. destruct (pte_make q f Hm Hq Hf) as (_ & _ & E & _). by rewrite has_flags, E. Qed.

Lemma satp_root_make pt : pt mod PGSIZE = 0 -> 0 <= pt < 2 ^ 56 ->
  satp_root (MAKE_SATP pt) = pt /\ Z.shiftr (MAKE_SATP pt) 60 = 8.
Proof.
  intros Hm Hp. unfold satp_root, MAKE_SATP, SATP_SV39. assert (Hq : Z.shiftr pt 12 = pt / PGSIZE) by (by rewrite Z.shiftr_div_pow2 by lia).
  assert (Hd : 0 <= pt / PGSIZE < 2 ^ 44).
  { unfold PGSIZE. split; [apply Z.div_pos; lia|apply Z.div_lt_upper_bound; lia]. }
  rewrite Hq, lor_low by lia. rewrite (Z.shiftl_mul_pow2 8) by lia. split.
  - change (2 ^ 44 - 1) with (Z.ones 44). rewrite Z.land_ones by lia. change (8 * 2 ^ 60) with (524288 * 2 ^ 44).
    rewrite Z.add_comm, Z.mod_add, Z.mod_small by lia. rewrite Z.shiftl_mul_pow2 by lia. change (2 ^ 12) with PGSIZE.
    apply Z.div_exact in Hm; [|unfold PGSIZE; lia]. unfold PGSIZE in *. lia.
  - rewrite Z.shiftr_div_pow2 by lia. rewrite Z.div_add_l, Z.div_small by lia. lia.
Qed.

(** One step down a table of the tree. *)
Lemma sv39_step img m t path p i q level va need user :
  KERNBASE <= img_end img -> tree_ok img m t -> t !! path = Some p -> (length path < 2)%nat ->
  PX (Z.of_nat (S level)) va = i -> t !! (path ++ [i]) = Some q ->
  sv39_walk (S level) m p va need user = sv39_walk level m q va need user.
Proof.
  intros Hi Ht Hp Hl Ei Hq. assert (Hx : index_ok i) by (subst i; apply PX_range).
  destruct (entry_follow _ _ _ _ _ _ _ Hi Ht Hp Hl Hx Hq) as [HV HP].
  assert (HF : forall g, g = PTE_R \/ g = PTE_X -> has (word m (p + 8 * i)) g = false).
  { intros g Hg. pose proof (to_entry _ _ _ Ht _ _ _ Hp Hl Hx) as He. rewrite Hq in He. simpl in He. rewrite He.
    destruct (page_ok_small _ _ Hi (to_page _ _ _ Ht _ _ Hq)) as [Hm Hs].
    rewrite make_has by (try done; try apply PTE_V_flag; destruct Hg as [-> | ->]; done). by destruct Hg as [-> | ->]. }
  cbn [sv39_walk]. rewrite Ei, HV, HP, !HF by auto. done.
Qed.

Lemma frame_mapped_ext img m m' t pt tf :
  frame_mapped img m t pt tf -> (forall x, ~ within tf PGSIZE x -> m' x = m x) -> frame_mapped img m' t pt tf.
Proof.
  intros [Hi Ht Hr Hl Hp Ha] E.
  assert (Hw : forall path p i, t !! path = Some p -> index_ok i -> word m' (p + 8 * i) = word m (p + 8 * i)).
  { intros path p i Hpp Hx. apply word_same. intros x Hxr. apply E. unfold within.
    destruct (pages_apart p tf); [apply (to_page _ _ _ Ht _ _ Hpp)|apply Hp|intros ->; by eapply Ha|..]; unfold index_ok, PGSIZE in *; lia. }
  split; try done.
  - destruct Ht as [T1 T2 T3 T4 T5 T6]. split; try done. intros path p i Hpp Hlen Hx. rewrite (Hw path) by done. by apply T2.
  - unfold leaf in *. destruct (t !! vpath TRAPFRAME) as [p|] eqn:Ep; [|done]. rewrite (Hw _ _ _ Ep) by apply PX_range. done.
Qed.

Lemma frame_area img m t pt tf n :
  frame_mapped img m t pt tf -> 0 <= n <= PGSIZE -> area Supervisor (MAKE_SATP pt) m (within tf n) TRAPFRAME tf n.
Proof.
  intros Hf0 Hn m' E o need Ho Hon Ho8 Hneed.
  assert (Hf : frame_mapped img m' t pt tf).
  { eapply frame_mapped_ext; [exact Hf0|]. intros x Hx. apply E. unfold within in *. lia. }
  destruct Hf as [Hi Ht Hr Hl Hp Ha].
  assert (Hu : u64 (TRAPFRAME + o) = TRAPFRAME + o).
  { apply u64_small. change TRAPFRAME with 274877898752. unfold PGSIZE in *. lia. }
  rewrite Hu. split.
  { change TRAPFRAME with (34359737344 * 8). rewrite Z.add_comm, Z.mod_add by lia. done. }
  unfold translate. rewrite decide_False by done.
  destruct (page_ok_small _ _ Hi (to_page _ _ _ Ht _ _ Hr)) as [Hm Hs]. destruct (satp_root_make pt Hm Hs) as [E1 E2].
  rewrite E1, E2. change (8 =? 0) with false. change (negb (8 =? 8)) with false. cbn [orb].
  rewrite (proj2 (Z.leb_gt _ _)) by (change TRAPFRAME with (MAXVA - 8192); unfold PGSIZE in *; lia).
  assert (Epage : (TRAPFRAME + o) / PGSIZE = TRAPFRAME / PGSIZE /\ (TRAPFRAME + o) mod PGSIZE = o).
  { change TRAPFRAME with (67108862 * PGSIZE). rewrite Z.div_add_l, Z.div_mul, Z.div_small by (unfold PGSIZE in *; lia).
    rewrite (Z.add_comm _ o), Z.mod_add, Z.mod_small by (unfold PGSIZE in *; lia). lia. }
  destruct Epage as [Eq Er]. rewrite (leaf_page _ _ _ _ (eq_sym Eq)) in Hl. unfold leaf in Hl. set (va := TRAPFRAME + o) in *.
  assert (Hne : Z.lor (PA2PTE tf) (Z.lor (Z.lor PTE_R PTE_W) PTE_V) <> 0).
  { destruct (page_ok_small _ _ Hi Hp) as [? ?]. destruct (pte_make tf (Z.lor (Z.lor PTE_R PTE_W) PTE_V)) as (E' & _); [done..|].
    rewrite E', Z.shiftl_mul_pow2 by lia. change (Z.lor (Z.lor PTE_R PTE_W) PTE_V) with 7. unfold PGSIZE. pose proof (Z.div_pos tf 4096). lia. }
  destruct (t !! vpath va) as [p0|] eqn:E0; [|congruence].
  destruct (to_parent _ _ _ Ht [PX 2 va] (PX 1 va) p0 E0) as [[p1 Ep1] _].
  rewrite (sv39_step img m' t [] pt (PX 2 va) p1) by (try done; simpl; lia).
  rewrite (sv39_step img m' t [PX 2 va] p1 (PX 1 va) p0) by (try done; simpl; lia).
  cbn [sv39_walk]. change (Z.of_nat 0) with 0. rewrite Hl. destruct (page_ok_small _ _ Hi Hp) as [Hpm Hps].
  rewrite !make_has by (done || destruct Hneed as [-> | ->]; done).
  destruct (pte_make tf (Z.lor (Z.lor PTE_R PTE_W) PTE_V)) as (_ & -> & _); [done..|]. rewrite Er.
  destruct Hneed as [-> | ->]; reflexivity.
Qed.

Lemma area_weaken md x m (W W' : Z -> Prop) va pa n :
  (forall y, W' y -> W y) -> area md x m W va pa n -> area md x m W' va pa n.
Proof. intros H Ha m' E. apply Ha. intros y Hy. apply E. auto. Qed.

(** ** Definitions: between the kernel and user code *)

(** The hart as the kernel's C code leaves it, with the values of the registers that are
    not part of the kernel's state. *)
Definition kernel_hart (k : kernel) (other : csr_name -> Z) (regs : reg -> Z) : hart :=
  let cs := dv_csr (k_dev k) in
  mkHart Supervisor 0 regs
    (fun c => match c with
              | sstatus => Z.lor (cs_sstatus cs) (if c_intr (k_core k) then SSTATUS_SIE else 0)
              | sepc => cs_sepc cs
              | scause => cs_scause cs
              | stvec => cs_stvec cs
              | sip => cs_sip cs
              | satp => cs_satp cs
              | c => other c
              end)
    (ph_mem (k_phys k)).

(** What the hardware does on a trap from user mode, and on a timer interrupt. *)
Definition user_trap (cause : Z) (h : hart) : hart :=
  let s := h_csr h sstatus in
  let s' := if Z.testbit s 1 then Z.setbit s 5 else Z.clearbit s 5 in
  mkHart Supervisor (h_csr h stvec) (h_regs h)
    (upd sstatus (Z.clearbit (Z.clearbit s' 1) 8) (upd scause cause (upd sepc (h_pc h) (h_csr h)))) (h_mem h).

Definition timer_trap (h : hart) : hart :=
  let s := h_csr h mstatus in
  let s' := if Z.testbit s 3 then Z.setbit s 7 else Z.clearbit s 7 in
  let s' := Z.clearbit s' 3 in
  let s' := match h_mode h with
            | Machine => Z.setbit (Z.setbit s' 11) 12
            | Supervisor => Z.clearbit (Z.setbit s' 11) 12
            | User => Z.clearbit (Z.clearbit s' 11) 12
            end in
  mkHart Machine (h_csr h mtvec) (h_regs h) (upd mstatus s' (upd mepc (h_pc h) (h_csr h))) (h_mem h).

(** The registers of user code are those the trap frame [tf] in [m] has. *)
Definition frame_holds (m : mem) (tf : Z) (h : hart) : Prop :=
  forall r o, (r, o) ∈ frame_regs -> word m (tf + o) = rget h r.

(** ** Properties *)

Lemma user_trap_csr cause h : 
  h_csr (user_trap cause h) satp = h_csr h satp /\ h_csr (user_trap cause h) sscratch = h_csr h sscratch /\
  h_csr (user_trap cause h) sepc = h_pc h /\ h_csr (user_trap cause h) scause = cause /\
  Z.testbit (h_csr (user_trap cause h) sstatus) 8 = false.
Proof. split_ands; [reflexivity..|]. cbn [user_trap h_csr]. rewrite upd_eq. by apply Z.clearbit_eq. Qed.

(** What a trap from user code leads to, by [uservec]. *)
Lemma enter_kernel img t pt tf u cause :
  let m := h_mem u in
  regs_ok u -> frame_mapped img m t pt tf -> h_csr u satp = MAKE_SATP pt -> h_csr u sscratch = TRAPFRAME ->
  exists h, run uservec (user_trap cause u) = Some h /\ h_mode h = Supervisor /\
    h_pc h = word m (tf + TF_KERNEL_TRAP) /\ rget h sp = word m (tf + TF_KERNEL_SP) /\
    rget h tp = word m (tf + TF_KERNEL_HARTID) /\ h_csr h satp = word m (tf + TF_KERNEL_SATP) /\
    h_csr h sepc = h_pc u /\ h_csr h scause = cause /\ Z.testbit (h_csr h sstatus) 8 = false /\
    frame_holds (h_mem h) tf u /\ (forall x, ~ tf + 40 <= x < tf + 288 -> h_mem h x = m x).
Proof.
  intros m Hr Hm Hsatp Hss. set (ut := user_trap cause u). destruct (user_trap_csr cause u) as (C1 & C2 & C3 & C4 & C5). fold ut in C1, C2, C3, C4, C5.
  destruct (run_uservec ut tf) as (h & E & Em & Epc & Esp & Etp & Ec & Ef & Eo).
  - exact Hr.
  - unfold harea. rewrite C1, C2, Hsatp, Hss. eapply frame_area; [exact Hm|unfold PGSIZE; lia].
  - exists h. rewrite Ec. split_ands; done.
Qed.

(** C14: A process comes back from the kernel as it went in.  A trap of user code with any
    registers, taken with its page table and trap frame in place, ends in [uservec] with
    all 31 registers in the frame.  Whenever the kernel later enters [userret] with that
    frame mapped by a page table, user code continues at sepc and every register whose
    slot in the frame still has its value has the value it had before the trap. *)
Theorem trap_roundtrip img t pt tf u cause :
  regs_ok u -> frame_mapped img (h_mem u) t pt tf -> h_csr u satp = MAKE_SATP pt -> h_csr u sscratch = TRAPFRAME ->
  exists h, run uservec (user_trap cause u) = Some h /\
    forall hk t' pt', h_mode hk = Supervisor -> frame_mapped img (h_mem hk) t' pt' tf ->
      rget hk a0 = TRAPFRAME -> rget hk a1 = MAKE_SATP pt' -> Z.testbit (h_csr hk sstatus) 8 = false ->
      exists u', run userret hk = Some u' /\ h_mode u' = User /\ h_pc u' = h_csr hk sepc /\ h_mem u' = h_mem hk /\
        h_csr u' satp = MAKE_SATP pt' /\ h_csr u' sscratch = TRAPFRAME /\
        forall r o, (r, o) ∈ frame_regs -> word (h_mem hk) (tf + o) = word (h_mem h) (tf + o) -> rget u' r = rget u r.
Proof.
  intros Hr Hm Hsatp Hss. destruct (enter_kernel img t pt tf u cause) as (h & E & _ & _ & _ & _ & _ & _ & _ & _ & Hf & _); [done..|].
  exists h. split; [exact E|]. intros hk t' pt' Hmd Hm' H0 H1 Hspp.
  destruct (run_userret hk tf) as (u' & E' & M' & P' & R' & S' & X' & _ & _ & Em); [|done|].
  - rewrite Hmd, H0, H1. eapply area_weaken; [|eapply frame_area; [exact Hm'|unfold PGSIZE; lia]]. done.
  - exists u'. rewrite <- H0, <- H1. split_ands; try done. intros r o Hin Hw. rewrite (R' _ _ Hin), Hw. by apply Hf.
Qed.

(** An address space that maps nothing but a trap frame, at 0x80104000. *)
Definition frame_leaf : Z := Z.lor (PA2PTE 0x80104000) (Z.lor (Z.lor PTE_R PTE_W) PTE_V).

Definition frame_mem : mem := chain_mem 255 511 510 frame_leaf.

Definition frame_tree : ptree := chain_tree 255 511.

Lemma frame_mapped_sample : frame_mapped sample_image frame_mem frame_tree 0x80101000 0x80104000.
Proof.
  assert (Hi : forall i, 0 <= i < 512 -> index_ok i) by done.
  assert (He : 0 <= frame_leaf < 2 ^ 64) by (vm_compute; split; [discriminate|reflexivity]).
  constructor.
  - vm_compute. discriminate.
  - apply chain_tree_ok; [apply Hi; lia..|done].
  - apply lookup_insert_eq.
  - unfold leaf. assert (Ev : frame_tree !! vpath TRAPFRAME = Some 0x80103000) by (vm_compute; reflexivity). rewrite Ev.
    change (PX 0 TRAPFRAME) with 510.
    destruct (chain_word 255 511 510 frame_leaf 510 (Hi 255 ltac:(lia)) (Hi 511 ltac:(lia)) (Hi 510 ltac:(lia)) He (Hi 510 ltac:(lia))) as (_ & _ & E). exact E.
  - apply sample_page_ok; [reflexivity|lia].
  - intros path. intros [[_ E]|[[_ E]|[_ E]]]%chain_tree_elem; discriminate.
Qed.

(** A hart in user mode. *)
Definition sample_user : hart :=
  mkHart User 0x100 (fun r => if decide (r = a7) then 11 else 5)
    (fun c => match c with satp => MAKE_SATP 0x80101000 | sscratch => TRAPFRAME | stvec => TRAMPOLINE | _ => 0 end) frame_mem.

Definition sample_supervisor : hart :=
  mkHart Supervisor 0 (fun r => if decide (r = a0) then TRAPFRAME else MAKE_SATP 0x80101000) (fun _ => 0) frame_mem.

Lemma trap_roundtrip_witness :
  exists h u', run uservec (user_trap 8 sample_user) = Some h /\ run userret sample_supervisor = Some u' /\ h_mode u' = User.
Proof.
  destruct (trap_roundtrip sample_image frame_tree 0x80101000 0x80104000 sample_user 8) as (h & E & H).
  - intros r. simpl. case_decide; lia.
  - exact frame_mapped_sample.
  - reflexivity.
  - reflexivity.
  - destruct (H sample_supervisor frame_tree 0x80101000 eq_refl frame_mapped_sample eq_refl eq_refl eq_refl) as (u' & E' & Hu & _).
    exists h, u'. exact (conj E (conj E' Hu)).
Defined.

(** C15: [usertrapret] and [userret] enter user mode at the saved program counter with the
    registers of the trap frame and interrupts on; and the next trap of the user code,
    whatever it did to its registers and its memory, enters the kernel through [uservec]
    in [usertrap], on the kernel's page table, at the top of the process's kernel stack
    and with the hart's number in tp, with the user's registers in the frame. *)
Theorem return_to_user_correct sy k me pr t regs other cause :
  let m := ph_mem (k_phys k) in
  let tf := p_trapframe pr in
  let pt := p_pagetable pr in
  core_ok (k_core k) me [] -> c_procs (k_core k) !! me = Some pr -> frame_mapped (k_img k) m t pt tf ->
  0 <= sy_usertrap sy < 2 ^ 64 -> 0 <= cs_satp (dv_csr (k_dev k)) < 2 ^ 64 -> 0 <= p_kstack pr < 2 ^ 64 - PGSIZE ->
  Z.testbit (cs_sstatus (dv_csr (k_dev k))) 1 = false -> (c_hart (k_core k) < NCPU)%nat ->
  wp (usertrapret sy) (fun '(fn, x0, x1) k' =>
    fn = TRAMPOLINE + (sy_userret sy - img_trampoline (k_img k)) /\
    exists h, run userret (kernel_hart k' other (upd a0 x0 (upd a1 x1 regs))) = Some h /\
      h_mode h = User /\ h_pc h = word m (tf + TF_EPC) /\ frame_holds m tf h /\ Z.testbit (h_csr h sstatus) 1 = true /\
      forall u, h_mode u = User -> regs_ok u -> h_csr u = h_csr h -> frame_mapped (k_img k) (h_mem u) t pt tf ->
        (forall x, within tf 40 x -> h_mem u x = h_mem h x) ->
        h_pc (user_trap cause u) = TRAMPOLINE + (sy_uservec sy - img_trampoline (k_img k)) /\
        exists h', run uservec (user_trap cause u) = Some h' /\ h_mode h' = Supervisor /\ h_pc h' = sy_usertrap sy /\
          rget h' sp = p_kstack pr + PGSIZE /\ rget h' tp = Z.of_nat (c_hart (k_core k)) /\
          h_csr h' satp = cs_satp (dv_csr (k_dev k)) /\ h_csr h' sepc = h_pc u /\ h_csr h' scause = cause /\
          Z.testbit (h_csr h' sstatus) 8 = false /\ frame_holds (h_mem h') tf u) k.
Proof.
  intros m tf pt Hc Hp Hm Hut Hsatp Hks Hsie Hh.
  assert (Hf : frame_ok pr).
  { unfold frame_ok. pose proof (ram_page _ _ (fm_img _ _ _ _ _ Hm) (fm_page _ _ _ _ _ Hm)) as Hr.
    revert Hr. fold tf. unfold in_ram, PGSIZE. rewrite !andb_true_iff, !Z.leb_le. lia. }
  wp_apply (usertrapret_correct sy k me pr Hc Hp Hf Hut Hsatp Hks Hsie Hh).
  intros [[fn x0] x1] k' (Er & S8 & S5 & Hi & Epc & Evec & W1 & W2 & W3 & W4 & Hmem). fold tf in Epc, W1, W2, W3, W4, Hmem. fold m in Epc, Hmem. injection Er as -> -> ->.
  split; [done|]. set (hk := kernel_hart k' other _). set (m' := ph_mem (k_phys k')) in *.
  assert (Hout : forall x, ~ within tf 40 x -> m' x = m x).
  { intros x Hx. apply Hmem; unfold within, TF_EPC, TF_KERNEL_HARTID in *; lia. }
  assert (Hm' : frame_mapped (k_img k) m' t pt tf).
  { eapply frame_mapped_ext; [exact Hm|]. intros x Hx. apply Hout. unfold within, PGSIZE in *. lia. }
  assert (Hslot : forall r o, (r, o) ∈ frame_regs -> word m' (tf + o) = word m (tf + o)).
  { intros r o Hin. apply word_same. intros x Hx. apply Hout. unfold within.
    assert (H40 : Forall (fun ro : reg * Z => 40 <= ro.2) frame_regs) by (repeat constructor; simpl; lia).
    rewrite Forall_forall in H40. specialize (H40 _ Hin). simpl in H40. lia. }
  assert (Es : h_csr hk sstatus = cs_sstatus (dv_csr (k_dev k'))).
  { cbn [hk kernel_hart h_csr]. rewrite Hi. apply Z.lor_0_r. }
  destruct (run_userret hk tf) as (h & E & Md & Pc & Rg & Sp & Ss & Sv & Si & Mm).
  { eapply area_weaken; [|eapply frame_area; [exact Hm'|unfold PGSIZE; lia]]. done. }
  { by rewrite Es. }
  exists h. rewrite Es, S5 in Si. split_ands; [exact E|exact Md|by rewrite Pc| |exact Si|].
  { intros r o Hin. by rewrite (Rg _ _ Hin), <- (Hslot _ _ Hin). }
  intros u _ Hru Hcsr Hmu Hfr. split; [cbn [user_trap h_pc]; by rewrite Hcsr, Sv|].
  destruct (enter_kernel (k_img k) t pt tf u cause) as (h' & E' & A1 & A2 & A3 & A4 & A5 & A6 & A7 & A8 & A9 & _);
    [done|done|by rewrite Hcsr|by rewrite Hcsr|].
  assert (Hw : forall o, 0 <= o <= 32 -> word (h_mem u) (tf + o) = word m' (tf + o)).
  { intros o Ho. apply word_same. intros x Hx. rewrite Hfr, Mm by (unfold within; lia). done. }
  exists h'. rewrite A2, A3, A4, A5, !Hw by done. split_ands; done.
Qed.

(** The kernel of a process with this address space. *)
Definition frame_kernel : kernel :=
  set_k_core (set_c_procs (alter (set_p_trapframe (fun _ => 0x80104000)) 0%nat)) (first_kernel sample_disk frame_mem sample_image).

Lemma return_to_user_correct_witness :
  exists r k' h, usertrapret (mkSymbols 0 0 0 0x80002000 [] 0) frame_kernel = Ok r k' /\
    run userret (kernel_hart k' (fun _ => 0) (upd a0 r.1.2 (upd a1 r.2 (fun _ => 0)))) = Some h /\ h_mode h = User.
Proof.
  assert (Hc : core_ok (held_core []) 0 []) by (apply held_core_ok; [apply NoDup_nil_2|done]).
  assert (Hk : core_ok (k_core frame_kernel) 0 []) by (destruct Hc; constructor; done).
  destruct (wp_ok _ _ _ (return_to_user_correct (mkSymbols 0 0 0 0x80002000 [] 0) frame_kernel 0 (set_p_trapframe (fun _ => 0x80104000) first_proc)
    frame_tree (fun _ => 0) (fun _ => 0) 8 Hk eq_refl frame_mapped_sample
    ltac:(simpl; lia) ltac:(simpl; lia) ltac:(simpl; unfold PGSIZE; lia) eq_refl ltac:(simpl; unfold NCPU; lia)))
    as ([[fn x0] x1] & k' & E & _ & h & E' & Hu & _).
  exists (fn, x0, x1), k', h. exact (conj E (conj E' Hu)).
Defined.

(** ** The context switch *)

Definition context_of (f : reg -> Z) : context :=
  mkContext (f ra) (f sp) (f <$> [s0; s1; s2; s3; s4; s5; s6; s7; s8; s9; s10; s11]).

(** The [struct context] at address [a]. *)
Definition context_at (m : mem) (a : Z) : context :=
  mkContext (word m (a + 0)) (word m (a + 8))
    ((fun o => word m (a + o)) <$> [16; 24; 32; 40; 48; 56; 64; 72; 80; 88; 96; 104]).

Lemma context_eq m a f : (forall r o, (r, o) ∈ context_regs -> word m (a + o) = f r) <-> context_at m a = context_of f.
Proof.
  split.
  - intros H. assert (HF : Forall (fun ro => word m (a + ro.2) = f ro.1) context_regs).
    { apply Forall_forall. intros [r o] Hin. by apply H. }
    unfold context_regs in HF. rewrite !Forall_cons in HF. cbn [fst snd] in HF. decompose [and] HF.
    unfold context_at, context_of. cbn [fmap list_fmap]. congruence.
  - unfold context_at, context_of. cbn [fmap list_fmap]. intros [=] r o Hin.
    unfold context_regs in Hin. rewrite !elem_of_cons, elem_of_nil in Hin.
    repeat (destruct Hin as [Hin|Hin]; [injection Hin as -> ->; assumption|]). done.
Qed.

(** [swtch] saves the context of the caller at [old] and continues that at [new]. *)
Lemma run_swtch h old new :
  let m := h_mem h in
  regs_ok h -> harea h (within old 112) (rget h a0) old 112 -> harea h (within old 112) (rget h a1) new 112 ->
  old + 112 <= new \/ new + 112 <= old ->
  exists h', run swtch h = Some h' /\ h_mode h' = h_mode h /\ h_csr h' = h_csr h /\ h_pc h' = ctx_ra (context_at m new) /\
    context_at (h_mem h') old = context_of (rget h) /\ context_of (rget h') = context_at m new /\
    (forall r, r ∉ context_regs.*1 -> rget h' r = rget h r) /\
    (forall x, ~ within old 112 x -> h_mem h' x = m x).
Proof.
  intros m Hr Ho Hn Hd.
  assert (Ecode : swtch = ((fun ro => sd ro.1 ro.2 a0) <$> context_regs) ++ ((fun ro => ld ro.1 ro.2 a1) <$> context_regs) ++ [ret]) by reflexivity.
  rewrite Ecode. clear Ecode. destruct context_slots as (Sl & S1 & S2).
  rewrite (run_saves _ _ _ _ _ _ _ Ho) by done. fold m. set (m1 := saves _ _ _ _).
  assert (H1 : forall x, ~ within old 112 x -> m1 x = m x) by (intros; by eapply saves_out).
  assert (Hsv : context_at m1 old = context_of (rget h)).
  { apply context_eq. intros r o Hin. eapply saves_word; [exact context_slots|done|by apply rget_ok]. }
  assert (Hnew : forall r o, (r, o) ∈ context_regs -> word m1 (new + o) = word m (new + o)).
  { intros r o Hin. apply word_same. intros x Hx. apply H1. rewrite Forall_forall in Sl. destruct (Sl _ Hin) as (? & ? & _). simpl in *.
    unfold within. lia. }
  clearbody m1.
  rewrite (run_loads _ _ _ (within old 112) new 112); [|rewrite rget_hmem; by apply harea_hmem|done|by repeat constructor].
  cbn [with_hmem h_mem h_regs]. set (f := loads _ _ _ _).
  assert (Hf : forall r o, (r, o) ∈ context_regs -> word m (new + o) = f r).
  { intros r o Hin. unfold f. rewrite (loads_word _ _ _ _ r o) by done. symmetry. by eapply Hnew. }
  assert (Hk : forall r, r ∉ context_regs.*1 -> f r = h_regs h r) by (intros; by apply loads_out).
  clearbody f. erewrite run_step by reflexivity. eexists. split; [reflexivity|].
  cbn [jump with_regs h_mode h_csr h_mem h_pc]. rewrite (rget_reg _ ra) by done. split_ands; try done.
  - symmetry. apply (Hf ra 0), (bool_decide_unpack _). reflexivity.
  - symmetry. apply context_eq. intros r o Hin. rewrite (Hf _ _ Hin), rget_reg; [done|]. intros ->. revert Hin. apply (bool_decide_unpack _). reflexivity.
  - intros r Hr'. unfold rget. case_decide; [done|]. by apply Hk.
Qed.

(** C16: [swtch] is a coroutine switch.  It stores the caller's context, continues the one
    it is given at the address in its ra, and changes no register outside a context.
    Whenever a hart, this one or another, later switches to the stored context, it is
    where [swtch] was called, with the stack pointer and the callee-saved registers of
    the call. *)
Theorem swtch_resumes h old new :
  regs_ok h -> harea h (within old 112) (rget h a0) old 112 -> harea h (within old 112) (rget h a1) new 112 ->
  old + 112 <= new \/ new + 112 <= old ->
  exists h', run swtch h = Some h' /\ h_pc h' = ctx_ra (context_at (h_mem h) new) /\
    context_of (rget h') = context_at (h_mem h) new /\
    (forall r, r ∉ context_regs.*1 -> rget h' r = rget h r) /\
    (forall x, ~ within old 112 x -> h_mem h' x = h_mem h x) /\
    forall g other, regs_ok g -> harea g (within other 112) (rget g a0) other 112 ->
      harea g (within other 112) (rget g a1) old 112 -> other + 112 <= old \/ old + 112 <= other ->
      (forall x, within old 112 x -> h_mem g x = h_mem h' x) ->
      exists g', run swtch g = Some g' /\ h_pc g' = rget h ra /\ context_of (rget g') = context_of (rget h).
Proof.
  intros Hr Ho Hn Hd. destruct (run_swtch h old new Hr Ho Hn Hd) as (h' & E & _ & _ & Epc & Es & Ec & Ek & Em).
  exists h'. split_ands; try done. intros g other Gr Go Gn Gd Gm.
  destruct (run_swtch g other old Gr Go Gn) as (g' & E' & _ & _ & Epc' & _ & Ec' & _ & _); [lia|].
  assert (Ex : context_at (h_mem g) old = context_of (rget h)).
  { apply context_eq. intros r o Hin. pose proof (proj1 context_slots) as Sl. rewrite Forall_forall in Sl.
    destruct (Sl _ Hin) as (? & ? & _). simpl in *. rewrite <- (proj2 (context_eq _ _ _) Es _ _ Hin).
    apply word_same. intros x Hx. apply Gm. unfold within. lia. }
  exists g'. rewrite Epc', Ec', Ex. done.
Qed.

(** In machine mode, or with paging off, every address is its own. *)
Lemma bare_area md x m W va n :
  md = Machine \/ x = 0 -> 0 <= va -> va + n < 2 ^ 64 -> va mod 8 = 0 -> area md x m W va va n.
Proof.
  intros Hx H0 Hn H8 m' _ o need Ho Hon Ho8 _. rewrite u64_small by lia. split.
  - rewrite Z.add_mod, H8, Ho8 by lia. done.
  - unfold translate. case_decide; [done|]. destruct Hx as [?| ->]; done.
Qed.

Definition sample_thread : hart :=
  mkHart Supervisor 0 (fun r => match r with a0 => 0x80200000 | a1 => 0x80200100 | ra => 0x80001234 | _ => 7 end) (fun _ => 0)
    (mwrite (fun _ => 0) 0x80200100 (le_split 8 0x80005678)).

Lemma swtch_resumes_witness :
  exists h', run swtch sample_thread = Some h' /\ h_pc h' = 0x80005678.
Proof.
  destruct (swtch_resumes sample_thread 0x80200000 0x80200100) as (h' & E & Hpc & _).
  - intros r. destruct r; simpl; lia.
  - apply bare_area; [by right|done|done|reflexivity].
  - apply bare_area; [by right|done|done|reflexivity].
  - lia.
  - exists h'. exact (conj E Hpc).
Defined.

(** ** Traps in the kernel *)

Lemma sret_sie s : Z.testbit (Z.clearbit (Z.setbit (if Z.testbit s 5 then Z.setbit s 1 else Z.clearbit s 1) 5) 8) 1 = Z.testbit s 5.
Proof.
  rewrite Z.clearbit_neq, Z.setbit_neq by lia. destruct (Z.testbit s 5); [by rewrite Z.setbit_eq|by rewrite Z.clearbit_eq].
Qed.

Lemma run_pop_sret h f :
  run [addi sp sp 256; sret] (with_regs h f) =
  Some (do_sret (mkHart (h_mode h) (h_pc h) (upd sp (u64 (f sp + 256)) f) (h_csr h) (h_mem h))).
Proof. done. Qed.

Lemma run_kernelvec_exit g f pa :
  harea g (fun _ => False) (rget g sp) pa 256 -> (forall r o, (r, o) ∈ stack_regs -> word (h_mem g) (pa + o) = f r) ->
  f sp = rget g sp -> f zero = 0 ->
  exists h', run kernelvec_exit g = Some h' /\ h_pc h' = h_csr g sepc /\ h_mem h' = h_mem g /\
    (forall r, r <> tp -> r <> sp -> rget h' r = f r) /\ rget h' sp = u64 (f sp + 256) /\ rget h' tp = rget g tp /\
    h_mode h' = (if Z.testbit (h_csr g sstatus) 8 then Supervisor else User) /\
    Z.testbit (h_csr h' sstatus) 1 = Z.testbit (h_csr g sstatus) 5.
Proof.
  intros Ha Hw Hsp Hz. set (l := take 3 stack_regs ++ drop 4 stack_regs).
  assert (Ecode : kernelvec_exit = ((fun ro => ld ro.1 ro.2 sp) <$> l) ++ [addi sp sp 256; sret]) by reflexivity.
  rewrite Ecode. clear Ecode. destruct stack_slots as (Sl & S1 & S2).
  assert (Hl : forall ro, ro ∈ l -> ro ∈ stack_regs).
  { intros ro Hin. assert (Es : stack_regs = take 3 stack_regs ++ (tp, 24) :: drop 4 stack_regs) by reflexivity.
    rewrite Es. apply elem_of_app in Hin. rewrite elem_of_app, elem_of_cons. tauto. }
  assert (Sl' : Forall (slot 256) l) by (apply Forall_app; split; [by apply Forall_take|by apply Forall_drop]).
  rewrite (run_loads _ _ _ _ _ _ _ Ha Sl').
  2: { apply Forall_forall. intros [r o] Hin E. simpl in *. subst r. rewrite <- Hsp. by apply Hw, Hl. }
  set (x := loads _ _ _ _).
  assert (Hx : forall r, r <> tp -> r <> zero -> x r = f r).
  { intros r Ht Hr. assert (exists o, (r, o) ∈ l) as [o Hin].
    { assert (Hin : r ∈ l.*1) by (destruct r; try done; apply (bool_decide_unpack _); reflexivity).
      apply list_elem_of_fmap in Hin as ([r' o] & -> & Hin). by exists o. }
    unfold x. rewrite (loads_word _ _ _ _ r o); [by apply Hw, Hl| |done]. apply (bool_decide_unpack _). reflexivity. }
  assert (Hxt : x tp = h_regs g tp) by (apply loads_out, (bool_decide_unpack _); reflexivity).
  clearbody x. rewrite run_pop_sret. eexists. split; [reflexivity|]. unfold do_sret. cbn [h_mode h_pc h_regs h_csr h_mem].
  rewrite upd_eq, sret_sie. split_ands; try done.
  - intros r Ht Hs. unfold rget. cbn [h_regs]. case_decide; [by subst|]. rewrite upd_ne by done. by apply Hx.
  - rewrite rget_reg by done. cbn [h_regs]. by rewrite upd_eq, Hx.
Qed.

(** C36: A trap of kernel code is invisible to it: [kernelvec] saves the registers on the
    stack below the interrupted code's and calls [kerneltrap]; when that returns, on
    whatever hart, with the stack as it found it, the interrupted code goes on at sepc
    with all its registers but tp, which is that of the hart it is on now. *)
Theorem kernelvec_transparent h pa kerneltrap link :
  let sp' := u64 (rget h sp - 256) in
  regs_ok h -> harea h (within pa 256) sp' pa 256 ->
  exists hc, run (kernelvec_entry kerneltrap link) h = Some hc /\ h_pc hc = kerneltrap /\ rget hc ra = link /\ rget hc sp = sp' /\
    (forall x, ~ within pa 256 x -> h_mem hc x = h_mem h x) /\
    forall g, harea g (fun _ => False) sp' pa 256 -> rget g sp = sp' ->
      (forall x, within pa 256 x -> h_mem g x = h_mem hc x) ->
      exists h', run kernelvec_exit g = Some h' /\ h_pc h' = h_csr g sepc /\ h_mem h' = h_mem g /\
        (forall r, r <> tp -> rget h' r = rget h r) /\ rget h' tp = rget g tp /\
        h_mode h' = (if Z.testbit (h_csr g sstatus) 8 then Supervisor else User) /\
        Z.testbit (h_csr h' sstatus) 1 = Z.testbit (h_csr g sstatus) 5.
Proof.
  intros sp' Hr Ha.
  assert (Ecode : kernelvec_entry kerneltrap link = addi sp sp (-256) :: ((fun ro => sd ro.1 ro.2 sp) <$> stack_regs) ++ [call kerneltrap link]) by reflexivity.
  rewrite Ecode. clear Ecode. erewrite run_step by reflexivity.
  change (u64 (rget h sp + -256)) with sp'. set (h1 := rset sp sp' h).
  assert (R1 : rget h1 sp = sp') by (unfold h1; rewrite rget_reg by done; apply upd_eq).
  assert (Rk : forall r, r <> sp -> rget h1 r = rget h r) by (intros; by apply rget_rset).
  assert (Ok1 : forall r, 0 <= rget h1 r < 2 ^ 64).
  { intros r. destruct (decide (r = sp)) as [->|]; [rewrite R1; apply u64_range|]. rewrite Rk by done. by apply rget_ok. }
  assert (M1 : h_mem h1 = h_mem h) by reflexivity.
  assert (Ha1 : harea h1 (within pa 256) (rget h1 sp) pa 256) by (rewrite R1; by apply harea_rset).
  clearbody h1. destruct stack_slots as (Sl & S1 & S2).
  rewrite (run_saves _ _ _ _ _ _ _ Ha1) by done. rewrite M1. set (m1 := saves _ _ _ _).
  assert (Hm1 : forall x, ~ within pa 256 x -> m1 x = h_mem h x) by (intros; by eapply saves_out).
  assert (Hw : forall r o, (r, o) ∈ stack_regs -> word m1 (pa + o) = rget h1 r).
  { intros r o Hin. by eapply saves_word. }
  clearbody m1. erewrite run_step by reflexivity. eexists. split; [reflexivity|].
  assert (Rl : forall g' : hart, rget (jump kerneltrap (rset ra link g')) ra = link) by done.
  rewrite Rl. cbn [jump h_pc h_mem]. split_ands; [done|done|exact R1|done|].
  intros g Hg Rg Mg. destruct (run_kernelvec_exit g (rget h1) pa) as (h' & E & Epc & Em & Er & Es & Et & Ed & Eb).
  - by rewrite Rg.
  - intros r o Hin. rewrite <- (Hw _ _ Hin). apply word_same. intros x Hx. apply Mg. rewrite Forall_forall in Sl.
    destruct (Sl _ Hin) as (? & ? & _). unfold within. simpl in *. lia.
  - by rewrite R1.
  - by rewrite Rk.
  - exists h'. split_ands; try done. intros r Ht. destruct (decide (r = sp)) as [->|Hsp]; [|rewrite Er by done; by apply Rk].
    rewrite Es, R1. unfold sp', u64. rewrite Z.add_mod_idemp_l by lia. rewrite Z.sub_add. apply Z.mod_small. by apply rget_ok.
Qed.

Lemma kernelvec_transparent_witness :
  exists hc, run (kernelvec_entry 0x80002000 0x80005000) (rset sp 0x80300100 sample_thread) = Some hc /\ h_pc hc = 0x80002000.
Proof.
  destruct (kernelvec_transparent (rset sp 0x80300100 sample_thread) 0x80300000 0x80002000 0x80005000) as (hc & E & Hpc & _).
  - intros r. destruct r; simpl; unfold upd; case_decide; try done; simpl; lia.
  - apply bare_area; [by right|done|done|reflexivity].
  - exists hc. exact (conj E Hpc).
Defined.

(** ** The timer interrupt *)

(** Bits 1 (software interrupt pending) of sip, 3 of mstatus. *)
Lemma sip_bits x i : 0 <= i -> Z.testbit (Z.lor (Z.land x (Z.lnot 2)) (Z.land 2 2)) i = (i =? 1) || Z.testbit x i.
Proof.
  intros Hi. rewrite Z.lor_spec, Z.land_spec, Z.lnot_spec by done. change (Z.land 2 2) with (2 ^ 1).
  change (Z.testbit 2 i) with (Z.testbit (2 ^ 1) i). rewrite Z.pow2_bits_eqb by lia. rewrite (Z.eqb_sym i 1).
  by destruct (1 =? i), (Z.testbit x i).
Qed.

(** The part of [timervec] between the two swaps of a0. *)
Lemma run_timer_body h cmp :
  let m := h_mem h in
  let sc := rget h a0 in
  regs_ok h -> h_mode h = Machine -> 0 <= sc -> sc mod 8 = 0 -> sc + 40 < 2 ^ 64 ->
  word m (sc + 24) = cmp -> 0 <= cmp -> cmp mod 8 = 0 -> cmp + 8 < 2 ^ 64 -> cmp + 8 <= sc \/ sc + 40 <= cmp ->
  exists h', run (slice 1 13 timervec) h = Some h' /\ h_mode h' = Machine /\ (forall r, rget h' r = rget h r) /\
    h_csr h' = h_csr (csr_write sip 2 h) /\ word (h_mem h') cmp = u64 (word m cmp + word m (sc + 32)) /\
    (forall x, ~ within sc 24 x -> ~ within cmp 8 x -> h_mem h' x = m x).
Proof.
  intros m sc Hr Hmd Hs0 Hs8 Hs64 Hcmp Hc0 Hc8 Hc64 Hd.
  assert (Ecode : slice 1 13 timervec = ((fun ro => sd ro.1 ro.2 a0) <$> [(a1, 0); (a2, 8); (a3, 16)]) ++
    ((fun ro => ld ro.1 ro.2 a0) <$> [(a1, 24); (a2, 32)]) ++ ((fun ro => ld ro.1 ro.2 a1) <$> [(a3, 0)]) ++
    add a3 a3 a2 :: ((fun ro => sd ro.1 ro.2 a1) <$> [(a3, 0)]) ++ li a1 2 :: csrw sip a1 ::
    ((fun ro => ld ro.1 ro.2 a0) <$> [(a3, 16); (a2, 8); (a1, 0)]) ++ []) by reflexivity.
  rewrite Ecode. clear Ecode.
  assert (Area : forall h' va n, h_mode h' = Machine -> 0 <= va -> va mod 8 = 0 -> va + n < 2 ^ 64 -> harea h' (fun _ => True) va va n).
  { intros. apply bare_area; auto. }
  rewrite (run_saves _ _ _ (fun _ => True) sc 40); [|by apply Area|done|by repeat constructor]. fold m. set (m1 := saves _ _ _ _).
  assert (M1 : forall x, ~ within sc 24 x -> m1 x = m x).
  { intros x Hx. apply saves_apart. repeat constructor; unfold within in *; simpl; lia. }
  assert (W1 : forall a, a + 8 <= sc \/ sc + 24 <= a -> word m1 a = word m a).
  { intros a Ha. apply word_same. intros x Hx. apply M1. unfold within. lia. }
  assert (V1 : word m1 (sc + 0) = rget h a1 /\ word m1 (sc + 8) = rget h a2 /\ word m1 (sc + 16) = rget h a3).
  { assert (Hsl : slots 40 [(a1, 0); (a2, 8); (a3, 16)]) by (apply slots_dec; [reflexivity|apply (bool_decide_unpack _); reflexivity..]).
    split_ands; (eapply saves_word; [exact Hsl|apply (bool_decide_unpack _); reflexivity|by apply rget_ok]). }
  destruct V1 as (V1 & V2 & V3). clearbody m1.
  rewrite (run_loads _ _ _ (fun _ => True) sc 40); [|by apply Area|by repeat constructor|by repeat constructor].
  cbn [with_hmem h_mem h_regs loads fold_left fst snd]. rewrite (W1 (sc + 24)), (W1 (sc + 32)), Hcmp by lia.
  set (h2 := with_regs _ _).
  assert (R2 : rget h2 a1 = cmp /\ rget h2 a2 = word m (sc + 32) /\ rget h2 a0 = sc) by done. destruct R2 as (R21 & R22 & R20).
  assert (K2 : forall r, r <> a1 -> r <> a2 -> rget h2 r = rget h r).
  { intros r H1 H2. unfold rget. cbn [h2 with_regs h_regs]. by rewrite !upd_ne. }
  assert (F2 : h_mode h2 = Machine /\ h_csr h2 = h_csr h /\ h_mem h2 = m1) by done. destruct F2 as (F21 & F22 & F23). clearbody h2.
  rewrite (run_loads _ _ _ (fun _ => True) cmp 8); [|rewrite R21; by apply Area|by repeat constructor|by repeat constructor].
  erewrite run_step by reflexivity. rewrite F23. cbn [loads fold_left fst snd]. rewrite Z.add_0_r, (W1 cmp) by lia.
  set (h3 := rset a3 _ _).
  assert (R3 : rget h3 a3 = u64 (word m cmp + word m (sc + 32))) by (unfold h3; rewrite rget_reg by done; cbn [rset h_regs]; rewrite upd_eq; by rewrite <- R22).
  assert (K3 : forall r, r <> a3 -> rget h3 r = rget h2 r).
  { intros r H3. unfold h3. rewrite rget_rset by done. unfold rget. cbn [with_regs h_regs]. by rewrite upd_ne. }
  assert (F3 : h_mode h3 = Machine /\ h_csr h3 = h_csr h2 /\ h_mem h3 = h_mem h2) by done. destruct F3 as (F31 & F32 & F33). clearbody h3.
  rewrite (run_saves _ _ _ (fun _ => True) cmp 8); [|rewrite K3, R21 by done; by apply Area|done|by repeat constructor].
  cbn [saves fold_left fst snd]. rewrite Z.add_0_r, R3, F33, F23. set (m2 := mwrite m1 cmp _).
  assert (W2 : forall a, a + 8 <= cmp \/ cmp + 8 <= a -> word m2 a = word m1 a) by (intros; apply word_mwrite_ne; lia).
  assert (V4 : word m2 cmp = u64 (word m cmp + word m (sc + 32))) by (apply word_mwrite, u64_range).
  assert (M2 : forall x, ~ within cmp 8 x -> m2 x = m1 x).
  { intros x Hx. apply mwrite_out. unfold within in Hx. len. }
  clearbody m2. do 2 erewrite run_step by reflexivity. set (h4 := csr_write sip _ _).
  assert (K4 : forall r, r <> a1 -> rget h4 r = rget h3 r).
  { intros r H1. unfold rget. cbn [h4 csr_write rset with_hmem h_regs]. by rewrite upd_ne. }
  assert (F4 : h_mode h4 = h_mode h3 /\ h_csr h4 = upd sip (Z.lor (Z.land (h_csr h3 sip) (Z.lnot 2)) (Z.land 2 2)) (h_csr h3) /\ h_mem h4 = m2) by done.
  destruct F4 as (F41 & F42 & F43). clearbody h4.
  rewrite (run_loads _ _ _ (fun _ => True) sc 40); [|rewrite K4, K3, R20 by done; apply Area; [congruence|done..]|by repeat constructor|by repeat constructor].
  rewrite F43. cbn [loads fold_left fst snd]. rewrite !W2, V1, V2, V3 by lia. cbn [run].
  eexists. split; [reflexivity|]. cbn [with_regs h_mode h_csr h_mem]. rewrite F41, F31, F42, F32, F22, F43. split_ands; try done.
  - intros r. unfold rget at 1. cbn [with_regs h_regs]. case_decide as Hz; [by subst r|].
    destruct (decide (r = a1)) as [->|N1]; [by rewrite upd_eq|]. rewrite upd_ne by done.
    destruct (decide (r = a2)) as [->|N2]; [by rewrite upd_eq|]. rewrite upd_ne by done.
    destruct (decide (r = a3)) as [->|N3]; [by rewrite upd_eq|]. rewrite upd_ne by done.
    rewrite <- rget_reg, K4, K3, K2 by done. done.
  - intros x X1 X2. by rewrite M2, M1.
Qed.

Ltac zbits := repeat first [rewrite Z.clearbit_eqb | rewrite Z.setbit_eqb by lia].

Lemma timer_trap_bits h :
  let s := h_csr (timer_trap h) mstatus in
  Z.testbit s 7 = Z.testbit (h_csr h mstatus) 3 /\ Z.testbit s 11 = negb (bool_decide (h_mode h = User)) /\
  Z.testbit s 12 = bool_decide (h_mode h = Machine).
Proof.
  cbn [timer_trap h_csr]. rewrite upd_eq. set (s := h_csr h mstatus).
  destruct (h_mode h), (Z.testbit s 3) eqn:E3; split_ands; zbits;
    match goal with |- context [Z.testbit s ?n] => by destruct (Z.testbit s n) | _ => done end.
Qed.

Lemma mret_timer_trap h g :
  h_csr g mstatus = h_csr (timer_trap h) mstatus -> h_csr g mepc = h_csr (timer_trap h) mepc ->
  h_mode (do_mret g) = h_mode h /\ h_pc (do_mret g) = h_pc h /\
  Z.testbit (h_csr (do_mret g) mstatus) 3 = Z.testbit (h_csr h mstatus) 3.
Proof.
  intros Es Ee. destruct (timer_trap_bits h) as (E7 & E11 & E12). unfold do_mret. cbn [h_mode h_pc h_csr]. rewrite upd_eq, Es, Ee, E7, E11, E12.
  split_ands; [by destruct (h_mode h)|done|]. rewrite !Z.clearbit_eqb, Z.setbit_eqb by lia.
  destruct (Z.testbit (h_csr h mstatus) 3); zbits; [done|]. by destruct (Z.testbit _ 3).
Qed.

(** A timer interrupt is invisible to the code it interrupts, whatever its mode, and
    gives the supervisor a software interrupt.  With the scratch area [timerinit] has set
    up, [timervec] moves the comparator of the hart's clock on by the interval, restores
    every register, mscratch and the machine's interrupt enable, and goes on where the
    code was. *)
Theorem timervec_transparent h id mtime sc tv m0 :
  let mc := timerinit id mtime sc tv m0 in
  let cmp := CLINT_MTIMECMP id in
  regs_ok h -> length (m_scratch m0) = 5%nat -> 0 <= id < Z.of_nat NCPU -> KERNBASE <= sc < PHYSTOP -> sc mod 8 = 0 ->
  h_csr h mscratch = m_mscratch mc -> h_csr h mtvec = m_mtvec mc ->
  (forall i v, m_scratch mc !! i = Some v -> word (h_mem h) (sc + 8 * Z.of_nat i) = v) ->
  h_pc (timer_trap h) = tv /\
  exists h', run timervec (timer_trap h) = Some h' /\ h_mode h' = h_mode h /\ h_pc h' = h_pc h /\
    (forall r, rget h' r = rget h r) /\
    word (h_mem h') cmp = u64 (word (h_mem h) cmp + 1000000) /\
    (forall x, ~ within sc 24 x -> ~ within cmp 8 x -> h_mem h' x = h_mem h x) /\
    (forall i, 0 <= i -> Z.testbit (h_csr h' sip) i = (i =? 1) || Z.testbit (h_csr h sip) i) /\
    (forall c, c ∉ [sip; mstatus; mepc] -> h_csr h' c = h_csr h c) /\
    Z.testbit (h_csr h' mstatus) 3 = Z.testbit (h_csr h mstatus) 3.
Proof.
  intros mc cmp Hr Hlen Hid Hsc Hs8 Hms Htv Hscr. split; [exact Htv|].
  assert (Ecode : timervec = csrrw a0 mscratch a0 :: slice 1 13 timervec ++ [csrrw a0 mscratch a0; mret]) by reflexivity.
  rewrite Ecode. clear Ecode. erewrite run_step by reflexivity. set (ht := timer_trap h). set (h1 := rset a0 _ _).
  assert (W3 : word (h_mem h) (sc + 24) = cmp).
  { apply (Hscr 3%nat). cbn [mc timerinit m_scratch]. apply list_lookup_insert_eq. rewrite length_insert. lia. }
  assert (W4 : word (h_mem h) (sc + 32) = 1000000).
  { apply (Hscr 4%nat). cbn [mc timerinit m_scratch]. rewrite list_lookup_insert_ne by lia. apply list_lookup_insert_eq. lia. }
  assert (R1 : rget h1 a0 = sc) by (etransitivity; [|exact Hms]; reflexivity).
  assert (K1 : forall r, r <> a0 -> rget h1 r = rget h r).
  { intros r Hne. unfold h1. by rewrite rget_rset. }
  assert (M1 : h_mem h1 = h_mem h) by reflexivity.
  assert (Ok1 : regs_ok h1).
  { intros r. destruct (decide (r = a0)) as [->|Hne]; [|cbn [h1 rset csr_write h_regs]; rewrite upd_ne by done; apply Hr].
    rewrite <- rget_reg, R1 by done. unfold PHYSTOP, KERNBASE in Hsc. lia. }
  assert (C1 : forall c, c ∉ [mscratch; mstatus; mepc] -> h_csr h1 c = h_csr h c).
  { intros c Hc. rewrite !not_elem_of_cons in Hc. destruct Hc as (? & ? & ? & _). cbn. by rewrite !upd_ne. }
  assert (C2 : h_csr h1 mscratch = rget h a0 /\ h_csr h1 mstatus = h_csr ht mstatus /\ h_csr h1 mepc = h_csr ht mepc) by done.
  assert (Md1 : h_mode h1 = Machine) by reflexivity. clearbody h1. destruct C2 as (C21 & C22 & C23).
  assert (Hcmp : 0 <= cmp /\ cmp + 8 < KERNBASE /\ cmp mod 8 = 0 /\ sc + 40 < 2 ^ 64).
  { unfold cmp, CLINT_MTIMECMP, CLINT, NCPU, PHYSTOP, KERNBASE in *. split_ands; [lia|lia| |lia].
    change (0x2000000 + 0x4000) with (4196352 * 8). rewrite (Z.mul_comm 8), <- Z.mul_add_distr_r. apply Z.mod_mul. lia. }
  destruct Hcmp as (Hc0 & Hc1 & Hc8 & Hs64). unfold KERNBASE in *.
  destruct (run_timer_body h1 cmp) as (h2 & E2 & Md2 & R2 & Cs2 & W2 & M2); rewrite ?R1, ?M1; [done|done|lia|done|lia|done|lia|done|lia|lia|].
  rewrite run_app, E2. cbn [mbind option_bind]. do 2 erewrite run_step by reflexivity.
  set (h3 := rset a0 _ _).
  assert (C3 : forall c, c <> mscratch -> h_csr h3 c = h_csr h2 c) by (intros c Hc; cbn [h3 rset csr_write h_csr]; by destruct c).
  assert (C3s : h_csr h3 mscratch = sc) by (rewrite <- R1, <- (R2 a0); reflexivity).
  assert (R3 : forall r, rget h3 r = rget h r).
  { intros r. destruct (decide (r = a0)) as [->|Hne].
    - rewrite rget_reg by done. cbn [h3 rset h_regs]. by rewrite upd_eq, Cs2.
    - unfold h3. rewrite rget_rset by done. rewrite <- K1, <- R2 by done. reflexivity. }
  assert (M3 : h_mem h3 = h_mem h2) by reflexivity. clearbody h3.
  assert (C2 : forall c, c <> sip -> h_csr h2 c = h_csr h1 c) by (intros c Hc; rewrite Cs2; by destruct c).
  destruct (mret_timer_trap h h3) as (T1 & T2 & T3); [by rewrite C3, C2 by done..|].
  eexists. split; [reflexivity|]. rewrite T1, T2, T3. cbn [do_mret h_mem h_csr].
  split_ands; [done|done|exact R3| | | | |done].
  - by rewrite M3, W2, R1, M1, W4.
  - intros x X1 X2. rewrite M3, M2, M1 by (rewrite ?R1; done). done.
  - intros i Hi. rewrite upd_ne, C3, Cs2 by done. cbn [csr_write h_csr]. rewrite upd_eq, sip_bits by done. rewrite C1; [done|]. by apply (bool_decide_unpack _).
  - intros c Hc. rewrite !not_elem_of_cons in Hc. destruct Hc as (N1 & N2 & N3 & _). rewrite upd_ne by done.
    destruct (decide (c = mscratch)) as [->|Hne]; [by rewrite C3s, Hms|].
    rewrite C3, C2 by done. apply C1. rewrite !not_elem_of_cons. split_ands; try done. apply not_elem_of_nil.
Qed.

Definition sample_scratch : mem :=
  mwrite (mwrite (fun _ => 0) 0x80008018 (le_split 8 (CLINT_MTIMECMP 0))) 0x80008020 (le_split 8 1000000).

Definition sample_interrupted : hart :=
  mkHart User 0x100 (fun _ => 7) (fun c => match c with mscratch => 0x80008000 | mtvec => 0x80005800 | _ => 0 end) sample_scratch.

Lemma timervec_transparent_witness :
  exists h', run timervec (timer_trap sample_interrupted) = Some h' /\ h_mode h' = User /\ h_pc h' = 0x100.
Proof.
  set (m0 := mkMachine 0 0 0 0 0 0 0 0 0 0 0 0 0 [0; 0; 0; 0; 0]).
  destruct (timervec_transparent sample_interrupted 0 0 0x80008000 0x80005800 m0) as (_ & h' & E & Hm & Hpc & _).
  - intros r. simpl. lia.
  - reflexivity.
  - unfold NCPU. lia.
  - unfold PHYSTOP, KERNBASE. lia.
  - reflexivity.
  - reflexivity.
  - reflexivity.
  - intros i v Hi. do 5 (destruct i as [|i]; [injection Hi as <-; vm_compute; reflexivity|]). discriminate.
  - exists h'. exact (conj E (conj Hm Hpc)).
Defined.

(** ** The first instructions *)

(** The stack on which a hart calls [start] is its own of the array [stack0]. *)
Lemma run_entry h stack0 start_addr link :
  0 <= stack0 < 2 ^ 63 -> 0 <= h_csr h mhartid < Z.of_nat NCPU ->
  exists h', run (entry stack0 start_addr link) h = Some h' /\ h_pc h' = start_addr /\
    rget h' sp = stack0 + 4096 * (h_csr h mhartid + 1) /\ h_mem h' = h_mem h.
Proof.
  intros Hs Hid. unfold NCPU in Hid. unfold entry. do 7 erewrite run_step by reflexivity. eexists. split; [reflexivity|].
  split_ands; [done| |done].
  transitivity (u64 (stack0 + u64 (u64 (1024 * 4) * u64 (h_csr h mhartid + 1)))); [reflexivity|].
  rewrite (u64_small (1024 * 4)), (u64_small (h_csr h mhartid + 1)) by lia. rewrite (u64_small (_ * _)), u64_small by lia. lia.
Qed.
