(* ===== verification/Initcode.v ===== *)
(** * The first user program (user/initcode.S, kernel/proc.c, kernel/vm.c)

    [userinit] gives the first process one page, filled by [uvminit] with the bytes of
    [initcode].  Here are the instructions these bytes hold, a machine that fetches,
    decodes and runs them through the page table of the process, and the assembly
    listing they come from. *)

From S2P Require Import Prelude State Spin Sleep Uart Printf Bio Log Txn Strings Kalloc Vm FsBlock FsInode FsDir Console Pipe File Proc Exec Syscall Sysfile Virtio Trap Asm.

(** ** Definitions: machine instructions *)

Inductive uinstr :=
| Auipc (rd : reg) (imm : Z)
| Addi (rd rs : reg) (imm : Z)
| Ecall
| Jal (rd : reg) (off : Z).

(** The registers by number. *)
Definition registers : list reg :=
  [zero; ra; sp; gp; tp; t0; t1; t2; s0; s1; a0; a1; a2; a3; a4; a5; a6; a7;
   s2; s3; s4; s5; s6; s7; s8; s9; s10; s11; t3; t4; t5; t6].

(** [n] bits of [w] from bit [lo] on, and a field of [n] bits read as a signed number. *)
Definition field (w lo n : Z) : Z := Z.land (Z.shiftr w lo) (Z.ones n).

Definition sext (n x : Z) : Z := if Z.testbit x (n - 1) then x - 2 ^ n else x.

Definition reg_at (w lo : Z) : option reg := registers !! Z.to_nat (field w lo 5).

Definition jal_offset (w : Z) : Z :=
  sext 21 (Z.shiftl (field w 31 1) 20 + Z.shiftl (field w 12 8) 12 + Z.shiftl (field w 20 1) 11 +
    Z.shiftl (field w 21 10) 1).

(** The instruction a 32-bit word encodes, of those [initcode] uses. *)
Definition decode (w : Z) : option uinstr :=
  rd ← reg_at w 7;
  rs ← reg_at w 15;
  if field w 0 7 =? 0x17 then Some (Auipc rd (sext 32 (Z.shiftl (field w 12 20) 12)))
  else if (field w 0 7 =? 0x13) && (field w 12 3 =? 0) then Some (Addi rd rs (sext 12 (field w 20 12)))
  else if field w 0 7 =? 0x6f then Some (Jal rd (jal_offset w))
  else if w =? 0x73 then Some Ecall
  else None.

(** ** Definitions: the machine *)

Record ustate := mkUstate { u_pc : Z; u_regs : reg -> Z }.

Definition ureg (u : ustate) (r : reg) : Z := if decide (r = zero) then 0 else u_regs u r.

Definition uset (r : reg) (v : Z) (u : ustate) : ustate := mkUstate (u_pc u) (upd r v (u_regs u)).

Definition ujump (pc : Z) (u : ustate) : ustate := mkUstate (u64 pc) (u_regs u).

Section machine.

(** The bytes of user memory: [load va n] is the [n] bytes at [va], if they are mapped. *)
Variable load : Z -> nat -> option (list Z).

Definition fetch (pc : Z) : option uinstr := b ← load pc 4; decode (le_join b).

(** The machine up to its next system call; the program counter is then at the [ecall]. *)
Fixpoint until_ecall (fuel : nat) (u : ustate) : option ustate :=
  match fuel with
  | O => None
  | S fuel =>
      i ← fetch (u_pc u);
      match i with
      | Ecall => Some u
      | Auipc rd imm => until_ecall fuel (ujump (u_pc u + 4) (uset rd (u64 (u_pc u + imm)) u))
      | Addi rd rs imm => until_ecall fuel (ujump (u_pc u + 4) (uset rd (u64 (ureg u rs + imm)) u))
      | Jal rd off => until_ecall fuel (ujump (u_pc u + off) (uset rd (u64 (u_pc u + 4)) u))
      end
  end.

(** The system calls the machine makes when they return the values [vs], and one more:
    the state at each. *)
Fixpoint calls (fuel : nat) (vs : list Z) (u : ustate) : option (list ustate) :=
  u' ← until_ecall fuel u;
  match vs with
  | [] => Some [u']
  | v :: vs => cons u' <$> calls fuel vs (ujump (u_pc u' + 4) (uset a0 v u'))
  end.

Fixpoint load_string (fuel : nat) (va : Z) : option (list Z) :=
  match fuel with
  | O => None
  | S fuel =>
      b ← load va 1;
      match b with
      | [0] => Some []
      | [c] => cons c <$> load_string fuel (va + 1)
      | _ => None
      end
  end.

(** An array of pointers to strings that ends with a null pointer. *)
Fixpoint load_argv (fuel : nat) (va : Z) : option (list (list Z)) :=
  match fuel with
  | O => None
  | S fuel =>
      b ← load va 8;
      if le_join b =? 0 then Some []
      else s ← load_string 4096 (le_join b); cons s <$> load_argv fuel (va + 8)
  end.

End machine.

(** ** Definitions: the listing *)

Inductive asm :=
| a_la (rd : reg) (label : Z)
| a_li (rd : reg) (imm : Z)
| a_ecall
| a_jal (label : Z).

(** What the assembler makes of a line at the address [pc]. *)
Definition assemble1 (pc : Z) (l : asm) : list uinstr :=
  match l with
  | a_la rd label => [Auipc rd 0; Addi rd rd (label - pc)]
  | a_li rd imm => [Addi rd zero imm]
  | a_ecall => [Ecall]
  | a_jal label => [Jal ra (label - pc)]
  end.

Fixpoint assemble (pc : Z) (ls : list asm) : list uinstr :=
  match ls with
  | [] => []
  | l :: ls => assemble1 pc l ++ assemble (pc + 4 * Z.of_nat (length (assemble1 pc l))) ls
  end.

Definition SYS_exit := 2.

Definition SYS_exec := 7.

Definition initcode_S (exit init argv : Z) : list asm :=
  [a_la a0 init;
   a_la a1 argv;
   a_li a7 SYS_exec;
   a_ecall;
   a_li a7 SYS_exit;
   a_ecall;
   a_jal exit].

(** The words of a list of bytes. *)
Fixpoint words (n : nat) (b : list Z) : list Z :=
  match n with
  | O => []
  | S n => le_join (take 4 b) :: words n (drop 4 b)
  end.

(** ** Lemmas *)

(** The bytes are the listing, with [argv] at 0x2b, right after the string. *)
Lemma initcode_listing :
  mapM decode (words 9 initcode) = Some (assemble 0 (initcode_S 0x18 0x24 0x2b)) /\
  take 7 (drop 0x24 initcode) = chars "/init" ++ [0; 0].
Proof. split; reflexivity. Qed.

(** The page the process starts with. *)
Definition first_page (src : list Z) : list Z := src ++ replicate (Z.to_nat PGSIZE - length src) 0.

Definition load_page (va : Z) (n : nat) : option (list Z) :=
  if (0 <=? va) && (va + Z.of_nat n <=? PGSIZE) then Some (take n (drop (Z.to_nat va) (first_page initcode)))
  else None.

Section extension.

Variables load load' : Z -> nat -> option (list Z).

Hypothesis extends : forall va n b, load va n = Some b -> load' va n = Some b.

Lemma fetch_extends pc i : fetch load pc = Some i -> fetch load' pc = Some i.
Proof. unfold fetch. destruct (load pc 4) as [b|] eqn:E; [|done]. by rewrite (extends _ _ _ E). Qed.

Lemma until_ecall_extends fuel u u' : until_ecall load fuel u = Some u' -> until_ecall load' fuel u = Some u'.
Proof.
  revert u. induction fuel as [|fuel IH]; intros u; [done|]. cbn [until_ecall].
  destruct (fetch load (u_pc u)) as [i|] eqn:E; [|done]. rewrite (fetch_extends _ _ E).
  destruct i; simpl; auto.
Qed.

Lemma calls_extends fuel vs u us : calls load fuel vs u = Some us -> calls load' fuel vs u = Some us.
Proof.
  revert u us. induction vs as [|v vs IH]; intros u us; cbn [calls];
    (destruct (until_ecall load fuel u) as [u'|] eqn:E; [|done]); rewrite (until_ecall_extends _ _ _ E); simpl; [done|].
  intros (us' & H & ->)%fmap_Some. by rewrite (IH _ _ H).
Qed.

Lemma load_string_extends fuel va s : load_string load fuel va = Some s -> load_string load' fuel va = Some s.
Proof.
  revert va s. induction fuel as [|fuel IH]; intros va s; [done|]. cbn [load_string].
  destruct (load va 1) as [b|] eqn:E; [|done]. rewrite (extends _ _ _ E). simpl.
  destruct b as [|c [|? ?]]; [done| |by destruct c].
  assert (forall r, cons c <$> load_string load fuel (va + 1) = Some r ->
    cons c <$> load_string load' fuel (va + 1) = Some r) as H.
  { intros r (s' & Hs & ->)%fmap_Some. by rewrite (IH _ _ Hs). }
  destruct c; [done|apply H..].
Qed.

Lemma load_argv_extends fuel va l : load_argv load fuel va = Some l -> load_argv load' fuel va = Some l.
Proof.
  revert va l. induction fuel as [|fuel IH]; intros va l; [done|]. cbn [load_argv].
  destruct (load va 8) as [b|] eqn:E; [|done]. rewrite (extends _ _ _ E). cbn [mbind option_bind].
  destruct (le_join b =? 0); [done|]. destruct (load_string load 4096 (le_join b)) as [s|] eqn:Es; [|done].
  rewrite (load_string_extends _ _ _ Es). cbn [mbind option_bind].
  intros (l' & H & ->)%fmap_Some. by rewrite (IH _ _ H).
Qed.

End extension.

(** The first call, and every later one. *)
Lemma first_call regs : exists u, until_ecall load_page 6 (mkUstate 0 regs) = Some u /\
  u_pc u = 0x14 /\ ureg u a7 = SYS_exec /\ ureg u a0 = 0x24 /\ ureg u a1 = 0x2b.
Proof. eexists. split; [vm_compute; reflexivity|]. split_and!; reflexivity. Qed.

Lemma next_call u : u_pc u = 0x18 \/ u_pc u = 0x20 ->
  exists u', until_ecall load_page 6 u = Some u' /\ u_pc u' = 0x1c /\ ureg u' a7 = SYS_exit.
Proof.
  destruct u as [pc regs]. cbn [u_pc]. intros [-> | ->];
    (eexists; split; [vm_compute; reflexivity|]; split; reflexivity).
Qed.

Lemma exit_calls vs u : u_pc u = 0x18 \/ u_pc u = 0x20 ->
  exists us, calls load_page 6 vs u = Some us /\ length us = S (length vs) /\
    Forall (fun u => ureg u a7 = SYS_exit) us.
Proof.
  revert u. induction vs as [|v vs IH]; intros u Hu;
    destruct (next_call u Hu) as (u' & E & Hpc & Ha); cbn [calls]; rewrite E; cbn [mbind option_bind].
  - eexists. split; [done|]. auto.
  - destruct (IH (ujump (u_pc u' + 4) (uset a0 v u'))) as (us & -> & Hl & Hf); [right; by rewrite Hpc|].
    eexists. split; [done|]. simpl. auto.
Qed.

Lemma page_calls v vs regs :
  exists u us, calls load_page 6 (v :: vs) (mkUstate 0 regs) = Some (u :: us) /\ length us = S (length vs) /\
    ureg u a7 = SYS_exec /\ ureg u a0 = 0x24 /\ ureg u a1 = 0x2b /\ Forall (fun u => ureg u a7 = SYS_exit) us.
Proof.
  destruct (first_call regs) as (u & E & Hpc & H7 & H0 & H1). cbn [calls]. rewrite E. cbn [mbind option_bind].
  destruct (exit_calls vs (ujump (u_pc u + 4) (uset a0 v u))) as (us & -> & Hl & Hf); [left; by rewrite Hpc|].
  exists u, us. auto 10.
Qed.

Lemma page_argv :
  load_string load_page 4096 0x24 = Some (chars "/init") /\ load_argv load_page 2 0x2b = Some [chars "/init"].
Proof. split; vm_compute; reflexivity. Qed.

(** A new page off the free list, cleared: the page table and the rest of the list stay. *)
Lemma vm_take_page img ph ph' t p l m' :
  vm_ok img ph t (p :: l) -> kmem_ok img ph' l -> page_ok img p -> p ∉ l ->
  same_outside p (ph_mem ph) (ph_mem ph') -> same_outside p (ph_mem ph') m' ->
  vm_ok img (set_ph_mem (fun _ => m') ph') t l /\ (forall va, leaf m' t va = leaf (ph_mem ph) t va) /\
  ~ owned t l p.
Proof.
  intros [_ Ht Hap] Hk Hp Hn Ho Ho'.
  assert (Hown : ~ owned t l p).
  { intros [?|[path E]]; [done|]. apply (Hap _ _ E). left. }
  set (ph0 := set_ph_mem (fun _ => ph_mem ph) ph').
  assert (Hv : vm_ok img ph0 t l).
  { destruct Hk as [Hi Hf Hnd Hpg]. constructor; [constructor; try done|done|].
    - eapply (flist_outside _ (ph_mem ph')); try done. intros x Hx. symmetry. by apply Ho.
    - intros path q E Hq. apply (Hap _ _ E). by right. }
  destruct (vm_frame_write img ph0 t l p m' Hv Hp Hown) as [H1 H2].
  { by eapply same_outside_trans. }
  auto.
Qed.

(** The entry [uvminit] makes. *)
Lemma user_entry p :
  p mod PGSIZE = 0 -> 0 <= p < 2 ^ 56 ->
  let e := Z.lor (Z.lor (PA2PTE p) (Z.lor (Z.lor (Z.lor PTE_W PTE_R) PTE_X) PTE_U)) PTE_V in
  PTE2PA e = p /\ has e PTE_V = true /\ has e PTE_U = true.
Proof.
  intros Hm Hp e.
  assert (Ee : e = Z.lor (PA2PTE p) 0x1f) by (unfold e; by rewrite <- Z.lor_assoc).
  destruct (pte_make p 0x1f Hm Hp ltac:(lia)) as (_ & H1 & H2 & _). rewrite <- Ee in H1, H2.
  split; [done|]. clearbody e. unfold PTE_FLAGS in H2. unfold has, PTE_V, PTE_U.
  assert (H : forall f, Z.land f 0x3FF = f -> Z.land e f = Z.land 0x1f f).
  { intros f Hf. by rewrite <- H2, <- Z.land_assoc, (Z.land_comm 0x3FF f), Hf. }
  rewrite !H by reflexivity. done.
Qed.

Lemma first_page_byte m p src (i : nat) :
  Z.of_nat (length src) < PGSIZE -> Z.of_nat i < PGSIZE -> (forall x, p <= x < p + PGSIZE -> m x = 0) ->
  first_page src !! i = Some (mwrite m p src (p + Z.of_nat i)).
Proof.
  intros Hl Hi Hz. unfold first_page. destruct (decide (i < length src)%nat) as [H|H].
  - rewrite lookup_app_l, mwrite_in, Z.add_simpl_l, Nat2Z.id by lia. by apply list_lookup_lookup_total_lt.
  - rewrite lookup_app_r, lookup_replicate_2, mwrite_out, Hz by (unfold PGSIZE in *; lia). done.
Qed.

Lemma first_page_mread m p src va n :
  Z.of_nat (length src) < PGSIZE -> 0 <= va -> va + Z.of_nat n <= PGSIZE ->
  (forall x, p <= x < p + PGSIZE -> m x = 0) ->
  mread (mwrite m p src) (p + va) n = take n (drop (Z.to_nat va) (first_page src)).
Proof.
  intros Hl H0 Hn Hz. apply list_eq. intros i. destruct (decide (i < n)%nat) as [Hi|Hi].
  - rewrite lookup_mread, lookup_take_lt, lookup_drop, (first_page_byte m p) by (done || lia).
    do 2 f_equal. lia.
  - rewrite !lookup_ge_None_2; [done|rewrite length_take; lia|rewrite length_mread; lia].
Qed.

(** [uvminit] puts the bytes, followed by zeros, at the addresses from 0 on, unless the
    allocator ran out of pages for the tables. *)
Lemma wp_uvminit k me t p l pt src :
  core_ok (k_core k) me [] -> vm_ok (k_img k) (k_phys k) t (p :: l) -> t !! [] = Some pt ->
  has (leaf (ph_mem (k_phys k)) t 0) PTE_V = false -> Z.of_nat (length src) < PGSIZE ->
  wp (uvminit pt src) (fun _ k' => core_ok (k_core k') me [] /\
    exists t' l', vm_ok (k_img k) (k_phys k') t' l' /\ t ⊆ t' /\
      (l' <> [] -> forall va n, 0 <= va -> va + Z.of_nat n <= PGSIZE ->
         ubytes (ph_mem (k_phys k')) t' va n = Some (take n (drop (Z.to_nat va) (first_page src))))) k.
Proof.
  intros Hc Hv Hpt Hfree Hlen. assert (HP : PGSIZE = 4096) by done.
  pose proof (km_img _ _ _ (vo_kmem _ _ _ _ Hv)) as Hi. unfold uvminit.
  rewrite (proj2 (Z.leb_gt _ _)) by done. wp_steps.
  eapply wp_kalloc; [exact Hc|simpl; lia|apply not_elem_of_nil|exact (vo_kmem _ _ _ _ Hv)|done|].
  intros q l1 c1 ph1 [= <- <-] Hc1 _ Hk1 Hp Hn Em. destruct (page_ok_small _ _ Hi Hp) as [Hpm Hps].
  wp_steps. apply wp_upd_mem; [by eapply ram_page|]. wp_steps.
  cbv [set_k_phys set_ph_mem k_core k_bcache k_disk k_log k_sb k_itable k_ftable k_pipes k_phys k_ticks k_img k_dev].
  set (m1 := memset (ph_mem ph1) p 0 PGSIZE).
  assert (Ho1 : same_outside p (ph_mem (k_phys k)) (ph_mem ph1)) by (rewrite Em; apply memset_outside). clear Em.
  destruct (vm_take_page (k_img k) (k_phys k) ph1 t p l m1 Hv Hk1 Hp Hn Ho1 (memset_outside _ _ _)) as (Hv1 & Hl1 & Hown).
  assert (Hz1 : forall x, p <= x < p + PGSIZE -> m1 x = 0).
  { intros x Hx. unfold m1, memset. rewrite memset_loop_spec, decide_True by lia. reflexivity. }
  clearbody m1.
  eapply wp_mappages; [exact Hc1|simpl; lia|apply not_elem_of_nil|exact Hv1|exact Hpt|lia|lia|
    vm_compute; discriminate|done|lia| |vm_compute; split; [discriminate|reflexivity]| |].
  { destruct Hp as (_ & _ & Hp). change PHYSTOP with 0x88000000 in Hp. lia. }
  { intros v Hva. cbn. rewrite Hl1, <- Hfree. f_equal. apply leaf_page.
    change (PGROUNDDOWN 0) with 0 in Hva. change ((0 + PGSIZE - 1) / PGSIZE - 0 / PGSIZE + 1) with 1 in Hva.
    rewrite !Z.div_small by lia. done. }
  intros r c2 ph2 t' l' j Hc2 _ [Hv2 Hsub Hl2 Hm2 Ho2] Hr. cbn in Hm2, Hl2.
  assert (Hown2 : ~ owned t' l' p) by auto.
  assert (Hz2 : forall x, p <= x < p + PGSIZE -> ph_mem ph2 x = 0).
  { intros x Hx. rewrite Hm2; [by apply Hz1|]. intros q Hq Hxq.
    assert (q <> p) by (by intros ->). destruct Hp as (Hp & _).
    assert (q mod PGSIZE = 0) as Hqm.
    { destruct Hq as [Hq|[path Hq]]; [|by eapply (to_page _ _ _ (vo_tree _ _ _ _ Hv1))].
      by apply (proj1 (Forall_forall _ _) (km_pages _ _ _ (vo_kmem _ _ _ _ Hv1))). }
    destruct (pages_apart p q) as [|]; try done; lia. }
  wp_steps. unfold st_mem. apply wp_upd_mem.
  { rewrite <- (Z.add_0_r p). apply (ram_part (k_img k)); (done || lia). }
  destruct (vm_frame_write (k_img k) ph2 t' l' p (mwrite (ph_mem ph2) p src) Hv2 Hp Hown2) as [Hv3 Hl3].
  { apply mwrite_outside. lia. }
  split; [exact Hc2|]. exists t', l'. split; [exact Hv3|]. split; [done|].
  intros Hne va n H0 Hva. destruct Hr as [[-> ->]|(_ & _ & ?)]; [|done].
  cbn [k_phys set_k_phys ph_mem set_ph_mem]. unfold ubytes.
  rewrite <- (first_page_mread (ph_mem ph2) p) by done. apply uload_chunk. intros i Hri.
  unfold uaddr. rewrite Hl3, Hl2 by (change MAXVA with (2 ^ 38); lia).
  change (PGROUNDDOWN 0) with 0. change ((0 + PGSIZE - 1) / PGSIZE - 0 / PGSIZE + 1) with 1.
  unfold mapped. rewrite decide_True by lia.
  rewrite Z.sub_0_r, (Z.div_small (va + i)), Z.mul_0_l, Z.add_0_r, (Z.mod_small (va + i)) by lia.
  destruct (user_entry p Hpm Hps) as (-> & -> & ->).
  rewrite (proj2 (Z.ltb_lt _ _)) by (change MAXVA with (2 ^ 38); lia). cbn. f_equal. lia.
Qed.

(** ** Properties *)

(** Page tables whose entry for address 0 is empty, and two free pages. *)
Definition start_mem : mem := mwrite (chain_mem 0 0 0 0) 0x80100000 (le_split 8 0x80104000).

Definition start_kernel : kernel :=
  set_k_phys (set_ph_freelist (fun _ => 0x80100000)) (first_kernel sample_disk start_mem sample_image).

Lemma start_tree_ok : tree_ok sample_image start_mem (chain_tree 0 0).
Proof.
  set (ph := mkPhys (chain_mem 0 0 0 0) 0 0).
  assert (Hv : vm_ok sample_image ph (chain_tree 0 0) []).
  { constructor; [|apply chain_tree_ok; split; lia|].
    - constructor; [vm_compute; discriminate|reflexivity|constructor|constructor].
    - intros path p _. apply not_elem_of_nil. }
  destruct (vm_frame_write sample_image ph _ _ 0x80100000 start_mem Hv) as [Hv' _].
  - apply sample_page_ok; [reflexivity|lia].
  - intros [[]%not_elem_of_nil|[path [[_ ?]|[[_ ?]|[_ ?]]]%chain_tree_elem]]; discriminate.
  - apply mwrite_outside. vm_compute. discriminate.
  - exact (vo_tree _ _ _ _ Hv').
Qed.

Lemma start_vm_ok : vm_ok sample_image (k_phys start_kernel) (chain_tree 0 0) [0x80100000; 0x80104000].
Proof.
  constructor; [|exact start_tree_ok|].
  - constructor; [vm_compute; discriminate| | |].
    + split; [reflexivity|]. split; vm_compute; reflexivity.
    + apply NoDup_cons. split; [rewrite list_elem_of_singleton; discriminate|apply NoDup_singleton].
    + repeat apply Forall_cons_2; [..|constructor]; (apply sample_page_ok; [reflexivity|lia]).
  - intros path p Hp Hin. apply list_elem_of_In in Hin. simpl in Hin.
    apply chain_tree_elem in Hp as [[_ ->]|[[_ ->]|[_ ->]]]; destruct Hin as [?|[?|[]]]; discriminate.
Qed.

(** C19: the first process.  [uvminit] on a table that maps nothing at address 0: when
    pages are left, the process started at address 0, whatever its registers hold, makes
    the system call 7 of the table, [exec], with the path /init and the argument vector
    whose only string is /init.  Should that call return, and whatever it and the later
    calls return, every later call is number 2, [exit].  The table stays well formed. *)
Theorem first_process k me t p l pt pad :
  core_ok (k_core k) me [] -> vm_ok (k_img k) (k_phys k) t (p :: l) -> t !! [] = Some pt ->
  has (leaf (ph_mem (k_phys k)) t 0) PTE_V = false ->
  wp (uvminit pt initcode) (fun _ k' => core_ok (k_core k') me [] /\
    exists t' l', vm_ok (k_img k) (k_phys k') t' l' /\ t ⊆ t' /\
      (ph_freelist (k_phys k') <> 0 -> forall regs v vs, let load := ubytes (ph_mem (k_phys k')) t' in
        exists u us, calls load 6 (v :: vs) (mkUstate 0 regs) = Some (u :: us) /\ length us = S (length vs) /\
          syscalls pad (ureg u a7) = Some sys_exec /\
          load_string load 4096 (ureg u a0) = Some (chars "/init") /\
          load_argv load 2 (ureg u a1) = Some [chars "/init"] /\
          Forall (fun u => syscalls pad (ureg u a7) = Some sys_exit) us)) k.
Proof.
  intros Hc Hv Hpt Hf. eapply wp_mono; [exact (wp_uvminit k me t p l pt initcode Hc Hv Hpt Hf eq_refl)|].
  intros [] k' (H1 & t' & l' & H2 & H3 & H4). split; [done|]. exists t', l'. split; [done|]. split; [done|].
  intros Hl regs v vs load. assert (Hne : l' <> []) by (intros ->; by apply Hl, (km_list _ _ _ (vo_kmem _ _ _ _ H2))).
  assert (He : forall va n b, load_page va n = Some b -> load va n = Some b).
  { intros va n b. unfold load_page. destruct (Z.leb_spec 0 va), (Z.leb_spec (va + Z.of_nat n) PGSIZE); try done.
    intros E. rewrite <- E. by apply H4. }
  destruct (page_calls v vs regs) as (u & us & E & Hn & E7 & E0 & E1 & Hx). destruct page_argv as [Hs Ha].
  exists u, us. rewrite E7, E0, E1. split_and!; [by eapply calls_extends|done|done|by eapply load_string_extends|
    by eapply load_argv_extends|]. eapply Forall_impl; [exact Hx|]. by intros ? ->.
Qed.

Lemma first_process_witness :
  exists k' t', uvminit 0x80101000 initcode start_kernel = Ok tt k' /\
    exists u us, calls (ubytes (ph_mem (k_phys k')) t') 6 [-1; -1] (mkUstate 0 (fun _ => 7)) = Some (u :: us) /\
      syscalls [] (ureg u a7) = Some sys_exec /\ length us = 2%nat.
Proof.
  assert (Hc : core_ok (k_core start_kernel) 0 []) by (apply (held_core_ok []); [constructor|done]).
  destruct (wp_ok _ _ _ (first_process start_kernel 0 (chain_tree 0 0) 0x80100000 [0x80104000] 0x80101000 []
    Hc start_vm_ok eq_refl eq_refl)) as ([] & k' & E & _ & t' & l' & _ & _ & H).
  exists k', t'. split; [exact E|].
  assert (Hf : match uvminit 0x80101000 initcode start_kernel with Ok _ k' => ph_freelist (k_phys k') | _ => 0 end
    = 0x80104000) by (vm_compute; reflexivity).
  rewrite E in Hf. destruct (H ltac:(rewrite Hf; discriminate) (fun _ => 7) (-1) [-1]) as (u & us & H1 & H2 & H3 & _).
  exists u, us. exact (conj H1 (conj H3 H2)).
Defined.
