(* ===== verification/Boot.v ===== *)
(** * Starting the harts (kernel/main.c)

    Every hart runs [main]; the first one sets up the kernel and then stores 1 to
    [started], for which the others wait.  Here the calls of [main] are steps of harts
    that run side by side, one memory access of [started] at a time. *)

From S2P Require Import Prelude State Spin Sleep Uart Printf Bio Log Txn Strings Kalloc Vm FsBlock FsInode FsDir Console Pipe File Proc Exec Syscall Sysfile Virtio Trap.

(** ** Definitions *)

Inductive task :=
| t_consoleinit | t_printfinit | t_newline | t_booting | t_kinit | t_kvminit | t_kvminithart | t_procinit | t_trapinit
| t_trapinithart | t_plicinit | t_plicinithart | t_binit | t_iinit | t_fileinit | t_virtio_disk_init | t_userinit
| t_starting (id : nat)
| t_set_started | t_wait_started | t_scheduler.

#[export] Instance task_eq_dec : EqDecision task.
Proof. solve_decision. Defined.

(** What the first hart does before the others may start, and what the others do then. *)
Definition setup : list task :=
  [t_consoleinit; t_printfinit; t_newline; t_booting; t_newline; t_kinit; t_kvminit; t_kvminithart; t_procinit;
   t_trapinit; t_trapinithart; t_plicinit; t_plicinithart; t_binit; t_iinit; t_fileinit; t_virtio_disk_init; t_userinit].

Definition join (id : nat) : list task := [t_starting id; t_kvminithart; t_trapinithart; t_plicinithart].

Definition main_tasks (id : nat) : list task :=
  if (id =? 0)%nat then setup ++ [t_set_started; t_scheduler]
  else t_wait_started :: join id ++ [t_scheduler].

(** The call of a task; the last three are not calls that return. *)
Definition task_body (sy : symbols) (reg : Z -> Z) (pages : Z) (t : task) : K unit :=
  match t with
  | t_consoleinit => consoleinit
  | t_printfinit => printfinit
  | t_newline => printf newline []
  | t_booting => printf ("xv6 kernel is booting" +:+ newline) []
  | t_kinit => kinit
  | t_kvminit => kvminit
  | t_kvminithart => kvminithart
  | t_procinit => procinit
  | t_trapinit => trapinit
  | t_trapinithart => trapinithart sy
  | t_plicinit => plicinit
  | t_plicinithart => plicinithart
  | t_binit => binit
  | t_iinit => iinit
  | t_fileinit => fileinit
  | t_virtio_disk_init => virtio_disk_init reg pages
  | t_userinit => userinit
  | t_starting id => printf ("hart %d starting" +:+ newline) [PInt (Z.of_nat id)]
  | t_set_started | t_wait_started | t_scheduler => M_ret tt
  end.

(** The harts: the variable [started], what each has yet to do, and what was done, the
    latest first. *)
Record harts := mkHarts {
  started : Z;
  todo : nat -> list task;
  past : list (nat * task)
}.

Definition does (s : harts) (i : nat) (t : task) (l : list task) (v : Z) : harts :=
  mkHarts v (fun j => if decide (j = i) then l else todo s j) ((i, t) :: past s).

Inductive boot_step : harts -> harts -> Prop :=
| b_call s i t l : todo s i = t :: l -> t <> t_set_started -> t <> t_wait_started ->
    boot_step s (does s i t l (started s))
| b_set s i l : todo s i = t_set_started :: l -> boot_step s (does s i t_set_started l 1)
| b_wait s i l : todo s i = t_wait_started :: l -> started s <> 0 ->
    boot_step s (does s i t_wait_started l (started s))
| b_spin s i l : todo s i = t_wait_started :: l -> started s = 0 -> boot_step s s.

Inductive boots : harts -> Prop :=
| boots_start : boots (mkHarts 0 main_tasks [])
| boots_step s s' : boots s -> boot_step s s' -> boots s'.

(** What a hart has done, in order. *)
Definition did (i : nat) (l : list (nat * task)) : list task :=
  rev (snd <$> filter (fun e => e.1 = i) l).

(** ** Lemmas *)

Lemma bind_ret (m : K unit) k : m k = (m ;* M_ret tt) k.
Proof. unfold M_bind. by destruct (m k) as [[] ?| | | |]. Qed.

(** The tasks of [main] are its body. *)
Lemma main_is_tasks sy reg pages k :
  main sy reg pages k = (let* id := cpuid in
    foldr (fun t r => task_body sy reg pages t ;* r) (M_ret tt) (if (id =? 0)%nat then setup else join id)) k.
Proof.
  apply bind_ext. intros id k1. destruct (id =? 0)%nat; cbn [foldr setup join task_body];
    repeat (apply bind_ext; intros [] ?); apply bind_ret.
Qed.

Lemma did_cons i j t l : did i ((j, t) :: l) = if decide (j = i) then did i l ++ [t] else did i l.
Proof. unfold did. rewrite filter_cons. simpl. by case_decide. Qed.

Lemma did_app i l1 l2 : did i l2 `prefix_of` did i (l1 ++ l2).
Proof.
  induction l1 as [|[j t] l1 IH]; [done|]. cbn [app]. rewrite did_cons. case_decide; [by apply prefix_app_r|done].
Qed.

Lemma did_elem i l : did i l <> [] -> exists l1 t l2, l = l1 ++ (i, t) :: l2.
Proof.
  induction l as [|[j t] l IH]; [done|]. rewrite did_cons. case_decide as E.
  - subst. intros _. by exists [], t, l.
  - intros (l1 & t' & l2 & ->)%IH. by exists ((j, t) :: l1), t', l2.
Qed.

(** The invariant: each hart has done a first part of its tasks; [started] is set when the
    first hart has set it; and the others have done nothing before the set-up. *)
Record boot_inv (s : harts) : Prop := mkBootInv {
  bi_split : forall i, did i (past s) ++ todo s i = main_tasks i;
  bi_started : started s <> 0 <-> t_set_started ∈ did 0 (past s);
  bi_order : forall l1 i t l2, past s = l1 ++ (i, t) :: l2 -> i <> 0%nat -> setup `prefix_of` did 0 l2
}.

(** The first hart has set [started] only after the set-up. *)
Lemma set_after_setup l r : l ++ r = main_tasks 0 -> t_set_started ∈ l -> setup `prefix_of` l.
Proof.
  intros E Hin. destruct (prefix_weak_total l setup (main_tasks 0)) as [[x Hx]|H]; [by exists r|by eexists| |done].
  exfalso. assert (t_set_started ∈ setup) as Hs by (rewrite Hx; apply elem_of_app; by left).
  revert Hs. by apply (bool_decide_unpack (t_set_started ∉ setup)).
Qed.

Lemma boot_does s i t l v :
  boot_inv s -> todo s i = t :: l -> (v = started s /\ t <> t_set_started \/ v = 1 /\ i = 0%nat /\ t = t_set_started) ->
  (t = t_wait_started -> started s <> 0) -> boot_inv (does s i t l v).
Proof.
  intros [Hs Hst Ho] Ht Hv Hw. constructor; cbn [does past todo started].
  - intros j. rewrite did_cons. specialize (Hs j). repeat case_decide; subst; try done. by rewrite <- app_assoc, <- Hs, Ht.
  - rewrite did_cons. destruct Hv as [[-> Hn]|(-> & -> & ->)]; case_decide; try done;
      rewrite ?elem_of_app, list_elem_of_singleton; [rewrite <- Hst; split; [auto|by intros [?|[=]]]|].
    split; [auto|done].
  - intros l1 j t' l2 E Hj. destruct l1 as [|e l1]; [injection E as <- <- <-|injection E as _ E; by eapply Ho].
    destruct (decide (t = t_wait_started)) as [->|Hnw].
    + eapply set_after_setup; [apply Hs|by apply Hst, Hw].
    + destruct (did_elem i (past s)) as (l1 & t' & l2 & E).
      * intros E. specialize (Hs i). rewrite E, Ht in Hs. unfold main_tasks in Hs.
        rewrite (proj2 (Nat.eqb_neq _ _) Hj) in Hs. injection Hs as Hs _. done.
      * etrans; [by eapply Ho|]. rewrite E. change ((i, t') :: l2) with ([(i, t')] ++ l2). rewrite app_assoc. apply did_app.
Qed.

Lemma set_is_first s i l : boot_inv s -> todo s i = t_set_started :: l -> i = 0%nat.
Proof.
  intros [Hs _ _] Ht. specialize (Hs i). rewrite Ht in Hs. destruct (decide (i = 0%nat)) as [|Hne]; [done|exfalso].
  assert (Hin : t_set_started ∈ main_tasks i) by (rewrite <- Hs; apply elem_of_app; right; left).
  unfold main_tasks in Hin. rewrite (proj2 (Nat.eqb_neq _ _) Hne) in Hin. unfold join in Hin. cbn [app] in Hin.
  rewrite !elem_of_cons in Hin. repeat (destruct Hin as [[=]|Hin]). by apply not_elem_of_nil in Hin.
Qed.

Lemma boots_inv s : boots s -> boot_inv s.
Proof.
  induction 1 as [|s s' _ IH Hst].
  - constructor; [done| |intros l1 i t l2 E; by destruct l1]. split; [done|]. by intros ?%not_elem_of_nil.
  - destruct Hst as [s i t l Ht H1 H2|s i l Ht|s i l Ht Hw|]; [..|done].
    + by apply boot_does; auto.
    + apply boot_does; [done|done|right|done]. split_and!; [done|by eapply set_is_first|done].
    + by apply boot_does; auto.
Qed.

(** ** Properties *)

(** The other harts do nothing before the first has set up the kernel: whatever a hart but
    the first has done, everything of the set-up had been done before, in the order of
    [main].  Every hart runs the tasks of [main] in their order. *)
Theorem boot_order s l1 i t l2 :
  boots s -> past s = l1 ++ (i, t) :: l2 ->
  did i (past s) `prefix_of` main_tasks i /\ (i <> 0%nat -> setup `prefix_of` did 0 l2).
Proof.
  intros [Hs _ Ho]%boots_inv E. split; [by exists (todo s i)|by eapply Ho].
Qed.

(** No hart waits for ever: as long as one has something to do, it or the first hart can do
    its next task. *)
Theorem boot_progress s i :
  boots s -> todo s i <> [] ->
  exists s' j, boot_step s s' /\ (j = i \/ j = 0%nat) /\ (length (todo s' j) < length (todo s j))%nat.
Proof.
  intros Hb%boots_inv Hne.
  assert (Hdo : forall j t l v, todo s j = t :: l -> (length (todo (does s j t l v) j) < length (todo s j))%nat).
  { intros j t l v E. rewrite E. cbn [does todo]. rewrite decide_True by done. simpl. lia. }
  assert (Hgo : forall j t l, todo s j = t :: l -> (t = t_wait_started -> started s <> 0) ->
    exists s', boot_step s s' /\ (length (todo s' j) < length (todo s j))%nat).
  { intros j t l E Hw. destruct (decide (t = t_set_started)) as [->|H1]; [|destruct (decide (t = t_wait_started)) as [->|H2]].
    - eexists. split; [by eapply b_set|by apply Hdo].
    - eexists. split; [exact (b_wait _ _ _ E (Hw eq_refl))|by apply Hdo].
    - eexists. split; [by eapply b_call|by apply Hdo]. }
  destruct (todo s i) as [|t l] eqn:E; [done|]. destruct (decide (t = t_wait_started /\ started s = 0)) as [[-> H0]|Hn].
  - destruct (todo s 0) as [|t0 l0] eqn:E0.
    + pose proof (bi_split s Hb 0) as Hs. rewrite E0, app_nil_r in Hs.
      assert (Hin : t_set_started ∈ did 0 (past s)).
      { rewrite Hs. by apply (bool_decide_unpack (t_set_started ∈ main_tasks 0)). }
      by apply (bi_started s Hb) in Hin.
    + destruct (Hgo 0%nat t0 l0 E0) as (s' & H1 & H2).
      * intros ->. exfalso. pose proof (bi_split s Hb 0) as Hs. rewrite E0 in Hs.
        assert (Hin : t_wait_started ∈ main_tasks 0) by (rewrite <- Hs; apply elem_of_app; right; left).
        revert Hin. by apply (bool_decide_unpack (t_wait_started ∉ main_tasks 0)).
      * exists s', 0%nat. auto.
  - destruct (Hgo i t l E) as (s' & H1 & H2); [intros -> ?; by apply Hn|]. exists s', i. auto.
Qed.
