(* ===== verification/Ulib.v ===== *)
(** * The user library (user/ulib.c, user/printf.c)

    The functions on memory work on the process's memory, byte by byte; [fuel] bounds the
    steps to the NUL that ends a string.  [gets] takes the bytes its calls of [read] get
    one at a time.  What [printf] prints is a list of bytes; its arguments are tagged
    with the conversion they are for. *)

From S2P Require Import Prelude Strings Ring State Spin Sleep Uart Printf.

(** ** Definitions: ulib.c *)

Fixpoint strcpy (fuel : nat) (m : mem) (s t : Z) : option mem :=
  match fuel with
  | O => None
  | S fuel =>
      let m' := mupd m s (m t) in
      if m t =? 0 then Some m' else strcpy fuel m' (s + 1) (t + 1)
  end.

Fixpoint strcmp (fuel : nat) (m : mem) (p q : Z) : option Z :=
  match fuel with
  | O => None
  | S fuel =>
      if truthy (m p) && (m p =? m q) then strcmp fuel m (p + 1) (q + 1)
      else Some (m p - m q)
  end.

Fixpoint ustrlen (fuel : nat) (m : mem) (s n : Z) : option Z :=
  match fuel with
  | O => None
  | S fuel => if m (s + n) =? 0 then Some n else ustrlen fuel m s (n + 1)
  end.

Fixpoint umemset (n : nat) (m : mem) (cdst i c : Z) : mem :=
  match n with
  | O => m
  | S n => umemset n (mupd m (cdst + i) (u8 c)) cdst (i + 1) c
  end.

(** [strchr(p, c)]: the offset from [p]; the string ends at a NUL. *)
Fixpoint strchr (p : list Z) (c : Z) : option nat :=
  match p with
  | [] => None
  | x :: p => if x =? 0 then None else if x =? c then Some 0%nat else S <$> strchr p c
  end.

(** The loop of [gets], with room for [n] more bytes: what goes into the buffer before
    the NUL, and the input that is left. *)
Fixpoint ugets_loop (n : nat) (input : list Z) : list Z * list Z :=
  match n, input with
  | S n, c :: input =>
      if (c =? 10) || (c =? 13) then ([c], input)
      else let r := ugets_loop n input in (c :: r.1, r.2)
  | _, _ => ([], input)
  end.

Definition ugets (max : nat) (input : list Z) : list Z * list Z :=
  let r := ugets_loop (max - 1) input in (r.1 ++ [0], r.2).

Fixpoint atoi_loop (s : list Z) (n : Z) : Z :=
  match s with
  | c :: s => if (48 <=? c) && (c <=? 57) then atoi_loop s (i32 (n * 10 + c - 48)) else n
  | [] => n
  end.

Definition atoi (s : list Z) : Z := atoi_loop s 0.

Fixpoint copy_up (n : nat) (m : mem) (dst src : Z) : mem :=
  match n with
  | O => m
  | S n => copy_up n (mupd m dst (m src)) (dst + 1) (src + 1)
  end.

Fixpoint copy_down (n : nat) (m : mem) (dst src : Z) : mem :=
  match n with
  | O => m
  | S n => copy_down n (mupd m (dst - 1) (m (src - 1))) (dst - 1) (src - 1)
  end.

Definition umemmove (m : mem) (vdst vsrc n : Z) : mem :=
  if vdst <? vsrc then copy_up (Z.to_nat n) m vdst vsrc
  else copy_down (Z.to_nat n) m (vdst + n) (vsrc + n).

Definition umemcpy (m : mem) (dst src n : Z) : mem := umemmove m dst src n.

(** [char] is unsigned. *)
Fixpoint umemcmp (n : nat) (m : mem) (p1 p2 : Z) : Z :=
  match n with
  | O => 0
  | S n => if m p1 =? m p2 then umemcmp n m (p1 + 1) (p2 + 1) else m p1 - m p2
  end.

(** ** Definitions: printf.c *)

Definition udigits : list Z := chars "0123456789ABCDEF".

(** The [do] loop of [printint]; there is room for [fuel] more characters in [buf]. *)
Fixpoint uprintint_loop (fuel : nat) (x base : Z) : option (list Z) :=
  match fuel with
  | O => None
  | S fuel =>
      d ← udigits !! Z.to_nat (x mod base);
      if x / base =? 0 then Some [d] else cons d <$> uprintint_loop fuel (x / base) base
  end.

Definition uprintint (xx base : Z) (sgn : bool) : option (list Z) :=
  let neg := sgn && (xx <? 0) in
  let x := if neg then u32 (- xx) else u32 xx in
  buf ← uprintint_loop 16 x base;
  let buf := if neg then buf ++ [45] else buf in
  if (length buf <=? 16)%nat then Some (rev buf) else None.

Fixpoint uprintptr_loop (n : nat) (x : Z) : option (list Z) :=
  match n with
  | O => Some []
  | S n =>
      d ← udigits !! Z.to_nat (Z.shiftr x 60);
      cons d <$> uprintptr_loop n (u64 (Z.shiftl x 4))
  end.

Definition uprintptr (x : Z) : option (list Z) := (fun l => 48 :: 120 :: l) <$> uprintptr_loop 16 x.

Inductive uarg := AInt (x : Z) | ALong (x : Z) | APtr (x : Z) | AStr (s : option (list Z)) | AChar (c : Z).

(** The conversion [c] after a percent sign: what it prints and the arguments left. *)
Definition convert (c : Z) (args : list uarg) : option (list Z * list uarg) :=
  if c =? 100 then
    match args with AInt x :: args => l ← uprintint x 10 true; Some (l, args) | _ => None end
  else if c =? 108 then
    match args with ALong x :: args => l ← uprintint (i32 x) 10 false; Some (l, args) | _ => None end
  else if c =? 120 then
    match args with AInt x :: args => l ← uprintint x 16 false; Some (l, args) | _ => None end
  else if c =? 112 then
    match args with APtr x :: args => l ← uprintptr x; Some (l, args) | _ => None end
  else if c =? 115 then
    match args with AStr s :: args => Some (default (chars "(null)") s, args) | _ => None end
  else if c =? 99 then
    match args with AChar x :: args => Some ([u8 x], args) | _ => None end
  else if c =? 37 then Some ([37], args)
  else Some ([37; c], args).

(** [state] is whether the last character was a percent sign. *)
Fixpoint vprintf (fmt : list Z) (state : bool) (args : list uarg) : option (list Z) :=
  match fmt with
  | [] => Some []
  | c :: fmt =>
      if state then
        '(l, args) ← convert c args;
        app l <$> vprintf fmt false args
      else if c =? 37 then vprintf fmt true args
      else cons c <$> vprintf fmt false args
  end.

Definition uprintf (fmt : string) (args : list uarg) : option (list Z) := vprintf (chars fmt) false args.

(** ** Lemmas *)

Lemma atoi_loop_app ds n l :
  Forall (fun c => 48 <= c <= 57) ds -> atoi_loop (ds ++ l) n = atoi_loop l (atoi_loop ds n).
Proof.
  revert n. induction ds as [|c ds IH]; intros n Hd; [done|]. apply Forall_cons in Hd as [Hc Hd]. simpl.
  rewrite (proj2 (Z.leb_le _ _)), (proj2 (Z.leb_le _ _)) by lia. simpl. by apply IH.
Qed.

Lemma udigit d : 0 <= d < 10 -> udigits !! Z.to_nat d = Some (48 + d).
Proof.
  intros Hd. assert (H : Forall (fun d => udigits !! Z.to_nat d = Some (48 + d)) [0; 1; 2; 3; 4; 5; 6; 7; 8; 9]) by by repeat constructor.
  rewrite Forall_forall in H. apply H. rewrite !elem_of_cons. lia.
Qed.

Lemma uprintint_loop_step fuel x :
  0 <= x -> uprintint_loop (S fuel) x 10 =
    if x / 10 =? 0 then Some [48 + x mod 10] else cons (48 + x mod 10) <$> uprintint_loop fuel (x / 10) 10.
Proof. intros Hx. cbn [uprintint_loop]. by rewrite udigit by (apply Z.mod_pos_bound; lia). Qed.

Lemma atoi_loop_digit d n : 0 <= d < 10 -> atoi_loop [48 + d] n = i32 (n * 10 + d).
Proof.
  intros Hd. cbn [atoi_loop]. rewrite (proj2 (Z.leb_le _ _)), (proj2 (Z.leb_le _ _)) by lia. simpl. f_equal. lia.
Qed.

Lemma uprintint_loop_dec fuel x :
  0 <= x < 10 ^ Z.of_nat (S fuel) -> x < 2 ^ 31 ->
  exists buf, uprintint_loop (S fuel) x 10 = Some buf /\ Forall (fun c => 48 <= c <= 57) buf /\ (length buf <= S fuel)%nat /\ atoi (rev buf) = x.
Proof.
  revert x. induction fuel as [|fuel IH]; intros x Hx H31; rewrite uprintint_loop_step by lia;
    pose proof (Z.mod_pos_bound x 10 ltac:(lia)); pose proof (Z.div_mod x 10 ltac:(lia));
    destruct (Z.eqb_spec (x / 10) 0) as [E0|Hne].
  1, 3: eexists; split; [reflexivity|]; split_ands; [repeat constructor; lia|simpl; lia|];
    unfold atoi; cbn [rev app]; rewrite atoi_loop_digit, i32_small by lia; lia.
  - change (10 ^ Z.of_nat 1) with 10 in Hx. by rewrite Z.div_small in Hne by lia.
  - destruct (IH (x / 10)) as (buf & E & Hd & Hl & Ha).
    { rewrite Nat2Z.inj_succ, Z.pow_succ_r in Hx by lia. split; [apply Z.div_pos; lia|]. apply Z.div_lt_upper_bound; lia. }
    { apply Z.div_lt_upper_bound; lia. }
    rewrite E. eexists. split; [reflexivity|]. split_ands; [constructor; [lia|done]|simpl; lia|].
    unfold atoi in *. cbn [rev]. rewrite atoi_loop_app by (by apply Forall_rev). rewrite Ha, atoi_loop_digit, i32_small by lia. lia.
Qed.

Lemma copy_up_spec n m dst src x :
  dst < src -> copy_up n m dst src x = if decide (dst <= x < dst + Z.of_nat n) then m (src + (x - dst)) else m x.
Proof.
  revert m dst src. induction n as [|n IH]; intros m dst src H; cbn [copy_up]; [by rewrite decide_False by lia|].
  rewrite IH by lia. destruct (decide (dst + 1 <= x < dst + 1 + Z.of_nat n)).
  - rewrite decide_True, mupd_ne by lia. f_equal. lia.
  - destruct (decide (x = dst)) as [->|Hne]; [rewrite mupd_eq, decide_True by lia; f_equal; lia|]. rewrite mupd_ne, decide_False by lia. done.
Qed.

Lemma copy_down_spec n m dst src x :
  src <= dst -> copy_down n m dst src x = if decide (dst - Z.of_nat n <= x < dst) then m (src + (x - dst)) else m x.
Proof.
  revert m dst src. induction n as [|n IH]; intros m dst src H; cbn [copy_down]; [by rewrite decide_False by lia|].
  rewrite IH by lia. destruct (decide (dst - 1 - Z.of_nat n <= x < dst - 1)).
  - rewrite decide_True by lia. destruct (decide (src - 1 + (x - (dst - 1)) = dst - 1)) as [E|Hne]; [lia|]. rewrite mupd_ne by lia. f_equal. lia.
  - destruct (decide (x = dst - 1)) as [->|Hne]; [rewrite mupd_eq, decide_True by lia; f_equal; lia|]. rewrite mupd_ne, decide_False by lia. done.
Qed.

Lemma uprintf_d n l : uprintint n 10 true = Some l -> uprintf "%d" [AInt n] = Some l.
Proof.
  intros E. unfold uprintf. change (chars "%d") with [37; 100]. cbn [vprintf Z.eqb Pos.eqb convert]. rewrite E.
  simpl. by rewrite app_nil_r.
Qed.

(** The first line of the input, or as much of it as there is room for. *)
Lemma gets_loop_spec n input :
  let r := ugets_loop n input in
  input = r.1 ++ r.2 /\ (length r.1 <= n)%nat /\
  (forall i c, r.1 !! i = Some c -> (S i < length r.1)%nat -> c <> 10 /\ c <> 13) /\
  ((length r.1 < n)%nat -> r.2 = [] \/ last r.1 = Some 10 \/ last r.1 = Some 13).
Proof.
  revert input. induction n as [|n IH]; intros input; [simpl; split_ands; [done|lia|done|lia]|].
  destruct input as [|c input]; [simpl; split_ands; [done|lia|done|auto]|]. cbn [ugets_loop].
  destruct ((c =? 10) || (c =? 13)) eqn:E.
  - simpl. split_ands; [done|lia| |]; [intros [|i] d Hd Hi; simpl in *; [lia|done]|]. intros _. right.
    apply orb_true_iff in E as [E|E]; apply Z.eqb_eq in E as ->; auto.
  - destruct (IH input) as (H1 & H2 & H3 & H4). cbn [fst snd]. apply orb_false_iff in E as [E1 E2]. apply Z.eqb_neq in E1, E2.
    split_ands; [simpl; by rewrite <- H1|simpl; lia| |].
    + intros [|i] d Hd Hi; simpl in *; [by injection Hd as <-|]. apply (H3 i); [done|lia].
    + simpl. intros Hl. destruct H4 as [H4|H4]; [lia|auto|]. right. destruct (ugets_loop n input).1 as [|e l]; [destruct H4; done|]. exact H4.
Qed.

(** ** Properties *)

(** [atoi] reads back what [printf] prints for %d, for every number that is not
    negative. *)
Theorem atoi_printint n :
  0 <= n < 2 ^ 31 -> exists l, uprintf "%d" [AInt n] = Some l /\ atoi l = n.
Proof.
  intros Hn. destruct (uprintint_loop_dec 15 n) as (buf & E & _ & Hl & Ha); [simpl; lia|lia|].
  exists (rev buf). split; [|done]. apply uprintf_d. unfold uprintint.
  rewrite (proj2 (Z.ltb_ge _ _)) by lia. cbn [andb]. rewrite u32_small by lia. rewrite E. cbn [mbind option_bind].
  by rewrite (proj2 (Nat.leb_le _ _)).
Qed.

Lemma atoi_printint_witness : exists l, uprintf "%d" [AInt 2147483647] = Some l /\ atoi l = 2147483647.
Proof. apply (atoi_printint 2147483647). lia. Defined.

(** The library's [memmove] copies correctly also when the regions overlap. *)
Theorem umemmove_overlap m dst src n x :
  umemmove m dst src n x = if decide (dst <= x < dst + n) then m (src + (x - dst)) else m x.
Proof.
  unfold umemmove. destruct (Z.ltb_spec dst src).
  - rewrite copy_up_spec by lia. destruct (decide (0 <= n)); [by rewrite Z2Nat.id by lia|].
    rewrite (decide_False (P := dst <= x < dst + n)), decide_False by lia. done.
  - destruct (decide (0 <= n)).
    + rewrite copy_down_spec, Z2Nat.id by lia. replace (dst + n - n) with dst by lia. destruct (decide _); [|done]. f_equal. lia.
    + rewrite Z2Nat.nonpos by lia. simpl. rewrite decide_False by lia. done.
Qed.
