(* ===== verification/Sys.v ===== *)
(** * User programs as interaction trees (user/user.h, user/usys.pl, kernel/syscall.h)

    A user program is an interaction tree: its nodes are the system calls it makes, and
    the accesses to memory that matter to it.  What the kernel answers is left open, so
    that a theorem about the tree holds for every behaviour of the system.  The file has
    the calls, the loops and the library functions that make calls ([printf], [stat]),
    the runs of a program, and a logic for the runs: [obeys] says that every run of a
    program keeps to what a monitor allows. *)

From ITree Require Import ITree.
From S2P Require Import Prelude Strings State Spin Uart Printf FsBlock FsInode Ulib.

(** ** Definitions: the calls *)

(** A buffer or a string that a program hands to a call: the bytes it holds, or an
    address that the program made up. *)
Inductive ubuf := Bytes (bs : list Z) | Addr (a : Z).

(** Where a call stores its result: a variable of the program, or an address. *)
Inductive udst := Var | To (a : Z).

(** The calls, with what they return.  [SYS_wait] returns the pid and the status it stored,
    if it stored one; [SYS_pipe] and [SYS_read] return what they stored.  The loads and
    stores of a program are calls of the machine, [malloc] and [free] of the library;
    [CRASH] is where the program has no defined behaviour. *)
Variant sysE : Type -> Type :=
| SYS_fork : sysE Z
| SYS_exit (status : Z) : sysE void
| SYS_wait : sysE (Z * option Z)
| SYS_pipe (dst : udst) : sysE (Z * (Z * Z))
| SYS_read (fd : Z) (dst : udst) (n : Z) : sysE (Z * list Z)
| SYS_kill (pid : Z) : sysE Z
| SYS_exec (path : ubuf) (argv : list ubuf) : sysE Z
| SYS_fstat (fd : Z) : sysE (Z * stat)
| SYS_chdir (path : ubuf) : sysE Z
| SYS_dup (fd : Z) : sysE Z
| SYS_getpid : sysE Z
| SYS_sbrk (n : Z) : sysE Z
| SYS_sleep (n : Z) : sysE Z
| SYS_uptime : sysE Z
| SYS_open (path : ubuf) (mode : Z) : sysE Z
| SYS_write (fd : Z) (src : ubuf) (n : Z) : sysE Z
| SYS_mknod (path : ubuf) (major minor : Z) : sysE Z
| SYS_unlink (path : ubuf) : sysE Z
| SYS_link (old new : ubuf) : sysE Z
| SYS_mkdir (path : ubuf) : sysE Z
| SYS_close (fd : Z) : sysE Z
| MEM_load (a : Z) : sysE Z
| MEM_store (a v : Z) : sysE unit
| REG_sp : sysE Z
| LIB_malloc (n : Z) : sysE Z
| LIB_free (p : Z) : sysE unit
| CRASH : sysE void.

(** The number a stub of usys.pl puts into a7. *)
Definition sysno {X} (e : sysE X) : option Z :=
  match e with
  | SYS_fork => Some 1 | SYS_exit _ => Some 2 | SYS_wait => Some 3 | SYS_pipe _ => Some 4 | SYS_read _ _ _ => Some 5
  | SYS_kill _ => Some 6 | SYS_exec _ _ => Some 7 | SYS_fstat _ => Some 8 | SYS_chdir _ => Some 9 | SYS_dup _ => Some 10
  | SYS_getpid => Some 11 | SYS_sbrk _ => Some 12 | SYS_sleep _ => Some 13 | SYS_uptime => Some 14 | SYS_open _ _ => Some 15
  | SYS_write _ _ _ => Some 16 | SYS_mknod _ _ _ => Some 17 | SYS_unlink _ => Some 18 | SYS_link _ _ => Some 19
  | SYS_mkdir _ => Some 20 | SYS_close _ => Some 21
  | MEM_load _ | MEM_store _ _ | REG_sp | LIB_malloc _ | LIB_free _ | CRASH => None
  end.

Abbreviation prog := (itree sysE).

Declare Scope prog_scope.
Delimit Scope prog_scope with prog.
#[global] Open Scope prog_scope.

Notation "'let!' x ':=' t 'in' k" := (ITree.bind t (fun x => k))
  (at level 10, x pattern, t at level 200, k at level 200) : prog_scope.
Notation "t ';!' k" := (ITree.bind t (fun _ => k))
  (at level 199, k at level 200, right associativity) : prog_scope.
Notation "fmt '\n'" := (fmt +:+ newline) (at level 1, left associativity) : prog_scope.

Coercion chars : string >-> list.
Coercion Bytes : list >-> ubuf.

Abbreviation call := ITree.trigger.
Abbreviation fork := (call SYS_fork).
Abbreviation wait := (call SYS_wait).
Abbreviation pipe := (call (SYS_pipe Var)).
Abbreviation read fd n := (call (SYS_read fd Var n)).
Abbreviation kill pid := (call (SYS_kill pid)).
Abbreviation exec path argv := (call (SYS_exec path argv)).
Abbreviation fstat fd := (call (SYS_fstat fd)).
Abbreviation chdir path := (call (SYS_chdir path)).
Abbreviation dup fd := (call (SYS_dup fd)).
Abbreviation getpid := (call SYS_getpid).
Abbreviation sbrk n := (call (SYS_sbrk n)).
Abbreviation sleep n := (call (SYS_sleep n)).
Abbreviation open path mode := (call (SYS_open path mode)).
Abbreviation write fd src n := (call (SYS_write fd src n)).
Abbreviation mknod path major minor := (call (SYS_mknod path major minor)).
Abbreviation unlink path := (call (SYS_unlink path)).
Abbreviation link old new := (call (SYS_link old new)).
Abbreviation mkdir path := (call (SYS_mkdir path)).
Abbreviation close fd := (call (SYS_close fd)).
Abbreviation load a := (call (MEM_load a)).
Abbreviation store a v := (call (MEM_store a v)).

Definition exit {A} (status : Z) : prog A := let! v := call (SYS_exit status) in match v : void with end.

Definition crash {A} : prog A := let! v := call CRASH in match v : void with end.

Definition O_RDONLY : Z := 0x000.
Definition O_WRONLY : Z := 0x001.
Definition O_RDWR : Z := 0x002.
Definition O_CREATE : Z := 0x200.
Definition O_TRUNC : Z := 0x400.

(** ** Definitions: loops and the library *)

(** [for(; i < hi; i += d)] *)
Definition for_ (i hi d : Z) (body : Z -> prog unit) : prog unit :=
  ITree.iter (fun i => if i <? hi then body i ;! Ret (inl (i + d)) else Ret (inr tt)) i.

(** [for(;;)] *)
Definition forever {A} (body : prog unit) : prog A := ITree.iter (fun _ : unit => body ;! Ret (inl tt)) tt.

Fixpoint each {A} (l : list A) (body : A -> prog unit) : prog unit :=
  match l with
  | [] => Ret tt
  | x :: l => body x ;! each l body
  end.

Definition check (b : bool) (t : prog unit) : prog unit := if b then t else Ret tt.

Definition putc (fd c : Z) : prog unit := write fd (Bytes [c]) 1 ;! Ret tt.

(** An argument that does not fit its conversion has no defined meaning. *)
Definition fprintf (fd : Z) (fmt : string) (args : list uarg) : prog unit :=
  match uprintf fmt args with
  | Some l => each l (putc fd)
  | None => crash
  end.

Definition printf (fmt : string) (args : list uarg) : prog unit := fprintf 1 fmt args.

(** What a variable holds after a call that may store into it, and a buffer after a read. *)
Definition stored {A} (old : A) (new : option A) : A := default old new.

Definition filled (bs buf : list Z) : list Z := bs ++ drop (length bs) buf.

(** [stat] of ulib.c *)
Definition ustat_path (n : ubuf) : prog (Z * option stat) :=
  let! fd := open n O_RDONLY in
  if fd <? 0 then Ret (-1, None) else
  let! r := fstat fd in
  close fd ;!
  Ret (r.1, Some r.2).

(** ** Definitions: runs *)

(** A call that has been answered. *)
Inductive event :=
| Ev {X : Type} (e : sysE X) (x : X).

(** How a run ends: in the middle, with a value, by [exit], or without defined
    behaviour. *)
Inductive ending (R : Type) := Going | Returned (v : R) | Exited (status : Z) | Crashed.
Arguments Going {R}.
Arguments Returned {R} v.
Arguments Exited {R} status.
Arguments Crashed {R}.

Definition final {X R} (e : sysE X) : option (ending R) :=
  match e with
  | SYS_exit n => Some (Exited n)
  | CRASH => Some Crashed
  | _ => None
  end.

(** [runs n t l o]: within [n] steps the program [t] can make the calls [l], with these
    answers, and be at [o]. *)
Fixpoint runs {R} (n : nat) (t : prog R) (l : list event) (o : ending R) : Prop :=
  match n with
  | O => l = [] /\ o = Going
  | S n =>
      match observe t with
      | RetF v => l = [] /\ o = Returned v
      | TauF t => runs n t l o
      | VisF e k =>
          match final e with
          | Some o' => l = [] /\ o = o'
          | None => exists x l', l = Ev e x :: l' /\ runs n (k x) l' o
          end
      end
  end.

(** ** Definitions: monitors *)

(** A monitor has a state, says which calls a program may make in it and which answers
    are taken to be possible, and how a call that is answered changes it. *)
Record monitor (S : Type) := mkMonitor {
  allowed {X} : sysE X -> S -> Prop;
  possible {X} : sysE X -> S -> X -> Prop;
  after {X} : sysE X -> S -> X -> S
}.
Arguments mkMonitor {S}.
Arguments allowed {S} m {X}.
Arguments possible {S} m {X}.
Arguments after {S} m {X}.

Lemma observe_bind {R T} (t : prog R) (k : R -> prog T) :
  observe (ITree.bind t k) =
  match observe t with
  | RetF v => observe (k v)
  | TauF t => TauF (ITree.bind t k)
  | VisF e h => VisF e (fun x => ITree.bind (h x) k)
  end.
Proof.
  change (observe (ITree.bind t k)) with (observe (match observe t with
    | RetF v => k v
    | TauF t => Tau (ITree.bind t k)
    | VisF e h => Vis e (fun x => ITree.bind (h x) k)
    end)).
  by destruct (observe t).
Qed.

Section monitor.
Context {S : Type} (M : monitor S).

Fixpoint obeys_for {R} (n : nat) (s : S) (t : prog R) (Q : R -> S -> Prop) : Prop :=
  match n with
  | O => True
  | Datatypes.S n =>
      match observe t with
      | RetF v => Q v s
      | TauF t => obeys_for n s t Q
      | VisF e k => allowed M e s /\ forall x, possible M e s x -> obeys_for n (after M e s x) (k x) Q
      end
  end.

(** Every run of [t] from the state [s] makes only calls that are allowed, and a value it
    returns satisfies [Q]. *)
Definition obeys {R} (s : S) (t : prog R) (Q : R -> S -> Prop) : Prop := forall n, obeys_for n s t Q.

(** The state after a list of answered calls, if the answers were possible. *)
Fixpoint follow (l : list event) (s : S) (s' : S) : Prop :=
  match l with
  | [] => s' = s
  | Ev e x :: l => possible M e s x /\ follow l (after M e s x) s'
  end.

(** ** Lemmas *)

Lemma obeys_for_mono {R} n m s (t : prog R) (Q Q' : R -> S -> Prop) :
  (m <= n)%nat -> (forall v s, Q v s -> Q' v s) -> obeys_for n s t Q -> obeys_for m s t Q'.
Proof.
  intros Hle HQ. revert n Hle s t. induction m as [|m IH]; intros n Hle s t; [done|].
  destruct n as [|n]; [lia|]. simpl. destruct (observe t) as [v|t'|X e k]; [by auto|apply IH; lia|].
  intros [H1 H2]. split; [done|]. intros x Hx. apply (IH n); [lia|by apply H2].
Qed.

Lemma obeys_mono {R} s (t : prog R) (Q Q' : R -> S -> Prop) :
  obeys s t Q -> (forall v s, Q v s -> Q' v s) -> obeys s t Q'.
Proof. intros H HQ n. by eapply obeys_for_mono; [reflexivity|exact HQ|]. Qed.

Lemma obeys_ret {R} s (v : R) (Q : R -> S -> Prop) : Q v s -> obeys s (Ret v) Q.
Proof. intros H [|n]; [done|]. exact H. Qed.

Lemma obeys_tau {R} s (t : prog R) Q : obeys s t Q -> obeys s (Tau t) Q.
Proof. intros H [|n]; [done|]. apply H. Qed.

Lemma obeys_for_bind {R T} n s (t : prog R) (k : R -> prog T) Q :
  obeys_for n s t (fun v s' => obeys_for n s' (k v) Q) -> obeys_for n s (ITree.bind t k) Q.
Proof.
  revert s t. induction n as [|n IH]; intros s t; [done|]. cbn [obeys_for]. rewrite observe_bind. destruct (observe t) as [v|t'|X e k']; cbn [obeys_for].
  - done.
  - intros H. apply IH. eapply obeys_for_mono; [reflexivity| |exact H]. intros v s' Hv. eapply (obeys_for_mono (Datatypes.S n)); [lia| |exact Hv]. done.
  - intros [H1 H2]. split; [done|]. intros x Hx. apply IH. eapply obeys_for_mono; [reflexivity| |by apply H2].
    intros v s' Hv. eapply (obeys_for_mono (Datatypes.S n)); [lia| |exact Hv]. done.
Qed.

Lemma obeys_bind {R T} s (t : prog R) (k : R -> prog T) Q :
  obeys s t (fun v s' => obeys s' (k v) Q) -> obeys s (ITree.bind t k) Q.
Proof. intros H n. apply obeys_for_bind. eapply obeys_for_mono; [reflexivity| |apply H]. by auto. Qed.

Lemma obeys_call {X} s (e : sysE X) (Q : X -> S -> Prop) :
  allowed M e s -> (forall x, possible M e s x -> Q x (after M e s x)) -> obeys s (call e) Q.
Proof. intros H1 H2 [|[|n]]; [done|by split|]. split; [done|]. intros x Hx. by apply H2. Qed.

Lemma obeys_exit {A} s n (Q : A -> S -> Prop) : allowed M (SYS_exit n) s -> obeys s (exit n) Q.
Proof. intros H. unfold exit. apply obeys_bind, obeys_call; [done|]. intros []. Qed.

(** A loop, with what holds at its head. *)
Lemma obeys_iter {I R} (Inv : I -> S -> Prop) (body : I -> prog (I + R)) i s (Q : R -> S -> Prop) :
  Inv i s ->
  (forall i s, Inv i s -> obeys s (body i) (fun r s' => match r with inl i' => Inv i' s' | inr v => Q v s' end)) ->
  obeys s (ITree.iter body i) Q.
Proof.
  intros Hi Hb n. revert i s Hi. induction n as [n IH] using lt_wf_ind. intros i s Hi. destruct n as [|n]; [done|].
  set (k := fun lr : I + R => match lr with inl l => Tau (ITree.iter body l) | inr r => Ret r end).
  change (obeys_for (Datatypes.S n) s (ITree.bind (body i) k) Q).
  apply obeys_for_bind. eapply obeys_for_mono; [reflexivity| |by apply (Hb i s Hi (Datatypes.S n))].
  intros [i'|v] s' H; [|exact H]. cbn. apply IH; [lia|done].
Qed.

Lemma obeys_for_loop (Inv : S -> Prop) i hi d body s (Q : unit -> S -> Prop) :
  Inv s -> (forall i s, Inv s -> i < hi -> obeys s (body i) (fun _ s' => Inv s')) -> (forall s, Inv s -> Q tt s) ->
  obeys s (for_ i hi d body) Q.
Proof.
  intros Hs Hb HQ. unfold for_. apply (obeys_iter (fun _ s => Inv s)); [done|]. clear i s Hs. intros i s Hs.
  destruct (Z.ltb_spec i hi); [|by apply obeys_ret, HQ].
  apply obeys_bind. eapply obeys_mono; [by apply Hb|]. intros [] s' H'. by apply obeys_ret.
Qed.

Lemma obeys_forever {A} (Inv : S -> Prop) body s (Q : A -> S -> Prop) :
  Inv s -> (forall s, Inv s -> obeys s body (fun _ s' => Inv s')) -> obeys s (forever body) Q.
Proof.
  intros Hs Hb. unfold forever. apply (obeys_iter (fun _ s => Inv s)); [done|]. clear s Hs. intros _ s Hs.
  apply obeys_bind. eapply obeys_mono; [by apply Hb|]. intros [] s' H'. by apply obeys_ret.
Qed.

Lemma obeys_each {A} (Inv : S -> Prop) (l : list A) body s (Q : unit -> S -> Prop) :
  Inv s -> (forall x s, x ∈ l -> Inv s -> obeys s (body x) (fun _ s' => Inv s')) -> (forall s, Inv s -> Q tt s) -> obeys s (each l body) Q.
Proof.
  intros Hs Hb HQ. revert s Hs. induction l as [|x l IH]; intros s Hs; simpl; [by apply obeys_ret, HQ|].
  apply obeys_bind. eapply obeys_mono; [apply Hb; [set_solver|done]|]. intros [] s' H'. apply IH; [|done]. intros y s'' Hy. apply Hb. set_solver.
Qed.

Lemma obeys_check s b t (Q : unit -> S -> Prop) : (b = true -> obeys s t Q) -> (b = false -> Q tt s) -> obeys s (check b t) Q.
Proof. intros H1 H2. destruct b; [by apply H1|]. by apply obeys_ret, H2. Qed.

(** What a program that obeys the monitor does in a run. *)
Lemma obeys_runs {R} n s (t : prog R) Q l o s' :
  obeys_for n s t Q -> runs n t l o -> follow l s s' ->
  match o with
  | Going => True
  | Returned v => Q v s'
  | Exited c => allowed M (SYS_exit c) s'
  | Crashed => allowed M CRASH s'
  end.
Proof.
  revert s t l. induction n as [|n IH]; intros s t l; simpl; [by intros _ [-> ->]|].
  destruct (observe t) as [v|t'|X e k].
  - by intros HQ [-> ->] ->.
  - apply IH.
  - intros [Ha Hk]. destruct (final e) as [o'|] eqn:E.
    + intros [-> ->] ->. destruct e; try discriminate E; injection E as <-; done.
    + intros (x & l' & -> & Hr) [Hp Hf]. by eapply IH; [apply Hk| |].
Qed.
End monitor.

(** ** Printing *)

(** The arguments fit the conversions of the format. *)
Fixpoint fits (fmt : list Z) (state : bool) (args : list uarg) : bool :=
  match fmt with
  | [] => true
  | c :: fmt =>
      if state then
        if (c =? 100) || (c =? 120) then match args with AInt _ :: args => fits fmt false args | _ => false end
        else if c =? 112 then match args with APtr _ :: args => fits fmt false args | _ => false end
        else if c =? 115 then match args with AStr _ :: args => fits fmt false args | _ => false end
        else if (c =? 108) || (c =? 99) then false
        else fits fmt false args
      else if c =? 37 then fits fmt true args
      else fits fmt false args
  end.

Definition pointer_ok (a : uarg) : Prop := match a with APtr x => 0 <= x < 2 ^ 64 | _ => True end.

Lemma udigits_lookup d : 0 <= d < 16 -> is_Some (udigits !! Z.to_nat d).
Proof. intros Hd. apply lookup_lt_is_Some. change (length udigits) with 16%nat. lia. Qed.

Lemma uprintint_loop_some fuel x base :
  1 < base <= 16 -> 0 <= x < base ^ Z.of_nat (S fuel) -> exists l, uprintint_loop (S fuel) x base = Some l /\ (length l <= S fuel)%nat.
Proof.
  intros Hb. revert x. induction fuel as [|fuel IH]; intros x Hx;
    (destruct (udigits_lookup (x mod base)) as [d Ed]; [pose proof (Z.mod_pos_bound x base ltac:(lia)); lia|]).
  - cbn [uprintint_loop]. rewrite Ed. cbn [mbind option_bind]. change (base ^ Z.of_nat 1) with (base ^ 1) in Hx. rewrite Z.pow_1_r in Hx.
    rewrite Z.div_small by lia. by exists [d].
  - destruct (IH (x / base)) as (l & E & Hl).
    { rewrite Nat2Z.inj_succ, Z.pow_succ_r in Hx by lia. split; [apply Z.div_pos; lia|]. apply Z.div_lt_upper_bound; lia. }
    remember (S fuel) as f. cbn [uprintint_loop]. rewrite Ed, E. cbn [mbind option_bind fmap option_fmap option_map].
    destruct (x / base =? 0); eexists; (split; [reflexivity|simpl; lia]).
Qed.

Lemma uprintint_some x base sgn : base = 10 \/ base = 16 -> is_Some (uprintint x base sgn).
Proof.
  intros Hb. unfold uprintint. set (y := if sgn && (x <? 0) then _ else _).
  assert (Hy : 0 <= y < 2 ^ 32) by (unfold y, u32; destruct (sgn && (x <? 0)); apply Z.mod_pos_bound; lia).
  destruct (uprintint_loop_some 9 y base) as (l & E & Hl).
  { lia. }
  { split; [lia|]. destruct Hb as [-> | ->]; [change (10 ^ Z.of_nat 10) with 10000000000|change (16 ^ Z.of_nat 10) with 1099511627776]; lia. }
  assert (Hm : forall n m x base l, (n <= m)%nat -> uprintint_loop n x base = Some l -> uprintint_loop m x base = Some l).
  { clear. induction n as [|n IH]; intros [|m] x base l Hle; try done; [lia|]. cbn [uprintint_loop]. destruct (udigits !! Z.to_nat (x mod base)); [|done].
    cbn [mbind option_bind]. destruct (x / base =? 0); [done|]. destruct (uprintint_loop n (x / base) base) as [l'|] eqn:E; [|done].
    by rewrite (IH m _ _ l') by (done || lia). }
  rewrite (Hm 10%nat 16%nat y base l) by (done || lia). cbn [mbind option_bind].
  destruct (sgn && (x <? 0)); [rewrite length_app; cbn [length]|]; rewrite (proj2 (Nat.leb_le _ _)) by lia; by eexists.
Qed.

Lemma uprintptr_some x : 0 <= x < 2 ^ 64 -> is_Some (uprintptr x).
Proof.
  intros Hx. unfold uprintptr. apply fmap_is_Some. remember 16%nat as n eqn:En. clear En. revert x Hx. induction n as [|n IH]; intros x Hx; [by eexists|].
  cbn [uprintptr_loop]. destruct (udigits_lookup (Z.shiftr x 60)) as [d Ed].
  { rewrite Z.shiftr_div_pow2 by lia. split; [apply Z.div_pos; lia|]. apply Z.div_lt_upper_bound; lia. }
  rewrite Ed. cbn [mbind option_bind]. apply fmap_is_Some, IH. unfold u64. apply Z.mod_pos_bound. lia.
Qed.

Lemma convert_fits c (args : list uarg) fmt :
  Forall pointer_ok args -> fits (c :: fmt) true args = true ->
  exists l rest, convert c args = Some (l, rest) /\ Forall pointer_ok rest /\ fits fmt false rest = true.
Proof.
  intros Hp. cbn [fits]. unfold convert.
  destruct (Z.eqb_spec c 100) as [->|N1]; [|destruct (Z.eqb_spec c 120) as [->|N2]]; cbn [orb].
  - destruct args as [|[x| | | |] args]; try done. intros Hf. apply Forall_cons in Hp as [_ Hp]. cbn [Z.eqb Pos.eqb].
    destruct (uprintint_some x 10 true) as [l ->]; [by left|]. by eexists _, _.
  - destruct args as [|[x| | | |] args]; try done. intros Hf. apply Forall_cons in Hp as [_ Hp]. cbn [Z.eqb Pos.eqb].
    destruct (uprintint_some x 16 false) as [l ->]; [by right|]. by eexists _, _.
  - destruct (Z.eqb_spec c 112) as [->|N3].
    { destruct args as [|[| |x| |] args]; try done. intros Hf. apply Forall_cons in Hp as [Hx Hp]. cbn [Z.eqb Pos.eqb]. destruct (uprintptr_some x Hx) as [l ->]. by eexists _, _. }
    destruct (Z.eqb_spec c 115) as [->|N4].
    { destruct args as [|[| | |x|] args]; try done. intros Hf. apply Forall_cons in Hp as [Hx Hp]. by eexists _, _. }
    destruct (Z.eqb_spec c 108) as [->|N5]; [done|]. destruct (Z.eqb_spec c 99) as [->|N6]; [done|]. cbn [orb]. intros Hf.
    destruct (c =? 37); by eexists _, _.
Qed.

Lemma uprintf_fits fmt args : fits (chars fmt) false args = true -> Forall pointer_ok args -> is_Some (uprintf fmt args).
Proof.
  unfold uprintf. generalize false. generalize (chars fmt) as l. clear fmt.
  induction l as [|c l IH] in args |- *; intros st Hf Hp; [by eexists|]. destruct st.
  - destruct (convert_fits c args l Hp Hf) as (o & rest & E & Hr & Hf'). cbn [vprintf]. rewrite E. cbn [mbind option_bind].
    by apply fmap_is_Some, IH.
  - cbn [vprintf fits] in *. destruct (c =? 37); [by apply IH|]. by apply fmap_is_Some, IH.
Qed.

Lemma obeys_fprintf {S} (M : monitor S) (Inv : S -> Prop) fd fmt args s (Q : unit -> S -> Prop) :
  fits (chars fmt) false args = true -> Forall pointer_ok args -> Inv s ->
  (forall c s, Inv s -> allowed M (SYS_write fd (Bytes [c]) 1) s /\ forall r, Inv (after M (SYS_write fd (Bytes [c]) 1) s r)) ->
  (forall s, Inv s -> Q tt s) -> obeys M s (fprintf fd fmt args) Q.
Proof.
  intros Hf Hp Hs Hw HQ. unfold fprintf. destruct (uprintf_fits fmt args Hf Hp) as [l ->].
  apply (obeys_each M Inv); [done| |done]. intros c s' _ H'. unfold putc. destruct (Hw c s' H') as [H1 H2].
  apply obeys_bind, obeys_call; [done|]. intros r _. by apply obeys_ret.
Qed.

(** ** Performing a program with given answers *)

(** The run in which the calls are answered by [ans]. *)
Fixpoint perform {R} (ans : forall X, sysE X -> option X) (n : nat) (t : prog R) : option (list event * ending R) :=
  match n with
  | O => Some ([], Going)
  | S n =>
      match observe t with
      | RetF v => Some ([], Returned v)
      | TauF t => perform ans n t
      | VisF e k =>
          match final e with
          | Some o => Some ([], o)
          | None => x ← ans _ e; r ← perform ans n (k x); Some (Ev e x :: r.1, r.2)
          end
      end
  end.

Lemma perform_runs {R} ans n (t : prog R) l o : perform ans n t = Some (l, o) -> runs n t l o.
Proof.
  revert t l. induction n as [|n IH]; intros t l; cbn [perform runs]; [by intros [= <- <-]|].
  destruct (observe t) as [v|t'|X e k]; [by intros [= <- <-]|apply IH|]. destruct (final e) as [o'|]; [by intros [= <- <-]|].
  destruct (ans X e) as [x|]; [|done]. cbn [mbind option_bind]. destruct (perform ans n (k x)) as [[l' o'']|] eqn:E; [|done]. cbn.
  intros [= <- <-]. exists x, l'. split; [done|]. by apply IH.
Qed.

(** A system in which calls succeed, given what [read] and [wait] return. *)
Definition succeeding (rd : Z * list Z) (w : Z * option Z) : forall X, sysE X -> option X := fun X e =>
  match e in sysE X return option X with
  | SYS_fork => Some 5
  | SYS_wait => Some w
  | SYS_pipe _ => Some (0, (3, 4))
  | SYS_read _ _ _ => Some rd
  | SYS_open _ _ => Some 3
  | SYS_write _ _ n => Some n
  | SYS_close _ | SYS_unlink _ | SYS_kill _ => Some 0
  | _ => None
  end.
