(* ===== verification/Shell.v ===== *)
(** * The shell (user/sh.c)

    A command is a tree of type [cmd], whose words are pairs of pointers into the line
    while it is parsed and strings once [nulterminate] has put a NUL after each of them.
    [s] is the line up to its NUL, a pointer into it is an index, and the parser's
    [*ps] is the state of the monad [P]; a call of [panic], which prints a message and
    exits, is the outcome [Panic].

    [runcmd] never returns: it ends in [exec] or [exit].  Its model gives what the process
    and its children do, in the order of the code: the programs that are run with the
    file descriptors they get, and the messages.  Pipes are numbered in the order they are
    made. *)

From S2P Require Import Prelude Strings Ring State Spin Sleep Uart Printf Ulib.

(** ** Definitions: commands *)

Inductive cmd (W : Type) : Type :=
| EXEC (argv : list W)
| REDIR (c : cmd W) (file : W) (mode fd : Z)
| PIPE (left right : cmd W)
| LIST (left right : cmd W)
| BACK (c : cmd W).

Arguments EXEC {W} argv.
Arguments REDIR {W} c file mode fd.
Arguments PIPE {W} left right.
Arguments LIST {W} left right.
Arguments BACK {W} c.

Definition MAXARGS : nat := 10.

Definition RDONLY : Z := 0.
Definition WRONLY_CREATE : Z := Z.lor 0x001 0x200.
Definition WRONLY_CREATE_TRUNC : Z := Z.lor (Z.lor 0x001 0x200) 0x400.

Definition whitespace : list Z := [32; 9; 13; 10; 11].

Definition symbols : list Z := chars "<|>&;()".

(** [strchr] as a condition. *)
Definition is_in (toks : list Z) (c : Z) : bool :=
  match strchr toks c with Some _ => true | None => false end.

Definition wordchar (c : Z) : bool := negb (is_in whitespace c) && negb (is_in symbols c).

(** A word while it is parsed: [q] and [eq]. *)
Definition span : Type := nat * nat.

(** The constructors; [memset] makes every argument NULL. *)

Definition execcmd : cmd span := EXEC [].

Definition redircmd (subcmd : cmd span) (file : span) (mode fd : Z) : cmd span := REDIR subcmd file mode fd.

Definition pipecmd (left right : cmd span) : cmd span := PIPE left right.

Definition listcmd (left right : cmd span) : cmd span := LIST left right.

Definition backcmd (subcmd : cmd span) : cmd span := BACK subcmd.

(** [cmd->argv[argc] = q] in [parseexec], where [cmd] is the node of type EXEC that [ret]
    has at the end of its chain of redirections. *)
Fixpoint push_arg {W} (ret : cmd W) (w : W) : cmd W :=
  match ret with
  | EXEC argv => EXEC (argv ++ [w])
  | REDIR c file mode fd => REDIR (push_arg c w) file mode fd
  | c => c
  end.

(** ** Definitions: the parser *)

Section parser.
Variable s : list Z.

Definition P : Type -> Type := M Empty_set nat.

Definition es : nat := length s.

Definition char_at (p : nat) : Z := default 0 (s !! p).

(** A loop [s++] while [s < es] and [f] holds of the character at [s]; there are [n]
    characters before [es]. *)
Fixpoint skip (f : Z -> bool) (n p : nat) : nat :=
  match n with
  | O => p
  | S n => if f (char_at p) then skip f n (S p) else p
  end.

Definition skip_ws (p : nat) : nat := skip (is_in whitespace) (es - p) p.

Definition gettoken : P (Z * span) :=
  let* p := gets id in
  let q := skip_ws p in
  let c := char_at q in
  let '(ret, eq) :=
    if c =? 0 then (c, q)
    else if is_in (chars "|();&<") c then (c, S q)
    else if c =? 62 then
      if char_at (S q) =? 62 then (43, S (S q)) else (c, S q)
    else (97, skip wordchar (es - q) q) in
  modify (fun _ => skip_ws eq);*
  M_ret (ret, (q, eq)).

Definition peek (toks : list Z) : P bool :=
  modify skip_ws;*
  let* p := gets id in
  M_ret (truthy (char_at p) && is_in toks (char_at p)).

Fixpoint parseredirs (fuel : nat) (c : cmd span) : P (cmd span) :=
  match fuel with
  | O => nofuel
  | S fuel =>
      let* more := peek (chars "<>") in
      if more then
        let* tok := gettoken in
        let* file := gettoken in
        if negb (file.1 =? 97) then panic "missing file for redirection" else
        parseredirs fuel
          (if tok.1 =? 60 then redircmd c file.2 RDONLY 0
           else if tok.1 =? 62 then redircmd c file.2 WRONLY_CREATE_TRUNC 1
           else if tok.1 =? 43 then redircmd c file.2 WRONLY_CREATE 1
           else c)
      else M_ret c
  end.

(** The [while] loop of [parseexec]. *)
Fixpoint parseargs (fuel : nat) (ret : cmd span) (argc : nat) : P (cmd span) :=
  match fuel with
  | O => nofuel
  | S fuel =>
      let* stop := peek (chars "|)&;") in
      if stop then M_ret ret else
      let* tok := gettoken in
      if tok.1 =? 0 then M_ret ret
      else if negb (tok.1 =? 97) then panic "syntax"
      else
        let ret := push_arg ret tok.2 in
        let argc := S argc in
        if (MAXARGS <=? argc)%nat then panic "too many args" else
        let* ret := parseredirs (S es) ret in
        parseargs fuel ret argc
  end.

(** The [while] loop of [parseline]. *)
Fixpoint parsebacks (fuel : nat) (c : cmd span) : P (cmd span) :=
  match fuel with
  | O => nofuel
  | S fuel =>
      let* more := peek (chars "&") in
      if more then gettoken;* parsebacks fuel (backcmd c) else M_ret c
  end.

Fixpoint parseline (fuel : nat) : P (cmd span) :=
  match fuel with
  | O => nofuel
  | S fuel =>
      let* c := parsepipe fuel in
      let* c := parsebacks (S es) c in
      let* more := peek (chars ";") in
      if more then
        gettoken;*
        let* r := parseline fuel in
        M_ret (listcmd c r)
      else M_ret c
  end
with parsepipe (fuel : nat) : P (cmd span) :=
  match fuel with
  | O => nofuel
  | S fuel =>
      let* c := parseexec fuel in
      let* more := peek (chars "|") in
      if more then
        gettoken;*
        let* r := parsepipe fuel in
        M_ret (pipecmd c r)
      else M_ret c
  end
with parseexec (fuel : nat) : P (cmd span) :=
  match fuel with
  | O => nofuel
  | S fuel =>
      let* block := peek (chars "(") in
      if block then parseblock fuel else
      let* ret := parseredirs (S es) execcmd in
      parseargs (S es) ret 0
  end
with parseblock (fuel : nat) : P (cmd span) :=
  match fuel with
  | O => nofuel
  | S fuel =>
      let* opened := peek (chars "(") in
      if negb opened then panic "parseblock" else
      gettoken;*
      let* c := parseline fuel in
      let* closed := peek (chars ")") in
      if negb closed then panic "syntax - missing )" else
      gettoken;*
      parseredirs (S es) c
  end.

(** The calls nest four deep for each character at most. *)
Definition parse_fuel : nat := 4 * es + 4.

End parser.

(** The NUL after each word: the buffer is the line with its NUL. *)
Fixpoint nulterminate (c : cmd span) (buf : list Z) : list Z :=
  match c with
  | EXEC argv => fold_left (fun buf w => <[w.2 := 0]> buf) argv buf
  | REDIR c file _ _ => <[file.2 := 0]> (nulterminate c buf)
  | PIPE l r => nulterminate r (nulterminate l buf)
  | LIST l r => nulterminate r (nulterminate l buf)
  | BACK c => nulterminate c buf
  end.

(** The tree and the buffer its pointers point into. *)
Definition parsecmd (s : list Z) : outcome Empty_set (list Z) (cmd span) :=
  match (let* c := parseline s (parse_fuel s) in
         peek s [];*
         let* p := gets id in
         if (p =? es s)%nat then M_ret c else panic "syntax") 0%nat with
  | Ok c _ => Ok c (nulterminate c (s ++ [0]))
  | Panic msg => Panic msg
  | Wait w _ => Wait w s
  | Fault => Fault
  | NoFuel => NoFuel
  end.

(** The C string at a pointer into the buffer. *)
Fixpoint until_nul (l : list Z) : list Z :=
  match l with
  | c :: l => if c =? 0 then [] else c :: until_nul l
  | [] => []
  end.

Definition cstring (buf : list Z) (q : nat) : list Z := until_nul (drop q buf).

Fixpoint cmd_map {V W} (f : V -> W) (c : cmd V) : cmd W :=
  match c with
  | EXEC argv => EXEC (f <$> argv)
  | REDIR c file mode fd => REDIR (cmd_map f c) (f file) mode fd
  | PIPE l r => PIPE (cmd_map f l) (cmd_map f r)
  | LIST l r => LIST (cmd_map f l) (cmd_map f r)
  | BACK c => BACK (cmd_map f c)
  end.

(** ** Definitions: running commands *)

(** What a file descriptor refers to: what the shell was started with, an end of a pipe,
    or a file the shell has opened. *)
Inductive fobj : Type :=
| Inherited (n : nat)
| PipeRead (pipe : nat)
| PipeWrite (pipe : nat)
| Opened (path : list Z) (mode : Z).

Notation fdtable := (list (option fobj)).

(** The system calls of [runcmd] on the table of descriptors ([fdalloc] takes the first
    that is free). *)

Fixpoint free_fd (fds : fdtable) : option nat :=
  match fds with
  | [] => None
  | None :: _ => Some 0%nat
  | Some _ :: fds => S <$> free_fd fds
  end.

Definition sh_close (fd : nat) (fds : fdtable) : fdtable := <[fd := None]> fds.

Definition sh_install (f : fobj) (fds : fdtable) : option (nat * fdtable) :=
  fd ← free_fd fds; Some (fd, <[fd := Some f]> fds).

Definition sh_dup (fd : nat) (fds : fdtable) : fdtable :=
  match fds !! fd with
  | Some (Some f) => match sh_install f fds with Some r => r.2 | None => fds end
  | _ => fds
  end.

Definition sh_pipe (n : nat) (fds : fdtable) : option (nat * nat * fdtable) :=
  '(p0, fds) ← sh_install (PipeRead n) fds;
  '(p1, fds) ← sh_install (PipeWrite n) fds;
  Some (p0, p1, fds).

Inductive event : Type :=
| Run (argv : list (list Z)) (fds : fdtable)
| Message (text : list Z) (fds : fdtable).

(** How many pipes and how many processes there have been. *)
Record world := World { w_pipes : nat; w_forks : nat }.

Section running.
Variable can_open : list Z -> Z -> bool.
Variable can_fork : nat -> bool.
Variable can_exec : list Z -> bool.

(** [fork1]: whether there is a child. *)
Definition fork1 (w : world) : bool * world := (can_fork (w_forks w), World (w_pipes w) (S (w_forks w))).

Definition complain (fds : fdtable) (text : list Z) : event := Message text fds.

Fixpoint runcmd (c : cmd (list Z)) (fds : fdtable) (w : world) : list event * world :=
  match c with
  | EXEC argv =>
      match argv with
      | [] => ([], w)
      | path :: _ =>
          if can_exec path then ([Run argv fds], w)
          else ([complain fds (chars "exec " ++ path ++ chars " failed" ++ [10])], w)
      end
  | REDIR c file mode fd =>
      let fds := sh_close (Z.to_nat fd) fds in
      if can_open file mode then
        match sh_install (Opened file mode) fds with
        | Some r => runcmd c r.2 w
        | None => ([complain fds (chars "open " ++ file ++ chars " failed" ++ [10])], w)
        end
      else ([complain fds (chars "open " ++ file ++ chars " failed" ++ [10])], w)
  | LIST l r =>
      let '(ok, w) := fork1 w in
      if ok then
        let '(e1, w) := runcmd l fds w in
        let '(e2, w) := runcmd r fds w in
        (e1 ++ e2, w)
      else ([complain fds (chars "fork" ++ [10])], w)
  | PIPE l r =>
      match sh_pipe (w_pipes w) fds with
      | None => ([complain fds (chars "pipe" ++ [10])], w)
      | Some (p0, p1, fds) =>
          let w := World (S (w_pipes w)) (w_forks w) in
          let '(ok, w) := fork1 w in
          if ok then
            let '(e1, w) := runcmd l (sh_close p1 (sh_close p0 (sh_dup p1 (sh_close 1 fds)))) w in
            let '(ok, w) := fork1 w in
            if ok then
              let '(e2, w) := runcmd r (sh_close p1 (sh_close p0 (sh_dup p0 (sh_close 0 fds)))) w in
              (e1 ++ e2, w)
            else (e1 ++ [complain fds (chars "fork" ++ [10])], w)
          else ([complain fds (chars "fork" ++ [10])], w)
      end
  | BACK c =>
      let '(ok, w) := fork1 w in
      if ok then runcmd c fds w else ([complain fds (chars "fork" ++ [10])], w)
  end.

End running.

(** ** Definitions: the main loop *)

(** What [main] does with a line: it changes directory itself, and a child parses and
    runs any other command. *)
Inductive action : Type :=
| Chdir (path : list Z)
| Command (parsed : outcome Empty_set (list Z) (cmd span)).

Definition getcmd (input : list Z) : option (list Z * list Z) :=
  let '(buf, input) := ugets 100 input in
  match buf with
  | c :: _ => if c =? 0 then None else Some (buf, input)
  | [] => None
  end.

Definition do_line (buf : list Z) : action :=
  let c i := default 0 (buf !! i) in
  if (c 0%nat =? 99) && (c 1%nat =? 100) && (c 2%nat =? 32) then
    let buf := <[(length (until_nul buf) - 1)%nat := 0]> buf in
    Chdir (cstring buf 3)
  else Command (parsecmd (until_nul buf)).

(** A round of the loop takes at least one byte of the input. *)
Fixpoint sh_main (fuel : nat) (input : list Z) : option (list action) :=
  match fuel with
  | O => None
  | S fuel =>
      match getcmd input with
      | None => Some []
      | Some (buf, input) => cons (do_line buf) <$> sh_main fuel input
      end
  end.

(** ** Specification: well-formed commands and their text *)

(** A word is not empty and has only characters a word may have. *)
Definition word (w : list Z) : Prop := w <> [] /\ Forall (fun c => c <> 0 /\ wordchar c = true) w.

Definition redirection (mode fd : Z) : Prop :=
  (mode = RDONLY /\ fd = 0) \/ ((mode = WRONLY_CREATE_TRUNC \/ mode = WRONLY_CREATE) /\ fd = 1).

(** The commands the shell can run: there is room for the arguments of each program and
    the NULL after them. *)
Fixpoint wf_cmd {W} (word_ok : W -> Prop) (c : cmd W) : Prop :=
  match c with
  | EXEC argv => Forall word_ok argv /\ (length argv < MAXARGS)%nat
  | REDIR c file mode fd => wf_cmd word_ok c /\ word_ok file /\ redirection mode fd
  | PIPE l r => wf_cmd word_ok l /\ wf_cmd word_ok r
  | LIST l r => wf_cmd word_ok l /\ wf_cmd word_ok r
  | BACK c => wf_cmd word_ok c
  end.

(** How commands bind, from a program with its redirections to a whole line. *)
Inductive level := LExec | LPipe | LBack | LLine.

Definition paren (b : bool) (text : list Z) : list Z := if b then chars " (" ++ text ++ chars " )" else text.

Definition show_redir (file : list Z) (mode fd : Z) : list Z :=
  (if fd =? 0 then chars " <" else if mode =? WRONLY_CREATE then chars " >>" else chars " >") ++ 32 :: file.

(** The text of a command, in parentheses where its place needs them. *)
Fixpoint show (lv : level) (c : cmd (list Z)) : list Z :=
  match c with
  | EXEC argv => argv ≫= cons 32
  | REDIR c file mode fd => show LExec c ++ show_redir file mode fd
  | PIPE l r =>
      paren (match lv with LExec => true | _ => false end) (show LExec l ++ chars " |" ++ show LPipe r)
  | BACK c =>
      paren (match lv with LExec | LPipe => true | _ => false end) (show LBack c ++ chars " &")
  | LIST l r =>
      paren (match lv with LLine => false | _ => true end) (show LBack l ++ chars " ;" ++ show LLine r)
  end.

(** ** Lexing *)

Fixpoint leading (f : Z -> bool) (l : list Z) : nat :=
  match l with
  | c :: l => if f c then S (leading f l) else 0%nat
  | [] => 0%nat
  end.

Fixpoint trim (l : list Z) : list Z :=
  match l with
  | c :: l' => if is_in whitespace c then trim l' else l
  | [] => []
  end.

Definition starts (toks l : list Z) : bool := match l with c :: _ => is_in toks c | [] => false end.

(** The token at the head of [l], which has no leading white space, and its length. *)
Definition token (l : list Z) : Z * nat :=
  match l with
  | [] => (0, 0%nat)
  | c :: l' =>
      if is_in (chars "|();&<") c then (c, 1%nat)
      else if c =? 62 then if default 0 (head l') =? 62 then (43, 2%nat) else (c, 1%nat)
      else (97, leading wordchar l)
  end.

Lemma leading_le f l : (leading f l <= length l)%nat.
Proof. induction l as [|c l IH]; simpl; [lia|]. destruct (f c); lia. Qed.

Lemma leading_all f l : Forall (fun c => f c = true) (take (leading f l) l).
Proof. induction l as [|c l IH]; simpl; [constructor|]. destruct (f c) eqn:E; [by constructor|constructor]. Qed.

Lemma leading_stop f l c l' : drop (leading f l) l = c :: l' -> f c = false.
Proof. induction l as [|d l IH]; simpl; [done|]. destruct (f d) eqn:E; [apply IH|]. by injection 1 as -> _. Qed.

Lemma leading_app f w l :
  Forall (fun c => f c = true) w -> (forall c l', l = c :: l' -> f c = false) -> leading f (w ++ l) = length w.
Proof.
  intros Hw Hl. induction Hw as [|c w Hc Hw IH]; simpl; [|by rewrite Hc, IH].
  destruct l as [|c l]; [done|]. simpl. by rewrite (Hl c l).
Qed.

Lemma trim_leading l : trim l = drop (leading (is_in whitespace) l) l.
Proof. induction l as [|c l IH]; simpl; [done|]. by destruct (is_in whitespace c). Qed.

Lemma trim_length l : (length (trim l) <= length l)%nat.
Proof. rewrite trim_leading. len. Qed.

Lemma trim_head l c l' : trim l = c :: l' -> is_in whitespace c = false.
Proof. rewrite trim_leading. apply leading_stop. Qed.

Lemma trim_trim l : trim (trim l) = trim l.
Proof. destruct (trim l) as [|c l'] eqn:E; [done|]. simpl. by rewrite (trim_head _ _ _ E). Qed.

Lemma trim_space l : trim (32 :: l) = trim l.
Proof. done. Qed.

Lemma is_in_elem toks c : is_in toks c = true -> c ∈ toks.
Proof.
  unfold is_in. induction toks as [|x toks IH]; simpl; [done|]. destruct (x =? 0); [done|].
  destruct (Z.eqb_spec x c) as [->|]; [constructor|]. destruct (strchr toks c); [|done]. intros _. constructor. by apply IH.
Qed.

Lemma elem_is_in toks c : c ∈ toks -> forallb truthy toks = true -> is_in toks c = true.
Proof.
  unfold is_in, truthy. intros Hc. induction Hc as [toks|c x toks Hc IH]; simpl; intros [H1 H2]%andb_true_iff; apply negb_true_iff in H1; rewrite H1.
  - by rewrite Z.eqb_refl.
  - destruct (x =? c); [done|]. specialize (IH H2). by destruct (strchr toks c).
Qed.

(** The first character of a token is not white space; if it is no symbol it begins a word. *)
Lemma token_word l l0 :
  l = trim l0 -> Forall (fun c => c <> 0) l -> (token l).1 = 97 ->
  word (take (token l).2 l) /\ (forall c l', drop (token l).2 l = c :: l' -> wordchar c = false).
Proof.
  intros El Hl. destruct l as [|c l]; [done|]. pose proof (trim_head _ _ _ (eq_sym El)) as Hc.
  unfold token. destruct (is_in (chars "|();&<") c) eqn:E1.
  { simpl. intros ->. done. }
  destruct (Z.eqb_spec c 62) as [->|Hne]; [destruct (default 0 (head l) =? 62); done|]. intros _. cbn [snd].
  assert (Hw : wordchar c = true).
  { unfold wordchar. rewrite Hc. simpl. destruct (is_in symbols c) eqn:E; [|done]. apply is_in_elem in E.
    repeat (apply elem_of_cons in E as [->|E]; [done|]). by apply elem_of_nil in E. }
  split; [|intros d l'; apply leading_stop]. split; [simpl; by rewrite Hw|].
  apply Forall_and. split; [by apply Forall_take|apply leading_all].
Qed.

Lemma token_length l : ((token l).2 <= length l)%nat.
Proof.
  destruct l as [|c l]; [done|]. unfold token. destruct (is_in _ c); [simpl; lia|]. destruct (c =? 62).
  - destruct l as [|d l]; [simpl; lia|]. simpl. destruct (d =? 62); simpl; lia.
  - apply leading_le.
Qed.

Lemma token_progress l l0 : l = trim l0 -> Forall (fun c => c <> 0) l -> l <> [] -> (0 < (token l).2)%nat /\ (token l).1 <> 0.
Proof.
  intros El Hl Hne. destruct (decide ((token l).1 = 97)) as [E|E].
  - destruct (token_word l l0 El Hl E) as [[Hw _] _]. split; [|by rewrite E]. destruct (token l).2; [by destruct l|lia].
  - destruct l as [|c l]; [done|]. apply Forall_cons in Hl as [Hc _]. revert E. unfold token. destruct (is_in _ c); [simpl; lia|].
    destruct (c =? 62); [|done]. destruct (_ =? 62); simpl; lia.
Qed.

Section parsing.
Context (s : list Z) (Hs : Forall (fun c => c <> 0) s).

(** The text left at a pointer. *)
Definition rest (p : nat) (l : list Z) : Prop := (p <= es s)%nat /\ drop p s = l.

Lemma rest_length p l : rest p l -> (length l + p = es s)%nat.
Proof using. intros [Hp <-]. unfold es in *. len. Qed.

Lemma rest_nonzero p l : rest p l -> Forall (fun c => c <> 0) l.
Proof using Hs. intros [_ <-]. by apply Forall_drop. Qed.

Lemma rest_drop p l n : rest p l -> (n <= length l)%nat -> rest (p + n) (drop n l).
Proof using. intros H Hn. pose proof (rest_length _ _ H). destruct H as [Hp <-]. split; [lia|]. by rewrite drop_drop. Qed.

Lemma char_at_rest p l : rest p l -> char_at s p = default 0 (head l).
Proof using.
  intros [_ <-]. unfold char_at. rewrite <- (Nat.add_0_r p) at 1. rewrite <- lookup_drop. by destruct (drop p s).
Qed.

Lemma skip_leading f p l : rest p l -> skip s f (es s - p) p = (p + leading f l)%nat.
Proof using.
  intros H. remember (es s - p)%nat as n eqn:En. revert p l En H.
  induction n as [|n IH]; intros p l En H; pose proof (rest_length _ _ H) as Hl; cbn [skip].
  - destruct l; [simpl; lia|simpl in Hl; lia].
  - rewrite (char_at_rest p l H). destruct l as [|c l]; [simpl in Hl; lia|]. simpl. destruct (f c); [|lia].
    rewrite (IH (S p) l); [lia|lia|]. replace (S p) with (p + 1)%nat by lia. apply (rest_drop p (c :: l) 1 H). simpl. lia.
Qed.

Lemma skip_ws_rest p l : rest p l -> rest (skip_ws s p) (trim l).
Proof using.
  intros H. unfold skip_ws. rewrite (skip_leading _ p l H), trim_leading. apply rest_drop; [done|]. apply leading_le.
Qed.

Lemma peek_rest toks p l :
  rest p l -> exists p', peek s toks p = Ok (starts toks (trim l)) p' /\ rest p' (trim l).
Proof using Hs.
  intros H%skip_ws_rest. exists (skip_ws s p). split; [|done]. unfold peek, M_bind, modify, Prelude.gets, M_ret, id.
  rewrite (char_at_rest _ _ H). pose proof (rest_nonzero _ _ H) as Hz. destruct (trim l) as [|c l']; [done|]. simpl.
  apply Forall_cons in Hz as [Hc _]. unfold truthy. by rewrite (proj2 (Z.eqb_neq c 0)).
Qed.

Lemma gettoken_rest p l :
  rest p l -> exists q p',
    gettoken s p = Ok ((token (trim l)).1, (q, (q + (token (trim l)).2)%nat)) p' /\
    rest q (trim l) /\ rest p' (trim (drop (token (trim l)).2 (trim l))).
Proof using Hs.
  intros H%skip_ws_rest. pose proof (token_length (trim l)) as Hlen. exists (skip_ws s p).
  exists (skip_ws s (skip_ws s p + (token (trim l)).2)). split; [|split; [done|]]; [|by apply skip_ws_rest, rest_drop].
  unfold gettoken, M_bind, Prelude.gets, modify, M_ret, id. rewrite (char_at_rest _ _ H). pose proof (rest_nonzero _ _ H) as Hz.
  rewrite (skip_leading _ _ _ H). destruct (trim l) as [|c l'] eqn:E; [simpl; by rewrite Nat.add_0_r|].
  apply Forall_cons in Hz as [Hc _]. change (default 0 (head (c :: l'))) with c. rewrite (proj2 (Z.eqb_neq c 0)) by done. unfold token.
  rewrite (char_at_rest (S (skip_ws s p)) l') by (rewrite <- Nat.add_1_r; apply (rest_drop _ _ 1 H); simpl; lia).
  destruct (is_in _ c); [by rewrite Nat.add_1_r|]. destruct (c =? 62); [|done].
  destruct (_ =? 62); cbn [fst snd]; [|by rewrite Nat.add_1_r]. by replace (skip_ws s p + 2)%nat with (S (S (skip_ws s p))) by lia.
Qed.

(** ** Every line gives a command or a syntax error *)

Definition safe {A} (m : P A) (Q : A -> nat -> Prop) (p : nat) : Prop :=
  match m p with Ok a p' => Q a p' | Panic _ => True | _ => False end.

Lemma safe_bind {A B} (m : P A) (f : A -> P B) Q p :
  safe m (fun a p' => safe (f a) Q p') p -> safe (M_bind m f) Q p.
Proof using. unfold safe, M_bind. by destruct (m p). Qed.

Lemma safe_mono {A} (m : P A) (Q Q' : A -> nat -> Prop) p :
  safe m Q p -> (forall a p', Q a p' -> Q' a p') -> safe m Q' p.
Proof using. unfold safe. destruct (m p); auto. Qed.

Definition wf_span (w : span) : Prop :=
  (w.1 <= w.2 <= es s)%nat /\ word (slice w.1 (w.2 - w.1) s) /\
  (forall c l, drop w.2 s = c :: l -> wordchar c = false).

(** What is left is no longer than [l]. *)
Definition left (l : list Z) (p : nat) : Prop := exists l', rest p l' /\ (length l' <= length l)%nat.

Lemma peek_safe toks (Q : bool -> nat -> Prop) p l :
  rest p l ->
  (forall p' l', rest p' l' -> trim l' = l' -> (length l' <= length l)%nat -> Q (starts toks l') p') -> safe (peek s toks) Q p.
Proof using Hs.
  intros H HQ. destruct (peek_rest toks p l H) as (p' & E & Hp'). unfold safe. rewrite E.
  apply (HQ _ _ Hp'); [apply trim_trim|apply trim_length].
Qed.

Lemma gettoken_safe (Q : Z * span -> nat -> Prop) p l :
  rest p l ->
  (forall r p' l', rest p' l' -> (length l' <= length l)%nat ->
     (r.1 = 97 -> wf_span r.2) -> (r.1 <> 0 \/ trim l <> [] -> (length l' < length l)%nat) -> Q r p') ->
  safe (gettoken s) Q p.
Proof using Hs.
  intros H HQ. destruct (gettoken_rest p l H) as (q & p' & E & Hq & Hp'). unfold safe. rewrite E.
  pose proof (token_length (trim l)) as Hl. pose proof (trim_length l) as Ht.
  pose proof (trim_length (drop (token (trim l)).2 (trim l))) as Ht'. rewrite length_drop in Ht'.
  pose proof (rest_length _ _ Hq) as Hlq. pose proof (rest_nonzero _ _ Hq) as Hz.
  assert (Hprog : trim l <> [] -> (0 < (token (trim l)).2)%nat) by (intros; by apply (token_progress _ l)).
  apply (HQ _ _ _ Hp'); cbn [fst snd].
  - lia.
  - intros E97. destruct (token_word (trim l) l eq_refl Hz E97) as [Hw Hstop]. destruct Hq as [_ Hd].
    unfold wf_span, slice. cbn [fst snd]. rewrite Nat.add_sub_swap, Nat.sub_diag, Nat.add_0_l, Hd by lia. split_ands; [lia|lia|done|].
    rewrite <- drop_drop, Hd. exact Hstop.
  - intros Hne. assert (Hn : trim l <> []) by (intros En; rewrite En in Hne; by destruct Hne). specialize (Hprog Hn). lia.
Qed.

(** A chain of redirections of a program with [n] arguments. *)
Fixpoint chain {W} (c : cmd W) (n : nat) : Prop :=
  match c with
  | EXEC argv => length argv = n
  | REDIR c _ _ _ => chain c n
  | _ => False
  end.

Lemma push_arg_wf {W} (ok : W -> Prop) c n w :
  wf_cmd ok c -> chain c n -> ok w -> (S n < MAXARGS)%nat -> wf_cmd ok (push_arg c w) /\ chain (push_arg c w) (S n).
Proof using.
  intros Hc Hn Hw HM. induction c as [argv|c IH f m fd| | |]; simpl in *; try done.
  - destruct Hc as [Ha _]. rewrite length_app, Hn. simpl. split_ands; [apply Forall_app; split; auto|lia|lia].
  - destruct Hc as (Hc & Hf & Hr). destruct (IH Hc Hn). done.
Qed.

Lemma left_mono l l' p : left l' p -> (length l' <= length l)%nat -> left l p.
Proof using. intros (l2 & H & Hl) Hle. exists l2. split; [done|lia]. Qed.

Lemma starts_trim toks l : trim l = l -> starts toks l = true -> trim l <> [].
Proof using. intros -> H ->. done. Qed.

Lemma parseredirs_safe n c p l :
  rest p l -> (length l < n)%nat -> wf_cmd wf_span c ->
  safe (parseredirs s n c) (fun c' p' => wf_cmd wf_span c' /\ (forall k, chain c k -> chain c' k) /\ left l p') p.
Proof using Hs.
  revert c p l. induction n as [|n IH]; intros c p l H Hn Hc; [lia|]. cbn [parseredirs].
  apply safe_bind. eapply peek_safe; [done|]. intros p1 l1 H1 Ht1 Hl1. destruct (starts _ l1) eqn:Es.
  2: { split; [done|split; [done|]]. by exists l1. }
  apply safe_bind. eapply gettoken_safe; [done|]. intros tok p2 l2 H2 _ _ Hl2. specialize (Hl2 (or_intror (starts_trim _ _ Ht1 Es))).
  apply safe_bind. eapply gettoken_safe; [done|]. intros file p3 l3 H3 Hl3 Hw _.
  destruct (Z.eqb_spec file.1 97) as [E97|]; [|done]. simpl negb. cbv iota. specialize (Hw E97).
  eapply safe_mono.
  - eapply (IH _ p3 l3); [done|lia|]. repeat case_match; [..|done]; simpl; split_ands; try done; unfold redirection; tauto.
  - intros c' p' (Hc' & Hch & Hleft). split_ands; [done| |eapply left_mono; [done|lia]].
    intros k Hk. apply Hch. by repeat case_match.
Qed.

Lemma parseargs_safe n c argc p l :
  rest p l -> (length l < n)%nat -> wf_cmd wf_span c -> chain c argc ->
  safe (parseargs s n c argc) (fun c' p' => wf_cmd wf_span c' /\ left l p') p.
Proof using Hs.
  revert c argc p l. induction n as [|n IH]; intros c argc p l H Hn Hc Hch; [lia|]. cbn [parseargs].
  apply safe_bind. eapply peek_safe; [done|]. intros p1 l1 H1 Ht1 Hl1. destruct (starts _ l1) eqn:Es.
  { split; [done|]. by exists l1. }
  apply safe_bind. eapply gettoken_safe; [done|]. intros tok p2 l2 H2 Hl2 Hw Hp.
  destruct (Z.eqb_spec tok.1 0) as [|Hne0]; [split; [done|]; exists l2; split; [done|lia]|].
  destruct (Z.eqb_spec tok.1 97) as [E97|]; [|done]. simpl negb. cbv iota. specialize (Hw E97). specialize (Hp (or_introl Hne0)).
  destruct (Nat.leb_spec MAXARGS (S argc)) as [|Hlt]; [done|].
  destruct (push_arg_wf wf_span c argc tok.2 Hc Hch Hw Hlt) as [Hc' Hch'].
  apply safe_bind. eapply safe_mono; [apply (parseredirs_safe _ _ p2 l2 H2); [pose proof (rest_length _ _ H2); lia|done]|].
  intros c2 p3 (Hc2 & Hch2 & l3 & H3 & Hl3). eapply safe_mono; [apply (IH c2 (S argc) p3 l3); auto; lia|].
  intros c' p' [Hc3 Hleft]. split; [done|]. eapply left_mono; [done|lia].
Qed.

Lemma parsebacks_safe n c p l :
  rest p l -> (length l < n)%nat -> wf_cmd wf_span c ->
  safe (parsebacks s n c) (fun c' p' => wf_cmd wf_span c' /\ left l p') p.
Proof using Hs.
  revert c p l. induction n as [|n IH]; intros c p l H Hn Hc; [lia|]. cbn [parsebacks].
  apply safe_bind. eapply peek_safe; [done|]. intros p1 l1 H1 Ht1 Hl1. destruct (starts _ l1) eqn:Es.
  2: { split; [done|]. by exists l1. }
  apply safe_bind. eapply gettoken_safe; [done|]. intros tok p2 l2 H2 _ _ Hl2. specialize (Hl2 (or_intror (starts_trim _ _ Ht1 Es))).
  eapply safe_mono; [apply (IH (BACK c) p2 l2); [done|lia|done]|]. intros c' p' [Hc' Hleft]. split; [done|]. eapply left_mono; [done|lia].
Qed.

(** A symbol that is there, then the rest of the production. *)
Lemma symbol_safe {A} toks (m1 m2 : P A) (Q : A -> nat -> Prop) p l :
  rest p l ->
  (forall p' l', rest p' l' -> (length l' < length l)%nat -> safe m1 Q p') ->
  (forall p' l', rest p' l' -> (length l' <= length l)%nat -> safe m2 Q p') ->
  safe (let* b := peek s toks in if b then gettoken s;* m1 else m2) Q p.
Proof using Hs.
  intros H H1 H2. apply safe_bind. eapply peek_safe; [done|]. intros p1 l1 Hp1 Ht1 Hl1.
  destruct (starts toks l1) eqn:Es; [|by eapply H2].
  apply safe_bind. eapply gettoken_safe; [done|]. intros tok p2 l2 Hp2 _ _ Hl2. specialize (Hl2 (or_intror (starts_trim _ _ Ht1 Es))).
  eapply H1; [done|lia].
Qed.

Definition parsed (l : list Z) (c : cmd span) (p : nat) : Prop := wf_cmd wf_span c /\ left l p.

Lemma parse_safe n :
  (forall p l, rest p l -> (4 * length l + 3 < n)%nat -> safe (parseline s n) (parsed l) p) /\
  (forall p l, rest p l -> (4 * length l + 2 < n)%nat -> safe (parsepipe s n) (parsed l) p) /\
  (forall p l, rest p l -> (4 * length l + 1 < n)%nat -> safe (parseexec s n) (parsed l) p) /\
  (forall p l, rest p l -> (4 * length l < n)%nat -> safe (parseblock s n) (parsed l) p).
Proof using Hs.
  induction n as [|n (IHl & IHp & IHe & IHb)]; [split_ands; intros; lia|].
  split_ands; intros p l H Hn; pose proof (rest_length _ _ H) as Hlen; cbn [parseline parsepipe parseexec parseblock].
  - apply safe_bind. eapply safe_mono; [apply (IHp p l H); lia|]. intros c p1 (Hc & l1 & H1 & Hl1).
    apply safe_bind. eapply safe_mono; [apply (parsebacks_safe _ c p1 l1 H1); [pose proof (rest_length _ _ H1); lia|done]|].
    intros c2 p2 (Hc2 & l2 & H2 & Hl2). apply (symbol_safe _ _ _ _ p2 l2 H2).
    + intros p3 l3 H3 Hl3. apply safe_bind. eapply safe_mono; [apply (IHl p3 l3 H3); lia|].
      intros c4 p4 [Hc4 Hleft]. split; [done|]. eapply left_mono; [done|lia].
    + intros p3 l3 H3 Hl3. split; [done|]. exists l3. split; [done|lia].
  - apply safe_bind. eapply safe_mono; [apply (IHe p l H); lia|]. intros c p1 (Hc & l1 & H1 & Hl1).
    apply (symbol_safe _ _ _ _ p1 l1 H1).
    + intros p3 l3 H3 Hl3. apply safe_bind. eapply safe_mono; [apply (IHp p3 l3 H3); lia|].
      intros c4 p4 [Hc4 Hleft]. split; [done|]. eapply left_mono; [done|lia].
    + intros p3 l3 H3 Hl3. split; [done|]. exists l3. split; [done|lia].
  - apply safe_bind. eapply peek_safe; [done|]. intros p1 l1 H1 Ht1 Hl1. destruct (starts _ l1).
    + eapply safe_mono; [apply (IHb p1 l1 H1); lia|]. intros c' p' [Hc' Hleft]. split; [done|]. eapply left_mono; [done|lia].
    + apply safe_bind. eapply safe_mono; [apply (parseredirs_safe _ (EXEC []) p1 l1 H1); [lia|simpl; split; [constructor|unfold MAXARGS; lia]]|].
      intros c2 p2 (Hc2 & Hch2 & l2 & H2 & Hl2).
      eapply safe_mono; [apply (parseargs_safe _ c2 0 p2 l2 H2); [lia|done|by apply Hch2]|].
      intros c' p' [Hc' Hleft]. split; [done|]. eapply left_mono; [done|lia].
  - apply safe_bind. eapply peek_safe; [done|]. intros p1 l1 H1 Ht1 Hl1. destruct (starts _ l1) eqn:Es; [|done]. cbn [negb].
    apply safe_bind. eapply gettoken_safe; [done|]. intros tok p2 l2 H2 _ _ Hl2. specialize (Hl2 (or_intror (starts_trim _ _ Ht1 Es))).
    apply safe_bind. eapply safe_mono; [apply (IHl p2 l2 H2); lia|]. intros c3 p3 (Hc3 & l3 & H3 & Hl3).
    apply safe_bind. eapply peek_safe; [done|]. intros p4 l4 H4 Ht4 Hl4. destruct (starts _ l4); [|done]. cbn [negb].
    apply safe_bind. eapply gettoken_safe; [done|]. intros tok5 p5 l5 H5 Hl5 _ _.
    eapply safe_mono; [apply (parseredirs_safe _ c3 p5 l5 H5); [lia|done]|].
    intros c' p' (Hc' & _ & Hleft). split; [done|]. eapply left_mono; [done|lia].
Qed.

(** ** The words as C strings *)

Fixpoint words {W} (c : cmd W) : list W :=
  match c with
  | EXEC argv => argv
  | REDIR c file _ _ => words c ++ [file]
  | PIPE l r | LIST l r => words l ++ words r
  | BACK c => words c
  end.

Lemma wf_words {W} (ok : W -> Prop) c : wf_cmd ok c -> Forall ok (words c).
Proof using.
  induction c; simpl; [tauto|intros (H & Hf & _); apply Forall_app; split; auto| | |done];
    intros [H1 H2]; apply Forall_app; split; auto.
Qed.

Lemma cmd_map_ext {V W} (f g : V -> W) c : Forall (fun w => f w = g w) (words c) -> cmd_map f c = cmd_map g c.
Proof using.
  induction c as [argv|c IH file m fd|l IHl r IHr|l IHl r IHr|c IH]; simpl; intros H; [|apply Forall_app in H as [H1 H2]..|].
  - f_equal. apply list_fmap_ext. intros i w Hw. rewrite Forall_lookup in H. eauto.
  - rewrite IH by done. apply Forall_cons in H2 as [-> _]. done.
  - by rewrite IHl, IHr.
  - by rewrite IHl, IHr.
  - by rewrite IH.
Qed.

Lemma wf_cmd_map {V W} (f : V -> W) (ok : V -> Prop) (ok' : W -> Prop) c :
  (forall w, ok w -> ok' (f w)) -> wf_cmd ok c -> wf_cmd ok' (cmd_map f c).
Proof using.
  intros Hf. induction c; simpl; [|naive_solver..]. intros [H Hl]. rewrite length_fmap. split; [|done].
  apply Forall_fmap. by eapply Forall_impl.
Qed.

Definition put_nuls (ws : list span) (buf : list Z) : list Z := fold_left (fun buf w => <[w.2 := 0]> buf) ws buf.

Lemma put_nuls_app ws ws' buf : put_nuls (ws ++ ws') buf = put_nuls ws' (put_nuls ws buf).
Proof using. apply fold_left_app. Qed.

Lemma nulterminate_words c buf : nulterminate c buf = put_nuls (words c) buf.
Proof using.
  revert buf. induction c; intros buf; simpl; rewrite ?put_nuls_app; [done|by rewrite IHc|by rewrite IHc1, IHc2|by rewrite IHc1, IHc2|done].
Qed.

Lemma put_nuls_lookup ws buf i :
  put_nuls ws buf !! i = if decide (i ∈ snd <$> ws) then (fun _ => 0) <$> buf !! i else buf !! i.
Proof using.
  revert buf. induction ws as [|w ws IH]; intros buf; [done|]. cbn [put_nuls fold_left fmap list_fmap].
  fold (put_nuls ws (<[w.2 := 0]> buf)). rewrite IH. destruct (decide (i = w.2)) as [->|Hne].
  - rewrite (decide_True (P := w.2 ∈ _ :: _)) by (by apply elem_of_cons; left). destruct (decide (w.2 < length buf)%nat).
    + rewrite list_lookup_insert_eq by done. destruct (lookup_lt_is_Some_2 buf w.2) as [x ->]; [done|]. by destruct (decide _).
    + rewrite list_insert_ge by lia. rewrite lookup_ge_None_2 by lia. by destruct (decide _).
  - rewrite list_lookup_insert_ne by done. destruct (decide (i ∈ snd <$> ws)).
    + by rewrite decide_True by (by right).
    + rewrite decide_False; [done|]. by intros [?|?]%elem_of_cons.
Qed.

Lemma until_nul_app w l : Forall (fun c => c <> 0) w -> until_nul (w ++ 0 :: l) = w.
Proof using. induction 1 as [|c w Hc Hw IH]; simpl; [done|]. by rewrite (proj2 (Z.eqb_neq c 0)), IH. Qed.

Lemma slice_lookup (q n i : nat) : (i < n)%nat -> slice q n s !! i = s !! (q + i)%nat.
Proof using. intros Hi. unfold slice. by rewrite lookup_take_lt, lookup_drop. Qed.

(** No NUL is put into a word: where one is put there is no character of a word. *)
Lemma nul_outside ws w i :
  Forall wf_span ws -> wf_span w -> (w.1 <= i < w.2)%nat -> i ∉ snd <$> ws.
Proof using.
  intros Hws ((_ & He) & (_ & Hw) & _) Hi Hin. apply list_elem_of_fmap in Hin as (w' & -> & Hin).
  rewrite Forall_forall in Hws. destruct (Hws w' Hin) as (_ & _ & Hstop).
  destruct (lookup_lt_is_Some_2 s w'.2) as [c Hc]; [unfold es in He; lia|].
  rewrite Forall_lookup in Hw. destruct (Hw (w'.2 - w.1)%nat c) as [_ Ht].
  - rewrite slice_lookup by lia. by replace (w.1 + (w'.2 - w.1))%nat with w'.2 by lia.
  - erewrite Hstop in Ht; [done|]. by apply drop_S.
Qed.

Lemma cstring_word ws w :
  Forall wf_span ws -> w ∈ ws -> cstring (put_nuls ws (s ++ [0])) w.1 = slice w.1 (w.2 - w.1) s.
Proof using.
  intros Hws Hin. pose proof Hws as Hw. rewrite Forall_forall in Hw. specialize (Hw w Hin).
  pose proof Hw as ((Hle & He) & (_ & Hch) & _). unfold es in He. set (buf := put_nuls ws (s ++ [0])).
  assert (Hz : buf !! w.2 = Some 0).
  { unfold buf. rewrite put_nuls_lookup, decide_True by (by apply list_elem_of_fmap_2).
    destruct (lookup_lt_is_Some_2 (s ++ [0]) w.2) as [x ->]; [len|done]. }
  assert (Ht : take (w.2 - w.1) (drop w.1 buf) = slice w.1 (w.2 - w.1) s).
  { apply list_eq. intros i. destruct (decide (i < w.2 - w.1)%nat) as [Hi|Hi].
    - rewrite slice_lookup, lookup_take_lt, lookup_drop by done. unfold buf.
      rewrite put_nuls_lookup, decide_False by (apply (nul_outside ws w); [done..|lia]). by rewrite lookup_app_l by lia.
    - unfold slice. by rewrite !lookup_take_ge by lia. }
  unfold cstring. rewrite <- (take_drop (w.2 - w.1) (drop w.1 buf)), Ht, drop_drop.
  replace (w.1 + (w.2 - w.1))%nat with w.2 by lia. rewrite (drop_S _ 0 _ Hz). apply until_nul_app.
  eapply Forall_impl; [exact Hch|]. by intros ? [].
Qed.

(** The buffer holds the words of a command that is well formed as C strings. *)
Lemma nulterminate_strings c :
  wf_cmd wf_span c ->
  cmd_map (fun w => cstring (nulterminate c (s ++ [0])) w.1) c = cmd_map (fun w => slice w.1 (w.2 - w.1) s) c.
Proof using.
  intros Hc%wf_words. rewrite nulterminate_words. apply cmd_map_ext, Forall_forall. intros w Hw. by apply cstring_word.
Qed.

Lemma rest_start : rest 0 s.
Proof using. split; [lia|done]. Qed.

(** ** Parsing the text of a command *)

(** At [p] there is the text [l], up to white space before it. *)
Definition text (p : nat) (l : list Z) : Prop := exists l0, rest p l0 /\ trim l0 = trim l.

(** White space or the end, which ends a word. *)
Definition sep (k : list Z) : Prop := k = [] \/ exists c k', k = c :: k' /\ is_in whitespace c = true.

(** A continuation that ends what is before it: a symbol of [toks], or the end. *)
Definition stops (toks k : list Z) : Prop :=
  sep k /\ (trim k = [] \/ exists c k', trim k = c :: k' /\ c ∈ toks).

Definition spelled (w : span) : list Z := slice w.1 (w.2 - w.1) s.

Lemma text_le p l : text p l -> (p <= es s)%nat.
Proof using. by intros (l0 & [H _] & _). Qed.

Lemma wp_peek toks (Q : bool -> nat -> Prop) p l :
  text p l -> (forall p', (p <= p')%nat -> text p' l -> Q (starts toks (trim l)) p') -> wp (peek s toks) Q p.
Proof using Hs.
  intros (l0 & H & E) HQ. destruct (peek_rest toks p l0 H) as (p' & Ep & H'). unfold wp. rewrite Ep, E. apply HQ.
  - apply rest_length in H, H'. pose proof (trim_length l0). lia.
  - exists (trim l0). by rewrite trim_trim.
Qed.

Lemma wp_gettoken (Q : Z * span -> nat -> Prop) p l :
  text p l ->
  (forall w p', (p <= p')%nat -> ((token (trim l)).2 <> 0%nat -> (p < p')%nat) -> spelled w = take (token (trim l)).2 (trim l) ->
     text p' (drop (token (trim l)).2 (trim l)) -> Q ((token (trim l)).1, w) p') ->
  wp (gettoken s) Q p.
Proof using Hs.
  intros (l0 & H & E) HQ. destruct (gettoken_rest p l0 H) as (q & p' & Ep & Hq & H'). unfold wp. rewrite Ep.
  rewrite E in *. pose proof (token_length (trim l)) as Hn. pose proof (trim_length (drop (token (trim l)).2 (trim l))) as Ht.
  rewrite length_drop in Ht. pose proof (trim_length l0) as Ht0. rewrite E in Ht0.
  pose proof (rest_length _ _ H). pose proof (rest_length _ _ Hq). pose proof (rest_length _ _ H').
  apply HQ; [lia|lia| |].
  - unfold spelled, slice. cbn [fst snd]. destruct Hq as [_ ->]. by replace (q + (token (trim l)).2 - q)%nat with (token (trim l)).2 by lia.
  - exists (trim (drop (token (trim l)).2 (trim l))). by rewrite trim_trim.
Qed.

Lemma wp_symbol c l' (Q : Z * span -> nat -> Prop) p l :
  text p l -> trim l = c :: l' -> is_in (chars "|();&<") c = true ->
  (forall w p', (p < p')%nat -> text p' l' -> Q (c, w) p') -> wp (gettoken s) Q p.
Proof using Hs.
  intros H E Hc HQ. eapply wp_gettoken; [done|]. assert (Et : token (trim l) = (c, 1%nat)) by (rewrite E; unfold token; by rewrite Hc).
  rewrite Et, E. cbn [fst snd]. intros w p' _ Hp _ H'. apply HQ; [by apply Hp|done].
Qed.

Lemma word_token w l :
  word w -> sep l -> token (w ++ l) = (97, length w) /\ trim (w ++ l) = w ++ l.
Proof using.
  intros [Hne Hw] Hl. destruct w as [|c w]; [done|]. pose proof Hw as Hw'. apply Forall_cons in Hw as [[_ Hc] _].
  assert (Hc' := Hc). unfold wordchar in Hc'. apply andb_true_iff in Hc' as [H1 H2]. apply negb_true_iff in H1, H2.
  split; [|simpl; by rewrite H1]. unfold token. cbn [app].
  destruct (is_in (chars "|();&<") c) eqn:E1.
  { apply is_in_elem in E1. exfalso. repeat (apply elem_of_cons in E1 as [->|E1]; [done|]). by apply elem_of_nil in E1. }
  destruct (Z.eqb_spec c 62) as [->|]; [done|]. f_equal. apply (leading_app wordchar (c :: w) l).
  - eapply Forall_impl; [done|]. by intros ? [].
  - intros d l' ->. destruct Hl as [|(d' & l'' & [= <- _] & Hd)]; [done|]. unfold wordchar. by rewrite Hd.
Qed.

Lemma wp_word w l' (Q : Z * span -> nat -> Prop) p l :
  text p l -> trim l = w ++ l' -> word w -> sep l' ->
  (forall sp p', (p < p')%nat -> spelled sp = w -> text p' l' -> Q (97, sp) p') -> wp (gettoken s) Q p.
Proof using Hs.
  intros H E Hw Hl HQ. eapply wp_gettoken; [done|]. destruct (word_token w l' Hw Hl) as [Et _].
  rewrite E, Et. cbn [fst snd]. intros sp p' _ Hp Hsp H'. rewrite take_app_length in Hsp. rewrite drop_app_length in H'.
  apply HQ; [|done|done]. apply Hp. destruct Hw as [Hne _]. by destruct w.
Qed.

Lemma sep_space k : sep (32 :: k).
Proof using. right. eauto. Qed.

Lemma stops_sep toks k : stops toks k -> sep k.
Proof using. by intros [H _]. Qed.

Lemma stops_symbol toks c k : c ∈ toks -> is_in whitespace c = false -> stops toks (32 :: c :: k).
Proof using. intros Hc Hw. split; [apply sep_space|]. right. exists c, k. simpl. by rewrite Hw. Qed.

Lemma stops_trim toks k : stops toks k -> trim k = [] \/ exists c k', trim k = c :: k' /\ c ∈ toks.
Proof using. by intros [_ H]. Qed.

Lemma stops_weaken toks toks' k : toks ⊆ toks' -> stops toks k -> stops toks' k.
Proof using. intros Hsub [Hsep [E|(c & k' & E & Hc)]]; (split; [done|]); [by left|]. right. eauto. Qed.

Lemma stops_false toks toks' k : stops toks k -> forallb (fun c => negb (is_in toks' c)) toks = true -> starts toks' (trim k) = false.
Proof using.
  intros [->|(c & k' & -> & Hc)]%stops_trim Hf; [done|]. rewrite forallb_forall in Hf. simpl. apply negb_true_iff, Hf. by apply list_elem_of_In.
Qed.

Lemma word_starts toks w l : word w -> forallb (is_in symbols) toks = true -> starts toks (w ++ l) = false.
Proof using.
  intros [Hne Hw] Hf. destruct w as [|c w]; [done|]. apply Forall_cons in Hw as [[_ Hc] _]. simpl.
  destruct (is_in toks c) eqn:E; [|done]. apply is_in_elem, list_elem_of_In in E. rewrite forallb_forall in Hf.
  apply Hf in E. unfold wordchar in Hc. rewrite E in Hc. by destruct (is_in whitespace c).
Qed.

(** Redirections after a command. *)
Definition redir : Type := list Z * Z * Z.

Definition redir_ok (r : redir) : Prop := word r.1.1 /\ redirection r.1.2 r.2.

Definition wrap (c : cmd (list Z)) (rs : list redir) : cmd (list Z) :=
  fold_left (fun c r => REDIR c r.1.1 r.1.2 r.2) rs c.

Definition show_redirs (rs : list redir) : list Z := rs ≫= (fun r => show_redir r.1.1 r.1.2 r.2).

Lemma show_redirs_sep rs k : sep k -> sep (show_redirs rs ++ k).
Proof using.
  intros Hk. destruct rs as [|[[f m] fd] rs]; [done|]. unfold show_redirs. cbn [mbind list_bind fst snd]. unfold show_redir.
  destruct (fd =? 0); [apply sep_space|]. destruct (m =? WRONLY_CREATE); apply sep_space.
Qed.

(** The three tokens for a redirection. *)
Lemma redir_token f m fd l :
  redirection m fd ->
  exists tok op, trim (show_redir f m fd ++ l) = op ++ 32 :: f ++ l /\ token (op ++ 32 :: f ++ l) = (tok, length op) /\
    starts (chars "<>") (op ++ 32 :: f ++ l) = true /\ op <> [] /\
    forall c w, (if tok =? 60 then redircmd c w RDONLY 0
                 else if tok =? 62 then redircmd c w WRONLY_CREATE_TRUNC 1
                 else if tok =? 43 then redircmd c w WRONLY_CREATE 1 else c) = REDIR (W:=span) c w m fd.
Proof using.
  unfold redirection, show_redir. intros [[-> ->]|[[->| ->] ->]].
  - exists 60, [60]. done.
  - exists 62, [62]. done.
  - exists 43, [62; 62]. done.
Qed.

Lemma wp_parseredirs n c rs k p :
  Forall redir_ok rs -> sep k -> starts (chars "<>") (trim k) = false ->
  text p (show_redirs rs ++ k) -> (es s - p < n)%nat ->
  wp (parseredirs s n c) (fun c' p' => cmd_map spelled c' = wrap (cmd_map spelled c) rs /\ text p' k /\ (p <= p')%nat) p.
Proof using Hs.
  revert c rs p. induction n as [|n IH]; intros c rs p Hrs Hsep Hk Ht Hn; [lia|]. cbn [parseredirs].
  apply wp_bind. eapply wp_peek; [done|]. intros p1 Hp1 Ht1. destruct rs as [|[[f m] fd] rs].
  { change (show_redirs [] ++ k) with k in *. rewrite Hk. cbv iota. apply wp_ret. done. }
  apply Forall_cons in Hrs as [[Hf Hr] Hrs]. cbn [fst snd] in *. unfold show_redirs in Ht1 |- *. cbn [mbind list_bind fst snd] in Ht1 |- *.
  fold (show_redirs rs) in Ht1 |- *. rewrite <- app_assoc in Ht1 |- *.
  destruct (redir_token f m fd (show_redirs rs ++ k) Hr) as (tok & op & Et & Etok & Est & Hop & Eif).
  rewrite Et, Est. cbv iota. apply wp_bind. eapply wp_gettoken; [done|]. rewrite Et, Etok. cbn [fst snd].
  intros w0 p2 _ Hp2 _ Ht2. rewrite drop_app_length in Ht2. specialize (Hp2 ltac:(by destruct op)).
  destruct (word_token f (show_redirs rs ++ k) Hf) as [_ Etf]; [by apply show_redirs_sep|].
  apply wp_bind. eapply (wp_word f (show_redirs rs ++ k)); [done|by rewrite trim_space|done|by apply show_redirs_sep|].
  intros sp p3 Hp3 Hsp Ht3. cbn [fst snd Z.eqb Pos.eqb negb]. rewrite Eif. pose proof (text_le _ _ Ht3).
  eapply wp_mono; [apply (IH (REDIR c sp m fd) rs p3); [done|done|done|done|lia]|].
  intros c' p' (Hc & Ht' & Hp'). split_ands; [|done|lia]. rewrite Hc. simpl. by rewrite Hsp.
Qed.

Definition add_args (c : cmd (list Z)) (ws : list (list Z)) : cmd (list Z) := fold_left push_arg ws c.

Lemma add_args_exec argv ws : add_args (EXEC argv) ws = EXEC (argv ++ ws).
Proof using. revert argv. induction ws as [|w ws IH]; intros argv; simpl; [by rewrite app_nil_r|]. rewrite IH. by rewrite <- app_assoc. Qed.

Lemma cmd_map_push {V W} (f : V -> W) c w : cmd_map f (push_arg c w) = push_arg (cmd_map f c) (f w).
Proof using. induction c as [argv|c IH| | |]; simpl; [by rewrite fmap_app|by rewrite IH|done..]. Qed.

Definition show_words (ws : list (list Z)) : list Z := ws ≫= cons 32.

Lemma show_words_sep ws k : sep k -> sep (show_words ws ++ k).
Proof using. intros Hk. destruct ws; [done|]. apply sep_space. Qed.

(** What may follow a program and its redirections. *)
Definition after_exec : list Z := chars "|)&;".

Lemma redirs_starts toks rs k :
  Forall redir_ok rs -> is_in toks 60 = false -> is_in toks 62 = false -> starts toks (trim k) = false ->
  starts toks (trim (show_redirs rs ++ k)) = false.
Proof using.
  intros Hrs H1 H2 Hk. destruct rs as [|[[f m] fd] rs]; [done|]. apply Forall_cons in Hrs as [[_ Hr] _].
  unfold show_redirs, show_redir. cbn [mbind list_bind fst snd] in *. by destruct Hr as [[-> ->]|[[->| ->] ->]].
Qed.

Lemma words_starts toks ws k :
  Forall word ws -> forallb (is_in symbols) toks = true -> sep k ->
  (ws = [] -> starts toks (trim k) = false) -> starts toks (trim (show_words ws ++ k)) = false.
Proof using.
  intros Hws Ht Hs' Hk. destruct ws as [|w ws]; [by apply Hk|]. apply Forall_cons in Hws as [Hw _].
  unfold show_words. cbn [mbind list_bind app]. rewrite trim_space, <- app_assoc. fold (show_words ws).
  destruct (word_token w (show_words ws ++ k) Hw) as [_ ->]; [by apply show_words_sep|]. by apply word_starts.
Qed.

Lemma wp_parseargs n c argc ws rs k p :
  Forall word ws -> Forall redir_ok rs -> (ws = [] -> rs = []) -> stops after_exec k ->
  text p (show_words ws ++ show_redirs rs ++ k) -> (argc + length ws < MAXARGS)%nat -> (es s - p < n)%nat ->
  wp (parseargs s n c argc) (fun c' p' => cmd_map spelled c' = wrap (add_args (cmd_map spelled c) ws) rs /\ text p' k /\ (p <= p')%nat) p.
Proof using Hs.
  revert c argc ws rs p. induction n as [|n IH]; intros c argc ws rs p Hws Hrs He Hk Ht Hmax Hn; [lia|]. cbn [parseargs].
  pose proof (stops_sep _ _ Hk) as Hsep. pose proof (stops_false after_exec (chars "<>") k Hk eq_refl) as Hk'.
  apply wp_bind. eapply wp_peek; [done|]. intros p1 Hp1 Ht1. destruct ws as [|w ws].
  - rewrite (He eq_refl) in *. cbn [show_words show_redirs mbind list_bind app wrap add_args fold_left] in *.
    destruct (stops_trim _ _ Hk) as [E|(d & k' & E & Hd)]; rewrite E; cbn [starts]; cbv iota.
    + apply wp_bind. eapply wp_gettoken; [done|]. rewrite E. intros w p' Hp' _ _ Ht'. cbn [token fst snd Z.eqb]. apply wp_ret.
      split_ands; [done| |lia]. destruct Ht' as (l0 & Hl0 & El0). exists l0. by rewrite El0, E.
    + assert (Ed : is_in (chars "|)&;") d = true) by (by apply elem_is_in).
      rewrite Ed. apply wp_ret. done.
  - apply Forall_cons in Hws as [Hw Hws]. unfold show_words in Ht1 |- *. cbn [mbind list_bind app] in Ht1 |- *.
    fold (show_words ws) in Ht1 |- *. rewrite <- app_assoc in Ht1 |- *. set (k1 := show_words ws ++ show_redirs rs ++ k) in *.
    assert (Hk1 : sep k1) by (by apply show_words_sep, show_redirs_sep).
    destruct (word_token w k1 Hw Hk1) as [_ Etw]. rewrite trim_space, Etw, (word_starts (chars "|)&;") w k1 Hw eq_refl). cbv iota.
    apply wp_bind. eapply (wp_word w k1); [done|by rewrite trim_space|done|done|]. intros sp p2 Hp2 Hsp Ht2. cbn [fst snd Z.eqb Pos.eqb negb].
    destruct (Nat.leb_spec MAXARGS (S argc)); [simpl in Hmax; lia|]. simpl in Hmax. pose proof (text_le _ _ Ht2).
    set (rs1 := match ws with [] => rs | _ => [] end). set (rs2 := match ws with [] => [] | _ => rs end).
    assert (Ek1 : k1 = show_redirs rs1 ++ show_words ws ++ show_redirs rs2 ++ k) by (by destruct ws).
    apply wp_bind. eapply wp_mono; [apply (wp_parseredirs _ _ rs1 (show_words ws ++ show_redirs rs2 ++ k)); [|..|lia]|].
    + by destruct ws.
    + by apply show_words_sep, show_redirs_sep.
    + apply words_starts; [done|done|by apply show_redirs_sep|]. intros ->. done.
    + by rewrite <- Ek1.
    + intros c3 p3 (Hc3 & Ht3 & Hp3). pose proof (text_le _ _ Ht3).
      eapply wp_mono; [apply (IH c3 (S argc) ws rs2 p3); [done|by destruct ws|by intros ->|done|done|lia|lia]|].
      intros c' p' (Hc' & Ht' & Hp'). split_ands; [|done|lia]. rewrite Hc', Hc3, cmd_map_push, Hsp.
      unfold rs1, rs2. by destruct ws.
Qed.

(** What the parser of each level does with the text of [t]. *)

Fixpoint amps (m : nat) : list Z := match m with O => [] | S m => chars " &" ++ amps m end.

Fixpoint backs {W} (m : nat) (c : cmd W) : cmd W := match m with O => c | S m => backs m (BACK c) end.

Definition parses (m : P (cmd span)) (t : cmd (list Z)) (k : list Z) (p : nat) : Prop :=
  wp m (fun c p' => cmd_map spelled c = t /\ text p' k /\ (p <= p')%nat) p.

Definition exec_ok (t : cmd (list Z)) : Prop := forall rs k n p,
  Forall redir_ok rs -> stops after_exec k -> text p (show LExec t ++ show_redirs rs ++ k) ->
  (4 * (es s - p) + 1 < n)%nat -> parses (parseexec s n) (wrap t rs) k p.

Definition pipe_ok (t : cmd (list Z)) : Prop := forall k n p,
  stops (chars ")&;") k -> text p (show LPipe t ++ k) -> (4 * (es s - p) + 2 < n)%nat -> parses (parsepipe s n) t k p.

Definition back_ok (t : cmd (list Z)) : Prop := forall m k n p,
  stops (chars ");") k -> text p (show LBack t ++ amps m ++ k) -> (4 * (es s - p) + 2 < n)%nat ->
  parses (let* c := parsepipe s n in parsebacks s (S (es s)) c) (backs m t) k p.

Definition line_ok (t : cmd (list Z)) : Prop := forall k n p,
  stops (chars ")") k -> text p (show LLine t ++ k) -> (4 * (es s - p) + 3 < n)%nat -> parses (parseline s n) t k p.

Lemma parses_mono m t k p p0 Q :
  parses m t k p -> (p0 <= p)%nat -> (forall c p', cmd_map spelled c = t -> text p' k -> (p0 <= p')%nat -> Q c p') -> wp m Q p.
Proof using. intros H Hp HQ. eapply wp_mono; [exact H|]. intros c p' (Hc & Ht & Hp'). apply HQ; [done|done|lia]. Qed.

Lemma exec_pipe t : show LPipe t = show LExec t -> exec_ok t -> pipe_ok t.
Proof using Hs.
  intros E He k [|n] p Hk Ht Hn; [lia|]. unfold parses. cbn [parsepipe]. apply wp_bind.
  eapply parses_mono; [apply (He [] k n p); [done|eapply stops_weaken; [|done]|by rewrite E in Ht|lia]|done|].
  { intros c Hc. by apply elem_of_cons; right. }
  intros c p1 Hc Ht1 Hp1. apply wp_bind. eapply wp_peek; [done|]. intros p2 Hp2 Ht2.
  rewrite (stops_false _ _ _ Hk) by done. cbv iota. apply wp_ret. split_ands; [done|done|lia].
Qed.

Lemma wp_parsebacks n c m k p :
  stops (chars ");") k -> text p (amps m ++ k) -> (es s - p < n)%nat ->
  parses (parsebacks s n c) (backs m (cmd_map spelled c)) k p.
Proof using Hs.
  revert c m p. induction n as [|n IH]; intros c m p Hk Ht Hn; [lia|]. unfold parses. cbn [parsebacks].
  apply wp_bind. eapply wp_peek; [done|]. intros p1 Hp1 Ht1. destruct m as [|m].
  - cbn [amps app]. rewrite (stops_false _ _ _ Hk) by done. cbv iota. apply wp_ret. done.
  - change (trim (amps (S m) ++ k)) with (38 :: amps m ++ k). cbn [starts]. change (is_in (chars "&") 38) with true. cbv iota.
    apply wp_bind. eapply (wp_symbol 38 (amps m ++ k)); [done|done|done|]. intros _ p2 Hp2 Ht2. pose proof (text_le _ _ Ht2).
    eapply (parses_mono _ _ _ _ p); [apply (IH (BACK c) m p2); [done|done|lia]|lia|]. done.
Qed.

Lemma pipe_back t : show LBack t = show LPipe t -> pipe_ok t -> back_ok t.
Proof using Hs.
  intros E Hp m k n p Hk Ht Hn. apply wp_bind. rewrite E in Ht.
  eapply parses_mono; [apply (Hp (amps m ++ k) n p); [|done|done]|done|].
  { destruct m; [eapply stops_weaken; [|done]|apply (stops_symbol _ 38); [by right; left|done]].
    intros c Hc. apply elem_of_cons in Hc as [->|Hc]; [by left|]. by right; right. }
  intros c p1 Hc Ht1 Hp1. pose proof (text_le _ _ Ht1).
  eapply parses_mono; [apply (wp_parsebacks _ c m k p1); [done|done|lia]|done|]. rewrite Hc. done.
Qed.

Lemma back_line t : show LLine t = show LBack t -> back_ok t -> line_ok t.
Proof using Hs.
  intros E Hb k [|n] p Hk Ht Hn; [lia|]. unfold parses. cbn [parseline]. rewrite E in Ht. apply wp_assoc, wp_bind.
  eapply parses_mono; [apply (Hb 0%nat k n p); [eapply stops_weaken; [|done]|done|lia]|done|].
  { intros c Hc. apply elem_of_cons in Hc as [->|Hc]; [by left|]. by apply elem_of_nil in Hc. }
  intros c p1 Hc Ht1 Hp1. apply wp_bind. eapply wp_peek; [done|]. intros p2 Hp2 Ht2.
  rewrite (stops_false _ _ _ Hk) by done. cbv iota. apply wp_ret. split_ands; [done|done|lia].
Qed.

Lemma line_exec t : show LExec t = chars " (" ++ show LLine t ++ chars " )" -> line_ok t -> exec_ok t.
Proof using Hs.
  intros E Hl rs k [|[|n]] p Hrs Hk Ht Hn; [lia..|]. unfold parses. cbn [parseexec]. rewrite E in Ht.
  change ((chars " (" ++ show LLine t ++ chars " )") ++ show_redirs rs ++ k)
    with (32 :: 40 :: (show LLine t ++ chars " )") ++ show_redirs rs ++ k) in Ht.
  rewrite <- app_assoc in Ht. set (k1 := chars " )" ++ show_redirs rs ++ k) in *.
  apply wp_bind. eapply wp_peek; [done|]. intros p1 Hp1 Ht1. change (starts (chars "(") (trim (32 :: 40 :: show LLine t ++ k1))) with true.
  cbv iota. cbn [parseblock].
  apply wp_bind. eapply wp_peek; [done|]. intros p2 Hp2 Ht2. change (starts (chars "(") (trim (32 :: 40 :: show LLine t ++ k1))) with true.
  cbn [negb]. apply wp_bind. eapply (wp_symbol 40 (show LLine t ++ k1)); [done|done|done|]. intros _ p3 Hp3 Ht3.
  pose proof (text_le _ _ Ht3). apply wp_bind.
  eapply parses_mono; [apply (Hl k1 n p3); [by apply (stops_symbol _ 41); [left|]|done|lia]|done|].
  intros c p4 Hc Ht4 Hp4. apply wp_bind. eapply wp_peek; [done|]. intros p5 Hp5 Ht5.
  change (starts (chars ")") (trim k1)) with true. cbn [negb].
  apply wp_bind. eapply (wp_symbol 41 (show_redirs rs ++ k)); [done|done|done|]. intros _ p6 Hp6 Ht6. pose proof (text_le _ _ Ht6).
  eapply wp_mono; [apply (wp_parseredirs _ c rs k p6); [done|by eapply stops_sep|by eapply stops_false|done|lia]|].
  rewrite Hc. intros c' p' (H1 & H2 & H3). split_ands; [done|done|lia].
Qed.

Lemma exec_exec argv : wf_cmd word (EXEC argv) -> exec_ok (EXEC argv).
Proof using Hs.
  intros [Hw Hmax] rs k [|n] p Hrs Hk Ht Hn; [lia|]. unfold parses. cbn [parseexec]. change (show LExec (EXEC argv)) with (show_words argv) in Ht.
  pose proof (stops_sep _ _ Hk) as Hsep.
  apply wp_bind. eapply wp_peek; [done|]. intros p1 Hp1 Ht1.
  rewrite words_starts; [|done|done|by apply show_redirs_sep|intros _; apply redirs_starts; [done..|by eapply stops_false]]. cbv iota.
  set (rs1 := match argv with [] => rs | _ => [] end). set (rs2 := match argv with [] => [] | _ => rs end).
  assert (Ek : show_words argv ++ show_redirs rs ++ k = show_redirs rs1 ++ show_words argv ++ show_redirs rs2 ++ k) by (by destruct argv).
  rewrite Ek in Ht1. pose proof (text_le _ _ Ht1). apply wp_bind.
  eapply wp_mono; [apply (wp_parseredirs _ (EXEC []) rs1 (show_words argv ++ show_redirs rs2 ++ k)); [by destruct argv| | |done|lia]|].
  - by apply show_words_sep, show_redirs_sep.
  - apply words_starts; [done|done|by apply show_redirs_sep|]. intros ->. by eapply stops_false.
  - intros c2 p2 (Hc2 & Ht2 & Hp2). pose proof (text_le _ _ Ht2).
    eapply wp_mono; [apply (wp_parseargs _ c2 0 argv rs2 k p2); [done|by destruct argv|by intros ->|done|done|done|lia]|].
    intros c' p' (Hc' & Ht' & Hp'). split_ands; [|done|lia]. rewrite Hc', Hc2. unfold rs1, rs2. destruct argv as [|w argv]; [done|].
    cbn [wrap fold_left cmd_map fmap list_fmap]. by rewrite add_args_exec.
Qed.

Lemma pipe_pipe l r : exec_ok l -> pipe_ok r -> pipe_ok (PIPE l r).
Proof using Hs.
  intros He Hp. intros k [|n] p Hk Ht Hn; [lia|]. cbn [show paren] in Ht. rewrite <- !app_assoc in Ht. unfold parses. cbn [parsepipe].
  apply wp_bind. eapply parses_mono; [apply (He [] (chars " |" ++ show LPipe r ++ k) n p)|done|]; [done| |done|lia|].
  { by apply (stops_symbol _ 124); [left|]. }
  intros c p1 Hc Ht1 Hp1. apply wp_bind. eapply wp_peek; [done|]. intros p2 Hp2 Ht2.
  change (starts (chars "|") (trim (chars " |" ++ show LPipe r ++ k))) with true. cbv iota.
  apply wp_bind. eapply (wp_symbol 124 (show LPipe r ++ k)); [done|done|done|]. intros _ p3 Hp3 Ht3. pose proof (text_le _ _ Ht3).
  apply wp_bind. eapply parses_mono; [apply (Hp k n p3 Hk Ht3); lia|done|]. intros c' p4 Hc' Ht4 Hp4. apply wp_ret.
  split_ands; [simpl; by rewrite Hc, Hc'|done|lia].
Qed.

Lemma list_line l r : back_ok l -> line_ok r -> line_ok (LIST l r).
Proof using Hs.
  intros Hb Hln. intros k [|n] p Hk Ht Hn; [lia|]. cbn [show paren] in Ht. rewrite <- !app_assoc in Ht. unfold parses. cbn [parseline].
  apply wp_assoc, wp_bind. eapply parses_mono; [apply (Hb 0%nat (chars " ;" ++ show LLine r ++ k) n p)|done|]; [|done|lia|].
  { by apply (stops_symbol _ 59); [right; left|]. }
  intros c p1 Hc Ht1 Hp1. apply wp_bind. eapply wp_peek; [done|]. intros p2 Hp2 Ht2.
  change (starts (chars ";") (trim (chars " ;" ++ show LLine r ++ k))) with true. cbv iota.
  apply wp_bind. eapply (wp_symbol 59 (show LLine r ++ k)); [done|done|done|]. intros _ p3 Hp3 Ht3. pose proof (text_le _ _ Ht3).
  apply wp_bind. eapply parses_mono; [apply (Hln k n p3 Hk Ht3); lia|done|]. intros c' p4 Hc' Ht4 Hp4. apply wp_ret.
  split_ands; [simpl; by rewrite Hc, Hc'|done|lia].
Qed.

(** The text of [t] parses as [t], at every level. *)
Lemma show_parses t : wf_cmd word t -> exec_ok t /\ pipe_ok t /\ back_ok t /\ line_ok t.
Proof using Hs.
  induction t as [argv|t IH file mode fd|l IHl r IHr|l IHl r IHr|t IH]; intros Hwf.
  - assert (H1 : exec_ok (EXEC argv)) by by apply exec_exec. assert (H2 : pipe_ok (EXEC argv)) by by apply exec_pipe.
    assert (H3 : back_ok (EXEC argv)) by by apply pipe_back. split_ands; [done..|by apply back_line].
  - destruct Hwf as (Hwf & Hf & Hr). destruct (IH Hwf) as (IHe & _).
    assert (H1 : exec_ok (REDIR t file mode fd)).
    { intros rs k n p Hrs Hk Ht Hn. apply (IHe ((file, mode, fd) :: rs)); [by constructor|done| |done].
      cbn [show] in Ht. unfold show_redirs. cbn [mbind list_bind fst snd]. by rewrite <- app_assoc in Ht |- *. }
    assert (H2 : pipe_ok (REDIR t file mode fd)) by by apply exec_pipe.
    assert (H3 : back_ok (REDIR t file mode fd)) by by apply pipe_back. split_ands; [done..|by apply back_line].
  - destruct Hwf as [Hl Hr]. destruct (IHl Hl) as (He & _). destruct (IHr Hr) as (_ & Hp & _).
    assert (H2 : pipe_ok (PIPE l r)) by by apply pipe_pipe.
    assert (H3 : back_ok (PIPE l r)) by by apply pipe_back. assert (H4 : line_ok (PIPE l r)) by by apply back_line.
    split_ands; [by apply line_exec|done..].
  - destruct Hwf as [Hl Hr]. destruct (IHl Hl) as (_ & _ & Hb & _). destruct (IHr Hr) as (_ & _ & _ & Hln).
    assert (H4 : line_ok (LIST l r)) by by apply list_line.
    assert (H1 : exec_ok (LIST l r)) by by apply line_exec. assert (H2 : pipe_ok (LIST l r)) by by apply exec_pipe.
    split_ands; [done|done|by apply pipe_back|done].
  - destruct (IH Hwf) as (_ & _ & Hb & _).
    assert (H3 : back_ok (BACK t)).
    { intros m k n p Hk Ht Hn. apply (Hb (S m) k n p Hk); [|done]. cbn [show paren] in Ht. by rewrite <- app_assoc in Ht. }
    assert (H4 : line_ok (BACK t)) by by apply back_line. assert (H1 : exec_ok (BACK t)) by by apply line_exec.
    split_ands; [done|by apply exec_pipe|done|done].
Qed.

End parsing.

(** ** Descriptors *)

Definition free_count (fds : fdtable) : nat := length (filter (fun f => f = None) fds).

Lemma free_fd_split fds :
  (0 < free_count fds)%nat ->
  exists l1 l2, fds = l1 ++ None :: l2 /\ free_fd fds = Some (length l1) /\ free_count fds = S (free_count l2) /\
    forall f l, free_fd (l1 ++ Some f :: l) = (fun n => (length l1 + S n)%nat) <$> free_fd l.
Proof.
  induction fds as [|[f|] fds IH]; intros H.
  - cbn in H. lia.
  - destruct IH as (l1 & l2 & -> & E1 & E2 & E3); [exact H|]. exists (Some f :: l1), l2. split_ands; [done| |exact E2|].
    + simpl. by rewrite E1.
    + intros g l. simpl. rewrite E3. by destruct (free_fd l).
  - exists [], fds. split_ands; [done|done|done|]. intros f l. simpl. by destruct (free_fd l).
Qed.

(** [pipe] takes two free descriptors, and closing them restores the table. *)
Lemma sh_pipe_free n i o fds :
  (2 <= free_count fds)%nat -> exists p0 p1,
    sh_pipe n (Some i :: Some o :: fds) =
      Some (S (S p0), S (S p1), Some i :: Some o :: <[p1 := Some (PipeWrite n)]> (<[p0 := Some (PipeRead n)]> fds)) /\
    p0 <> p1 /\ (p0 < length fds)%nat /\ (p1 < length fds)%nat /\
    <[p1 := None]> (<[p0 := None]> (<[p1 := Some (PipeWrite n)]> (<[p0 := Some (PipeRead n)]> fds))) = fds.
Proof.
  intros H. destruct (free_fd_split fds) as (l1 & l2 & -> & E1 & Ec & E2); [lia|].
  destruct (free_fd_split l2) as (l3 & l4 & -> & E3 & _ & _); [lia|]. exists (length l1), (length l1 + S (length l3))%nat.
  split_ands; [|lia|len|rewrite !length_app; simpl; rewrite length_app; simpl; lia|].
  - unfold sh_pipe, sh_install. cbn [free_fd]. rewrite E1. simpl. rewrite insert_app_r_alt, Nat.sub_diag by lia. simpl.
    rewrite E2, E3. done.
  - rewrite (list_insert_insert_ne _ (length l1)), list_insert_insert_eq by lia.
    rewrite list_insert_insert_eq, list_insert_insert_ne by lia. rewrite !list_insert_id; [done| |].
    + rewrite lookup_app_r by lia. replace (length l1 + S (length l3) - length l1)%nat with (S (length l3)) by lia. simpl. by rewrite lookup_app_r, Nat.sub_diag by lia.
    + by rewrite list_lookup_insert_ne, lookup_app_r, Nat.sub_diag by lia.
Qed.

(** The programs a command runs, each with its standard input and output, and the number
    of pipes after it. *)
Fixpoint plan (c : cmd (list Z)) (i o : fobj) (n : nat) : list (list (list Z) * fobj * fobj) * nat :=
  match c with
  | EXEC [] => ([], n)
  | EXEC argv => ([(argv, i, o)], n)
  | REDIR c file mode fd =>
      if fd =? 0 then plan c (Opened file mode) o n else plan c i (Opened file mode) n
  | PIPE l r =>
      let '(a, n1) := plan l i (PipeWrite n) (S n) in
      let '(b, n2) := plan r (PipeRead n) o n1 in (a ++ b, n2)
  | LIST l r =>
      let '(a, n1) := plan l i o n in
      let '(b, n2) := plan r i o n1 in (a ++ b, n2)
  | BACK c => plan c i o n
  end.

(** A program that starts has its input at descriptor 0, its output at 1 and the other
    descriptors of the shell; one that does not exist is reported. *)
Definition started (can_exec : list Z -> bool) (fds : fdtable) (r : list (list Z) * fobj * fobj) : event :=
  let fds := Some r.1.2 :: Some r.2 :: fds in
  match r.1.1 with
  | path :: _ => if can_exec path then Run r.1.1 fds else Message (chars "exec " ++ path ++ chars " failed" ++ [10]) fds
  | [] => Run [] fds
  end.

Lemma left_table i o p0 p1 n fds :
  p0 <> p1 -> (p0 < length fds)%nat -> (p1 < length fds)%nat ->
  <[p1 := None]> (<[p0 := None]> (<[p1 := Some (PipeWrite n)]> (<[p0 := Some (PipeRead n)]> fds))) = fds ->
  let t := Some i :: Some o :: <[p1 := Some (PipeWrite n)]> (<[p0 := Some (PipeRead n)]> fds) in
  sh_close (S (S p1)) (sh_close (S (S p0)) (sh_dup (S (S p1)) (sh_close 1 t))) = Some i :: Some (PipeWrite n) :: fds /\
  sh_close (S (S p1)) (sh_close (S (S p0)) (sh_dup (S (S p0)) (sh_close 0 t))) = Some (PipeRead n) :: Some o :: fds.
Proof.
  intros Hne H0 H1 E t. unfold sh_dup, sh_close, sh_install, t. simpl. rewrite list_lookup_insert_eq by len.
  rewrite list_lookup_insert_ne, list_lookup_insert_eq by done. simpl. by rewrite E.
Qed.

Lemma runcmd_plan can_open can_fork can_exec {fds} :
  (forall f m, can_open f m = true) -> (forall n, can_fork n = true) -> (2 <= free_count fds)%nat ->
  forall c, wf_cmd word c -> forall i o w,
    exists forks, runcmd can_open can_fork can_exec c (Some i :: Some o :: fds) w =
      (started can_exec fds <$> (plan c i o (w_pipes w)).1, World (plan c i o (w_pipes w)).2 forks).
Proof.
  intros Ho Hf Hfree c. induction c as [argv|c IH file mode fd|l IHl r IHr|l IHl r IHr|c IH]; intros Hwf i o w; cbn [runcmd plan].
  - exists (w_forks w). destruct w, argv as [|path argv]; [done|]. simpl. unfold started. simpl. by destruct (can_exec path).
  - destruct Hwf as (Hwf & _ & Hr). rewrite Ho. destruct Hr as [[_ ->]|[_ ->]]; simpl; by apply IH.
  - destruct Hwf as [Hl Hr]. destruct (sh_pipe_free (w_pipes w) i o fds Hfree) as (p0 & p1 & -> & Hne & H0 & H1 & E).
    cbv beta iota zeta. destruct (left_table i o p0 p1 _ fds Hne H0 H1 E) as [-> ->]. unfold fork1. rewrite !Hf. cbn [w_pipes w_forks].
    destruct (IHl Hl i (PipeWrite (w_pipes w)) (World (S (w_pipes w)) (S (w_forks w)))) as [f1 ->]. cbn [w_pipes w_forks].
    destruct (plan l i (PipeWrite (w_pipes w)) (S (w_pipes w))) as [a n1]. cbn [fst snd w_pipes w_forks]. rewrite Hf.
    destruct (IHr Hr (PipeRead (w_pipes w)) o (World n1 (S f1))) as [f2 ->]. cbn [w_pipes].
    destruct (plan r (PipeRead (w_pipes w)) o n1) as [b n2]. exists f2. simpl. by rewrite fmap_app.
  - destruct Hwf as [Hl Hr]. unfold fork1. rewrite Hf.
    destruct (IHl Hl i o (World (w_pipes w) (S (w_forks w)))) as [f1 ->]. cbn [w_pipes w_forks].
    destruct (plan l i o (w_pipes w)) as [a n1]. cbn [fst snd].
    destruct (IHr Hr i o (World n1 f1)) as [f2 ->]. cbn [w_pipes].
    destruct (plan r i o n1) as [b n2]. exists f2. simpl. by rewrite fmap_app.
  - unfold fork1. rewrite Hf. apply (IH Hwf i o (World (w_pipes w) (S (w_forks w)))).
Qed.

(** ** Sessions *)

Lemma trim_nil k : trim k = [] -> Forall (fun c => is_in whitespace c = true) k.
Proof. induction k as [|c k IH]; simpl; [constructor|]. destruct (is_in whitespace c) eqn:E; [|done]. intros H. constructor; auto. Qed.

Lemma whitespace_nonzero k : trim k = [] -> Forall (fun c => c <> 0) k.
Proof. intros H%trim_nil. eapply Forall_impl; [done|]. by intros c Hc ->. Qed.

Lemma trim_nil_stops toks k : trim k = [] -> stops toks k.
Proof.
  intros H. split; [|by left]. destruct k as [|c k]; [by left|]. right. exists c, k. split; [done|].
  apply trim_nil in H. by apply Forall_cons in H as [].
Qed.

(** The characters of the text of a command. *)
Definition plain (c : Z) : Prop := c <> 0 /\ c <> 10 /\ c <> 13.

Lemma word_plain w : word w -> Forall plain w.
Proof.
  intros [_ H]. eapply Forall_impl; [done|]. intros c [Hz Hw]. unfold plain. split_ands; [done|..]; by intros ->.
Qed.

Lemma chars_plain l : forallb (fun c => negb (c =? 0) && negb (c =? 10) && negb (c =? 13)) l = true -> Forall plain l.
Proof.
  intros H. apply Forall_forall. intros c Hc%list_elem_of_In. rewrite forallb_forall in H. specialize (H c Hc). unfold plain.
  bool_simpl. done.
Qed.

Lemma paren_plain b l : Forall plain l -> Forall plain (paren b l).
Proof. intros H. destruct b; [|done]. unfold paren. repeat (apply Forall_app; split); [by apply chars_plain|done|by apply chars_plain]. Qed.

Lemma show_plain t : wf_cmd word t -> forall lv, Forall plain (show lv t).
Proof.
  induction t as [argv|t IH file mode fd|l IHl r IHr|l IHl r IHr|t IH]; intros Hwf lv; cbn [show].
  - destruct Hwf as [Hw _]. induction Hw as [|w argv Hw Hws IH]; [constructor|]. cbn [mbind list_bind app].
    constructor; [done|]. apply Forall_app. split; [by apply word_plain|done].
  - destruct Hwf as (Hwf & Hf & _). apply Forall_app. split; [by apply IH|]. unfold show_redir. apply Forall_app.
    split; [by repeat case_match; apply chars_plain|]. constructor; [done|]. by apply word_plain.
  - destruct Hwf. apply paren_plain. repeat (apply Forall_app; split); [by apply IHl|by apply chars_plain|by apply IHr].
  - destruct Hwf. apply paren_plain. repeat (apply Forall_app; split); [by apply IHl|by apply chars_plain|by apply IHr].
  - apply paren_plain. apply Forall_app. split; [by apply IH|by apply chars_plain].
Qed.

Lemma show_head t : forall lv, show lv t = [] \/ exists l, show lv t = 32 :: l.
Proof.
  assert (Hp : forall b l, l = [] \/ (exists l', l = 32 :: l') -> paren b l = [] \/ exists l', paren b l = 32 :: l').
  { intros [] l Hl; [right; eexists; reflexivity|done]. }
  assert (Ha : forall l c l', l = [] \/ (exists l'', l = 32 :: l'') -> l ++ 32 :: c :: l' = [] \/ exists l'', l ++ 32 :: c :: l' = 32 :: l'').
  { intros l c l' [->|[l'' ->]]; right; eexists; reflexivity. }
  induction t as [argv|t IH file mode fd|l IHl r IHr|l IHl r IHr|t IH]; intros lv; cbn [show].
  - destruct argv; [by left|]. right. eexists. reflexivity.
  - unfold show_redir. repeat case_match; apply Ha, IH.
  - apply Hp, Ha, IHl.
  - apply Hp, Ha, IHl.
  - apply Hp, Ha, IH.
Qed.

(** A command and what follows it on its line. *)
Lemma parsecmd_text t k :
  wf_cmd word t -> trim k = [] ->
  exists c buf, parsecmd (show LLine t ++ k) = Ok c buf /\ cmd_map (fun w => cstring buf w.1) c = t.
Proof.
  intros Hwf Hk. set (s := show LLine t ++ k).
  assert (Hs : Forall (fun c => c <> 0) s).
  { apply Forall_app. split; [|by apply whitespace_nonzero]. eapply Forall_impl; [by apply show_plain|]. by intros c []. }
  destruct (show_parses s Hs t Hwf) as (_ & _ & _ & Hl).
  assert (Hlen : (length s = es s)%nat) by done. pose proof (rest_start s) as H0.
  pose proof (proj1 (parse_safe s Hs (parse_fuel s)) 0%nat s H0 ltac:(unfold parse_fuel; lia)) as Hsafe.
  assert (Ht : text s 0 (show LLine t ++ k)) by (exists s; done).
  destruct (wp_ok _ _ _ (Hl k (parse_fuel s) 0%nat (trim_nil_stops _ _ Hk) Ht ltac:(unfold parse_fuel; lia))) as (c & p & E & Hc & Htp & _).
  unfold safe in Hsafe. rewrite E in Hsafe. destruct Hsafe as [Hwc _].
  exists c, (nulterminate c (s ++ [0])). split; [|by rewrite nulterminate_strings by done].
  destruct Htp as (l0 & Hl0 & El0). destruct (peek_rest s Hs [] p l0 Hl0) as (p' & Ep & Hp'). rewrite El0, Hk in Hp'.
  apply rest_length in Hp'. simpl in Hp'. unfold parsecmd, M_bind. rewrite E, Ep. unfold Prelude.gets, id. by rewrite Hp', Nat.eqb_refl.
Qed.

Lemma gets_line n l r :
  Forall plain l -> (length l < n)%nat -> ugets_loop n (l ++ 10 :: r) = (l ++ [10], r).
Proof.
  intros Hl. revert n. induction Hl as [|c l [_ [H1 H2]] Hl IH]; intros [|n] Hn; simpl in *; try lia; [done|].
  rewrite (proj2 (Z.eqb_neq c 10)), (proj2 (Z.eqb_neq c 13)) by done. simpl. by rewrite IH by lia.
Qed.

Lemma plain_nonzero l : Forall plain l -> Forall (fun c => c <> 0) l.
Proof. intros H. eapply Forall_impl; [done|]. by intros c []. Qed.

(** A line of input: a change of directory or a command. *)
Inductive input_line : Type :=
| CdLine (dir : list Z)
| CmdLine (t : cmd (list Z)).

Definition line_text (l : input_line) : list Z :=
  match l with CdLine dir => chars "cd " ++ dir | CmdLine t => show LLine t end.

Definition line_wf (l : input_line) : Prop :=
  (length (line_text l) <= 98)%nat /\ match l with CdLine dir => Forall plain dir | CmdLine t => wf_cmd word t end.

(** The shell does what a line asks for. *)
Definition does (l : input_line) (a : action) : Prop :=
  match l with
  | CdLine dir => a = Chdir dir
  | CmdLine t => exists c buf, a = Command (Ok c buf) /\ cmd_map (fun w => cstring buf w.1) c = t
  end.

Lemma line_plain l : line_wf l -> Forall plain (line_text l).
Proof.
  intros [_ H]. destruct l as [dir|t]; simpl in *; [|by apply show_plain]. do 3 (constructor; [done|]). done.
Qed.

Lemma do_line_does l : line_wf l -> does l (do_line (line_text l ++ [10; 0])).
Proof.
  intros Hl. pose proof (plain_nonzero _ (line_plain l Hl)) as Hz. destruct Hl as [_ Hl]. unfold do_line.
  assert (Eu : until_nul (line_text l ++ [10; 0]) = line_text l ++ [10]).
  { change [10; 0] with ([10] ++ [0]). rewrite app_assoc. apply until_nul_app. apply Forall_app. split; [done|]. by repeat constructor. }
  rewrite Eu. destruct l as [dir|t]; cbn [line_text does] in *.
  - simpl. f_equal. unfold cstring. rewrite length_app, Nat.add_1_r. cbn. apply Forall_app in Hz as [_ Hz].
    rewrite (insert_app_r_alt dir), Nat.sub_diag by lia. by apply until_nul_app.
  - assert (Eh : (default 0 ((show LLine t ++ [10; 0]) !! 0%nat) =? 99) = false) by (destruct (show_head t LLine) as [->|[l' ->]]; done).
    rewrite Eh. cbn [andb]. destruct (parsecmd_text t [10] Hl eq_refl) as (c & buf & -> & E). eauto.
Qed.

Lemma getcmd_line l r : Forall plain l -> (length l <= 98)%nat -> getcmd (l ++ 10 :: r) = Some (l ++ [10; 0], r).
Proof.
  intros Hl Hlen. unfold getcmd, ugets. rewrite gets_line by (done || (simpl; lia)). cbn [fst snd]. rewrite <- app_assoc. cbn [app].
  destruct Hl as [|c l [Hc _]]; [done|]. cbn [app]. by rewrite (proj2 (Z.eqb_neq c 0)).
Qed.

Lemma sh_main_step n input b r : getcmd input = Some (b, r) -> sh_main (S n) input = cons (do_line b) <$> sh_main n r.
Proof. intros E. cbn [sh_main]. by rewrite E. Qed.

Lemma sh_main_does ls :
  Forall line_wf ls ->
  exists acts, sh_main (S (length ls)) (ls ≫= (fun l => line_text l ++ [10])) = Some acts /\ Forall2 does ls acts.
Proof.
  induction 1 as [|l ls Hl Hls (acts & E & IH)]; [by exists []|]. cbn [mbind list_bind length].
  exists (do_line (line_text l ++ [10; 0]) :: acts). split; [|constructor; [by apply do_line_does|done]].
  rewrite <- app_assoc. erewrite sh_main_step; [|apply getcmd_line; [by apply line_plain|apply Hl]]. by rewrite E.
Qed.

(** ** Properties *)

(** C37: The parser returns on every line: it gives a syntax error, or a command in which
    every word is a C string in the buffer, the word that is in the line, and every
    program has room for its arguments. *)
Theorem parsecmd_total s :
  Forall (fun c => c <> 0) s ->
  match parsecmd s with
  | Ok c buf =>
      let t := cmd_map (fun w => cstring buf w.1) c in
      t = cmd_map (fun w => slice w.1 (w.2 - w.1) s) c /\ wf_cmd word t
  | Panic _ => True
  | _ => False
  end.
Proof.
  intros Hs. pose proof (proj1 (parse_safe s Hs (parse_fuel s)) 0%nat s (rest_start s)) as H.
  specialize (H ltac:(unfold parse_fuel, es; lia)). unfold parsecmd, M_bind. unfold safe in H.
  destruct (parseline s (parse_fuel s) 0%nat) as [c p| | | |]; try done. destruct H as [Hc (l & Hl & _)].
  destruct (peek_rest s Hs [] p l Hl) as (p' & -> & _). unfold Prelude.gets, id. destruct (p' =? es s)%nat; [|done].
  cbn. rewrite nulterminate_strings by done. split; [done|]. eapply wf_cmd_map; [|exact Hc]. by intros w (_ & Hw & _).
Qed.

Lemma parsecmd_total_witness :
  exists c buf, parsecmd (chars "(a>f;b)|c d&") = Ok c buf /\ wf_cmd word (cmd_map (fun w => cstring buf w.1) c).
Proof.
  pose proof (parsecmd_total (chars "(a>f;b)|c d&") ltac:(by repeat constructor)) as H.
  destruct (parsecmd (chars "(a>f;b)|c d&")) as [c buf| | | |] eqn:E; [|vm_compute in E; discriminate E..].
  exists c, buf. split; [reflexivity|]. exact (proj2 H).
Defined.

(** C21: Parsing the text of a command gives the command back, for every command the shell
    can run. *)
Theorem parsecmd_show t k :
  wf_cmd word t -> trim k = [] ->
  exists c buf, parsecmd (show LLine t ++ k) = Ok c buf /\ cmd_map (fun w => cstring buf w.1) c = t.
Proof. apply parsecmd_text. Qed.

(** The command ls -l < f | (wc &). *)
Definition sample_cmd : cmd (list Z) :=
  PIPE (REDIR (EXEC [chars "ls"; chars "-l"]) (chars "f") RDONLY 0) (BACK (EXEC [chars "wc"])).

Lemma sample_cmd_wf : wf_cmd word sample_cmd.
Proof. repeat first [done | constructor | (left; done)]. Qed.

Lemma parsecmd_show_witness :
  exists c buf, parsecmd (chars " ls -l < f | ( wc & )" ++ [10]) = Ok c buf /\
    cmd_map (fun w => cstring buf w.1) c = sample_cmd.
Proof. apply (parsecmd_show sample_cmd [10] sample_cmd_wf eq_refl). Defined.


