(* ===== verification/Grep.v ===== *)
(** * The pattern matcher and line filter of user/grep.c

    A string is the list of its bytes before the terminating NUL.  The matcher recurses
    on the pattern, and in [matchstar] on the text, as the code does.  [grep] keeps the
    end of the input that is no complete line yet at the start of its buffer; the bytes
    and the number of bytes that each [read] gives are its input. *)

From S2P Require Import Prelude Printf Ulib.

(** ** Definitions: the matcher *)

Definition STAR : Z := 42.
Definition DOT : Z := 46.
Definition DOLLAR : Z := 36.
Definition CARET : Z := 94.
Definition NL : Z := 10.

(** [matchstar(c, re, text)], with [here] for [matchhere(re, _)]. *)
Fixpoint matchstar_with (here : list Z -> bool) (c : Z) (text : list Z) : bool :=
  here text ||
  match text with
  | t :: text => if (t =? c) || (c =? DOT) then matchstar_with here c text else false
  | [] => false
  end.

Fixpoint matchhere (re text : list Z) : bool :=
  match re with
  | [] => true
  | r :: re1 =>
      let plain :=
        if (r =? DOLLAR) && match re1 with [] => true | _ => false end then match text with [] => true | _ => false end else
        match text with
        | t :: text => if (r =? DOT) || (r =? t) then matchhere re1 text else false
        | [] => false
        end in
      match re1 with
      | s :: re2 => if s =? STAR then matchstar_with (matchhere re2) r text else plain
      | [] => plain
      end
  end.

Definition matchstar (c : Z) (re text : list Z) : bool := matchstar_with (matchhere re) c text.

(** The [do]-[while] loop of [match]. *)
Fixpoint match_loop (re text : list Z) : bool :=
  matchhere re text ||
  match text with
  | [] => false
  | _ :: text => match_loop re text
  end.

Definition match_ (re text : list Z) : bool :=
  match re with
  | r :: re' => if r =? CARET then matchhere re' text else match_loop re text
  | [] => match_loop re text
  end.

(** ** Definitions: the filter *)

Definition BUFSIZE : nat := 1024.

(** The inner loop over the lines of the buffer from [p] on: what is written, and what is
    left.  Each round takes at least the newline. *)
Fixpoint grep_lines (fuel : nat) (pattern p : list Z) : list Z * list Z :=
  match fuel with
  | O => ([], p)
  | S fuel =>
      match strchr p NL with
      | None => ([], p)
      | Some q =>
          let line := take q p in
          let r := grep_lines fuel pattern (drop (S q) p) in
          ((if match_ pattern line then take (S q) p else []) ++ r.1, r.2)
      end
  end.

(** The outer loop.  [buf] is the first [m] bytes of the buffer, [input] what is still to
    be read; the next [read] gives at most the first of [sizes] bytes, and the loop ends
    when it gives none. *)
Fixpoint grep_loop (sizes : list nat) (pattern buf input : list Z) : list Z :=
  match sizes with
  | [] => []
  | size :: sizes =>
      let n := Nat.min (Nat.min size (BUFSIZE - length buf - 1)) (length input) in
      if (n =? 0)%nat then [] else
      let p := buf ++ take n input in
      let r := grep_lines (length p) pattern p in
      r.1 ++ grep_loop sizes pattern r.2 (drop n input)
  end.

Definition grep (sizes : list nat) (pattern input : list Z) : list Z := grep_loop sizes pattern [] input.

(** The files in turn; [open] gives what the reads of a file give, or fails. *)
Fixpoint grep_files (open : list Z -> option (list nat * list Z)) (pattern : list Z) (argv : list (list Z)) : option (list Z) * Z :=
  match argv with
  | [] => (Some [], 0)
  | a :: argv =>
      match open a with
      | None => (vprintf (chars "grep: cannot open %s" ++ [NL]) false [AStr (Some a)], 1)
      | Some (sizes, input) =>
          let r := grep_files open pattern argv in (app (grep sizes pattern input) <$> r.1, r.2)
      end
  end.

(** [main]: what it writes to the standard output and the standard error, and its status.
    [argv] is without the name of the program. *)
Definition grep_main (stdin : list nat * list Z) (open : list Z -> option (list nat * list Z)) (argv : list (list Z)) :
    option (list Z) * list Z * Z :=
  match argv with
  | [] => (Some [], chars "usage: grep pattern [file ...]" ++ [NL], 1)
  | [pattern] => (Some (grep stdin.1 pattern stdin.2), [], 0)
  | pattern :: files => let r := grep_files open pattern files in (r.1, [], r.2)
  end.

(** ** Specification *)

(** A pattern is a sequence of characters to match, each of them starred or not, and
    perhaps anchored to the end of the text. *)
Definition accepts (c t : Z) : Prop := c = DOT \/ c = t.

Fixpoint parse (re : list Z) : list (Z * bool) * bool :=
  match re with
  | [] => ([], false)
  | r :: re1 =>
      let plain := if (r =? DOLLAR) && match re1 with [] => true | _ => false end then ([], true)
                   else let p := parse re1 in ((r, false) :: p.1, p.2) in
      match re1 with
      | s :: re2 => if s =? STAR then let p := parse re2 in ((r, true) :: p.1, p.2) else plain
      | [] => plain
      end
  end.

(** The texts a sequence stands for. *)
Inductive lang : list (Z * bool) -> list Z -> Prop :=
  | lang_nil : lang [] []
  | lang_one c l t w : accepts c t -> lang l w -> lang ((c, false) :: l) (t :: w)
  | lang_stop c l w : lang l w -> lang ((c, true) :: l) w
  | lang_more c l t w : accepts c t -> lang ((c, true) :: l) w -> lang ((c, true) :: l) (t :: w).

(** [re] matches at the start of [text]. *)
Definition matches_at (re text : list Z) : Prop :=
  exists w rest, text = w ++ rest /\ lang (parse re).1 w /\ ((parse re).2 = true -> rest = []).

(** The complete lines of the input, without their newlines, and what follows them. *)
Fixpoint split_lines (cur l : list Z) : list (list Z) * list Z :=
  match l with
  | [] => ([], cur)
  | c :: l => if c =? NL then let r := split_lines [] l in (cur :: r.1, r.2) else split_lines (cur ++ [c]) l
  end.

(** The lines that match, as they are written. *)
Definition matching (pattern : list Z) (lines : list (list Z)) : list Z :=
  concat ((fun l => l ++ [NL]) <$> filter (fun l => match_ pattern l = true) lines).

(** ** Lemmas: the matcher *)

Lemma accepts_true c t : (c =? DOT) || (c =? t) = true <-> accepts c t.
Proof. unfold accepts. rewrite orb_true_iff, !Z.eqb_eq. done. Qed.

Lemma accepts_true' c t : (t =? c) || (c =? DOT) = true <-> accepts c t.
Proof. unfold accepts. rewrite orb_true_iff, !Z.eqb_eq. split; intros [|]; auto. Qed.

(** The pattern matched by [here], from some point that only starred characters precede. *)
Lemma matchstar_spec here c text :
  matchstar_with here c text = true <-> exists u v, text = u ++ v /\ Forall (accepts c) u /\ here v = true.
Proof.
  induction text as [|t text IH]; cbn [matchstar_with]; rewrite orb_true_iff.
  - split; [intros [H|]; [by exists [], []|done]|]. intros (u & v & E & _ & H). symmetry in E.
    apply app_eq_nil in E as [-> ->]. by left.
  - split.
    + intros [H|H]; [by exists [], (t :: text)|]. destruct ((t =? c) || (c =? DOT)) eqn:Ea; [|done].
      apply IH in H as (u & v & -> & Hu & H). exists (t :: u), v. split_ands; [done| |done].
      constructor; [by apply accepts_true'|done].
    + intros ([|x u] & v & E & Hu & H); simplify_eq/=; [by left|]. right. inversion_clear Hu.
      rewrite (proj2 (accepts_true' _ _)) by done. apply IH. by exists u, v.
Qed.

Lemma lang_star c l w :
  lang ((c, true) :: l) w <-> exists u v, w = u ++ v /\ Forall (accepts c) u /\ lang l v.
Proof.
  split.
  - intros H. remember ((c, true) :: l) as l' eqn:E. induction H as [|? ? ? ? ? ? ?|c' l' w Hw _|c' l' t w Ha Hw IH]; simplify_eq.
    + by exists [], w.
    + destruct (IH eq_refl) as (u & v & -> & Hu & Hv). exists (t :: u), v. split_ands; [done|by constructor|done].
  - intros (u & v & -> & Hu & Hv). induction Hu; [by apply lang_stop|by apply lang_more].
Qed.

(** The two cases of an unstarred character. *)
Lemma matches_plain r re1 text :
  match re1 with s :: _ => s <> STAR | [] => True end ->
  matches_at (r :: re1) text <->
    (if (r =? DOLLAR) && match re1 with [] => true | _ => false end then text = []
     else exists t text', text = t :: text' /\ accepts r t /\ matches_at re1 text').
Proof.
  intros Hs. assert (Ep : parse (r :: re1) = if (r =? DOLLAR) && match re1 with [] => true | _ => false end then ([], true)
    else ((r, false) :: (parse re1).1, (parse re1).2)).
  { cbn [parse]. destruct re1 as [|s re2]; [done|]. by rewrite (proj2 (Z.eqb_neq _ _) Hs). }
  unfold matches_at at 1. rewrite Ep. destruct (_ && _); cbn [fst snd].
  - split.
    + intros (w & rest & -> & Hw & Hr). inversion_clear Hw. by rewrite (Hr eq_refl).
    + intros ->. exists [], []. split_ands; [done|constructor|done].
  - split.
    + intros (w & rest & -> & Hw & Hr). inversion_clear Hw as [|? ? t w' Ha Hw'| |]. exists t, (w' ++ rest). split_ands; [done|done|by exists w', rest].
    + intros (t & text' & -> & Ha & w & rest & -> & Hw & Hr). exists (t :: w), rest. split_ands; [done|by constructor|done].
Qed.

Lemma matches_star r re2 text :
  matches_at (r :: STAR :: re2) text <-> exists u v, text = u ++ v /\ Forall (accepts r) u /\ matches_at re2 v.
Proof.
  unfold matches_at at 1. cbn [parse]. rewrite Z.eqb_refl. cbn [fst snd]. split.
  - intros (w & rest & -> & Hw & Hr). apply lang_star in Hw as (u & v & -> & Hu & Hv).
    exists u, (v ++ rest). split_ands; [by rewrite app_assoc|done|by exists v, rest].
  - intros (u & v & -> & Hu & w & rest & -> & Hw & Hr). exists (u ++ w), rest. split_ands; [by rewrite app_assoc| |done].
    apply lang_star. by exists u, w.
Qed.

Lemma matchhere_spec n re text : (length re <= n)%nat -> matchhere re text = true <-> matches_at re text.
Proof.
  revert re text. induction n as [|n IH]; intros [|r re1] text Hn; simpl in Hn; try lia.
  1-2: by split; [intros _; exists [], text; split_ands; [done|constructor|done]|].
  assert ((exists re2, re1 = STAR :: re2) \/ match re1 with s :: _ => s <> STAR | [] => True end) as [[re2 ->]|Hs'].
  { destruct re1 as [|s re2]; [by right|]. destruct (decide (s = STAR)) as [->|]; [left; eauto|by right]. }
  - cbn [matchhere]. rewrite Z.eqb_refl, matchstar_spec, matches_star. simpl in Hn.
    split; intros (u & v & -> & Hu & Hv); exists u, v; split_ands; try done; apply IH; try done; lia.
  - rewrite matches_plain by done.
    assert (matchhere (r :: re1) text = if (r =? DOLLAR) && match re1 with [] => true | _ => false end then match text with [] => true | _ => false end
      else match text with t :: text => if (r =? DOT) || (r =? t) then matchhere re1 text else false | [] => false end) as ->.
    { cbn [matchhere]. destruct re1 as [|s re2]; [done|]. by rewrite (proj2 (Z.eqb_neq _ _) Hs'). }
    destruct ((r =? DOLLAR) && match re1 with [] => true | _ => false end); [by destruct text|]. destruct text as [|t text].
    + split; [done|]. by intros (t & text' & [=] & _).
    + destruct ((r =? DOT) || (r =? t)) eqn:Ea.
      * rewrite IH by lia. apply accepts_true in Ea. split; [by exists t, text|]. by intros (? & ? & [= <- <-] & _ & ?).
      * split; [done|]. intros (? & ? & [= <- <-] & Hacc & _). apply accepts_true in Hacc. congruence.
Qed.

(** ** Lemmas: the filter *)

Lemma split_lines_app cur a b :
  split_lines cur (a ++ b) =
  ((split_lines cur a).1 ++ (split_lines (split_lines cur a).2 b).1, (split_lines (split_lines cur a).2 b).2).
Proof.
  revert cur. induction a as [|c a IH]; intros cur; simpl; [by destruct (split_lines cur b)|].
  destruct (c =? NL); simpl; [|apply IH]. by rewrite IH.
Qed.

Lemma split_lines_cur cur a : NL ∉ a -> split_lines cur a = ([], cur ++ a).
Proof.
  revert cur. induction a as [|c a IH]; intros cur Ha; simpl; [by rewrite app_nil_r|].
  apply not_elem_of_cons in Ha as [Hc Ha]. rewrite (proj2 (Z.eqb_neq _ _)) by congruence. by rewrite IH, <- app_assoc.
Qed.

Lemma split_lines_rest cur a : NL ∉ cur -> NL ∉ (split_lines cur a).2.
Proof.
  revert cur. induction a as [|c a IH]; intros cur Hc; simpl; [done|]. destruct (Z.eqb_spec c NL) as [->|Hne]; simpl.
  - apply IH. apply not_elem_of_nil.
  - apply IH. rewrite elem_of_app, list_elem_of_singleton. intros [?|?]; [done|congruence].
Qed.

Lemma strchr_spec p :
  Forall (fun c => c <> 0) p ->
  match strchr p NL with
  | None => NL ∉ p
  | Some q => exists line rest, p = line ++ NL :: rest /\ NL ∉ line /\ q = length line
  end.
Proof.
  induction p as [|c p IH]; intros Hp; simpl; [apply not_elem_of_nil|]. inversion_clear Hp as [|? ? Hc Hp'].
  rewrite (proj2 (Z.eqb_neq _ _) Hc). destruct (Z.eqb_spec c NL) as [->|Hne].
  - exists [], p. split_ands; [done|apply not_elem_of_nil|done].
  - specialize (IH Hp'). destruct (strchr p NL) as [q|]; simpl.
    + destruct IH as (line & rest & -> & Hl & ->). exists (c :: line), rest. split_ands; [done| |done].
      apply not_elem_of_cons. split; [congruence|done].
    + apply not_elem_of_cons. split; [congruence|done].
Qed.

Lemma matching_app pattern a b : matching pattern (a ++ b) = matching pattern a ++ matching pattern b.
Proof. unfold matching. by rewrite filter_app, fmap_app, concat_app. Qed.

Lemma grep_lines_spec fuel pattern p :
  Forall (fun c => c <> 0) p -> (length p <= fuel)%nat ->
  grep_lines fuel pattern p = (matching pattern (split_lines [] p).1, (split_lines [] p).2).
Proof.
  revert p. induction fuel as [|fuel IH]; intros p Hp Hf; cbn [grep_lines].
  { destruct p; [done|simpl in Hf; lia]. }
  pose proof (strchr_spec p Hp) as H. destruct (strchr p NL) as [q|].
  - destruct H as (line & rest & -> & Hl & ->). rewrite length_app in Hf. simpl in Hf.
    apply Forall_app in Hp as [Hp1 Hp2]. inversion_clear Hp2.
    rewrite take_app_length. replace (S (length line)) with (length (line ++ [NL])) by (rewrite length_app; simpl; lia).
    change (line ++ NL :: rest) with (line ++ [NL] ++ rest). rewrite app_assoc, take_app_length, drop_app_length.
    rewrite IH by (done || lia). rewrite <- app_assoc, split_lines_app, (split_lines_cur [] line) by done. cbn [fst snd app].
    cbn [split_lines]. rewrite Z.eqb_refl. cbn [fst snd app]. f_equal. unfold matching at 2. rewrite filter_cons.
    destruct (decide (match_ pattern line = true)) as [->|Hm]; [done|]. by rewrite (not_true_is_false _ Hm).
  - by rewrite (split_lines_cur [] p) by done.
Qed.

Lemma Forall_rest (P : Z -> Prop) cur a : Forall P cur -> Forall P a -> Forall P (split_lines cur a).2.
Proof.
  revert cur. induction a as [|c a IH]; intros cur Hc Ha; simpl; [done|]. inversion_clear Ha.
  destruct (c =? NL); simpl; apply IH; try done. apply Forall_app. split; [done|by constructor].
Qed.

(** Lines that fit into the buffer. *)
Definition fits (l : list Z) : Prop := (length l < BUFSIZE - 1)%nat.

Lemma fits_prefix cur a b :
  Forall fits (split_lines cur (a ++ b)).1 -> fits (split_lines cur (a ++ b)).2 -> fits (split_lines cur a).2.
Proof.
  rewrite split_lines_app. cbn [fst snd]. intros H1 H2. apply Forall_app in H1 as [_ H1]. revert H1 H2.
  generalize (split_lines cur a).2. clear. intros r. revert r. induction b as [|c b IH]; intros r; simpl; [done|].
  destruct (c =? NL); simpl; [by intros [H _]%Forall_cons_1 _|]. intros H1 H2. specialize (IH _ H1 H2). unfold fits in *.
  rewrite length_app in IH. lia.
Qed.

Lemma grep_loop_spec sizes pattern buf input :
  Forall (fun c => c <> 0) buf -> Forall (fun c => c <> 0) input -> NL ∉ buf ->
  Forall (fun n => (0 < n)%nat) sizes -> (length input <= length sizes)%nat ->
  Forall fits (split_lines buf input).1 -> fits (split_lines buf input).2 ->
  grep_loop sizes pattern buf input = matching pattern (split_lines buf input).1.
Proof.
  revert buf input. induction sizes as [|size sizes IH]; intros buf input Hb Hi Hnl Hs Hl F1 F2; cbn [grep_loop].
  { destruct input; [done|simpl in Hl; lia]. }
  inversion_clear Hs as [|? ? Hsz Hs']. assert (Hroom : fits buf) by (apply (fits_prefix buf [] input); done).
  unfold fits, BUFSIZE in Hroom. set (n := Nat.min _ _).
  destruct (Nat.eqb_spec n 0) as [E|E].
  { destruct input as [|c input]; [done|]. unfold n, BUFSIZE in E. simpl in E. lia. }
  set (a := take n input) in *. set (d := drop n input) in *.
  assert (Esp : split_lines buf input = split_lines buf (a ++ d)) by (unfold a, d; by rewrite take_drop).
  rewrite Esp in F1, F2 |- *.
  assert (Ha : Forall (fun c => c <> 0) a) by (by apply Forall_take).
  assert (Hba : split_lines [] (buf ++ a) = split_lines buf a) 
    by (rewrite split_lines_app, (split_lines_cur [] buf) by done; simpl; by destruct (split_lines buf a)).
  rewrite grep_lines_spec by (done || by apply Forall_app). cbn [fst snd]. rewrite Hba.
  rewrite split_lines_app in F1, F2 |- *. cbn [fst snd] in *. rewrite matching_app. f_equal.
  apply Forall_app in F1 as [_ F1]. apply IH; try done.
  - by apply Forall_rest.
  - by apply Forall_drop.
  - by apply split_lines_rest.
  - unfold d. rewrite length_drop. simpl in Hl. unfold n in *. lia.
Qed.

(** What the reads of a file give: all of it, with no NUL and no line that is too long. *)
Definition readable (f : list nat * list Z) : Prop :=
  Forall (fun c => c <> 0) f.2 /\ Forall (fun n => (0 < n)%nat) f.1 /\ (length f.2 <= length f.1)%nat /\
  Forall fits (split_lines [] f.2).1 /\ fits (split_lines [] f.2).2.

(** Several files: the matching lines of all of them, file after file. *)
Lemma grep_main_files stdin open pattern argv files :
  argv <> [] -> Forall2 (fun a f => open a = Some f /\ readable f) argv files ->
  grep_main stdin open (pattern :: argv) =
    (Some (concat ((fun f => matching pattern (split_lines [] f.2).1) <$> files)), [], 0).
Proof.
  intros Hne Hf. assert (E : grep_files open pattern argv =
    (Some (concat ((fun f => matching pattern (split_lines [] f.2).1) <$> files)), 0)).
  { clear Hne. induction Hf as [|a [sizes input] argv files [Ho (H1 & H2 & H3 & H4 & H5)] _ IH]; [done|]. cbn [grep_files].
    rewrite Ho, IH. cbn [fst snd fmap list_fmap option_fmap option_map concat]. unfold grep.
    by rewrite (grep_loop_spec sizes pattern [] input) by (done || apply not_elem_of_nil). }
  destruct argv as [|a argv]; [done|]. unfold grep_main. by rewrite E.
Qed.

(** ** Properties *)

(** C40: [match] decides whether a text contains a match of a pattern.  A pattern is a
    sequence of characters, [.] for any, each followed by [*] or not, perhaps with [$] at
    its end; it matches the texts of its language, the whole rest of the text with [$],
    at the start of the text only after [^] and anywhere without it. *)
Theorem match_correct re text :
  match_ re text = true <->
  match re with
  | r :: re' => if decide (r = CARET) then matches_at re' text
                else exists u v, text = u ++ v /\ matches_at re v
  | [] => True
  end.
Proof.
  assert (Hloop : match_loop re text = true <-> exists u v, text = u ++ v /\ matches_at re v).
  { induction text as [|t text IH]; cbn [match_loop]; rewrite orb_true_iff, (matchhere_spec (length re)) by done.
    - split; [intros [H|]; [by exists [], []|done]|]. intros (u & v & E & H). symmetry in E. apply app_eq_nil in E as [-> ->]. by left.
    - rewrite IH. split.
      + intros [H|(u & v & -> & H)]; [by exists [], (t :: text)|by exists (t :: u), v].
      + intros ([|x u] & v & E & H); simplify_eq/=; [by left|]. right. eauto. }
  unfold match_. destruct re as [|r re'].
  - rewrite Hloop. split; [done|]. intros _. exists [], text. split; [done|]. exists [], text. split_ands; [done|constructor|done].
  - destruct (Z.eqb_spec r CARET) as [->|Hne].
    + rewrite decide_True by done. by apply (matchhere_spec (length re')).
    + by rewrite decide_False.
Qed.

(** [grep] writes exactly the complete lines that match, in order, however [read]
    cuts the input into pieces, as long as no line is longer than its buffer holds and
    the input has no NUL. *)
Theorem grep_correct sizes pattern input :
  Forall (fun c => c <> 0) input -> Forall (fun n => (0 < n)%nat) sizes -> (length input <= length sizes)%nat ->
  Forall fits (split_lines [] input).1 -> fits (split_lines [] input).2 ->
  grep sizes pattern input = matching pattern (split_lines [] input).1.
Proof. intros. apply grep_loop_spec; try done. apply not_elem_of_nil. Qed.

Lemma grep_correct_witness :
  grep [2; 1; 3; 5; 1; 1; 1; 1]%nat [94; 98] [97; 98; 10; 98; 99; 10; 98] = [98; 99; 10].
Proof.
  rewrite (grep_correct [2; 1; 3; 5; 1; 1; 1; 1]%nat [94; 98] [97; 98; 10; 98; 99; 10; 98]); [reflexivity|..].
  - repeat constructor; discriminate.
  - repeat constructor.
  - simpl. lia.
  - repeat constructor; unfold fits, BUFSIZE; simpl; lia.
  - unfold fits, BUFSIZE. simpl. lia.
Defined.
