(* ===== verification/Malloc.v ===== *)
(** * The user library's memory allocator (user/umalloc.c)

    The free blocks form a circular list through their headers, in the order of their
    addresses, that starts at the static header [base] of size 0.  A header is two words
    in the process's memory: the pointer at its address, the size in units of a header 8
    bytes further on. *)

From S2P Require Import Prelude State Strings Kalloc Vm.

(** ** Definitions *)

Definition HEADER : Z := 16.

(** The process's memory, [freep] and the end of the heap. *)
Record heap := mkHeap {
  hp_mem : mem;
  hp_freep : Z;
  hp_brk : Z
}.

Definition hptr (m : mem) (p : Z) : Z := word m p.

Definition hsize (m : mem) (p : Z) : Z := le_join (mread m (p + 8) 4).

Definition put_ptr (p v : Z) (m : mem) : mem := mwrite m p (le_split 8 v).

Definition put_size (p v : Z) (m : mem) : mem := mwrite m (p + 8) (le_split 4 v).

Section umalloc.

(** The address of [base]; whether the kernel lets the heap grow from an end by some
    bytes; and a bound on the steps of a search in the list. *)
Variable base : Z.
Variable grants : Z -> Z -> bool.
Variable steps : nat.

Definition sbrk (n : Z) (h : heap) : Z * heap :=
  if grants (hp_brk h) n then (hp_brk h, mkHeap (hp_mem h) (hp_freep h) (hp_brk h + n)) else (-1, h).

(** The loop of [free]: the block after which [bp] belongs. *)
Fixpoint free_find (fuel : nat) (m : mem) (p bp : Z) : option Z :=
  match fuel with
  | O => None
  | S fuel =>
      if (p <? bp) && (bp <? hptr m p) then Some p
      else if (hptr m p <=? p) && ((p <? bp) || (bp <? hptr m p)) then Some p
      else free_find fuel m (hptr m p) bp
  end.

Definition free (ap : Z) (h : heap) : option heap :=
  let bp := ap - HEADER in
  let m := hp_mem h in
  p ← free_find steps m (hp_freep h) bp;
  let m :=
    if bp + HEADER * hsize m bp =? hptr m p then
      let m := put_size bp (u32 (hsize m bp + hsize m (hptr m p))) m in
      put_ptr bp (hptr m (hptr m p)) m
    else put_ptr bp (hptr m p) m in
  let m :=
    if p + HEADER * hsize m p =? bp then
      let m := put_size p (u32 (hsize m p + hsize m bp)) m in
      put_ptr p (hptr m bp) m
    else put_ptr p bp m in
  Some (mkHeap m p (hp_brk h)).

Definition morecore (nu : Z) (h : heap) : option (Z * heap) :=
  let nu := if nu <? 4096 then 4096 else nu in
  let '(p, h) := sbrk (i32 (u64 (nu * HEADER))) h in
  if p =? -1 then Some (0, h) else
  let h := mkHeap (put_size p nu (hp_mem h)) (hp_freep h) (hp_brk h) in
  h ← free (p + HEADER) h;
  Some (hp_freep h, h).

(** What [malloc] does with a block [p] that is large enough. *)
Definition take_block (nunits prevp p : Z) (h : heap) : Z * heap :=
  let m := hp_mem h in
  if hsize m p =? nunits then
    (p + HEADER, mkHeap (put_ptr prevp (hptr m p) m) prevp (hp_brk h))
  else
    let m := put_size p (u32 (hsize m p - nunits)) m in
    let p := p + HEADER * hsize m p in
    let m := put_size p nunits m in
    (p + HEADER, mkHeap m prevp (hp_brk h)).

(** The loop of [malloc], from the block [p] and the one before it. *)
Fixpoint malloc_loop (fuel : nat) (nunits prevp p : Z) (h : heap) : option (Z * heap) :=
  match fuel with
  | O => None
  | S fuel =>
      let m := hp_mem h in
      if nunits <=? hsize m p then Some (take_block nunits prevp p h)
      else if p =? hp_freep h then
        '(r, h) ← morecore nunits h;
        if r =? 0 then Some (0, h) else malloc_loop fuel nunits r (hptr (hp_mem h) r) h
      else malloc_loop fuel nunits p (hptr m p) h
  end.

Definition malloc (nbytes : Z) (h : heap) : option (Z * heap) :=
  let nunits := u32 ((nbytes + HEADER - 1) / HEADER + 1) in
  let h :=
    if hp_freep h =? 0 then mkHeap (put_size base 0 (put_ptr base base (hp_mem h))) base (hp_brk h)
    else h in
  malloc_loop (2 * steps) nunits (hp_freep h) (hptr (hp_mem h) (hp_freep h)) h.

(** ** Specification

    A block is the address of its header and its size in units. *)

Abbreviation block := (Z * Z)%type.

Definition bend (b : block) : Z := b.1 + HEADER * b.2.

Definition apart (b c : block) : Prop := bend b <= c.1 \/ bend c <= b.1.

Definition in_block (b : block) (x : Z) : Prop := b.1 <= x < bend b.

(** The free blocks in order, with a gap before each: neighbours have been merged. *)
Fixpoint spaced (lo : Z) (F : list block) : Prop :=
  match F with
  | [] => True
  | b :: F => lo < b.1 /\ 0 < b.2 /\ spaced (bend b) F
  end.

Fixpoint pairwise_apart (L : list block) : Prop :=
  match L with
  | [] => True
  | b :: L => Forall (apart b) L /\ pairwise_apart L
  end.

(** The pointers of the headers [N] lead from each to the next, and from the last to [z]. *)
Fixpoint links (m : mem) (N : list Z) (z : Z) : Prop :=
  match N with
  | [] => True
  | a :: N => hptr m a = default z (head N) /\ links m N z
  end.

Definition sized (m : mem) (b : block) : Prop := hsize m b.1 = b.2.

(** The list of the free blocks [F] is as it should be, and the blocks [L] have been
    given out. *)
Record heap_ok (h : heap) (F L : list block) : Prop := mkHeapOk {
  ho_base : 0 < base /\ hsize (hp_mem h) base = 0;
  ho_links : links (hp_mem h) (base :: F.*1) base;
  ho_freep : hp_freep h ∈ base :: F.*1;
  ho_spaced : spaced (base + HEADER - 1) F;
  ho_sized : Forall (sized (hp_mem h)) (F ++ L);
  ho_top : base + HEADER <= hp_brk h /\ Forall (fun b => bend b <= hp_brk h) F /\ hp_brk h < 2 ^ 32;
  ho_live : Forall (fun b => base + HEADER <= b.1 /\ 0 < b.2 /\ bend b <= hp_brk h) L;
  ho_apart : forall b c, b ∈ F -> c ∈ L -> apart b c;
  ho_live_apart : pairwise_apart L
}.

Definition units (l : list block) : Z := foldr (fun b n => b.2 + n) 0 l.

(** Membership in lists put together from others. *)
Ltac inl :=
  solve [rewrite ?fmap_app, ?fmap_cons, ?elem_of_app, ?elem_of_cons, ?list_elem_of_singleton; auto 7 using list_elem_of_fmap_2
        | set_solver].

(** ** Lemmas: headers *)

Lemma hptr_put_ptr p v m : 0 <= v < 2 ^ 64 -> hptr (put_ptr p v m) p = v.
Proof. apply word_mwrite. Qed.

Lemma hsize_put_size p v m : 0 <= v < 2 ^ 32 -> hsize (put_size p v m) p = v.
Proof.
  intros Hv. unfold hsize, put_size. replace 4%nat with (length (le_split 4 v)) at 2 by apply length_le_split.
  rewrite mread_mwrite, le_join_split. by apply Z.mod_small.
Qed.

Lemma hsize_ext m m' p : (forall x, p + 8 <= x < p + 12 -> m' x = m x) -> hsize m' p = hsize m p.
Proof. intros H. unfold hsize. f_equal. apply mread_ext. intros x Hx. apply H. lia. Qed.

Lemma hsize_range m p : 0 <= hsize m p < 2 ^ 32.
Proof. unfold hsize. pose proof (le_join_bound (mread m (p + 8) 4)) as H. rewrite length_mread in H. done. Qed.

Lemma put_ptr_out p v m x : ~ p <= x < p + 8 -> put_ptr p v m x = m x.
Proof. intros. apply mwrite_out. len. Qed.

Lemma put_size_out p v m x : ~ p + 8 <= x < p + 12 -> put_size p v m x = m x.
Proof. intros. apply mwrite_out. len. Qed.

(** A store to one field leaves the other fields of this and of other headers. *)
Lemma hsize_put_ptr p v m q : p = q \/ p + HEADER <= q \/ q + HEADER <= p -> hsize (put_ptr p v m) q = hsize m q.
Proof. intros H. apply hsize_ext. intros x Hx. apply put_ptr_out. unfold HEADER in H. lia. Qed.

Lemma hptr_put_size p v m q : p = q \/ p + HEADER <= q \/ q + HEADER <= p -> hptr (put_size p v m) q = hptr m q.
Proof. intros H. apply word_same. intros x Hx. apply put_size_out. unfold HEADER in H. lia. Qed.

Lemma hptr_put_ptr_ne p v m q : p + HEADER <= q \/ q + HEADER <= p -> hptr (put_ptr p v m) q = hptr m q.
Proof. intros H. apply word_same. intros x Hx. apply put_ptr_out. unfold HEADER in H. lia. Qed.

Lemma hsize_put_size_ne p v m q : p + HEADER <= q \/ q + HEADER <= p -> hsize (put_size p v m) q = hsize m q.
Proof. intros H. apply hsize_ext. intros x Hx. apply put_size_out. unfold HEADER in H. lia. Qed.

(** ** Lemmas: the list *)

Lemma links_app m N1 N2 z : links m (N1 ++ N2) z <-> links m N1 (default z (head N2)) /\ links m N2 z.
Proof.
  induction N1 as [|a N1 IH]; simpl; [tauto|]. rewrite IH. destruct N1 as [|b N1]; simpl; tauto.
Qed.

Lemma links_ext m m' N z : (forall a, a ∈ N -> hptr m' a = hptr m a) -> links m N z -> links m' N z.
Proof.
  induction N as [|a N IH]; simpl; [done|]. intros H [H1 H2]. split; [rewrite H by inl; done|].
  apply IH; [|done]. intros b Hb. apply H. inl.
Qed.

Lemma spaced_app lo F1 F2 :
  spaced lo (F1 ++ F2) <-> spaced lo F1 /\ spaced (default lo (bend <$> last F1)) F2.
Proof.
  revert lo. induction F1 as [|b F1 IH]; intros lo; simpl; [tauto|]. rewrite IH.
  destruct F1 as [|c F1]; simpl; [tauto|]. destruct (last (c :: F1)) eqn:E; [simpl; tauto|].
  by apply last_None in E.
Qed.

Lemma spaced_mono lo lo' F : lo' <= lo -> spaced lo F -> spaced lo' F.
Proof. destruct F as [|b F]; simpl; [done|]. intros ? (? & ? & ?). split_ands; [lia|done|done]. Qed.

Lemma spaced_after lo F b : spaced lo F -> b ∈ F -> lo < b.1 /\ 0 < b.2.
Proof.
  revert lo. induction F as [|c F IH]; intros lo; simpl; [inl|]. intros (H1 & H2 & H3) [->|Hb]%elem_of_cons; [done|].
  destruct (IH _ H3 Hb). unfold bend, HEADER in *. lia.
Qed.

Lemma spaced_sorted lo F : spaced lo F -> StronglySorted Z.lt F.*1.
Proof.
  revert lo. induction F as [|b F IH]; intros lo; simpl; [constructor|]. intros (H1 & H2 & H3). constructor; [by eapply IH|].
  apply Forall_fmap, Forall_forall. intros c Hc. destruct (spaced_after _ _ _ H3 Hc). simpl. unfold bend, HEADER in *. lia.
Qed.

Lemma nodes_sorted lo F : spaced lo F -> base <= lo -> StronglySorted Z.lt (base :: F.*1).
Proof.
  intros H Hlo. constructor; [by eapply spaced_sorted|]. apply Forall_fmap, Forall_forall. intros c Hc.
  destruct (spaced_after _ _ _ H Hc). simpl. lia.
Qed.

(** The search of [free] ends at the last header below [bp], wherever it starts. *)
Section find.
Context (m : mem) (bp p : Z) (N2 : list Z).
Hypothesis Hp : p < bp.
Hypothesis H2 : Forall (fun a => bp < a) N2.

Lemma find_at b0 fuel : links m (p :: N2) b0 -> b0 <= p -> (0 < fuel)%nat -> free_find fuel m p bp = Some p.
Proof.
  intros [Hq _] Hb Hf. destruct fuel as [|fuel]; [lia|]. simpl. rewrite Hq. destruct N2 as [|q N]; simpl.
  - destruct ((p <? bp) && (bp <? b0)); [done|]. rewrite (proj2 (Z.leb_le _ _)), (proj2 (Z.ltb_lt _ _)) by lia. done.
  - apply Forall_cons in H2 as [Hq2 _]. rewrite !(proj2 (Z.ltb_lt _ _)) by lia. done.
Qed.

Lemma find_low B s b0 fuel :
  links m (s :: B ++ p :: N2) b0 -> StronglySorted Z.lt (s :: B ++ [p]) -> b0 <= p -> (length B + 1 < fuel)%nat ->
  free_find fuel m s bp = Some p.
Proof.
  revert s fuel. induction B as [|c B IH]; intros s fuel [Hq Hl] Hs Hb Hf; (destruct fuel as [|fuel]; [simpl in Hf; lia|]); simpl in *; rewrite Hq.
  - apply StronglySorted_inv in Hs as [_ Hs]. apply Forall_cons in Hs as [Hs _].
    rewrite (proj2 (Z.ltb_ge bp p)), andb_false_r, (proj2 (Z.leb_gt p s)) by lia. apply (find_at b0); [done|done|lia].
  - apply StronglySorted_inv in Hs as [Hs1 Hs]. apply Forall_cons in Hs as [Hs _].
    assert (c < p). { apply StronglySorted_inv in Hs1 as [_ Hc]. rewrite Forall_app, Forall_singleton in Hc. by destruct Hc. }
    rewrite (proj2 (Z.ltb_ge bp c)), andb_false_r, (proj2 (Z.leb_gt c s)) by lia. apply IH; [done..|lia].
Qed.

Lemma find_high B s b0 fuel :
  links m (s :: B) b0 -> StronglySorted Z.lt (s :: B) -> Forall (fun a => bp < a) (s :: B) -> b0 < bp -> (length B < fuel)%nat ->
  free_find fuel m s bp = free_find (fuel - S (length B)) m b0 bp.
Proof.
  revert s fuel. induction B as [|c B IH]; intros s fuel [Hq Hl] Hs Ha Hb Hf; (destruct fuel as [|fuel]; [simpl in Hf; lia|]); simpl in *; rewrite Hq;
    apply Forall_cons in Ha as [Ha1 Ha].
  - rewrite (proj2 (Z.ltb_ge s bp)), (proj2 (Z.ltb_ge bp b0)) by lia. simpl. rewrite andb_false_r. by rewrite Nat.sub_0_r.
  - apply StronglySorted_inv in Hs as [Hs1 Hs]. apply Forall_cons in Hs as [Hs _].
    rewrite (proj2 (Z.ltb_ge s bp)), (proj2 (Z.leb_gt c s)) by lia. simpl. apply IH; [done..|lia].
Qed.
End find.

Lemma sorted_app_inv (l1 l2 : list Z) :
  StronglySorted Z.lt (l1 ++ l2) -> StronglySorted Z.lt l1 /\ StronglySorted Z.lt l2 /\ forall a b, a ∈ l1 -> b ∈ l2 -> a < b.
Proof.
  induction l1 as [|x l1 IH]; simpl; intros H; [split_ands; [constructor|done|inl]|].
  apply StronglySorted_inv in H as [H1 H2]. destruct (IH H1) as (I1 & I2 & I3). rewrite Forall_app, !Forall_forall in H2. destruct H2 as [J1 J2].
  split_ands; [constructor; [done|by apply Forall_forall]|done|]. intros a b [->|Ha]%elem_of_cons Hb; [by apply J2|by apply I3].
Qed.

Lemma free_find_low m N1 p N2 bp s b0 fuel :
  links m (N1 ++ p :: N2) b0 -> StronglySorted Z.lt (N1 ++ p :: N2) -> p < bp -> Forall (fun a => bp < a) N2 -> b0 <= p ->
  s ∈ N1 ++ [p] -> (length N1 + 1 < fuel)%nat -> free_find fuel m s bp = Some p.
Proof.
  intros Hl Hs Hp H2 Hb Hin Hf. apply elem_of_app in Hin as [Hin|Hin].
  - apply list_elem_of_split in Hin as (A & B & ->). rewrite <- app_assoc in Hl, Hs. rewrite length_app in Hf. simpl in *.
    apply links_app in Hl as [_ Hl]. apply sorted_app_inv in Hs as (_ & Hs & _).
    apply (find_low m bp p N2 Hp H2 B s b0); [done| |done|lia].
    replace (s :: B ++ p :: N2) with ((s :: B ++ [p]) ++ N2) in Hs by (simpl; by rewrite <- app_assoc). by apply sorted_app_inv in Hs as (Hs & _ & _).
  - apply list_elem_of_singleton in Hin as ->. apply links_app in Hl as [_ Hl]. apply (find_at m bp p N2 Hp H2 b0); [done|done|lia].
Qed.

Lemma free_find_spec m N1 p N2 bp s fuel :
  let N := N1 ++ p :: N2 in
  links m N (default p (head N1)) -> StronglySorted Z.lt N -> p < bp -> Forall (fun a => bp < a) N2 -> s ∈ N ->
  (length N < fuel)%nat -> free_find fuel m s bp = Some p.
Proof.
  intros N Hl Hs Hp H2 Hin Hf. unfold N in *. clear N. set (b0 := default p (head N1)) in *. rewrite length_app in Hf. simpl in Hf.
  assert (Hb0 : b0 ∈ N1 ++ [p]) by (unfold b0; destruct N1; inl).
  assert (Hb : b0 <= p).
  { apply elem_of_app in Hb0 as [Hb0|Hb0]; [|apply list_elem_of_singleton in Hb0; lia].
    apply sorted_app_inv in Hs as (_ & _ & Hs). specialize (Hs b0 p Hb0). apply Z.lt_le_incl, Hs. inl. }
  replace (N1 ++ p :: N2) with ((N1 ++ [p]) ++ N2) in Hin by (by rewrite <- app_assoc).
  apply elem_of_app in Hin as [Hin|Hin]; [by eapply free_find_low; eauto; lia|].
  apply list_elem_of_split in Hin as (A & B & E). rewrite E, length_app in Hf. simpl in Hf.
  assert (Hl2 : links m (s :: B) b0).
  { rewrite E in Hl. replace (N1 ++ p :: A ++ s :: B) with ((N1 ++ p :: A) ++ s :: B) in Hl by (by rewrite <- app_assoc).
    by apply links_app in Hl as [_ Hl]. }
  assert (Hs2 : StronglySorted Z.lt (s :: B)).
  { rewrite E in Hs. replace (N1 ++ p :: A ++ s :: B) with ((N1 ++ p :: A) ++ s :: B) in Hs by (by rewrite <- app_assoc).
    by apply sorted_app_inv in Hs as (_ & Hs & _). }
  rewrite (find_high m bp B s b0); [|done|done|rewrite E, Forall_app in H2; by destruct H2|lia|lia].
  eapply free_find_low; eauto. lia.
Qed.

(** ** Lemmas: [free] *)

Definition hsep (a c : Z) : Prop := a + HEADER <= c \/ c + HEADER <= a.

Lemma spaced_split lo F b :
  spaced lo F -> 0 < b.2 -> (forall c, c ∈ F -> apart c b) ->
  exists F1 F2, F = F1 ++ F2 /\ Forall (fun c => bend c <= b.1) F1 /\ Forall (fun c => bend b <= c.1) F2.
Proof.
  intros Hs Hb. revert lo Hs. induction F as [|c F IH]; intros lo Hs Ha; [by exists [], []|].
  destruct Hs as (H1 & H2 & H3). destruct (Ha c) as [Hc|Hc]; [inl|..].
  - destruct (IH _ H3) as (F1 & F2 & -> & HF1 & HF2); [intros d Hd; apply Ha; inl|].
    exists (c :: F1), F2. split_ands; [done|by constructor|done].
  - exists [], (c :: F). split_ands; [done|constructor|]. constructor; [done|]. apply Forall_forall. intros d Hd.
    destruct (spaced_after _ _ _ H3 Hd). unfold bend, HEADER in *. lia.
Qed.

(** The block before [F2] in the list: the last of [F1], or [base]. *)
Definition before (F1 : list block) : block := default (base, 0) (last F1).

Lemma before_nodes F1 : exists N1, base :: F1.*1 = N1 ++ [(before F1).1] /\ (N1 = [] -> F1 = []).
Proof.
  unfold before. destruct F1 as [|c F1] using rev_ind; [by exists []|]. rewrite last_snoc. exists (base :: F1.*1). simpl.
  rewrite fmap_app. done.
Qed.

(** Merging [bp] with the block after it. *)
Lemma merge_up m b F2 top :
  sized m b -> spaced (bend b - 1) F2 -> Forall (sized m) F2 -> links m F2.*1 base ->
  0 <= base < 2 ^ 32 -> bend b <= top -> base + HEADER <= b.1 -> 0 < b.2 -> Forall (fun c => bend c <= top) F2 -> top < 2 ^ 32 ->
  let q := default base (head F2.*1) in
  let m1 := if bend b =? q then
              let m := put_size b.1 (u32 (hsize m b.1 + hsize m q)) m in
              put_ptr b.1 (hptr m q) m
            else put_ptr b.1 q m in
  exists b' R, b'.1 = b.1 /\ b.2 <= b'.2 /\ bend b' <= top /\ sized m1 b' /\ hptr m1 b.1 = default base (head R.*1) /\
    (forall x, ~ b.1 <= x < b.1 + HEADER -> m1 x = m x) /\ spaced (bend b') R /\ R `suffix_of` F2 /\
    units (b' :: R) = units (b :: F2) /\ (length R <= length F2)%nat /\
    (forall c, 0 < c.2 -> apart b c -> (forall d, d ∈ F2 -> apart d c) -> apart b' c).
Proof.
  intros Hsz Hsp Hsz2 Hl Hbase Hb Hlow Hpos Htop Htop32 q m1.
  assert (Hno : bend b <> q -> exists b' R, b'.1 = b.1 /\ b.2 <= b'.2 /\ bend b' <= top /\ sized m1 b' /\
    hptr m1 b.1 = default base (head R.*1) /\
    (forall x, ~ b.1 <= x < b.1 + HEADER -> m1 x = m x) /\ spaced (bend b') R /\ R `suffix_of` F2 /\
    units (b' :: R) = units (b :: F2) /\ (length R <= length F2)%nat /\
    (forall c, 0 < c.2 -> apart b c -> (forall d, d ∈ F2 -> apart d c) -> apart b' c)).
  { intros Hne. unfold m1. rewrite (proj2 (Z.eqb_neq _ _)) by done. exists b, F2. split_ands; try done.
    - unfold sized. rewrite hsize_put_ptr by auto. exact Hsz.
    - apply hptr_put_ptr. unfold q. destruct F2 as [|c F2]; simpl; [lia|]. apply Forall_cons in Htop as [Ht _].
      destruct Hsp as (? & ? & _). unfold bend, HEADER in *. lia.
    - intros x Hx. apply put_ptr_out. unfold HEADER in Hx. lia.
    - destruct F2 as [|c F2]; [done|]. destruct Hsp as (? & ? & ?). simpl in q. simpl. split_ands; [|done|done]. unfold q in Hne. simpl in Hne. lia. }
  destruct (decide (bend b = q)) as [Eq|Hne]; [|by apply Hno]. clear Hno.
  destruct F2 as [|c R]; [simpl in q; unfold q, bend, HEADER in *; lia|]. simpl in q. unfold m1. rewrite (proj2 (Z.eqb_eq _ _) Eq).
  apply Forall_cons in Hsz2 as [Hc Hsz2]. apply Forall_cons in Htop as [Ht Htop]. destruct Hsp as (Hc1 & Hc2 & Hsp). destruct Hl as [Hlc Hl].
  unfold sized in Hsz, Hc. fold q in Hc. rewrite Hsz, Hc. rewrite hptr_put_size by (unfold bend, HEADER in *; lia). fold q in Hlc. rewrite Hlc.
  assert (Hbc : bend (b.1, b.2 + c.2) = bend c) by (unfold bend, HEADER in *; simpl; unfold q in *; lia).
  assert (Hu : u32 (b.2 + c.2) = b.2 + c.2) by (apply u32_small; unfold bend, HEADER in *; lia).
  exists (b.1, b.2 + c.2), R. rewrite Hbc, Hu. split_ands; simpl; try done; try lia.
  - unfold sized. simpl. rewrite hsize_put_ptr by auto. apply hsize_put_size. unfold bend, HEADER in *. lia.
  - apply hptr_put_ptr. destruct R as [|d R]; simpl; [lia|]. apply Forall_cons in Htop as [? _].
    destruct Hsp as (? & ? & _). unfold bend, HEADER in *. lia.
  - intros x Hx. rewrite put_ptr_out, put_size_out by (unfold HEADER in Hx; lia). done.
  - by exists [c].
  - intros d Hd H1 H2. specialize (H2 c ltac:(inl)). unfold apart in *. rewrite Hbc. simpl. unfold bend, HEADER in *. unfold q in Eq. lia.
Qed.

Lemma spaced_snoc lo F b : spaced lo (F ++ [b]) <-> spaced lo F /\ default lo (bend <$> last F) < b.1 /\ 0 < b.2.
Proof. rewrite spaced_app. simpl. tauto. Qed.

Lemma units_app F1 F2 : units (F1 ++ F2) = units F1 + units F2.
Proof. induction F1 as [|b F1 IH]; simpl; [done|]. unfold units in *. simpl. lia. Qed.

Lemma hsep_before F1 b c :
  spaced (base + HEADER - 1) (F1 ++ [b]) -> c ∈ F1 -> hsep c.1 b.1.
Proof.
  intros Hs Hc. apply list_elem_of_split in Hc as (A & B & ->). rewrite <- app_assoc in Hs. simpl in Hs.
  apply spaced_app in Hs as [_ (_ & H2 & Hs)]. destruct (spaced_after _ _ b Hs); [inl|]. left. unfold bend, HEADER in *. lia.
Qed.

(** Merging the block before with [b]. *)
Lemma merge_down m F1 b R z :
  let pb := before F1 in
  let p := pb.1 in
  0 < base -> hsize m base = 0 -> Forall (sized m) F1 -> sized m b -> hptr m b.1 = default base (head R.*1) ->
  0 <= default base (head R.*1) < 2 ^ 64 ->
  links m (base :: F1.*1) z -> spaced (base + HEADER - 1) F1 -> Forall (fun c => bend c <= b.1) F1 -> base + HEADER <= b.1 -> 0 < b.2 ->
  spaced (bend b) R -> bend b < 2 ^ 32 ->
  let m2 := if p + HEADER * hsize m p =? b.1 then
              let m := put_size p (u32 (hsize m p + hsize m b.1)) m in
              put_ptr p (hptr m b.1) m
            else put_ptr p b.1 m in
  exists F1', links m2 (base :: F1'.*1) (default base (head R.*1)) /\ Forall (sized m2) F1' /\ hsize m2 base = 0 /\
    (forall x, ~ p <= x < p + HEADER -> m2 x = m x) /\ spaced (base + HEADER - 1) (F1' ++ R) /\
    units (F1' ++ R) = units (F1 ++ b :: R) /\ p ∈ base :: F1'.*1 /\ (length F1' <= S (length F1))%nat /\
    (exists c, c ∈ F1' /\ b.2 <= c.2) /\ Forall (fun c => bend c <= bend b) F1' /\
    (forall c, 0 < c.2 -> apart b c -> (forall d, d ∈ F1 -> apart d c) -> forall d, d ∈ F1' -> apart d c).
Proof.
  intros pb p Hbase Hsb Hsz1 Hszb Hptr Hrng Hl Hsp Hle Hlow Hpos HspR Htop m2.
  destruct F1 as [|pb' G _] using rev_ind.
  - (* after [base] *)
    assert (Ep : p = base) by done. clearbody p. subst p. unfold m2. rewrite Hsb, (proj2 (Z.eqb_neq _ _)) by (unfold HEADER in *; lia).
    exists [b]. simpl. split_ands; try done.
    + apply hptr_put_ptr. unfold bend, HEADER in *. lia.
    + rewrite hptr_put_ptr_ne by (unfold HEADER in *; lia). done.
    + repeat constructor. unfold sized. rewrite hsize_put_ptr by (unfold HEADER in *; lia). done.
    + by rewrite hsize_put_ptr by auto.
    + intros x Hx. apply put_ptr_out. unfold HEADER in *. lia.
    + unfold HEADER in *. lia.
    + inl.
    + exists b. inl.
    + by repeat constructor.
    + inl.
  - assert (Ep : before (G ++ [pb']) = pb') by (unfold before; by rewrite last_snoc). subst m2 p pb. cbv zeta. rewrite Ep. clear Ep.
    apply Forall_app in Hsz1 as [HszG Hszp]. rewrite Forall_singleton in Hszp. apply Forall_app in Hle as [HleG Hlep]. rewrite Forall_singleton in Hlep.
    pose proof (proj1 (spaced_snoc _ _ _) Hsp) as (HspG & Hgap & Hnp).
    rewrite fmap_app in Hl. change (base :: G.*1 ++ [pb'].*1) with ((base :: G.*1) ++ [pb'.1]) in Hl. apply links_app in Hl as [HlG [_ _]]. simpl in HlG.
    assert (Hbp : base + HEADER <= pb'.1).
    { destruct (spaced_after _ _ pb' Hsp); [inl|]. lia. }
    assert (Hsep : forall a, a ∈ base :: G.*1 -> hsep a pb'.1).
    { intros a [->|Ha]%elem_of_cons; [by left|]. apply list_elem_of_fmap in Ha as (c & -> & Hc). by apply (hsep_before G). }
    unfold sized in Hszp, Hszb. rewrite Hszp. change (pb'.1 + HEADER * pb'.2) with (bend pb').
    assert (HFle : Forall (fun c => bend c <= bend b) G).
    { eapply Forall_impl; [exact HleG|]. intros c Hc. unfold bend, HEADER in *. lia. }
    destruct (Z.eqb_spec (bend pb') b.1) as [Em|Hne].
    + (* merged *)
      rewrite Hszb, hptr_put_size, Hptr by (unfold bend, HEADER in *; lia).
      assert (Hu : u32 (pb'.2 + b.2) = pb'.2 + b.2) by (apply u32_small; unfold bend, HEADER in *; lia). rewrite Hu.
      assert (Hbd : bend (pb'.1, pb'.2 + b.2) = bend b) by (unfold bend, HEADER in *; simpl; lia).
      exists (G ++ [(pb'.1, pb'.2 + b.2)]). rewrite !fmap_app, <- !app_assoc. split_ands.
      * change (base :: G.*1 ++ [(pb'.1, pb'.2 + b.2)].*1) with ((base :: G.*1) ++ [pb'.1]). apply links_app. split; [|split; [|done]].
        -- eapply links_ext; [|exact HlG]. intros a Ha. specialize (Hsep a Ha). unfold hsep in Hsep.
           rewrite hptr_put_ptr_ne, hptr_put_size by lia. done.
        -- by apply hptr_put_ptr.
      * apply Forall_app. split; [|apply Forall_singleton; unfold sized; simpl; rewrite hsize_put_ptr by auto; apply hsize_put_size; unfold bend, HEADER in *; lia].
        apply Forall_forall. intros c Hc. rewrite Forall_forall in HszG. specialize (HszG c Hc). unfold sized in *.
        specialize (Hsep c.1 ltac:(inl)). unfold hsep in Hsep. rewrite hsize_put_ptr, hsize_put_size_ne by lia. done.
      * rewrite hsize_put_ptr, hsize_put_size_ne by lia. done.
      * intros x Hx. rewrite put_ptr_out, put_size_out by (unfold HEADER in Hx; lia). done.
      * apply spaced_app. split; [done|]. simpl. rewrite Hbd. split_ands; [done|lia|done].
      * rewrite !units_app. simpl. unfold units. simpl. lia.
      * inl.
      * rewrite !length_app. simpl. lia.
      * exists (pb'.1, pb'.2 + b.2). split; [inl|simpl; lia].
      * apply Forall_app. split; [done|]. apply Forall_singleton. lia.
      * intros c Hc H1 H2 d [Hd|Hd]%elem_of_app; [apply H2; inl|]. apply list_elem_of_singleton in Hd as ->.
        specialize (H2 pb' ltac:(inl)). unfold apart in *. rewrite Hbd. simpl. unfold bend, HEADER in *. lia.
    + exists (G ++ [pb'; b]). rewrite !fmap_app, <- !app_assoc.
      assert (Hbsep : hsep pb'.1 b.1) by (left; unfold bend, HEADER in *; lia).
      split_ands.
      * change (base :: G.*1 ++ [pb'; b].*1) with ((base :: G.*1) ++ [pb'.1; b.1]). apply links_app. split; [|split; [|split; [|done]]].
        -- eapply links_ext; [|exact HlG]. intros a Ha. specialize (Hsep a Ha). unfold hsep in Hsep. rewrite hptr_put_ptr_ne by lia. done.
        -- apply hptr_put_ptr. simpl. unfold bend, HEADER in *. lia.
        -- rewrite hptr_put_ptr_ne by done. done.
      * apply Forall_app. split; [|repeat constructor; unfold sized; [rewrite hsize_put_ptr by auto|rewrite hsize_put_ptr by (unfold hsep in Hbsep; auto)]; done].
        apply Forall_forall. intros c Hc. rewrite Forall_forall in HszG. specialize (HszG c Hc). unfold sized in *.
        specialize (Hsep c.1 ltac:(inl)). unfold hsep in Hsep. rewrite hsize_put_ptr by lia. done.
      * rewrite hsize_put_ptr by lia. done.
      * intros x Hx. rewrite put_ptr_out by (unfold HEADER in Hx; lia). done.
      * apply spaced_app. split; [done|]. simpl. split_ands; [done|done|lia|done|done].
      * rewrite !units_app. unfold units. simpl. lia.
      * inl.
      * rewrite !length_app. simpl. lia.
      * exists b. split; [inl|lia].
      * apply Forall_app. split; [done|]. repeat constructor; unfold bend, HEADER in *; lia.
      * intros c Hc H1 H2 d [Hd|Hd]%elem_of_app; [apply H2; inl|].
        apply elem_of_cons in Hd as [->|Hd]; [apply H2; inl|]. by apply list_elem_of_singleton in Hd as ->.
Qed.

(** [free] puts the block on the list and merges it with its neighbours. *)
Lemma free_ok h F L b :
  heap_ok h F (b :: L) -> (S (length F) < steps)%nat ->
  exists h' F', free (b.1 + HEADER) h = Some h' /\ heap_ok h' F' L /\ hp_brk h' = hp_brk h /\
    units F' = units F + b.2 /\ (length F' <= S (length F))%nat /\ (exists c, c ∈ F' /\ b.2 <= c.2) /\
    (forall c x, c ∈ L -> in_block c x -> hp_mem h' x = hp_mem h x).
Proof.
  intros [Hbase Hlk Hfp Hsp Hsz (Htop1 & Htop2 & Htop3) Hlive Hap Hlap] Hst. destruct Hbase as [Hb0 Hb1].
  apply Forall_cons in Hlive as [(Hlow & Hpos & Hbtop) Hlive]. apply Forall_app in Hsz as [HszF HszL].
  apply Forall_cons in HszL as [Hszb HszL]. destruct Hlap as [HbL Hlap].
  destruct (spaced_split _ F b Hsp Hpos) as (F1 & F2 & -> & HF1 & HF2); [intros c Hc; apply Hap; inl|].
  apply Forall_app in HszF as [Hsz1 Hsz2]. apply Forall_app in Htop2 as [Htop21 Htop22].
  rewrite fmap_app, app_comm_cons in Hlk, Hfp. pose proof (proj1 (links_app _ _ _ _) Hlk) as [Hl1 Hl2].
  pose proof (proj1 (spaced_app _ _ _) Hsp) as [Hsp1 Hsp2].
  set (m := hp_mem h) in *. set (p := (before F1).1). set (q := default base (head F2.*1)) in *.
  destruct (before_nodes F1) as (N1 & EN & _). fold p in EN.
  assert (Hp_in : p ∈ base :: F1.*1) by (rewrite EN; inl).
  assert (Hbelow : forall a, a ∈ base :: F1.*1 -> a + HEADER <= b.1).
  { intros a [->|Ha]%elem_of_cons; [done|]. apply list_elem_of_fmap in Ha as (c & -> & Hc).
    rewrite Forall_forall in HF1. specialize (HF1 c Hc). destruct (spaced_after _ _ _ Hsp1 Hc). unfold bend, HEADER in *. lia. }
  assert (Habove : forall c, c ∈ F2 -> b.1 + HEADER <= c.1).
  { intros c Hc. rewrite Forall_forall in HF2. specialize (HF2 c Hc). unfold bend, HEADER in *. lia. }
  assert (Hfind : free_find steps m (hp_freep h) b.1 = Some p).
  { rewrite EN in Hlk, Hfp. rewrite <- app_assoc in Hlk, Hfp. apply (free_find_spec m N1 p F2.*1).
    - replace (default p (head N1)) with base; [exact Hlk|]. destruct N1; injection EN; done.
    - rewrite cons_middle, app_assoc, <- EN. change ((base :: F1.*1) ++ F2.*1) with (base :: F1.*1 ++ F2.*1). rewrite <- fmap_app.
      apply (nodes_sorted (base + HEADER - 1)); [done|unfold HEADER; lia].
    - specialize (Hbelow p Hp_in). unfold HEADER in Hbelow. lia.
    - apply Forall_fmap, Forall_forall. intros c Hc. specialize (Habove c Hc). simpl. unfold HEADER in Habove. lia.
    - exact Hfp.
    - apply (f_equal length) in EN. rewrite length_app in EN, Hst. simpl in EN. rewrite length_fmap in EN. rewrite length_app. simpl.
      rewrite length_fmap. lia. }
  assert (Hq : hptr m p = q). { rewrite EN in Hl1. by apply links_app in Hl1 as [_ [Hl1 _]]. }
  assert (Hspb : spaced (bend b - 1) F2).
  { destruct F2 as [|c F2]; [done|]. destruct Hsp2 as (? & ? & ?). apply Forall_cons in HF2 as [? _]. simpl. split_ands; [lia|done|done]. }
  destruct (merge_up m b F2 (hp_brk h)) as (b' & R & Eb & Hle & Htop' & Hszb' & Hptr' & Hout & HspR & Hsuf & Hun & Hlen & Hap'); try done.
  { unfold HEADER in *. lia. }
  fold q in Hszb', Hptr', Hout. set (m1 := if bend b =? q then _ else _) in *.
  assert (Hm1 : forall a, hsep a b.1 -> hptr m1 a = hptr m a /\ hsize m1 a = hsize m a).
  { intros a Ha. unfold hsep in Ha. split; [apply word_same|apply hsize_ext]; intros x Hx; apply Hout; unfold HEADER in *; lia. }
  assert (HsF1 : forall a, a ∈ base :: F1.*1 -> hsep a b.1) by (intros a Ha; left; by apply Hbelow).
  assert (HR : forall c, c ∈ R -> c ∈ F2). { destruct Hsuf as [K ->]. inl. }
  rewrite <- Eb in Hptr'.
  destruct (merge_down m1 F1 b' R q) as (F1' & D1 & D2 & D3 & D4 & D5 & D6 & D7 & D8 & D9 & D10 & D11); try done.
  { destruct (Hm1 base) as [_ ->]; [apply HsF1; inl|done]. }
  { apply Forall_forall. intros c Hc. rewrite Forall_forall in Hsz1. specialize (Hsz1 c Hc). unfold sized in *.
    destruct (Hm1 c.1) as [_ ->]; [apply HsF1; inl|done]. }
  { destruct R as [|c R]; simpl; [unfold HEADER in *; lia|]. assert (Hc : c ∈ F2) by (apply HR; inl).
    rewrite Forall_forall in Htop22. specialize (Htop22 c Hc). specialize (Habove c Hc). destruct HspR as (? & ? & _). unfold bend, HEADER in *. lia. }
  { eapply links_ext; [|exact Hl1]. intros a Ha. by destruct (Hm1 a (HsF1 a Ha)) as [-> _]. }
  { by rewrite Eb. }
  { by rewrite Eb. }
  { lia. }
  { lia. }
  fold p in D4, D7. rewrite Eb in D1, D2, D3, D4. fold p in D1, D2, D3.
  set (m2 := if p + HEADER * hsize m1 p =? b.1 then _ else _) in *.
  exists (mkHeap m2 p (hp_brk h)), (F1' ++ R).
  assert (Hev : free (b.1 + HEADER) h = Some (mkHeap m2 p (hp_brk h))).
  { unfold free. rewrite Z.add_simpl_r. fold m. rewrite Hfind. cbn [mbind option_bind]. unfold sized in Hszb.
    rewrite Hq, (hptr_put_size b.1 _ m p), Hq by (specialize (Hbelow p Hp_in); lia). unfold m2, m1. rewrite Hszb. reflexivity. }
  split; [exact Hev|]. clear Hev. clearbody m2 m1.
  assert (Hfar : forall a, hsep a b.1 -> hsep a p -> hptr m2 a = hptr m a /\ hsize m2 a = hsize m a).
  { intros a Ha Ha'. destruct (Hm1 a Ha) as [<- <-]. unfold hsep in Ha'. split; [apply word_same|apply hsize_ext]; intros x Hx; apply D4; unfold HEADER in *; lia. }
  assert (HsR : forall c, c ∈ R -> hsep c.1 b.1 /\ hsep c.1 p).
  { intros c Hc. specialize (Habove c (HR c Hc)). specialize (Hbelow p Hp_in). unfold hsep, HEADER in *. lia. }
  assert (HLp : forall c x, c ∈ L -> in_block c x -> ~ b.1 <= x < b.1 + HEADER /\ ~ p <= x < p + HEADER).
  { intros c x Hc Hx. rewrite Forall_forall in HbL, Hlive. specialize (HbL c Hc). destruct (Hlive c Hc) as (? & ? & ?).
    unfold apart, in_block, bend, HEADER in *. split; [lia|]. apply elem_of_cons in Hp_in as [Ep|Hp_in]; [lia|].
    apply list_elem_of_fmap in Hp_in as (d & Ed & Hd). specialize (Hap d c ltac:(inl) ltac:(inl)).
    destruct (spaced_after _ _ _ Hsp1 Hd). unfold apart, bend, HEADER in *. lia. }
  assert (HL : forall c x, c ∈ L -> in_block c x -> m2 x = m x).
  { intros c x Hc Hx. destruct (HLp c x Hc Hx). by rewrite D4, Hout. }
  assert (HapL : forall c, c ∈ L -> forall d, d ∈ F1' -> apart d c).
  { intros c Hc. rewrite Forall_forall in HbL, Hlive. destruct (Hlive c Hc) as (? & ? & ?). apply D11; [done| |intros d Hd; apply Hap; inl].
    apply Hap'; [done|by apply HbL|intros d Hd; apply Hap; inl]. }
  split_ands; try done.
  - split; cbn [hp_mem hp_freep hp_brk].
    + done.
    + rewrite fmap_app, app_comm_cons. apply links_app. split; [exact D1|].
      eapply links_ext; [|destruct Hsuf as [K E]; rewrite E, fmap_app in Hl2; apply links_app in Hl2 as [_ Hl2]; exact Hl2].
      intros a Ha. apply list_elem_of_fmap in Ha as (c & -> & Hc). destruct (HsR c Hc). by destruct (Hfar c.1) as [-> _].
    + rewrite fmap_app. inl.
    + exact D5.
    + apply Forall_app. split; [apply Forall_app; split; [exact D2|]|].
      * apply Forall_forall. intros c Hc. destruct (HsR c Hc). rewrite Forall_forall in Hsz2. specialize (Hsz2 c (HR c Hc)). unfold sized in *.
        by destruct (Hfar c.1) as [_ ->].
      * apply Forall_forall. intros c Hc. rewrite Forall_forall in HszL. specialize (HszL c Hc). unfold sized in *. rewrite <- HszL.
        apply hsize_ext. intros x Hx. apply (HL c); [done|]. rewrite Forall_forall in Hlive. destruct (Hlive c Hc) as (? & ? & ?).
        unfold in_block, bend, HEADER in *. lia.
    + split_ands; [done| |done]. apply Forall_app. split; [eapply Forall_impl; [exact D10|]; intros c Hc; simpl in *; lia|].
      apply Forall_forall. intros c Hc. rewrite Forall_forall in Htop22. by apply Htop22, HR.
    + done.
    + intros d c [Hd|Hd]%elem_of_app Hc; [by apply HapL|]. apply Hap; [specialize (HR d Hd)|]; inl.
    + done.
  - rewrite D6, !units_app. unfold units in *. simpl in *. lia.
  - rewrite !length_app. lia.
  - destruct D9 as (c & Hc & Hcle). exists c. split; [inl|lia].
Qed.

(** ** Lemmas: [malloc] *)

Lemma links_rotate m A x B : links m (A ++ x :: B) (default x (head A)) -> links m (x :: B ++ A) x.
Proof. intros [H1 H2]%links_app. rewrite app_comm_cons. apply links_app. done. Qed.

(** The search of [malloc] from the block after [a], through [V], to [freep]. *)
Lemma malloc_scan nunits h V a fuel :
  let m := hp_mem h in
  let x := hp_freep h in
  links m (a :: V) x -> x ∉ V -> (length V < fuel)%nat ->
  (exists prev c, prev ∈ a :: V /\ hptr m prev = c /\ c ∈ V ++ [x] /\ nunits <= hsize m c /\
    malloc_loop fuel nunits a (hptr m a) h = Some (take_block nunits prev c h)) \/
  (Forall (fun c => hsize m c < nunits) (V ++ [x]) /\
    malloc_loop fuel nunits a (hptr m a) h =
      '(r, h) ← morecore nunits h;
      if r =? 0 then Some (0, h) else malloc_loop (fuel - S (length V)) nunits r (hptr (hp_mem h) r) h).
Proof.
  intros m x. revert a fuel. induction V as [|c V IH]; intros a fuel [Ha Hl] Hx Hf; (destruct fuel as [|fuel]; [simpl in Hf; lia|]); cbn [malloc_loop];
    fold m x; rewrite Ha; cbn [head default option_map].
  - simpl. destruct (Z.leb_spec nunits (hsize m x)) as [Hg|Hg].
    + left. exists a, x. split_ands; try done; inl.
    + right. rewrite Z.eqb_refl, Nat.sub_0_r. split; [by repeat constructor|done].
  - simpl. destruct (Z.leb_spec nunits (hsize m c)) as [Hg|Hg].
    + left. exists a, c. split_ands; try done; inl.
    + rewrite (proj2 (Z.eqb_neq _ _)) by inl. destruct (IH c fuel) as [(prev & d & H1 & H2 & H3 & H4 & H5)|[H1 H2]]; [done|inl|simpl in Hf; lia|..].
      * left. exists prev, d. split_ands; try done; inl.
      * right. split; [by constructor|exact H2].
Qed.

Lemma pred_unique m F1 c F2 prev :
  let F := F1 ++ c :: F2 in
  links m (base :: F.*1) base -> spaced (base + HEADER - 1) F -> prev ∈ base :: F.*1 -> hptr m prev = c.1 -> prev = (before F1).1.
Proof.
  intros F Hl Hs Hp Hc. unfold F in *. clear F. destruct (before_nodes F1) as (N1 & EN & _). set (pb := (before F1).1) in *.
  assert (HN : base :: (F1 ++ c :: F2).*1 = N1 ++ pb :: c.1 :: F2.*1).
  { rewrite fmap_app, fmap_cons, app_comm_cons, EN, <- app_assoc. done. }
  assert (Hsort := nodes_sorted _ _ Hs ltac:(unfold HEADER; lia)). rewrite HN in Hl, Hsort, Hp.
  assert (Hbc : base < c.1).
  { destruct (spaced_after _ _ c Hs); [inl|]. unfold HEADER in *. lia. }
  apply elem_of_app in Hp as [Hp|Hp]; [|apply elem_of_cons in Hp as [Hp|Hp]; [done|]].
  - apply list_elem_of_split in Hp as (A & B & ->). rewrite <- app_assoc in Hl, Hsort. apply links_app in Hl as [_ [Hl _]].
    apply sorted_app_inv in Hsort as (_ & Hsort & _). simpl in Hl, Hsort. apply StronglySorted_inv in Hsort as [Hsort _].
    rewrite Hc in Hl. destruct B as [|d B]; simpl in *.
    + apply StronglySorted_inv in Hsort as [_ Hsort]. apply Forall_cons in Hsort as [? _]. lia.
    + apply StronglySorted_inv in Hsort as [_ Hsort]. rewrite Forall_app, !Forall_cons in Hsort. lia.
  - apply list_elem_of_split in Hp as (A & B & E). rewrite E in Hl, Hsort. 
    replace (N1 ++ pb :: A ++ prev :: B) with ((N1 ++ pb :: A) ++ prev :: B) in Hl, Hsort by (by rewrite <- app_assoc).
    apply links_app in Hl as [_ [Hl _]]. apply sorted_app_inv in Hsort as (_ & Hsort & Hlt). rewrite Hc in Hl.
    destruct B as [|d B]; simpl in Hl; [lia|]. apply StronglySorted_inv in Hsort as [_ Hsort]. apply Forall_cons in Hsort as [Hd _].
    destruct A as [|a A]; injection E as Ea _; [lia|]. specialize (Hlt c.1 d ltac:(inl) ltac:(inl)). lia.
Qed.

Lemma spaced_parts lo F1 c F2 :
  spaced lo (F1 ++ c :: F2) ->
  (forall d, d ∈ F1 -> lo < d.1 /\ 0 < d.2 /\ bend d < c.1) /\ (forall d, d ∈ F2 -> 0 < d.2 /\ bend c < d.1) /\ lo < c.1 /\ 0 < c.2.
Proof.
  intros Hs. pose proof (proj1 (spaced_app _ _ _) Hs) as [H1 (H2 & H3 & H4)]. split_ands; [| | |done].
  - intros d Hd. destruct (spaced_after _ _ _ H1 Hd). split_ands; [done..|]. apply list_elem_of_split in Hd as (A & B & ->).
    rewrite <- app_assoc in Hs. apply spaced_app in Hs as [_ (_ & _ & Hs)]. destruct (spaced_after _ _ c Hs); [inl|done].
  - intros d Hd. by destruct (spaced_after _ _ _ H4 Hd).
  - destruct (spaced_after _ _ c Hs); [inl|done].
Qed.

Lemma heap_ok_sep h F1 c F2 L :
  heap_ok h (F1 ++ c :: F2) L ->
  (forall a, a ∈ base :: F1.*1 ++ F2.*1 -> a + HEADER <= c.1 \/ bend c <= a) /\ base + HEADER <= c.1.
Proof.
  intros H. pose proof (ho_spaced _ _ _ H) as Hs. destruct (spaced_parts _ _ _ _ Hs) as (P1 & P2 & P3 & P4).
  split; [|lia]. intros a [->|Ha]%elem_of_cons; [lia|]. rewrite <- fmap_app in Ha. apply list_elem_of_fmap in Ha as (d & -> & Hd).
  apply elem_of_app in Hd as [Hd|Hd]; [destruct (P1 d Hd) as (? & ? & ?)|destruct (P2 d Hd)]; unfold bend, HEADER in *; lia.
Qed.

Lemma nodes_sep lo F a b : spaced lo F -> base + HEADER - 1 <= lo -> a ∈ base :: F.*1 -> b ∈ base :: F.*1 -> a = b \/ hsep a b.
Proof.
  intros Hs Hlo Ha Hb.
  assert (Hfirst : forall c, c ∈ F -> base + HEADER <= c.1) by (intros c Hc; destruct (spaced_after _ _ _ Hs Hc); lia).
  assert (Hpair : forall c d, c ∈ F -> d ∈ F -> c.1 = d.1 \/ hsep c.1 d.1).
  { intros c d Hc Hd. apply list_elem_of_split in Hc as (A & B & ->). destruct (spaced_parts _ _ _ _ Hs) as (P1 & P2 & P3 & P4).
    apply elem_of_app in Hd as [Hd|[->|Hd]%elem_of_cons]; [right|by left|right].
    - destruct (P1 d Hd) as (? & ? & ?). unfold hsep, bend, HEADER in *. lia.
    - destruct (P2 d Hd) as (? & ?). unfold hsep, bend, HEADER in *. lia. }
  apply elem_of_cons in Ha as [->|Ha]; apply elem_of_cons in Hb as [->|Hb]; [by left|..].
  - apply list_elem_of_fmap in Hb as (d & -> & Hd). right. left. by apply Hfirst.
  - apply list_elem_of_fmap in Ha as (c & -> & Hc). right. right. by apply Hfirst.
  - apply list_elem_of_fmap in Ha as (c & -> & Hc). apply list_elem_of_fmap in Hb as (d & -> & Hd). by apply Hpair.
Qed.

(** A header on the list is in no block that has been given out. *)
Lemma live_sep h F L a d x : heap_ok h F L -> a ∈ base :: F.*1 -> d ∈ L -> in_block d x -> ~ a <= x < a + HEADER.
Proof.
  intros H Ha Hd Hx. pose proof (ho_live _ _ _ H) as Hl. rewrite Forall_forall in Hl. destruct (Hl d Hd) as (? & ? & ?).
  unfold in_block in Hx. apply elem_of_cons in Ha as [->|Ha]; [lia|]. apply list_elem_of_fmap in Ha as (c & -> & Hc).
  pose proof (ho_apart _ _ _ H c d Hc Hd) as Hap. destruct (spaced_after _ _ _ (ho_spaced _ _ _ H) Hc). unfold apart, bend, HEADER in *. lia.
Qed.

Lemma live_sized m m' L :
  (forall d x, d ∈ L -> in_block d x -> m' x = m x) -> Forall (fun b => 0 < b.2) L -> Forall (sized m) L -> Forall (sized m') L.
Proof.
  intros He Hpos Hs. rewrite Forall_forall in *. intros d Hd. specialize (Hs d Hd). specialize (Hpos d Hd). unfold sized in *. rewrite <- Hs.
  apply hsize_ext. intros x Hx. apply (He d); [done|]. unfold in_block, bend, HEADER. lia.
Qed.

(** Taking a block off the list. *)
Lemma take_whole h F1 c F2 L :
  let m := hp_mem h in
  let h' := mkHeap (put_ptr (before F1).1 (hptr m c.1) m) (before F1).1 (hp_brk h) in
  heap_ok h (F1 ++ c :: F2) L -> heap_ok h' (F1 ++ F2) (c :: L) /\ (forall d x, d ∈ L -> in_block d x -> hp_mem h' x = m x).
Proof.
  intros m h' H. destruct (heap_ok_sep _ _ _ _ _ H) as [Hsep Hcb]. pose proof (fun a d x => live_sep _ _ _ a d x H) as Hlv. destruct H as [Hbase Hlk Hfp Hsp Hsz (Ht1 & Ht2 & Ht3) Hlive Hap Hlap].
  destruct (spaced_parts _ _ _ _ Hsp) as (P1 & P2 & P3 & P4). destruct (before_nodes F1) as (N1 & EN & _). set (pb := (before F1).1) in *.
  assert (Hpb : pb ∈ base :: F1.*1) by (rewrite EN; inl).
  assert (HN : base :: (F1 ++ c :: F2).*1 = N1 ++ pb :: c.1 :: F2.*1) by (rewrite fmap_app, fmap_cons, app_comm_cons, EN, <- app_assoc; done).
  assert (Hsort := nodes_sorted _ _ Hsp ltac:(unfold HEADER; lia)). rewrite HN in Hlk, Hsort.
  apply links_app in Hlk as [L1 (L2 & L3 & L4)]. fold m in Hbase, L1, L2, L3, L4, Hsz.
  assert (Hnode : forall a, a ∈ N1 ++ c.1 :: F2.*1 -> hsep a pb).
  { intros a Ha. destruct (nodes_sep (base + HEADER - 1) (F1 ++ c :: F2) a pb Hsp) as [->|]; [lia|rewrite HN; inl|rewrite HN; inl| |done].
    apply sorted_app_inv in Hsort as (_ & S2 & S3). apply elem_of_app in Ha as [Ha|Ha]; [specialize (S3 pb pb Ha ltac:(inl)); lia|].
    apply StronglySorted_inv in S2 as [_ S2]. rewrite Forall_forall in S2. specialize (S2 pb Ha). lia. }
  assert (Hmem : forall d x, d ∈ L -> in_block d x -> hp_mem h' x = m x).
  { intros d x Hd Hx. apply put_ptr_out. specialize (Hlv pb d x ltac:(rewrite HN; inl) Hd Hx). unfold HEADER in Hlv. lia. }
  split; [|exact Hmem]. rewrite !Forall_app, Forall_cons in Hsz. destruct Hsz as ((Hsz1 & Hszc & Hsz2) & HszL).
  assert (Hsize : forall a, a ∈ base :: (F1 ++ c :: F2).*1 -> hsize (hp_mem h') a = hsize m a).
  { intros a Ha. apply hsize_put_ptr. destruct (nodes_sep (base + HEADER - 1) (F1 ++ c :: F2) a pb Hsp) as [->|Hs];
      [lia|done|rewrite HN; inl|by left|]. unfold hsep in Hs. lia. }
  split; cbn [h' hp_mem hp_freep hp_brk].
  - split; [apply Hbase|]. etransitivity; [apply Hsize; inl|apply Hbase].
  - rewrite fmap_app, app_comm_cons, EN, <- app_assoc. apply links_app. simpl in L1. split; [|split].
    + eapply links_ext; [|exact L1]. intros a Ha. apply hptr_put_ptr_ne. destruct (Hnode a); [inl|lia..].
    + rewrite hptr_put_ptr; [done|apply word_range].
    + eapply links_ext; [|exact L4]. intros a Ha. apply hptr_put_ptr_ne. destruct (Hnode a); [inl|lia..].
  - rewrite fmap_app. inl.
  - apply spaced_app. apply spaced_app in Hsp as [Hs1 (Hs2 & Hs3 & Hs4)]. split; [done|]. eapply spaced_mono; [|exact Hs4]. unfold bend, HEADER in *. lia.
  - assert (Hall : forall d, d ∈ F1 ++ c :: F2 -> sized m d -> sized (hp_mem h') d).
    { intros d Hd. unfold sized. rewrite Hsize; [done|]. inl. }
    rewrite !Forall_app, Forall_cons, !Forall_forall in *. split_ands.
    + intros d Hd. apply Hall; [inl|auto].
    + intros d Hd. apply Hall; [inl|auto].
    + apply Hall; [inl|done].
    + apply Forall_forall. eapply live_sized; [exact Hmem| |by apply Forall_forall]. apply Forall_forall. intros d Hd. apply Hlive, Hd.
  - rewrite !Forall_app, Forall_cons in *. tauto.
  - constructor; [|done]. rewrite Forall_app, Forall_cons in Ht2. split_ands; [done|done|tauto].
  - intros b d Hb [->|Hd]%elem_of_cons; [|apply Hap; inl]. unfold apart.
    apply elem_of_app in Hb as [Hb|Hb]; [destruct (P1 b Hb) as (? & ? & ?)|destruct (P2 b Hb)]; lia.
  - split; [|done]. apply Forall_forall. intros d Hd. apply Hap; inl.
Qed.

(** Cutting the end off a block of the list. *)
Lemma take_part h F1 c F2 L n pv :
  let m := hp_mem h in
  let c' := (c.1, c.2 - n) in
  let b := (bend c', n) in
  let h' := mkHeap (put_size b.1 n (put_size c.1 (c.2 - n) m)) pv (hp_brk h) in
  heap_ok h (F1 ++ c :: F2) L -> 0 < n < c.2 -> pv ∈ base :: F1.*1 ->
  heap_ok h' (F1 ++ c' :: F2) (b :: L) /\ (forall d x, d ∈ L -> in_block d x -> hp_mem h' x = m x).
Proof.
  intros m c' b h' H Hn Hpv. destruct (heap_ok_sep _ _ _ _ _ H) as [Hsep Hcb]. pose proof (fun a d x => live_sep _ _ _ a d x H) as Hlv.
  destruct H as [Hbase Hlk Hfp Hsp Hsz (Ht1 & Ht2 & Ht3) Hlive Hap Hlap]. destruct (spaced_parts _ _ _ _ Hsp) as (P1 & P2 & P3 & P4).
  fold m in Hbase, Hlk, Hsz. rewrite !Forall_app, Forall_cons in Hsz. destruct Hsz as ((Hsz1 & Hszc & Hsz2) & HszL).
  rewrite Forall_app, Forall_cons in Ht2. destruct Ht2 as (Ht21 & Htc & Ht22).
  assert (Hb : b.1 = c.1 + HEADER * (c.2 - n) /\ bend b = bend c) by (unfold b, bend, HEADER; simpl; lia). destruct Hb as [Hb1 Hb2].
  assert (Hc32 : c.2 < 2 ^ 32) by (unfold bend, HEADER in *; lia).
  assert (Hmem : forall x, ~ in_block c x -> hp_mem h' x = m x).
  { intros x Hx. cbn [h' hp_mem]. unfold in_block, bend, HEADER in *. rewrite !put_size_out by lia. done. }
  assert (HmemL : forall d x, d ∈ L -> in_block d x -> hp_mem h' x = m x).
  { intros d x Hd Hx. apply Hmem. specialize (Hap c d ltac:(inl) Hd). unfold apart, in_block in *. lia. }
  split; [|exact HmemL].
  assert (Hhdr : forall a, a ∈ base :: F1.*1 ++ F2.*1 -> hptr (hp_mem h') a = hptr m a /\ hsize (hp_mem h') a = hsize m a).
  { intros a Ha. specialize (Hsep a Ha). split; [apply word_same|apply hsize_ext]; intros x Hx; apply Hmem; unfold in_block, HEADER in *; lia. }
  assert (Hcp : hptr (hp_mem h') c.1 = hptr m c.1).
  { cbn [h' hp_mem]. unfold HEADER in *. rewrite !hptr_put_size by (unfold HEADER; lia). done. }
  split; cbn [hp_freep hp_brk h'].
  - split; [apply Hbase|]. destruct (Hhdr base) as [_ ->]; [inl|apply Hbase].
  - eapply (links_ext m); [|rewrite fmap_app in *; exact Hlk]. intros a Ha. rewrite fmap_app in Ha. simpl in Ha.
    destruct (decide (a = c.1)) as [->|Hne]; [exact Hcp|]. apply Hhdr. rewrite elem_of_cons, !elem_of_app in *. rewrite elem_of_cons in Ha. tauto.
  - rewrite fmap_app, elem_of_cons, elem_of_app. apply elem_of_cons in Hpv. tauto.
  - apply spaced_app. apply spaced_app in Hsp as [Hs1 (Hs2 & Hs3 & Hs4)]. split; [done|]. simpl. split_ands; [done|lia|].
    eapply spaced_mono; [|exact Hs4]. unfold bend, HEADER in *. simpl. lia.
  - assert (Hall : forall d, d ∈ F1 ++ F2 -> sized m d -> sized (hp_mem h') d).
    { intros d Hd. unfold sized. destruct (Hhdr d.1) as [_ ->]; [|done]. rewrite <- fmap_app, elem_of_cons. right. by apply list_elem_of_fmap_2. }
    rewrite !Forall_app, !Forall_cons. split_ands.
    + rewrite Forall_forall in *. intros d Hd. apply Hall; [inl|auto].
    + unfold sized. cbn [c' fst snd h' hp_mem]. rewrite hsize_put_size_ne by (rewrite Hb1; unfold HEADER; lia). apply hsize_put_size. lia.
    + rewrite Forall_forall in *. intros d Hd. apply Hall; [inl|auto].
    + unfold sized. cbn [b fst snd h' hp_mem]. apply hsize_put_size. lia.
    + eapply live_sized; [exact HmemL| |done]. eapply Forall_impl; [exact Hlive|]. by intros d (? & ? & ?).
  - split_ands; [done| |done]. rewrite Forall_app, Forall_cons. split_ands; [done| |done]. unfold bend, HEADER in *. simpl. lia.
  - constructor; [|done]. rewrite Hb1, Hb2. cbn [b snd]. unfold HEADER in *. split_ands; [lia|lia|done].
  - intros d e Hd [->|He]%elem_of_cons.
    + unfold apart. rewrite Hb1, Hb2. apply elem_of_app in Hd as [Hd|[->|Hd]%elem_of_cons].
      * destruct (P1 d Hd) as (? & ? & ?). unfold bend, HEADER in *. lia.
      * left. unfold bend, HEADER in *. simpl. lia.
      * destruct (P2 d Hd). lia.
    + apply elem_of_app in Hd as [Hd|[->|Hd]%elem_of_cons]; [apply Hap; inl| |apply Hap; inl].
      specialize (Hap c e ltac:(inl) He). unfold apart, bend, HEADER in *. simpl. lia.
  - split; [|done]. apply Forall_forall. intros e He. specialize (Hap c e ltac:(inl) He). unfold apart in *. rewrite Hb1, Hb2. unfold bend, HEADER in *. lia.
Qed.

Lemma take_ok h F L nunits prev p :
  heap_ok h F L -> prev ∈ base :: F.*1 -> hptr (hp_mem h) prev = p -> p ∈ base :: F.*1 -> 0 < nunits <= hsize (hp_mem h) p ->
  exists b h' F', take_block nunits prev p h = (b.1 + HEADER, h') /\ b.2 = nunits /\ heap_ok h' F' (b :: L) /\
    hp_brk h' = hp_brk h /\ units F' + nunits = units F /\ (length F' <= length F)%nat /\
    (forall d x, d ∈ L -> in_block d x -> hp_mem h' x = hp_mem h x).
Proof.
  intros H Hprev Hp Hin Hn. destruct (ho_base _ _ _ H) as [Hb0 Hb1].
  apply elem_of_cons in Hin as [->|Hin]; [rewrite Hb1 in Hn; lia|].
  apply list_elem_of_fmap in Hin as (c & -> & Hc). apply list_elem_of_split in Hc as (F1 & F2 & ->).
  pose proof (pred_unique _ _ _ _ _ (ho_links _ _ _ H) (ho_spaced _ _ _ H) Hprev Hp) as ->.
  assert (Hsz : hsize (hp_mem h) c.1 = c.2).
  { pose proof (ho_sized _ _ _ H) as Hsz. rewrite !Forall_app, Forall_cons in Hsz. apply Hsz. }
  rewrite Hsz in Hn. unfold take_block. rewrite Hsz. destruct (Z.eqb_spec c.2 nunits) as [E|Hne].
  - destruct (take_whole h F1 c F2 L H) as [H' Hm]. exists c. eexists. exists (F1 ++ F2). split; [reflexivity|]. split_ands; try done.
    + rewrite !units_app. unfold units. simpl. lia.
    + rewrite !length_app. simpl. lia.
  - assert (Hu : u32 (c.2 - nunits) = c.2 - nunits).
    { apply u32_small. pose proof (ho_top _ _ _ H) as (_ & Ht & _). rewrite Forall_app, Forall_cons in Ht. destruct Ht as (_ & Ht & _).
      destruct (heap_ok_sep _ _ _ _ _ H). pose proof (ho_top _ _ _ H) as (_ & _ & ?). unfold bend, HEADER in *. lia. }
    rewrite Hu. rewrite hsize_put_size by (pose proof (u32_range (c.2 - nunits)); lia).
    destruct (before_nodes F1) as (N1 & EN & _).
    destruct (take_part h F1 c F2 L nunits (before F1).1 H) as [H' Hm]; [lia|rewrite EN; inl|].
    exists (bend (c.1, c.2 - nunits), nunits). eexists. exists (F1 ++ (c.1, c.2 - nunits) :: F2). split; [reflexivity|]. split_ands; try done.
    + rewrite !units_app. unfold units. simpl. lia.
    + rewrite !length_app. simpl. lia.
Qed.

Lemma live_extend h F L e n :
  heap_ok h F L -> e = hp_brk h -> 0 < n -> e + HEADER * n < 2 ^ 32 ->
  heap_ok (mkHeap (put_size e n (hp_mem h)) (hp_freep h) (e + HEADER * n)) F ((e, n) :: L) /\
  (forall d x, d ∈ L -> in_block d x -> put_size e n (hp_mem h) x = hp_mem h x).
Proof.
  intros [Hbase Hlk Hfp Hsp Hsz (Ht1 & Ht2 & Ht3) Hlive Hap Hlap] -> Hn Htop. set (m := hp_mem h) in *. set (e := hp_brk h) in *.
  assert (Hm : forall x, x < e -> put_size e n m x = m x) by (intros x Hx; apply put_size_out; lia).
  assert (Hlow : forall a, a ∈ base :: F.*1 -> a + HEADER <= e).
  { intros a [->|Ha]%elem_of_cons; [done|]. apply list_elem_of_fmap in Ha as (c & -> & Hc). rewrite Forall_forall in Ht2. specialize (Ht2 c Hc).
    destruct (spaced_after _ _ _ Hsp Hc). unfold bend, HEADER in *. simpl in *. lia. }
  assert (HmL : forall d x, d ∈ L -> in_block d x -> put_size e n m x = m x).
  { intros d x Hd Hx. apply Hm. rewrite Forall_forall in Hlive. destruct (Hlive d Hd) as (? & ? & ?). unfold in_block in Hx. lia. }
  split; [|exact HmL]. rewrite Forall_app in Hsz. destruct Hsz as [HszF HszL].
  split; cbn [hp_mem hp_freep hp_brk].
  - split; [apply Hbase|]. rewrite hsize_put_size_ne by lia. apply Hbase.
  - eapply links_ext; [|exact Hlk]. intros a Ha. specialize (Hlow a Ha). apply hptr_put_size. lia.
  - done.
  - done.
  - rewrite Forall_app, Forall_cons. split_ands.
    + rewrite Forall_forall in *. intros c Hc. specialize (Hlow c.1 ltac:(inl)). unfold sized. rewrite hsize_put_size_ne by lia. by apply HszF.
    + apply hsize_put_size. simpl. unfold HEADER in *. lia.
    + eapply live_sized; [exact HmL| |done]. eapply Forall_impl; [exact Hlive|]. by intros d (? & ? & ?).
  - split_ands; [unfold HEADER in *; lia| |done]. eapply Forall_impl; [exact Ht2|]. intros c Hc. simpl in *. unfold HEADER. lia.
  - constructor; [unfold bend; simpl; split_ands; [done|done|lia]|]. eapply Forall_impl; [exact Hlive|]. intros c (? & ? & ?). unfold HEADER in *. split_ands; lia.
  - intros b c Hb [->|Hc]%elem_of_cons; [|by apply Hap]. left. rewrite Forall_forall in Ht2. by apply Ht2.
  - split; [|done]. rewrite Forall_forall in *. intros c Hc. right. destruct (Hlive c Hc) as (? & ? & ?). done.
Qed.

Lemma pairwise_apart_perm L L' : L ≡ₚ L' -> pairwise_apart L -> pairwise_apart L'.
Proof.
  induction 1 as [|b L L' HL IH|b c L|L L' L'' _ IH1 _ IH2]; simpl; [done| | |auto].
  - intros [H1 H2]. split; [by rewrite <- HL|auto].
  - intros [H1 [H2 H3]]. apply Forall_cons in H1 as [H0 H1]. rewrite Forall_cons. unfold apart in *. split_ands; [lia|done..].
Qed.

Lemma heap_ok_perm h F L L' : L ≡ₚ L' -> heap_ok h F L -> heap_ok h F L'.
Proof.
  intros HL [Hbase Hlk Hfp Hsp Hsz Ht Hlive Hap Hlap]. split; try done.
  - by rewrite <- HL.
  - by rewrite <- HL.
  - intros b c Hb Hc. apply Hap; [done|by rewrite HL].
  - by eapply pairwise_apart_perm.
Qed.

(** C35: [free] of a block that was given out ends and puts exactly its units back, merged
    with the free blocks next to it; the other blocks keep their bytes. *)
Theorem free_correct h F L1 b L2 :
  heap_ok h F (L1 ++ b :: L2) -> (S (length F) < steps)%nat ->
  exists h' F', free (b.1 + HEADER) h = Some h' /\ heap_ok h' F' (L1 ++ L2) /\ hp_brk h' = hp_brk h /\
    units F' = units F + b.2 /\ (length F' <= S (length F))%nat /\
    (forall d x, d ∈ L1 ++ L2 -> in_block d x -> hp_mem h' x = hp_mem h x).
Proof.
  intros H Hst. apply (heap_ok_perm _ _ _ (b :: L1 ++ L2)) in H; [|by rewrite Permutation_middle].
  destruct (free_ok h F (L1 ++ L2) b H Hst) as (h' & F' & E & H' & Eb & Eu & El & _ & Em). by exists h', F'.
Qed.
(** What the library relies on: the end of the heap stays below 4 GiB ([growproc] keeps
    a process's size in a [uint]). *)
Hypothesis grants_32 : forall e n, grants e n = true -> e + n < 2 ^ 32.

Lemma morecore_ok nu h F L :
  heap_ok h F L -> 0 < nu -> nu * HEADER < 2 ^ 31 -> (S (length F) < steps)%nat ->
  (exists n, grants (hp_brk h) n = false) /\ morecore nu h = Some (0, h) \/
  exists h' F' g, morecore nu h = Some (hp_freep h', h') /\ heap_ok h' F' L /\ 0 < g /\ hp_brk h' = hp_brk h + HEADER * g /\
    units F' = units F + g /\ (length F' <= S (length F))%nat /\ (exists c, c ∈ F' /\ nu <= c.2) /\
    (forall d x, d ∈ L -> in_block d x -> hp_mem h' x = hp_mem h x).
Proof.
  intros H Hnu Hb Hst. unfold morecore. set (n := if nu <? 4096 then 4096 else nu).
  assert (Hn : nu <= n /\ 0 < n /\ n * HEADER < 2 ^ 31) by (unfold n, HEADER in *; destruct (Z.ltb_spec nu 4096); lia). destruct Hn as (Hn1 & Hn2 & Hn3).
  assert (Ei : i32 (u64 (n * HEADER)) = HEADER * n).
  { unfold HEADER in *. rewrite u64_small, i32_small by lia. lia. }
  rewrite Ei. unfold sbrk. destruct (grants (hp_brk h) (HEADER * n)) eqn:Eg.
  - right. assert (Hbrk : 0 < hp_brk h) by (destruct (ho_base _ _ _ H), (ho_top _ _ _ H) as [? _]; unfold HEADER in *; lia).
    rewrite (proj2 (Z.eqb_neq _ _)) by lia. cbn [hp_mem hp_freep hp_brk].
    destruct (live_extend h F L (hp_brk h) n H eq_refl Hn2 (grants_32 _ _ Eg)) as [H1 Hm1].
    destruct (free_ok _ F L _ H1 Hst) as (h' & F' & E & H' & Ebrk & Eu & El & (c & Hc & Hcn) & Hm). cbn [fst snd hp_brk hp_mem] in *.
    exists h', F', n. rewrite E. cbn [mbind option_bind]. split_ands; try done.
    + exists c. split; [done|lia].
    + intros d x Hd Hx. rewrite (Hm d x Hd Hx). by apply (Hm1 d).
  - left. split; [by eexists|done].
Qed.

(** One round over the list: a block is taken, or none is large enough. *)
Lemma malloc_round h F L nunits fuel :
  let x := hp_freep h in
  heap_ok h F L -> 0 < nunits -> (S (length F) < fuel)%nat ->
  (exists b h' F', malloc_loop fuel nunits x (hptr (hp_mem h) x) h = Some (b.1 + HEADER, h') /\ b.2 = nunits /\
    heap_ok h' F' (b :: L) /\ hp_brk h' = hp_brk h /\ units F' + nunits = units F /\ (length F' <= length F)%nat /\
    (forall d y, d ∈ L -> in_block d y -> hp_mem h' y = hp_mem h y)) \/
  (Forall (fun c => c.2 < nunits) F /\ exists fuel', (fuel <= fuel' + S (length F))%nat /\
    malloc_loop fuel nunits x (hptr (hp_mem h) x) h =
      '(r, h) ← morecore nunits h;
      if r =? 0 then Some (0, h) else malloc_loop fuel' nunits r (hptr (hp_mem h) r) h).
Proof.
  intros x H Hn Hf. pose proof (ho_freep _ _ _ H) as Hx. fold x in Hx. pose proof (ho_links _ _ _ H) as Hlk.
  assert (Hsort := nodes_sorted _ _ (ho_spaced _ _ _ H) ltac:(unfold HEADER; lia)).
  apply list_elem_of_split in Hx as (A & B & E).
  assert (Hrot : links (hp_mem h) (x :: B ++ A) x).
  { apply links_rotate. rewrite <- E. replace (default x (head A)) with base; [done|]. destruct A; injection E; done. }
  assert (Hlen : length (B ++ A) = length F).
  { apply (f_equal length) in E. rewrite length_app in *. simpl in E. rewrite length_fmap in E. lia. }
  assert (Hin : forall a, a ∈ x :: B ++ A <-> a ∈ base :: F.*1).
  { intros a. rewrite E. rewrite !elem_of_cons, !elem_of_app, elem_of_cons. tauto. }
  assert (Hxn : x ∉ B ++ A).
  { rewrite E in Hsort. apply sorted_app_inv in Hsort as (_ & S2 & S3). apply StronglySorted_inv in S2 as [_ S2]. rewrite Forall_forall in S2.
    intros [Hb|Ha]%elem_of_app; [specialize (S2 x Hb); lia|]. specialize (S3 x x Ha ltac:(inl)). lia. }
  destruct (malloc_scan nunits h (B ++ A) x fuel Hrot Hxn ltac:(lia)) as [(prev & c & H1 & H2 & H3 & H4 & H5)|[H1 H2]].
  - left. destruct (take_ok h F L nunits prev c H) as (b & h' & F' & Et & Rest).
    + by apply Hin.
    + done.
    + apply Hin. rewrite elem_of_app, list_elem_of_singleton in H3. rewrite elem_of_cons. tauto.
    + lia.
    + exists b, h', F'. rewrite H5, Et. done.
  - right. split.
    + apply Forall_forall. intros c Hc. rewrite Forall_forall in H1. assert (Hc1 : c.1 ∈ base :: F.*1) by inl. apply Hin in Hc1.
      specialize (H1 c.1). pose proof (ho_sized _ _ _ H) as Hs. rewrite Forall_forall in Hs. unfold sized in Hs. rewrite <- (Hs c) by inl. apply H1.
      rewrite elem_of_app, list_elem_of_singleton. rewrite elem_of_cons in Hc1. tauto.
    + exists (fuel - S (length (B ++ A)))%nat. split; [lia|exact H2].
Qed.

Lemma malloc_loop_ok h F L nunits :
  let x := hp_freep h in
  heap_ok h F L -> 0 < nunits -> nunits * HEADER < 2 ^ 31 -> (S (S (length F)) < steps)%nat ->
  (exists n, grants (hp_brk h) n = false) /\ malloc_loop (2 * steps) nunits x (hptr (hp_mem h) x) h = Some (0, h) \/
  exists b h' F' g, malloc_loop (2 * steps) nunits x (hptr (hp_mem h) x) h = Some (b.1 + HEADER, h') /\ b.2 = nunits /\
    heap_ok h' F' (b :: L) /\ 0 <= g /\ hp_brk h' = hp_brk h + HEADER * g /\ units F' + nunits = units F + g /\
    (length F' <= S (length F))%nat /\ (forall d y, d ∈ L -> in_block d y -> hp_mem h' y = hp_mem h y).
Proof.
  intros x H Hn Hb Hst. unfold x. clear x.
  destruct (malloc_round h F L nunits (2 * steps) H Hn) as [(b & h' & F' & E & Eb & H' & Ebr & Eu & El & Em)|[_ (fuel' & Hf & E)]]; [lia|..].
  - right. exists b, h', F', 0. split_ands; try done; [unfold HEADER; lia|lia|lia].
  - destruct (morecore_ok nunits h F L H Hn Hb) as [[Hno Em]|(h1 & F1 & g & Em & H1 & Hg & Ebr & Eu & El & (c & Hc & Hcn) & Hm)]; [lia|..].
    + left. split; [done|]. rewrite E, Em. done.
    + right. rewrite Em in E. cbn [mbind option_bind] in E.
      assert (Hr : hp_freep h1 <> 0).
      { pose proof (ho_freep _ _ _ H1) as [->|Hr]%elem_of_cons; [destruct (ho_base _ _ _ H1); lia|].
        apply list_elem_of_fmap in Hr as (d & -> & Hd). destruct (spaced_after _ _ _ (ho_spaced _ _ _ H1) Hd), (ho_base _ _ _ H1). unfold HEADER in *. lia. }
      rewrite (proj2 (Z.eqb_neq _ _) Hr) in E.
      destruct (malloc_round h1 F1 L nunits fuel' H1 Hn) as [(b & h' & F' & E' & Eb & H' & Ebr' & Eu' & El' & Em')|[Hall _]]; [lia|..].
      * exists b, h', F', g. rewrite E, E'. split_ands; try done; [lia|congruence|lia|lia|]. intros d y Hd Hy. by rewrite (Em' d y), (Hm d y).
      * rewrite Forall_forall in Hall. specialize (Hall c Hc). simpl in Hall. lia.
Qed.

(** ** Properties *)

(** Before the first call of [malloc]. *)
Definition fresh (h : heap) : Prop := hp_freep h = 0 /\ 0 < base /\ base + HEADER <= hp_brk h < 2 ^ 32.

Definition allocator_ok (h : heap) (F L : list block) : Prop := heap_ok h F L \/ fresh h /\ F = [] /\ L = [].

Lemma heap_ok_start h :
  fresh h -> heap_ok (mkHeap (put_size base 0 (put_ptr base base (hp_mem h))) base (hp_brk h)) [] [].
Proof.
  intros (_ & Hb & Hbrk). unfold HEADER in Hbrk. split; cbn [hp_mem hp_freep hp_brk].
  - split; [done|]. apply hsize_put_size. lia.
  - split; [|done]. rewrite hptr_put_size by auto. simpl. apply hptr_put_ptr. lia.
  - inl.
  - done.
  - constructor.
  - split_ands; [unfold HEADER; lia|constructor|lia].
  - constructor.
  - intros b c Hb'. by apply not_elem_of_nil in Hb'.
  - done.
Qed.


End umalloc.

(** A program whose heap starts at 8192 and may grow to 1 MiB. *)
Definition small_grants (e n : Z) : bool := e + n <? 1048576.

Lemma small_grants_32 e n : small_grants e n = true -> e + n < 2 ^ 32.
Proof. unfold small_grants. intros H%Z.ltb_lt. lia. Qed.

Definition new_heap : heap := mkHeap (fun _ => 0) 0 8192.


(** A heap of one block that has been given out. *)
Definition one_block_heap : heap :=
  mkHeap (put_size 8192 100 (put_size 4096 0 (put_ptr 4096 4096 (fun _ => 0)))) 4096 (8192 + HEADER * 100).

Lemma one_block_ok : heap_ok 4096 one_block_heap [] [(8192, 100)].
Proof.
  apply (live_extend 4096 (mkHeap (put_size 4096 0 (put_ptr 4096 4096 (fun _ => 0))) 4096 8192) [] [] 8192 100); [|done..].
  apply (heap_ok_start 4096 new_heap). split; [done|]. simpl. unfold HEADER. lia.
Qed.

Lemma free_correct_witness : exists h', free 10 (8192 + HEADER) one_block_heap = Some h'.
Proof.
  destruct (free_correct 4096 small_grants 10 one_block_heap [] [] (8192, 100) [] one_block_ok ltac:(simpl; lia)) as (h' & F' & E & _).
  exists h'. exact E.
Defined.
