(* ===== verification/Utils.v ===== *)
(** * User programs (user/wc.c, cat.c, echo.c, ls.c, find.c, primes.c, xargs.c and the random numbers of grind.c)

    A program that reads a file gets the pieces that its calls of [read] return; what it
    prints is a list of bytes, or a list of messages of which [print_line] gives the
    bytes.  What the system calls return is an argument of the definitions.  The processes
    of primes.c are connected by pipes, each with one writer and one reader, so what a
    process writes is a function of what it reads. *)

From S2P Require Import Prelude Ring State Spin Sleep Uart Printf Bio Log Txn Strings FsBlock FsInode FsFile FsWrite FsDir Ulib.
From Stdlib Require Import Zdivisibility.

(** ** Definitions: wc, cat and echo *)

(** [l], [w], [c] and [inword] *)
Record counts := mkCounts { wc_l : Z; wc_w : Z; wc_c : Z; wc_inword : bool }.

Definition wc_space (c : Z) : bool := match strchr [32; 13; 9; 10; 11] c with Some _ => true | None => false end.

Definition wc_char (s : counts) (ch : Z) : counts :=
  let c := i32 (wc_c s + 1) in
  let l := if ch =? 10 then i32 (wc_l s + 1) else wc_l s in
  if wc_space ch then mkCounts l (wc_w s) c false
  else if negb (wc_inword s) then mkCounts l (i32 (wc_w s + 1)) c true
  else mkCounts l (wc_w s) c (wc_inword s).

(** The loop over the pieces and the loop over the characters of each. *)
Definition wc_loop (pieces : list (list Z)) : counts :=
  fold_left (fun s buf => fold_left wc_char buf s) pieces (mkCounts 0 0 0 false).

(** [failed]: the last call of [read] returned an error.  What is printed, and the exit
    status if the program exits. *)
Definition wc (pieces : list (list Z)) (failed : bool) (name : list Z) : option (list Z) * option Z :=
  let s := wc_loop pieces in
  if failed then (vprintf (chars "wc: read error" ++ [10]) false [], Some 1)
  else (vprintf (chars "%d %d %d %s" ++ [10]) false
          [AInt (wc_l s); AInt (wc_w s); AInt (wc_c s); AStr (Some name)], None).

(** [writes n buf]: how much of [buf] the [n]-th call of [write] writes.  The output, the
    message on the standard error, and the exit status if the program exits. *)
Fixpoint cat (writes : nat -> list Z -> nat) (n : nat) (pieces : list (list Z)) (failed : bool) : list Z * list Z * option Z :=
  match pieces with
  | [] => if failed then ([], chars "cat: read error" ++ [10], Some 1) else ([], [], None)
  | buf :: pieces =>
      let w := writes n buf in
      if (w =? length buf)%nat then
        let '(out, err, st) := cat writes (S n) pieces failed in (buf ++ out, err, st)
      else (take w buf, chars "cat: write error" ++ [10], Some 1)
  end.

(** [main] of both: the arguments after the name of the program are opened in turn.
    [open] gives what a file yields, the pieces that are read and whether a read then
    fails.  The status is that of the process. *)
Fixpoint wc_files (open : list Z -> option (list (list Z) * bool)) (argv : list (list Z)) : list (option (list Z)) * Z :=
  match argv with
  | [] => ([], 0)
  | a :: argv =>
      match open a with
      | None => ([vprintf (chars "wc: cannot open %s" ++ [10]) false [AStr (Some a)]], 1)
      | Some (pieces, failed) =>
          match wc pieces failed a with
          | (out, Some st) => ([out], st)
          | (out, None) => let r := wc_files open argv in (out :: r.1, r.2)
          end
      end
  end.

Definition wc_main (stdin : list (list Z) * bool) (open : list Z -> option (list (list Z) * bool)) (argv : list (list Z)) : list (option (list Z)) * Z :=
  match argv with
  | [] => let r := wc stdin.1 stdin.2 [] in ([r.1], default 0 r.2)
  | _ => wc_files open argv
  end.

Fixpoint cat_files (writes : nat -> list Z -> nat) (n : nat) (open : list Z -> option (list (list Z) * bool)) (argv : list (list Z)) : list Z * option (list Z) * Z :=
  match argv with
  | [] => ([], Some [], 0)
  | a :: argv =>
      match open a with
      | None => ([], vprintf (chars "cat: cannot open %s" ++ [10]) false [AStr (Some a)], 1)
      | Some (pieces, failed) =>
          match cat writes n pieces failed with
          | (out, err, Some st) => (out, Some err, st)
          | (out, err, None) =>
              let '(out', err', st) := cat_files writes (n + length pieces) open argv in (out ++ out', err', st)
          end
      end
  end.

Definition cat_main (writes : nat -> list Z -> nat) (stdin : list (list Z) * bool) (open : list Z -> option (list (list Z) * bool))
    (argv : list (list Z)) : list Z * option (list Z) * Z :=
  match argv with
  | [] => let '(out, err, st) := cat writes 0 stdin.1 stdin.2 in (out, Some err, default 0 st)
  | _ => cat_files writes 0 open argv
  end.

(** The arguments after the name of the program. *)
Fixpoint echo (argv : list (list Z)) : list Z :=
  match argv with
  | [] => []
  | a :: argv => a ++ match argv with [] => [10] | _ => [32] end ++ echo argv
  end.

(** ** Definitions: primes *)

(** [read(fd, &c, 1)] of the byte [b]: the low byte of the integer [c] is replaced. *)
Definition set_low (c b : Z) : Z := i32 (u32 c / 256 * 256 + b).

(** The loop of a process.  At the end of the input [read] changes nothing, and the loop
    goes on for ever: [None]. *)
Fixpoint sift (fnum c : Z) (inp : list Z) : option (list Z) :=
  match inp with
  | [] => None
  | b :: inp =>
      let c := set_low c b in
      let out := if Z.rem c fnum =? 0 then [] else [u8 c] in
      if c =? 0 then Some (out ++ [u8 c]) else app out <$> sift fnum c inp
  end.

(** [primes] at depth [d] of the recursion, where the descriptors up to [3 + d] are open
    and [pipe] needs two more; [c0 d] is what the variable [c] holds before the first
    [read].  The numbers printed, in order. *)
Fixpoint primes (fuel d : nat) (c0 : nat -> Z) (inp : list Z) : option (list Z) :=
  match fuel, inp with
  | S fuel, b :: inp =>
      let c := set_low (c0 d) b in
      if c =? 0 then Some []
      else if (NOFILE <=? 5 + d)%nat then None
      else
        out ← sift c c inp;
        cons c <$> primes fuel (S d) c0 out
  | _, _ => None
  end.

Definition primes_main (c0 : nat -> Z) : option (list Z) := primes 32 0 c0 ((u8 <$> seqZ 2 30) ++ [0]).

(** ** Definitions: the random numbers of grind *)

Definition do_rand (ctx : Z) : Z :=
  let x := u64 ctx mod 0x7ffffffe + 1 in
  let hi := Z.quot x 127773 in
  let lo := Z.rem x 127773 in
  let x := i64 (16807 * lo - 2836 * hi) in
  let x := if x <? 0 then i64 (x + 0x7fffffff) else x in
  i64 (x - 1).

(** ** Definitions: xargs *)

(** A pointer in [cmdArgv]: to a string outside the program's buffer, or into [argvBuf]. *)
Inductive arg := Own (s : list Z) | Buf (off : nat).

Record xstate := mkX {
  x_buf : list Z;
  x_argv : list (option arg);
  x_size : nat;
  x_argvi : nat;
  x_bufp : nat
}.

(** What becomes of a line: its [fork] fails, its [exec] fails, or the command runs. *)
Inductive launch := ForkFailed | ExecFailed | Ran.

(** The string that starts [l]. *)
Definition cstr (l : list Z) : list Z := cname (length l) l.

Definition arg_string (buf : list Z) (a : arg) : list Z :=
  match a with Own s => s | Buf off => cstr (drop off buf) end.

(** The arguments [exec] gets: the pointers before the first NULL.  [exec] refuses an
    array of [MAXARG] pointers, the size of [cmdArgv], without one. *)
Fixpoint exec_args (buf : list Z) (argv : list (option arg)) : option (list (list Z)) :=
  match argv with
  | Some a :: argv => cons (arg_string buf a) <$> exec_args buf argv
  | None :: _ => Some []
  | [] => None
  end.

(** The end of a word: a NUL in [argvBuf] and a pointer in [cmdArgv]; [None] if that is
    outside the arrays. *)
Definition end_word (s : xstate) : option xstate :=
  if (x_size s <? length (x_buf s))%nat && (x_argvi s <? length (x_argv s))%nat then
    Some (mkX (<[x_size s := 0]> (x_buf s)) (<[x_argvi s := Some (Buf (x_bufp s))]> (x_argv s)) (x_size s) (x_argvi s) (x_bufp s))
  else None.

(** The loop over a piece of the input; [next] goes on with the rest of the input.  When
    [exec] fails the child goes on with the loop and reads the input to its end, and the
    parent, which waits for it, then sees the end of the input after its piece. *)
Fixpoint xargs_piece (argc : nat) (run : option (list (list Z)) -> launch) (next : xstate -> option (list (list (list Z))))
    (piece : list Z) (s : xstate) : option (list (list (list Z))) :=
  match piece with
  | [] => next s
  | ch :: piece =>
      if ch =? 32 then
        s ← end_word s;
        xargs_piece argc run next piece (mkX (x_buf s) (x_argv s) (S (x_size s)) (S (x_argvi s)) (S (x_size s)))
      else if (ch =? 10) || (ch =? 13) then
        s ← end_word s;
        let args := exec_args (x_buf s) (x_argv s) in
        let s := mkX (x_buf s) (x_argv s) 0 (argc - 1) 0 in
        match run args, args with
        | ForkFailed, _ => Some []
        | Ran, Some args => cons args <$> xargs_piece argc run next piece s
        | _, _ =>
            child ← xargs_piece argc run next piece s;
            parent ← xargs_piece argc run (fun _ => Some []) piece s;
            Some (child ++ parent)
        end
      else if (x_size s <? length (x_buf s))%nat then
        xargs_piece argc run next piece (mkX (<[x_size s := ch]> (x_buf s)) (x_argv s) (S (x_size s)) (x_argvi s) (x_bufp s))
      else None
  end.

Fixpoint xargs_loop (argc : nat) (run : option (list (list Z)) -> launch) (pieces : list (list Z)) (s : xstate) : option (list (list (list Z))) :=
  match pieces with
  | [] => Some []
  | piece :: pieces => xargs_piece argc run (xargs_loop argc run pieces) piece s
  end.

(** The commands that are run, with their arguments; [argv0] and [buf0] are what
    [cmdArgv] and [argvBuf] hold at the start. *)
Definition xargs (argv : list (list Z)) (argv0 : list (option arg)) (buf0 : list Z) (run : option (list (list Z)) -> launch)
    (pieces : list (list Z)) : option (list (list (list Z))) :=
  let own := (fun s => Some (Own s)) <$> drop 1 argv in
  if (length own <=? length argv0)%nat then
    xargs_loop (length argv) run pieces (mkX buf0 (own ++ drop (length own) argv0) 0 (length own) 0)
  else None.

(** ** Definitions: ls and find *)

Record ustat := mkUstat { us_type : Z; us_ino : Z; us_size : Z }.

(** What the system calls say of a path: whether it can be opened, its status through the
    descriptor and through the path, and the directory entries read from it. *)
Record userfs := mkUserfs {
  u_open : list Z -> bool;
  u_fstat : list Z -> option ustat;
  u_stat : list Z -> option ustat;
  u_read : list Z -> list dirent
}.

(** What is printed *)
Inductive line :=
  | CannotOpen (prog path : list Z)
  | CannotStat (prog path : list Z)
  | TooLong (prog : list Z)
  | Listed (name : list Z) (st : ustat) (long : bool)
  | InDir (name : list Z)
  | Compared (r : Z)
  | Found (path name : list Z)
  | BadArgs.

Definition print_line (l : line) : option (list Z) :=
  match l with
  | CannotOpen prog p => vprintf (prog ++ chars ": cannot open %s" ++ [10]) false [AStr (Some p)]
  | CannotStat prog p => vprintf (prog ++ chars ": cannot stat %s" ++ [10]) false [AStr (Some p)]
  | TooLong prog => vprintf (prog ++ chars ": path too long" ++ [10]) false []
  | Listed n st false => vprintf (chars "%s %d %d %d" ++ [10]) false [AStr (Some n); AInt (us_type st); AInt (us_ino st); AInt (us_size st)]
  | Listed n st true => vprintf (chars "%s %d %d %l" ++ [10]) false [AStr (Some n); AInt (us_type st); AInt (us_ino st); ALong (us_size st)]
  | InDir n => vprintf (chars "the file in dir %s" ++ [10]) false [AStr (Some n)]
  | Compared r => vprintf (chars "bufname cmp: %d" ++ [10]) false [AInt r]
  | Found p n => vprintf (chars "%s/%s" ++ [10]) false [AStr (Some p); AStr (Some n)]
  | BadArgs => vprintf (chars "argc error 'find' needs 2 parameters") false []
  end.

(** The characters after the last slash: [p] runs back from the end of the path. *)
Fixpoint after_slash (rev_path acc : list Z) : list Z :=
  match rev_path with
  | [] => acc
  | c :: rev_path => if c =? 47 then acc else after_slash rev_path (c :: acc)
  end.

Definition ls_fmtname (path : list Z) : list Z :=
  let p := after_slash (rev path) [] in
  if (DIRSIZ <=? length p)%nat then p else p ++ replicate (DIRSIZ - length p) 32.

Definition find_fmtname (path : list Z) : list Z := after_slash (rev path) [].

(** The path of a directory entry, built in [buf] *)
Definition entry_path (path : list Z) (de : dirent) : list Z := path ++ 47 :: dname (de_name de).

Definition too_long (path : list Z) : bool := (512 <? length path + 1 + DIRSIZ + 1)%nat.

Definition ls_entry (fs : userfs) (path : list Z) (de : dirent) : list line :=
  if de_inum de =? 0 then []
  else
    let buf := entry_path path de in
    match u_stat fs buf with
    | None => [CannotStat (chars "ls") buf]
    | Some st => [Listed (ls_fmtname buf) st false]
    end.

Definition ls (fs : userfs) (path : list Z) : list line :=
  if negb (u_open fs path) then [CannotOpen (chars "ls") path]
  else
    match u_fstat fs path with
    | None => [CannotStat (chars "ls") path]
    | Some st =>
        if us_type st =? T_FILE then [Listed (ls_fmtname path) st true]
        else if us_type st =? T_DIR then
          if too_long path then [TooLong (chars "ls")] else concat (ls_entry fs path <$> u_read fs path)
        else []
    end.

Definition ls_main (fs : userfs) (argv : list (list Z)) : list line :=
  match argv with [] => ls fs (chars ".") | _ => concat (ls fs <$> argv) end.

(** [strcmp] of two strings *)
Fixpoint str_cmp (s t : list Z) : Z :=
  match s, t with
  | a :: s, b :: t => if a =? b then str_cmp s t else a - b
  | a :: _, [] => a
  | [], b :: _ => - b
  | [], [] => 0
  end.

(** One entry; [rec] is the recursive call. *)
Definition find_entry (fs : userfs) (rec : list Z -> option (list line)) (path filename : list Z) (de : dirent) : option (list line) :=
  if de_inum de =? 0 then Some []
  else
    let buf := entry_path path de in
    match u_stat fs buf with
    | None => Some [CannotStat (chars "find") buf]
    | Some _ =>
        let name := find_fmtname buf in
        let r := str_cmp name (chars ".") in
        let said := [InDir name; Compared r] in
        if (r =? 0) || (str_cmp name (chars "..") =? 0) then Some said
        else if str_cmp name filename =? 0 then Some (said ++ [Found path filename])
        else app said <$> rec buf
    end.

(** The loop over the entries *)
Fixpoint find_entries (fs : userfs) (rec : list Z -> option (list line)) (path filename : list Z) (des : list dirent) : option (list line) :=
  match des with
  | [] => Some []
  | de :: des =>
      out ← find_entry fs rec path filename de;
      app out <$> find_entries fs rec path filename des
  end.

Fixpoint find (fuel : nat) (fs : userfs) (path filename : list Z) : option (list line) :=
  match fuel with
  | O => None
  | S fuel =>
      if negb (u_open fs path) then Some [CannotOpen (chars "find") path]
      else
        match u_fstat fs path with
        | None => Some [CannotStat (chars "find") path]
        | Some st =>
            if us_type st =? T_DIR then
              if too_long path then Some [TooLong (chars "find")]
              else find_entries fs (fun buf => find fuel fs buf filename) path filename (u_read fs path)
            else Some []
        end
  end.

(** The nesting of [find] is bounded by the length of the longest path it opens. *)
Definition find_fuel : nat := 514.

(** The arguments after the name of the program *)
Definition find_main (fs : userfs) (argv : list (list Z)) : option (list line) :=
  match argv with
  | dir :: name :: _ => if str_cmp dir (chars ".") =? 0 then find find_fuel fs (chars ".") name else Some []
  | _ => Some [BadArgs]
  end.

(** ** Specification *)

(** The maximal runs of characters that satisfy [f] not. *)
Fixpoint runs (f : Z -> bool) (cur l : list Z) : list (list Z) :=
  match l with
  | [] => [cur]
  | c :: l => if f c then cur :: runs f [] l else runs f (cur ++ [c]) l
  end.

Definition word_list (l : list Z) : list (list Z) := filter (fun w => w <> []) (runs wc_space [] l).

(** A line of xargs' input *)
Fixpoint join (ws : list (list Z)) : list Z :=
  match ws with
  | [] => []
  | [w] => w
  | w :: ws => w ++ 32 :: join ws
  end.

(** A word: it has no separator and no NUL. *)
Definition word (w : list Z) : Prop := Forall (fun c => c <> 0 /\ c <> 32 /\ c <> 10 /\ c <> 13) w.

(** The entries of a directory that [find] looks at: in use, with a status, and neither
    the directory nor its parent. *)
Definition seen (fs : userfs) (p : list Z) (de : dirent) : Prop :=
  de ∈ u_read fs p /\ de_inum de <> 0 /\ is_Some (u_stat fs (entry_path p de)) /\
  dname (de_name de) <> chars "." /\ dname (de_name de) <> chars "..".

(** A directory that can be searched *)
Definition searchable (fs : userfs) (p : list Z) : Prop :=
  u_open fs p = true /\ (exists st, u_fstat fs p = Some st /\ us_type st = T_DIR) /\ too_long p = false.

(** The paths a search from [p] gets to: it does not enter what has the name it looks for. *)
Inductive visits (fs : userfs) (name p : list Z) : list Z -> Prop :=
  | visits_here : visits fs name p p
  | visits_in q de : searchable fs p -> seen fs p de -> dname (de_name de) <> name ->
      visits fs name (entry_path p de) q -> visits fs name p q.

(** ** Lemmas: wc *)

Lemma wc_loop_concat pieces : wc_loop pieces = fold_left wc_char (concat pieces) (mkCounts 0 0 0 false).
Proof.
  unfold wc_loop. generalize (mkCounts 0 0 0 false). induction pieces as [|p ps IH]; intros s; [done|].
  cbn [fold_left concat]. by rewrite fold_left_app, IH.
Qed.

Definition newlines (l : list Z) : nat := length (filter (fun c => c = 10) l).

(** The words of what is left when [cur] is the word that is being read. *)
Definition words_from (cur l : list Z) : nat := length (filter (fun w => w <> []) (runs wc_space cur l)).

Lemma words_from_cons cur c l :
  words_from cur (c :: l) =
    if wc_space c then ((if decide (cur = []) then 0 else 1) + words_from [] l)%nat else words_from (cur ++ [c]) l.
Proof.
  unfold words_from. cbn [runs]. destruct (wc_space c); [|done]. rewrite filter_cons. by repeat case_decide.
Qed.

Lemma wc_char_eq l w c inword ch :
  0 <= l < 2 ^ 31 - 1 -> 0 <= w < 2 ^ 31 - 1 -> 0 <= c < 2 ^ 31 - 1 ->
  wc_char (mkCounts l w c inword) ch =
    mkCounts (if decide (ch = 10) then l + 1 else l)
      (if wc_space ch then w else if inword then w else w + 1) (c + 1) (negb (wc_space ch)).
Proof.
  intros Hl Hw Hc. unfold wc_char. cbn [wc_l wc_w wc_c wc_inword]. rewrite !i32_small by lia.
  destruct (Z.eqb_spec ch 10), (decide (ch = 10)), (wc_space ch), inword; done.
Qed.

Lemma wc_chars l : forall l0 w0 c0 cur,
  0 <= l0 -> 0 <= w0 -> 0 <= c0 ->
  l0 + Z.of_nat (length l) < 2 ^ 31 -> w0 + Z.of_nat (length l) < 2 ^ 31 -> c0 + Z.of_nat (length l) < 2 ^ 31 ->
  exists s, fold_left wc_char l (mkCounts l0 w0 c0 (bool_decide (cur <> []))) = s /\
  wc_l s = l0 + Z.of_nat (newlines l) /\ wc_c s = c0 + Z.of_nat (length l) /\
  wc_w s + (if decide (cur = []) then 0 else 1) = w0 + Z.of_nat (words_from cur l).
Proof.
  induction l as [|c l IH]; intros l0 w0 c0 cur H1 H2 H3 H4 H5 H6; eexists; (split; [done|]).
  - cbn [fold_left]. unfold newlines, words_from. cbn [runs]. rewrite filter_cons, filter_nil. cbn. repeat case_decide; simpl; try done; lia.
  - cbn [length] in *. cbn [fold_left]. rewrite words_from_cons, wc_char_eq by lia. unfold newlines. rewrite filter_cons. fold (newlines l).
    destruct (wc_space c) eqn:Es; cbn [negb].
    + destruct (IH (if decide (c = 10) then l0 + 1 else l0) w0 (c0 + 1) []) as (s & E & I1 & I2 & I3); try (case_decide; lia); try lia.
      rewrite bool_decide_false in E by (by intros []). rewrite E, I1, I2. rewrite decide_True in I3 by done.
      fold (newlines l). repeat case_decide; simpl; fold (newlines l); lia.
    + assert (c <> 10) by (by intros ->). rewrite !(decide_False (P := c = 10)) by done.
      destruct (IH l0 (if decide (cur = []) then w0 + 1 else w0) (c0 + 1) (cur ++ [c])) as (s & E & I1 & I2 & I3); try (case_decide; lia); try lia.
      rewrite bool_decide_true in E by (by destruct cur). rewrite (decide_False (P := cur ++ [c] = [])) in I3 by (by destruct cur).
      destruct (decide (cur = [])) as [->|Hn].
      * rewrite bool_decide_false by (by intros []). rewrite E, I1, I2. split_and!; [done|lia|]. lia.
      * rewrite bool_decide_true by done. rewrite E, I1, I2. split_and!; [done|lia|]. lia.
Qed.

(** ** Lemmas: cat *)

Lemma cat_all writes n pieces :
  (forall i buf, writes i buf = length buf) -> cat writes n pieces false = (concat pieces, [], None).
Proof.
  intros H. revert n. induction pieces as [|p ps IH]; intros n; cbn [cat concat]; [done|]. by rewrite H, Nat.eqb_refl, IH.
Qed.

(** cat copies its files one after the other. *)
Lemma cat_files_all writes n open argv files :
  (forall i buf, writes i buf = length buf) -> Forall2 (fun a f => open a = Some (f, false)) argv files ->
  cat_files writes n open argv = (concat (concat files), Some [], 0).
Proof.
  intros H Hf. revert n. induction Hf as [|a f argv files Ho _ IH]; intros n; cbn [cat_files]; [done|].
  rewrite Ho, cat_all, IH by done. cbn [concat]. by rewrite concat_app.
Qed.

(** ** Lemmas: primes and the random numbers *)

Lemma set_low_byte c b : 0 <= c < 256 -> 0 <= b < 256 -> set_low c b = b.
Proof. intros Hc Hb. unfold set_low. rewrite (u32_small c), Z.div_small by lia. rewrite i32_small by lia. lia. Qed.

Lemma sift_byte fnum c inp : 0 <= c < 256 -> Forall (fun b => 0 <= b < 256) inp -> sift fnum c inp = sift fnum 0 inp.
Proof. intros Hc Hi. destruct inp as [|b inp]; [done|]. apply Forall_cons in Hi as [Hb Hi]. cbn [sift]. by rewrite !set_low_byte. Qed.

Lemma u8_range x : 0 <= u8 x < 256.
Proof. apply Z.mod_pos_bound. lia. Qed.

Lemma sift_bytes fnum c inp out : sift fnum c inp = Some out -> Forall (fun b => 0 <= b < 256) out.
Proof.
  revert c out. induction inp as [|b inp IH]; intros c out; cbn [sift]; [done|].
  assert (H : Forall (fun b => 0 <= b < 256) (if Z.rem (set_low c b) fnum =? 0 then [] else [u8 (set_low c b)])).
  { case_match; [done|]. apply Forall_singleton, u8_range. }
  destruct (set_low c b =? 0).
  - intros [= <-]. apply Forall_app_2; [done|]. apply Forall_singleton, u8_range.
  - intros (o & Ho & ->)%fmap_Some. apply Forall_app_2; [done|]. by eapply IH.
Qed.

(** What the variable holds before the first [read] does not matter if it is a byte. *)
Lemma primes_bytes fuel d c0 inp :
  (forall i, 0 <= c0 i < 256) -> Forall (fun b => 0 <= b < 256) inp -> primes fuel d c0 inp = primes fuel d (fun _ => 0) inp.
Proof.
  intros Hc. revert d inp. induction fuel as [|fuel IH]; intros d [|b inp] Hi; cbn [primes]; try done.
  apply Forall_cons in Hi as [Hb Hi]. rewrite !set_low_byte by (done || lia). destruct (b =? 0); [done|]. case_match; [done|].
  destruct (sift b b inp) as [out|] eqn:E; [|done]. simpl. rewrite IH; [done|]. by eapply sift_bytes.
Qed.

(** The divisors of a number, by search *)
Definition primeb (n : Z) : bool := (1 <? n) && forallb (fun d => negb (n mod d =? 0)) (seqZ 2 (n - 2)).

Lemma primeb_spec n : primeb n = true <-> Z.prime n.
Proof.
  unfold primeb. rewrite andb_true_iff, Z.ltb_lt, forallb_forall. unfold Z.prime. split; intros [H1 H2]; (split; [done|]).
  - intros d Hd Hdiv. specialize (H2 d). apply Z.mod_divide in Hdiv; [|lia].
    rewrite negb_true_iff, Z.eqb_neq in H2. apply H2; [|done]. apply list_elem_of_In, elem_of_seqZ. lia.
  - intros d Hd. apply list_elem_of_In, elem_of_seqZ in Hd. rewrite negb_true_iff, Z.eqb_neq. intros Hm. apply (H2 d); [lia|].
    apply Z.mod_divide; [lia|done].
Qed.

Lemma i64_small x : - 2 ^ 63 <= x < 2 ^ 63 -> i64 x = x.
Proof.
  intros H. unfold i64, swrap. change (64 - 1) with 63. destruct (decide (0 <= x)).
  - rewrite Z.mod_small by lia. destruct (Z.ltb_spec x (2 ^ 63)); lia.
  - replace (x mod 2 ^ 64) with (x + 2 ^ 64) by (apply Z.mod_unique with (-1); lia).
    destruct (Z.ltb_spec (x + 2 ^ 64) (2 ^ 63)); lia.
Qed.

(** The method of Schrage: the product modulo [2 ^ 31 - 1] without leaving 32 bits. *)
Lemma schrage x :
  0 < x < 0x7fffffff ->
  let r := 16807 * (x mod 127773) - 2836 * (x / 127773) in
  - 0x7fffffff < r < 0x7fffffff /\ r <> 0 /\ (r - 16807 * x) mod 0x7fffffff = 0.
Proof.
  intros Hx r. assert (Hd := Z.div_mod x 127773 ltac:(lia)). assert (Hm := Z.mod_pos_bound x 127773 ltac:(lia)).
  assert (Hq : 0 <= x / 127773 <= 16807) by (split; [apply Z.div_pos|apply Z.lt_succ_r, Z.div_lt_upper_bound]; lia).
  assert (E : r - 16807 * x = - (x / 127773) * 0x7fffffff) by (unfold r; lia).
  assert (Hr : - 0x7fffffff < r < 0x7fffffff) by (unfold r; lia).
  split_and!; [lia|lia| |rewrite E; apply Z.mod_mul; lia].
  intros Hz. rewrite Hz in E. assert (Hdiv : (0x7fffffff | 16807 * x)) by (exists (x / 127773); lia).
  apply Z.gauss in Hdiv; [|done]. destruct Hdiv as [k Hk]. nia.
Qed.

(** ** Properties: the small programs *)

(** [wc] prints the number of newlines, of words and of characters of what it reads,
    however [read] cuts it into pieces. *)
Theorem wc_correct pieces name :
  let text := concat pieces in
  Z.of_nat (length text) < 2 ^ 31 ->
  wc pieces false name =
    (vprintf (chars "%d %d %d %s" ++ [10]) false
       [AInt (Z.of_nat (newlines text)); AInt (Z.of_nat (length (word_list text))); AInt (Z.of_nat (length text)); AStr (Some name)], None).
Proof.
  intros text Hl. unfold wc. rewrite wc_loop_concat. fold text.
  destruct (wc_chars text 0 0 0 []) as (s & E & I1 & I2 & I3); try lia.
  rewrite bool_decide_false in E by (by intros []). rewrite E, I1, I2. rewrite decide_True in I3 by done.
  replace (wc_w s) with (Z.of_nat (length (word_list text))) by (unfold words_from in I3; unfold word_list; lia). done.
Qed.

Lemma wc_correct_witness :
  wc [chars "one two"; chars "s three" ++ [10]] false (chars "f") = (Some (chars "1 3 15 f" ++ [10]), None).
Proof. rewrite (wc_correct [chars "one two"; chars "s three" ++ [10]]); [vm_compute; reflexivity|vm_compute; reflexivity]. Defined.

(** The processes of primes print exactly the prime numbers below 32, in order, and
    all of them end; the descriptors of the eleven nested processes just fit their tables.
    The hypothesis is that the bytes of [c] that [read] does not write are zero. *)
Theorem primes_correct c0 :
  (forall d, 0 <= c0 d < 256) ->
  exists l, primes_main c0 = Some l /\ Sorted Z.lt l /\ forall n, n ∈ l <-> Z.prime n /\ n < 32.
Proof.
  intros Hc. exists (filter (fun n => primeb n = true) (seqZ 2 30)). split; [|split].
  - unfold primes_main. rewrite primes_bytes; [vm_compute; reflexivity|done|]. apply Forall_app_2; [|by repeat constructor].
    apply Forall_fmap, Forall_true. intros x. apply u8_range.
  - vm_compute. repeat constructor.
  - intros n. rewrite list_elem_of_filter, elem_of_seqZ, primeb_spec. split; [intros [H1 H2]; split; [done|lia]|].
    intros [H1 H2]. split; [done|]. apply Z.prime_ge_2 in H1. lia.
Qed.

Lemma primes_correct_witness : exists l, primes_main (fun _ => 7) = Some l /\ 31 ∈ l.
Proof.
  destruct (primes_correct (fun _ => 7)) as (l & E & _ & H); [intros; lia|]. exists l. split; [done|]. apply H.
  split; [by apply primeb_spec|lia].
Defined.

(** If they are not zero, the process that has them prints another number and never ends. *)
Lemma primes_uninitialised : primes_main (fun _ => 256) = None /\ set_low 256 2 = 258.
Proof. split; vm_compute; reflexivity. Qed.

(** The random numbers of grind are those of the minimal standard generator,
    multiplication by [7 ^ 5] modulo the prime [2 ^ 31 - 1], moved down by one; no step
    overflows. *)
Theorem do_rand_correct ctx :
  0 <= ctx < 2 ^ 64 ->
  do_rand ctx = 7 ^ 5 * (ctx mod 0x7ffffffe + 1) mod (2 ^ 31 - 1) - 1 /\ 0 <= do_rand ctx <= 0x7ffffffd.
Proof.
  intros Hctx. unfold do_rand. rewrite u64_small by lia. assert (Hx := Z.mod_pos_bound ctx 0x7ffffffe ltac:(lia)).
  set (x := ctx mod 0x7ffffffe + 1). assert (0 < x < 0x7fffffff) as Hx' by (unfold x; lia). clearbody x.
  rewrite Z.quot_div_nonneg, Z.rem_mod_nonneg by lia. destruct (schrage x Hx') as (Hr & Hz & Hm). cbv zeta in *.
  set (r := 16807 * (x mod 127773) - 2836 * (x / 127773)) in *. clearbody r.
  assert (E : 7 ^ 5 * x mod (2 ^ 31 - 1) = if r <? 0 then r + 0x7fffffff else r).
  { apply Z.mod_divide in Hm as [k Hk]; [|lia]. symmetry. destruct (Z.ltb_spec r 0).
    - apply Z.mod_unique with (- k - 1); lia.
    - apply Z.mod_unique with (- k); lia. }
  rewrite E. rewrite (i64_small r) by lia. destruct (Z.ltb_spec r 0).
  - rewrite (i64_small (r + 0x7fffffff)), i64_small by lia. lia.
  - rewrite i64_small by lia. lia.
Qed.

Lemma do_rand_correct_witness : do_rand 1 = 33613 /\ 0 <= do_rand 33613 <= 0x7ffffffd.
Proof. split; [vm_compute; reflexivity|]. apply (do_rand_correct 33613). lia. Defined.

(** ** Lemmas: xargs *)

(** The words of a line in [argvBuf], and where they start. *)
Fixpoint flat (ws : list (list Z)) : list Z :=
  match ws with [] => [] | w :: ws => w ++ 0 :: flat ws end.

Fixpoint starts (z : nat) (ws : list (list Z)) : list (option arg) :=
  match ws with [] => [] | w :: ws => Some (Buf z) :: starts (z + S (length w)) ws end.

Lemma starts_length z ws : length (starts z ws) = length ws.
Proof. revert z. induction ws; intros z; simpl; auto. Qed.

Lemma insert_mid {A} (l k : list A) x y : <[length l := x]> (l ++ y :: k) = l ++ x :: k.
Proof. rewrite <- (Nat.add_0_r (length l)). by rewrite insert_app_r. Qed.

Lemma cname_word n w l : Forall (fun c => c <> 0) w -> (length w < n)%nat -> cname n (w ++ 0 :: l) = w.
Proof.
  revert n. induction w as [|c w IH]; intros [|n] Hw Hn; simpl in *; try lia; [done|].
  apply Forall_cons in Hw as [Hc Hw]. rewrite (proj2 (Z.eqb_neq c 0)) by done. by rewrite IH by (done || lia).
Qed.

Lemma word_nonzero w : word w -> Forall (fun c => c <> 0) w.
Proof. intros H. eapply Forall_impl; [exact H|]. simpl. tauto. Qed.

Lemma exec_args_own buf ss argv : exec_args buf (((fun s => Some (Own s)) <$> ss) ++ argv) = app ss <$> exec_args buf argv.
Proof.
  induction ss as [|s ss IH]; [simpl; by destruct (exec_args buf argv)|]. rewrite fmap_cons. cbn [app exec_args]. rewrite IH.
  by destruct (exec_args buf argv).
Qed.

Lemma exec_args_starts before ws after argv :
  Forall word ws ->
  exec_args (before ++ flat ws ++ after) (starts (length before) ws ++ argv) = app ws <$> exec_args (before ++ flat ws ++ after) argv.
Proof.
  revert before. induction ws as [|w ws IH]; intros before Hw; simpl; [by destruct (exec_args _ argv)|].
  apply Forall_cons in Hw as [Hw Hws]. specialize (IH (before ++ w ++ [0]) Hws).
  replace (length (before ++ w ++ [0])) with (length before + S (length w))%nat in IH by (rewrite !length_app; simpl; lia).
  replace (before ++ (w ++ 0 :: flat ws) ++ after) with ((before ++ w ++ [0]) ++ flat ws ++ after) by (by rewrite <- !app_assoc).
  rewrite IH. assert (Es : cstr (drop (length before) ((before ++ w ++ [0]) ++ flat ws ++ after)) = w).
  { rewrite <- !app_assoc, drop_app_length. unfold cstr. simpl. apply cname_word; [by apply word_nonzero|rewrite length_app; simpl; lia]. }
  rewrite Es. by destruct (exec_args _ argv).
Qed.

(** The loop as long as every command can be run: the commands, and the state. *)
Definition add_run (args : list (list Z)) (r : list (list (list Z)) * xstate) : list (list (list Z)) * xstate := (args :: r.1, r.2).

Fixpoint xargs_steps (argc : nat) (piece : list Z) (s : xstate) : option (list (list (list Z)) * xstate) :=
  match piece with
  | [] => Some ([], s)
  | ch :: piece =>
      if ch =? 32 then
        s ← end_word s;
        xargs_steps argc piece (mkX (x_buf s) (x_argv s) (S (x_size s)) (S (x_argvi s)) (S (x_size s)))
      else if (ch =? 10) || (ch =? 13) then
        s ← end_word s;
        args ← exec_args (x_buf s) (x_argv s);
        add_run args <$> xargs_steps argc piece (mkX (x_buf s) (x_argv s) 0 (argc - 1) 0)
      else if (x_size s <? length (x_buf s))%nat then
        xargs_steps argc piece (mkX (<[x_size s := ch]> (x_buf s)) (x_argv s) (S (x_size s)) (x_argvi s) (x_bufp s))
      else None
  end.

Lemma xargs_word argc w more before rest argv i p :
  word w -> (length w <= length rest)%nat ->
  xargs_steps argc (w ++ more) (mkX (before ++ rest) argv (length before) i p) =
  xargs_steps argc more (mkX ((before ++ w) ++ drop (length w) rest) argv (length (before ++ w)) i p).
Proof.
  revert before rest. induction w as [|c w IH]; intros before rest Hw Hl; [by rewrite app_nil_r|].
  destruct rest as [|r rest]; simpl in Hl; [lia|]. apply Forall_cons in Hw as [Hc Hw]. cbn [app xargs_steps x_size x_buf x_argv x_argvi x_bufp].
  rewrite !(proj2 (Z.eqb_neq c _)) by tauto. cbn [orb].
  rewrite (proj2 (Nat.ltb_lt _ _)) by (rewrite length_app; simpl; lia).
  rewrite insert_mid.
  replace (before ++ c :: rest) with ((before ++ [c]) ++ rest) by (by rewrite <- app_assoc).
  replace (S (length before)) with (length (before ++ [c])) by (rewrite length_app; simpl; lia).
  rewrite IH by (done || lia). by rewrite <- !(app_assoc before).
Qed.

Lemma end_word_eq before r rest pre slot slots p :
  end_word (mkX (before ++ r :: rest) (pre ++ slot :: slots) (length before) (length pre) p) =
    Some (mkX (before ++ 0 :: rest) (pre ++ Some (Buf p) :: slots) (length before) (length pre) p).
Proof.
  unfold end_word. cbn [x_size x_buf x_argv x_argvi x_bufp].
  rewrite !(proj2 (Nat.ltb_lt _ _)) by (rewrite length_app; simpl; lia). cbn [andb].
  by rewrite !insert_mid.
Qed.

Lemma drop_more (w rest : list Z) : (length w < length rest)%nat -> exists r, drop (length w) rest = r :: drop (S (length w)) rest.
Proof. intros H. destruct (lookup_lt_is_Some_2 _ _ H) as [r Hr]. exists r. by apply drop_S. Qed.

(** A line is copied into [argvBuf], its words are put into [cmdArgv] after the arguments
    that are there, and the command is run with what [cmdArgv] then holds. *)
Lemma xargs_line argc ws : forall w more before rest pre slots args,
  Forall word (w :: ws) -> (length (flat (w :: ws)) <= length rest)%nat -> (length (w :: ws) <= length slots)%nat ->
  let buf := before ++ flat (w :: ws) ++ drop (length (flat (w :: ws))) rest in
  let argv := pre ++ starts (length before) (w :: ws) ++ drop (length (w :: ws)) slots in
  exec_args buf argv = Some args ->
  xargs_steps argc (join (w :: ws) ++ 10 :: more) (mkX (before ++ rest) (pre ++ slots) (length before) (length pre) (length before)) =
  add_run args <$> xargs_steps argc more (mkX buf argv 0 (argc - 1) 0).
Proof.
  induction ws as [|w' ws IH]; intros w more before rest pre slots args Hw Hr Hs buf argv E;
    apply Forall_cons in Hw as [Hw Hws]; (destruct slots as [|sl slots]; [simpl in Hs; lia|]);
    assert (Hl : (length w < length rest)%nat) by (cbn [flat] in Hr; rewrite length_app in Hr; simpl in Hr; lia);
    destruct (drop_more w rest Hl) as [r Er].
  - cbn [join]. rewrite xargs_word, Er by (done || lia). cbn [xargs_steps Z.eqb Pos.eqb orb]. rewrite end_word_eq. cbn [mbind option_bind x_buf x_argv].
    replace ((before ++ w) ++ 0 :: drop (S (length w)) rest) with buf
      by (unfold buf; cbn [flat]; rewrite length_app, Nat.add_1_r, <- !app_assoc; done).
    change (pre ++ Some (Buf (length before)) :: slots) with argv. by rewrite E.
  - change (join (w :: w' :: ws)) with (w ++ 32 :: join (w' :: ws)). rewrite <- app_assoc. rewrite xargs_word, Er by (done || lia).
    rewrite <- app_comm_cons. cbn [xargs_steps Z.eqb Pos.eqb orb]. rewrite end_word_eq. cbn [mbind option_bind x_buf x_argv x_size x_argvi].
    specialize (IH w' more ((before ++ w) ++ [0]) (drop (S (length w)) rest) (pre ++ [Some (Buf (length before))]) slots args Hws).
    assert (Hf : length (flat (w :: w' :: ws)) = (S (length w) + length (flat (w' :: ws)))%nat) by (cbn [flat]; rewrite length_app; cbn [length]; lia).
    assert (Hb : length ((before ++ w) ++ [0]) = S (length (before ++ w))) by (rewrite length_app; simpl; lia).
    assert (Hp : length (pre ++ [Some (Buf (length before))]) = S (length pre)) by (rewrite length_app; simpl; lia).
    assert (Eb : ((before ++ w) ++ [0]) ++ flat (w' :: ws) ++ drop (length (flat (w' :: ws))) (drop (S (length w)) rest) = buf).
    { unfold buf. rewrite Hf, drop_drop. change (flat (w :: w' :: ws)) with (w ++ [0] ++ flat (w' :: ws)). by rewrite <- !app_assoc. }
    assert (Ea : (pre ++ [Some (Buf (length before))]) ++ starts (length ((before ++ w) ++ [0])) (w' :: ws) ++ drop (length (w' :: ws)) slots = argv).
    { unfold argv. rewrite <- app_assoc. cbn [app starts]. rewrite !length_app. cbn [length].
      by replace (length before + length w + 1)%nat with (length before + S (length w))%nat by lia. }
    cbv zeta in IH. rewrite Eb, Ea, Hb, Hp, <- !(app_assoc _ [_]) in IH. cbn [app] in IH. apply IH; [|simpl in *; lia|done].
    rewrite length_drop. lia.
Qed.


Lemma xargs_piece_steps argc run next piece : forall s out t,
  (forall args, run (Some args) = Ran) -> xargs_steps argc piece s = Some (out, t) ->
  xargs_piece argc run next piece s = app out <$> next t.
Proof.
  induction piece as [|c piece IH]; intros s out t Hr; cbn [xargs_steps xargs_piece].
  - intros [= <- <-]. by destruct (next s).
  - destruct (c =? 32); [destruct (end_word s); [apply IH, Hr|done]|]. destruct (_ || _); [|case_match; [apply IH, Hr|done]].
    destruct (end_word s) as [u|]; [|done]. cbn [mbind option_bind]. destruct (exec_args _ _) as [args|]; [|done].
    cbn [mbind option_bind]. rewrite Hr. intros ([out' t'] & E & [= -> ->])%fmap_Some. rewrite (IH _ _ _ Hr E). by destruct (next t').
Qed.

Lemma xargs_steps_app argc p q : forall s out t,
  xargs_steps argc (p ++ q) s = Some (out, t) ->
  exists out1 out2 u, xargs_steps argc p s = Some (out1, u) /\ xargs_steps argc q u = Some (out2, t) /\ out = out1 ++ out2.
Proof.
  induction p as [|c p IH]; intros s out t; cbn [app xargs_steps]; [intros H; by exists [], out, s|].
  destruct (c =? 32); [destruct (end_word s); [apply IH|done]|]. destruct (_ || _); [|case_match; [apply IH|done]].
  destruct (end_word s) as [u|]; [|done]. cbn [mbind option_bind]. destruct (exec_args _ _) as [args|]; [|done].
  cbn [mbind option_bind]. intros ([out' t'] & E & [= -> ->])%fmap_Some. destruct (IH _ _ _ E) as (o1 & o2 & v & E1 & E2 & ->).
  exists (args :: o1), o2, v. by rewrite E1.
Qed.

(** The pieces of the input do not matter as long as every command can be run. *)
Lemma xargs_loop_steps argc run pieces : forall s out t,
  (forall args, run (Some args) = Ran) -> xargs_steps argc (concat pieces) s = Some (out, t) -> xargs_loop argc run pieces s = Some out.
Proof.
  induction pieces as [|p ps IH]; intros s out t Hr; cbn [concat xargs_loop]; [by intros [= <- <-]|].
  intros (o1 & o2 & u & E1 & E2 & ->)%xargs_steps_app. rewrite (xargs_piece_steps _ _ _ _ _ _ _ Hr E1), (IH _ _ _ Hr E2). done.
Qed.

Definition line_text (ws : list (list Z)) : list Z := join ws ++ [10].

(** A line with [k] words that fits the buffer. *)
Definition good_line (k size : nat) (ws : list (list Z)) : Prop := length ws = k /\ Forall word ws /\ (length (flat ws) <= size)%nat.

Lemma xargs_lines argc own k lines : forall buf slots,
  (0 < k)%nat -> (argc - 1)%nat = length own -> Forall (good_line k (length buf)) lines -> slots !! k = Some None ->
  exists t, xargs_steps argc (concat (line_text <$> lines))
    (mkX buf (((fun s => Some (Own s)) <$> own) ++ slots) 0 (length own) 0) = Some (app own <$> lines, t).
Proof.
  induction lines as [|ws lines IH]; intros buf slots Hk Hargc Hl Hn; [by eexists|].
  apply Forall_cons in Hl as [(Hlen & Hw & Hf) Hl]. destruct ws as [|w ws]; [simpl in Hlen; lia|]. rewrite !fmap_cons. cbn [concat].
  unfold line_text at 1. rewrite <- app_assoc. cbn [app]. set (pre := (fun s => Some (Own s)) <$> own).
  assert (Hp : length pre = length own) by apply length_fmap.
  assert (Hd : drop (length (w :: ws)) slots = None :: drop (S k) slots) by (rewrite Hlen; by apply drop_S).
  pose proof (xargs_line argc ws w (concat (line_text <$> lines)) [] buf pre slots (own ++ w :: ws) Hw Hf) as Hx.
  cbv zeta in Hx. rewrite Hp, Hd in Hx. cbn [app] in Hx. change (length (@nil Z)) with 0%nat in Hx. rewrite Hx; clear Hx.
  - rewrite Hargc. unfold pre. destruct (IH (flat (w :: ws) ++ drop (length (flat (w :: ws))) buf) (starts 0 (w :: ws) ++ None :: drop (S k) slots)) as [t Et]; [done|done| | |].
    + eapply Forall_impl; [exact Hl|]. intros l (H1 & H2 & H3). split_and!; [done|done|]. rewrite length_app, length_drop. lia.
    + rewrite lookup_app_r; rewrite starts_length, Hlen; [|done]. by rewrite Nat.sub_diag.
    + rewrite Et. by eexists.
  - apply lookup_lt_Some in Hn. lia.
  - unfold pre. rewrite exec_args_own. pose proof (exec_args_starts [] (w :: ws) (drop (length (flat (w :: ws))) buf) (None :: drop (S k) slots) Hw) as E.
    change (length (@nil Z)) with 0%nat in E. cbn [app] in E. rewrite E. simpl. by rewrite app_nil_r.
Qed.

(** ** Properties: xargs *)

(** Xargs runs its command once for every line of its input, with its own arguments
    and then the words of the line, whatever the pieces of the input are, when every line
    has the same number of words and the slot of [cmdArgv] after them happens to be NULL. *)
Theorem xargs_correct argv argv0 buf0 run pieces k lines :
  (forall args, run (Some args) = Ran) -> (0 < k)%nat -> concat pieces = concat (line_text <$> lines) ->
  Forall (good_line k (length buf0)) lines -> argv0 !! (length (drop 1 argv) + k)%nat = Some None ->
  xargs argv argv0 buf0 run pieces = Some (app (drop 1 argv) <$> lines).
Proof.
  intros Hrun Hk Hp Hl Hn. unfold xargs. rewrite length_fmap. assert (Hlt := lookup_lt_Some _ _ _ Hn).
  rewrite (proj2 (Nat.leb_le _ _)) by lia. destruct (xargs_lines (length argv) (drop 1 argv) k lines buf0 (drop (length (drop 1 argv)) argv0)) as [t Et];
    [done|rewrite length_drop; lia|done|by rewrite lookup_drop|].
  rewrite <- Hp in Et. by apply (xargs_loop_steps _ _ _ _ _ _ Hrun Et).
Qed.

Lemma xargs_correct_witness :
  xargs [chars "xargs"; chars "echo"] (replicate 32 None) (replicate 512 7) (fun _ => Ran)
    [chars "a" ++ [10] ++ chars "b"; chars "c" ++ [10]] = Some [[chars "echo"; chars "a"]; [chars "echo"; chars "bc"]].
Proof.
  rewrite (xargs_correct _ _ _ _ _ 1 [[chars "a"]; [chars "bc"]]); [reflexivity|done|lia|reflexivity| |reflexivity].
  apply Forall_cons; split; [|apply Forall_singleton]; (split; [reflexivity|split; [by repeat constructor|vm_compute; lia]]).
Defined.

(** The pointers of an earlier, longer line stay in [cmdArgv]: even when the array starts
    with NULLs, the second command gets a word of the first line. *)
Lemma xargs_stale_words :
  xargs [chars "xargs"; chars "echo"] (replicate 32 None) (replicate 512 7) (fun _ => Ran)
    [chars "a b" ++ [10] ++ chars "c" ++ [10]] = Some [[chars "echo"; chars "a"; chars "b"]; [chars "echo"; chars "c"; chars "b"]].
Proof. vm_compute. reflexivity. Qed.

(** And what the array holds at the start goes to the first command. *)
Lemma xargs_uninitialised garbage :
  xargs [chars "xargs"; chars "echo"] (replicate 2 None ++ [Some (Own garbage)] ++ replicate 29 None) (replicate 512 7) (fun _ => Ran)
    [chars "a" ++ [10]] = Some [[chars "echo"; chars "a"; garbage]].
Proof. vm_compute. reflexivity. Qed.

(** ** Lemmas: ls and find *)

Lemma after_slash_app n r acc : 47 ∉ n -> after_slash (n ++ 47 :: r) acc = rev n ++ acc.
Proof.
  revert acc. induction n as [|c n IH]; intros acc Hn; simpl; [done|]. apply not_elem_of_cons in Hn as [Hc Hn].
  rewrite (proj2 (Z.eqb_neq c 47)) by done. rewrite IH by done. by rewrite <- app_assoc.
Qed.

(** The last component of a path *)
Lemma after_slash_name p n : 47 ∉ n -> after_slash (rev (p ++ 47 :: n)) [] = n.
Proof.
  intros Hn. rewrite rev_app_distr. simpl. rewrite <- app_assoc. simpl. rewrite after_slash_app.
  - by rewrite rev_involutive, app_nil_r.
  - rewrite list_elem_of_In, <- in_rev. by rewrite <- list_elem_of_In.
Qed.

(** A name is shown in a column of [DIRSIZ] characters. *)
Lemma ls_fmtname_column p n :
  47 ∉ n -> (length n <= DIRSIZ)%nat -> ls_fmtname (p ++ 47 :: n) = n ++ replicate (DIRSIZ - length n) 32 /\ length (ls_fmtname (p ++ 47 :: n)) = DIRSIZ.
Proof.
  intros Hn Hl. unfold ls_fmtname. rewrite after_slash_name by done. destruct (Nat.leb_spec DIRSIZ (length n)).
  - replace (DIRSIZ - length n)%nat with 0%nat by lia. rewrite app_nil_r. split; [done|lia].
  - split; [done|]. rewrite length_app, length_replicate. lia.
Qed.

(** [str_cmp] is what the library's [strcmp] computes on strings in memory. *)
Lemma strcmp_str_cmp m s : forall t p q,
  Forall (fun c => c <> 0) s -> Forall (fun c => c <> 0) t ->
  mread m p (S (length s)) = s ++ [0] -> mread m q (S (length t)) = t ++ [0] ->
  strcmp (S (length s)) m p q = Some (str_cmp s t).
Proof.
  unfold strcmp, truthy. fold strcmp.
  induction s as [|a s IH]; intros t p q Hs Ht Ep Eq; cbn [length] in Ep; rewrite mread_S in Ep; apply (inj2 cons) in Ep as [Ea Ep];
    (destruct t as [|b t]; cbn [length] in Eq; rewrite mread_S in Eq; apply (inj2 cons) in Eq as [Eb Eq]); rewrite Ea, Eb; [done|done| |].
  - apply Forall_cons in Hs as [Ha _]. rewrite (proj2 (Z.eqb_neq a 0)) by done. simpl. by rewrite Z.sub_0_r.
  - apply Forall_cons in Hs as [Ha Hs], Ht as [Hb Ht]. rewrite (proj2 (Z.eqb_neq a 0)) by done. cbn [negb andb str_cmp].
    destruct (a =? b); [|done]. by apply IH.
Qed.

Lemma str_cmp_eq s t : Forall (fun c => c <> 0) s -> Forall (fun c => c <> 0) t -> str_cmp s t = 0 <-> s = t.
Proof.
  revert t. induction s as [|a s IH]; intros [|b t] Hs Ht; simpl; try done.
  - apply Forall_cons in Ht as [Hb _]. split; [lia|done].
  - apply Forall_cons in Hs as [Ha _]. split; done.
  - apply Forall_cons in Hs as [Ha Hs], Ht as [Hb Ht]. destruct (Z.eqb_spec a b) as [->|Hab].
    + rewrite IH by done. split; [by intros ->|by intros [= ->]].
    + split; [lia|congruence].
Qed.

Lemma cname_nonzero n l : Forall (fun c => c <> 0) (cname n l).
Proof. revert l. induction n as [|n IH]; intros [|c l]; simpl; try constructor. destruct (Z.eqb_spec c 0); by constructor. Qed.

Section find.
Context (fs : userfs) (name : list Z).
Hypothesis name_ok : Forall (fun c => c <> 0) name.
Hypothesis no_slash : forall p de, de ∈ u_read fs p -> 47 ∉ dname (de_name de).

(** The entries a search has in [des] *)
Definition looked_at (path : list Z) (des : list dirent) (de : dirent) : Prop :=
  de ∈ des /\ de_inum de <> 0 /\ is_Some (u_stat fs (entry_path path de)) /\
  dname (de_name de) <> chars "." /\ dname (de_name de) <> chars "..".

(** What an entry adds to the paths that are found *)
Lemma find_entry_found rec (P : list Z -> list Z -> Prop) path de out :
  47 ∉ dname (de_name de) -> (forall buf o, rec buf = Some o -> forall q, Found q name ∈ o <-> P buf q) ->
  find_entry fs rec path name de = Some out ->
  forall q, Found q name ∈ out <->
    looked_at path [de] de /\ (dname (de_name de) = name /\ q = path \/ dname (de_name de) <> name /\ P (entry_path path de) q).
Proof.
  intros Hs HP E q. unfold find_entry in E. unfold looked_at. rewrite list_elem_of_singleton.
  destruct (Z.eqb_spec (de_inum de) 0); [injection E as <-; set_solver|].
  destruct (u_stat fs (entry_path path de)) as [st|] eqn:Est; [|injection E as <-; rewrite list_elem_of_singleton; split; [done|intros ((_ & _ & [? ?] & _) & _); congruence]].
  unfold find_fmtname, entry_path in E. rewrite after_slash_name in E by done. fold (entry_path path de) in E.
  set (nm := dname (de_name de)) in *. assert (Hnm : Forall (fun c => c <> 0) nm) by apply cname_nonzero.
  assert (H1 := str_cmp_eq nm (chars ".") Hnm ltac:(by repeat constructor)).
  assert (H2 := str_cmp_eq nm (chars "..") Hnm ltac:(by repeat constructor)).
  assert (H3 := str_cmp_eq nm name Hnm name_ok).
  destruct (Z.eqb_spec (str_cmp nm (chars ".")) 0) as [E1|E1], (Z.eqb_spec (str_cmp nm (chars "..")) 0) as [E2|E2]; cbn [orb] in E;
    try (injection E as <-; rewrite !elem_of_cons, elem_of_nil; split; [intuition discriminate|intros ((_ & _ & _ & ? & ?) & _); tauto]).
  assert (H : is_Some (Some st) /\ nm <> chars "." /\ nm <> chars "..") by (split_and!; [by eexists|tauto|tauto]).
  destruct (Z.eqb_spec (str_cmp nm name) 0) as [E3|E3].
  - injection E as <-. rewrite !elem_of_cons, elem_of_nil. split.
    + intros [?|[?|[[= ->]|?]]]; try done. split; [tauto|]. left. tauto.
    + intros (_ & [[_ ->]|[? _]]); [tauto|]. tauto.
  - apply fmap_Some in E as (o & Eo & ->). rewrite elem_of_app, !elem_of_cons, elem_of_nil, (HP _ _ Eo q). split.
    + intros [[?|[?|?]]|?]; try done. split; [tauto|]. right. tauto.
    + intros (_ & [[? _]|[_ ?]]); tauto.
Qed.

Lemma find_entries_found rec (P : list Z -> list Z -> Prop) path des : forall out,
  Forall (fun de => 47 ∉ dname (de_name de)) des -> (forall buf o, rec buf = Some o -> forall q, Found q name ∈ o <-> P buf q) ->
  find_entries fs rec path name des = Some out ->
  forall q, Found q name ∈ out <->
    exists de, looked_at path des de /\ (dname (de_name de) = name /\ q = path \/ dname (de_name de) <> name /\ P (entry_path path de) q).
Proof.
  induction des as [|de des IH]; intros out Hs HP E q; cbn [find_entries] in E.
  - injection E as <-. unfold looked_at. split; [set_solver|]. intros (de & (? & _) & _). set_solver.
  - apply Forall_cons in Hs as [Hs Hss]. destruct (find_entry fs rec path name de) as [o1|] eqn:E1; [|done]. cbn [mbind option_bind] in E.
    apply fmap_Some in E as (o2 & E2 & ->). rewrite elem_of_app, (find_entry_found rec P path de o1 Hs HP E1 q), (IH o2 Hss HP E2 q).
    unfold looked_at. split.
    + intros [H|(d & H & H')]; [exists de|exists d]; set_solver.
    + intros (d & ([->|Hd]%elem_of_cons & H) & H'); [left|right; exists d]; set_solver.
Qed.

Lemma find_entries_total rec path des :
  (forall de, is_Some (rec (entry_path path de))) -> is_Some (find_entries fs rec path name des).
Proof.
  intros Hr. induction des as [|de des [o IH]]; [by eexists|]. cbn [find_entries].
  assert (is_Some (find_entry fs rec path name de)) as [o1 ->].
  { unfold find_entry. destruct (Hr de) as [o' Eo]. rewrite Eo. repeat case_match; by eexists. }
  rewrite IH. by eexists.
Qed.

(** The paths get longer with every call, and long paths are not searched. *)
Lemma find_total fuel path : (498 < length path + fuel)%nat -> (0 < fuel)%nat -> is_Some (find fuel fs path name).
Proof.
  revert path. induction fuel as [|fuel IH]; intros path Hf Hp; [lia|]. cbn [find].
  destruct (u_open fs path); [|by eexists]. cbn [negb]. destruct (u_fstat fs path) as [st|]; [|by eexists].
  destruct (us_type st =? T_DIR); [|by eexists]. destruct (too_long path) eqn:Et; [by eexists|].
  apply Nat.ltb_ge in Et. change DIRSIZ with 14%nat in Et. apply find_entries_total. intros de.
  assert (Hl : (S (length path) <= length (entry_path path de))%nat) by (unfold entry_path; rewrite length_app; simpl; lia).
  apply IH; lia.
Qed.

(** A file with the name is in the directory [q], which a search from [path] gets to. *)
Definition finds (path q : list Z) : Prop :=
  visits fs name path q /\ searchable fs q /\ exists de, seen fs q de /\ dname (de_name de) = name.

Lemma finds_step path q :
  searchable fs path ->
  finds path q <-> exists de, seen fs path de /\ (dname (de_name de) = name /\ q = path \/ dname (de_name de) <> name /\ finds (entry_path path de) q).
Proof.
  intros Hs. unfold finds. split.
  - intros (Hv & Hq & de' & Hd & Hn). destruct Hv as [|q de _ Hde Hne Hv]; [by exists de'; auto|]. exists de. split; [done|]. right. eauto 10.
  - intros (de & Hd & [[Hn ->]|(Hn & Hv & Hq & H)]); (split; [|eauto]); [apply visits_here|by eapply visits_in].
Qed.

Lemma finds_searchable path q : finds path q -> searchable fs path.
Proof. intros (Hv & Hq & _). by destruct Hv. Qed.

Lemma find_found fuel : forall path out, find fuel fs path name = Some out -> forall q, Found q name ∈ out <-> finds path q.
Proof.
  induction fuel as [|fuel IH]; intros path out E q; cbn [find] in E; [done|].
  assert (Hno : ~ searchable fs path -> Found q name ∉ out -> Found q name ∈ out <-> finds path q).
  { intros Hs Ho. split; [done|]. intros H. by apply finds_searchable in H. }
  destruct (u_open fs path) eqn:Eo; cbn [negb] in E; [|injection E as <-; apply Hno; [unfold searchable; naive_solver congruence|set_solver]].
  destruct (u_fstat fs path) as [st|] eqn:Ef; [|injection E as <-; apply Hno; [unfold searchable; naive_solver congruence|set_solver]].
  destruct (Z.eqb_spec (us_type st) T_DIR) as [Et|Et]; [|injection E as <-; apply Hno; [unfold searchable; naive_solver congruence|set_solver]].
  destruct (too_long path) eqn:El; [injection E as <-; apply Hno; [unfold searchable; naive_solver congruence|set_solver]|].
  rewrite finds_step by (split; eauto).
  apply (find_entries_found (fun buf => find fuel fs buf name) finds path (u_read fs path) out); [|done|done].
  apply Forall_forall. intros de. apply no_slash.
Qed.
End find.

(** ** Properties: find *)

(** A search ends, however deep or cyclic the directories are, and prints the path of
    an entry with the name exactly when the search can get to its directory: through
    directories that can be opened and have short paths, none of them with that name. *)
Theorem find_correct fs name path :
  Forall (fun c => c <> 0) name -> (forall p de, de ∈ u_read fs p -> 47 ∉ dname (de_name de)) ->
  exists out, find find_fuel fs path name = Some out /\
    forall q, Found q name ∈ out <->
      visits fs name path q /\ searchable fs q /\ exists de, seen fs q de /\ dname (de_name de) = name.
Proof.
  intros Hn Hs. destruct (find_total fs name find_fuel path) as [out Eo]; [unfold find_fuel; lia|unfold find_fuel; lia|].
  exists out. split; [done|]. by apply (find_found fs name Hn Hs find_fuel).
Qed.

(** A directory with itself, a file and a directory with another file of that name *)
Definition sample_userfs : userfs :=
  let dir := mkUstat T_DIR 1 64 in
  let de (i : Z) (n : string) := mkDirent i (chars n ++ replicate (DIRSIZ - length (chars n)) 0) in
  mkUserfs (fun _ => true)
    (fun p => if decide (p = chars "." \/ p = chars "./d") then Some dir else Some (mkUstat T_FILE 3 5))
    (fun p => Some dir)
    (fun p => if decide (p = chars ".") then [de 1 "."; de 2 "d"; de 3 "f"; de 0 "x"]
              else if decide (p = chars "./d") then [de 2 "."; de 4 "f"] else []).

Lemma find_correct_witness : visits sample_userfs (chars "f") (chars ".") (chars "./d").
Proof.
  destruct (find_correct sample_userfs (chars "f") (chars ".")) as (out & E & H).
  - by repeat constructor.
  - intros p de Hd. simpl in Hd. repeat case_decide; rewrite ?elem_of_cons, ?elem_of_nil in Hd; naive_solver (vm_compute; set_solver).
  - apply H. vm_compute in E. injection E as <-. apply list_elem_of_In. vm_compute. tauto.
Defined.

(** The search starts only from the current directory: with another directory as its
    argument the program prints nothing. *)
Lemma find_only_here fs dir name rest :
  Forall (fun c => c <> 0) dir -> dir <> chars "." -> find_main fs (dir :: name :: rest) = Some [].
Proof.
  intros Hd Hn. unfold find_main. destruct (Z.eqb_spec (str_cmp dir (chars ".")) 0) as [E|]; [|done].
  apply str_cmp_eq in E; [done|done|by repeat constructor].
Qed.
