(* ===== verification/Progs.v ===== *)
(** * Small user programs (user/kill.c, user/ln.c, user/mkdir.c, user/rm.c, user/sleep.c,
    user/zombie.c, user/init.c, user/pingpong.c, user/forktest.c, user/stressfs.c,
    user/grind.c)

    The programs that are sequences and loops of system calls, as trees of Sys.v.  [init]
    keeps one shell running, and [grind] never runs out of descriptors. *)

From ITree Require Import ITree.
From S2P Require Import Prelude Strings State Spin Uart Printf FsBlock FsInode Ulib Utils Sys.

(** ** Definitions: commands *)

Definition kill_main (argv : list (list Z)) : prog unit :=
  check (length argv <? 2)%nat (fprintf 2 "usage: kill pid..."\n [] ;! exit 1) ;!
  each (tail argv) (fun a => kill (atoi a) ;! Ret tt) ;!
  exit 0.

Definition ln_main (argv : list (list Z)) : prog unit :=
  match argv with
  | [_; old; new] =>
      let! r := link old new in
      check (r <? 0) (fprintf 2 "link %s %s: failed"\n [AStr (Some old); AStr (Some new)]) ;!
      exit 0
  | _ => fprintf 2 "Usage: ln old new"\n [] ;! exit 1
  end.

(** The loops of mkdir and rm stop at the first name that fails. *)
Fixpoint mkdir_loop (names : list (list Z)) : prog unit :=
  match names with
  | [] => Ret tt
  | a :: names =>
      let! r := mkdir a in
      if r <? 0 then fprintf 2 "mkdir: %s failed to create"\n [AStr (Some a)] else mkdir_loop names
  end.

Definition mkdir_main (argv : list (list Z)) : prog unit :=
  check (length argv <? 2)%nat (fprintf 2 "Usage: mkdir files..."\n [] ;! exit 1) ;!
  mkdir_loop (tail argv) ;!
  exit 0.

Fixpoint rm_loop (names : list (list Z)) : prog unit :=
  match names with
  | [] => Ret tt
  | a :: names =>
      let! r := unlink a in
      if r <? 0 then fprintf 2 "rm: %s failed to delete"\n [AStr (Some a)] else rm_loop names
  end.

Definition rm_main (argv : list (list Z)) : prog unit :=
  check (length argv <? 2)%nat (fprintf 2 "Usage: rm files..."\n [] ;! exit 1) ;!
  rm_loop (tail argv) ;!
  exit 0.

Definition sleep_main (argv : list (list Z)) : prog unit :=
  match argv with
  | [_; a] =>
      let num_of_tick := atoi a in
      let! r := sleep num_of_tick in
      check (r <? 0) (printf "Can not sleep"\n [] ;! exit (-1)) ;!
      exit 0
  | _ => printf "Error Example:sleep 2"\n [] ;! exit (-1)
  end.

Definition zombie_main : prog unit :=
  let! pid := fork in
  check (0 <? pid) (sleep 5 ;! Ret tt) ;!
  exit 0.

(** ** Definitions: init *)

Definition CONSOLE_MAJOR : Z := 1.

(** The inner loop: [wait] until the shell [pid] has exited. *)
Definition init_wait (pid : Z) : prog unit :=
  ITree.iter (fun _ : unit =>
    let! w := wait in
    if w.1 =? pid then Ret (inr tt)
    else if w.1 <? 0 then
      printf "init: wait returned an error"\n [] ;!
      exit 1
    else Ret (inl tt)) tt.

(** A round of the outer loop. *)
Definition init_round : prog unit :=
  printf "init: starting sh"\n [] ;!
  let! pid := fork in
  check (pid <? 0) (printf "init: fork failed"\n [] ;! exit 1) ;!
  check (pid =? 0) (exec "sh" ["sh" : ubuf] ;! printf "init: exec sh failed"\n [] ;! exit 1) ;!
  init_wait pid.

Definition init_main : prog unit :=
  let! fd := open "console" O_RDWR in
  check (fd <? 0) (mknod "console" CONSOLE_MAJOR 0 ;! open "console" O_RDWR ;! Ret tt) ;!
  dup 0 ;!
  dup 0 ;!
  forever init_round.

(** ** Definitions: pingpong *)

(** [c] is one byte; a read that stores nothing leaves it as it was. *)
Definition received (c : Z) (r : Z * list Z) : Z := default c (head r.2).

Definition pingpong_child (pTos sTop : Z * Z) : prog unit :=
  close pTos.2 ;!
  close sTop.1 ;!
  let! n := write sTop.2 "a" 1 in
  check (n <? 0) (printf "write failed"\n [] ;! exit (-1)) ;!
  let! r := read pTos.1 1 in
  check (r.1 <? 0) (printf "read error" [] ;! exit (-1)) ;!
  let! spid := getpid in
  check ((0 <? r.1) && negb (received 0 r =? 0)) (printf "<%d>:received ping"\n [AInt spid]) ;!
  exit 0.

Definition pingpong_parent (p_pid : Z) (pTos sTop : Z * Z) : prog unit :=
  close pTos.1 ;!
  close sTop.2 ;!
  let! n := write pTos.2 "a" 1 in
  check (n <? 0) (printf "write failed"\n [] ;! exit (-1)) ;!
  wait ;!
  let! r := read sTop.1 1 in
  check (r.1 <? 0) (printf "read error" [] ;! exit (-1)) ;!
  check ((0 <? r.1) && negb (received 0 r =? 0)) (printf "<%d>:received pong"\n [AInt p_pid]) ;!
  exit 0.

(** The ends of the pipes are what [pipe] stored. *)
Definition pingpong_main : prog unit :=
  let! p := pipe in
  let! s := pipe in
  let! p_pid := getpid in
  let! pid := fork in
  check (pid <? 0) (printf "fork failed"\n [] ;! exit (-1)) ;!
  check (pid =? 0) (pingpong_child p.2 s.2) ;!
  pingpong_parent p_pid p.2 s.2.

(** ** Definitions: forktest and stressfs *)

Definition print (s : string) : prog unit := write 1 s (Z.of_nat (length (chars s))) ;! Ret tt.

Definition FORKS : Z := 1000.

(** The number of children made before [fork] failed. *)
Definition fork_all (N : Z) : prog Z :=
  ITree.iter (fun n =>
    if n <? N then
      let! pid := fork in
      if pid <? 0 then Ret (inr n) else
      check (pid =? 0) (exit 0) ;!
      Ret (inl (n + 1))
    else Ret (inr n)) 0.

(** [for(; n > 0; n--)] *)
Definition wait_all (n : Z) (early : prog unit) : prog unit :=
  ITree.iter (fun n =>
    if 0 <? n then
      let! w := wait in
      check (w.1 <? 0) early ;!
      Ret (inl (n - 1))
    else Ret (inr tt)) n.

Definition forktest : prog unit :=
  print ("fork test"\n) ;!
  let! n := fork_all FORKS in
  check (n =? FORKS) (print ("fork claimed to work N times!"\n) ;! exit 1) ;!
  wait_all n (print ("wait stopped early"\n) ;! exit 1) ;!
  let! w := wait in
  check (negb (w.1 =? -1)) (print ("wait got too many"\n) ;! exit 1) ;!
  print ("fork test OK"\n).

Definition forktest_main : prog unit := forktest ;! exit 0.

Definition stressfs_main : prog unit :=
  printf "stressfs starting"\n [] ;!
  let data := replicate 512 97 in
  let! i := ITree.iter (fun i =>
    if i <? 4 then
      let! pid := fork in
      if 0 <? pid then Ret (inr i) else Ret (inl (i + 1))
    else Ret (inr i)) 0 in
  printf "write %d"\n [AInt i] ;!
  let path := alter (fun c => u8 (c + i)) 8%nat (chars "stressfs0") in
  let! fd := open path (Z.lor O_CREATE O_RDWR) in
  for_ 0 20 1 (fun _ => write fd data 512 ;! Ret tt) ;!
  close fd ;!
  printf "read"\n [] ;!
  let! fd := open path O_RDONLY in
  for_ 0 20 1 (fun _ => read fd 512 ;! Ret tt) ;!
  close fd ;!
  wait ;!
  exit 0.

(** ** Definitions: grind *)

Definition RW_CREATE : Z := Z.lor O_CREATE O_RDWR.

Definition grind_fail {A} (text : string) (status : Z) : prog A := printf text [] ;! exit status.

Definition grind_err {A} (text : string) (status : Z) : prog A := fprintf 2 text [] ;! exit status.

(** [fork]; the child runs [child], and the parent goes on unless there is no child. *)
Definition grind_fork (child : prog unit) : prog Z :=
  let! pid := fork in
  check (pid =? 0) child ;!
  check (pid <? 0) (grind_fail "grind: fork failed"\n 1) ;!
  Ret pid.

(** The pipe of case 19. *)
Definition grind_pipe : prog unit :=
  let! p := pipe in
  check (p.1 <? 0) (grind_fail "grind: pipe failed"\n 1) ;!
  let fds := p.2 in
  grind_fork (
    fork ;!
    fork ;!
    let! n := write fds.2 "x" 1 in
    check (negb (n =? 1)) (printf "grind: pipe write failed"\n []) ;!
    let! r := read fds.1 1 in
    check (negb (r.1 =? 1)) (printf "grind: pipe read failed"\n []) ;!
    exit 0) ;!
  close fds.1 ;!
  close fds.2 ;!
  wait ;!
  Ret tt.

(** The file of case 21. *)
Definition grind_file : prog unit :=
  unlink "c" ;!
  let! fd1 := open "c" RW_CREATE in
  check (fd1 <? 0) (grind_fail "grind: create c failed"\n 1) ;!
  let! n := write fd1 "x" 1 in
  check (negb (n =? 1)) (grind_fail "grind: write c failed"\n 1) ;!
  let! st := fstat fd1 in
  check (negb (st.1 =? 0)) (grind_fail "grind: fstat failed"\n 1) ;!
  check (negb (st_size st.2 =? 1)) (printf "grind: fstat reports wrong size %d"\n [AInt (i32 (st_size st.2))] ;! exit 1) ;!
  check (200 <? st_ino st.2) (printf "grind: fstat reports crazy i-number %d"\n [AInt (st_ino st.2)] ;! exit 1) ;!
  close fd1 ;!
  unlink "c" ;!
  Ret tt.

(** The children of case 22, echo and cat. *)
Definition grind_echo (aa bb : Z * Z) : prog unit :=
  close bb.1 ;!
  close bb.2 ;!
  close aa.1 ;!
  close 1 ;!
  let! d := dup aa.2 in
  check (negb (d =? 1)) (grind_err "grind: dup failed"\n 1) ;!
  close aa.2 ;!
  exec "grindir/../echo" ["echo" : ubuf; "hi" : ubuf] ;!
  grind_err "grind: echo: not found"\n 2.

Definition grind_cat (aa bb : Z * Z) : prog unit :=
  close aa.2 ;!
  close bb.1 ;!
  close 0 ;!
  let! d := dup aa.1 in
  check (negb (d =? 0)) (grind_err "grind: dup failed"\n 4) ;!
  close aa.1 ;!
  close 1 ;!
  let! d := dup bb.2 in
  check (negb (d =? 1)) (grind_err "grind: dup failed"\n 5) ;!
  close bb.2 ;!
  exec "/cat" ["cat" : ubuf] ;!
  grind_err "grind: cat: not found"\n 6.

Definition dquote : string := String (Ascii.ascii_of_nat 34) EmptyString.

(** What is in the four bytes of [buf] after the three reads. *)
Definition three_bytes (r1 r2 r3 : Z * list Z) : list Z := [received 0 r1; received 0 r2; received 0 r3; 0].

(** [st1] and [st2] are not initialised: [junk] is what they hold. *)
Definition grind_pipeline (junk : Z) : prog unit :=
  let! p := pipe in
  check (p.1 <? 0) (grind_err "grind: pipe failed"\n 1) ;!
  let! q := pipe in
  check (q.1 <? 0) (grind_err "grind: pipe failed"\n 1) ;!
  let aa := p.2 in
  let bb := q.2 in
  let! pid1 := fork in
  check (pid1 =? 0) (grind_echo aa bb) ;!
  check (pid1 <? 0) (grind_err "grind: fork failed"\n 3) ;!
  let! pid2 := fork in
  check (pid2 =? 0) (grind_cat aa bb) ;!
  check (pid2 <? 0) (grind_err "grind: fork failed"\n 7) ;!
  close aa.1 ;!
  close aa.2 ;!
  close bb.2 ;!
  let! r1 := read bb.1 1 in
  let! r2 := read bb.1 1 in
  let! r3 := read bb.1 1 in
  let buf := three_bytes r1 r2 r3 in
  close bb.1 ;!
  let! w1 := wait in
  let! w2 := wait in
  let st1 := stored junk w1.2 in
  let st2 := stored junk w2.2 in
  check (negb (st1 =? 0) || negb (st2 =? 0) || negb (str_cmp (cstr buf) ("hi"\n) =? 0))
    (printf ("grind: exec pipeline failed %d %d " +:+ dquote +:+ "%s" +:+ dquote)\n [AInt st1; AInt st2; AStr (Some (cstr buf))] ;! exit 1).

(** The case of [go] for [what]; the result is the new [fd] and [buf]. *)
Definition grind_case (junk what fd break0 : Z) (buf : list Z) : prog (Z * list Z) :=
  match what with
  | 1 => let! f := open "grindir/../a" RW_CREATE in close f ;! Ret (fd, buf)
  | 2 => let! f := open "grindir/../grindir/../b" RW_CREATE in close f ;! Ret (fd, buf)
  | 3 => unlink "grindir/../a" ;! Ret (fd, buf)
  | 4 =>
      let! r := chdir "grindir" in
      check (negb (r =? 0)) (grind_fail "grind: chdir grindir failed"\n 1) ;!
      unlink "../b" ;!
      chdir "/" ;!
      Ret (fd, buf)
  | 5 => close fd ;! let! fd := open "/grindir/../a" RW_CREATE in Ret (fd, buf)
  | 6 => close fd ;! let! fd := open "/./grindir/./../b" RW_CREATE in Ret (fd, buf)
  | 7 => write fd buf 999 ;! Ret (fd, buf)
  | 8 => let! r := read fd 999 in Ret (fd, filled r.2 buf)
  | 9 =>
      mkdir "grindir/../a" ;!
      let! f := open "a/../a/./a" RW_CREATE in
      close f ;!
      unlink "a/a" ;!
      Ret (fd, buf)
  | 10 =>
      mkdir "/../b" ;!
      let! f := open "grindir/../b/b" RW_CREATE in
      close f ;!
      unlink "b/b" ;!
      Ret (fd, buf)
  | 11 => unlink "b" ;! link "../grindir/./../a" "../b" ;! Ret (fd, buf)
  | 12 => unlink "../grindir/../a" ;! link ".././b" "/grindir/../a" ;! Ret (fd, buf)
  | 13 => grind_fork (exit 0) ;! wait ;! Ret (fd, buf)
  | 14 => grind_fork (fork ;! fork ;! exit 0) ;! wait ;! Ret (fd, buf)
  | 15 => sbrk 6011 ;! Ret (fd, buf)
  | 16 =>
      let! b := sbrk 0 in
      check (break0 <? b) (let! b := sbrk 0 in sbrk (i32 (- (b - break0))) ;! Ret tt) ;!
      Ret (fd, buf)
  | 17 =>
      let! pid := grind_fork (let! f := open "a" RW_CREATE in close f ;! exit 0) in
      let! r := chdir "../grindir/.." in
      check (negb (r =? 0)) (grind_fail "grind: chdir failed"\n 1) ;!
      kill pid ;!
      wait ;!
      Ret (fd, buf)
  | 18 => grind_fork (let! me := getpid in kill me ;! exit 0) ;! wait ;! Ret (fd, buf)
  | 19 => grind_pipe ;! Ret (fd, buf)
  | 20 =>
      grind_fork (
        unlink "a" ;!
        mkdir "a" ;!
        chdir "a" ;!
        unlink "../a" ;!
        open "x" RW_CREATE ;!
        unlink "x" ;!
        exit 0) ;!
      wait ;!
      Ret (fd, buf)
  | 21 => grind_file ;! Ret (fd, buf)
  | 22 => grind_pipeline junk ;! Ret (fd, buf)
  | _ => Ret (fd, buf)
  end.

(** The variables of the loop are [fd], [buf], [iters] and the state of the random numbers. *)
Definition go (junk which_child rand_next : Z) : prog unit :=
  let! break0 := sbrk 0 in
  mkdir "grindir" ;!
  let! r := chdir "grindir" in
  check (negb (r =? 0)) (grind_fail "grind: chdir grindir failed"\n 1) ;!
  chdir "/" ;!
  ITree.iter (fun '(fd, buf, iters, rand_next) =>
    let iters := u64 (iters + 1) in
    check (iters mod 500 =? 0) (write 1 (if which_child =? 0 then "A" else "B") 1 ;! Ret tt) ;!
    let x := do_rand rand_next in
    let! r := grind_case junk (Z.rem (i32 x) 23) fd break0 buf in
    Ret (inl (r.1, r.2, iters, u64 x))) (-1, replicate 999 0, 0, rand_next).

Definition grind_iter (junk : Z) : prog unit :=
  unlink "a" ;!
  unlink "b" ;!
  let! pid1 := fork in
  check (pid1 <? 0) (grind_fail "grind: fork failed"\n 1) ;!
  check (pid1 =? 0) (go junk 0 31 ;! exit 0) ;!
  let! pid2 := fork in
  check (pid2 <? 0) (grind_fail "grind: fork failed"\n 1) ;!
  check (pid2 =? 0) (go junk 1 7177 ;! exit 0) ;!
  let! w1 := wait in
  check (negb (stored (-1) w1.2 =? 0)) (kill pid1 ;! kill pid2 ;! Ret tt) ;!
  wait ;!
  exit 0.

Definition grind_main (junk : Z) : prog unit :=
  forever (
    let! pid := fork in
    check (pid =? 0) (grind_iter junk ;! exit 0) ;!
    check (0 <? pid) (wait ;! Ret tt) ;!
    sleep 20 ;!
    Ret tt).

(** ** Specification *)

(** The descriptors that a process has open.  A program may open another one, or a pipe,
    while it has fewer than [limit] of them; a new descriptor is not one that is open. *)
Definition fd_monitor (limit : nat) : monitor (gset Z) := mkMonitor
  (fun X e s =>
     match e with
     | SYS_open _ _ | SYS_dup _ => (size s < limit)%nat
     | SYS_pipe _ => (size s + 1 < limit)%nat
     | CRASH => False
     | _ => True
     end)
  (fun X e s =>
     match e in sysE X return X -> Prop with
     | SYS_open _ _ | SYS_dup _ => fun r => r < 0 \/ r ∉ s
     | SYS_pipe _ => fun r => r.1 < 0 \/ r.2.1 ∉ s /\ r.2.2 ∉ s /\ r.2.1 <> r.2.2
     | _ => fun _ => True
     end)
  (fun X e s =>
     match e in sysE X return X -> gset Z with
     | SYS_open _ _ | SYS_dup _ => fun r => if r <? 0 then s else {[r]} ∪ s
     | SYS_pipe _ => fun r => if r.1 <? 0 then s else {[r.2.1; r.2.2]} ∪ s
     | SYS_close fd => fun _ => s ∖ {[fd]}
     | _ => fun _ => s
     end).

(** At most the descriptors [l] besides those of [s0]. *)
Definition within (s0 : gset Z) (l : list Z) (s : gset Z) : Prop := s ⊆ s0 ∪ list_to_set l.

(** What init is at: no shell runs; the shell [pid] runs; a call has failed; or it is the
    new child. *)
Inductive init_state := Idle | Shell (pid : Z) | Broken | Child.

Definition init_monitor : monitor init_state := mkMonitor
  (fun X e s =>
     match e with
     | SYS_fork => s = Idle
     | SYS_wait => exists pid, s = Shell pid
     | SYS_exec path argv => s = Child /\ path = Bytes (chars "sh") /\ argv = [Bytes (chars "sh")]
     | SYS_exit n => n = 1 /\ (s = Broken \/ s = Child)
     | CRASH => False
     | _ => True
     end)
  (fun X e s x => True)
  (fun X e s =>
     match e in sysE X return X -> init_state with
     | SYS_fork => fun r => if r <? 0 then Broken else if r =? 0 then Child else Shell r
     | SYS_wait => fun r =>
         match s with
         | Shell pid => if r.1 =? pid then Idle else if r.1 <? 0 then Broken else s
         | _ => s
         end
     | _ => fun _ => s
     end).

(** ** Lemmas *)

Lemma init_printf s fmt : fits (chars fmt) false [] = true -> obeys init_monitor s (printf fmt []) (fun _ s' => s' = s).
Proof. intros Hf. by apply (obeys_fprintf _ (fun s' => s' = s)). Qed.

Ltac init_step :=
  match goal with
  | |- obeys _ _ (ITree.bind _ _) _ => apply obeys_bind
  | |- obeys _ _ (Ret _) _ => apply obeys_ret
  | |- obeys _ _ (exit _) _ => apply obeys_exit; cbn; by auto
  | |- obeys _ _ (check _ _) _ => apply obeys_check; intros ?
  | |- obeys _ _ (printf _ _) _ => eapply obeys_mono; [by apply init_printf|intros ? ? ->]
  | |- obeys _ _ (call _) _ => apply obeys_call; [cbn; by eauto|intros ? _]; cbn [after init_monitor]
  end.

Lemma init_round_obeys : obeys init_monitor Idle init_round (fun _ s => s = Idle).
Proof.
  unfold init_round. do 3 init_step. init_step. init_step. apply obeys_check; intros H1; rewrite H1; [by repeat init_step|].
  init_step. apply obeys_check; intros H2; rewrite H2; [by repeat init_step|].
  apply (obeys_iter _ (fun _ s => s = Shell x)); [done|]. intros _ s ->. init_step. init_step.
  destruct (x0.1 =? x); [by init_step|]. destruct (x0.1 <? 0); by repeat init_step.
Qed.

Lemma size_union_le (s t : gset Z) : (size (s ∪ t) <= size s + size t)%nat.
Proof. rewrite size_union_alt. apply Nat.add_le_mono_l, subseteq_size. set_solver. Qed.

Lemma within_size s0 l s : within s0 l s -> (size s <= size s0 + length l)%nat.
Proof.
  intros H. etrans; [by apply subseteq_size|]. etrans; [apply size_union_le|]. apply Nat.add_le_mono_l.
  clear. induction l as [|x l IH]; [done|]. cbn [list_to_set]. etrans; [apply size_union_le|]. rewrite size_singleton. simpl. lia.
Qed.

Lemma fd_fprintf limit s0 l s fd fmt args :
  within s0 l s -> fits (chars fmt) false args = true -> Forall pointer_ok args ->
  obeys (fd_monitor limit) s (fprintf fd fmt args) (fun _ s' => within s0 l s').
Proof. intros Hs Hf Hp. by apply (obeys_fprintf _ (within s0 l)). Qed.

Lemma within_open s0 l s (r : Z) : within s0 l s -> within s0 (r :: l) (if r <? 0 then s else {[r]} ∪ s).
Proof. unfold within. destruct (r <? 0); simpl; set_solver. Qed.

Lemma within_pipe s0 l s (r : Z * (Z * Z)) :
  within s0 l s -> within s0 (r.2.1 :: r.2.2 :: l) (if r.1 <? 0 then s else {[r.2.1; r.2.2]} ∪ s).
Proof. unfold within. destruct (r.1 <? 0); simpl; set_solver. Qed.

Lemma within_close s0 l l' s (x : Z) :
  within s0 l s -> (forall y, y ∈ l -> y = x \/ y ∈ l') -> within s0 l' (s ∖ {[x]}).
Proof. unfold within. intros Hs Hl y [Hy Hne]%elem_of_difference. specialize (Hs y Hy). rewrite elem_of_union, elem_of_list_to_set in *. set_solver. Qed.

Ltac drop_fd x l :=
  match l with
  | x :: ?l => constr:(l)
  | ?y :: ?l => let l' := drop_fd x l in constr:(y :: l')
  | [] => constr:(@nil Z)
  end.

(** One step of a proof that a program keeps to its descriptors; [l] are those it has
    besides [s0]. *)
Ltac fd_step :=
  match goal with
  | |- obeys _ _ (ITree.bind _ _) _ => apply obeys_bind
  | |- obeys _ _ (Ret _) _ => apply obeys_ret
  | |- obeys _ _ (exit _) _ => by apply obeys_exit
  | |- obeys _ _ (check _ _) _ => apply obeys_check; intros ?
  | |- obeys _ _ (grind_fail _ _) _ => unfold grind_fail
  | |- obeys _ _ (grind_err _ _) _ => unfold grind_err
  | |- obeys _ _ (grind_fork _) _ => unfold grind_fork
  | |- obeys _ _ (printf _ _) _ => unfold printf
  | H : within ?s0 ?l ?s |- obeys _ ?s (fprintf _ _ _) _ =>
      eapply obeys_mono; [by apply (fd_fprintf _ s0 l); [exact H|reflexivity|repeat constructor]|clear H; let H := fresh in intros ? ? H; cbv beta in H]
  | H : within ?s0 ?l ?s |- obeys _ ?s (call (SYS_open _ _)) _ =>
      apply obeys_call; [cbn; pose proof (within_size _ _ _ H); simpl in *; lia|];
      let r := fresh "r" in intros r _; cbn [after fd_monitor]; pose proof (within_open _ _ _ r H);
      clear H; generalize dependent (if r <? 0 then s else {[r]} ∪ s); intros
  | H : within ?s0 ?l ?s |- obeys _ ?s (call (SYS_dup _)) _ =>
      apply obeys_call; [cbn; pose proof (within_size _ _ _ H); simpl in *; lia|];
      let r := fresh "r" in intros r _; cbn [after fd_monitor]; pose proof (within_open _ _ _ r H);
      clear H; generalize dependent (if r <? 0 then s else {[r]} ∪ s); intros
  | H : within ?s0 ?l ?s |- obeys _ ?s (call (SYS_pipe _)) _ =>
      apply obeys_call; [cbn; pose proof (within_size _ _ _ H); simpl in *; lia|];
      let r := fresh "r" in intros r _; cbn [after fd_monitor]; pose proof (within_pipe _ _ _ r H);
      clear H; generalize dependent (if r.1 <? 0 then s else {[r.2.1; r.2.2]} ∪ s); intros
  | H : within ?s0 ?l ?s |- obeys _ ?s (call (SYS_close ?x)) _ =>
      apply obeys_call; [done|intros ? _]; cbn [after fd_monitor]; let l' := drop_fd x l in
      assert (within s0 l' (s ∖ {[x]})) by (apply (within_close _ l); [exact H|set_solver]);
      clear H; generalize dependent (s ∖ {[x]}); intros
  | |- obeys _ _ (call _) _ => apply obeys_call; [done|intros ? _]; cbn [after fd_monitor]
  end.

Lemma fd_case limit s0 junk what fd break0 buf s :
  (size s0 + 8 <= limit)%nat -> within s0 [fd] s ->
  obeys (fd_monitor limit) s (grind_case junk what fd break0 buf) (fun r s' => within s0 [r.1] s').
Proof.
  intros Hl Hs. unfold grind_case. repeat case_match; unfold grind_pipe, grind_file, grind_pipeline, grind_echo, grind_cat; repeat fd_step; done.
Qed.

Lemma fd_go limit s0 junk w seed s Q :
  (size s0 + 8 <= limit)%nat -> within s0 [] s -> obeys (fd_monitor limit) s (go junk w seed) Q.
Proof.
  intros Hl Hs. unfold go. repeat fd_step.
  apply (obeys_iter _ (fun '(fd, _, _, _) s => within s0 [fd] s)); [unfold within in *; set_solver|].
  clear s Hs. intros [[[fd buf] iters] seed'] s Hs. apply obeys_bind. eapply (obeys_mono _ _ _ (fun _ s' => within s0 [fd] s')).
  { by repeat fd_step. }
  clear s Hs. intros _ s Hs. apply obeys_bind. eapply obeys_mono; [by apply (fd_case limit s0)|]. intros [fd' buf'] s' H'. by apply obeys_ret.
Qed.

(** ** Properties *)

(** C27: none of the processes of grind ever has more than eight descriptors besides those
    it was started with, so that with the standard three its calls never fail because the
    table is full, however the system calls behave; it never crashes and never returns. *)
Theorem grind_descriptors junk (s0 : gset Z) :
  obeys (fd_monitor (size s0 + 8)) s0 (grind_main junk) (fun _ _ => False).
Proof.
  unfold grind_main. apply (obeys_forever _ (within s0 [])); [unfold within; set_solver|]. intros s Hs.
  unfold grind_iter. repeat fd_step; try done; by apply (fd_go _ s0).
Qed.

