(* ===== verification/World.v ===== *)
(** * Processes that run side by side (user/pingpong.c, user/forktest.c)

    What the system calls of processes and pipes promise to user programs, as a step
    relation: in a step one process makes one call.  Every schedule is a sequence of
    steps.  A process is what is left of its program; the table of processes has [NPROC]
    places, and [fork] may also fail for lack of memory; [read] of an empty pipe and
    [wait] for children that run have no step until there is something to return.  A
    [write] to a pipe is one step, for which there must be room; the other calls do not
    occur in the programs below.  The theorems say that pingpong and forktest end under
    every schedule, and what they have printed then. *)

From ITree Require Import ITree.
From S2P Require Import Prelude Strings State Spin Uart Printf FsBlock FsInode Ulib Utils Pipe Sys Progs.

(** ** Definitions: the system *)

Inductive obj := Console | ReadEnd (p : nat) | WriteEnd (p : nat).

Record process := mkProcess {
  pr_pid : Z;
  pr_parent : Z;
  pr_fds : list (option obj);
  pr_status : option Z;
  pr_prog : itree' sysE unit
}.

Record system := mkSystem {
  sy_procs : list process;
  sy_pipes : list (list Z);
  sy_out : list Z;
  sy_next : Z
}.

Definition with_prog (t : prog unit) (pr : process) : process :=
  mkProcess (pr_pid pr) (pr_parent pr) (pr_fds pr) (pr_status pr) (observe t).

Definition with_fds (fds : list (option obj)) (pr : process) : process :=
  mkProcess (pr_pid pr) (pr_parent pr) fds (pr_status pr) (pr_prog pr).

(** A process that has exited keeps its pid, its parent and its status. *)
Definition ended (status : Z) (pr : process) : process :=
  mkProcess (pr_pid pr) (pr_parent pr) [] (Some status) (pr_prog pr).

(** Children of a process that exits get init for a parent. *)
Definition orphan_of (pid : Z) (pr : process) : process :=
  if pr_parent pr =? pid then mkProcess (pr_pid pr) 1 (pr_fds pr) (pr_status pr) (pr_prog pr) else pr.

Definition with_procs (ps : list process) (w : system) : system := mkSystem ps (sy_pipes w) (sy_out w) (sy_next w).

(** Process [i] becomes [pr]. *)
Definition put (i : nat) (pr : process) (w : system) : system := with_procs (<[i := pr]> (sy_procs w)) w.

Definition put_pipe (p : nat) (bs : list Z) (w : system) : system :=
  mkSystem (sy_procs w) (<[p := bs]> (sy_pipes w)) (sy_out w) (sy_next w).

Definition fd_obj (pr : process) (fd : Z) : option obj := if fd <? 0 then None else mjoin (pr_fds pr !! Z.to_nat fd).

Definition is_end (read : bool) (p : nat) (o : option obj) : bool :=
  match o with
  | Some (ReadEnd q) => read && (p =? q)%nat
  | Some (WriteEnd q) => negb read && (p =? q)%nat
  | _ => false
  end.

(** Some process has an end of the pipe open. *)
Definition held (read : bool) (p : nat) (w : system) : bool := existsb (fun pr => existsb (is_end read p) (pr_fds pr)) (sy_procs w).

(** The lowest free descriptor of a table. *)
Fixpoint low_fd (fds : list (option obj)) : option nat :=
  match fds with
  | [] => None
  | None :: _ => Some O
  | Some _ :: fds => S <$> low_fd fds
  end.

Definition install (o : obj) (fds : list (option obj)) : option (nat * list (option obj)) :=
  fd ← low_fd fds; Some (fd, <[fd := Some o]> fds).

Definition child_of (pid : Z) (pr : process) : bool := pr_parent pr =? pid.

(** ** Definitions: the calls *)

(** [answer X e w i pr k w']: the call [e] of process [i], with the rest [k] of its
    program, can take the system from [w] to [w']. *)
Definition answer {X} (e : sysE X) (w : system) (i : nat) (pr : process) : (X -> prog unit) -> system -> Prop :=
  match e in sysE X return (X -> prog unit) -> system -> Prop with
  | SYS_fork => fun k w' =>
      w' = put i (with_prog (k (-1)) pr) w \/
      (length (sy_procs w) < NPROC)%nat /\
      w' = mkSystem (<[i := with_prog (k (sy_next w)) pr]> (sy_procs w) ++ [mkProcess (sy_next w) (pr_pid pr) (pr_fds pr) None (observe (k 0))])
        (sy_pipes w) (sy_out w) (sy_next w + 1)
  | SYS_exit status => fun k w' => w' = with_procs (orphan_of (pr_pid pr) <$> <[i := ended status pr]> (sy_procs w)) w
  | SYS_wait => fun k w' =>
      (exists j c st, sy_procs w !! j = Some c /\ child_of (pr_pid pr) c = true /\ pr_status c = Some st /\
         w' = with_procs (delete j (<[i := with_prog (k (pr_pid c, Some st)) pr]> (sy_procs w))) w) \/
      existsb (child_of (pr_pid pr)) (sy_procs w) = false /\ w' = put i (with_prog (k (-1, None)) pr) w
  | SYS_pipe Var => fun k w' =>
      let p := length (sy_pipes w) in
      match install (ReadEnd p) (pr_fds pr) ≫= (fun '(r, fds) => '(wr, fds) ← install (WriteEnd p) fds; Some (r, wr, fds)) with
      | Some (r, wr, fds) =>
          w' = mkSystem (<[i := with_prog (k (0, (Z.of_nat r, Z.of_nat wr))) (with_fds fds pr)]> (sy_procs w)) (sy_pipes w ++ [[]]) (sy_out w) (sy_next w)
      | None => w' = put i (with_prog (k (-1, (0, 0))) pr) w
      end
  | SYS_read fd Var n => fun k w' =>
      match fd_obj pr fd with
      | Some (ReadEnd p) =>
          match sy_pipes w !! p with
          | Some [] => held false p w = false /\ w' = put i (with_prog (k (0, [])) pr) w
          | Some bs =>
              let got := take (Z.to_nat n) bs in
              w' = put_pipe p (drop (Z.to_nat n) bs) (put i (with_prog (k (Z.of_nat (length got), got)) pr) w)
          | None => False
          end
      | Some Console => exists bs, (length bs <= Z.to_nat n)%nat /\ w' = put i (with_prog (k (Z.of_nat (length bs), bs)) pr) w
      | _ => w' = put i (with_prog (k (-1, [])) pr) w
      end
  | SYS_write fd (Bytes bs) n => fun k w' =>
      let bs := take (Z.to_nat n) bs in
      match fd_obj pr fd with
      | Some (WriteEnd p) =>
          if held true p w then
            match sy_pipes w !! p with
            | Some old => Z.of_nat (length (old ++ bs)) <= PIPESIZE /\ w' = put_pipe p (old ++ bs) (put i (with_prog (k n) pr) w)
            | None => False
            end
          else w' = put i (with_prog (k (-1)) pr) w
      | Some Console => w' = mkSystem (<[i := with_prog (k n) pr]> (sy_procs w)) (sy_pipes w) (sy_out w ++ bs) (sy_next w)
      | _ => w' = put i (with_prog (k (-1)) pr) w
      end
  | SYS_close fd => fun k w' =>
      match fd_obj pr fd with
      | Some _ => w' = put i (with_prog (k 0) (with_fds (<[Z.to_nat fd := None]> (pr_fds pr)) pr)) w
      | None => w' = put i (with_prog (k (-1)) pr) w
      end
  | SYS_getpid => fun k w' => w' = put i (with_prog (k (pr_pid pr)) pr) w
  | SYS_sleep _ => fun k w' => w' = put i (with_prog (k 0) pr) w
  | _ => fun k w' => False
  end.

(** A step of process [i]. *)
Definition step_of (i : nat) (w w' : system) : Prop :=
  match sy_procs w !! i with
  | Some pr =>
      match pr_status pr, pr_prog pr with
      | None, TauF t => w' = put i (with_prog t pr) w
      | None, VisF e k => answer e w i pr k w'
      | _, _ => False
      end
  | None => False
  end.

Definition step (w w' : system) : Prop := exists i, step_of i w w'.

(** A system with one process that runs [t], with the standard descriptors. *)
Definition std_fds : list (option obj) := replicate 3 (Some Console) ++ replicate 13 None.

Definition alone (pid parent next : Z) (t : prog unit) : system := mkSystem [mkProcess pid parent std_fds None (observe t)] [] [] next.

(** ** Specification *)

(** Under every schedule the system comes to rest, in a state that satisfies [P]. *)
Inductive inevitable (P : system -> Prop) (w : system) : Prop :=
| rests : P w -> (forall w', ~ step w w') -> inevitable P w
| goes_on : (exists w', step w w') -> (forall w', step w w' -> inevitable P w') -> inevitable P w.

(** What pingpong prints, for the pids of the parent and of the child. *)
Definition ping (c : Z) : list Z := default [] (uprintf "<%d>:received ping"\n [AInt c]).
Definition pong (p : Z) : list Z := default [] (uprintf "<%d>:received pong"\n [AInt p]).

(** The only process left is [pid], and it has exited with [status]. *)
Definition only_left (pid status : Z) (out : list Z) (w : system) : Prop :=
  exists pr, sy_procs w = [pr] /\ pr_pid pr = pid /\ pr_status pr = Some status /\ sy_out w = out.

(** ** Lemmas: pingpong *)

Lemma printf_chars fmt n : fits (chars fmt) false [AInt n] = true -> printf fmt [AInt n] = each (default [] (uprintf fmt [AInt n])) (putc 1).
Proof. intros H. unfold printf, fprintf. destruct (uprintf_fits fmt [AInt n] H) as [l ->]; [by repeat constructor|done]. Qed.

Lemma inevitable_mono (P P' : system -> Prop) w : (forall w, P w -> P' w) -> inevitable P w -> inevitable P' w.
Proof. intros HP. induction 1 as [w H1 H2|w H1 _ IH]; [by apply rests; [apply HP|]|by apply goes_on]. Qed.

(** What is left of a program prints [l] and exits. *)
Fixpoint prints (l : list Z) (st : Z) (t : itree' sysE unit) : Prop :=
  match l with
  | [] => exists h, t = VisF (SYS_exit st) h
  | x :: l => exists h, t = VisF (SYS_write 1 (Bytes [x]) 1) h /\ forall r, prints l st (observe (h r))
  end.

Lemma prints_bind l st (t : prog unit) k : prints l st (observe t) -> prints l st (observe (ITree.bind t k)).
Proof.
  revert t. induction l as [|x l IH]; intros t (h & H); rewrite observe_bind.
  - rewrite H. by eexists.
  - destruct H as [-> H]. eexists. split; [done|]. intros r. apply IH, H.
Qed.

Lemma prints_each l st k : (exists h, observe (k tt) = VisF (SYS_exit st) h) -> prints l st (observe (ITree.bind (each l (putc 1)) k)).
Proof.
  intros Hk. induction l as [|x l IH]; [exact Hk|].
  exists (fun r => ITree.bind (ITree.bind (ITree.bind (Ret r) (fun _ => Ret tt)) (fun _ => each l (putc 1))) k). split; [reflexivity|]. intros r. exact IH.
Qed.

Lemma exit_exits st : exists h, observe (exit st : prog unit) = VisF (SYS_exit st) h.
Proof. exists (fun v => ITree.bind (Ret v) (fun v : void => match v with end)). reflexivity. Qed.

(** A process that is alone, prints and exits. *)
Lemma says_ends pid parent fds st l t out pipes next :
  parent <> pid -> fds !! 1%nat = Some (Some Console) -> prints l st t ->
  inevitable (only_left pid st (out ++ l)) (mkSystem [mkProcess pid parent fds None t] pipes out next).
Proof.
  intros Hne Hfd. revert out t. induction l as [|x l IH]; intros out t.
  - intros [h ->]. apply goes_on; [eexists; exists 0%nat; reflexivity|]. intros w' [[|[|i]] Hs]; [|done..]. cbn in Hs. subst w'.
    unfold orphan_of. cbn. rewrite (proj2 (Z.eqb_neq parent pid)) by done. apply rests; [|by intros w' [[|[|i]] Hs]]. rewrite app_nil_r. by eexists.
  - intros (h & -> & Hp). apply goes_on.
    + eexists. exists 0%nat. unfold step_of. cbn. change (Z.to_nat 1) with 1%nat. rewrite Hfd. reflexivity.
    + intros w' [[|[|i]] Hs]; [|done..]. unfold step_of in Hs. cbn in Hs. change (Z.to_nat 1) with 1%nat in Hs. rewrite Hfd in Hs. cbn in Hs. subst w'.
      rewrite cons_middle, app_assoc. apply IH, Hp.
Qed.

Section pingpong.
Variables (p q c : Z).
Hypothesis Hp : 0 < p.
Hypothesis Hc : 0 < c.
Hypothesis Hpc : p <> c.
Hypothesis Hqp : q <> p.
Hypothesis Hqc : q <> c.

(** The ends of what is left of the two programs *)
Definition say (l : list Z) : prog unit := each l (putc 1) ;! exit 0.

Definition child_read : prog unit :=
  let! r := read 3 1 in
  check (r.1 <? 0) (printf "read error" [] ;! exit (-1)) ;!
  let! spid := getpid in
  check ((0 <? r.1) && negb (received 0 r =? 0)) (printf "<%d>:received ping"\n [AInt spid]) ;!
  exit 0.

Definition child_getpid : prog unit :=
  let! spid := getpid in
  printf "<%d>:received ping"\n [AInt spid] ;! exit 0.

Definition child_write : prog unit :=
  let! n := write 6 "a" 1 in
  check (n <? 0) (printf "write failed"\n [] ;! exit (-1)) ;!
  child_read.

Definition parent_read : prog unit :=
  let! r := read 5 1 in
  check (r.1 <? 0) (printf "read error" [] ;! exit (-1)) ;!
  check ((0 <? r.1) && negb (received 0 r =? 0)) (printf "<%d>:received pong"\n [AInt p]) ;!
  exit 0.

Definition parent_write : prog unit :=
  let! n := write 4 "a" 1 in
  check (n <? 0) (printf "write failed"\n [] ;! exit (-1)) ;!
  wait ;! parent_read.

(** The rest of the program, which the child never gets to *)
Definition rest_of (t : prog unit) : itree' sysE unit := observe (ITree.bind t (fun _ => pingpong_parent p (3, 4) (5, 6))).

(** Where the parent and the child are *)
Inductive ppoint := P1 | P2 | P3 | P4 | P5.
Inductive cpoint := C1 | C2 | C3 | C4 | C5 | C6 (done rest : list Z) | C7.

#[local] Instance ppoint_eq_dec : EqDecision ppoint.
Proof. solve_decision. Defined.

#[local] Instance cpoint_eq_dec : EqDecision cpoint.
Proof. solve_decision. Defined.

Definition pipe_fds (r0 w0 r1 w1 : bool) : list (option obj) :=
  replicate 3 (Some Console) ++
  [if r0 then Some (ReadEnd 0) else None; if w0 then Some (WriteEnd 0) else None;
   if r1 then Some (ReadEnd 1) else None; if w1 then Some (WriteEnd 1) else None] ++ replicate 9 None.

Definition at_parent (i : ppoint) : process :=
  match i with
  | P1 => mkProcess p q (pipe_fds true true true true) None (observe (close 3 ;! close 6 ;! parent_write))
  | P2 => mkProcess p q (pipe_fds false true true true) None (observe (close 6 ;! parent_write))
  | P3 => mkProcess p q (pipe_fds false true true false) None (observe parent_write)
  | P4 => mkProcess p q (pipe_fds false true true false) None (observe (wait ;! parent_read))
  | P5 => mkProcess p q (pipe_fds false true true false) None (observe parent_read)
  end.

Definition at_child (j : cpoint) : process :=
  match j with
  | C1 => mkProcess c p (pipe_fds true true true true) None (rest_of (close 4 ;! close 5 ;! child_write))
  | C2 => mkProcess c p (pipe_fds true false true true) None (rest_of (close 5 ;! child_write))
  | C3 => mkProcess c p (pipe_fds true false false true) None (rest_of child_write)
  | C4 => mkProcess c p (pipe_fds true false false true) None (rest_of child_read)
  | C5 => mkProcess c p (pipe_fds true false false true) None (rest_of child_getpid)
  | C6 _ l => mkProcess c p (pipe_fds true false false true) None (rest_of (say l))
  | C7 => mkProcess c p [] (Some 0) (rest_of (say []))
  end.

Definition sent (i : ppoint) : list Z := match i with P1 | P2 | P3 => [] | _ => [97] end.

(** Both run; the child may be done. *)
Definition both (i : ppoint) (j : cpoint) : system :=
  mkSystem [at_parent i; at_child j]
    [match j with C5 | C6 _ _ | C7 => [] | _ => sent i end; match j with C1 | C2 | C3 => [] | _ => [97] end]
    (match j with C6 l _ => l | C7 => ping c | _ => [] end) (c + 1).

(** The child has been waited for. *)
Definition reaped : system := mkSystem [at_parent P5] [[]; [97]] (ping c) (c + 1).

Definition result (w : system) : Prop := only_left p 0 (ping c ++ pong p) w.

Lemma reaped_ends : inevitable result reaped.
Proof.
  apply goes_on; [eexists; exists 0%nat; reflexivity|]. intros w' [[|[|i]] Hs]; [|done..].
  set (t := printf "<%d>:received pong"\n [AInt p] ;! exit 0 : prog unit).
  change (w' = mkSystem [mkProcess p q (pipe_fds false true true false) None (observe t)] [[]; []] (ping c) (c + 1)) in Hs.
  subst w' t. rewrite printf_chars by done. apply says_ends; [done..|]. apply prints_each, exit_exits.
Qed.

(** The steps of the parent and of the child while both are there *)
Definition ok (i : ppoint) (j : cpoint) : Prop :=
  match i, j with
  | (P1 | P2 | P3), (C1 | C2 | C3 | C4) => True
  | P4, C6 d l => d ++ l = ping c
  | P4, _ => True
  | _, _ => False
  end.

Definition next_p (i : ppoint) : ppoint := match i with P1 => P2 | P2 => P3 | P3 => P4 | i => i end.

Definition next_c (j : cpoint) : cpoint :=
  match j with
  | C1 => C2
  | C2 => C3
  | C3 => C4
  | C4 => C5
  | C5 => C6 [] (ping c)
  | C6 d (x :: l) => C6 (d ++ [x]) l
  | _ => C7
  end.

Lemma parent_moves i j w' : ok i j -> i <> P4 -> step_of 0 (both i j) w' <-> w' = both (next_p i) j.
Proof.
  intros H Hi. destruct i, j; try done; split; intros Hs.
  all: first [exact Hs|exact (proj2 Hs)|split; [by vm_compute|exact Hs]].
Qed.

(** The child has asked for its pid. *)
Definition pinging : system :=
  mkSystem [at_parent P4; mkProcess c p (pipe_fds true false false true) None (rest_of (printf "<%d>:received ping"\n [AInt c] ;! exit 0))]
    [[]; [97]] [] (c + 1).

Lemma pinging_at : pinging = both P4 (C6 [] (ping c)).
Proof. unfold pinging. by rewrite printf_chars. Qed.

(** The child has exited. *)
Definition leaving (out : list Z) : system :=
  mkSystem [orphan_of c (at_parent P4); orphan_of c (at_child C7)] [[]; [97]] out (c + 1).

Lemma leaving_at : leaving (ping c) = both P4 C7.
Proof. unfold leaving, orphan_of. cbn. by rewrite (proj2 (Z.eqb_neq q c)), (proj2 (Z.eqb_neq p c)). Qed.

Lemma child_moves i j w' : ok i j -> j <> C7 -> (j = C4 -> i = P4) -> step_of 1 (both i j) w' <-> w' = both i (next_c j).
Proof.
  intros H Hj H4. destruct i, j as [| | | | |d [|x l]|]; try done; try (by specialize (H4 eq_refl)); split; intros Hs.
  all: try first [exact Hs|exact (proj2 Hs)|split; [by vm_compute|exact Hs]].
  1, 2: change (next_c C5) with (C6 [] (ping c)) in *; revert Hs; rewrite <- pinging_at; intros Hs; exact Hs.
  all: cbn [ok] in H; rewrite app_nil_r in H; subst d; change (next_c (C6 (ping c) [])) with C7 in *; revert Hs; rewrite <- leaving_at; intros Hs; exact Hs.
Qed.

Lemma child_blocked i w' : i <> P4 -> ok i C4 -> ~ step_of 1 (both i C4) w'.
Proof. intros Hi H Hs. by destruct i; try done; destruct Hs. Qed.

Lemma child_gone i w' : ~ step_of 1 (both i C7) w'.
Proof. intros Hs. exact Hs. Qed.

Lemma reaped_at : with_procs [mkProcess p q (pipe_fds false true true false) None (observe parent_read)] (both P4 C7) = reaped.
Proof. done. Qed.

(** The parent waits for the child. *)
Lemma parent_waits j w' : ok P4 j -> step_of 0 (both P4 j) w' <-> j = C7 /\ w' = reaped.
Proof.
  intros H. rewrite <- reaped_at. split.
  - intros [(m & x & st & Hl & Hch & Hst & ->)|[He _]].
    + destruct m as [|[|m]]; [| |by destruct m]; injection Hl as <-.
      * change ((q =? p) = true) in Hch. by apply Z.eqb_eq in Hch.
      * destruct j; try discriminate Hst. injection Hst as <-. done.
    + exfalso. destruct j; change ((q =? p) || ((p =? p) || false) = false) in He; rewrite Z.eqb_refl, orb_true_r in He; discriminate He.
  - intros [-> ->]. left. exists 1%nat, (at_child C7), 0. split_ands; [done|apply Z.eqb_refl|done|done].
Qed.

Definition left_p (i : ppoint) : nat := match i with P1 => 3 | P2 => 2 | P3 => 1 | _ => 0 end.

Definition left_c (j : cpoint) : nat :=
  match j with
  | C6 _ l => 1 + length l
  | C7 => 0
  | C5 => 2 + length (ping c)
  | C4 => 3 + length (ping c)
  | C3 => 4 + length (ping c)
  | C2 => 5 + length (ping c)
  | C1 => 6 + length (ping c)
  end.

Lemma both_ends n i j : ok i j -> (left_p i + left_c j <= n)%nat -> inevitable result (both i j).
Proof.
  revert i j. induction n as [n IH] using lt_wf_ind. intros i j Hok Hn.
  assert (Hnext : forall w', step_of 0 (both i j) w' \/ step_of 1 (both i j) w' -> inevitable result w').
  { intros w' [Hs|Hs].
    - destruct (decide (i = P4)) as [->|Hi]; [apply parent_waits in Hs as [-> ->]; [apply reaped_ends|done]|].
      apply parent_moves in Hs as ->; [|done..]. apply (IH (left_p (next_p i) + left_c j)%nat); [|by destruct i, j|lia].
      assert (left_p (next_p i) < left_p i)%nat by (destruct i; try done; simpl; lia). lia.
    - destruct (decide (j = C7)) as [->|Hj]; [by apply child_gone in Hs|].
      destruct (decide (j = C4 /\ i <> P4)) as [[-> Hi]|H4]; [by apply child_blocked in Hs|].
      assert (H4' : j = C4 -> i = P4) by (intros ->; destruct (decide (i = P4)); [done|]; by destruct H4).
      apply child_moves in Hs as ->; [|done..].
      assert (left_c (next_c j) < left_c j)%nat by (destruct j as [| | | | |d [|x l]|]; try done; simpl; lia).
      apply (IH (left_p i + left_c (next_c j))%nat); [lia| |lia].
      destruct j as [| | | | |d [|x l]|], i; try done; try (by specialize (H4' eq_refl)); cbn in *; by rewrite <- app_assoc. }
  apply goes_on.
  - destruct (decide (i = P4)) as [->|Hi]; [|eexists; exists 0%nat; by apply parent_moves].
    destruct (decide (j = C7)) as [->|Hj]; [eexists; exists 0%nat; by apply parent_waits|]. eexists. exists 1%nat. by apply child_moves.
  - intros w' [[|[|m]] Hs]; [apply Hnext; by left|apply Hnext; by right|done].
Qed.
End pingpong.

(** ** Lemmas: forktest *)

Section forktest.
Variables (p q c0 : Z).
Hypothesis Hp : 0 < p.
Hypothesis Hpc : p < c0.
Hypothesis Hqp : q <> p.
Hypothesis Hqc : q < c0.

(** What is left of the program after the loops, and in them *)
Definition wait_loop (n : Z) : prog unit :=
  (wait_all n (print ("wait stopped early"\n) ;! exit 1) ;!
   let! w := wait in
   check (negb (w.1 =? -1)) (print ("wait got too many"\n) ;! exit 1) ;!
   print ("fork test OK"\n)) ;!
  exit 0.

Definition fork_body (n : Z) : prog (Z + Z) :=
  if n <? FORKS then
    let! pid := fork in
    if pid <? 0 then Ret (inr n) else
    check (pid =? 0) (exit 0) ;!
    Ret (inl (n + 1))
  else Ret (inr n).

Definition fork_loop (n : Z) : prog unit :=
  (let! n := ITree.iter fork_body n in
   check (n =? FORKS) (print ("fork claimed to work N times!"\n) ;! exit 1) ;!
   wait_all n (print ("wait stopped early"\n) ;! exit 1) ;!
   let! w := wait in
   check (negb (w.1 =? -1)) (print ("wait got too many"\n) ;! exit 1) ;!
   print ("fork test OK"\n)) ;!
  exit 0.

(** What follows the loop of [fork] *)
Definition after_forks (n : Z) : prog unit :=
  check (n =? FORKS) (print ("fork claimed to work N times!"\n) ;! exit 1) ;!
  wait_all n (print ("wait stopped early"\n) ;! exit 1) ;!
  let! w := wait in
  check (negb (w.1 =? -1)) (print ("wait got too many"\n) ;! exit 1) ;!
  print ("fork test OK"\n).

(** A round of a loop, with what follows it *)
Definition round {I R} (body : I -> prog (I + R)) (t : prog (I + R)) (k : R -> prog unit) : prog unit :=
  ITree.bind (ITree.bind (ITree.bind t (fun lr => match lr with inl i => Tau (ITree.iter body i) | inr v => Ret v end)) k) (fun _ => exit 0).

Definition fork_answer (n pid : Z) : prog (Z + Z) :=
  if pid <? 0 then Ret (inr n) else check (pid =? 0) (exit 0) ;! Ret (inl (n + 1)).

Lemma fork_loop_step n : 0 <= n < FORKS ->
  observe (fork_loop n) = VisF SYS_fork (fun r => round fork_body (ITree.bind (Ret r) (fork_answer n)) after_forks).
Proof.
  intros Hn. change (observe (fork_loop n)) with (observe (round fork_body (fork_body n) after_forks)).
  unfold fork_body at 2. rewrite (proj2 (Z.ltb_lt n FORKS)) by lia. reflexivity.
Qed.

Lemma fork_failed n : 0 <= n < FORKS -> observe (round fork_body (ITree.bind (Ret (-1)) (fork_answer n)) after_forks) = observe (wait_loop n).
Proof.
  intros Hn. change (observe (ITree.bind (after_forks n) (fun _ => exit 0)) = observe (wait_loop n)).
  unfold after_forks. rewrite (proj2 (Z.eqb_neq n FORKS)) by lia. reflexivity.
Qed.

Lemma fork_parent n r : 0 < r ->
  observe (round fork_body (ITree.bind (Ret r) (fork_answer n)) after_forks) = TauF (fork_loop (n + 1)).
Proof.
  intros Hr. change (observe (round fork_body (fork_answer n r) after_forks) = TauF (fork_loop (n + 1))).
  unfold fork_answer. rewrite (proj2 (Z.ltb_ge r 0)), (proj2 (Z.eqb_neq r 0)) by lia. reflexivity.
Qed.

Lemma fork_child n : exists g, observe (round fork_body (ITree.bind (Ret 0) (fork_answer n)) after_forks) = VisF (SYS_exit 0) g.
Proof.
  exists (fun v => round fork_body (ITree.bind (ITree.bind (Ret v) (fun v : void => match v with end)) (fun _ : unit => Ret (inl (n + 1)))) after_forks).
  reflexivity.
Qed.

(** What follows the loop of [wait] *)
Definition after_waits (_ : unit) : prog unit :=
  let! w := wait in
  check (negb (w.1 =? -1)) (print ("wait got too many"\n) ;! exit 1) ;!
  print ("fork test OK"\n).

Definition wait_answer (n : Z) (w : Z * option Z) : prog (Z + unit) :=
  check (w.1 <? 0) (print ("wait stopped early"\n) ;! exit 1) ;! Ret (inl (n - 1)).

Definition wait_body (n : Z) : prog (Z + unit) := if 0 <? n then let! w := wait in wait_answer n w else Ret (inr tt).

Lemma wait_loop_step n : 0 < n ->
  observe (wait_loop n) = VisF SYS_wait (fun w => round wait_body (ITree.bind (Ret w) (wait_answer n)) after_waits).
Proof.
  intros Hn. change (observe (wait_loop n)) with (observe (round wait_body (wait_body n) after_waits)).
  unfold wait_body at 2. rewrite (proj2 (Z.ltb_lt 0 n)) by lia. reflexivity.
Qed.

Lemma wait_got n w : 0 < w.1 -> observe (round wait_body (ITree.bind (Ret w) (wait_answer n)) after_waits) = TauF (wait_loop (n - 1)).
Proof.
  intros Hw. change (observe (round wait_body (wait_answer n w) after_waits) = TauF (wait_loop (n - 1))).
  unfold wait_answer. rewrite (proj2 (Z.ltb_ge _ 0)) by lia. reflexivity.
Qed.

(** A child that is about to exit or has exited *)
Definition child_at (pr : process) : Prop :=
  pr_parent pr = p /\ c0 <= pr_pid pr /\ (pr_status pr = Some 0 \/ pr_status pr = None /\ exists g, pr_prog pr = VisF (SYS_exit 0) g).

Definition family (t : itree' sysE unit) (cs : list process) (out : list Z) (next : Z) : system :=
  mkSystem (mkProcess p q std_fds None t :: cs) [] out next.

Definition live (cs : list process) : nat := length (filter (fun pr => pr_status pr = None) cs).

Lemma same_parents pid cs : c0 <= pid -> Forall child_at cs -> orphan_of pid <$> cs = cs.
Proof.
  intros Hpid. induction 1 as [|pr cs (E & _) _ IH]; [done|]. rewrite fmap_cons, IH. f_equal. unfold orphan_of.
  by rewrite E, (proj2 (Z.eqb_neq p pid)) by lia.
Qed.

Lemma live_ended i pr cs : cs !! i = Some pr -> pr_status pr = None -> S (live (<[i := ended 0 pr]> cs)) = live cs.
Proof.
  intros Hi Hs. unfold live. revert i Hi. induction cs as [|x cs IH]; intros [|i] Hi; try done; cbn in Hi.
  - injection Hi as ->. cbn [insert list_insert]. rewrite !filter_cons. rewrite (decide_True _ _ Hs). by rewrite decide_False.
  - cbn [insert list_insert]. rewrite !filter_cons. case_decide; simpl; [f_equal|]; by apply IH.
Qed.

Lemma child_steps i t cs out next w' :
  Forall child_at cs -> step_of (S i) (family t cs out next) w' ->
  exists cs', w' = family t cs' out next /\ Forall child_at cs' /\ length cs' = length cs /\ S (live cs') = live cs.
Proof.
  intros Hcs Hs. unfold step_of in Hs. cbn [sy_procs family lookup list_lookup] in Hs.
  destruct (cs !! i) as [pr|] eqn:Hi; [|done]. pose proof (proj1 (Forall_lookup _ _) Hcs _ _ Hi) as Hpr. cbv beta in Hpr. destruct Hpr as (E1 & E2 & [E3|[E3 [g E4]]]).
  - by rewrite E3 in Hs.
  - rewrite E3, E4 in Hs. cbn in Hs. exists (<[i := ended 0 pr]> cs).
    assert (Hcs' : Forall child_at (<[i := ended 0 pr]> cs)) by (apply Forall_insert; [done|]; split; [done|]; split; [done|by left]).
    split_ands; [|done|by rewrite length_insert|by apply live_ended]. subst w'. unfold family, with_procs, orphan_of at 1. cbn.
    rewrite (proj2 (Z.eqb_neq q _)) by lia. by rewrite same_parents.
Qed.

Lemma child_can t cs out next : Forall child_at cs -> (0 < live cs)%nat -> exists i w', step_of (S i) (family t cs out next) w'.
Proof.
  intros Hcs Hl. unfold live in Hl. destruct (filter _ cs) as [|pr l] eqn:E; [simpl in Hl; lia|].
  assert (Hin : pr ∈ filter (fun pr => pr_status pr = None) cs) by (rewrite E; set_solver).
  apply list_elem_of_filter in Hin as [Hn Hin]. apply list_elem_of_lookup in Hin as [i Hi]. pose proof (proj1 (Forall_lookup _ _) Hcs _ _ Hi) as Hpr. cbv beta in Hpr.
  destruct Hpr as (_ & _ & [E3|[_ [g E4]]]); [congruence|]. exists i. eexists. unfold step_of. change (sy_procs (family t cs out next) !! S i) with (cs !! i).
  rewrite Hi, Hn, E4. reflexivity.
Qed.

(** Where the parent is, with [n] children *)
Inductive phase := Forking (tau : bool) (n : nat) | Waiting (tau : bool) (n : nat).

#[local] Instance phase_eq_dec : EqDecision phase.
Proof. solve_decision. Defined.

Definition phase_prog (ph : phase) : itree' sysE unit :=
  match ph with
  | Forking tau n => if tau then TauF (fork_loop (Z.of_nat n)) else observe (fork_loop (Z.of_nat n))
  | Waiting tau n => if tau then TauF (wait_loop (Z.of_nat n)) else observe (wait_loop (Z.of_nat n))
  end.

Definition phase_count (ph : phase) : nat := match ph with Forking _ n | Waiting _ n => n end.

(** The steps the parent can make from there, at most *)
Definition phase_weight (ph : phase) : nat :=
  match ph with
  | Forking tau n => 1000 + 4 * (64 - n) + Nat.b2n tau
  | Waiting tau n => 3 * n + 3 + Nat.b2n tau
  end.

Definition heading : list Z := chars ("fork test"\n).

Definition passed (w : system) : Prop := only_left p 0 (heading ++ chars ("fork test OK"\n)) w.

(** All children are gone. *)
Lemma last_wait_ends next : inevitable passed (family (observe (wait_loop 0)) [] heading next).
Proof.
  apply goes_on.
  - eexists. exists 0%nat. right. split; [cbn; unfold child_of; cbn; by rewrite (proj2 (Z.eqb_neq q p))|reflexivity].
  - intros w' [[|[|i]] Hs]; [|done..]. destruct Hs as [(j & x & st & Hj & Hch & Hst & _)|[_ ->]].
    { destruct j as [|[|j]]; try done. by injection Hj as <-. }
    apply goes_on; [eexists; exists 0%nat; reflexivity|]. intros w' [[|[|i]] Hs]; [|done..].
    set (t := ITree.bind (Ret tt) (fun _ => exit 0 : prog unit)).
    change (w' = family (observe t) [] (heading ++ chars ("fork test OK"\n)) next) in Hs. subst w'.
    pose proof (says_ends p q std_fds 0 [] (observe t) (heading ++ chars ("fork test OK"\n)) [] next Hqp eq_refl (exit_exits 0)) as H.
    by rewrite app_nil_r in H.
Qed.

Lemma parent_forks n cs next w' :
  (n < 64)%nat -> length cs = n -> c0 <= next -> Forall child_at cs -> step_of 0 (family (phase_prog (Forking false n)) cs heading next) w' ->
  exists ph cs' next', w' = family (phase_prog ph) cs' heading next' /\ Forall child_at cs' /\ length cs' = phase_count ph /\
    (phase_count ph < 64)%nat /\ c0 <= next' /\ (phase_weight ph + live cs' < phase_weight (Forking false n) + live cs)%nat.
Proof.
  intros Hn Hl Hnx Hcs Hs. unfold phase_prog in Hs. rewrite fork_loop_step in Hs by (unfold FORKS; lia). destruct Hs as [->|[Hlt ->]].
  - exists (Waiting false n), cs, next. split_ands; [|done|done|done|done|].
    + unfold family, put, with_procs, with_prog. cbn [sy_procs insert list_insert sy_pipes sy_out sy_next]. by rewrite fork_failed by (unfold FORKS; lia).
    + simpl. lia.
  - destruct (fork_child (Z.of_nat n)) as [g Eg].
    set (x := mkProcess next p std_fds None (VisF (SYS_exit 0) g)).
    exists (Forking true (S n)), (cs ++ [x]), (next + 1). cbn in Hlt. unfold NPROC in Hlt. split_ands.
    + unfold family, with_prog. cbn [sy_procs sy_pipes sy_out sy_next insert list_insert app pr_pid pr_parent pr_fds pr_status]. rewrite fork_parent by lia. rewrite Eg. by replace (Z.of_nat n + 1) with (Z.of_nat (S n)) by lia.
    + apply Forall_app. split; [done|]. apply Forall_singleton. split; [done|]. split; [done|]. right. split; [done|]. by exists g.
    + rewrite length_app. simpl. lia.
    + simpl. lia.
    + lia.
    + unfold live. rewrite filter_app, length_app. simpl. lia.
Qed.

Lemma parent_waits_for n cs next w' :
  (0 < n)%nat -> length cs = n -> Forall child_at cs -> step_of 0 (family (phase_prog (Waiting false n)) cs heading next) w' ->
  exists cs', w' = family (phase_prog (Waiting true (n - 1))) cs' heading next /\ Forall child_at cs' /\ length cs' = (n - 1)%nat /\
    (live cs' <= live cs)%nat.
Proof.
  intros Hn Hl Hcs Hs. unfold phase_prog in Hs. rewrite wait_loop_step in Hs by lia. destruct Hs as [(j & x & st & Hj & Hch & Hst & ->)|[He _]].
  - destruct j as [|j]; [injection Hj as <-; cbn in Hch; discriminate Hst|]. cbn in Hj. pose proof (proj1 (Forall_lookup _ _) Hcs _ _ Hj) as Hx.
    exists (delete j cs). split_ands.
    + unfold family, with_procs, with_prog. cbn [sy_procs sy_pipes sy_out sy_next insert list_insert delete list_delete pr_pid pr_parent pr_fds pr_status]. rewrite wait_got by (destruct Hx as (_ & Hx & _); simpl; lia). by replace (Z.of_nat n - 1) with (Z.of_nat (n - 1)) by lia.
    + by apply Forall_delete.
    + rewrite length_delete by done. lia.
    + unfold live. rewrite (delete_Permutation cs j x Hj) at 2. rewrite filter_cons. case_decide; simpl; lia.
  - exfalso. destruct cs as [|x cs]; [simpl in Hl; lia|]. apply Forall_cons in Hcs as [(E & _) _]. cbn in He. unfold child_of in He. cbn in He.
    by rewrite E, Z.eqb_refl, orb_true_r in He.
Qed.

(** The parent or a child can go on, until the last [wait]. *)
Lemma phases_go ph cs next :
  Forall child_at cs -> length cs = phase_count ph -> (phase_count ph < 64)%nat -> ph <> Waiting false 0 ->
  exists w', step (family (phase_prog ph) cs heading next) w'.
Proof.
  intros Hcs Hl Hn Hph. destruct ph as [[] n|[] n]; [eexists; exists 0%nat; reflexivity| |eexists; exists 0%nat; reflexivity|].
  - eexists. exists 0%nat. unfold phase_prog. rewrite fork_loop_step by (unfold FORKS; simpl in Hn; lia). left. reflexivity.
  - destruct (decide (0 < live cs)%nat) as [Hlv|Hlv].
    { destruct (child_can (phase_prog (Waiting false n)) cs heading next Hcs Hlv) as (i & w' & Hs). exists w'. by exists (S i). }
    destruct n as [|n]; [done|]. destruct cs as [|x cs]; [done|]. apply Forall_cons in Hcs as [(E1 & E2 & Hx) _].
    assert (Hst : pr_status x = Some 0).
    { destruct Hx as [Hx|[Hx _]]; [done|]. exfalso. apply Hlv. unfold live. rewrite filter_cons, decide_True by done. simpl. lia. }
    eexists. exists 0%nat. unfold phase_prog. rewrite wait_loop_step by lia. left. exists 1%nat, x, 0.
    split_ands; [done|by apply Z.eqb_eq|done|reflexivity].
Qed.

Lemma phases_end m ph cs next :
  Forall child_at cs -> length cs = phase_count ph -> (phase_count ph < 64)%nat -> c0 <= next -> (phase_weight ph + live cs <= m)%nat ->
  inevitable passed (family (phase_prog ph) cs heading next).
Proof.
  revert ph cs next. induction m as [m IH] using lt_wf_ind. intros ph cs next Hcs Hl Hn Hnx Hm.
  destruct (decide (ph = Waiting false 0)) as [->|Hph]; [destruct cs; [apply last_wait_ends|done]|].
  apply goes_on; [by apply phases_go|]. intros w' [[|i] Hs].
  - destruct ph as [[] n|[] n]; simpl in Hl, Hn.
    + change (w' = family (phase_prog (Forking false n)) cs heading next) in Hs. subst w'.
      apply (IH (phase_weight (Forking false n) + live cs)%nat); try done; simpl in *; lia.
    + apply parent_forks in Hs as (ph & cs' & next' & -> & H1 & H2 & H3 & H4 & H5); [|done..]. eapply IH; [|done..|reflexivity]. lia.
    + change (w' = family (phase_prog (Waiting false n)) cs heading next) in Hs. subst w'.
      apply (IH (phase_weight (Waiting false n) + live cs)%nat); try done; simpl in *; lia.
    + destruct n as [|n]; [done|]. apply parent_waits_for in Hs as (cs' & -> & H1 & H2 & H3); [|lia|done..].
      eapply (IH (phase_weight (Waiting true (S n - 1)) + live cs')%nat); [simpl in *; lia|done|done|simpl; lia|done|reflexivity].
  - apply child_steps in Hs as (cs' & -> & H1 & H2 & H3); [|done]. eapply IH; [|done|congruence|done|done|reflexivity]. lia.
Qed.
End forktest.

(** ** Properties *)



(** C18: forktest ends under every schedule, with every child waited for, and reports that
    the test is passed: [fork] fails at last because the table of processes is full, each
    [wait] for a child returns one, and the [wait] after them fails. *)
Theorem forktest_ends p q c :
  0 < p -> p < c -> q <> p -> q < c ->
  inevitable (only_left p 0 (chars ("fork test"\n) ++ chars ("fork test OK"\n))) (alone p q c forktest_main).
Proof.
  intros Hp Hpc Hqp Hqc. apply goes_on; [eexists; exists 0%nat; reflexivity|]. intros w' [[|[|i]] Hs]; [|done..].
  change (w' = family p q (phase_prog (Forking false 0)) [] heading c) in Hs. subst w'.
  eapply (phases_end p q c Hp Hpc Hqp Hqc); [constructor|done|simpl; lia|lia|reflexivity].
Qed.

Lemma forktest_ends_witness :
  inevitable (only_left 3 0 (chars ("fork test"\n) ++ chars ("fork test OK"\n))) (alone 3 2 4 forktest_main).
Proof. apply (forktest_ends 3 2 4); lia. Defined.
