(* ===== verification/TestsFs.v ===== *)
(** * The tests of the file system in usertests (user/usertests.c)

    Each test is a program of Sys.v; it is given its name, and passes if it returns or
    exits with 0.  [junk] is what a variable holds that has not been initialised. *)

From ITree Require Import ITree.
From S2P Require Import Prelude Strings State Spin Uart Printf Kalloc Vm FsBlock FsInode FsDir Ulib Utils Sys Progs.

(** ** Definitions *)

Notation "a .| b" := (Z.lor a b) (at level 50, left associativity) : prog_scope.

Abbreviation str s := (AStr (Some s)).

(** A complaint, and the end of the test. *)
Definition fails {A} (fmt : string) (args : list uarg) : prog A := printf fmt args ;! exit 1.

Definition BUFSZ : Z := (MAXOPBLOCKS + 2) * BSIZE.

(** The static buffer of the program, as it is at the start. *)
Definition buf0 : list Z := replicate (Z.to_nat BUFSZ) 0.

Definition byte_at (i : Z) (buf : list Z) : Z := default 0 (buf !! Z.to_nat i).

(** A name of two characters, the second counted from '0'. *)
Definition name2 (c i : Z) : list Z := [c; u8 (48 + i)].

Section tests.
Variable junk : Z.

(** ** Definitions: truncation *)

Definition truncate1 (s : list Z) : prog unit :=
  unlink "truncfile" ;!
  let! fd1 := open "truncfile" (O_CREATE .| O_WRONLY .| O_TRUNC) in
  write fd1 "abcd" 4 ;!
  close fd1 ;!
  let! fd2 := open "truncfile" O_RDONLY in
  let! n := read fd2 32 in
  check (negb (n.1 =? 4)) (fails "%s: read %d bytes, wanted 4"\n [str s; AInt n.1]) ;!
  let! fd1 := open "truncfile" (O_WRONLY .| O_TRUNC) in
  let! fd3 := open "truncfile" O_RDONLY in
  let! n := read fd3 32 in
  check (negb (n.1 =? 0)) (
    printf "aaa fd3=%d"\n [AInt fd3] ;!
    fails "%s: read %d bytes, wanted 0"\n [str s; AInt n.1]) ;!
  let! n := read fd2 32 in
  check (negb (n.1 =? 0)) (
    printf "bbb fd2=%d"\n [AInt fd2] ;!
    fails "%s: read %d bytes, wanted 0"\n [str s; AInt n.1]) ;!
  write fd1 "abcdef" 6 ;!
  let! n := read fd3 32 in
  check (negb (n.1 =? 6)) (fails "%s: read %d bytes, wanted 6"\n [str s; AInt n.1]) ;!
  let! n := read fd2 32 in
  check (negb (n.1 =? 2)) (fails "%s: read %d bytes, wanted 2"\n [str s; AInt n.1]) ;!
  unlink "truncfile" ;!
  close fd1 ;!
  close fd2 ;!
  close fd3 ;!
  Ret tt.

Definition truncate2 (s : list Z) : prog unit :=
  unlink "truncfile" ;!
  let! fd1 := open "truncfile" (O_CREATE .| O_TRUNC .| O_WRONLY) in
  write fd1 "abcd" 4 ;!
  let! fd2 := open "truncfile" (O_TRUNC .| O_WRONLY) in
  let! n := write fd1 "x" 1 in
  check (negb (n =? -1)) (fails "%s: write returned %d, expected -1"\n [str s; AInt n]) ;!
  unlink "truncfile" ;!
  close fd1 ;!
  close fd2 ;!
  Ret tt.

Definition truncate3 (s : list Z) : prog unit :=
  let! f := open "truncfile" (O_CREATE .| O_TRUNC .| O_WRONLY) in
  close f ;!
  let! pid := fork in
  check (pid <? 0) (fails "%s: fork failed"\n [str s]) ;!
  check (pid =? 0) (
    for_ 0 100 1 (fun _ =>
      let! fd := open "truncfile" O_WRONLY in
      check (fd <? 0) (fails "%s: open failed"\n [str s]) ;!
      let! n := write fd "1234567890" 10 in
      check (negb (n =? 10)) (fails "%s: write got %d, expected 10"\n [str s; AInt n]) ;!
      close fd ;!
      let! fd := open "truncfile" O_RDONLY in
      read fd 32 ;!
      close fd ;!
      Ret tt) ;!
    exit 0) ;!
  for_ 0 150 1 (fun _ =>
    let! fd := open "truncfile" (O_CREATE .| O_WRONLY .| O_TRUNC) in
    check (fd <? 0) (fails "%s: open failed"\n [str s]) ;!
    let! n := write fd "xxx" 3 in
    check (negb (n =? 3)) (fails "%s: write got %d, expected 3"\n [str s; AInt n]) ;!
    close fd ;!
    Ret tt) ;!
  let! w := wait in
  unlink "truncfile" ;!
  exit (stored junk w.2).

(** ** Definitions: the current directory *)

Definition iputtest (s : list Z) : prog unit :=
  let! r := mkdir "iputdir" in
  check (r <? 0) (fails "%s: mkdir failed"\n [str s]) ;!
  let! r := chdir "iputdir" in
  check (r <? 0) (fails "%s: chdir iputdir failed"\n [str s]) ;!
  let! r := unlink "../iputdir" in
  check (r <? 0) (fails "%s: unlink ../iputdir failed"\n [str s]) ;!
  let! r := chdir "/" in
  check (r <? 0) (fails "%s: chdir / failed"\n [str s]).

Definition exitiputtest (s : list Z) : prog unit :=
  let! pid := fork in
  check (pid <? 0) (fails "%s: fork failed"\n [str s]) ;!
  check (pid =? 0) (
    let! r := mkdir "iputdir" in
    check (r <? 0) (fails "%s: mkdir failed"\n [str s]) ;!
    let! r := chdir "iputdir" in
    check (r <? 0) (fails "%s: child chdir failed"\n [str s]) ;!
    let! r := unlink "../iputdir" in
    check (r <? 0) (fails "%s: unlink ../iputdir failed"\n [str s]) ;!
    exit 0) ;!
  let! w := wait in
  exit (stored junk w.2).

Definition openiputtest (s : list Z) : prog unit :=
  let! r := mkdir "oidir" in
  check (r <? 0) (fails "%s: mkdir oidir failed"\n [str s]) ;!
  let! pid := fork in
  check (pid <? 0) (fails "%s: fork failed"\n [str s]) ;!
  check (pid =? 0) (
    let! fd := open "oidir" O_RDWR in
    check (0 <=? fd) (fails "%s: open directory for write succeeded"\n [str s]) ;!
    exit 0) ;!
  sleep 1 ;!
  let! r := unlink "oidir" in
  check (negb (r =? 0)) (fails "%s: unlink failed"\n [str s]) ;!
  let! w := wait in
  exit (stored junk w.2).

(** ** Definitions: simple files *)

Definition opentest (s : list Z) : prog unit :=
  let! fd := open "echo" 0 in
  check (fd <? 0) (fails "%s: open echo failed!"\n [str s]) ;!
  close fd ;!
  let! fd := open "doesnotexist" 0 in
  check (0 <=? fd) (fails "%s: open doesnotexist succeeded!"\n [str s]).

Definition writetest (s : list Z) : prog unit :=
  let N := 100 in
  let SZ := 10 in
  let! fd := open "small" (O_CREATE .| O_RDWR) in
  check (fd <? 0) (fails "%s: error: creat small failed!"\n [str s]) ;!
  for_ 0 N 1 (fun i =>
    let! n := write fd "aaaaaaaaaa" SZ in
    check (negb (n =? SZ)) (fails "%s: error: write aa %d new file failed"\n [str s; AInt i]) ;!
    let! n := write fd "bbbbbbbbbb" SZ in
    check (negb (n =? SZ)) (fails "%s: error: write bb %d new file failed"\n [str s; AInt i])) ;!
  close fd ;!
  let! fd := open "small" O_RDONLY in
  check (fd <? 0) (fails "%s: error: open small failed!"\n [str s]) ;!
  let! i := read fd (N * SZ * 2) in
  check (negb (i.1 =? N * SZ * 2)) (fails "%s: read failed"\n [str s]) ;!
  close fd ;!
  let! r := unlink "small" in
  check (r <? 0) (fails "%s: unlink small failed"\n [str s]).

(** [((int* )buf)[0] = i] *)
Definition with_int (i : Z) (buf : list Z) : list Z := splice 0 (le_split 4 (u32 i)) buf.

(** The loop that reads blocks until the end of the file; [n] have been read. *)
Definition writebig_read (s : list Z) (fd : Z) : prog unit :=
  ITree.iter (fun '(n, buf) =>
    let! r := read fd BSIZE in
    let buf := filled r.2 buf in
    let i := r.1 in
    if i =? 0 then
      check (n =? MAXFILE - 1) (fails "%s: read only %d blocks from big" [str s; AInt n]) ;!
      Ret (inr tt)
    else
      check (negb (i =? BSIZE)) (fails "%s: read failed %d"\n [str s; AInt i]) ;!
      check (negb (i32 (get_uint 0 buf) =? n)) (fails "%s: read content of block %d is %d"\n [str s; AInt n; AInt (i32 (get_uint 0 buf))]) ;!
      Ret (inl (i32 (n + 1), buf))) (0, with_int (MAXFILE - 1) buf0).

Definition writebig (s : list Z) : prog unit :=
  let! fd := open "big" (O_CREATE .| O_RDWR) in
  check (fd <? 0) (fails "%s: error: creat big failed!"\n [str s]) ;!
  for_ 0 MAXFILE 1 (fun i =>
    let! n := write fd (take (Z.to_nat BSIZE) (with_int i buf0)) BSIZE in
    check (negb (n =? BSIZE)) (fails "%s: error: write big file failed"\n [str s; AInt i])) ;!
  close fd ;!
  let! fd := open "big" O_RDONLY in
  check (fd <? 0) (fails "%s: error: open big failed!"\n [str s]) ;!
  writebig_read s fd ;!
  close fd ;!
  let! r := unlink "big" in
  check (r <? 0) (fails "%s: unlink big failed"\n [str s]).

Definition createtest (s : list Z) : prog unit :=
  for_ 0 52 1 (fun i => let! fd := open (name2 97 i) (O_CREATE .| O_RDWR) in close fd ;! Ret tt) ;!
  for_ 0 52 1 (fun i => unlink (name2 97 i) ;! Ret tt).

Definition dirtest (s : list Z) : prog unit :=
  let! r := mkdir "dir0" in
  check (r <? 0) (fails "%s: mkdir failed"\n [str s]) ;!
  let! r := chdir "dir0" in
  check (r <? 0) (fails "%s: chdir dir0 failed"\n [str s]) ;!
  let! r := chdir ".." in
  check (r <? 0) (fails "%s: chdir .. failed"\n [str s]) ;!
  let! r := unlink "dir0" in
  check (r <? 0) (fails "%s: unlink dir0 failed"\n [str s]).

(** ** Definitions: processes that share files *)

(** [wait] for [n] children, with one variable for their status. *)
Definition wait_children (n : Z) (bad : Z -> prog unit) : prog unit :=
  ITree.iter (fun '(i, xstatus) =>
    if i <? n then
      let! w := wait in
      let xstatus := stored xstatus w.2 in
      check (negb (xstatus =? 0)) (bad xstatus) ;!
      Ret (inl (i + 1, xstatus))
    else Ret (inr tt)) (0, junk).

Definition count (c : Z) (buf : list Z) : Z := Z.of_nat (length (filter (fun x => x = c) buf)).

Definition sharedfd_read (fd : Z) (buf : list Z) : prog (Z * Z) :=
  ITree.iter (fun '(nc, np, buf) =>
    let! r := read fd 10 in
    let buf := filled r.2 buf in
    if 0 <? r.1 then Ret (inl (i32 (nc + count 99 buf), i32 (np + count 112 buf), buf))
    else Ret (inr (nc, np))) (0, 0, buf).

Definition sharedfd (s : list Z) : prog unit :=
  let N := 1000 in
  let SZ := 10 in
  unlink "sharedfd" ;!
  let! fd := open "sharedfd" (O_CREATE .| O_RDWR) in
  check (fd <? 0) (fails "%s: cannot open sharedfd for writing" [str s]) ;!
  let! pid := fork in
  let buf := replicate 10 (if pid =? 0 then 99 else 112) in
  for_ 0 N 1 (fun _ =>
    let! n := write fd buf SZ in
    check (negb (n =? SZ)) (fails "%s: write sharedfd failed"\n [str s])) ;!
  check (pid =? 0) (exit 0) ;!
  let! w := wait in
  check (negb (stored junk w.2 =? 0)) (exit (stored junk w.2)) ;!
  close fd ;!
  let! fd := open "sharedfd" 0 in
  check (fd <? 0) (fails "%s: cannot open sharedfd for reading"\n [str s]) ;!
  let! r := sharedfd_read fd buf in
  close fd ;!
  unlink "sharedfd" ;!
  if (r.1 =? N * SZ) && (r.2 =? N * SZ) then exit 0
  else fails "%s: nc/np test fails"\n [str s].

(** The loop that reads a file of [fourfiles]; the result is the number of bytes. *)
Definition fourfiles_read (fd i : Z) (buf : list Z) : prog (Z * list Z) :=
  ITree.iter (fun '(total, buf) =>
    let! r := read fd BUFSZ in
    let buf := filled r.2 buf in
    if 0 <? r.1 then
      check (negb (forallb (fun j => byte_at j buf =? 48 + i) (seqZ 0 r.1))) (fails "wrong char"\n []) ;!
      Ret (inl (i32 (total + r.1), buf))
    else Ret (inr (total, buf))) (0, buf).

(** The loop over the four files, with the buffer as it is after the last one. *)
Fixpoint fourfiles_check (names : list (Z * list Z)) (buf : list Z) : prog unit :=
  match names with
  | [] => Ret tt
  | (i, fname) :: names =>
      let! fd := open fname 0 in
      let! r := fourfiles_read fd i buf in
      close fd ;!
      check (negb (r.1 =? 12 * 500)) (fails "wrong length %d"\n [AInt r.1]) ;!
      unlink fname ;!
      fourfiles_check names r.2
  end.

Definition fourfiles (s : list Z) : prog unit :=
  let N := 12 in
  let SZ := 500 in
  let names := [(0, chars "f0"); (1, chars "f1"); (2, chars "f2"); (3, chars "f3")] in
  each names (fun '(pi, fname) =>
    unlink fname ;!
    let! pid := fork in
    check (pid <? 0) (fails "fork failed"\n [str s]) ;!
    check (pid =? 0) (
      let! fd := open fname (O_CREATE .| O_RDWR) in
      check (fd <? 0) (fails "create failed"\n [str s]) ;!
      let buf := replicate 500 (48 + pi) in
      for_ 0 N 1 (fun _ =>
        let! n := write fd buf SZ in
        check (negb (n =? SZ)) (fails "write failed %d"\n [AInt n])) ;!
      exit 0)) ;!
  wait_children 4 exit ;!
  fourfiles_check names buf0.

Definition createdelete (s : list Z) : prog unit :=
  let N := 20 in
  let NCHILD := 4 in
  for_ 0 NCHILD 1 (fun pi =>
    let! pid := fork in
    check (pid <? 0) (fails "fork failed"\n [str s]) ;!
    check (pid =? 0) (
      for_ 0 N 1 (fun i =>
        let! fd := open (name2 (112 + pi) i) (O_CREATE .| O_RDWR) in
        check (fd <? 0) (fails "%s: create failed"\n [str s]) ;!
        close fd ;!
        check ((0 <? i) && (Z.rem i 2 =? 0)) (
          let! r := unlink (name2 (112 + pi) (Z.quot i 2)) in
          check (r <? 0) (fails "%s: unlink failed"\n [str s]))) ;!
      exit 0)) ;!
  wait_children NCHILD (fun _ => exit 1) ;!
  for_ 0 N 1 (fun i =>
    for_ 0 NCHILD 1 (fun pi =>
      let name := name2 (112 + pi) i in
      let! fd := open name 0 in
      (if ((i =? 0) || (Z.quot N 2 <=? i)) && (fd <? 0) then fails "%s: oops createdelete %s didn't exist"\n [str s; str name]
       else check ((1 <=? i) && (i <? Z.quot N 2) && (0 <=? fd)) (fails "%s: oops createdelete %s did exist"\n [str s; str name])) ;!
      check (0 <=? fd) (close fd ;! Ret tt))) ;!
  for_ 0 N 1 (fun i =>
    for_ 0 NCHILD 1 (fun _ => unlink (name2 (112 + i) i) ;! Ret tt)).

(** ** Definitions: links *)

Definition unlinkread (s : list Z) : prog unit :=
  let SZ := 5 in
  let! fd := open "unlinkread" (O_CREATE .| O_RDWR) in
  check (fd <? 0) (fails "%s: create unlinkread failed"\n [str s]) ;!
  write fd "hello" SZ ;!
  close fd ;!
  let! fd := open "unlinkread" O_RDWR in
  check (fd <? 0) (fails "%s: open unlinkread failed"\n [str s]) ;!
  let! r := unlink "unlinkread" in
  check (negb (r =? 0)) (fails "%s: unlink unlinkread failed"\n [str s]) ;!
  let! fd1 := open "unlinkread" (O_CREATE .| O_RDWR) in
  write fd1 "yyy" 3 ;!
  close fd1 ;!
  let! r := read fd BUFSZ in
  let buf := filled r.2 buf0 in
  check (negb (r.1 =? SZ)) (fails "%s: unlinkread read failed" [str s]) ;!
  check (negb (byte_at 0 buf =? 104)) (fails "%s: unlinkread wrong data"\n [str s]) ;!
  let! n := write fd (take 10 buf) 10 in
  check (negb (n =? 10)) (fails "%s: unlinkread write failed"\n [str s]) ;!
  close fd ;!
  unlink "unlinkread" ;!
  Ret tt.

Definition linktest (s : list Z) : prog unit :=
  let SZ := 5 in
  unlink "lf1" ;!
  unlink "lf2" ;!
  let! fd := open "lf1" (O_CREATE .| O_RDWR) in
  check (fd <? 0) (fails "%s: create lf1 failed"\n [str s]) ;!
  let! n := write fd "hello" SZ in
  check (negb (n =? SZ)) (fails "%s: write lf1 failed"\n [str s]) ;!
  close fd ;!
  let! r := link "lf1" "lf2" in
  check (r <? 0) (fails "%s: link lf1 lf2 failed"\n [str s]) ;!
  unlink "lf1" ;!
  let! fd := open "lf1" 0 in
  check (0 <=? fd) (fails "%s: unlinked lf1 but it is still there!"\n [str s]) ;!
  let! fd := open "lf2" 0 in
  check (fd <? 0) (fails "%s: open lf2 failed"\n [str s]) ;!
  let! r := read fd BUFSZ in
  check (negb (r.1 =? SZ)) (fails "%s: read lf2 failed"\n [str s]) ;!
  close fd ;!
  let! r := link "lf2" "lf2" in
  check (0 <=? r) (fails "%s: link lf2 lf2 succeeded! oops"\n [str s]) ;!
  unlink "lf2" ;!
  let! r := link "lf2" "lf1" in
  check (0 <=? r) (fails "%s: link non-existent succeeded! oops"\n [str s]) ;!
  let! r := link "." "lf1" in
  check (0 <=? r) (fails "%s: link . lf1 succeeded! oops"\n [str s]).

(** The loop over the entries of the directory: [fa] are the files seen, [n] of them;
    [de] is the entry, 2 bytes of inode number and 14 of name. *)
Definition concreate_scan (s : list Z) (fd : Z) : prog Z :=
  ITree.iter (fun '(fa, n, de) =>
    let! r := read fd 16 in
    let de := filled r.2 de in
    let name := take 14 (drop 2 de) in
    if negb (0 <? r.1) then Ret (inr n)
    else if get_ushort 0 de =? 0 then Ret (inl (fa, n, de))
    else if (byte_at 0 name =? 67) && (byte_at 2 name =? 0) then
      let i := byte_at 1 name - 48 in
      check ((i <? 0) || (40 <=? i)) (fails "%s: concreate weird file %s"\n [str s; str (cstr name)]) ;!
      check (negb (byte_at i fa =? 0)) (fails "%s: concreate duplicate file %s"\n [str s; str (cstr name)]) ;!
      Ret (inl (<[Z.to_nat i := 1]> fa, n + 1, de))
    else Ret (inl (fa, n, de))) (replicate 40 0, 0, replicate 16 (u8 junk)).

Definition concreate (s : list Z) : prog unit :=
  let N := 40 in
  for_ 0 N 1 (fun i =>
    let file := name2 67 i in
    unlink file ;!
    let! pid := fork in
    (if negb (pid =? 0) && (Z.rem i 3 =? 1) then link "C0" file ;! Ret tt
     else if (pid =? 0) && (Z.rem i 5 =? 1) then link "C0" file ;! Ret tt
     else
       let! fd := open file (O_CREATE .| O_RDWR) in
       check (fd <? 0) (fails "concreate create %s failed"\n [str file]) ;!
       close fd ;!
       Ret tt) ;!
    check (pid =? 0) (exit 0) ;!
    let! w := wait in
    check (negb (stored junk w.2 =? 0)) (exit 1)) ;!
  let! fd := open "." 0 in
  let! n := concreate_scan s fd in
  close fd ;!
  check (negb (n =? N)) (fails "%s: concreate not enough files in directory listing"\n [str s]) ;!
  for_ 0 N 1 (fun i =>
    let file := name2 67 i in
    let! pid := fork in
    check (pid <? 0) (fails "%s: fork failed"\n [str s]) ;!
    (if ((Z.rem i 3 =? 0) && (pid =? 0)) || ((Z.rem i 3 =? 1) && negb (pid =? 0)) then
       for_ 0 6 1 (fun _ => let! f := open file 0 in close f ;! Ret tt)
     else for_ 0 6 1 (fun _ => unlink file ;! Ret tt)) ;!
    check (pid =? 0) (exit 0) ;!
    wait ;!
    Ret tt).

Definition linkunlink (s : list Z) : prog unit :=
  unlink "x" ;!
  let! pid := fork in
  check (pid <? 0) (fails "%s: fork failed"\n [str s]) ;!
  ITree.iter (fun '(i, x) =>
    if i <? 100 then
      let x := u32 (x * 1103515245 + 12345) in
      (if x mod 3 =? 0 then let! f := open "x" (O_RDWR .| O_CREATE) in close f ;! Ret tt
       else if x mod 3 =? 1 then link "cat" "x" ;! Ret tt
       else unlink "x" ;! Ret tt) ;!
      Ret (inl (i + 1, x))
    else Ret (inr tt)) (0, if pid =? 0 then 97 else 1) ;!
  if pid =? 0 then exit 0 else wait ;! Ret tt.

(** The name of [bigdir]: x and two digits of base 64. *)
Definition bigdir_name (i : Z) : list Z := [120; u8 (48 + Z.quot i 64); u8 (48 + Z.rem i 64)].

Definition bigdir (s : list Z) : prog unit :=
  let N := 500 in
  unlink "bd" ;!
  let! fd := open "bd" O_CREATE in
  check (fd <? 0) (fails "%s: bigdir create failed"\n [str s]) ;!
  close fd ;!
  for_ 0 N 1 (fun i =>
    let name := bigdir_name i in
    let! r := link "bd" name in
    check (negb (r =? 0)) (fails "%s: bigdir link(bd, %s) failed"\n [str s; str name])) ;!
  unlink "bd" ;!
  for_ 0 N 1 (fun i =>
    let! r := unlink (bigdir_name i) in
    check (negb (r =? 0)) (fails "%s: bigdir unlink failed" [str s])).

(** ** Definitions: directories *)

(** The first half of [subdir]: directories and files in them. *)
Definition subdir_make (s : list Z) : prog unit :=
  unlink "ff" ;!
  let! r := mkdir "dd" in
  check (negb (r =? 0)) (fails "%s: mkdir dd failed"\n [str s]) ;!
  let! fd := open "dd/ff" (O_CREATE .| O_RDWR) in
  check (fd <? 0) (fails "%s: create dd/ff failed"\n [str s]) ;!
  write fd "ff" 2 ;!
  close fd ;!
  let! r := unlink "dd" in
  check (0 <=? r) (fails "%s: unlink dd (non-empty dir) succeeded!"\n [str s]) ;!
  let! r := mkdir "/dd/dd" in
  check (negb (r =? 0)) (fails "subdir mkdir dd/dd failed"\n [str s]) ;!
  let! fd := open "dd/dd/ff" (O_CREATE .| O_RDWR) in
  check (fd <? 0) (fails "%s: create dd/dd/ff failed"\n [str s]) ;!
  write fd "FF" 2 ;!
  close fd ;!
  let! fd := open "dd/dd/../ff" 0 in
  check (fd <? 0) (fails "%s: open dd/dd/../ff failed"\n [str s]) ;!
  let! r := read fd BUFSZ in
  check (negb (r.1 =? 2) || negb (byte_at 0 (filled r.2 buf0) =? 102)) (fails "%s: dd/dd/../ff wrong content"\n [str s]) ;!
  close fd ;!
  let! r := link "dd/dd/ff" "dd/dd/ffff" in
  check (negb (r =? 0)) (fails "link dd/dd/ff dd/dd/ffff failed"\n [str s]) ;!
  let! r := unlink "dd/dd/ff" in
  check (negb (r =? 0)) (fails "%s: unlink dd/dd/ff failed"\n [str s]) ;!
  let! fd := open "dd/dd/ff" O_RDONLY in
  check (0 <=? fd) (fails "%s: open (unlinked) dd/dd/ff succeeded"\n [str s]) ;!
  let! r := chdir "dd" in
  check (negb (r =? 0)) (fails "%s: chdir dd failed"\n [str s]) ;!
  let! r := chdir "dd/../../dd" in
  check (negb (r =? 0)) (fails "%s: chdir dd/../../dd failed"\n [str s]) ;!
  let! r := chdir "dd/../../../dd" in
  check (negb (r =? 0)) (fails "chdir dd/../../dd failed"\n [str s]) ;!
  let! r := chdir "./.." in
  check (negb (r =? 0)) (fails "%s: chdir ./.. failed"\n [str s]) ;!
  let! fd := open "dd/dd/ffff" 0 in
  check (fd <? 0) (fails "%s: open dd/dd/ffff failed"\n [str s]) ;!
  let! r := read fd BUFSZ in
  check (negb (r.1 =? 2)) (fails "%s: read dd/dd/ffff wrong len"\n [str s]) ;!
  close fd ;!
  let! fd := open "dd/dd/ff" O_RDONLY in
  check (0 <=? fd) (fails "%s: open (unlinked) dd/dd/ff succeeded!"\n [str s]).

(** The second half: what must be refused, and the removal. *)
Definition subdir_refuse (s : list Z) : prog unit :=
  let! fd := open "dd/ff/ff" (O_CREATE .| O_RDWR) in
  check (0 <=? fd) (fails "%s: create dd/ff/ff succeeded!"\n [str s]) ;!
  let! fd := open "dd/xx/ff" (O_CREATE .| O_RDWR) in
  check (0 <=? fd) (fails "%s: create dd/xx/ff succeeded!"\n [str s]) ;!
  let! fd := open "dd" O_CREATE in
  check (0 <=? fd) (fails "%s: create dd succeeded!"\n [str s]) ;!
  let! fd := open "dd" O_RDWR in
  check (0 <=? fd) (fails "%s: open dd rdwr succeeded!"\n [str s]) ;!
  let! fd := open "dd" O_WRONLY in
  check (0 <=? fd) (fails "%s: open dd wronly succeeded!"\n [str s]) ;!
  let! r := link "dd/ff/ff" "dd/dd/xx" in
  check (r =? 0) (fails "%s: link dd/ff/ff dd/dd/xx succeeded!"\n [str s]) ;!
  let! r := link "dd/xx/ff" "dd/dd/xx" in
  check (r =? 0) (fails "%s: link dd/xx/ff dd/dd/xx succeeded!"\n [str s]) ;!
  let! r := link "dd/ff" "dd/dd/ffff" in
  check (r =? 0) (fails "%s: link dd/ff dd/dd/ffff succeeded!"\n [str s]) ;!
  let! r := mkdir "dd/ff/ff" in
  check (r =? 0) (fails "%s: mkdir dd/ff/ff succeeded!"\n [str s]) ;!
  let! r := mkdir "dd/xx/ff" in
  check (r =? 0) (fails "%s: mkdir dd/xx/ff succeeded!"\n [str s]) ;!
  let! r := mkdir "dd/dd/ffff" in
  check (r =? 0) (fails "%s: mkdir dd/dd/ffff succeeded!"\n [str s]) ;!
  let! r := unlink "dd/xx/ff" in
  check (r =? 0) (fails "%s: unlink dd/xx/ff succeeded!"\n [str s]) ;!
  let! r := unlink "dd/ff/ff" in
  check (r =? 0) (fails "%s: unlink dd/ff/ff succeeded!"\n [str s]) ;!
  let! r := chdir "dd/ff" in
  check (r =? 0) (fails "%s: chdir dd/ff succeeded!"\n [str s]) ;!
  let! r := chdir "dd/xx" in
  check (r =? 0) (fails "%s: chdir dd/xx succeeded!"\n [str s]) ;!
  let! r := unlink "dd/dd/ffff" in
  check (negb (r =? 0)) (fails "%s: unlink dd/dd/ff failed"\n [str s]) ;!
  let! r := unlink "dd/ff" in
  check (negb (r =? 0)) (fails "%s: unlink dd/ff failed"\n [str s]) ;!
  let! r := unlink "dd" in
  check (r =? 0) (fails "%s: unlink non-empty dd succeeded!"\n [str s]) ;!
  let! r := unlink "dd/dd" in
  check (r <? 0) (fails "%s: unlink dd/dd failed"\n [str s]) ;!
  let! r := unlink "dd" in
  check (r <? 0) (fails "%s: unlink dd failed"\n [str s]).

Definition subdir (s : list Z) : prog unit := subdir_make s ;! subdir_refuse s.

(** ** Definitions: large files *)

Definition bigwrite (s : list Z) : prog unit :=
  unlink "bigwrite" ;!
  for_ 499 ((MAXOPBLOCKS + 2) * BSIZE) 471 (fun sz =>
    let! fd := open "bigwrite" (O_CREATE .| O_RDWR) in
    check (fd <? 0) (fails "%s: cannot create bigwrite"\n [str s]) ;!
    for_ 0 2 1 (fun _ =>
      let! cc := write fd (take (Z.to_nat sz) buf0) sz in
      check (negb (cc =? sz)) (fails "%s: write(%d) ret %d"\n [str s; AInt sz; AInt cc])) ;!
    close fd ;!
    unlink "bigwrite" ;!
    Ret tt).

Definition manywrites (s : list Z) : prog unit :=
  let nchildren := 4 in
  let howmany := 30 in
  for_ 0 nchildren 1 (fun ci =>
    let! pid := fork in
    check (pid <? 0) (fails "fork failed"\n []) ;!
    check (pid =? 0) (
      let name := [98; 97 + ci] in
      unlink name ;!
      for_ 0 howmany 1 (fun _ =>
        for_ 0 (ci + 1) 1 (fun _ =>
          let! fd := open name (O_CREATE .| O_RDWR) in
          check (fd <? 0) (fails "%s: cannot create %s"\n [str s; str name]) ;!
          let sz := BUFSZ in
          let! cc := write fd buf0 sz in
          check (negb (cc =? sz)) (fails "%s: write(%d) ret %d"\n [str s; AInt sz; AInt cc]) ;!
          close fd ;!
          Ret tt) ;!
        unlink name ;!
        Ret tt) ;!
      unlink name ;!
      exit 0)) ;!
  for_ 0 nchildren 1 (fun _ =>
    let! w := wait in
    let st := stored 0 w.2 in
    check (negb (st =? 0)) (exit st)) ;!
  exit 0.

Definition bigfile_read (s : list Z) (fd : Z) (buf : list Z) : prog Z :=
  let SZ := 600 in
  ITree.iter (fun '(i, total, buf) =>
    let! r := read fd (Z.quot SZ 2) in
    let buf := filled r.2 buf in
    let cc := r.1 in
    check (cc <? 0) (fails "%s: read bigfile failed"\n [str s]) ;!
    if cc =? 0 then Ret (inr total) else
    check (negb (cc =? Z.quot SZ 2)) (fails "%s: short read bigfile"\n [str s]) ;!
    check (negb (byte_at 0 buf =? Z.quot i 2) || negb (byte_at (Z.quot SZ 2 - 1) buf =? Z.quot i 2)) (fails "%s: read bigfile wrong data"\n [str s]) ;!
    Ret (inl (i32 (i + 1), i32 (total + cc), buf))) (0, 0, buf).

Definition bigfile (s : list Z) : prog unit :=
  let N := 20 in
  let SZ := 600 in
  unlink "bigfile.dat" ;!
  let! fd := open "bigfile.dat" (O_CREATE .| O_RDWR) in
  check (fd <? 0) (fails "%s: cannot create bigfile" [str s]) ;!
  for_ 0 N 1 (fun i =>
    let! n := write fd (replicate 600 (u8 i)) SZ in
    check (negb (n =? SZ)) (fails "%s: write bigfile failed"\n [str s])) ;!
  close fd ;!
  let! fd := open "bigfile.dat" 0 in
  check (fd <? 0) (fails "%s: cannot open bigfile"\n [str s]) ;!
  let! total := bigfile_read s fd (filled (replicate 600 (u8 (N - 1))) buf0) in
  close fd ;!
  check (negb (total =? N * SZ)) (fails "%s: read bigfile wrong total"\n [str s]) ;!
  unlink "bigfile.dat" ;!
  Ret tt.

(** ** Definitions: names *)

Definition fourteen (s : list Z) : prog unit :=
  let! r := mkdir "12345678901234" in
  check (negb (r =? 0)) (fails "%s: mkdir 12345678901234 failed"\n [str s]) ;!
  let! r := mkdir "12345678901234/123456789012345" in
  check (negb (r =? 0)) (fails "%s: mkdir 12345678901234/123456789012345 failed"\n [str s]) ;!
  let! fd := open "123456789012345/123456789012345/123456789012345" O_CREATE in
  check (fd <? 0) (fails "%s: create 123456789012345/123456789012345/123456789012345 failed"\n [str s]) ;!
  close fd ;!
  let! fd := open "12345678901234/12345678901234/12345678901234" 0 in
  check (fd <? 0) (fails "%s: open 12345678901234/12345678901234/12345678901234 failed"\n [str s]) ;!
  close fd ;!
  let! r := mkdir "12345678901234/12345678901234" in
  check (r =? 0) (fails "%s: mkdir 12345678901234/12345678901234 succeeded!"\n [str s]) ;!
  let! r := mkdir "123456789012345/12345678901234" in
  check (r =? 0) (fails "%s: mkdir 12345678901234/123456789012345 succeeded!"\n [str s]) ;!
  unlink "123456789012345/12345678901234" ;!
  unlink "12345678901234/12345678901234" ;!
  unlink "12345678901234/12345678901234/12345678901234" ;!
  unlink "123456789012345/123456789012345/123456789012345" ;!
  unlink "12345678901234/123456789012345" ;!
  unlink "12345678901234" ;!
  Ret tt.

Definition rmdot (s : list Z) : prog unit :=
  let! r := mkdir "dots" in
  check (negb (r =? 0)) (fails "%s: mkdir dots failed"\n [str s]) ;!
  let! r := chdir "dots" in
  check (negb (r =? 0)) (fails "%s: chdir dots failed"\n [str s]) ;!
  let! r := unlink "." in
  check (r =? 0) (fails "%s: rm . worked!"\n [str s]) ;!
  let! r := unlink ".." in
  check (r =? 0) (fails "%s: rm .. worked!"\n [str s]) ;!
  let! r := chdir "/" in
  check (negb (r =? 0)) (fails "%s: chdir / failed"\n [str s]) ;!
  let! r := unlink "dots/." in
  check (r =? 0) (fails "%s: unlink dots/. worked!"\n [str s]) ;!
  let! r := unlink "dots/.." in
  check (r =? 0) (fails "%s: unlink dots/.. worked!"\n [str s]) ;!
  let! r := unlink "dots" in
  check (negb (r =? 0)) (fails "%s: unlink dots failed!"\n [str s]).

Definition dirfile (s : list Z) : prog unit :=
  let! fd := open "dirfile" O_CREATE in
  check (fd <? 0) (fails "%s: create dirfile failed"\n [str s]) ;!
  close fd ;!
  let! r := chdir "dirfile" in
  check (r =? 0) (fails "%s: chdir dirfile succeeded!"\n [str s]) ;!
  let! fd := open "dirfile/xx" 0 in
  check (0 <=? fd) (fails "%s: create dirfile/xx succeeded!"\n [str s]) ;!
  let! fd := open "dirfile/xx" O_CREATE in
  check (0 <=? fd) (fails "%s: create dirfile/xx succeeded!"\n [str s]) ;!
  let! r := mkdir "dirfile/xx" in
  check (r =? 0) (fails "%s: mkdir dirfile/xx succeeded!"\n [str s]) ;!
  let! r := unlink "dirfile/xx" in
  check (r =? 0) (fails "%s: unlink dirfile/xx succeeded!"\n [str s]) ;!
  let! r := link "README" "dirfile/xx" in
  check (r =? 0) (fails "%s: link to dirfile/xx succeeded!"\n [str s]) ;!
  let! r := unlink "dirfile" in
  check (negb (r =? 0)) (fails "%s: unlink dirfile failed!"\n [str s]) ;!
  let! fd := open "." O_RDWR in
  check (0 <=? fd) (fails "%s: open . for writing succeeded!"\n [str s]) ;!
  let! fd := open "." 0 in
  let! n := write fd "x" 1 in
  check (0 <? n) (fails "%s: write . succeeded!"\n [str s]) ;!
  close fd ;!
  Ret tt.

Definition iref (s : list Z) : prog unit :=
  for_ 0 (Z.of_nat NINODE + 1) 1 (fun _ =>
    let! r := mkdir "irefd" in
    check (negb (r =? 0)) (fails "%s: mkdir irefd failed"\n [str s]) ;!
    let! r := chdir "irefd" in
    check (negb (r =? 0)) (fails "%s: chdir irefd failed"\n [str s]) ;!
    mkdir "" ;!
    link "README" "" ;!
    let! fd := open "" O_CREATE in
    check (0 <=? fd) (close fd ;! Ret tt) ;!
    let! fd := open "xx" O_CREATE in
    check (0 <=? fd) (close fd ;! Ret tt) ;!
    unlink "xx" ;!
    Ret tt) ;!
  for_ 0 (Z.of_nat NINODE + 1) 1 (fun _ => chdir ".." ;! unlink "irefd" ;! Ret tt) ;!
  chdir "/" ;!
  Ret tt.

(** ** Definitions: a full disk, and writes that fail *)

Definition fsfull_name (nfiles : Z) : list Z :=
  [102; u8 (48 + Z.quot nfiles 1000); u8 (48 + Z.quot (Z.rem nfiles 1000) 100); u8 (48 + Z.quot (Z.rem nfiles 100) 10); u8 (48 + Z.rem nfiles 10)].

(** Blocks are written until a write is short; the result is the number of bytes. *)
Definition fsfull_fill (fd : Z) : prog Z :=
  ITree.iter (fun total =>
    let! cc := write fd (take (Z.to_nat BSIZE) buf0) BSIZE in
    if cc <? BSIZE then Ret (inr total) else Ret (inl (i32 (total + cc)))) 0.

Definition fsfull : prog unit :=
  printf "fsfull test"\n [] ;!
  let! nfiles := ITree.iter (fun nfiles =>
    let name := fsfull_name nfiles in
    printf "writing %s"\n [str name] ;!
    let! fd := open name (O_CREATE .| O_RDWR) in
    if fd <? 0 then printf "open %s failed"\n [str name] ;! Ret (inr nfiles)
    else
      let! total := fsfull_fill fd in
      printf "wrote %d bytes"\n [AInt total] ;!
      close fd ;!
      if total =? 0 then Ret (inr nfiles) else Ret (inl (i32 (nfiles + 1)))) 0 in
  ITree.iter (fun nfiles =>
    if 0 <=? nfiles then unlink (fsfull_name nfiles) ;! Ret (inl (nfiles - 1)) else Ret (inr tt)) nfiles ;!
  printf "fsfull test finished"\n [].

Definition badwrite (s : list Z) : prog unit :=
  let assumed_free := 600 in
  unlink "junk" ;!
  for_ 0 assumed_free 1 (fun _ =>
    let! fd := open "junk" (O_CREATE .| O_WRONLY) in
    check (fd <? 0) (fails "open junk failed"\n []) ;!
    write fd (Addr 0xffffffffff) 1 ;!
    close fd ;!
    unlink "junk" ;!
    Ret tt) ;!
  let! fd := open "junk" (O_CREATE .| O_WRONLY) in
  check (fd <? 0) (fails "open junk failed"\n []) ;!
  let! n := write fd "x" 1 in
  check (negb (n =? 1)) (fails "write failed"\n []) ;!
  close fd ;!
  unlink "junk" ;!
  exit 0.
End tests.
