(* ===== verification/TestsProc.v ===== *)
(** * The tests of processes, memory and arguments in usertests (user/usertests.c) *)

From ITree Require Import ITree.
From S2P Require Import Prelude Strings State Spin Uart Printf Kalloc Vm FsBlock FsInode FsDir Ulib Utils Sys Progs TestsFs.

Section tests.
Variable junk : Z.

(** ** Definitions: bad addresses *)

Definition bad_addrs : list Z := [0x80000000; 0xffffffffffffffff].

Definition copyin_test (s : list Z) : prog unit :=
  each bad_addrs (fun addr =>
    let! fd := open "copyin1" (O_CREATE .| O_WRONLY) in
    check (fd <? 0) (fails "open(copyin1) failed"\n []) ;!
    let! n := write fd (Addr addr) 8192 in
    check (0 <=? n) (fails "write(fd, %p, 8192) returned %d, not -1"\n [APtr addr; AInt n]) ;!
    close fd ;!
    unlink "copyin1" ;!
    let! n := write 1 (Addr addr) 8192 in
    check (0 <? n) (fails "write(1, %p, 8192) returned %d, not -1 or 0"\n [APtr addr; AInt n]) ;!
    let! p := pipe in
    check (p.1 <? 0) (fails "pipe() failed"\n []) ;!
    let fds := p.2 in
    let! n := write fds.2 (Addr addr) 8192 in
    check (0 <? n) (fails "write(pipe, %p, 8192) returned %d, not -1 or 0"\n [APtr addr; AInt n]) ;!
    close fds.1 ;!
    close fds.2 ;!
    Ret tt).

Definition copyout_test (s : list Z) : prog unit :=
  each bad_addrs (fun addr =>
    let! fd := open "README" 0 in
    check (fd <? 0) (fails "open(README) failed"\n []) ;!
    let! n := call (SYS_read fd (To addr) 8192) in
    check (0 <? n.1) (fails "read(fd, %p, 8192) returned %d, not -1 or 0"\n [APtr addr; AInt n.1]) ;!
    close fd ;!
    let! p := pipe in
    check (p.1 <? 0) (fails "pipe() failed"\n []) ;!
    let fds := p.2 in
    let! n := write fds.2 "x" 1 in
    check (negb (n =? 1)) (fails "pipe write failed"\n []) ;!
    let! n := call (SYS_read fds.1 (To addr) 8192) in
    check (0 <? n.1) (fails "read(pipe, %p, 8192) returned %d, not -1 or 0"\n [APtr addr; AInt n.1]) ;!
    close fds.1 ;!
    close fds.2 ;!
    Ret tt).

Definition copyinstr1 (s : list Z) : prog unit :=
  each bad_addrs (fun addr =>
    let! fd := open (Addr addr) (O_CREATE .| O_WRONLY) in
    check (0 <=? fd) (fails "open(%p) returned %d, not -1"\n [APtr addr; AInt fd])).

Definition copyinstr2 (s : list Z) : prog unit :=
  let b := replicate MAXPATH 120 in
  let! ret := unlink b in
  check (negb (ret =? -1)) (fails "unlink(%s) returned %d, not -1"\n [str b; AInt ret]) ;!
  let! fd := open b (O_CREATE .| O_WRONLY) in
  check (negb (fd =? -1)) (fails "open(%s) returned %d, not -1"\n [str b; AInt fd]) ;!
  let! ret := link b b in
  check (negb (ret =? -1)) (fails "link(%s, %s) returned %d, not -1"\n [str b; str b; AInt ret]) ;!
  let! ret := exec b ["xx" : ubuf] in
  check (negb (ret =? -1)) (fails "exec(%s) returned %d, not -1"\n [str b; AInt fd]) ;!
  let! pid := fork in
  check (pid <? 0) (fails "fork failed"\n []) ;!
  check (pid =? 0) (
    let big := replicate (Z.to_nat PGSIZE) 120 in
    let! ret := exec "echo" [big : ubuf; big : ubuf; big : ubuf] in
    check (negb (ret =? -1)) (fails "exec(echo, BIG) returned %d, not -1"\n [AInt fd]) ;!
    exit 747) ;!
  let! w := wait in
  check (negb (stored 0 w.2 =? 747)) (fails "exec(echo, BIG) succeeded, should have failed"\n []).

(** Printing a string at an address, up to its end. *)
Definition print_at (a : Z) : prog unit :=
  ITree.iter (fun a =>
    let! c := load a in
    if c =? 0 then Ret (inr tt) else putc 1 c ;! Ret (inl (u64 (a + 1)))) a.

Definition copyinstr3 (s : list Z) : prog unit :=
  sbrk 8192 ;!
  let! top := sbrk 0 in
  check (negb (u64 top mod PGSIZE =? 0)) (sbrk (PGSIZE - u64 top mod PGSIZE) ;! Ret tt) ;!
  let! top := sbrk 0 in
  check (negb (u64 top mod PGSIZE =? 0)) (fails "oops"\n []) ;!
  let b := u64 (top - 1) in
  store b 120 ;!
  let! ret := unlink (Addr b) in
  check (negb (ret =? -1)) (printf "unlink(" [] ;! print_at b ;! fails ") returned %d, not -1"\n [AInt ret]) ;!
  let! fd := open (Addr b) (O_CREATE .| O_WRONLY) in
  check (negb (fd =? -1)) (printf "open(" [] ;! print_at b ;! fails ") returned %d, not -1"\n [AInt fd]) ;!
  let! ret := link (Addr b) (Addr b) in
  check (negb (ret =? -1)) (printf "link(" [] ;! print_at b ;! printf ", " [] ;! print_at b ;! fails ") returned %d, not -1"\n [AInt ret]) ;!
  let! ret := exec (Addr b) ["xx" : ubuf] in
  check (negb (ret =? -1)) (printf "exec(" [] ;! print_at b ;! fails ") returned %d, not -1"\n [AInt fd]).

(** What [sbrk] returns when it fails, as an address. *)
Definition NOMEM : Z := 0xffffffffffffffff.

Definition rwsbrk : prog unit :=
  let! a := sbrk 8192 in
  let a := u64 a in
  check (a =? NOMEM) (fails "sbrk(rwsbrk) failed"\n []) ;!
  let! r := sbrk (-8192) in
  check (u64 r =? NOMEM) (fails "sbrk(rwsbrk) shrink failed"\n []) ;!
  let! fd := open "rwsbrk" (O_CREATE .| O_WRONLY) in
  check (fd <? 0) (fails "open(rwsbrk) failed"\n []) ;!
  let! n := write fd (Addr (u64 (a + 4096))) 1024 in
  check (0 <=? n) (fails "write(fd, %p, 1024) returned %d, not -1"\n [APtr (u64 (a + 4096)); AInt n]) ;!
  close fd ;!
  unlink "rwsbrk" ;!
  let! fd := open "README" O_RDONLY in
  check (fd <? 0) (fails "open(rwsbrk) failed"\n []) ;!
  let! n := call (SYS_read fd (To (u64 (a + 4096))) 10) in
  check (0 <=? n.1) (fails "read(fd, %p, 10) returned %d, not -1"\n [APtr (u64 (a + 4096)); AInt n.1]) ;!
  close fd ;!
  exit 0.

(** ** Definitions: exec and pipes *)

Definition exectest (s : list Z) : prog unit :=
  unlink "echo-ok" ;!
  let! pid := fork in
  check (pid <? 0) (fails "%s: fork failed"\n [str s]) ;!
  check (pid =? 0) (
    close 1 ;!
    let! fd := open "echo-ok" (O_CREATE .| O_WRONLY) in
    check (fd <? 0) (fails "%s: create failed"\n [str s]) ;!
    check (negb (fd =? 1)) (fails "%s: wrong fd"\n [str s]) ;!
    let! r := exec "echo" ["echo" : ubuf; "OK" : ubuf] in
    check (r <? 0) (fails "%s: exec echo failed"\n [str s])) ;!
  let! w := wait in
  check (negb (w.1 =? pid)) (printf "%s: wait failed!"\n [str s]) ;!
  let xstatus := stored junk w.2 in
  check (negb (xstatus =? 0)) (exit xstatus) ;!
  let! fd := open "echo-ok" O_RDONLY in
  check (fd <? 0) (fails "%s: open failed"\n [str s]) ;!
  let! r := read fd 2 in
  check (negb (r.1 =? 2)) (fails "%s: read failed"\n [str s]) ;!
  unlink "echo-ok" ;!
  let buf := filled r.2 (replicate 3 (u8 junk)) in
  if (byte_at 0 buf =? 79) && (byte_at 1 buf =? 75) then exit 0
  else fails "%s: wrong output"\n [str s].

(** [n] bytes that count on from [seq]. *)
Definition counting (seq n : Z) : list Z := (fun i => u8 (seq + i)) <$> seqZ 0 n.

(** The loop that reads the pipe; the result is the total, or nothing when the bytes are
    wrong. *)
Definition pipe1_read (s : list Z) (fd : Z) : prog (option Z) :=
  ITree.iter (fun '(seq, total, cc, buf) =>
    let! r := read fd cc in
    let buf := filled r.2 buf in
    let n := r.1 in
    if 0 <? n then
      if forallb (fun i => Z.land (byte_at i buf) 0xff =? Z.land (seq + i) 0xff) (seqZ 0 n) then
        let cc := cc * 2 in
        Ret (inl (i32 (seq + n), i32 (total + n), if BUFSZ <? cc then BUFSZ else cc, buf))
      else printf "%s: pipe1 oops 2"\n [str s] ;! Ret (inr None)
    else Ret (inr (Some total))) (0, 0, 1, buf0).

(** The complaint about the total lacks the argument for its first conversion. *)
Definition pipe1 (s : list Z) : prog unit :=
  let N := 5 in
  let SZ := 1033 in
  let! p := pipe in
  check (negb (p.1 =? 0)) (fails "%s: pipe() failed"\n [str s]) ;!
  let fds := p.2 in
  let! pid := fork in
  if pid =? 0 then
    close fds.1 ;!
    for_ 0 N 1 (fun n =>
      let! r := write fds.2 (counting (n * SZ) SZ) SZ in
      check (negb (r =? SZ)) (fails "%s: pipe1 oops 1"\n [str s])) ;!
    exit 0
  else if 0 <? pid then
    close fds.2 ;!
    let! total := pipe1_read s fds.1 in
    match total with
    | None => Ret tt
    | Some total =>
        check (negb (total =? N * SZ)) (fails "%s: pipe1 oops 3 total %d"\n [AInt total]) ;!
        close fds.1 ;!
        let! w := wait in
        exit (stored junk w.2)
    end
  else fails "%s: fork() failed"\n [str s].

(** ** Definitions: fork, exit, wait and kill *)

Definition killstatus (s : list Z) : prog unit :=
  ITree.iter (fun '(i, xst) =>
    if i <? 100 then
      let! pid1 := fork in
      check (pid1 <? 0) (fails "%s: fork failed"\n [str s]) ;!
      check (pid1 =? 0) (forever (getpid ;! Ret tt)) ;!
      sleep 1 ;!
      kill pid1 ;!
      let! w := wait in
      let xst := stored xst w.2 in
      check (negb (xst =? -1)) (fails "%s: status should be -1"\n [str s]) ;!
      Ret (inl (i + 1, xst))
    else Ret (inr tt)) (0, junk) ;!
  exit 0.

Definition preempt (s : list Z) : prog unit :=
  let! pid1 := fork in
  check (pid1 <? 0) (fails "%s: fork failed" [str s]) ;!
  check (pid1 =? 0) (forever (Ret tt)) ;!
  let! pid2 := fork in
  check (pid2 <? 0) (fails "%s: fork failed"\n [str s]) ;!
  check (pid2 =? 0) (forever (Ret tt)) ;!
  let! p := pipe in
  let pfds := p.2 in
  let! pid3 := fork in
  check (pid3 <? 0) (fails "%s: fork failed"\n [str s]) ;!
  check (pid3 =? 0) (
    close pfds.1 ;!
    let! n := write pfds.2 "x" 1 in
    check (negb (n =? 1)) (printf "%s: preempt write error" [str s]) ;!
    close pfds.2 ;!
    forever (Ret tt)) ;!
  close pfds.2 ;!
  let! r := read pfds.1 BUFSZ in
  if negb (r.1 =? 1) then printf "%s: preempt read error" [str s]
  else
    close pfds.1 ;!
    printf "kill... " [] ;!
    kill pid1 ;!
    kill pid2 ;!
    kill pid3 ;!
    printf "wait... " [] ;!
    wait ;!
    wait ;!
    wait ;!
    Ret tt.

Definition exitwait (s : list Z) : prog unit :=
  for_ 0 100 1 (fun i =>
    let! pid := fork in
    check (pid <? 0) (fails "%s: fork failed"\n [str s]) ;!
    if negb (pid =? 0) then
      let! w := wait in
      check (negb (w.1 =? pid)) (fails "%s: wait wrong pid"\n [str s]) ;!
      check (negb (i =? stored junk w.2)) (fails "%s: wait wrong exit status"\n [str s])
    else exit i).

Definition reparent_test (s : list Z) : prog unit :=
  let! master_pid := getpid in
  for_ 0 200 1 (fun _ =>
    let! pid := fork in
    check (pid <? 0) (fails "%s: fork failed"\n [str s]) ;!
    if negb (pid =? 0) then
      let! w := wait in
      check (negb (w.1 =? pid)) (fails "%s: wait wrong pid"\n [str s])
    else
      let! pid2 := fork in
      check (pid2 <? 0) (kill master_pid ;! exit 1) ;!
      exit 0) ;!
  exit 0.

Definition twochildren (s : list Z) : prog unit :=
  for_ 0 1000 1 (fun _ =>
    let! pid1 := fork in
    check (pid1 <? 0) (fails "%s: fork failed"\n [str s]) ;!
    if pid1 =? 0 then exit 0 else
    let! pid2 := fork in
    check (pid2 <? 0) (fails "%s: fork failed"\n [str s]) ;!
    if pid2 =? 0 then exit 0 else
    wait ;!
    wait ;!
    Ret tt).

Definition forkfork (s : list Z) : prog unit :=
  let N := 2 in
  for_ 0 N 1 (fun _ =>
    let! pid := fork in
    check (pid <? 0) (fails "%s: fork failed" [str s]) ;!
    check (pid =? 0) (
      for_ 0 200 1 (fun _ =>
        let! pid1 := fork in
        check (pid1 <? 0) (exit 1) ;!
        check (pid1 =? 0) (exit 0) ;!
        wait ;!
        Ret tt) ;!
      exit 0)) ;!
  wait_children junk N (fun _ => fails "%s: fork in child failed" [str s]).

Definition forkforkfork (s : list Z) : prog unit :=
  unlink "stopforking" ;!
  let! pid := fork in
  check (pid <? 0) (fails "%s: fork failed" [str s]) ;!
  check (pid =? 0) (forever (
    let! fd := open "stopforking" 0 in
    check (0 <=? fd) (exit 0) ;!
    let! pid := fork in
    check (pid <? 0) (let! f := open "stopforking" (O_CREATE .| O_RDWR) in close f ;! Ret tt))) ;!
  sleep 20 ;!
  let! f := open "stopforking" (O_CREATE .| O_RDWR) in
  close f ;!
  wait ;!
  sleep 10 ;!
  Ret tt.

Definition reparent2 (s : list Z) : prog unit :=
  for_ 0 800 1 (fun _ =>
    let! pid1 := fork in
    check (pid1 <? 0) (fails "fork failed"\n []) ;!
    check (pid1 =? 0) (fork ;! fork ;! exit 0) ;!
    wait ;!
    Ret tt) ;!
  exit 0.

(** All memory is allocated as a list of blocks, then freed. *)
Definition mem_alloc : prog Z :=
  ITree.iter (fun m1 =>
    let! m2 := call (LIB_malloc 10001) in
    if m2 =? 0 then Ret (inr m1) else store m2 m1 ;! Ret (inl m2)) 0.

Definition mem_free (m1 : Z) : prog unit :=
  ITree.iter (fun m1 =>
    if m1 =? 0 then Ret (inr tt) else
    let! m2 := load m1 in
    call (LIB_free m1) ;!
    Ret (inl m2)) m1.

Definition mem_test (s : list Z) : prog unit :=
  let! pid := fork in
  if pid =? 0 then
    let! m1 := mem_alloc in
    mem_free m1 ;!
    let! m1 := call (LIB_malloc (1024 * 20)) in
    check (m1 =? 0) (fails "couldn't allocate mem?!!"\n [str s]) ;!
    call (LIB_free m1) ;!
    exit 0
  else
    let! w := wait in
    let xstatus := stored junk w.2 in
    check (xstatus =? -1) (exit 0) ;!
    exit xstatus.

Definition forktest_test (s : list Z) : prog unit :=
  let N := 1000 in
  let! n := fork_all N in
  check (n =? 0) (fails "%s: no fork at all!"\n [str s]) ;!
  check (n =? N) (fails "%s: fork claimed to work 1000 times!"\n [str s]) ;!
  wait_all n (fails "%s: wait stopped early"\n [str s]) ;!
  let! w := wait in
  check (negb (w.1 =? -1)) (fails "%s: wait got too many"\n [str s]).

(** ** Definitions: memory *)

Definition sbrkbasic_more (s : list Z) (a : Z) : prog Z :=
  ITree.iter (fun '(i, a) =>
    if i <? 5000 then
      let! b := sbrk 1 in
      check (negb (b =? a)) (fails "%s: sbrk test failed %d %x %x"\n [str s; AInt i; AInt (i32 a); AInt (i32 b)]) ;!
      store b 1 ;!
      Ret (inl (i + 1, b + 1))
    else Ret (inr a)) (0, a).

Definition sbrkbasic (s : list Z) : prog unit :=
  let TOOMUCH := 1024 * 1024 * 1024 in
  let! pid := fork in
  check (pid <? 0) (fails "fork failed in sbrkbasic"\n []) ;!
  check (pid =? 0) (
    let! a := sbrk TOOMUCH in
    check (u64 a =? NOMEM) (exit 0) ;!
    for_ a (a + TOOMUCH) 4096 (fun b => store b 99) ;!
    exit 1) ;!
  let! w := wait in
  check (stored junk w.2 =? 1) (fails "%s: too much memory allocated!"\n [str s]) ;!
  let! a := sbrk 0 in
  let! a := sbrkbasic_more s a in
  let! pid := fork in
  check (pid <? 0) (fails "%s: sbrk test fork failed"\n [str s]) ;!
  sbrk 1 ;!
  let! c := sbrk 1 in
  check (negb (c =? a + 1)) (fails "%s: sbrk test failed post-fork"\n [str s]) ;!
  check (pid =? 0) (exit 0) ;!
  let! w' := wait in
  exit (stored (stored junk w.2) w'.2).

Definition BIG : Z := 100 * 1024 * 1024.

Definition sbrkmuch (s : list Z) : prog unit :=
  let! oldbrk := sbrk 0 in
  let! a := sbrk 0 in
  let amt := u64 (BIG - a) in
  let! p := sbrk (i32 amt) in
  check (negb (p =? a)) (fails "%s: sbrk test failed to grow big address space; enough phys mem?"\n [str s]) ;!
  let! eee := sbrk 0 in
  for_ a eee 4096 (fun pp => store pp 1) ;!
  let lastaddr := BIG - 1 in
  store lastaddr 99 ;!
  let! a := sbrk 0 in
  let! c := sbrk (- PGSIZE) in
  check (u64 c =? NOMEM) (fails "%s: sbrk could not deallocate"\n [str s]) ;!
  let! c := sbrk 0 in
  check (negb (c =? a - PGSIZE)) (fails "%s: sbrk deallocation produced wrong address, a %x c %x"\n [str s; AInt (i32 a); AInt (i32 c)]) ;!
  let! a := sbrk 0 in
  let! c := sbrk PGSIZE in
  (if negb (c =? a) then fails "%s: sbrk re-allocation failed, a %x c %x"\n [str s; AInt (i32 a); AInt (i32 c)]
   else
     let! b := sbrk 0 in
     check (negb (b =? a + PGSIZE)) (fails "%s: sbrk re-allocation failed, a %x c %x"\n [str s; AInt (i32 a); AInt (i32 c)])) ;!
  let! v := load lastaddr in
  check (v =? 99) (fails "%s: sbrk de-allocation didn't really deallocate"\n [str s]) ;!
  let! a := sbrk 0 in
  let! b := sbrk 0 in
  let! c := sbrk (i32 (- (b - oldbrk))) in
  check (negb (c =? a)) (fails "%s: sbrk downsize failed, a %x c %x"\n [str s; AInt (i32 a); AInt (i32 c)]).

Definition kernmem (s : list Z) : prog unit :=
  for_ KERNBASE (KERNBASE + 2000000) 50000 (fun a =>
    let! pid := fork in
    check (pid <? 0) (fails "%s: fork failed"\n [str s]) ;!
    check (pid =? 0) (
      let! v := load a in
      fails "%s: oops could read %x = %x"\n [str s; AInt (i32 a); AInt v]) ;!
    let! w := wait in
    check (negb (stored junk w.2 =? -1)) (exit 1)).

Definition MAXVAplus (s : list Z) : prog unit :=
  ITree.iter (fun a =>
    if negb (a =? 0) then
      let! pid := fork in
      check (pid <? 0) (fails "%s: fork failed"\n [str s]) ;!
      check (pid =? 0) (
        store a 99 ;!
        fails "%s: oops wrote %x"\n [str s; AInt (i32 a)]) ;!
      let! w := wait in
      check (negb (stored junk w.2 =? -1)) (exit 1) ;!
      Ret (inl (u64 (Z.shiftl a 1)))
    else Ret (inr tt)) MAXVA.

(** A child that allocates a lot of memory, says so and waits to be killed. *)
Definition sbrkfail_child (fds : Z * Z) : prog unit :=
  let! b := sbrk 0 in
  sbrk (i32 (u64 (BIG - b))) ;!
  write fds.2 "x" 1 ;!
  forever (sleep 1000 ;! Ret tt).

(** The pids of ten children, -1 where there is none. *)
Definition sbrkfail_fork (fds : Z * Z) : prog (list Z) :=
  ITree.iter (fun pids =>
    if (length pids <? 10)%nat then
      let! pid := fork in
      check (pid =? 0) (sbrkfail_child fds) ;!
      check (negb (pid =? -1)) (read fds.1 1 ;! Ret tt) ;!
      Ret (inl (pids ++ [pid]))
    else Ret (inr pids)) [].

(** [n] adds up the bytes at the starts of the pages. *)
Definition sbrkfail_touch (a : Z) : prog Z :=
  ITree.iter (fun '(i, n) =>
    if i <? 10 * BIG then
      let! v := load (a + i) in
      Ret (inl (i + PGSIZE, i32 (n + v)))
    else Ret (inr n)) (0, 0).

Definition sbrkfail (s : list Z) : prog unit :=
  let! p := pipe in
  check (negb (p.1 =? 0)) (fails "%s: pipe() failed"\n [str s]) ;!
  let! pids := sbrkfail_fork p.2 in
  let! c := sbrk PGSIZE in
  each pids (fun pid => check (negb (pid =? -1)) (kill pid ;! wait ;! Ret tt)) ;!
  check (u64 c =? NOMEM) (fails "%s: failed sbrk leaked memory"\n [str s]) ;!
  let! pid := fork in
  check (pid <? 0) (fails "%s: fork failed"\n [str s]) ;!
  check (pid =? 0) (
    let! a := sbrk 0 in
    sbrk (10 * BIG) ;!
    let! n := sbrkfail_touch a in
    fails "%s: allocate a lot of memory succeeded %d"\n [str s; AInt n]) ;!
  let! w := wait in
  let xstatus := stored junk w.2 in
  check (negb (xstatus =? -1) && negb (xstatus =? 2)) (exit 1).

Definition sbrkarg (s : list Z) : prog unit :=
  let! a := sbrk PGSIZE in
  let! fd := open "sbrk" (O_CREATE .| O_WRONLY) in
  unlink "sbrk" ;!
  check (fd <? 0) (fails "%s: open sbrk failed"\n [str s]) ;!
  let! n := write fd (Addr (u64 a)) PGSIZE in
  check (n <? 0) (fails "%s: write sbrk failed"\n [str s]) ;!
  close fd ;!
  let! a := sbrk PGSIZE in
  let! p := call (SYS_pipe (To (u64 a))) in
  check (negb (p.1 =? 0)) (fails "%s: pipe() failed"\n [str s]).

Definition validatetest (s : list Z) : prog unit :=
  let hi := 1100 * 1024 in
  for_ 0 (hi + 1) PGSIZE (fun p =>
    let! r := link "nosuchfile" (Addr p) in
    check (negb (r =? -1)) (fails "%s: link should not succeed"\n [str s])).

(** [uninit] is the address of the array of 10000 bytes that is not initialised. *)
Definition bsstest (uninit : Z) (s : list Z) : prog unit :=
  for_ 0 10000 1 (fun i =>
    let! c := load (uninit + i) in
    check (negb (c =? 0)) (fails "%s: bss test failed"\n [str s])).

Definition bigarg : list Z := chars ("bigargs test: failed"\n) ++ replicate 199 32.

Definition bigargtest (s : list Z) : prog unit :=
  unlink "bigarg-ok" ;!
  let! pid := fork in
  (if pid =? 0 then
     exec "echo" (replicate (MAXARG - 1) (Bytes bigarg)) ;!
     let! fd := open "bigarg-ok" O_CREATE in
     close fd ;!
     exit 0
   else check (pid <? 0) (fails "%s: bigargtest: fork failed"\n [str s])) ;!
  let! w := wait in
  let xstatus := stored junk w.2 in
  check (negb (xstatus =? 0)) (exit xstatus) ;!
  let! fd := open "bigarg-ok" 0 in
  check (fd <? 0) (fails "%s: bigarg test failed!"\n [str s]) ;!
  close fd ;!
  Ret tt.

Definition argptest (s : list Z) : prog unit :=
  let! fd := open "init" O_RDONLY in
  check (fd <? 0) (fails "%s: open failed"\n [str s]) ;!
  let! b := sbrk 0 in
  call (SYS_read fd (To (u64 (b - 1))) (-1)) ;!
  close fd ;!
  Ret tt.

Definition stacktest (s : list Z) : prog unit :=
  let! pid := fork in
  (if pid =? 0 then
     let! sp := call REG_sp in
     let! v := load (u64 (sp - PGSIZE)) in
     fails "%s: stacktest: read below stack %p"\n [str s; APtr (u64 v)]
   else check (pid <? 0) (fails "%s: fork failed"\n [str s])) ;!
  let! w := wait in
  let xstatus := stored junk w.2 in
  if xstatus =? -1 then exit 0 else exit xstatus.

Definition pgbug (s : list Z) : prog unit :=
  exec (Addr 0xeaeb0b5b00002f5e) [] ;!
  call (SYS_pipe (To 0xeaeb0b5b00002f5e)) ;!
  exit 0.

Definition sbrkbugs (s : list Z) : prog unit :=
  let! pid := fork in
  check (pid <? 0) (fails "fork failed"\n []) ;!
  check (pid =? 0) (let! b := sbrk 0 in let sz := i32 b in sbrk (i32 (- sz)) ;! exit 0) ;!
  wait ;!
  let! pid := fork in
  check (pid <? 0) (fails "fork failed"\n []) ;!
  check (pid =? 0) (let! b := sbrk 0 in let sz := i32 b in sbrk (i32 (- (sz - 3500))) ;! exit 0) ;!
  wait ;!
  let! pid := fork in
  check (pid <? 0) (fails "fork failed"\n []) ;!
  check (pid =? 0) (let! b := sbrk 0 in sbrk (i32 (10 * 4096 + 2048 - u64 b)) ;! sbrk (-10) ;! exit 0) ;!
  wait ;!
  exit 0.

Definition sbrklast (s : list Z) : prog unit :=
  let! top := sbrk 0 in
  check (negb (u64 top mod 4096 =? 0)) (sbrk (4096 - u64 top mod 4096) ;! Ret tt) ;!
  sbrk 4096 ;!
  sbrk 10 ;!
  sbrk (-20) ;!
  let! top := sbrk 0 in
  let p := u64 (top - 64) in
  store p 120 ;!
  store (p + 1) 0 ;!
  let! fd := open (Addr p) (O_RDWR .| O_CREATE) in
  write fd (Addr p) 1 ;!
  close fd ;!
  let! fd := open (Addr p) O_RDWR in
  store p 0 ;!
  call (SYS_read fd (To p) 1) ;!
  let! c := load p in
  check (negb (c =? 120)) (exit 1).

Definition sbrk8000 (s : list Z) : prog unit :=
  sbrk (i32 0x80000004) ;!
  let! top := sbrk 0 in
  let! v := load (u64 (top - 1)) in
  store (u64 (top - 1)) (u8 (v + 1)).

Definition badarg (s : list Z) : prog unit :=
  for_ 0 50000 1 (fun _ => exec "echo" [Addr 0xffffffff] ;! Ret tt) ;!
  exit 0.

(** Pages are allocated and touched until there are no more. *)
Definition take_all : prog unit :=
  ITree.iter (fun _ : unit =>
    let! a := sbrk 4096 in
    let a := u64 a in
    if a =? NOMEM then Ret (inr tt) else store (u64 (a + 4096 - 1)) 1 ;! Ret (inl tt)) tt.

Definition execout (s : list Z) : prog unit :=
  for_ 0 15 1 (fun avail =>
    let! pid := fork in
    if pid <? 0 then fails "fork failed"\n []
    else if pid =? 0 then
      take_all ;!
      for_ 0 avail 1 (fun _ => sbrk (-4096) ;! Ret tt) ;!
      close 1 ;!
      exec "echo" ["echo" : ubuf; "x" : ubuf] ;!
      exit 0
    else wait ;! Ret tt) ;!
  exit 0.
End tests.
