(* ===== verification/Usertests.v ===== *)
(** * The driver of usertests (user/usertests.c), and what a verdict means

    The tests are in TestsFs.v and TestsProc.v.  The theorems are about the program, for
    every behaviour of the system calls: a test that complains does not pass, with three
    exceptions that are shown too, and the driver says that all tests have passed only if
    each of them exited with 0. *)

From ITree Require Import ITree.
From S2P Require Import Prelude Strings State Spin Uart Printf Kalloc Vm FsBlock FsInode FsDir Ulib Utils Sys Progs TestsFs TestsProc.

(** ** Definitions *)

(** The child of [countfree] takes all pages and reports each. *)
Definition countfree_child (fds : Z * Z) : prog unit :=
  close fds.1 ;!
  ITree.iter (fun _ : unit =>
    let! a := sbrk 4096 in
    let a := u64 a in
    if a =? NOMEM then Ret (inr tt) else
    store (u64 (a + 4096 - 1)) 1 ;!
    let! n := write fds.2 "x" 1 in
    check (negb (n =? 1)) (fails "write() failed in countfree()"\n []) ;!
    Ret (inl tt)) tt ;!
  exit 0.

Definition countfree_read (fd : Z) : prog Z :=
  ITree.iter (fun n =>
    let! r := read fd 1 in
    check (r.1 <? 0) (fails "read() failed in countfree()"\n []) ;!
    if r.1 =? 0 then Ret (inr n) else Ret (inl (i32 (n + 1)))) 0.

Definition countfree : prog Z :=
  let! p := pipe in
  check (p.1 <? 0) (fails "pipe() failed in countfree()"\n []) ;!
  let fds := p.2 in
  let! pid := fork in
  check (pid <? 0) (fails "fork failed in countfree()"\n []) ;!
  check (pid =? 0) (countfree_child fds) ;!
  close fds.2 ;!
  let! n := countfree_read fds.1 in
  close fds.1 ;!
  wait ;!
  Ret n.

Section driver.
Variables (junk uninit : Z).

Definition run_test (f : list Z -> prog unit) (s : list Z) : prog bool :=
  printf "test %s: " [str s] ;!
  let! pid := fork in
  check (pid <? 0) (fails "runtest: fork error"\n []) ;!
  check (pid =? 0) (f s ;! exit 0) ;!
  let! w := wait in
  let xstatus := stored junk w.2 in
  (if negb (xstatus =? 0) then printf "FAILED"\n [] else printf "OK"\n []) ;!
  Ret (xstatus =? 0).

Definition tests : list ((list Z -> prog unit) * string) := [
  (MAXVAplus junk, "MAXVAplus"); (manywrites, "manywrites"); (execout, "execout"); (copyin_test, "copyin");
  (copyout_test, "copyout"); (copyinstr1, "copyinstr1"); (copyinstr2, "copyinstr2"); (copyinstr3, "copyinstr3");
  (fun _ => rwsbrk, "rwsbrk"); (truncate1, "truncate1"); (truncate2, "truncate2"); (truncate3 junk, "truncate3");
  (reparent2, "reparent2"); (pgbug, "pgbug"); (sbrkbugs, "sbrkbugs"); (badarg, "badarg"); (reparent_test, "reparent");
  (twochildren, "twochildren"); (forkfork junk, "forkfork"); (forkforkfork, "forkforkfork"); (argptest, "argptest");
  (createdelete junk, "createdelete"); (linkunlink, "linkunlink"); (linktest, "linktest"); (unlinkread, "unlinkread");
  (concreate junk, "concreate"); (subdir, "subdir"); (fourfiles junk, "fourfiles"); (sharedfd junk, "sharedfd");
  (dirtest, "dirtest"); (exectest junk, "exectest"); (bigargtest junk, "bigargtest"); (bigwrite, "bigwrite");
  (bsstest uninit, "bsstest"); (sbrkbasic junk, "sbrkbasic"); (sbrkmuch, "sbrkmuch"); (kernmem junk, "kernmem");
  (sbrkfail junk, "sbrkfail"); (sbrkarg, "sbrkarg"); (sbrklast, "sbrklast"); (sbrk8000, "sbrk8000");
  (validatetest, "validatetest"); (stacktest junk, "stacktest"); (opentest, "opentest"); (writetest, "writetest");
  (writebig, "writebig"); (createtest, "createtest"); (openiputtest junk, "openiput"); (exitiputtest junk, "exitiput");
  (iputtest, "iput"); (mem_test junk, "mem"); (pipe1 junk, "pipe1"); (killstatus junk, "killstatus"); (preempt, "preempt");
  (exitwait junk, "exitwait"); (rmdot, "rmdot"); (fourteen, "fourteen"); (bigfile, "bigfile"); (dirfile, "dirfile");
  (iref, "iref"); (forktest_test, "forktest"); (bigdir, "bigdir")].

(** The loop of the continuous mode: whether a test has failed; it stops at the first. *)
Fixpoint run_until (ts : list ((list Z -> prog unit) * string)) : prog bool :=
  match ts with
  | [] => Ret false
  | (f, s) :: ts =>
      let! ok := run_test f s in
      if negb ok then Ret true else run_until ts
  end.

Definition continuously (continuous : Z) : prog unit :=
  printf "continuous usertests starting"\n [] ;!
  forever (
    let! free0 := countfree in
    let! fail := run_until tests in
    check fail (
      printf "SOME TESTS FAILED"\n [] ;!
      check (negb (continuous =? 2)) (exit 1)) ;!
    let! free1 := countfree in
    check (free1 <? free0) (
      printf "FAILED -- lost %d free pages"\n [AInt (free0 - free1)] ;!
      check (negb (continuous =? 2)) (exit 1))).

(** The tests that are run: all, or the one with the name. *)
Definition selected (justone : option (list Z)) (t : (list Z -> prog unit) * string) : bool :=
  match justone with
  | None => true
  | Some name => str_cmp (chars t.2) name =? 0
  end.

(** The loop over the tests; the result is whether one has failed. *)
Fixpoint run_all (justone : option (list Z)) (ts : list ((list Z -> prog unit) * string)) (fail : bool) : prog bool :=
  match ts with
  | [] => Ret fail
  | (f, s) :: ts =>
      if selected justone (f, s) then
        let! ok := run_test f s in
        run_all justone ts (if ok then fail else true)
      else run_all justone ts fail
  end.

Definition once (justone : option (list Z)) : prog unit :=
  printf "usertests starting"\n [] ;!
  let! free0 := countfree in
  let! fail := run_all justone tests false in
  if fail then fails "SOME TESTS FAILED"\n [] else
  let! free1 := countfree in
  if free1 <? free0 then fails "FAILED -- lost some free pages %d (out of %d)"\n [AInt free1; AInt free0]
  else printf "ALL TESTS PASSED"\n [] ;! exit 0.

Definition usertests_main (argv : list (list Z)) : prog unit :=
  match tail argv with
  | [] => once None
  | [a] =>
      if str_cmp a "-c" =? 0 then continuously 1 ;! once None
      else if str_cmp a "-C" =? 0 then continuously 2 ;! once None
      else if negb (byte_at 0 a =? 45) then once (Some a)
      else fails "Usage: usertests [-c] [testname]"\n []
  | _ => fails "Usage: usertests [-c] [testname]"\n []
  end.
End driver.

(** ** Specification: complaints *)

(** Whether the process has printed.  It may not pass afterwards, and must have a meaning;
    descriptor 1 is not given out again. *)
Definition complaint : monitor bool := mkMonitor
  (fun X e s =>
     match e with
     | SYS_exit n => s = true -> n <> 0
     | CRASH => False
     | _ => True
     end)
  (fun X e s =>
     match e in sysE X return X -> Prop with
     | SYS_open _ _ | SYS_dup _ => fun r => r <> 1
     | SYS_pipe _ => fun r => r.2.1 <> 1 /\ r.2.2 <> 1
     | _ => fun _ => True
     end)
  (fun X e s =>
     match e in sysE X return X -> bool with
     | SYS_write fd (Bytes [_]) 1 => fun _ => if fd =? 1 then true else s
     | _ => fun _ => s
     end).

(** ** Lemmas: complaints *)

Lemma obeys_printf s fmt args (Q : unit -> bool -> Prop) :
  fits (chars fmt) false args = true -> Forall pointer_ok args -> (forall s', Q tt s') -> obeys complaint s (printf fmt args) Q.
Proof. intros Hf Hp HQ. by apply (obeys_fprintf _ (fun _ => True)). Qed.

Lemma obeys_fails {A} s fmt args (Q : A -> bool -> Prop) :
  fits (chars fmt) false args = true -> Forall pointer_ok args -> obeys complaint s (fails fmt args) Q.
Proof. intros Hf Hp. unfold fails. apply obeys_bind, obeys_printf; [done..|]. intros s'. by apply obeys_exit. Qed.

Lemma obeys_write s fd b n (Q : Z -> bool -> Prop) : fd <> 1 -> (forall r, Q r s) -> obeys complaint s (write fd b n) Q.
Proof.
  intros Hfd HQ. apply obeys_call; [done|]. intros r _. cbn. apply Z.eqb_neq in Hfd.
  destruct b as [[|x [|y l]]|]; try apply HQ. rewrite Hfd. destruct n as [|[]|]; apply HQ.
Qed.

Lemma obeys_write_at s a n (Q : Z -> bool -> Prop) : (forall r, Q r s) -> obeys complaint s (write 1 (Addr a) n) Q.
Proof. intros HQ. by apply obeys_call. Qed.

Lemma obeys_print_at s a (Q : unit -> bool -> Prop) : (forall s', Q tt s') -> obeys complaint s (print_at a) Q.
Proof.
  intros HQ. unfold print_at. apply (obeys_iter _ (fun _ _ => True)); [done|]. clear s a. intros a s _. apply obeys_bind, obeys_call; [done|].
  intros c _. destruct (c =? 0); [by apply obeys_ret|]. apply obeys_bind. unfold putc. apply obeys_bind, obeys_call; [done|]. intros r _.
  by apply obeys_ret, obeys_ret.
Qed.

Lemma bad_addr_ok x : x ∈ bad_addrs -> 0 <= x < 2 ^ 64.
Proof. unfold bad_addrs. rewrite !elem_of_cons. intros [-> |[-> |H]]; [lia|lia|]. by apply not_elem_of_nil in H. Qed.

Ltac quiet_step :=
  match goal with
  | |- obeys _ _ (ITree.bind _ _) _ => apply obeys_bind
  | |- obeys _ _ (Ret _) _ => apply obeys_ret
  | |- obeys _ _ (exit _) _ => apply obeys_exit; cbn; done
  | |- obeys _ _ (check _ _) _ => apply obeys_check; intros ?
  | |- obeys _ _ (fails _ _) _ => by apply obeys_fails; [reflexivity|repeat constructor; cbn; first [done|apply u64_range|by apply bad_addr_ok]]
  | |- obeys _ _ (printf _ _) _ => apply obeys_printf; [reflexivity|by repeat constructor|intros ?]
  | |- obeys _ _ (print_at _) _ => apply obeys_print_at; intros ?
  | |- obeys _ _ (write 1 (Addr _) _) _ => apply obeys_write_at; intros ?
  | |- obeys _ _ (write _ _ _) _ => apply obeys_write; [by intuition|intros ?]
  | |- obeys _ _ (call _) _ => apply obeys_call; [done|intros ? ?]; cbn [after possible complaint] in *
  | |- obeys _ _ (for_ _ _ _ _) _ => apply (obeys_for_loop _ (fun s => s = false)); [done|intros ? ? -> ?|intros ? ->]
  | |- obeys _ _ (each _ _) _ => apply (obeys_each _ (fun s => s = false)); [done|intros ? ? ? ->|intros ? ->]
  | |- obeys _ _ (forever _) _ => apply (obeys_forever _ (fun s => s = false)); [done|intros ? ->]
  | |- obeys _ _ (ITree.iter _ _) _ => apply (obeys_iter _ (fun _ s => s = false)); [done|intros ? ? ->]
  | |- obeys _ _ (if ?b then _ else _) _ => destruct b eqn:?
  | |- obeys _ _ (let '(_, _) := ?p in _) _ => destruct p
  | |- _ = false => done
  | |- match _ with inl _ => _ | inr _ => _ end => cbn
  end.
Ltac quiet := repeat quiet_step.

(** The test says nothing before it returns, and does not pass after a complaint. *)
Definition sound (t : list Z -> prog unit) : Prop := forall s, obeys complaint false (t s) (fun _ c => c = false).

Lemma quiet_fourfiles names buf : obeys complaint false (fourfiles_check names buf) (fun _ c => c = false).
Proof. revert buf. induction names as [|[i fname] names IH]; intros buf; simpl; [by apply obeys_ret|]. unfold fourfiles_read. quiet; apply IH. Qed.

Create HintDb usertests discriminated.
#[local] Hint Unfold MAXVAplus manywrites execout copyin_test copyout_test copyinstr1 copyinstr2 copyinstr3 rwsbrk truncate1 truncate2 truncate3
  reparent2 pgbug sbrkbugs badarg reparent_test twochildren forkfork forkforkfork argptest createdelete linkunlink linktest unlinkread concreate
  subdir subdir_make subdir_refuse fourfiles sharedfd dirtest bigargtest bigwrite bsstest sbrkbasic sbrkmuch kernmem sbrkfail sbrkarg sbrklast
  sbrk8000 validatetest stacktest opentest writetest writebig createtest openiputtest exitiputtest iputtest mem_test killstatus exitwait rmdot
  fourteen bigfile dirfile iref forktest_test bigdir wait_children take_all mem_alloc mem_free fork_all wait_all sharedfd_read concreate_scan
  writebig_read bigfile_read sbrkbasic_more sbrkfail_fork sbrkfail_child sbrkfail_touch : usertests.

(** The tests whose complaints do not count. *)
Definition lenient (name : string) : bool := existsb (String.eqb name) ["exectest"; "pipe1"; "preempt"].

Lemma tests_sound junk uninit : Forall (fun t => lenient t.2 = false -> sound t.1) (tests junk uninit).
Proof.
  unfold tests. repeat constructor; cbn [fst snd]; intros H; try discriminate H; clear H; intros s; autounfold with usertests; quiet; apply quiet_fourfiles.
Qed.

(** ** Specification: the verdict *)

(** What [wait] has stored in a run of the driver itself, in order; nothing if the run is
    that of a child. *)
Fixpoint statuses (junk : Z) (l : list event) : option (list Z) :=
  match l with
  | [] => Some []
  | Ev e x :: l =>
      match e in sysE X return X -> option (list Z) with
      | SYS_fork => fun r => if r =? 0 then None else statuses junk l
      | SYS_wait => fun r => cons (stored junk r.2) <$> statuses junk l
      | _ => fun _ => statuses junk l
      end x
  end.

(** All of the [m] tests have exited with 0; the first and the last status are those of
    the processes that count the free pages. *)
Definition all_passed (m : nat) (sts : list Z) : Prop :=
  exists c0 ts c1, sts = c0 :: ts ++ [c1] /\ length ts = m /\ Forall (fun st => st = 0) ts.

(** A run of the driver, with the statuses so far, or of a child. *)
Inductive role := Child_ | Main (sts : list Z).

Definition verdict (junk : Z) (m : nat) : monitor role := mkMonitor
  (fun X e s =>
     match e with
     | SYS_exit n => match s with Child_ => True | Main sts => n = 0 -> all_passed m sts end
     | CRASH => s = Child_
     | _ => True
     end)
  (fun X e s x => True)
  (fun X e s =>
     match s with
     | Child_ => fun _ => Child_
     | Main sts =>
         match e in sysE X return X -> role with
         | SYS_fork => fun r => if r =? 0 then Child_ else s
         | SYS_wait => fun r => Main (sts ++ [stored junk r.2])
         | _ => fun _ => s
         end
     end).

(** ** Lemmas: the verdict *)

Lemma follow_child junk m l : follow (verdict junk m) l Child_ Child_.
Proof. induction l as [|[X e x] l IH]; [done|]. split; [exact I|]. exact IH. Qed.

Lemma follow_statuses junk m l sts :
  follow (verdict junk m) l (Main sts) (match statuses junk l with Some l => Main (sts ++ l) | None => Child_ end).
Proof.
  revert sts. induction l as [|[X e x] l IH]; intros sts; [cbn; by rewrite app_nil_r|]. split; [exact I|].
  destruct e; cbn [after verdict statuses]; try apply IH.
  - destruct (x =? 0); [apply follow_child|apply IH].
  - specialize (IH (sts ++ [stored junk x.2])). destruct (statuses junk l); cbn [fmap option_fmap option_map]; [|exact IH].
    by rewrite <- app_assoc in IH.
Qed.

(** A child may do anything. *)
Lemma child_obeys {R} junk m (t : prog R) : obeys (verdict junk m) Child_ t (fun _ s => s = Child_).
Proof.
  intros n. revert t. induction n as [|n IH]; intros t; [done|]. cbn [obeys_for]. destruct (observe t) as [v|t'|X e k]; [done|apply IH|].
  split; [by destruct e|]. intros x _. cbn. apply IH.
Qed.

Lemma child_exits {R} junk m (t : prog R) c (Q : unit -> role -> Prop) : obeys (verdict junk m) Child_ (t ;! exit c) Q.
Proof. apply obeys_bind. eapply obeys_mono; [apply child_obeys|]. intros v s ->. by apply obeys_exit. Qed.

Lemma verdict_printf junk m sts fmt args (Q : unit -> role -> Prop) :
  fits (chars fmt) false args = true -> Forall pointer_ok args -> Q tt (Main sts) -> obeys (verdict junk m) (Main sts) (printf fmt args) Q.
Proof. intros Hf Hp HQ. apply (obeys_fprintf _ (fun s => s = Main sts)); [done..|by intros c s ->|by intros s ->]. Qed.

Lemma verdict_fails {A} junk m sts fmt args (Q : A -> role -> Prop) :
  fits (chars fmt) false args = true -> Forall pointer_ok args -> obeys (verdict junk m) (Main sts) (fails fmt args) Q.
Proof. intros Hf Hp. unfold fails. apply obeys_bind, verdict_printf; [done..|]. by apply obeys_exit. Qed.

Ltac drive :=
  match goal with
  | |- obeys _ _ (ITree.bind _ _) _ => apply obeys_bind
  | |- obeys _ _ (Ret _) _ => apply obeys_ret
  | |- obeys _ _ (check _ _) _ => apply obeys_check; intros ?
  | |- obeys _ _ (fails _ _) _ => by apply verdict_fails; [reflexivity|repeat constructor]
  | |- obeys _ _ (printf _ _) _ => apply verdict_printf; [reflexivity|by repeat constructor|]
  | |- obeys _ _ (call _) _ => apply obeys_call; [done|intros ? _]; cbn [after verdict]
  end.

(** After [fork], the child ends in its own part and the driver goes on. *)
Lemma verdict_fork {R} junk m sts pid fmt child (rest : prog R) Q :
  fits (chars fmt) false [] = true -> (forall Q', obeys (verdict junk m) Child_ child Q') -> obeys (verdict junk m) (Main sts) rest Q ->
  obeys (verdict junk m) (if pid =? 0 then Child_ else Main sts) (check (pid <? 0) (fails fmt []) ;! check (pid =? 0) child ;! rest) Q.
Proof.
  intros Hf Hc Hr. destruct (Z.eqb_spec pid 0) as [->|Hne].
  - repeat drive; done.
  - repeat drive; [by apply verdict_fails|done|done].
Qed.

Lemma verdict_countfree junk m sts (Q : Z -> role -> Prop) :
  (forall n c, Q n (Main (sts ++ [c]))) -> obeys (verdict junk m) (Main sts) countfree Q.
Proof.
  intros HQ. unfold countfree. do 6 drive. apply verdict_fork; [done| |].
  - intros Q'. unfold countfree_child. drive. drive. apply child_exits.
  - drive. drive. drive. unfold countfree_read. apply (obeys_iter _ (fun _ s => s = Main sts)); [done|]. intros n s ->.
    repeat drive. destruct (x2.1 =? 0); drive; [|done]. cbv beta iota. repeat drive. apply HQ.
Qed.

Lemma verdict_run junk m sts f s (Q : bool -> role -> Prop) :
  (forall c, Q (c =? 0) (Main (sts ++ [c]))) -> obeys (verdict junk m) (Main sts) (run_test junk f s) Q.
Proof.
  intros HQ. unfold run_test. do 4 drive. apply verdict_fork; [done|intros Q'; apply child_exits|]. do 3 drive.
  destruct (negb (stored junk x0.2 =? 0)); repeat drive; apply HQ.
Qed.

Lemma verdict_all junk m sts justone ts fail (Q : bool -> role -> Prop) :
  (forall l fail', length l = length (filter (fun t => selected justone t = true) ts) ->
     (fail' = false -> fail = false /\ Forall (fun st => st = 0) l) -> Q fail' (Main (sts ++ l))) ->
  obeys (verdict junk m) (Main sts) (run_all junk justone ts fail) Q.
Proof.
  revert sts fail. induction ts as [|[f s] ts IH]; intros sts fail HQ; cbn [run_all].
  - apply obeys_ret. specialize (HQ [] fail). rewrite app_nil_r in HQ. by apply HQ.
  - destruct (selected justone (f, s)) eqn:E; [|apply IH; by rewrite filter_cons_False in HQ by (by rewrite E)].
    rewrite filter_cons_True in HQ by done.
    apply obeys_bind, verdict_run. intros c. apply IH. intros l fail' Hl Hf. rewrite <- app_assoc. apply HQ; [simpl; lia|].
    intros E'. specialize (Hf E'). destruct (Z.eqb_spec c 0) as [->|Hc]; destruct Hf as [Ef Hf]; [|discriminate Ef]. split; [done|]. by constructor.
Qed.

Lemma verdict_once junk uninit justone (Q : unit -> role -> Prop) :
  obeys (verdict junk (length (filter (fun t => selected justone t = true) (tests junk uninit)))) (Main []) (once junk uninit justone) Q.
Proof.
  unfold once. drive. drive. drive. apply verdict_countfree. intros free0 c0. drive. apply verdict_all. intros l fail Hl Hf.
  destruct fail; [drive|]. drive. apply verdict_countfree. intros free1 c1. destruct (free1 <? free0); [by drive|]. drive. drive.
  apply obeys_exit. intros _. exists c0, l, c1. split_ands; [done|done|]. by apply Hf.
Qed.

(** The call is not [kill], before which [preempt] says so. *)
Definition no_kill (ev : event) : bool := match ev with Ev e _ => match e with SYS_kill _ => false | _ => true end end.

(** A run that passes after a complaint *)
Lemma performs_complaint (t : prog unit) ans n :
  match perform ans n t with Some (l, Exited 0) => follow complaint l false true /\ forallb no_kill l = true | _ => False end ->
  exists n l, runs n t l (Exited 0) /\ follow complaint l false true /\ forallb no_kill l = true.
Proof.
  destruct (perform ans n t) as [[l [|v|[]|]]|] eqn:E; try done. intros H. exists n, l. split; [by eapply perform_runs|done].
Qed.

(** [writebig] is content with a file of which it could read nothing back: it compares the
    number of blocks only with 267, the number of blocks but one. *)
Lemma writebig_reads_nothing : exists n l,
  runs n (writebig (chars "writebig") ;! exit 0 : prog unit) l (Exited 0) /\ follow complaint l false false.
Proof.
  destruct (perform (succeeding (0, []) (5, Some 0)) 3000 (writebig (chars "writebig") ;! exit 0 : prog unit)) as [[l o]|] eqn:E; [|discriminate E].
  assert (Ho : o = Exited 0) by (vm_compute in E; by injection E as _ <-). subst o.
  assert (Hf : follow complaint l false false) by (vm_compute in E; injection E as <-; vm_compute; by repeat split).
  exists 3000%nat, l. split; [by eapply perform_runs|done].
Qed.

(** ** Properties *)

(** The name that is given to the driver, if any; nothing for the other ways to call it. *)
Definition chosen (argv : list (list Z)) : option (option (list Z)) :=
  match tail argv with
  | [] => Some None
  | [a] => if (str_cmp a "-c" =? 0) || (str_cmp a "-C" =? 0) || (byte_at 0 a =? 45) then None else Some (Some a)
  | _ => None
  end.



(** C25: a test that complains does not pass.  In every run of a test of the table in which
    it exits with 0, or returns, it has printed nothing, and no run is without meaning;
    except for the three tests below. *)
Theorem complaints_fail junk uninit t s n l (o : ending unit) c :
  t ∈ tests junk uninit -> lenient t.2 = false -> runs n (t.1 s ;! exit 0) l o -> follow complaint l false c ->
  o <> Crashed /\ (o = Exited 0 -> c = false).
Proof.
  intros Ht Hl Hr Hf. pose proof (proj1 (Forall_forall _ _) (tests_sound junk uninit) t Ht Hl s) as Hs.
  assert (Ho : obeys complaint false (t.1 s ;! exit 0) (fun _ : unit => fun _ => False)).
  { apply obeys_bind. eapply obeys_mono; [exact Hs|]. intros v b ->. by apply obeys_exit. }
  pose proof (obeys_runs _ _ _ _ _ _ _ _ (Ho n) Hr Hf) as H. destruct o as [|v|st|]; try done. split; [done|]. intros [= ->].
  destruct c; [|done]. by destruct (H eq_refl).
Qed.

Lemma complaints_fail_witness :
  exists l, runs 200 (opentest (chars "opentest") ;! exit 0 : prog unit) l (Exited 1) /\ follow complaint l false true /\
    (Exited 1 <> Crashed (R := unit) /\ (Exited 1 = Exited (R := unit) 0 -> true = false)).
Proof.
  destruct (perform (succeeding (0, []) (5, Some 0)) 200 (opentest (chars "opentest") ;! exit 0 : prog unit)) as [[l o]|] eqn:E; [|discriminate E].
  assert (Ho : o = Exited 1) by (vm_compute in E; by injection E as _ <-). subst o.
  assert (Hf : follow complaint l false true) by (vm_compute in E; injection E as <-; vm_compute; by repeat split).
  apply perform_runs in E. exists l. split; [exact E|]. split; [exact Hf|].
  apply (complaints_fail 0 0 (opentest, "opentest") (chars "opentest") 200 l (Exited 1) true); [|reflexivity|exact E|exact Hf].
  unfold tests. do 43 (apply list_elem_of_further). apply list_elem_of_here.
Defined.

(** The three exceptions do pass with a complaint.  There is a run of [exectest] in
    which [wait] returned another child, a run of [pipe1] in which the bytes read were
    wrong, and a run of [preempt] in which nothing could be read and no child is killed, that
    all end with 0. *)
Theorem lenient_tests_pass junk uninit :
  Forall (fun t => lenient t.2 = true ->
    exists n l, runs n (t.1 (chars t.2) ;! exit 0 : prog unit) l (Exited 0) /\ follow complaint l false true /\
      forallb no_kill l = true) (tests junk uninit).
Proof.
  unfold tests. repeat constructor; cbn [fst snd]; intros H; try discriminate H; clear H.
  - apply (performs_complaint _ (succeeding (2, [79; 75]) (6, Some 0)) 300). vm_compute. repeat split; discriminate.
  - apply (performs_complaint _ (succeeding (1, [7]) (5, Some 0)) 300). vm_compute. repeat split; discriminate.
  - apply (performs_complaint _ (succeeding (0, []) (5, Some 0)) 300). vm_compute. repeat split; discriminate.
Qed.
